(* ===== verification/_CoqProject ===== *)
-Q . S2P
Prelude.v
External.v
Errors.v
Ids.v
Trail.v
Resource.v
Jobs.v
State.v
Controllers.v
Runtime.v
Approval.v
Snapshot.v
Detection.v
Inspector.v
Deployment.v
Capability.v
Secrets.v
Application.v
Agent.v
Events.v
AuditChain.v
Verifier.v
Provider.v
Workspace.v
Json.v
Plugin.v
Surfaces.v
Dashboard.v
CpErrors.v
Auth.v
Config.v
DurableJobs.v
ResourceStore.v
CpStores.v
Repos.v
Delivery.v
Containers.v
Previews.v
Worker.v
Api.v
ApiFacts.v
PgProvider.v
StorageProvider.v
OciClient.v
TlsDns.v
Client.v
Assembly.v
