(* ===== verification/Prelude.v ===== *)
(** * Labrys: a verification of the platform's domain logic and control plane

    Labrys is a self-hosted application platform.  Its core crate
    (src/crates/labrys-core/src) holds the domain logic: typed identifiers, the
    application aggregate and its portable manifest, project inspection and
    adoption, runtime detection and planning, the
    resource lifecycle with its job queue and controllers, deployments with
    promotion and rollback, capability bindings, the sealed secret store, agent
    sessions, session workspaces and previews, provider contracts, the plugin
    protocol, the observability contracts with their audit chain and
    verifier, and the command line and dashboard surfaces.  The core does no I/O.
    The control plane (src/crates/labrys-control-plane/src) loads its
    configuration and access tokens, serves an HTTP API with a command line client,
    stores these values in PostgreSQL, runs the jobs, provisions databases and
    buckets, delivers images and hostnames, and manages containers and previews.
    This library models both crates.

    ** How the parts interact

    A user's application ([Application]) declares desired state ([State]).  The
    controllers ([Controllers]) compare it with the observed resources
    ([Resource]), and enqueue idempotent jobs ([Jobs]) when the two differ; a
    worker claims a job, and completes or fails it under the retry policy of the
    resource.  A project is read as a snapshot of its files ([Snapshot]): inspection
    ([Inspector]) reports what it shows as evidence and proposes an adoption plan,
    and each runtime adapter recognises its layout in it ([Detection]).  The runtime
    layer ([Runtime]) turns a detection into a plan and a simulated build; a deployment ([Deployment]) takes the image of that build
    through its phase graph, and the rollout promotes it or rolls it back after a
    human approval ([Approval]).  Applications bind capabilities to providers
    ([Capability]), whose credentials live in the secret store ([Secrets]).  Agent
    sessions ([Agent]) wrap an external coding agent, scan what it says with the
    secret store and ask the platform policy before it acts; each session works in
    a worktree of its own and shows its work in a preview ([Workspace]).  What
    happens is recorded as events, logs and usage ([Events]) and in a hash chain
    ([AuditChain]); a change is accepted on the evidence of a verifier ([Verifier]).
    External processes extend the platform through the plugin protocol ([Plugin]).
    Operators act through one command executor ([Surfaces]) that checks permission
    and idempotency key before it changes the platform, and read a dashboard
    ([Dashboard]) rendered from the same state.

    The control plane starts from a validated configuration ([Config]) and admits
    requests by token and rate ([Auth]).  Applications with their environments and
    states, capabilities and deployments are rows behind repositories whose
    updates are transactions guarded by a version ([Repos]).  The queue is a table with leases ([DurableJobs]),
    resources are rows that must follow the core lifecycle ([ResourceStore]), and
    events, logs, audit records, evidence and usage are tables that must agree
    with the core logs ([CpStores]).  The provider runtime ([Delivery]) executes
    provider operations ([Provider]) against injected adapters and writes all of
    these tables; the worker ([Worker]) claims jobs, has a dispatcher drive the
    provider runtime, and reports the outcome to the queue.  The container runtime
    ([Containers]) turns a plan into the arguments of a container client and probes
    what it started; the preview manager ([Previews]) builds, runs and probes the
    preview of a session and writes its rows, events, logs and evidence.

    The HTTP API ([Api], its guarantees in [ApiFacts]) gates every request by token,
    actor and rate, replays recorded responses, and turns commands into jobs of the
    queue; the command line ([Client]) sends one request per command to it.  The
    adapters behind the provider runtime are clients of other systems: managed
    PostgreSQL ([PgProvider]), buckets on a file system ([StorageProvider]), an OCI
    registry ([OciClient]), DNS and certificates ([TlsDns]).  [Assembly] builds them
    from a configuration and puts the dispatcher of the worker on top of them.

    ** Files and the code they model

    - [Prelude]: results, panics, the state monad [M] of [&mut self] methods, the
      machine integers, strings, ordered maps and lists the components share, with
      the tactics and the hint database.
    - [External]: the crates [uuid], [chrono] and [serde_json], the string [Debug]
      form and the cipher crates as type classes with their laws, and a reference
      instance of each ([serde_yaml] has its class in [Application]).
    - [Errors]: error.rs.  [Ids]: ids.rs.  [State]: state.rs.
    - [Trail]: the transition history that resources, deployments and bindings
      keep, as one inductive predicate.
    - [Resource], [Jobs], [Controllers]: the three parts of controller.rs
      (redaction, retry policy and resource phases; [Job] and [JobQueue]; health
      aggregation, [ReconcileResult] and the five controllers).
    - [Runtime]: runtime.rs, the planning half ([RuntimeAdapter::prepare], the
      adapters' commands, the simulated build, the health rules).
    - [Approval], [Snapshot], [Inspector]: the parts of inspector.rs (approvals;
      project snapshots and the string operations they need; the detection stages,
      plugins, the profile builder, adoption plans and the gate of broad changes).
    - [Detection]: the detecting half of runtime.rs.
    - [Deployment]: deployment.rs, whole.
    - [Capability], [Secrets]: the two parts of capability.rs.
    - [Application]: origin.rs, environment.rs, application.rs, repository.rs and
      manifest.rs.
    - [Agent]: agent.rs.
    - [Events], [AuditChain], [Verifier]: the three parts of observability.rs of the
      core (events, logs, health snapshots, usage; the audit chain; evidence,
      stages and verdicts).
    - [Provider]: provider.rs.  [Workspace]: workspace.rs.
    - [Json], [Plugin]: JSON values as an interface, and plugin.rs.
    - [Surfaces], [Dashboard]: the two parts of surfaces.rs (the command executor;
      the rendered dashboard and its write gate).
    - [CpErrors]: error.rs, redact.rs and mapping.rs of the control plane, the
      integer casts and the classes [Serde] and [PgTime] of its database columns.
    - [Auth]: auth.rs.  [Config]: config.rs.
    - [DurableJobs]: jobs.rs.  [ResourceStore]: repos/resources.rs.
    - [CpStores]: observability.rs of the control plane.
    - [Repos]: repos/applications.rs, repos/capabilities.rs, repos/deployments.rs.
    - [Delivery]: providers.rs up to its job dispatcher.
    - [Containers]: runtime.rs of the control plane.  [Previews]: preview.rs.
    - [Worker]: worker.rs, the dispatchers of dispatch.rs and of providers.rs.
    - [Api], [ApiFacts]: api.rs, its handlers and what they guarantee.
    - [PgProvider]: postgres_provider.rs.  [StorageProvider]: storage_provider.rs.
    - [OciClient]: oci_client.rs.  [TlsDns]: tls_dns.rs.
    - [Client]: client.rs and bin/labrys.rs.
    - [Assembly]: the construction and selection of the dispatcher in dispatch.rs.

    Structs are records and enums are inductive types with the source's fields and
    variants.  A pure method is a function; a fallible one returns [result]; a
    [&mut self] method is a function of type [M S E A], which returns the final
    state on the error path too, so that a write before a refusal is visible;
    a method that can panic ends in [Panic].  Each public method is one definition
    and the mutating ones are collected, per component, in a type of operations
    with a run function and a step relation, over which the invariants are
    proved by rule induction.

    A table is a finite map from its key to rows with the columns the code reads,
    or a list of rows under a sequence; an SQL statement is one step on it, with
    its WHERE and ORDER BY clauses as functions and its constraint violations as
    errors.  The calls of the provider runtime and of the worker are sequences of
    such steps on the record [Db] of tables and on the state of the adapters, so
    what was written before a call fails stays written; a database transaction
    ([transaction]) restores the tables when it fails.

    ** What the code cannot compute

    A fresh UUID, the clock and a fresh nonce are arguments of the operation that
    draws them ([Rand], [Draws], and [Tick] for a worker's pass).  The rows a
    [FOR UPDATE SKIP LOCKED] query may see are an argument too ([visible]).  A
    theorem that needs freshness says so as a hypothesis (such as
    [fresh_for] on a deployment step), which the witnesses meet with concrete
    values.  The textual form of a UUID or a time ([ChronoText]), the
    (de)serialisers ([Serde], [JsonLib], [RpcErrorSerde]), the precision of a
    database instant and of its rounding ([PgTime], [SubsecRound]), Unicode
    lower case ([StrLower]) and the cryptographic
    primitives are class parameters; the laws used are round trips, injectivity,
    monotonicity and idempotence of the instant's precision,
    and, for the theorem on pinned envelopes alone, that authenticated decryption
    succeeds only under the associated data used to seal ([AeadBinds]).  The
    adapters of providers, registries and domains are records of functions over a
    state of their own; a domain adapter is assumed to attach traffic through the
    core's plan ([PlannedAttachment]), as the one in providers.rs does.
    Environment variables, token files and their parsed dates ([ChronoParse]) are
    arguments of the configuration and the token store.  Child processes and
    connections of the container runtime are a record of functions ([Host]); the
    clock, identifiers and directories of the preview manager another ([Outside]).

    What a request reads (instants, identifiers, decoded texts) is a record
    ([Reading]), its headers are a function, and the order of an unordered SELECT is
    an argument ([scan]); assignment by index into a JSON value has its own class
    ([JsonIndex]).  The PostgreSQL server, the file system, the registry, the
    resolver with openssl, and the transport of the command line are records of
    functions over a state of their own ([PgOutside], [BucketOutside], [Http],
    [DomainOutside], [ClientOutside]).  Theorems about the first three assume what
    their documentation says: the effect of each statement on the catalog
    ([PgCatalogLaws]), of each file operation on directories ([BucketFsLaws]), and
    that a tag answers with the digest put under it ([OciTags]).  [HashIter] is the
    order in which a hash map is visited, [HttpLib] and [JsonBool] are parts of the
    HTTP and JSON crates, [HttpServer] is what lies between a request of the command
    line and a handler (the URL as it is parsed, the headers as they arrive, the
    router) with its documented behaviour on plain values ([HttpServerLaws]), and [StrLowerLaws] says what lower case is on ASCII.  Each
    class has a reference instance, at which the witnesses apply the theorems.

    ** Bounds and fuel

    Integers of the source are [Z] kept in range by explicit operations.  Rust's
    overflow behaviour depends on the build profile, so arithmetic that can
    overflow takes a [BuildProfile]: it panics in a checked build and wraps in a
    release build.  The confidences of an inspection are IEEE 754 values
    ([spec_float]), so comparisons with NaN behave as in Rust.  Casts between signed columns and unsigned fields wrap as [as]
    does; sequences and attempt counters fail at the end of their column type.
    Hashes wrap at 64 bits.  The CPU limit of a container is a double: division,
    maximum and printing round as IEEE 754 does ([f64_div]).  Recursion is structural everywhere
    but in the key stream of the legacy cipher, whose loop produces eight bytes a
    round: its fuel is the requested length, which is at least the number of
    rounds, and [legacy_round_trip] rests on the lemma that the stream has the
    requested length.  A worker's loop is a recursion over the passes it makes.

    ** What the theorems show

    - Jobs: at most one job in flight per idempotency key; every queue operation
      refines an abstract job machine; the oldest due job is claimed; a job that
      always fails dies exactly at its attempt budget; a call in the wrong status
      changes nothing; keys are injective in their parts.
    - Resources: the evidence of every reachable resource is a legal history that
      ends in its phase; what each operation does on every branch; the retry delay
      and where it panics; redaction of failure reasons.
    - Controllers: reconciling twice enqueues nothing new; aggregate health is the
      worst reading, and a healthy report needs a platform probe; when a resource
      is in sync.
    - Deployment: in every reachable state identifiers are unique, each deployment
      has a legal history and the image of its own build, and the current
      deployment and the routed domains point at one that passed the health gate;
      no call panics; a deployment
      becomes healthy only on a healthy report or an approved rollback; the
      behaviour of promotion and rollback on all branches; a planned rollback can
      be carried out.
    - Capability and Secrets: bindings resolve by the stated rules and their mode
      history is legal; the sealed store refines a plain map of versioned values in
      which production replacements need approval, but for one stated exception;
      envelopes are tied to their scope; injection and the leak guard are sound.
    - Application: the repository is a finite map; a manifest round-trips through
      YAML and import.
    - Runtime: the plan produced for each input; development and production
      commands differ wherever the adapter separates them.
    - Detection: which adapter is chosen for a snapshot, and that a deep layout
      resolves its entry point and runners.
    - Inspector: every reported value and fact has an observation, in the order of
      the stages; the language equals the unanimous one of Dockerfile and manifests;
      plugins never override; an adoption plan keeps what exists; the gate of broad
      changes enforces its sequence.
    - Agent: the event log of every reachable session only grows, is numbered without
      gaps and contains none of the protected secret values; a prompt is sent to
      the backend only when policy, time limit and secret scan allow it; an ended
      session stays ended.
    - Events, AuditChain, Verifier: events keep their attribution and show no secret;
      usage totals equal a reference sum; verification accepts exactly intact
      chains, and a tampered log that verifies under a known final hash exhibits a
      digest collision; a verdict rests on recorded evidence only, and a recorded
      failure is permanent; what retention keeps.
    - Provider, Workspace, Plugin: approvals of destructive operations, operation
      keys, the gates of registry and traffic; worktrees of an application are
      isolated and a preview's URL is gated by health and expiry; a plugin is
      active only if compatible, at most one per family, and its frames
      round-trip.
    - DurableJobs: every row of a reachable table is well formed; every statement
      refines the job machine of the core queue; a lease protects a claim; an
      expired lease is recovered.
    - ResourceStore, CpStores: each statement on a resource refines the core
      method on the stored resource; the durable audit trail and events are those
      of the core logs; retention deletes only expired non-blocking evidence; what
      usage counters read back as.
    - Delivery: a destructive operation that no named approval covers is inert; a hostname converges only when every
      gate is met, and a failed certificate detaches it.
    - Surfaces, Dashboard: a request acts at most once per key, only when permitted
      and with one audit record; where the executor panics; agent events never
      change the health an operator sees.
    - Auth, Config: a revoked token stays refused until a reload; the rate limit
      over any minute; token lines round-trip; a loaded configuration is bounded.
    - Repos: every stored application loads; a failed operation changes nothing; no
      committed update is lost; updates and observations refine the core aggregate;
      a first save round-trips; a deletion is complete.
    - Containers, Previews: the arguments carry the sandbox limits; only an HTTP
      answer is healthy; a preview has a URL exactly while a container that
      answered healthy is live for it; worktrees stay under their root and apart.
    - Worker: one pass claims at most one job, dispatches it once and closes its row
      by the answer, whatever the dispatcher does; over any number of passes the
      queue stays in its machine; what a failed attempt leaves behind; the
      statistics balance.
    - ApiFacts: a refused token learns nothing about why; agents cannot import, build,
      deploy or roll back; the API delivers nothing itself; one effect per key; a
      healthy report rests on a healthy deployment.
    - PgProvider, StorageProvider: an operation returns, touches only what belongs to
      its resource, and its outcome is what the catalog or the directory shows;
      outcomes show no password.
    - OciClient, TlsDns: a delivery is verified only under the digest of the pushed
      bytes; a hostname is routed only after it resolved and has a certificate.
    - Client: every command sends one request, which the router hands to the handler
      it is meant for and which is read with the caller's identity and key, for plain
      path segments and header values; the exit code tells what the API said.
    - Assembly: a configuration that loads also builds, and its passwords are
      redacted; a job whose target names none of its adapters touches none of them.

    Some theorems state behaviour that departs from a comment or from the intent
    of the code: a requeued dead job can share its key with a job in flight, a
    recovered resource stays reported as a mismatch, replacing a production secret
    trusts the caller's flag, a high-risk prompt stays blocked after approval, an
    edit that moves a field boundary of an audit record is not detected, refusing
    a plugin can evict an active one, recovery ignores the attempt budget, the
    record of a provider operation is never updated, two conventions of the
    inspector can never apply, a build without an environment panics, a token
    reload forgets revocations, saving an application ignores its generation, a
    deployment's phase can be set outside its graph, revoking a live preview
    leaves its URL, a job whose resource
    became ready through the provider runtime never completes, a second deploy of an
    environment is accepted and never runs, a key used again for another command
    gets the first response, provisioning a database again never helps, a refused
    certificate keeps traffic attached, a refused token exits with the code of a
    failed command, an identifier on the command line is not encoded and can reach
    another handler, and a job for a resource or for a capability such as
    database.postgres reaches no adapter but the generic test double.

    ** Not modelled

    Of the core crate only the re-exports of lib.rs.  In the control plane: the
    re-exports of lib.rs, db.rs (connection pool and migrations), the sockets, TLS
    and body extraction of api.rs, which are the web framework's, the argument parser
    of bin/labrys.rs, the drain of worker.rs, which only waits, and the process entry
    point bin/control-plane.rs.  The operator console in TypeScript is outside. *)

From stdpp Require Import base option list strings pretty gmap sorting.
From Stdlib Require Import ZArith Lia String Ascii.

(* ------------------------------------------------------------------ *)
(** * Results, panics and the state monad of [&mut self] methods *)

(** Rust's [Result<A, E>]. *)
Inductive result (E A : Type) : Type :=
| Ok (a : A)
| Err (e : E).
Arguments Ok {E A} a.
Arguments Err {E A} e.

(** A computation either finishes with a value or panics (an [expect] that
    fails, an arithmetic overflow in a checked build, a panicking library
    call). *)
Inductive outcome (A : Type) : Type :=
| Done (a : A)
| Panic (msg : string).
Arguments Done {A} a.
Arguments Panic {A} msg.

(** A [&mut self] method that returns [Result<A, E>]: the final state is
    returned on the error path too, so a method that writes a field before it
    fails is modelled as such. *)
Definition M (S E A : Type) : Type := S → outcome (S * result E A).

#[global] Instance result_ret E : MRet (result E) := λ A a, Ok a.
#[global] Instance result_bind E : MBind (result E) := λ A B f r,
  match r with Ok a => f a | Err e => Err e end.
#[global] Instance result_throw E : MThrow E (result E) := λ A e, Err e.

#[global] Instance outcome_ret : MRet outcome := λ A a, Done a.
#[global] Instance outcome_bind : MBind outcome := λ A B f o,
  match o with Done a => f a | Panic m => Panic m end.

#[global] Instance M_ret S E : MRet (M S E) := λ A a s, Done (s, Ok a).
#[global] Instance M_bind S E : MBind (M S E) := λ A B f m s,
  match m s with
  | Done (s', Ok a) => f a s'
  | Done (s', Err e) => Done (s', Err e)
  | Panic msg => Panic msg
  end.
#[global] Instance M_throw S E : MThrow E (M S E) := λ A e s, Done (s, Err e).

(** Reading and writing [self]. *)
Definition get {S E} : M S E S := λ s, Done (s, Ok s).
Definition put {S E} (s : S) : M S E unit := λ _, Done (s, Ok tt).
Definition modify {S E} (f : S → S) : M S E unit := λ s, Done (f s, Ok tt).
(** A pure computation that may panic, and one that returns a [Result]. *)
Definition lift_o {S E A} (o : outcome A) : M S E A := λ s,
  match o with Done a => Done (s, Ok a) | Panic m => Panic m end.
Definition lift_r {S E A} (r : result E A) : M S E A := λ s, Done (s, r).
(** [opt.expect(msg)] and [opt.ok_or(e)]. *)
Definition expect {A} (msg : string) (o : option A) : outcome A :=
  match o with Some a => Done a | None => Panic msg end.
Definition ok_or {E A} (e : E) (o : option A) : result E A :=
  match o with Some a => Ok a | None => Err e end.

(** Runs a method on a component of a larger state ([self.field.method()]). *)
Definition zoom {S T E A} (proj : S → T) (upd : T → S → S) (m : M T E A) : M S E A :=
  λ s, match m (proj s) with
       | Done (t, r) => Done (upd t s, r)
       | Panic msg => Panic msg
       end.

(** [run_op H] evaluates a monadic run recorded in the equation [H]. *)
Ltac unfold_monad_in H :=
  unfold get, put, modify, lift_o, lift_r, expect, ok_or, zoom,
    mbind, mret, mthrow, M_bind, M_ret, M_throw, outcome_bind, outcome_ret,
    result_bind, result_ret, result_throw in H; simpl in H.
Ltac unfold_monad :=
  unfold get, put, modify, lift_o, lift_r, expect, ok_or, zoom,
    mbind, mret, mthrow, M_bind, M_ret, M_throw, outcome_bind, outcome_ret,
    result_bind, result_ret, result_throw; simpl.
Ltac run_op H := unfold_monad_in H; simplify_eq/=; repeat (case_match; simplify_eq/=).
Ltac run_goal := unfold_monad; simplify_eq/=; repeat (case_match; simplify_eq/=).

(** Inversion of sequenced runs. *)
Lemma result_bind_Ok {E A B} (m : result E A) (f : A → result E B) b :
  (m ≫= f) = Ok b → ∃ a, m = Ok a ∧ f a = Ok b.
Proof. destruct m as [a|]; simpl; [|done]. eauto. Qed.
Lemma M_bind_Ok {S E A B} (m : M S E A) (f : A → M S E B) s s' b :
  (m ≫= f) s = Done (s', Ok b) → ∃ s1 a, m s = Done (s1, Ok a) ∧ f a s1 = Done (s', Ok b).
Proof. unfold mbind, M_bind. destruct (m s) as [[s1 [a|e]]|]; [eauto|done|done]. Qed.
(** One step of a run that succeeds. *)
Tactic Notation "ok_step" ident(E) ident(s1) ident(a) ident(E1) :=
  apply M_bind_Ok in E as (s1 & a & E1 & E).
Lemma ret_bind {S E A B} (a : A) (f : A → M S E B) : mret a ≫= f = f a.
Proof. done. Qed.
Lemma lift_ok_bind {S E A B} (a : A) (f : A → M S E B) : lift_r (Ok a) ≫= f = f a.
Proof. done. Qed.
Lemma M_bind_Err {S E A B} (m : M S E A) (f : A → M S E B) s s' e :
  (m ≫= f) s = Done (s', Err e) →
  m s = Done (s', Err e) ∨ ∃ s1 a, m s = Done (s1, Ok a) ∧ f a s1 = Done (s', Err e).
Proof. unfold mbind, M_bind. destruct (m s) as [[s1 [a|e']]|]; [eauto|intros [= -> ->]; eauto|done]. Qed.

(* ------------------------------------------------------------------ *)
(** * Machine integers *)

Definition u32_max : Z := 4294967295.
Definition u64_max : Z := 18446744073709551615.
Definition i64_max : Z := 9223372036854775807.

(** Whether the build checks integer overflow (the dev and test profiles
    panic, the release profile wraps). *)
Class BuildProfile := { overflow_checks : bool }.

Definition wrap_u64 (z : Z) : Z := z mod (u64_max + 1).
Definition wrap_u32 (z : Z) : Z := z mod (u32_max + 1).

(** [a + b] on an unsigned type with maximum [mx]. *)
Definition add_unsigned `{BuildProfile} (mx a b : Z) : outcome Z :=
  if decide (a + b ≤ mx)%Z then Done (a + b)%Z
  else if overflow_checks then Panic "attempt to add with overflow"
  else Done ((a + b) mod (mx + 1))%Z.

(** The [saturating_*] operations. *)
Definition sat_add (mx a b : Z) : Z := Z.min mx (a + b).
Definition sat_mul (mx a b : Z) : Z := Z.min mx (a * b).
Definition sat_sub (a b : Z) : Z := Z.max 0 (a - b).
Definition sat_pow (mx a n : Z) : Z := Z.min mx (a ^ n).

Lemma add_unsigned_done `{BuildProfile} mx a b :
  (a + b ≤ mx)%Z → add_unsigned mx a b = Done (a + b)%Z.
Proof. intros. unfold add_unsigned. by case_decide. Qed.

(** One FNV-1a step on a [u64] state. *)
Definition fnv_step (hash : Z) (byte : ascii) : Z :=
  wrap_u64 (Z.lxor hash (Z.of_N (N_of_ascii byte)) * 0x100000001b3).

(** ** Lower-case hexadecimal of fixed width ([{:016x}]) *)

Definition hex_digit (d : Z) : ascii :=
  ascii_of_nat (Z.to_nat (if decide (d < 10)%Z then 48 + d else 87 + d)).
Fixpoint hex_fixed (width : nat) (z : Z) : string :=
  match width with
  | O => ""
  | S w => hex_fixed w (z / 16) +:+ String (hex_digit (z mod 16)) ""
  end.

(* ------------------------------------------------------------------ *)
(** * Strings as UTF-8 byte sequences *)

Definition byte_of (a : ascii) : N := N_of_ascii a.
Definition in_range (lo hi : N) (a : ascii) : bool :=
  (lo <=? byte_of a)%N && (byte_of a <=? hi)%N.

(** The UTF-8 encodings of the characters with the Unicode [White_Space]
    property, by length. *)
Definition ws1 (a : ascii) : bool := in_range 9 13 a || (byte_of a =? 32)%N.
Definition ws2 (a b : ascii) : bool :=
  (byte_of a =? 194)%N && ((byte_of b =? 133)%N || (byte_of b =? 160)%N).
Definition ws3 (a b c : ascii) : bool :=
  ((byte_of a =? 225)%N && (byte_of b =? 154)%N && (byte_of c =? 128)%N)
  || ((byte_of a =? 226)%N && (byte_of b =? 128)%N &&
      (in_range 128 138 c || (byte_of c =? 168)%N || (byte_of c =? 169)%N
       || (byte_of c =? 175)%N))
  || ((byte_of a =? 226)%N && (byte_of b =? 129)%N && (byte_of c =? 159)%N)
  || ((byte_of a =? 227)%N && (byte_of b =? 128)%N && (byte_of c =? 128)%N).

(** [s.trim().is_empty()]: every character is white space. *)
Fixpoint trim_is_empty (s : string) : bool :=
  match s with
  | "" => true
  | String a s1 =>
      if ws1 a then trim_is_empty s1
      else match s1 with
           | "" => false
           | String b s2 =>
               if ws2 a b then trim_is_empty s2
               else match s2 with
                    | "" => false
                    | String c s3 => if ws3 a b c then trim_is_empty s3 else false
                    end
           end
  end.

(** [s.trim()]. *)
Fixpoint trim_start (s : string) : string :=
  match s with
  | "" => ""
  | String a s1 =>
      if ws1 a then trim_start s1
      else match s1 with
           | "" => s
           | String b s2 =>
               if ws2 a b then trim_start s2
               else match s2 with
                    | "" => s
                    | String c s3 => if ws3 a b c then trim_start s3 else s
                    end
           end
  end.
Fixpoint trim_end (s : string) : string :=
  match s with
  | "" => ""
  | String a s' => if trim_is_empty s then "" else String a (trim_end s')
  end.
Definition trim (s : string) : string := trim_end (trim_start s).

(** [s.chars().any(char::is_whitespace)]. *)
Definition starts_ws (s : string) : bool :=
  match s with
  | "" => false
  | String a s1 =>
      ws1 a
      || match s1 with
         | "" => false
         | String b s2 =>
             ws2 a b || match s2 with "" => false | String c _ => ws3 a b c end
         end
  end.
Fixpoint any_whitespace (s : string) : bool :=
  starts_ws s || match s with "" => false | String _ s' => any_whitespace s' end.

(** [String::from_utf8] accepts exactly the well-formed byte sequences. *)
Definition cont (a : ascii) : bool := in_range 128 191 a.
Fixpoint utf8_valid (s : string) : bool :=
  match s with
  | "" => true
  | String a s1 =>
      if (byte_of a <? 128)%N then utf8_valid s1
      else match s1 with
      | "" => false
      | String b s2 =>
          if in_range 194 223 a && cont b then utf8_valid s2
          else match s2 with
          | "" => false
          | String c s3 =>
              if ((byte_of a =? 224)%N && in_range 160 191 b
                  || (in_range 225 236 a || in_range 238 239 a) && cont b
                  || (byte_of a =? 237)%N && in_range 128 159 b) && cont c
              then utf8_valid s3
              else match s3 with
              | "" => false
              | String d s4 =>
                  if ((byte_of a =? 240)%N && in_range 144 191 b
                      || in_range 241 243 a && cont b
                      || (byte_of a =? 244)%N && in_range 128 143 b)
                     && cont c && cont d
                  then utf8_valid s4 else false
              end
          end
      end
  end.
Definition from_utf8 (bytes : string) : option string :=
  if utf8_valid bytes then Some bytes else None.

(** [s.is_empty()], [s.starts_with(p)], [s.strip_prefix(p)], [s.contains(p)]. *)
Definition str_is_empty (s : string) : bool := match s with "" => true | _ => false end.
Fixpoint strip_prefix (p s : string) : option string :=
  match p, s with
  | "", _ => Some s
  | String a p', String b s' => if Ascii.eqb a b then strip_prefix p' s' else None
  | _, _ => None
  end.
Definition starts_with (p s : string) : bool :=
  match strip_prefix p s with Some _ => true | None => false end.
Fixpoint str_contains (p s : string) : bool :=
  starts_with p s || match s with "" => false | String _ s' => str_contains p s' end.

(** [s.replace(p, rep)] for a non-empty [p]: non-overlapping matches from the
    left.  [skip] counts the bytes of a match still to be consumed. *)
Fixpoint replace_from (p rep : string) (skip : nat) (s : string) : string :=
  match s with
  | "" => ""
  | String a s' =>
      match skip with
      | S k => replace_from p rep k s'
      | O => if starts_with p s
             then rep +:+ replace_from p rep (String.length p - 1) s'
             else String a (replace_from p rep 0 s')
      end
  end.
Definition str_replace (p rep s : string) : string := replace_from p rep 0 s.

(** [s.chars().take(n)]: a continuation byte belongs to the character before it. *)
Fixpoint take_chars (n : nat) (s : string) : string :=
  match s with
  | "" => ""
  | String a s' =>
      if cont a then String a (take_chars n s')
      else match n with O => "" | S n' => String a (take_chars n' s') end
  end.

(** [[s1, s2, ...].join(sep)]. *)
Definition str_join (sep : string) (l : list string) : string := String.concat sep l.

(** The characters of a string. *)
Definition chars (s : string) : list ascii := list_ascii_of_string s.
(** [p] does not occur in [rep] and cannot overlap with one of its ends. *)
Definition apart (p rep : string) : Prop :=
  match head (chars rep) with Some a => a ∉ chars p | None => False end ∧
  match last (chars rep) with Some b => b ∉ chars p | None => False end ∧
  str_contains p rep = false.
#[global] Instance apart_dec p rep : Decision (apart p rep).
Proof. unfold apart. destruct (head _), (last _); apply _. Defined.

(* ------------------------------------------------------------------ *)
(** * Ordered maps keyed by strings

    A [BTreeMap<String, V>] is a finite map whose iterators follow the byte
    order of the keys. *)

Definition entry_le {V} (p q : string * V) : Prop := String.le p.1 q.1.
#[global] Instance entry_le_dec {V} : RelDecision (@entry_le V).
Proof. intros p q. unfold entry_le. apply _. Defined.
#[global] Instance entry_le_total {V} : Total (@entry_le V).
Proof. intros p q. apply String.le_total. Qed.
#[global] Instance entry_le_trans {V} : Transitive (@entry_le V).
Proof. intros p q r. unfold entry_le. apply transitivity. Qed.

Definition btree_entries {V} (m : gmap string V) : list (string * V) :=
  merge_sort entry_le (map_to_list m).
Definition btree_values {V} (m : gmap string V) : list V := (btree_entries m).*2.

(** [iter.min_by_key(key)] keeps the first of equal minima. *)
Definition min_by {A} (leb : A → A → bool) (l : list A) : option A :=
  match l with
  | [] => None
  | x :: l' => Some (foldl (λ acc y, if leb acc y then acc else y) x l')
  end.

(** [l.is_empty()]. *)
Definition is_nil {A} (l : list A) : bool := match l with [] => true | _ => false end.

(** [iter.rev().find(p)]. *)
Definition rfind {A} (p : A → bool) (l : list A) : option A := List.find p (reverse l).

(** [iter_mut().find(p)] followed by a write through the reference. *)
Fixpoint update_first {A} (p : A → bool) (f : A → A) (l : list A) : list A :=
  match l with
  | [] => []
  | x :: l' => if p x then f x :: l' else x :: update_first p f l'
  end.

(* ------------------------------------------------------------------ *)
(** * Lemmas on strings *)

Lemma str_app_cons a s t : String a s +:+ t = String a (s +:+ t).
Proof. done. Qed.
Lemma str_app_nil_l t : "" +:+ t = t.
Proof. done. Qed.
Lemma str_app_nil_r s : s +:+ "" = s.
Proof. induction s as [|a s IH]; [done|]. by rewrite str_app_cons, IH. Qed.
Lemma str_app_assoc s1 s2 s3 : (s1 +:+ s2) +:+ s3 = s1 +:+ (s2 +:+ s3).
Proof. induction s1 as [|a s1 IH]; [done|]. by rewrite !str_app_cons, IH. Qed.
Lemma str_length_app s1 s2 :
  String.length (s1 +:+ s2) = String.length s1 + String.length s2.
Proof. induction s1 as [|a s1 IH]; [done|]. rewrite str_app_cons. simpl. by rewrite IH. Qed.
Lemma hex_fixed_length w z : String.length (hex_fixed w z) = w.
Proof.
  revert z. induction w as [|w IH]; intros z; [done|]. simpl.
  rewrite str_length_app, IH. simpl. lia.
Qed.
Lemma chars_app s1 s2 : chars (s1 +:+ s2) = chars s1 ++ chars s2.
Proof.
  induction s1 as [|a s1 IH]; [done|]. rewrite str_app_cons. unfold chars in *.
  simpl. by rewrite IH.
Qed.

Lemma chars_take n s :
  Forall (λ a, cont a = false) (chars s) → chars (take_chars n s) = take n (chars s).
Proof.
  revert n. induction s as [|a s IH]; intros n; [by destruct n|].
  intros [Ha Hs]%Forall_cons. simpl. rewrite Ha. destruct n as [|n]; [done|].
  change (a :: chars (take_chars n s) = a :: take n (chars s)). by rewrite IH.
Qed.
Lemma chars_length s : List.length (chars s) = String.length s.
Proof. induction s as [|a s IH]; [done|]. exact (f_equal S IH). Qed.

Lemma strip_prefix_app p s : strip_prefix p (p +:+ s) = Some s.
Proof.
  induction p as [|a p IH]; [done|]. rewrite str_app_cons. simpl. by rewrite Ascii.eqb_refl.
Qed.
Lemma strip_prefix_Some p s r : strip_prefix p s = Some r ↔ s = p +:+ r.
Proof.
  split; [|intros ->; apply strip_prefix_app].
  revert s. induction p as [|a p IH]; intros s; simpl; [by intros [= ->]|].
  destruct s as [|b s]; [done|].
  destruct (Ascii.eqb_spec a b) as [->|]; [|done]. intros H%IH. by rewrite H.
Qed.
Lemma starts_with_spec p s : starts_with p s = true ↔ ∃ r, s = p +:+ r.
Proof.
  unfold starts_with. split.
  - destruct (strip_prefix p s) as [r|] eqn:E; [|done]. intros _. exists r.
    by apply strip_prefix_Some.
  - intros [r ->]. by rewrite strip_prefix_app.
Qed.
Lemma starts_with_cons a p b s :
  starts_with (String a p) (String b s) = (Ascii.eqb a b && starts_with p s).
Proof. unfold starts_with. simpl. by destruct (Ascii.eqb a b). Qed.

Lemma str_contains_spec p s :
  str_contains p s = true ↔ ∃ s1 s2, s = s1 +:+ p +:+ s2.
Proof.
  induction s as [|a s IH]; simpl; rewrite orb_true_iff, starts_with_spec.
  - split.
    + intros [[r Hr]|?]; [|done]. by exists "", r.
    + intros (s1 & s2 & H). left. destruct s1; [by exists s2|done].
  - rewrite IH. split.
    + intros [[r Hr]|(s1 & s2 & ->)]; [by exists "", r|by exists (String a s1), s2].
    + intros ([|b s1] & s2 & H); [left; by exists s2|].
      right. rewrite str_app_cons in H. injection H as -> ->. by exists s1, s2.
Qed.

Lemma str_contains_length p s : str_contains p s = true → (String.length p ≤ String.length s)%nat.
Proof. intros (a & b & ->)%str_contains_spec. rewrite !str_length_app. lia. Qed.
Lemma str_contains_elem p s a : str_contains p s = true → a ∈ chars p → a ∈ chars s.
Proof.
  intros (s1 & s2 & ->)%str_contains_spec Ha. rewrite !chars_app. apply elem_of_app. right. apply elem_of_app. by left.
Qed.

(** A pattern that is [apart] from [rep] is found in [rep +:+ s] only where it is
    found in [s]. *)
Lemma starts_with_ends p s t b :
  starts_with p (s +:+ t) = true → last (chars s) = Some b → b ∈ chars p ∨ starts_with p s = true.
Proof.
  revert p. induction s as [|x s IH]; intros p H Hb; [done|].
  destruct p as [|a p]; [by right|]. rewrite str_app_cons in H. rewrite starts_with_cons in *.
  apply andb_true_iff in H as [->%Ascii.eqb_eq H]. rewrite Ascii.eqb_refl.
  change (chars (String x s)) with (x :: chars s) in Hb. change (chars (String x p)) with (x :: chars p).
  destruct s as [|y s].
  - injection Hb as ->. left. apply elem_of_cons. by left.
  - destruct (IH p H) as [Hin|Hs]; [done|left; apply elem_of_cons; by right|by right].
Qed.
Lemma str_contains_skip p rep s :
  apart p rep → str_contains p (rep +:+ s) = true → str_contains p s = true.
Proof.
  intros (_ & Hlast & Hno). revert Hlast Hno.
  induction rep as [|r rep IH]; intros Hlast Hno; [done|]. rewrite str_app_cons. simpl.
  simpl in Hno. apply orb_false_iff in Hno as [Hst Hno]. rewrite orb_true_iff. intros [H|H].
  - change (String r (rep +:+ s)) with (String r rep +:+ s) in H.
    destruct (last (chars (String r rep))) as [b|] eqn:Hb; [|done].
    destruct (starts_with_ends _ _ _ _ H Hb); [done|congruence].
  - destruct rep as [|r' rep]; [done|]. by apply IH.
Qed.

(** The prefix of a replaced text is a prefix of the text. *)
Lemma replace_from_prefix p r rep q s :
  r ∉ chars q → starts_with q (replace_from p (String r rep) 0 s) = true → starts_with q s = true.
Proof.
  revert q. induction s as [|a s IH]; intros [|b q] Hr; try done.
  simpl. change (chars (String b q)) with (b :: chars q) in Hr. apply not_elem_of_cons in Hr as [Hb Hq].
  case_match eqn:Hm.
  - rewrite str_app_cons, starts_with_cons. intros [->%Ascii.eqb_eq _]%andb_true_iff. done.
  - rewrite !starts_with_cons. intros [-> H]%andb_true_iff. by apply IH.
Qed.

(** Replacing never creates an occurrence of a pattern that is apart from the
    replacement. *)
Lemma replace_from_contains p rep q k s :
  apart q rep → str_contains q (replace_from p rep k s) = true → str_contains q s = true.
Proof.
  intros Hap. destruct rep as [|r rep]; [by destruct Hap|]. pose proof Hap as [Hr Hap']. simpl in Hr.
  revert k. induction s as [|a s IH]; intros k; [done|].
  destruct k as [|k]; simpl.
  - destruct (starts_with p (String a s)) eqn:Hm.
    + intros H%(str_contains_skip q (String r rep)); [|done]. apply IH in H. by rewrite H, orb_true_r.
    + simpl. rewrite !orb_true_iff. intros [H|H]; [left|right; by eapply IH].
      destruct q as [|b q]; [done|]. rewrite !starts_with_cons in *.
      apply andb_true_iff in H as [Hb H]. rewrite Hb. simpl.
      apply replace_from_prefix in H; [done|].
      change (chars (String b q)) with (b :: chars q) in Hr. by apply not_elem_of_cons in Hr as [_ ?].
  - intros H%IH. by rewrite H, orb_true_r.
Qed.

(** After [s.replace(p, rep)] no occurrence of [p] is left. *)
Lemma replace_from_clean p rep k s : apart p rep → str_contains p (replace_from p rep k s) = false.
Proof.
  intros Hap. destruct rep as [|r rep]; [by destruct Hap|]. pose proof Hap as [Hr Hap']. simpl in Hr.
  assert (p ≠ "") as Hp by (intros ->; by destruct Hap' as [_ ?]).
  apply not_true_is_false. revert k. induction s as [|a s IH]; intros k; simpl.
  { by destruct p. }
  destruct k as [|k]; [|apply IH].
  destruct (starts_with p (String a s)) eqn:Hm.
  - intros H%(str_contains_skip p (String r rep)); [|done]. by apply (IH _ H).
  - simpl. rewrite orb_true_iff. intros [H|H]; [|by apply (IH _ H)].
    destruct p as [|b p]; [done|]. rewrite starts_with_cons in *.
    apply andb_true_iff in H as [Hb H]. rewrite Hb in Hm. simpl in Hm.
    change (chars (String b p)) with (b :: chars p) in Hr. apply not_elem_of_cons in Hr as [_ Hr].
    apply replace_from_prefix in H; [congruence|done].
Qed.

(** A text without the pattern is unchanged. *)
Lemma replace_from_absent p rep s :
  str_contains p s = false → replace_from p rep 0 s = s.
Proof.
  induction s as [|a s IH]; simpl; [done|].
  rewrite orb_false_iff. intros [-> H]. by rewrite IH.
Qed.

(** A text without white space is its own trimmed form. *)
Lemma starts_ws_app s t : starts_ws s = true → starts_ws (s +:+ t) = true.
Proof.
  destruct s as [|a [|b [|c s]]]; [done|..]; rewrite ?str_app_cons; simpl; rewrite ?orb_false_r, ?orb_true_iff.
  - tauto.
  - destruct t; tauto.
  - tauto.
Qed.
Lemma any_whitespace_app s t : any_whitespace s = true → any_whitespace (s +:+ t) = true.
Proof.
  induction s as [|a s IH]; [done|]. rewrite str_app_cons.
  intros [Hs|Hs]%(orb_true_iff (starts_ws (String a s))); apply (orb_true_iff (starts_ws (String a (s +:+ t))));
    [left; exact (starts_ws_app (String a s) t Hs)|right; auto].
Qed.
Lemma trim_start_plain s : starts_ws s = false → trim_start s = s.
Proof.
  destruct s as [|a [|b [|c s]]]; simpl; rewrite ?orb_false_r, ?orb_false_iff.
  - done.
  - by intros ->.
  - by intros [-> ->].
  - by intros (-> & -> & ->).
Qed.
Lemma trim_is_empty_plain a s : starts_ws (String a s) = false → trim_is_empty (String a s) = false.
Proof.
  destruct s as [|b [|c s]]; simpl; rewrite ?orb_false_r, ?orb_false_iff.
  - by intros ->.
  - by intros [-> ->].
  - by intros (-> & -> & ->).
Qed.
Lemma trim_plain s : any_whitespace s = false → trim s = s.
Proof.
  intros Hs. unfold trim. rewrite trim_start_plain.
  - induction s as [|a s IH]; [done|]. simpl in Hs. apply orb_false_iff in Hs as [Ha Hs].
    change (trim_end (String a s)) with (if trim_is_empty (String a s) then "" else String a (trim_end s)).
    rewrite trim_is_empty_plain by done. by rewrite IH.
  - destruct s; [done|]. simpl in Hs. by apply orb_false_iff in Hs as [? _].
Qed.

(* ------------------------------------------------------------------ *)
(** * Lemmas on ordered maps and searches *)

Section BTree.
Context {V : Type}.
Implicit Types (m : gmap string V) (k : string) (v : V).

Lemma btree_entries_perm m : btree_entries m ≡ₚ map_to_list m.
Proof. apply merge_sort_Permutation. Qed.

Lemma btree_entries_sorted m : StronglySorted entry_le (btree_entries m).
Proof. apply StronglySorted_merge_sort; apply _. Qed.

Lemma elem_of_btree_entries m k v : (k, v) ∈ btree_entries m ↔ m !! k = Some v.
Proof. by rewrite btree_entries_perm, elem_of_map_to_list. Qed.

Lemma elem_of_btree_values m v : v ∈ btree_values m ↔ ∃ k, m !! k = Some v.
Proof.
  unfold btree_values. rewrite list_elem_of_fmap. split.
  - intros ([k v'] & -> & H). exists k. by apply elem_of_btree_entries.
  - intros [k H]. exists (k, v). split; [done|]. by apply elem_of_btree_entries.
Qed.

Lemma NoDup_btree_keys m : NoDup (btree_entries m).*1.
Proof. rewrite btree_entries_perm. apply NoDup_fst_map_to_list. Qed.
End BTree.

Lemma find_Some_elem {A} (p : A → bool) l x :
  List.find p l = Some x → x ∈ l ∧ p x = true.
Proof. intros [H ?]%List.find_some. split; [|done]. by apply list_elem_of_In. Qed.
Lemma find_None_elem {A} (p : A → bool) l :
  List.find p l = None ↔ ∀ x, x ∈ l → p x = false.
Proof.
  split.
  - intros H x Hx%list_elem_of_In. by apply (List.find_none _ _ H).
  - intros H. destruct (List.find p l) as [x|] eqn:E; [|done].
    apply find_Some_elem in E as [Hx ?]. rewrite H in *; [done|done].
Qed.
Lemma find_app_None {A} (p : A → bool) l k :
  (∀ x, x ∈ l → p x = false) → List.find p (l ++ k) = List.find p k.
Proof.
  intros Hl. induction l as [|x l IH]; simpl; [done|].
  rewrite (Hl x) by set_solver. apply IH. set_solver.
Qed.
Lemma find_app_singleton_ne {A} (p : A → bool) l x :
  p x = false → List.find p (l ++ [x]) = List.find p l.
Proof. intros Hx. induction l as [|y l IH]; simpl; [by rewrite Hx|]. by destruct (p y). Qed.
Lemma find_is_Some {A} (p : A → bool) l x :
  x ∈ l → p x = true → is_Some (List.find p l).
Proof.
  intros Hx Hp. destruct (List.find p l) eqn:E; [done|].
  rewrite find_None_elem in E. rewrite E in Hp; done.
Qed.

Lemma existsb_false {A} (f : A → bool) l : existsb f l = false ↔ ∀ x, x ∈ l → f x = false.
Proof.
  induction l as [|x l IH]; simpl; [set_solver|]. rewrite orb_false_iff, IH. set_solver.
Qed.

(** The iterator [filter]. *)
Lemma elem_of_lfilter {A} (f : A → bool) l x : x ∈ List.filter f l ↔ x ∈ l ∧ f x = true.
Proof. by rewrite !list_elem_of_In, List.filter_In. Qed.
Lemma Forall_lfilter {A} (P : A → Prop) (f : A → bool) l : Forall P l → Forall P (List.filter f l).
Proof. rewrite !Forall_forall. intros H x [? _]%elem_of_lfilter. auto. Qed.

(** Splitting a list by a predicate. *)
Lemma lfilter_partition {A} (f : A → bool) l :
  List.filter (λ x, negb (f x)) l ++ List.filter f l ≡ₚ l.
Proof.
  induction l as [|x l IH]; [done|]. simpl. destruct (f x); simpl; [|by rewrite IH].
  by rewrite <- Permutation_middle, IH.
Qed.
Lemma lfilter_sublist {A} (f : A → bool) l : List.filter f l `sublist_of` l.
Proof. induction l as [|x l IH]; simpl; [constructor|]. destruct (f x); by constructor. Qed.

(** A write through [iter_mut().find(p)]. *)
Lemma update_first_map {A B} (p : A → bool) (f : A → A) (g : A → B) l :
  (∀ x, p x = true → g (f x) = g x) → map g (update_first p f l) = map g l.
Proof.
  intros Hg. induction l as [|x l IH]; simpl; [done|].
  destruct (p x) eqn:E; simpl; [by rewrite Hg|by rewrite IH].
Qed.
Lemma elem_of_update_first {A} (p : A → bool) f l x :
  x ∈ update_first p f l → x ∈ l ∨ ∃ y, y ∈ l ∧ p y = true ∧ x = f y.
Proof.
  induction l as [|y l IH]; simpl; [by left|].
  destruct (p y) eqn:E; intros [->|Hx]%elem_of_cons; [right; set_solver|set_solver..|].
  destruct (IH Hx) as [?|(z & ? & ? & ?)]; [set_solver|right; exists z; set_solver].
Qed.

Lemma Forall2_impl_elem {A B} (P Q : A → B → Prop) l k :
  Forall2 P l k → (∀ x y, x ∈ l → P x y → Q x y) → Forall2 Q l k.
Proof. induction 1; constructor; set_solver. Qed.

Section MinBy.
Context {A : Type} (leb : A → A → bool).
Context (leb_total : ∀ x y, leb x y = false → leb y x = true).
Context (leb_trans : ∀ x y z, leb x y = true → leb y z = true → leb x z = true).

Local Lemma foldl_min x l :
  let m := foldl (λ acc y, if leb acc y then acc else y) x l in
  (m = x ∨ m ∈ l) ∧ (leb x x = true → leb m x = true) ∧
  ∀ y, y ∈ l → leb y y = true → leb m y = true.
Proof.
  revert x. induction l as [|z l IH]; intros x; simpl; [set_solver|].
  destruct (leb x z) eqn:Hxz.
  - destruct (IH x) as (Hin & Hx & Hl). split; [set_solver|]. split; [done|].
    intros y [->|Hy]%elem_of_cons Hyy; [|by apply Hl].
    destruct (leb x x) eqn:Hxx; [eauto|]. pose proof (leb_total _ _ Hxx). congruence.
  - destruct (IH z) as (Hin & Hz & Hl). pose proof (leb_total _ _ Hxz) as Hzx.
    assert (Hzz : leb z z = true) by (destruct (leb z z) eqn:Hzz; [done|]; pose proof (leb_total _ _ Hzz); congruence).
    split; [set_solver|]. split; [eauto|].
    intros y [->|Hy]%elem_of_cons Hyy; [by apply Hz|by apply Hl].
Qed.

Lemma min_by_Some l m :
  min_by leb l = Some m → m ∈ l ∧ ∀ y, y ∈ l → leb m y = true.
Proof.
  destruct l as [|x l]; simpl; [done|]. intros [= <-].
  assert (Hrefl : ∀ y, leb y y = true) by
    (intros y; destruct (leb y y) eqn:Hy; [done|]; pose proof (leb_total _ _ Hy); congruence).
  destruct (foldl_min x l) as (Hin & Hx & Hl).
  split; [set_solver|]. intros y [->|Hy]%elem_of_cons; eauto.
Qed.
Lemma min_by_None (l : list A) : min_by leb l = None ↔ l = [].
Proof. by destruct l. Qed.
End MinBy.

(** ** Automation *)
Create HintDb labrys discriminated.
#[export] Hint Resolve strip_prefix_app : labrys.

(* ------------------------------------------------------------------ *)
(** * Decimal text and separators *)

Lemma chars_inj s t : chars s = chars t → s = t.
Proof.
  intros E. apply (f_equal string_of_list_ascii) in E. unfold chars in E.
  by rewrite !string_of_list_ascii_of_string in E.
Qed.

(** Two lists with the same last separator are split at the same place. *)
Lemma split_last_sep {A} (c : A) l1 r1 l2 r2 :
  c ∉ r1 → c ∉ r2 → l1 ++ c :: r1 = l2 ++ c :: r2 → l1 = l2 ∧ r1 = r2.
Proof.
  revert l2. induction l1 as [|x l1 IH]; intros [|y l2] H1 H2 E; simplify_eq/=; [done|..].
  - exfalso. apply H1. set_solver.
  - exfalso. apply H2. set_solver.
  - destruct (IH l2) as [-> ->]; done.
Qed.

(** Same, for strings and a one-character separator. *)
Lemma str_split_last_sep (c : ascii) l1 r1 l2 r2 :
  c ∉ chars r1 → c ∉ chars r2 →
  l1 +:+ String c r1 = l2 +:+ String c r2 → l1 = l2 ∧ r1 = r2.
Proof.
  intros H1 H2 E. apply (f_equal chars) in E. rewrite !chars_app in E.
  apply split_last_sep in E as [El Er]; [|done..].
  split; by apply chars_inj.
Qed.

(** Two texts with the same first separator are split at the same place. *)
Lemma str_split_first_sep (c : ascii) l1 r1 l2 r2 :
  c ∉ chars l1 → c ∉ chars l2 →
  l1 +:+ String c r1 = l2 +:+ String c r2 → l1 = l2 ∧ r1 = r2.
Proof.
  revert l2. induction l1 as [|a l1 IH]; intros [|b l2]; unfold chars; simpl;
    rewrite ?str_app_cons, ?str_app_nil_l, ?not_elem_of_cons; intros H1 H2 E;
    simplify_eq; [done|naive_solver..|].
  destruct (IH l2) as [-> ->]; naive_solver.
Qed.

(** The decimal text of a number consists of digits. *)
Lemma pretty_N_go_chars x s c :
  (∀ d : N, c ≠ pretty_N_char d) → c ∉ chars s → c ∉ chars (pretty_N_go x s).
Proof.
  intros Hc. revert s. induction (N.lt_wf_0 x) as [x _ IH]. intros s Hs.
  destruct (decide (x = 0)%N) as [->|Hx]; [done|].
  rewrite pretty_N_go_step by lia. apply IH; [apply N.div_lt; lia|].
  unfold chars in *. simpl. rewrite not_elem_of_cons. split; [apply Hc|done].
Qed.
Lemma pretty_Z_chars z c :
  (0 ≤ z)%Z → (∀ d : N, c ≠ pretty_N_char d) → c ∉ chars (pretty z).
Proof.
  intros Hz Hc. assert (∀ n : N, c ∉ chars (pretty n)) as HN.
  { intros n. unfold pretty, pretty_N. case_decide.
    - unfold chars. simpl. rewrite not_elem_of_cons. split; [|set_solver].
      by apply (Hc 0%N).
    - apply pretty_N_go_chars; [done|]. set_solver. }
  destruct z; [apply (HN 0%N)|apply (HN (Npos p))|lia].
Qed.

Lemma digit_not_colon (d : N) : ":"%char ≠ pretty_N_char d.
Proof. unfold pretty_N_char. repeat case_match; done. Qed.

(* ------------------------------------------------------------------ *)
(** * Reading the value of a concrete run

    The examples of the development evaluate only small values (flags, statuses)
    and name the rest by these projections. *)

Definition is_done {A} (o : outcome A) : bool :=
  match o with Done _ => true | Panic _ => false end.
Definition done_or {A} (d : A) (o : outcome A) : A :=
  match o with Done a => a | Panic _ => d end.
Definition is_some {A} (o : option A) : bool :=
  match o with Some _ => true | None => false end.
Lemma is_done_eq {A} (d : A) o : is_done o = true → o = Done (done_or d o).
Proof. by destruct o. Qed.
Lemma is_some_eq {A} (d : A) o : is_some o = true → o = Some (default d o).
Proof. by destruct o. Qed.
Lemma is_done_pair {A B} (d : A * B) (b : B) o :
  is_done o = true → (done_or d o).2 = b → o = Done ((done_or d o).1, b).
Proof. destruct o as [[x y]|]; [|done]. by intros _ <-. Qed.

(* ------------------------------------------------------------------ *)
(** * Runs that stay within a relation *)

(** [let _ = call;] drops the result and keeps the effects. *)
Definition ignore_result {S E E' A} (m : M S E A) : M S E' unit := λ s,
  match m s with Done (s', _) => Done (s', Ok tt) | Panic msg => Panic msg end.
(** [match call { Ok .. Err .. }] inspects the result instead of returning it. *)
Definition try_result {S E E' A} (m : M S E A) : M S E' (result E A) := λ s,
  match m s with Done (s', r) => Done (s', Ok r) | Panic msg => Panic msg end.

(** [call.map_err(f)], on a computation and on a result. *)
Definition map_err {S E E' A} (f : E → E') (m : M S E A) : M S E' A := λ s,
  match m s with
  | Done (s', Ok a) => Done (s', Ok a)
  | Done (s', Err e) => Done (s', Err (f e))
  | Panic msg => Panic msg
  end.
Definition map_err_r {E E' A} (f : E → E') (r : result E A) : result E' A :=
  match r with Ok a => Ok a | Err e => Err (f e) end.

Lemma map_err_Ok {S E E' A} (f : E → E') (m : M S E A) s s' a :
  map_err f m s = Done (s', Ok a) → m s = Done (s', Ok a).
Proof. unfold map_err. destruct (m s) as [[s1 [b|e]]|]; intros [=]; subst; done. Qed.

(** Every run of [m] that returns, with a value or an error, relates the states
    before and after. *)
Definition within {S E A} (R : S → S → Prop) (m : M S E A) : Prop :=
  ∀ s s' r, m s = Done (s', r) → R s s'.

(** A sequence runs its first part, then the rest unless that failed. *)
Lemma bind_run {S E A B} (m : M S E A) (f : A → M S E B) s s' r :
  (m ≫= f) s = Done (s', r) →
  ∃ s1 r1, m s = Done (s1, r1) ∧
    match r1 with Ok a => f a s1 = Done (s', r) | Err e => s' = s1 ∧ r = Err e end.
Proof.
  unfold mbind, M_bind. destruct (m s) as [[s1 [a|e]]|]; [|intros [= <- <-]|done].
  - intros E'. by exists s1, (Ok a).
  - by exists s1, (Err e).
Qed.

Create HintDb within.
Section Within.
Context {S : Type} (R : S → S → Prop) `{!PreOrder R}.
Lemma within_ret {E A} (a : A) : within R (mret a : M S E A).
Proof. intros s s' r [= <- _]. done. Qed.
Lemma within_throw {E A} (e : E) : within R (mthrow e : M S E A).
Proof. intros s s' r [= <- _]. done. Qed.
Lemma within_lift_r {E A} (res : result E A) : within R (lift_r res).
Proof. intros s s' r [= <- _]. done. Qed.
Lemma within_lift_o {E A} (o : outcome A) : within R (lift_o o : M S E A).
Proof. intros s s' r. unfold lift_o. by destruct o; intros [= <- _]. Qed.
Lemma within_bind {E A B} (m : M S E A) (f : A → M S E B) :
  within R m → (∀ a, within R (f a)) → within R (m ≫= f).
Proof.
  intros Hm Hf s s' r E'. unfold mbind, M_bind in E'.
  destruct (m s) as [[s1 [a|e]]|] eqn:Em; [| |done].
  - etrans; [by eapply Hm|by eapply Hf].
  - simplify_eq. by eapply Hm.
Qed.
Lemma within_try {E E' A} (m : M S E A) : within R m → within R (try_result m : M S E' _).
Proof. intros Hm s s' r. unfold try_result. destruct (m s) as [[]|] eqn:Em; intros [=]. subst. eauto. Qed.
Lemma within_ignore {E E' A} (m : M S E A) : within R m → within R (ignore_result m : M S E' _).
Proof. intros Hm s s' r. unfold ignore_result. destruct (m s) as [[]|] eqn:Em; intros [=]. subst. eauto. Qed.
Lemma within_get {E} : within R (get : M S E S).
Proof. intros s s' r [= <- _]. done. Qed.
Lemma within_map_err {E E' A} (f : E → E') (m : M S E A) : within R m → within R (map_err f m).
Proof. intros Hm s s' r. unfold map_err. destruct (m s) as [[s1 [a|e]]|] eqn:Em; intros [=]; subst; eauto. Qed.
Lemma within_zoom {T E A} proj upd (m : M T E A) (Q : T → T → Prop) :
  within Q m → (∀ t s, Q (proj s) t → R s (upd t s)) → within R (zoom proj upd m).
Proof.
  intros Hm Hq s s' r. unfold zoom. destruct (m (proj s)) as [[t r']|] eqn:Em; intros [=].
  subst. eapply Hq, Hm, Em.
Qed.
Lemma within_zoom_frame {T E A} proj upd (m : M T E A) :
  (∀ t s, R s (upd t s)) → within R (zoom proj upd m).
Proof. intros Hr. apply (within_zoom _ _ _ (λ _ _, True)); [done|auto]. Qed.
End Within.
#[export] Hint Resolve within_ret within_throw within_lift_r within_lift_o within_bind within_try
  within_ignore within_get within_map_err : within.

(** The steps of an operation, each by its hint. *)
Ltac framed_step :=
  match goal with
  | |- PreOrder _ => apply _
  | |- within _ (_ ≫= _) => apply within_bind
  | |- within _ (match ?x with _ => _ end) => destruct x
  | |- within _ (map_err _ _) => apply within_map_err
  | |- within _ (let _ := _ in _) => cbv zeta
  | |- within _ _ => solve [auto with within typeclass_instances]
  end.
Ltac framed := repeat (intros; framed_step).

(** An operation that never panics. *)
Definition returns {S E A} (m : M S E A) : Prop := ∀ s, ∃ s' r, m s = Done (s', r).
Create HintDb returns.
Section Returns.
Context {S E : Type}.
Lemma returns_ret {A} (a : A) : returns (mret a : M S E A).
Proof. intros s. by do 2 eexists. Qed.
Lemma returns_throw {A} (e : E) : returns (mthrow e : M S E A).
Proof. intros s. by do 2 eexists. Qed.
Lemma returns_lift_r {A} (r : result E A) : returns (lift_r r : M S E A).
Proof. intros s. by do 2 eexists. Qed.
Lemma returns_get : returns (get : M S E S).
Proof. intros s. by do 2 eexists. Qed.
Lemma returns_modify f : returns (modify f : M S E unit).
Proof. intros s. by do 2 eexists. Qed.
Lemma returns_bind {A B} (m : M S E A) (f : A → M S E B) :
  returns m → (∀ a s s', m s = Done (s', Ok a) → returns (f a)) → returns (m ≫= f).
Proof.
  intros Hm Hf s. unfold mbind, M_bind. destruct (Hm s) as (s1 & [a|e] & E1); rewrite E1; [by eapply Hf|eauto].
Qed.
Lemma returns_map_err {E' A} (f : E → E') (m : M S E A) : returns m → returns (map_err f m).
Proof. intros Hm s. unfold map_err. destruct (Hm s) as (s1 & [a|e] & ->); eauto. Qed.
End Returns.
#[export] Hint Resolve returns_ret returns_throw returns_lift_r returns_get returns_modify : returns.
Ltac returning :=
  repeat (intros; match goal with
  | |- returns (_ ≫= _) => apply returns_bind
  | |- returns (match ?x with _ => _ end) => destruct x
  | |- returns (map_err _ _) => apply returns_map_err
  | |- returns (let _ := _ in _) => cbv zeta
  | |- returns _ => solve [eauto with returns]
  end).

(** A table that stays as it is. *)
Definition keeps {S T} (f : S → T) (s s' : S) : Prop := f s' = f s.
#[global] Instance keeps_preorder {S T} (f : S → T) : PreOrder (keeps f).
Proof. unfold keeps. split; [intros ?|intros ?????]; congruence. Qed.
