(* ===== verification/External.v ===== *)
(** Interfaces of the third-party crates the sources call: [uuid], [chrono] and
    [serde_json].  Their code is not part of the repository, so the operations the
    sources use are class parameters and the documented behaviour the theorems
    rely on is stated as laws.  Each class has a reference instance that
    satisfies its laws, used by the concrete examples of the development. *)

From stdpp Require Import countable base option list strings pretty gmap.
From Stdlib Require Import ZArith Lia.
From S2P Require Import Prelude.
Local Open Scope Z_scope.

(* ------------------------------------------------------------------ *)
(** * uuid: 128-bit identifiers and their text forms *)

Record Uuid := mkUuid { uuid_bits : N; uuid_lt : (uuid_bits <? 2 ^ 128)%N = true }.

#[global] Instance Uuid_eq_dec : EqDecision Uuid.
Proof.
  intros [a Ha] [b Hb]. destruct (decide (a = b)) as [->|Hne].
  - left. f_equal. apply (Eqdep_dec.UIP_dec Bool.bool_dec).
  - right. congruence.
Defined.

Definition uuid_of_bits (n : N) : option Uuid :=
  match Bool.bool_dec (n <? 2 ^ 128)%N true with left H => Some (mkUuid n H) | right _ => None end.
Lemma uuid_of_bits_bits u : uuid_of_bits (uuid_bits u) = Some u.
Proof.
  destruct u as [n Hn]. unfold uuid_of_bits. simpl. destruct (Bool.bool_dec _ _) as [H|H]; [|done].
  do 2 f_equal. apply (Eqdep_dec.UIP_dec Bool.bool_dec).
Qed.
#[global] Instance Uuid_countable : Countable Uuid := inj_countable uuid_bits uuid_of_bits uuid_of_bits_bits.

Class UuidLib := {
  (** [Uuid::simple]: the text form without hyphens. *)
  uuid_simple : Uuid → string;
  (** The [Display] and [Debug] form, with hyphens. *)
  uuid_hyphenated : Uuid → string;
  (** [Uuid::parse_str]; its error carries nothing the sources use. *)
  uuid_parse_str : string → option Uuid;
}.
Class UuidLaws `{UuidLib} : Prop := {
  (** The simple form is one of the formats [parse_str] accepts. *)
  uuid_parse_simple u : uuid_parse_str (uuid_simple u) = Some u;
  (** The simple form consists of 32 lower-case hexadecimal digits. *)
  uuid_simple_length u : String.length (uuid_simple u) = 32%nat;
  uuid_simple_hex u : Forall (λ c, ∃ d, 0 ≤ d < 16 ∧ c = hex_digit d) (chars (uuid_simple u));
}.

#[global] Instance uuid_simple_inj `{UuidLaws} : Inj (=) (=) uuid_simple.
Proof.
  intros u v E. pose proof (uuid_parse_simple u) as P.
  rewrite E, uuid_parse_simple in P. by injection P.
Qed.

(** A hexadecimal digit is a lower-case letter or a decimal digit. *)
Definition is_hex (a : Ascii.ascii) : bool := in_range 48 57 a || in_range 97 102 a.
Lemma uuid_simple_is_hex `{UuidLaws} u : forallb is_hex (chars (uuid_simple u)) = true.
Proof.
  apply Is_true_true, forallb_True, (Forall_impl _ _ _ (uuid_simple_hex u)). intros c (d & Hd & ->).
  assert (d = 0 ∨ d = 1 ∨ d = 2 ∨ d = 3 ∨ d = 4 ∨ d = 5 ∨ d = 6 ∨ d = 7
    ∨ d = 8 ∨ d = 9 ∨ d = 10 ∨ d = 11 ∨ d = 12 ∨ d = 13 ∨ d = 14 ∨ d = 15) by lia.
  repeat match goal with H : _ ∨ _ |- _ => destruct H as [->|H] end; subst; exact I.
Qed.

(** The values of a [HashMap] in the order its iterator happens to visit them. *)
Class HashIter := { hash_values : ∀ {V}, gmap string V → list V }.
Class HashIterLaws `{HashIter} : Prop := {
  hash_values_perm {V} (m : gmap string V) : hash_values m ≡ₚ (map_to_list m).*2;
}.
Lemma elem_of_hash_values `{HashIterLaws} {V} (m : gmap string V) v :
  v ∈ hash_values m ↔ ∃ k, m !! k = Some v.
Proof.
  rewrite hash_values_perm, list_elem_of_fmap. split.
  - intros ([k v'] & -> & Hk%elem_of_map_to_list). eauto.
  - intros [k Hk]. exists (k, v). by rewrite elem_of_map_to_list.
Qed.

(* ------------------------------------------------------------------ *)
(** * chrono: instants and durations in nanoseconds *)

Definition DateTime : Type := Z.
Definition Duration : Type := Z.
Definition nanos_per_sec : Z := 1000000000.

Class Chrono := {
  (** [Duration::seconds]. *)
  duration_seconds : Z → outcome Duration;
  (** [Duration::num_seconds]: the whole seconds. *)
  num_seconds : Duration → Z;
  (** [DateTime<Utc> + Duration]. *)
  datetime_add : DateTime → Duration → outcome DateTime;
}.
(** A duration is bounded by [i64::MAX] milliseconds, so it has at most
    [i64::MAX / 1000] whole seconds. *)
Definition max_duration_secs : Z := 9223372036854775.
Class ChronoLaws `{Chrono} : Prop := {
  duration_seconds_in s :
    - max_duration_secs ≤ s ≤ max_duration_secs →
    duration_seconds s = Done (s * nanos_per_sec);
  duration_seconds_out s :
    max_duration_secs < s → ∃ msg, duration_seconds s = Panic msg;
  num_seconds_nonneg d : 0 ≤ d → num_seconds d = d / nanos_per_sec;
  datetime_add_exact t d r : datetime_add t d = Done r → r = t + d;
}.

(** [DateTime::to_rfc3339]. *)
Class ChronoText := { to_rfc3339 : DateTime → string }.

(* ------------------------------------------------------------------ *)
(** * serde_json values and the [Debug] text of strings *)

(** The sources only store and compare [serde_json::Value]s. *)
Class JsonLib := { Json : Type; json_null : Json }.

(** The [Debug] form of a [str]: quoted, with escapes that depend on the Unicode
    tables of the standard library. *)
Class StrDebug := { str_debug : string → string }.

(** The derived [Debug] form of an [Option]. *)
Definition option_debug {A} (f : A → string) (o : option A) : string :=
  match o with Some a => "Some(" +:+ f a +:+ ")" | None => "None" end.
Definition bool_debug (b : bool) : string := if b then "true" else "false".

(* ------------------------------------------------------------------ *)
(** * sha2 and chacha20poly1305 *)

Class Crypto := {
  (** [Sha256::digest]. *)
  sha256 : string → string;
  (** [ChaCha20Poly1305::encrypt] and [decrypt] with key, nonce and associated
      data; decryption fails when the tag does not verify. *)
  aead_encrypt : string → string → string → string → string;
  aead_decrypt : string → string → string → string → option string;
}.
(** Decryption inverts encryption under the same key, nonce and associated data. *)
Class CryptoLaws `{Crypto} : Prop := {
  aead_round_trip k n a m : aead_decrypt k n a (aead_encrypt k n a m) = Some m;
}.
(** The tag also authenticates the associated data: a box is rejected under
    other associated data. *)
Class AeadBinds `{Crypto} : Prop := {
  aead_binds k n a a' m : a ≠ a' → aead_decrypt k n a' (aead_encrypt k n a m) = None;
}.

(* ------------------------------------------------------------------ *)
(** * Reference instances for the concrete examples *)

Module RefInstances.
Definition pad_bits (n : N) : string := hex_fixed 32 (Z.of_N n).
(** An identifier text is its 32 hexadecimal digits. *)
Definition hex_val (a : Ascii.ascii) : option Z :=
  let n := Z.of_N (Ascii.N_of_ascii a) in
  if decide (48 ≤ n ≤ 57) then Some (n - 48)
  else if decide (97 ≤ n ≤ 102) then Some (n - 87) else None.
Fixpoint hex_read (acc : Z) (s : string) : option Z :=
  match s with
  | ""%string => Some acc
  | String.String a s' => d ← hex_val a; hex_read (acc * 16 + d) s'
  end.
Definition parse_bits (s : string) : option Uuid :=
  if decide (String.length s = 32%nat) then
    z ← hex_read 0 s;
    match Bool.bool_dec ((Z.to_N z <? 2 ^ 128)%N) true with
    | left H => Some (mkUuid (Z.to_N z) H)
    | right _ => None
    end
  else None.
#[global] Instance ref_uuid : UuidLib := {
  uuid_simple u := pad_bits (uuid_bits u);
  uuid_hyphenated u := pad_bits (uuid_bits u);
  uuid_parse_str := parse_bits;
}.

Lemma hex_val_digit d : 0 ≤ d < 16 → hex_val (hex_digit d) = Some d.
Proof.
  intros Hd. assert (d = 0 ∨ d = 1 ∨ d = 2 ∨ d = 3 ∨ d = 4 ∨ d = 5 ∨ d = 6 ∨ d = 7
    ∨ d = 8 ∨ d = 9 ∨ d = 10 ∨ d = 11 ∨ d = 12 ∨ d = 13 ∨ d = 14 ∨ d = 15) by lia.
  repeat match goal with H : _ ∨ _ |- _ => destruct H as [->|H] end; subst; reflexivity.
Qed.
Lemma hex_read_app acc s t :
  hex_read acc (s +:+ t) = (a ← hex_read acc s; hex_read a t).
Proof.
  revert acc. induction s as [|c s IH]; intros acc; [done|].
  rewrite str_app_cons. simpl. destruct (hex_val c); simpl; [apply IH|done].
Qed.
Lemma hex_read_fixed w acc z :
  0 ≤ z < 16 ^ Z.of_nat w →
  hex_read acc (hex_fixed w z) = Some (acc * 16 ^ Z.of_nat w + z).
Proof.
  revert acc z. induction w as [|w IH]; intros acc z Hz.
  { simpl in *. f_equal. lia. }
  rewrite Nat2Z.inj_succ, Z.pow_succ_r in * by lia. simpl hex_fixed.
  rewrite hex_read_app, IH by (split; [apply Z.div_pos|apply Z.div_lt_upper_bound]; lia).
  simpl. rewrite hex_val_digit by (apply Z.mod_pos_bound; lia). simpl. f_equal.
  pose proof (Z.div_mod z 16). lia.
Qed.

Lemma hex_fixed_digits w z :
  Forall (λ c, ∃ d, 0 ≤ d < 16 ∧ c = hex_digit d) (chars (hex_fixed w z)).
Proof.
  revert z. induction w as [|w IH]; intros z; [constructor|]. simpl. rewrite chars_app.
  apply Forall_app. split; [apply IH|]. repeat constructor. exists (z mod 16).
  split; [apply Z.mod_pos_bound; lia|done].
Qed.
#[global] Instance ref_uuid_laws : UuidLaws.
Proof.
  constructor; [|intros; apply hex_fixed_length|intros; apply hex_fixed_digits]. intros [n Hn]. simpl. unfold parse_bits, pad_bits. simpl uuid_bits.
  rewrite decide_True by apply hex_fixed_length.
  pose proof (proj1 (N.ltb_lt _ _) Hn) as Hlt.
  rewrite hex_read_fixed; [|split; [lia|]; change (16 ^ Z.of_nat 32) with (Z.of_N (2 ^ 128)); lia].
  replace (0 * 16 ^ Z.of_nat 32 + Z.of_N n) with (Z.of_N n) by lia.
  unfold mbind, option_bind. rewrite N2Z.id.
  destruct (Bool.bool_dec _ _) as [H|H]; [|done]. do 2 f_equal.
  apply (Eqdep_dec.UIP_dec Bool.bool_dec).
Qed.

#[global] Instance ref_hash_iter : HashIter := { hash_values _ m := (map_to_list m).*2 }.
#[global] Instance ref_hash_iter_laws : HashIterLaws.
Proof. by constructor. Qed.

(** A concrete identifier. *)
Abbreviation uuid n := (mkUuid n eq_refl).

#[global] Instance ref_chrono : Chrono := {
  duration_seconds s :=
    if decide (Z.abs s ≤ max_duration_secs) then Done (s * nanos_per_sec)
    else Panic "Duration::seconds out of bounds";
  num_seconds d := Z.quot d nanos_per_sec;
  datetime_add t d :=
    if decide (Z.abs (t + d) ≤ 8210266876800 * nanos_per_sec) then Done (t + d)
    else Panic "DateTime + Duration overflowed";
}.
#[global] Instance ref_chrono_laws : ChronoLaws.
Proof.
  constructor; intros *; simpl.
  - intros ?. rewrite decide_True by lia. done.
  - intros ?. rewrite decide_False by (unfold max_duration_secs in *; lia). eauto.
  - intros ?. apply Z.quot_div_nonneg; [done|]. unfold nanos_per_sec. lia.
  - case_decide; congruence.
Qed.

#[global] Instance ref_chrono_text : ChronoText := { to_rfc3339 t := pretty t }.

#[global] Instance ref_json : JsonLib := { Json := string; json_null := "null" }.
#[global] Instance ref_debug : StrDebug := { str_debug s := "'" +:+ s +:+ "'" }.

(** A cipher that carries its inputs in the clear and checks them. *)
Fixpoint self_delimited (s : string) : string :=
  match s with
  | ""%string => "0"
  | String.String c s' => String.String (Ascii.ascii_of_nat 49) (String.String c (self_delimited s'))
  end.
Lemma self_delimited_inj a b x y :
  self_delimited a +:+ x = self_delimited b +:+ y → a = b ∧ x = y.
Proof.
  revert b. induction a as [|c a IH]; intros [|d b]; simpl; rewrite ?str_app_cons, ?str_app_nil_l;
    intros E; simplify_eq; [done|]. by destruct (IH b) as [-> ->].
Qed.
Definition ref_header (k n a : string) : string :=
  self_delimited k +:+ self_delimited n +:+ self_delimited a.
#[global] Instance ref_crypto : Crypto := {
  sha256 s := s;
  aead_encrypt k n a m := ref_header k n a +:+ m;
  aead_decrypt k n a c := strip_prefix (ref_header k n a) c;
}.
#[global] Instance ref_crypto_laws : CryptoLaws.
Proof. constructor. intros k n a m. apply strip_prefix_app. Qed.
#[global] Instance ref_crypto_binds : AeadBinds.
Proof.
  constructor. intros k n a a' m Hne. simpl.
  destruct (strip_prefix _ _) as [r|] eqn:E; [|done]. exfalso. apply Hne.
  apply strip_prefix_Some in E. unfold ref_header in E. rewrite !str_app_assoc in E.
  by apply self_delimited_inj in E as [_ [_ [-> _]%self_delimited_inj]%self_delimited_inj].
Qed.

(** A checked build. *)
#[global] Instance checked_build : BuildProfile := { overflow_checks := true }.
End RefInstances.
