(* ===== verification/Errors.v ===== *)
(** The error type of the core crate (error.rs) and its messages. *)

From stdpp Require Import base strings pretty.
From Stdlib Require Import ZArith.
From S2P Require Import Prelude.
Local Open Scope Z_scope.

Inductive CoreError :=
| UnsupportedVersion (found expected : Z)
| InvalidManifest (m : string)
| NotFound (m : string)
| ApprovalRequired (m : string)
| PolicyDenied (m : string)
| SessionState (m : string)
| ProtocolVersion (found expected : Z)
| SecretLeak (m : string)
| Timeout (m : string)
| SequenceViolation (m : string)
| UnsupportedRuntime (m : string)
| InvalidRuntime (m : string)
| LimitExceeded (limit detail : string)
| WorkspaceState (m : string)
| PreviewUnavailable (m : string)
| CapabilityBinding (m : string)
| SecretNotFound (m : string)
| ReconciliationError (m : string)
| DeploymentError (m : string)
| Verification (m : string)
| AuditIntegrity (m : string)
| PluginError (m : string)
| PluginUnavailable (m : string)
| PermissionDenied (m : string)
| Serialization (m : string).

#[global] Instance CoreError_eq_dec : EqDecision CoreError.
Proof. solve_decision. Defined.

(** The [Display] text of an error. *)
Definition CoreError_fmt (e : CoreError) : string :=
  match e with
  | UnsupportedVersion found expected =>
      "unsupported manifest version " +:+ pretty found +:+ ", expected " +:+ pretty expected
  | InvalidManifest m => "invalid manifest: " +:+ m
  | NotFound m => "application not found: " +:+ m
  | ApprovalRequired m => "explicit approval required: " +:+ m
  | PolicyDenied m => "policy denied action: " +:+ m
  | SessionState m => "agent session state violation: " +:+ m
  | ProtocolVersion found expected =>
      "unsupported agent protocol version " +:+ pretty found +:+ ", expected " +:+ pretty expected
  | SecretLeak m => "secret value must not enter agent context: " +:+ m
  | Timeout m => "agent prompt timed out: " +:+ m
  | SequenceViolation m => "change sequence violation: " +:+ m
  | UnsupportedRuntime m => "unsupported runtime: " +:+ m
  | InvalidRuntime m => "invalid runtime configuration: " +:+ m
  | LimitExceeded limit detail => "sandbox limit exceeded (" +:+ limit +:+ "): " +:+ detail
  | WorkspaceState m => "workspace state violation: " +:+ m
  | PreviewUnavailable m => "preview unavailable: " +:+ m
  | CapabilityBinding m => "capability binding violation: " +:+ m
  | SecretNotFound m => "secret not found: " +:+ m
  | ReconciliationError m => "reconciliation violation: " +:+ m
  | DeploymentError m => "deployment violation: " +:+ m
  | Verification m => "verification violation: " +:+ m
  | AuditIntegrity m => "audit integrity violation: " +:+ m
  | PluginError m => "plugin protocol violation: " +:+ m
  | PluginUnavailable m => "plugin unavailable: " +:+ m
  | PermissionDenied m => "surface permission denied: " +:+ m
  | Serialization m => "serialization error: " +:+ m
  end.
