(* ===== verification/Ids.v ===== *)
(** Typed identifiers (ids.rs): eleven newtypes over [Uuid], each with its own
    textual prefix.  [Id k] is the newtype of kind [k]; every type has its
    [Display] and [FromStr] functions, and [IdText] is the interface through
    which the components use them. *)

From stdpp Require Import base option strings pretty countable.
From S2P Require Import Prelude External.

(** The kinds of identifier; the types do not mix. *)
Inductive IdKind :=
| KApplication
| KAgentSession
| KEnvironment
| KWorkspace
| KPreview
| KFeedback
| KBinding
| KResource
| KJob
| KDeployment
| KDomain.

(** A newtype [struct <Kind>Id(Uuid)]; [mkId] is the constructor the [new]
    functions apply to a fresh random [Uuid]. *)
Record Id (k : IdKind) := mkId { id_uuid : Uuid }.
Arguments mkId {k} _.
Arguments id_uuid {k} _.

#[global] Instance Id_eq_dec k : EqDecision (Id k).
Proof. solve_decision. Defined.

#[global] Instance Id_countable k : Countable (Id k).
Proof. apply (inj_countable' id_uuid mkId). by intros []. Defined.
#[global] Instance id_uuid_inj k : Inj (=) (=) (@id_uuid k).
Proof. intros [u] [v] E. simpl in E. by rewrite E. Qed.

Definition ApplicationId : Type := Id KApplication.
Definition AgentSessionId : Type := Id KAgentSession.
Definition EnvironmentId : Type := Id KEnvironment.
Definition WorkspaceId : Type := Id KWorkspace.
Definition PreviewId : Type := Id KPreview.
Definition FeedbackId : Type := Id KFeedback.
Definition BindingId : Type := Id KBinding.
Definition ResourceId : Type := Id KResource.
Definition JobId : Type := Id KJob.
Definition DeploymentId : Type := Id KDeployment.
Definition DomainId : Type := Id KDomain.

Section Text.
Context `{UuidLib}.

(** [write!(f, "<prefix>{}", self.0.simple())]. *)
Definition fmt_with (prefix : string) {k} (i : Id k) : string :=
  prefix +:+ uuid_simple (id_uuid i).

(** [s.strip_prefix(prefix)] then [Uuid::parse_str], with one message. *)
Definition from_str_with (prefix what : string) {k} (s : string) : result string (Id k) :=
  match strip_prefix prefix s with
  | None => Err ("invalid " +:+ what +:+ ": " +:+ s)
  | Some hex =>
      match uuid_parse_str hex with
      | Some u => Ok (mkId u)
      | None => Err ("invalid " +:+ what +:+ ": " +:+ s)
      end
  end.

Definition ApplicationId_fmt (i : ApplicationId) : string := fmt_with "app_" i.
Definition ApplicationId_from_str (s : string) : result string ApplicationId :=
  from_str_with "app_" "application id" s.
Definition AgentSessionId_fmt (i : AgentSessionId) : string := fmt_with "agt_" i.
Definition AgentSessionId_from_str (s : string) : result string AgentSessionId :=
  from_str_with "agt_" "agent session id" s.
Definition EnvironmentId_fmt (i : EnvironmentId) : string := fmt_with "env_" i.
Definition EnvironmentId_from_str (s : string) : result string EnvironmentId :=
  from_str_with "env_" "environment id" s.
Definition WorkspaceId_fmt (i : WorkspaceId) : string := fmt_with "ws_" i.
Definition WorkspaceId_from_str (s : string) : result string WorkspaceId :=
  from_str_with "ws_" "workspace id" s.
Definition PreviewId_fmt (i : PreviewId) : string := fmt_with "prv_" i.
Definition PreviewId_from_str (s : string) : result string PreviewId :=
  from_str_with "prv_" "preview id" s.
Definition FeedbackId_fmt (i : FeedbackId) : string := fmt_with "fb_" i.
Definition FeedbackId_from_str (s : string) : result string FeedbackId :=
  from_str_with "fb_" "feedback id" s.
Definition BindingId_fmt (i : BindingId) : string := fmt_with "bnd_" i.
Definition BindingId_from_str (s : string) : result string BindingId :=
  from_str_with "bnd_" "binding id" s.
Definition ResourceId_fmt (i : ResourceId) : string := fmt_with "res_" i.
Definition ResourceId_from_str (s : string) : result string ResourceId :=
  from_str_with "res_" "resource id" s.
Definition JobId_fmt (i : JobId) : string := fmt_with "job_" i.
Definition JobId_from_str (s : string) : result string JobId :=
  from_str_with "job_" "job id" s.
Definition DeploymentId_fmt (i : DeploymentId) : string := fmt_with "dep_" i.
Definition DeploymentId_from_str (s : string) : result string DeploymentId :=
  from_str_with "dep_" "deployment id" s.
Definition DomainId_fmt (i : DomainId) : string := fmt_with "dom_" i.
Definition DomainId_from_str (s : string) : result string DomainId :=
  from_str_with "dom_" "domain id" s.

(** The [Display] and [FromStr] functions of every kind. *)
Definition id_prefix (k : IdKind) : string :=
  match k with
  | KApplication => "app_"
  | KAgentSession => "agt_"
  | KEnvironment => "env_"
  | KWorkspace => "ws_"
  | KPreview => "prv_"
  | KFeedback => "fb_"
  | KBinding => "bnd_"
  | KResource => "res_"
  | KJob => "job_"
  | KDeployment => "dep_"
  | KDomain => "dom_"
  end.
Definition id_fmt {k} : Id k → string :=
  match k with
  | KApplication => ApplicationId_fmt
  | KAgentSession => AgentSessionId_fmt
  | KEnvironment => EnvironmentId_fmt
  | KWorkspace => WorkspaceId_fmt
  | KPreview => PreviewId_fmt
  | KFeedback => FeedbackId_fmt
  | KBinding => BindingId_fmt
  | KResource => ResourceId_fmt
  | KJob => JobId_fmt
  | KDeployment => DeploymentId_fmt
  | KDomain => DomainId_fmt
  end.
Definition id_from_str {k} : string → result string (Id k) :=
  match k with
  | KApplication => ApplicationId_from_str
  | KAgentSession => AgentSessionId_from_str
  | KEnvironment => EnvironmentId_from_str
  | KWorkspace => WorkspaceId_from_str
  | KPreview => PreviewId_from_str
  | KFeedback => FeedbackId_from_str
  | KBinding => BindingId_from_str
  | KResource => ResourceId_from_str
  | KJob => JobId_from_str
  | KDeployment => DeploymentId_from_str
  | KDomain => DomainId_from_str
  end.

Lemma id_fmt_prefix k (i : Id k) : id_fmt i = id_prefix k +:+ uuid_simple (id_uuid i).
Proof. by destruct k. Qed.
Lemma id_from_str_spec k s :
  ∃ what, @id_from_str k s = from_str_with (id_prefix k) what s.
Proof. destruct k; eexists; reflexivity. Qed.
Lemma id_prefix_cross k k' t : k ≠ k' → strip_prefix (id_prefix k) (id_prefix k' +:+ t) = None.
Proof. by destruct k, k'. Qed.
End Text.

#[global] Arguments id_fmt : simpl never.
#[global] Arguments id_from_str : simpl never.

Section TextFacts.
Context `{UuidLaws}.

#[global] Instance id_fmt_inj k : Inj (=) (=) (@id_fmt _ k).
Proof.
  intros i j. rewrite !id_fmt_prefix. intros E%(inj (String.app _)).
  by apply (inj uuid_simple), (inj id_uuid) in E.
Qed.

(** Printing an identifier and parsing the text gives the identifier
    back, for each of the eleven kinds. *)
Theorem id_round_trip k (i : Id k) : id_from_str (id_fmt i) = Ok i.
Proof.
  destruct (id_from_str_spec k (id_fmt i)) as [what ->]. unfold from_str_with.
  rewrite id_fmt_prefix, strip_prefix_app, uuid_parse_simple. by destruct i.
Qed.

(** The text of an identifier of one kind is rejected by the parser
    of every other kind. *)
Theorem id_kinds_do_not_mix k k' (i : Id k) :
  k' ≠ k → ∃ msg, @id_from_str _ k' (id_fmt i) = Err msg.
Proof.
  intros Hne. destruct (id_from_str_spec k' (id_fmt i)) as [what ->].
  unfold from_str_with. rewrite id_fmt_prefix, id_prefix_cross by done. eauto.
Qed.
End TextFacts.

(** The two theorems at a concrete identifier. *)
Section Examples.
Import RefInstances.
Lemma id_round_trip_witness :
  UuidLaws ∧
  @id_from_str _ KJob (id_fmt (mkId (uuid 48879) : JobId)) = Ok (mkId (uuid 48879)).
Proof. split; [apply ref_uuid_laws|]. apply (id_round_trip KJob (mkId (uuid 48879))). Defined.
Lemma id_kinds_do_not_mix_witness :
  KResource ≠ KJob ∧
  ∃ msg, @id_from_str _ KResource (id_fmt (mkId (uuid 7) : JobId)) = Err msg.
Proof.
  split; [done|]. apply (id_kinds_do_not_mix KJob KResource (mkId (uuid 7))). done.
Defined.
End Examples.
