(* ===== verification/Trail.v ===== *)
(** Transition evidence shared by the lifecycle components.

    Resources, deployments and bound capabilities all keep their history as a
    vector of [from]/[to] records that starts with a self-transition and grows
    by one record per move.  [trail legal p0 ts p] says that [ts] is such a
    history from the start phase [p0] to the current phase [p] in which every
    move is legal. *)

From stdpp Require Import base option list.
From S2P Require Import Prelude.

Section Trail.
Context {Phase T : Type} (from to : T → Phase) (legal : Phase → Phase → bool).

Inductive trail (p0 : Phase) : list T → Phase → Prop :=
| trail_start t : from t = p0 → to t = p0 → trail p0 [t] p0
| trail_move ts p t :
    trail p0 ts p → from t = p → legal p (to t) = true → trail p0 (ts ++ [t]) (to t).

Lemma trail_nonempty p0 ts p : trail p0 ts p → ts ≠ [].
Proof. destruct 1; [done|]. by destruct ts. Qed.

(** The current phase is the target of the last record, so reading the last
    record never fails. *)
Lemma trail_last p0 ts p : trail p0 ts p → ∃ t, last ts = Some t ∧ to t = p.
Proof. destruct 1; eexists; rewrite ?last_snoc; split; done. Qed.

Lemma trail_extend p0 ts p q t :
  trail p0 ts p → from t = p → to t = q → legal p q = true → trail p0 (ts ++ [t]) q.
Proof. intros ??<-?. by eapply trail_move. Qed.

(** Consecutive records are linked, and each one is legal. *)
Lemma trail_linked p0 ts p i t u :
  trail p0 ts p → ts !! i = Some t → ts !! S i = Some u →
  from u = to t ∧ legal (from u) (to u) = true.
Proof.
  induction 1 as [t0 Hf Ht|ts p v Htr IH Hfrom Hleg]; [by destruct i|].
  rewrite !lookup_app. intros H1 H2.
  destruct (ts !! S i) as [u'|] eqn:Eu.
  { simplify_eq. assert (i < length ts) by (apply lookup_lt_Some in Eu; lia).
    destruct (lookup_lt_is_Some_2 ts i) as [t' Et]; [done|].
    rewrite Et in *. simplify_eq. by apply IH. }
  apply lookup_ge_None in Eu.
  assert (S i = length ts) as Hi.
  { apply lookup_lt_Some in H2. simpl in *. lia. }
  rewrite Hi, Nat.sub_diag in H2. simplify_eq/=.
  destruct (lookup_lt_is_Some_2 ts i) as [t' Et]; [lia|]. rewrite Et in H1. simplify_eq.
  destruct (trail_last _ _ _ Htr) as (l & Hl & Hto).
  rewrite last_lookup, <- Hi in Hl. simpl in Hl. rewrite Et in Hl. by simplify_eq.
Qed.

(** A trail only ever grows. *)
Lemma trail_target_legal p0 ts p :
  trail p0 ts p → p = p0 ∨ ∃ q, legal q p = true.
Proof. destruct 1; eauto. Qed.
End Trail.
#[export] Hint Constructors trail : labrys.
