(* ===== verification/Resource.v ===== *)
(** Resource lifecycle, retry policy and failure redaction (controller.rs,
    first part). *)

From stdpp Require Import base option list strings pretty relations.
From Stdlib Require Import ZArith Lia.
From S2P Require Import Prelude External Errors Ids Trail.
Local Open Scope Z_scope.

(* ------------------------------------------------------------------ *)
(** * Redaction of failure reasons *)

Definition redacted_marker : string := "[redacted]".

(** [redact_reason]: each non-empty secret is replaced in turn. *)
Definition redact_reason (reason : string) (secrets : list string) : string :=
  foldl (λ out secret, str_replace secret redacted_marker out) reason
        (List.filter (λ s, negb (str_is_empty s)) secrets).

(* ------------------------------------------------------------------ *)
(** * Lifecycle graph *)

Inductive ResourcePhase :=
| Requested | Provisioning | Ready | Degraded | Failed | Deleting | Deleted.
#[global] Instance ResourcePhase_eq_dec : EqDecision ResourcePhase.
Proof. solve_decision. Defined.

Definition ResourcePhase_debug (p : ResourcePhase) : string :=
  match p with
  | Requested => "Requested" | Provisioning => "Provisioning" | Ready => "Ready"
  | Degraded => "Degraded" | Failed => "Failed" | Deleting => "Deleting"
  | Deleted => "Deleted"
  end.

(** The shared health model. *)
Inductive HealthState :=
| HUnknown | HProvisioning | HHealthy | HDegraded | HFailed | HPaused.
#[global] Instance HealthState_eq_dec : EqDecision HealthState.
Proof. solve_decision. Defined.

Definition phase_is_terminal (p : ResourcePhase) : bool :=
  match p with Deleted => true | _ => false end.

Definition phase_can_transition_to (p next : ResourcePhase) : bool :=
  match p with
  | Requested => match next with Provisioning | Failed | Deleting => true | _ => false end
  | Provisioning =>
      match next with Ready | Degraded | Failed | Deleting => true | _ => false end
  | Ready =>
      match next with Degraded | Failed | Provisioning | Deleting => true | _ => false end
  | Degraded => match next with Ready | Failed | Deleting => true | _ => false end
  | Failed => match next with Requested | Provisioning | Deleting => true | _ => false end
  | Deleting => match next with Deleted => true | _ => false end
  | Deleted => false
  end.

Definition phase_health (p : ResourcePhase) : HealthState :=
  match p with
  | Requested | Provisioning => HProvisioning
  | Ready => HHealthy
  | Degraded => HDegraded
  | Failed => HFailed
  | Deleting | Deleted => HUnknown
  end.

Inductive ObservationSource := SrcPlatformProbe | SrcProviderCallback.

Record ResourceTransition := {
  rt_from : ResourcePhase;
  rt_to : ResourcePhase;
  rt_at : DateTime;
  rt_source : ObservationSource;
  rt_reason : option string;
}.

(* ------------------------------------------------------------------ *)
(** * Retry policy *)

Record RetryPolicy := {
  max_attempts : Z;
  base_delay : Duration;
  factor : Z;
  max_delay : option Duration;
}.

Section Retry.
Context `{Chrono}.

Definition RetryPolicy_default : outcome RetryPolicy :=
  base ← duration_seconds 5;
  cap ← duration_seconds 300;
  Done {| max_attempts := 5; base_delay := base; factor := 2; max_delay := Some cap |}.

(** [i64::saturating_mul] and [i64::try_from(m).unwrap_or(i64::MAX)]. *)
Definition sat_mul_i64 (a b : Z) : Z := Z.max (- i64_max - 1) (Z.min i64_max (a * b)).
Definition i64_or_max (m : Z) : Z := if decide (m ≤ i64_max) then m else i64_max.

Definition delay_for (self : RetryPolicy) (attempt : Z) : outcome Duration :=
  let factor := Z.max (factor self) 1 in
  let exponent := sat_sub attempt 1 in
  let multiplier := Z.max (sat_pow u64_max factor (Z.min exponent 31)) 1 in
  let seconds :=
    sat_mul_i64 (num_seconds (Z.max (base_delay self) 0)) (i64_or_max multiplier) in
  delay ← duration_seconds seconds;
  match max_delay self with
  | Some cap => if decide (cap < delay) then Done cap else Done delay
  | None => Done delay
  end.
End Retry.

(* ------------------------------------------------------------------ *)
(** * Resources *)

Record FailureRecord := {
  fr_reason : string;
  fr_policy : RetryPolicy;
  fr_attempts : Z;
  fr_next_retry_at : DateTime;
}.

Record Resource := mkResource {
  res_id : ResourceId;
  res_kind : string;
  res_desired_version : Z;
  res_phase : ResourcePhase;
  res_generation : Z;
  res_failure : option FailureRecord;
  res_transitions : list ResourceTransition;
}.

Definition res_set_phase (p : ResourcePhase) (r : Resource) : Resource :=
  mkResource (res_id r) (res_kind r) (res_desired_version r) p (res_generation r)
    (res_failure r) (res_transitions r).
Definition res_push_transition (t : ResourceTransition) (r : Resource) : Resource :=
  mkResource (res_id r) (res_kind r) (res_desired_version r) (res_phase r)
    (res_generation r) (res_failure r) (res_transitions r ++ [t]).
Definition res_set_generation (g : Z) (r : Resource) : Resource :=
  mkResource (res_id r) (res_kind r) (res_desired_version r) (res_phase r) g
    (res_failure r) (res_transitions r).
Definition res_set_failure (f : option FailureRecord) (r : Resource) : Resource :=
  mkResource (res_id r) (res_kind r) (res_desired_version r) (res_phase r)
    (res_generation r) f (res_transitions r).

Section Operations.
Context `{UuidLib} `{Chrono} `{BuildProfile}.

(** [fresh] is the random identifier drawn by [ResourceId::new]. *)
Definition Resource_request (fresh : ResourceId) (kind : string) (desired_version : Z)
    (at_ : DateTime) : result CoreError Resource :=
  Ok {| res_id := fresh; res_kind := kind; res_desired_version := desired_version;
        res_phase := Requested; res_generation := 0; res_failure := None;
        res_transitions :=
          [{| rt_from := Requested; rt_to := Requested; rt_at := at_;
              rt_source := SrcPlatformProbe; rt_reason := None |}] |}.

Definition Resource_observe (next : ResourcePhase) (source : ObservationSource)
    (reason : option string) (at_ : DateTime) : M Resource CoreError ResourceTransition :=
  self ← get;
  if negb (phase_can_transition_to (res_phase self) next) then
    mthrow (ReconciliationError ("illegal resource transition "
      +:+ ResourcePhase_debug (res_phase self) +:+ " -> " +:+ ResourcePhase_debug next
      +:+ " for resource " +:+ id_fmt (res_id self)))
  else if decide (next = res_phase self) then
    mthrow (ReconciliationError ("resource " +:+ id_fmt (res_id self)
      +:+ " is already in phase " +:+ ResourcePhase_debug next))
  else
    modify (res_set_phase next);;
    previous ← lift_o (expect "transitions are never empty" (last (res_transitions self)));
    modify (res_push_transition
      {| rt_from := rt_to previous; rt_to := next; rt_at := at_;
         rt_source := source; rt_reason := reason |});;
    self ← get;
    lift_o (expect "just pushed" (last (res_transitions self))).

Definition Resource_fail (reason : string) (secrets : list string) (policy : RetryPolicy)
    (at_ : DateTime) : M Resource CoreError unit :=
  Resource_observe Failed SrcProviderCallback (Some (redact_reason reason secrets)) at_;;
  self ← get;
  attempts ← lift_o match res_failure self with
                    | None => Done 1
                    | Some f => add_unsigned u32_max (fr_attempts f) 1
                    end;
  generation ← lift_o (add_unsigned u32_max (res_generation self) 1);
  modify (res_set_generation generation);;
  delay ← lift_o (delay_for policy attempts);
  retry_at ← lift_o (datetime_add at_ delay);
  modify (res_set_failure (Some
    {| fr_reason := redact_reason reason secrets; fr_policy := policy;
       fr_attempts := attempts; fr_next_retry_at := retry_at |})).

Definition Resource_begin_delete (at_ : DateTime) : M Resource CoreError unit :=
  Resource_observe Deleting SrcPlatformProbe None at_;;
  mret tt.

Definition Resource_mark_deleted (at_ : DateTime) : M Resource CoreError unit :=
  Resource_observe Deleted SrcProviderCallback None at_;;
  modify (res_set_failure None).

Definition Resource_is_ready (self : Resource) : bool :=
  bool_decide (res_phase self = Ready).
Definition Resource_is_gone (self : Resource) : bool :=
  match res_phase self with Deleting | Deleted => true | _ => false end.

Definition convergence_version (self : Resource) : Z :=
  sat_add u64_max (sat_mul u64_max (res_desired_version self) 1000) (res_generation self).

Definition Resource_to_event_detail (self : Resource) : string :=
  let failure := match res_failure self with
    | Some f => " failure: " +:+ fr_reason f +:+ " (attempt " +:+ pretty (fr_attempts f)
                +:+ "/" +:+ pretty (max_attempts (fr_policy f)) +:+ ")"
    | None => ""
    end in
  "resource " +:+ id_fmt (res_id self) +:+ " (" +:+ res_kind self +:+ ") phase "
  +:+ ResourcePhase_debug (res_phase self) +:+ " desired v"
  +:+ pretty (res_desired_version self) +:+ failure.
End Operations.

(* ------------------------------------------------------------------ *)
(** * Redaction facts *)

Lemma redact_fold_keeps s out l :
  apart s redacted_marker → str_contains s out = false →
  str_contains s (foldl (λ out secret, str_replace secret redacted_marker out) out l) = false.
Proof.
  intros Hap. revert out. induction l as [|p l IH]; intros out Hout; [done|].
  simpl. apply IH. apply not_true_is_false. intros H%replace_from_contains; [congruence|done].
Qed.

Lemma redact_hides reason secrets s :
  s ∈ secrets → apart s redacted_marker →
  str_contains s (redact_reason reason secrets) = false.
Proof.
  intros Hin Hap. unfold redact_reason.
  assert (s ∈ List.filter (λ s, negb (str_is_empty s)) secrets) as Hf.
  { apply list_elem_of_In, List.filter_In. rewrite <- list_elem_of_In. split; [done|].
    destruct s; [|done]. by destruct Hap as (_ & _ & ?). }
  apply list_elem_of_split in Hf as (l1 & l2 & ->). rewrite foldl_app. simpl.
  apply redact_fold_keeps; [done..|]. by apply replace_from_clean.
Qed.

Lemma redact_absent reason secrets :
  (∀ s, s ∈ secrets → s ≠ "" → str_contains s reason = false) → redact_reason reason secrets = reason.
Proof.
  unfold redact_reason. induction secrets as [|s secrets IH]; simpl; [done|]. intros Habs.
  destruct s as [|a s]; simpl; [apply IH; set_solver|].
  unfold str_replace. rewrite replace_from_absent by (apply Habs; set_solver).
  apply IH. set_solver.
Qed.

(** A redacted reason contains no secret value that is apart from the marker
    [[redacted]], that is, has no bracket and is no part of the marker, whatever the other secrets are and
    in whatever order they are listed; a reason without any secret is
    unchanged. *)
Theorem redact_reason_hides_secret reason secrets s :
  s ∈ secrets → apart s redacted_marker →
  str_contains s (redact_reason reason secrets) = false ∧
  ((∀ s', s' ∈ secrets → s' ≠ "" → str_contains s' reason = false) →
   redact_reason reason secrets = reason).
Proof. intros. split; [by apply redact_hides|apply redact_absent]. Qed.

Lemma redact_reason_hides_secret_witness :
  ("p@ss" ∈ ["k1"; "p@ss"] ∧ apart "p@ss" redacted_marker) ∧
  str_contains "p@ss" (redact_reason "login p@ssp@ss with k1" ["k1"; "p@ss"]) = false.
Proof.
  assert (apart "p@ss" redacted_marker) by (apply (bool_decide_unpack _); vm_compute; exact I).
  split; [split; [set_solver|done]|].
  apply (redact_reason_hides_secret _ ["k1"; "p@ss"] "p@ss"); [set_solver|done].
Defined.

(* ------------------------------------------------------------------ *)
(** * Retry policy facts *)

Section RetryFacts.
Context `{ChronoLaws}.

Lemma num_seconds_base p : num_seconds (Z.max (base_delay p) 0) = Z.max (base_delay p) 0 / nanos_per_sec.
Proof. apply num_seconds_nonneg. lia. Qed.

(** The number of seconds before capping: no saturation, in plain integers. *)
Definition backoff_secs (p : RetryPolicy) (attempt : Z) : Z :=
  Z.max (base_delay p) 0 / nanos_per_sec * Z.max (factor p) 1 ^ Z.min (Z.max 0 (attempt - 1)) 31.

Local Lemma backoff_parts p attempt :
  0 ≤ Z.max (base_delay p) 0 / nanos_per_sec ∧
  1 ≤ Z.max (factor p) 1 ^ Z.min (Z.max 0 (attempt - 1)) 31.
Proof.
  split; [apply Z.div_pos; unfold nanos_per_sec; lia|].
  assert (0 < Z.max (factor p) 1 ^ Z.min (Z.max 0 (attempt - 1)) 31); [|lia].
  apply Z.pow_pos_nonneg; lia.
Qed.

(** The saturating product is exact below the duration limit and stays
    above it otherwise. *)
Lemma saturation_exact secs m :
  0 ≤ secs → 1 ≤ m → secs * m ≤ max_duration_secs →
  sat_mul_i64 secs (i64_or_max (Z.max (Z.min u64_max m) 1)) = secs * m.
Proof.
  unfold sat_mul_i64, i64_or_max, max_duration_secs, i64_max, u64_max. intros Hs Hm Hle.
  destruct (decide (secs = 0)) as [->|Hne]; [by rewrite !Z.mul_0_l|].
  assert (m ≤ 9223372036854775) by nia.
  rewrite (Z.min_r 18446744073709551615 m), (Z.max_l m 1) by lia. rewrite decide_True by lia. lia.
Qed.
Lemma saturation_out secs m :
  0 ≤ secs → 1 ≤ m → max_duration_secs < secs * m →
  max_duration_secs < sat_mul_i64 secs (i64_or_max (Z.max (Z.min u64_max m) 1)).
Proof.
  unfold sat_mul_i64, i64_or_max, max_duration_secs, i64_max, u64_max. intros Hs Hm Hle.
  assert (1 ≤ secs) by nia.
  destruct (decide (m ≤ 9223372036854775807)).
  - rewrite (Z.min_r 18446744073709551615 m), (Z.max_l m 1) by lia. rewrite decide_True by lia. lia.
  - rewrite decide_False by lia. nia.
Qed.

Lemma delay_for_closed p attempt :
  backoff_secs p attempt ≤ max_duration_secs →
  delay_for p attempt =
    Done (match max_delay p with
          | Some cap => Z.min cap (backoff_secs p attempt * nanos_per_sec)
          | None => backoff_secs p attempt * nanos_per_sec
          end).
Proof.
  intros Hle. destruct (backoff_parts p attempt) as [Hs Hm].
  unfold delay_for, sat_pow, sat_sub. rewrite num_seconds_base.
  rewrite saturation_exact by done. fold (backoff_secs p attempt).
  rewrite duration_seconds_in.
  - unfold_monad. destruct (max_delay p); [|done].
    case_decide; f_equal; lia.
  - unfold backoff_secs in *. unfold max_duration_secs, i64_max in *. nia.
Qed.

Lemma delay_for_out_of_range p attempt :
  max_duration_secs < backoff_secs p attempt →
  ∃ msg, delay_for p attempt = Panic msg.
Proof.
  intros Hlt. destruct (backoff_parts p attempt) as [Hs Hm].
  unfold delay_for, sat_pow, sat_sub. rewrite num_seconds_base.
  destruct (duration_seconds_out _ (saturation_out _ _ Hs Hm Hlt)) as [msg Hmsg].
  exists msg. rewrite Hmsg. done.
Qed.

(** The computed backoff is the exponential
    [base * factor^(attempt-1)] (exponent at most 31), bounded by
    [max_delay], exactly when that number of seconds is a representable
    duration: the saturating arithmetic never changes the value.  Beyond
    that range the computation panics, even for a policy whose [max_delay]
    would have capped the delay, because the cap is applied after the
    duration has been built. *)
Theorem delay_for_spec p attempt :
  if decide (backoff_secs p attempt ≤ max_duration_secs) then
    delay_for p attempt =
      Done (match max_delay p with
            | Some cap => Z.min cap (backoff_secs p attempt * nanos_per_sec)
            | None => backoff_secs p attempt * nanos_per_sec
            end)
  else ∃ msg, delay_for p attempt = Panic msg.
Proof.
  case_decide; [by apply delay_for_closed|]. apply delay_for_out_of_range. lia.
Qed.

Lemma RetryPolicy_default_eq :
  RetryPolicy_default =
    Done {| max_attempts := 5; base_delay := 5 * nanos_per_sec; factor := 2;
            max_delay := Some (300 * nanos_per_sec) |}.
Proof.
  unfold RetryPolicy_default. rewrite !duration_seconds_in; [done|..];
    unfold max_duration_secs, i64_max; lia.
Qed.

(** The default policy waits 5, 10, 20, ... seconds, never more
    than 300, for every attempt number; the computation never panics. *)
Theorem default_policy_delay p attempt :
  RetryPolicy_default = Done p →
  delay_for p attempt =
    Done (Z.min 300 (5 * 2 ^ Z.max 0 (attempt - 1)) * nanos_per_sec).
Proof.
  rewrite RetryPolicy_default_eq. intros [= <-].
  rewrite delay_for_closed; unfold backoff_secs; simpl;
    change (Z.max (5 * nanos_per_sec) 0 / nanos_per_sec) with 5; change (Z.max 2 1) with 2.
  - f_equal. set (e := Z.max 0 (attempt - 1)).
    assert (0 ≤ e) by lia. destruct (decide (e ≤ 31)).
    + rewrite (Z.min_l e 31) by lia. unfold nanos_per_sec. lia.
    + rewrite (Z.min_r e 31) by lia. assert (2 ^ 31 ≤ 2 ^ e) by (apply Z.pow_le_mono_r; lia).
      unfold nanos_per_sec. lia.
  - assert (2 ^ Z.min (Z.max 0 (attempt - 1)) 31 ≤ 2 ^ 31) by (apply Z.pow_le_mono_r; lia).
    unfold max_duration_secs, i64_max. lia.
Qed.
End RetryFacts.

Section RetryExamples.
Import RefInstances.
Definition capped_policy : RetryPolicy :=
  {| max_attempts := 40; base_delay := nanos_per_sec; factor := 100;
     max_delay := Some (60 * nanos_per_sec) |}.
(** The capped policy waits its cap at the third attempt and panics at the
    twentieth. *)
Lemma delay_for_spec_witness :
  ChronoLaws ∧ delay_for capped_policy 3 = Done (60 * nanos_per_sec) ∧
  ∃ msg, delay_for capped_policy 20 = Panic msg.
Proof.
  split; [apply _|split].
  - pose proof (delay_for_spec capped_policy 3) as E.
    rewrite decide_True in E by (vm_compute; done). rewrite E. vm_compute. reflexivity.
  - pose proof (delay_for_spec capped_policy 20) as E.
    rewrite decide_False in E by (vm_compute; intros []; done). exact E.
Defined.
Definition default_policy_ref : RetryPolicy :=
  {| max_attempts := 5; base_delay := 5 * nanos_per_sec; factor := 2;
     max_delay := Some (300 * nanos_per_sec) |}.
Lemma default_policy_delay_witness :
  RetryPolicy_default = Done default_policy_ref ∧
  delay_for default_policy_ref 4 = Done (40 * nanos_per_sec).
Proof.
  split; [reflexivity|].
  refine (eq_trans (default_policy_delay default_policy_ref 4 _) _); reflexivity.
Defined.
End RetryExamples.

(* ------------------------------------------------------------------ *)
(** * Lifecycle facts *)

(** The transition evidence of a resource is a legal history that ends in the
    current phase. *)
Definition Resource_wf (r : Resource) : Prop :=
  trail rt_from rt_to phase_can_transition_to Requested (res_transitions r) (res_phase r).

(** One call of a mutating method, with its arguments. *)
Inductive ResourceOp :=
| OpObserve (next : ResourcePhase) (source : ObservationSource) (reason : option string)
    (at_ : DateTime)
| OpFail (reason : string) (secrets : list string) (policy : RetryPolicy) (at_ : DateTime)
| OpBeginDelete (at_ : DateTime)
| OpMarkDeleted (at_ : DateTime).

(** The phase an operation asks for. *)
Definition op_target (op : ResourceOp) : ResourcePhase :=
  match op with
  | OpObserve next _ _ _ => next
  | OpFail _ _ _ _ => Failed
  | OpBeginDelete _ => Deleting
  | OpMarkDeleted _ => Deleted
  end.

Section LifecycleFacts.
Context `{UuidLib} `{Chrono} `{BuildProfile}.
Implicit Types (r : Resource) (op : ResourceOp).

Definition run_resource_op (op : ResourceOp) : M Resource CoreError unit :=
  match op with
  | OpObserve next source reason at_ => Resource_observe next source reason at_;; mret tt
  | OpFail reason secrets policy at_ => Resource_fail reason secrets policy at_
  | OpBeginDelete at_ => Resource_begin_delete at_
  | OpMarkDeleted at_ => Resource_mark_deleted at_
  end.

Definition resource_step (r r' : Resource) : Prop :=
  ∃ op res, run_resource_op op r = Done (r', res).
Definition resource_reachable (r : Resource) : Prop :=
  ∃ fresh kind v at_ r0, Resource_request fresh kind v at_ = Ok r0 ∧ rtc resource_step r0 r.

Lemma no_self_transition p : phase_can_transition_to p p = false.
Proof. by destruct p. Qed.

Lemma observe_illegal next source reason at_ r :
  phase_can_transition_to (res_phase r) next = false →
  ∃ e, Resource_observe next source reason at_ r = Done (r, Err e).
Proof. intros E. unfold Resource_observe. unfold_monad. rewrite E. simpl. eauto. Qed.

Lemma observe_legal next source reason at_ r :
  Resource_wf r → phase_can_transition_to (res_phase r) next = true →
  let t := {| rt_from := res_phase r; rt_to := next; rt_at := at_;
              rt_source := source; rt_reason := reason |} in
  Resource_observe next source reason at_ r =
    Done (res_push_transition t (res_set_phase next r), Ok t).
Proof.
  intros Hwf E. unfold Resource_observe. unfold_monad. rewrite E. simpl.
  rewrite decide_False by (intros ->; by rewrite no_self_transition in E).
  destruct (trail_last _ _ _ _ _ _ Hwf) as (l & Hl & Hto). rewrite Hl. simpl.
  rewrite last_snoc. by rewrite Hto.
Qed.

Lemma observe_wf next source reason at_ r :
  Resource_wf r → phase_can_transition_to (res_phase r) next = true →
  Resource_wf (res_push_transition
    {| rt_from := res_phase r; rt_to := next; rt_at := at_;
       rt_source := source; rt_reason := reason |} (res_set_phase next r)).
Proof. intros Hwf E. by eapply trail_extend. Qed.

(** An illegal request is an error that changes nothing. *)
Lemma op_illegal op r :
  phase_can_transition_to (res_phase r) (op_target op) = false →
  ∃ e, run_resource_op op r = Done (r, Err e).
Proof.
  intros E. destruct op; simpl in *;
    unfold Resource_fail, Resource_begin_delete, Resource_mark_deleted;
    unfold mbind, M_bind;
    (edestruct observe_illegal as [e He]; [exact E|]); erewrite He; eauto.
Qed.

(** A legal request that finishes succeeds, in the phase it asks for, with one
    new record. *)
Lemma op_legal op r r' res :
  Resource_wf r → phase_can_transition_to (res_phase r) (op_target op) = true →
  run_resource_op op r = Done (r', res) →
  res = Ok tt ∧ Resource_wf r' ∧ res_phase r' = op_target op ∧
  ∃ t, res_transitions r' = res_transitions r ++ [t] ∧ rt_from t = res_phase r.
Proof.
  intros Hwf E. destruct op; simpl in E |- *;
    unfold Resource_fail, Resource_begin_delete, Resource_mark_deleted, mbind, M_bind;
    rewrite observe_legal by done; intros Hrun; run_op Hrun;
    (split; [done|]); (split; [by apply (observe_wf _ _ _ _ _ Hwf E)|]);
    (split; [done|]); by eexists.
Qed.

Lemma op_cases op r r' res :
  Resource_wf r → run_resource_op op r = Done (r', res) →
  (r' = r ∧ ∃ e, res = Err e) ∨
  (res = Ok tt ∧ Resource_wf r' ∧ res_phase r' = op_target op ∧
   phase_can_transition_to (res_phase r) (res_phase r') = true ∧
   ∃ t, res_transitions r' = res_transitions r ++ [t] ∧ rt_from t = res_phase r).
Proof.
  intros Hwf Hrun. destruct (phase_can_transition_to (res_phase r) (op_target op)) eqn:E.
  - right. destruct (op_legal _ _ _ _ Hwf E Hrun) as (? & ? & Hp & ?). by rewrite Hp.
  - left. destruct (op_illegal _ _ E) as [e He]. rewrite He in Hrun. naive_solver.
Qed.

Lemma resource_step_wf r r' : Resource_wf r → resource_step r r' → Resource_wf r'.
Proof. intros Hwf (op & res & Hrun). destruct (op_cases _ _ _ _ Hwf Hrun); naive_solver. Qed.

Lemma request_wf fresh kind v at_ r :
  Resource_request fresh kind v at_ = Ok r → Resource_wf r.
Proof. intros [= <-]. by constructor. Qed.

Lemma resource_reachable_wf r : resource_reachable r → Resource_wf r.
Proof.
  intros (fresh & kind & v & at_ & r0 & Hreq & Hsteps).
  apply request_wf in Hreq. induction Hsteps; eauto using resource_step_wf.
Qed.

(** In every state a resource can reach, its evidence is a
    connected history: each record starts where the previous one ended, every
    move is an edge of the lifecycle graph, and the last record names the
    current phase. *)
Theorem resource_evidence_sound r :
  resource_reachable r →
  (∃ t, last (res_transitions r) = Some t ∧ rt_to t = res_phase r) ∧
  ∀ i t u, res_transitions r !! i = Some t → res_transitions r !! S i = Some u →
    rt_from u = rt_to t ∧ phase_can_transition_to (rt_from u) (rt_to u) = true.
Proof.
  intros Hwf%resource_reachable_wf. split.
  - by eapply trail_last.
  - intros i t u Ht Hu. by eapply trail_linked.
Qed.

(** On a reachable resource a lifecycle call that finishes either is
    refused and leaves the resource unchanged, exactly when the graph has no
    such edge, or succeeds, moves to the requested phase and appends one
    record. *)
Theorem resource_op_spec op r r' res :
  resource_reachable r → run_resource_op op r = Done (r', res) →
  if phase_can_transition_to (res_phase r) (op_target op)
  then res = Ok tt ∧ res_phase r' = op_target op ∧
       ∃ t, res_transitions r' = res_transitions r ++ [t] ∧ rt_from t = res_phase r
  else r' = r ∧ ∃ e, res = Err e.
Proof.
  intros Hwf%resource_reachable_wf Hrun. case_match eqn:E.
  - destruct (op_legal _ _ _ _ Hwf E Hrun) as (? & ? & ? & ?). done.
  - destruct (op_illegal _ _ E) as [e He]. rewrite He in Hrun. naive_solver.
Qed.

Lemma op_from_deleted op r : res_phase r = Deleted → ∃ e, run_resource_op op r = Done (r, Err e).
Proof. intros Hp. apply op_illegal. by rewrite Hp. Qed.

(** A deleted resource is final: no sequence of calls changes
    anything about it. *)
Theorem deleted_resource_is_final r r' :
  phase_is_terminal (res_phase r) = true → rtc resource_step r r' → r' = r.
Proof.
  intros Hp Hsteps. assert (Hd : res_phase r = Deleted) by (by destruct (res_phase r)).
  induction Hsteps as [|x y z (op & res & Hrun) _ IH]; [done|].
  destruct (op_from_deleted op x Hd) as [e He]. rewrite He in Hrun. simplify_eq. auto.
Qed.

(** What a recorded failure leaves behind. *)
Lemma fail_ok reason secrets policy at_ r r' :
  Resource_wf r → Resource_fail reason secrets policy at_ r = Done (r', Ok tt) →
  Resource_wf r' ∧ res_phase r' = Failed ∧
  ∃ attempts delay retry_at,
    match res_failure r with
    | None => Done 1
    | Some f => add_unsigned u32_max (fr_attempts f) 1
    end = Done attempts ∧
    add_unsigned u32_max (res_generation r) 1 = Done (res_generation r') ∧
    delay_for policy attempts = Done delay ∧ datetime_add at_ delay = Done retry_at ∧
    res_failure r' = Some {| fr_reason := redact_reason reason secrets; fr_policy := policy;
                             fr_attempts := attempts; fr_next_retry_at := retry_at |}.
Proof.
  intros Hwf Hrun. set (op := OpFail reason secrets policy at_).
  change (run_resource_op op r = Done (r', Ok tt)) in Hrun.
  destruct (op_cases _ _ _ _ Hwf Hrun) as [[_ [e ?]]|(_ & Hwf' & Hp & E & _)]; [done|].
  split; [done|]. split; [done|]. rewrite Hp in E. clear Hp Hwf'.
  unfold run_resource_op, op, Resource_fail in Hrun. unfold mbind, M_bind in Hrun.
  rewrite observe_legal in Hrun by done. run_op Hrun; eauto 10.
Qed.

(** Only deletion clears a failure record. *)
Lemma failure_persists op r r' res :
  Resource_wf r → run_resource_op op r = Done (r', res) → is_Some (res_failure r) →
  res_phase r' ≠ Deleted → is_Some (res_failure r').
Proof.
  intros Hwf Hrun Hf Hp. destruct (op_cases _ _ _ _ Hwf Hrun) as [[-> _]|(_ & _ & Ht & E & _)];
    [done|].
  rewrite Ht in E, Hp. clear Ht. destruct op; simpl in *; try done;
    unfold Resource_fail, Resource_begin_delete, mbind, M_bind in Hrun;
    rewrite observe_legal in Hrun by done; run_op Hrun; first [done|by eexists].
Qed.
End LifecycleFacts.

Section FailureFacts.
Context `{UuidLib} `{Chrono} `{BuildProfile}.

(** A recorded failure puts the resource in [Failed], bumps the
    failure generation and the attempt count by one, schedules the retry after
    the policy's delay for that attempt, and stores a reason in which no
    non-empty secret disjoint from the marker occurs. *)
Theorem resource_failure_spec reason secrets policy at_ r r' :
  resource_reachable r → Resource_fail reason secrets policy at_ r = Done (r', Ok tt) →
  res_phase r' = Failed ∧
  add_unsigned u32_max (res_generation r) 1 = Done (res_generation r') ∧
  ∃ f delay, res_failure r' = Some f ∧ fr_policy f = policy ∧
    match res_failure r with
    | None => Done 1
    | Some f0 => add_unsigned u32_max (fr_attempts f0) 1
    end = Done (fr_attempts f) ∧
    delay_for policy (fr_attempts f) = Done delay ∧
    datetime_add at_ delay = Done (fr_next_retry_at f) ∧
    ∀ s, s ∈ secrets → apart s redacted_marker →
      str_contains s (fr_reason f) = false.
Proof.
  intros Hwf%resource_reachable_wf Hrun.
  destruct (fail_ok _ _ _ _ _ _ Hwf Hrun) as (_ & Hp & a & d & t & Ha & Hg & Hd & Ht & Hf).
  split; [done|]. split; [done|]. eexists _, d. split; [exact Hf|]. simpl.
  split_and!; try done. intros s Hin Hap. by apply redact_hides.
Qed.
End FailureFacts.

Module ResourceExamples.
Import RefInstances.
Definition r_id : ResourceId := mkId (uuid 9).
Definition r_requested : Resource :=
  mkResource r_id "database.postgres" 1 Requested 0 None
    [{| rt_from := Requested; rt_to := Requested; rt_at := 0; rt_source := SrcPlatformProbe;
        rt_reason := None |}].
Definition after_op (op : ResourceOp) (r : Resource) : Resource :=
  (done_or (r, Ok tt) (run_resource_op op r)).1.
Definition provisioning : ResourceOp := OpObserve Provisioning SrcProviderCallback None 1.
Definition failing : ResourceOp := OpFail "auth p@ss refused" ["p@ss"] default_policy_ref 2.
Definition r_provisioning : Resource := after_op provisioning r_requested.
Definition r_failed : Resource := after_op failing r_provisioning.
Definition r_deleted : Resource := after_op (OpMarkDeleted 9) (after_op (OpBeginDelete 8) r_failed).

Lemma step_after op r : is_done (run_resource_op op r) = true → resource_step r (after_op op r).
Proof.
  intros Hd. exists op, (done_or (r, Ok tt) (run_resource_op op r)).2.
  by apply is_done_pair.
Qed.
Lemma requested_reachable : resource_reachable r_requested.
Proof. exists r_id, "database.postgres", 1, 0, r_requested. split; [reflexivity|constructor]. Qed.
Lemma reachable_after op r :
  is_done (run_resource_op op r) = true → resource_reachable r → resource_reachable (after_op op r).
Proof.
  intros Hd (f & k & v & t & r0 & Hreq & Hs). exists f, k, v, t, r0. split; [exact Hreq|].
  eapply rtc_r; [exact Hs|]. by apply step_after.
Qed.
Lemma provisioning_reachable : resource_reachable r_provisioning.
Proof. apply reachable_after; [vm_compute; reflexivity|exact requested_reachable]. Qed.
Lemma failed_reachable : resource_reachable r_failed.
Proof. apply reachable_after; [vm_compute; reflexivity|exact provisioning_reachable]. Qed.

Lemma resource_evidence_sound_witness :
  resource_reachable r_failed ∧ ∃ t, last (res_transitions r_failed) = Some t ∧ rt_to t = Failed.
Proof.
  split; [exact failed_reachable|].
  exact (proj1 (resource_evidence_sound r_failed failed_reachable)).
Defined.
Lemma resource_op_spec_witness :
  ∃ res, run_resource_op (OpMarkDeleted 3) r_failed = Done (r_failed, res) ∧ ∃ e, res = Err e.
Proof.
  set (res := (done_or (r_failed, Ok tt) (run_resource_op (OpMarkDeleted 3) r_failed)).2).
  assert (run_resource_op (OpMarkDeleted 3) r_failed = Done (after_op (OpMarkDeleted 3) r_failed, res))
    as E by (vm_compute; reflexivity).
  destruct (resource_op_spec (OpMarkDeleted 3) r_failed _ _ failed_reachable E) as [E' He].
  exists res. split; [|exact He]. rewrite E, E'. reflexivity.
Defined.
Lemma deleted_resource_is_final_witness :
  phase_is_terminal (res_phase r_deleted) = true ∧
  after_op (OpBeginDelete 11) r_deleted = r_deleted.
Proof.
  assert (phase_is_terminal (res_phase r_deleted) = true) as Hd by (vm_compute; reflexivity).
  split; [exact Hd|]. apply (deleted_resource_is_final r_deleted _ Hd).
  apply rtc_once, step_after. vm_compute. reflexivity.
Defined.
Lemma resource_failure_spec_witness :
  Resource_fail "auth p@ss refused" ["p@ss"] default_policy_ref 2 r_provisioning
    = Done (r_failed, Ok tt) ∧ res_phase r_failed = Failed.
Proof.
  assert (Resource_fail "auth p@ss refused" ["p@ss"] default_policy_ref 2 r_provisioning
    = Done (r_failed, Ok tt)) as E by (vm_compute; reflexivity).
  split; [exact E|].
  exact (proj1 (resource_failure_spec _ _ _ _ _ _ provisioning_reachable E)).
Defined.
End ResourceExamples.
