(* ===== verification/Jobs.v ===== *)
(** The idempotent job queue (controller.rs, second part): the model of the
    PostgreSQL jobs table and of the worker's claim/retry boundary. *)

From stdpp Require Import base option list strings pretty gmap relations.
From Stdlib Require Import ZArith Lia Ascii.
From S2P Require Import Prelude External Errors Ids Resource.
Local Open Scope Z_scope.

(* ------------------------------------------------------------------ *)
(** * Data *)

Inductive JobAction := JProvision | JUpdate | JRollout | JVerify | JDelete.
#[global] Instance JobAction_eq_dec : EqDecision JobAction.
Proof. solve_decision. Defined.

Definition JobAction_as_str (a : JobAction) : string :=
  match a with
  | JProvision => "provision" | JUpdate => "update" | JRollout => "rollout"
  | JVerify => "verify" | JDelete => "delete"
  end.

(** [IdempotencyKey] is a newtype over its text. *)
Definition IdempotencyKey : Type := string.
Definition IdempotencyKey_new (target : string) (action : JobAction) (version : Z) :
    IdempotencyKey :=
  target +:+ ":" +:+ JobAction_as_str action +:+ ":v" +:+ pretty version.

Inductive JobStatus := Queued | Paused | Running | Succeeded | Dead.
#[global] Instance JobStatus_eq_dec : EqDecision JobStatus.
Proof. solve_decision. Defined.

Definition JobStatus_debug (s : JobStatus) : string :=
  match s with
  | Queued => "Queued" | Paused => "Paused" | Running => "Running"
  | Succeeded => "Succeeded" | Dead => "Dead"
  end.

Definition is_in_flight (s : JobStatus) : bool :=
  match s with Queued | Paused | Running => true | _ => false end.

Record Job := mkJob {
  job_id : JobId;
  job_target : string;
  job_action : JobAction;
  job_key : IdempotencyKey;
  job_status : JobStatus;
  job_attempts : Z;
  job_policy : RetryPolicy;
  job_next_attempt_at : DateTime;
  job_last_error : option string;
  job_enqueued_at : DateTime;
  job_updated_at : DateTime;
}.

(** The assignments a method makes to a job it holds mutably. *)
Definition job_update (j : Job) (status : JobStatus) (attempts : Z) (next : DateTime)
    (last_error : option string) (updated : DateTime) : Job :=
  mkJob (job_id j) (job_target j) (job_action j) (job_key j) status attempts
    (job_policy j) next last_error (job_enqueued_at j) updated.

Inductive EnqueueOutcome :=
| Enqueued (id : JobId)
| Duplicate (id : JobId).

(** [JobQueue { jobs: BTreeMap<String, Job> }]. *)
Abbreviation JobQueue := (gmap string Job).

(* ------------------------------------------------------------------ *)
(** * Operations *)

Section Operations.
Context `{UuidLib} `{Chrono} `{BuildProfile}.

Definition JobQueue_new : JobQueue := ∅.

(** [fresh] is the random identifier drawn by [JobId::new]. *)
Definition enqueue (fresh : JobId) (target : string) (action : JobAction) (version : Z)
    (policy : RetryPolicy) (at_ : DateTime) (self : JobQueue) : JobQueue * EnqueueOutcome :=
  let key := IdempotencyKey_new target action version in
  match List.find (λ job, bool_decide (job_key job = key) && is_in_flight (job_status job))
          (btree_values self) with
  | Some existing => (self, Duplicate (job_id existing))
  | None =>
      let job := {| job_id := fresh; job_target := target; job_action := action;
                    job_key := key; job_status := Queued; job_attempts := 0;
                    job_policy := policy; job_next_attempt_at := at_;
                    job_last_error := None; job_enqueued_at := at_;
                    job_updated_at := at_ |} in
      (<[id_fmt fresh := job]> self, Enqueued fresh)
  end.

Definition JobQueue_get (id : JobId) (self : JobQueue) : option Job := self !! id_fmt id.
Definition JobQueue_len (self : JobQueue) : nat := size self.
Definition JobQueue_is_empty (self : JobQueue) : bool := bool_decide (size self = 0%nat).

(** The comparison of the keys [(next_attempt_at, enqueued_at)]. *)
Definition due_le (a b : Job) : bool :=
  (job_next_attempt_at a <? job_next_attempt_at b)
  || (job_next_attempt_at a =? job_next_attempt_at b)
     && (job_enqueued_at a <=? job_enqueued_at b).
Definition claimable (now : DateTime) (job : Job) : bool :=
  bool_decide (job_status job = Queued) && (job_next_attempt_at job <=? now).

Definition claim_next (now : DateTime) (self : JobQueue) : outcome (JobQueue * option JobId) :=
  match job_id <$> min_by due_le (List.filter (claimable now) (btree_values self)) with
  | Some id =>
      job ← expect "candidate came from the map" (self !! id_fmt id);
      attempts ← add_unsigned u32_max (job_attempts job) 1;
      Done (<[id_fmt id := job_update job Running attempts (job_next_attempt_at job)
                             (job_last_error job) now]> self, Some id)
  | None => Done (self, None)
  end.

Definition lookup_job (id : JobId) : M JobQueue CoreError Job :=
  self ← get;
  lift_r (ok_or (NotFound ("job " +:+ id_fmt id)) (self !! id_fmt id)).

Definition running_job (id : JobId) : M JobQueue CoreError Job :=
  job ← lookup_job id;
  if decide (job_status job = Running) then mret job
  else mthrow (ReconciliationError ("job " +:+ id_fmt id +:+ " is not running ("
                +:+ JobStatus_debug (job_status job) +:+ ")")).

Definition store (id : JobId) (job : Job) : M JobQueue CoreError unit :=
  modify (λ q, <[id_fmt id := job]> q).

Definition complete (id : JobId) (now : DateTime) : M JobQueue CoreError unit :=
  job ← running_job id;
  store id (job_update job Succeeded (job_attempts job) (job_next_attempt_at job) None now).

Definition fail (id : JobId) (error : string) (now : DateTime) :
    M JobQueue CoreError JobStatus :=
  job ← running_job id;
  delay ← lift_o (delay_for (job_policy job) (Z.max (job_attempts job) 1));
  let last_error := Some (redact_reason error []) in
  if decide (max_attempts (job_policy job) ≤ job_attempts job) then
    store id (job_update job Dead (job_attempts job) (job_next_attempt_at job) last_error now);;
    mret Dead
  else
    next ← lift_o (datetime_add now delay);
    store id (job_update job Queued (job_attempts job) next last_error now);;
    mret Queued.

Definition pause (id : JobId) (now : DateTime) : M JobQueue CoreError unit :=
  job ← lookup_job id;
  if decide (job_status job = Queued) then
    store id (job_update job Paused (job_attempts job) (job_next_attempt_at job)
                (job_last_error job) now)
  else mthrow (ReconciliationError ("only queued jobs can be paused, job " +:+ id_fmt id
                +:+ " is " +:+ JobStatus_debug (job_status job))).

Definition resume (id : JobId) (now : DateTime) : M JobQueue CoreError unit :=
  job ← lookup_job id;
  if decide (job_status job = Paused) then
    store id (job_update job Queued (job_attempts job) now (job_last_error job) now)
  else mthrow (ReconciliationError ("only paused jobs can be resumed, job " +:+ id_fmt id
                +:+ " is " +:+ JobStatus_debug (job_status job))).

Definition requeue (id : JobId) (now : DateTime) : M JobQueue CoreError unit :=
  job ← lookup_job id;
  if decide (job_status job = Dead) then
    store id (job_update job Queued 0 now (job_last_error job) now)
  else mthrow (ReconciliationError ("only dead jobs can be requeued, job " +:+ id_fmt id
                +:+ " is " +:+ JobStatus_debug (job_status job))).

Definition dead_letters (self : JobQueue) : list JobId :=
  job_id <$> List.filter (λ job, bool_decide (job_status job = Dead)) (btree_values self).

Definition is_quiet (self : JobQueue) : bool :=
  forallb (λ job, negb (is_in_flight (job_status job))) (btree_values self).
End Operations.

(* ------------------------------------------------------------------ *)
(** * The queue as a state machine *)

(** One call of a queue method. *)
Inductive QueueOp :=
| QEnqueue (fresh : JobId) (target : string) (action : JobAction) (version : Z)
    (policy : RetryPolicy) (at_ : DateTime)
| QClaim (now : DateTime)
| QComplete (id : JobId) (now : DateTime)
| QFail (id : JobId) (error : string) (now : DateTime)
| QPause (id : JobId) (now : DateTime)
| QResume (id : JobId) (now : DateTime)
| QRequeue (id : JobId) (now : DateTime).

(** The attempt budget a policy grants: a job is tried at least once. *)
Definition budget (p : RetryPolicy) : Z := Z.max 1 (max_attempts p).
Definition policy_ok (p : RetryPolicy) : Prop := 0 ≤ max_attempts p ≤ u32_max.

Definition attempts_ok (j : Job) : Prop :=
  policy_ok (job_policy j) ∧
  match job_status j with
  | Queued | Paused => 0 ≤ job_attempts j < budget (job_policy j)
  | Running | Succeeded | Dead => 1 ≤ job_attempts j ≤ budget (job_policy j)
  end.

(** The abstract machine of one job: identity fields never change, the status
    follows these edges, and the attempt counter counts claims. *)
Definition job_change (j j' : Job) : Prop :=
  (job_id j' = job_id j ∧ job_target j' = job_target j ∧ job_action j' = job_action j ∧
   job_key j' = job_key j ∧ job_policy j' = job_policy j ∧
   job_enqueued_at j' = job_enqueued_at j) ∧
  match job_status j, job_status j' with
  | Queued, Running => job_attempts j' = job_attempts j + 1
  | Queued, Paused | Paused, Queued | Running, Succeeded => job_attempts j' = job_attempts j
  | Running, Dead =>
      job_attempts j' = job_attempts j ∧ max_attempts (job_policy j) ≤ job_attempts j
  | Running, Queued =>
      job_attempts j' = job_attempts j ∧ job_attempts j < max_attempts (job_policy j)
  | Dead, Queued => job_attempts j' = 0
  | _, _ => False
  end.

Section Machine.
Context `{UuidLib} `{Chrono} `{BuildProfile}.

Definition state_of {A} (o : outcome (JobQueue * A)) : outcome JobQueue :=
  '(q, _) ← o; Done q.
Definition run_queue_op (op : QueueOp) (q : JobQueue) : outcome JobQueue :=
  match op with
  | QEnqueue fresh target action version policy at_ =>
      Done (enqueue fresh target action version policy at_ q).1
  | QClaim now => state_of (claim_next now q)
  | QComplete id now => state_of (complete id now q)
  | QFail id error now => state_of (fail id error now q)
  | QPause id now => state_of (pause id now q)
  | QResume id now => state_of (resume id now q)
  | QRequeue id now => state_of (requeue id now q)
  end.

(** A drawn identifier is new to the queue, and a policy's attempt bound is a
    [u32]. *)
Definition op_ok (op : QueueOp) (q : JobQueue) : Prop :=
  match op with
  | QEnqueue fresh _ _ _ policy _ => q !! id_fmt fresh = None ∧ policy_ok policy
  | _ => True
  end.

Definition queue_step (q q' : JobQueue) : Prop :=
  ∃ op, op_ok op q ∧ run_queue_op op q = Done q'.
Definition queue_reachable (q : JobQueue) : Prop := rtc queue_step JobQueue_new q.

Record queue_wf (q : JobQueue) : Prop := {
  wf_keyed : ∀ k j, q !! k = Some j → k = id_fmt (job_id j);
  wf_attempts : ∀ k j, q !! k = Some j → attempts_ok j;
}.

(** At most one in-flight job per idempotency key. *)
Definition keys_unique (q : JobQueue) : Prop :=
  ∀ k1 k2 j1 j2, q !! k1 = Some j1 → q !! k2 = Some j2 →
    is_in_flight (job_status j1) = true → is_in_flight (job_status j2) = true →
    job_key j1 = job_key j2 → k1 = k2.

(** No in-flight job carries the key. *)
Definition key_free (key : IdempotencyKey) (q : JobQueue) : Prop :=
  ∀ k j, q !! k = Some j → is_in_flight (job_status j) = true → job_key j ≠ key.

(** The entry an operation may bring back from a terminal status. *)
Definition revived (op : QueueOp) : option string :=
  match op with QRequeue id _ => Some (id_fmt id) | _ => None end.

(** The three effects an operation can have on the queue. *)
Inductive queue_effect (op : QueueOp) (q : JobQueue) : JobQueue → Prop :=
| effect_none : queue_effect op q q
| effect_new j :
    q !! id_fmt (job_id j) = None → job_status j = Queued → job_attempts j = 0 →
    policy_ok (job_policy j) → key_free (job_key j) q →
    queue_effect op q (<[id_fmt (job_id j) := j]> q)
| effect_change k j j' :
    q !! k = Some j → job_change j j' →
    (is_in_flight (job_status j) = false → revived op = Some k) →
    queue_effect op q (<[k := j']> q).
End Machine.

(* ------------------------------------------------------------------ *)
(** * Facts *)

Section Facts.
Context `{UuidLib} `{Chrono} `{BuildProfile}.
Implicit Types (q : JobQueue) (j : Job) (id : JobId).

Lemma enqueue_cases fresh target action version policy at_ q :
  let key := IdempotencyKey_new target action version in
  (∃ k j, q !! k = Some j ∧ job_key j = key ∧ is_in_flight (job_status j) = true ∧
     enqueue fresh target action version policy at_ q = (q, Duplicate (job_id j))) ∨
  (key_free key q ∧
     enqueue fresh target action version policy at_ q =
       (<[id_fmt fresh := mkJob fresh target action key Queued 0 policy at_ None at_ at_]> q,
        Enqueued fresh)).
Proof.
  intros key. unfold enqueue. fold key. case_match eqn:E.
  - left. apply find_Some_elem in E as [(k & Hk)%elem_of_btree_values Hp].
    apply andb_true_iff in Hp as [Hkey%bool_decide_eq_true Hfl]. eauto 10.
  - right. split; [|done]. intros k j Hj Hfl Hkey.
    rewrite find_None_elem in E.
    specialize (E j (proj2 (elem_of_btree_values _ _) (ex_intro _ k Hj))).
    rewrite Hfl, andb_true_r in E. by apply bool_decide_eq_false in E.
Qed.

Lemma due_le_total a b : due_le a b = false → due_le b a = true.
Proof. unfold due_le. lia. Qed.
Lemma due_le_trans a b c : due_le a b = true → due_le b c = true → due_le a c = true.
Proof. unfold due_le. lia. Qed.

Lemma elem_of_claimable now q j :
  j ∈ List.filter (claimable now) (btree_values q) ↔
  ∃ k, q !! k = Some j ∧ job_status j = Queued ∧ job_next_attempt_at j ≤ now.
Proof.
  rewrite list_elem_of_In, List.filter_In, <- list_elem_of_In, elem_of_btree_values.
  unfold claimable. rewrite andb_true_iff, bool_decide_eq_true, Z.leb_le. naive_solver.
Qed.

Lemma claim_next_cases now q :
  queue_wf q →
  (claim_next now q = Done (q, None) ∧
   ∀ k j, q !! k = Some j → job_status j = Queued → now < job_next_attempt_at j) ∨
  (∃ j, q !! id_fmt (job_id j) = Some j ∧ job_status j = Queued ∧
     job_next_attempt_at j ≤ now ∧
     claim_next now q =
       Done (<[id_fmt (job_id j) := job_update j Running (job_attempts j + 1)
                (job_next_attempt_at j) (job_last_error j) now]> q, Some (job_id j)) ∧
     ∀ k j', q !! k = Some j' → job_status j' = Queued → job_next_attempt_at j' ≤ now →
       due_le j j' = true).
Proof.
  intros [Hkeyed Hatt]. unfold claim_next.
  destruct (min_by due_le _) as [j|] eqn:E; simpl.
  - right. exists j. destruct (min_by_Some _ due_le_total due_le_trans _ _ E) as [Hin Hmin].
    apply elem_of_claimable in Hin as (k & Hk & Hst & Hdue).
    pose proof (Hkeyed _ _ Hk) as ->. unfold_monad. rewrite Hk.
    destruct (Hatt _ _ Hk) as [[Hp1 Hp2] Ha]. rewrite Hst in Ha. unfold budget in Ha.
    rewrite add_unsigned_done by (unfold u32_max in *; lia).
    repeat split; try done. intros k j' Hj' Hs Hd. apply Hmin, elem_of_claimable. eauto.
  - left. split; [done|]. apply min_by_None in E. intros k j Hk Hst.
    destruct (decide (job_next_attempt_at j ≤ now)) as [Hd|]; [|lia].
    exfalso. assert (j ∈ List.filter (claimable now) (btree_values q)) as Hin
      by (apply elem_of_claimable; eauto).
    rewrite E in Hin. by apply not_elem_of_nil in Hin.
Qed.

Local Ltac no_effect :=
  match goal with |- queue_effect _ ?q ?q => apply effect_none | _ => idtac end.
(** Evaluates a method that replaces one job and closes its change. *)
Local Ltac change_one_job Hrun :=
  unfold state_of, complete, fail, pause, resume, requeue, running_job, lookup_job, store
    in Hrun; run_op Hrun; no_effect;
  (eapply effect_change; [done|split; [done|]|]);
  repeat match goal with E : job_status _ = _ |- _ => rewrite E end;
  first [done | simpl; split; [done|lia]].

(** Every operation has one of the three effects. *)
Lemma op_effect op q q' :
  queue_wf q → op_ok op q → run_queue_op op q = Done q' → queue_effect op q q'.
Proof.
  intros Hwf Hok Hrun. destruct op; simpl in Hok, Hrun.
  - destruct Hok as [Hfresh Hpol]. injection Hrun as <-.
    destruct (enqueue_cases fresh target action version policy at_ q)
      as [(k & j & _ & _ & _ & ->)|[Hfree ->]]; [apply effect_none|].
    simpl. set (job := mkJob _ _ _ _ _ _ _ _ _ _ _).
    change (id_fmt fresh) with (id_fmt (job_id job)). by apply effect_new.
  - destruct (claim_next_cases now q Hwf) as [[E _]|(j & Hj & Hst & _ & E & _)];
      rewrite E in Hrun; unfold state_of in Hrun; run_op Hrun; [apply effect_none|].
    eapply effect_change; [done| |by rewrite Hst]. split; [done|]. by rewrite Hst.
  - change_one_job Hrun.
  - change_one_job Hrun.
  - change_one_job Hrun.
  - change_one_job Hrun.
  - change_one_job Hrun.
Qed.

Lemma job_change_id j j' : job_change j j' → job_id j' = job_id j ∧ job_key j' = job_key j.
Proof. intros [(? & _ & _ & ? & _) _]. done. Qed.

Lemma job_change_attempts j j' : job_change j j' → attempts_ok j → attempts_ok j'.
Proof.
  intros [(_ & _ & _ & _ & Hp & _) Hc] [Hpol Ha]. unfold attempts_ok, budget in *.
  rewrite Hp. split; [done|]. destruct (job_status j), (job_status j'); try done; lia.
Qed.

Lemma effect_wf op q q' : queue_wf q → queue_effect op q q' → queue_wf q'.
Proof.
  intros [Hk Ha]. destruct 1 as [|n Hnew Hst H0' Hpol _|k j j' Hj Hc _]; [done|..].
  - split; intros k i [[<- <-]|[? ?]]%lookup_insert_Some; eauto.
    split; [done|]. rewrite Hst, H0'. unfold budget. lia.
  - destruct (job_change_id _ _ Hc) as [Hid _].
    split; intros k' i [[<- <-]|[? ?]]%lookup_insert_Some; eauto using job_change_attempts.
    rewrite Hid. by apply Hk.
Qed.

(** A step that respects the in-flight keys: a dead job is requeued only while
    no in-flight job carries its key. *)
Definition careful_step q q' : Prop :=
  ∃ op, op_ok op q ∧ run_queue_op op q = Done q' ∧
    ∀ k j, revived op = Some k → q !! k = Some j → key_free (job_key j) q.

(** A new job only appears when no in-flight job has its key, so uniqueness
    can only be lost by a job that comes back from a terminal status. *)
Lemma effect_unique op q q' :
  keys_unique q → queue_effect op q q' →
  (∀ k j, revived op = Some k → q !! k = Some j → key_free (job_key j) q) →
  keys_unique q'.
Proof.
  intros Hu He Hback.
  destruct He as [|n Hnew Hst Hatt0 Hpol Hfree|k j j' Hj Hc Hrev]; [done|..].
  - intros k1 k2 j1 j2 [[<- <-]|[Hn1 H1']]%lookup_insert_Some
      [[<- <-]|[Hn2 H2']]%lookup_insert_Some F1 F2 E; eauto.
    + by destruct (Hfree _ _ H2' F2).
    + by destruct (Hfree _ _ H1' F1).
  - destruct (job_change_id _ _ Hc) as [_ Hkey].
    assert (∀ k2 j2, k ≠ k2 → q !! k2 = Some j2 →
              is_in_flight (job_status j2) = true → job_key j' = job_key j2 → False) as Hno.
    { intros k2 j2 Hne H2' F2 E. destruct (is_in_flight (job_status j)) eqn:Fj.
      - apply Hne. eapply Hu; eauto. congruence.
      - apply (Hback k j (Hrev eq_refl) Hj k2 j2 H2' F2). congruence. }
    intros k1 k2 j1 j2 [[<- <-]|[Hn1 H1']]%lookup_insert_Some
      [[<- <-]|[Hn2 H2']]%lookup_insert_Some F1 F2 E; eauto.
    + by destruct (Hno k2 j2).
    + by destruct (Hno k1 j1).
Qed.

Lemma queue_step_wf q q' : queue_wf q → queue_step q q' → queue_wf q'.
Proof. intros Hwf (op & Hok & Hrun). eapply effect_wf, op_effect; eauto. Qed.
Lemma careful_is_step q q' : careful_step q q' → queue_step q q'.
Proof. intros (op & ? & ? & _). by exists op. Qed.

Lemma empty_wf : queue_wf JobQueue_new.
Proof.
  unfold JobQueue_new. split; intros k j Hk; by rewrite lookup_empty in Hk.
Qed.

Lemma queue_reachable_wf q : queue_reachable q → queue_wf q.
Proof.
  unfold queue_reachable. generalize empty_wf.
  intros Hwf Hr. induction Hr; eauto using queue_step_wf.
Qed.

(** C6: as long as a dead job is requeued only while no in-flight job
    carries its key, no two in-flight jobs of the queue ever share an
    idempotency key. *)
Theorem in_flight_keys_unique q :
  rtc careful_step JobQueue_new q → keys_unique q.
Proof.
  intros Hr. assert (keys_unique JobQueue_new) as Hu.
  { unfold JobQueue_new. intros k1 k2 j1 j2 Hk. by rewrite lookup_empty in Hk. }
  revert Hu. generalize empty_wf.
  induction Hr as [|x y z Hstep _ IH]; intros Hwf Hu; [done|].
  apply IH; [eauto using queue_step_wf, careful_is_step|].
  destruct Hstep as (op & Hok & Hrun & Hback).
  eapply effect_unique; [done| |done]. by apply op_effect.
Qed.

(** In every reachable queue a job's attempt counter stays within
    the budget of its policy (a waiting job has an attempt left), entries are
    stored under their own identifier, and claiming never panics. *)
Theorem attempts_within_budget q now :
  queue_reachable q →
  (∀ k j, q !! k = Some j → k = id_fmt (job_id j) ∧ attempts_ok j) ∧
  ∃ q' o, claim_next now q = Done (q', o).
Proof.
  intros Hwf%queue_reachable_wf. split.
  - intros k j Hj. split; [by eapply wf_keyed|by eapply wf_attempts].
  - destruct (claim_next_cases now q Hwf) as [[-> _]|(j & _ & _ & _ & -> & _)]; eauto.
Qed.

(** A claim takes a queued job that is due, and among those one whose
    (due time, enqueue time) is least; it returns nothing exactly when no
    queued job is due.  Only the claimed job changes: it runs, with one more
    attempt. *)
Theorem claim_next_spec q now q' o :
  queue_reachable q → claim_next now q = Done (q', o) →
  match o with
  | None => q' = q ∧ ∀ k j, q !! k = Some j → job_status j = Queued → now < job_next_attempt_at j
  | Some id => ∃ j, q !! id_fmt id = Some j ∧ job_id j = id ∧ job_status j = Queued ∧
      job_next_attempt_at j ≤ now ∧
      (∀ k j', q !! k = Some j' → job_status j' = Queued → job_next_attempt_at j' ≤ now →
         due_le j j' = true) ∧
      q' = <[id_fmt id := job_update j Running (job_attempts j + 1) (job_next_attempt_at j)
                            (job_last_error j) now]> q
  end.
Proof.
  intros Hwf%queue_reachable_wf.
  destruct (claim_next_cases now q Hwf) as [[-> Hnone]|(j & Hj & Hst & Hd & -> & Hmin)];
    intros [= <- <-]; [done|]. eauto 10.
Qed.

(** Every call on a reachable queue does nothing, adds one fresh
    queued job whose key no in-flight job carries, or moves exactly one job
    along an edge of the job machine without touching its identity: the map
    implements the abstract machine of independent jobs. *)
Theorem queue_refines_job_machine op q q' :
  queue_reachable q → op_ok op q → run_queue_op op q = Done q' → queue_effect op q q'.
Proof. intros Hwf%queue_reachable_wf. by apply op_effect. Qed.
End Facts.

(* ------------------------------------------------------------------ *)
(** * Idempotency keys *)

Lemma action_no_colon a : ":"%char ∉ chars (JobAction_as_str a).
Proof. destruct a; apply (bool_decide_unpack _); vm_compute; exact I. Qed.
Lemma action_inj a b : JobAction_as_str a = JobAction_as_str b → a = b.
Proof. by destruct a, b. Qed.

(** The text of an idempotency key determines its target, action and
    version, also for targets that contain the separator. *)
Theorem idempotency_key_injective t a v t' a' v' :
  0 ≤ v → 0 ≤ v' →
  IdempotencyKey_new t a v = IdempotencyKey_new t' a' v' → t = t' ∧ a = a' ∧ v = v'.
Proof.
  intros Hv Hv' E. unfold IdempotencyKey_new in E.
  assert (∀ t a (v : Z), t +:+ ":" +:+ JobAction_as_str a +:+ ":v" +:+ pretty v =
            (t +:+ ":" +:+ JobAction_as_str a) +:+ String ":" (String "v" (pretty v))) as Hsplit.
  { intros. by rewrite !str_app_assoc. }
  assert (∀ v : Z, 0 ≤ v → ":"%char ∉ chars (String "v" (pretty v))) as Hno.
  { intros w Hw. unfold chars. simpl. rewrite not_elem_of_cons. split; [done|].
    apply pretty_Z_chars; [done|apply digit_not_colon]. }
  rewrite !Hsplit in E. apply str_split_last_sep in E as [E1 E2]; [|by apply Hno..].
  apply str_split_last_sep in E1 as [-> ?%action_inj]; [|apply action_no_colon..].
  injection E2 as ?%(inj pretty). done.
Qed.
Lemma idempotency_key_injective_witness :
  IdempotencyKey_new "a:b" JUpdate 12 = "a:b:update:v12" ∧
  (IdempotencyKey_new "a:b" JUpdate 12 = IdempotencyKey_new "a:b" JUpdate 12 →
   "a:b" = "a:b" ∧ JUpdate = JUpdate ∧ 12 = 12).
Proof.
  split; [reflexivity|]. apply (idempotency_key_injective "a:b" JUpdate 12 "a:b" JUpdate 12); lia.
Defined.

(* ------------------------------------------------------------------ *)
(** * What the queue promises its clients *)

Section Contract.
Context `{UuidLib} `{Chrono} `{BuildProfile}.
Implicit Types (q : JobQueue) (j : Job) (id : JobId).

(** An in-flight job with the key is in the queue. *)
Definition in_flight_with (key : IdempotencyKey) (q : JobQueue) : Prop :=
  ∃ k j, q !! k = Some j ∧ job_key j = key ∧ is_in_flight (job_status j) = true.

Lemma key_free_not_in_flight key q : key_free key q → ¬ in_flight_with key q.
Proof. intros Hf (k & j & Hj & Hk & Hfl). by apply (Hf k j). Qed.

Lemma enqueue_ensures fresh target action version policy at_ q :
  in_flight_with (IdempotencyKey_new target action version)
    (enqueue fresh target action version policy at_ q).1.
Proof.
  destruct (enqueue_cases fresh target action version policy at_ q)
    as [(k & j & Hj & Hk & Hfl & ->)|[_ ->]]; simpl.
  - by exists k, j.
  - eexists _, _. split; [apply lookup_insert_eq|]. done.
Qed.

Lemma enqueue_suppressed fresh target action version policy at_ q :
  in_flight_with (IdempotencyKey_new target action version) q →
  (enqueue fresh target action version policy at_ q).1 = q.
Proof.
  intros Hin. destruct (enqueue_cases fresh target action version policy at_ q)
    as [(k & j & _ & _ & _ & ->)|[Hf _]]; [done|].
  by destruct (key_free_not_in_flight _ _ Hf).
Qed.

(** Enqueueing the same convergence step again while it is in
    flight changes nothing and answers with the identifier of a job already
    in flight under that key; after any enqueue such a job exists. *)
Theorem enqueue_idempotent fresh fresh' target action version policy policy' at_ at_' q :
  let q1 := (enqueue fresh target action version policy at_ q).1 in
  let key := IdempotencyKey_new target action version in
  in_flight_with key q1 ∧
  ∃ k j, q1 !! k = Some j ∧ job_key j = key ∧ is_in_flight (job_status j) = true ∧
    enqueue fresh' target action version policy' at_' q1 = (q1, Duplicate (job_id j)).
Proof.
  intros q1 key. pose proof (enqueue_ensures fresh target action version policy at_ q) as Hin.
  split; [exact Hin|].
  destruct (enqueue_cases fresh' target action version policy' at_' q1)
    as [(k & j & Hj & Hk & Hfl & E)|[Hf _]]; [by exists k, j|].
  by destruct (key_free_not_in_flight _ _ Hf).
Qed.

(** ** Error paths *)

(** The status a call on one job requires. *)
Definition required_status (op : QueueOp) : option (JobId * JobStatus) :=
  match op with
  | QComplete id _ | QFail id _ _ => Some (id, Running)
  | QPause id _ => Some (id, Queued)
  | QResume id _ => Some (id, Paused)
  | QRequeue id _ => Some (id, Dead)
  | _ => None
  end.
(** The outcome of a call on one job, as [Ok]/[Err]. *)
Definition call_result (op : QueueOp) (q : JobQueue) : outcome (JobQueue * result CoreError unit) :=
  match op with
  | QComplete id now => complete id now q
  | QFail id error now => (fail id error now;; mret tt) q
  | QPause id now => pause id now q
  | QResume id now => resume id now q
  | QRequeue id now => requeue id now q
  | _ => Done (q, Ok tt)
  end.

(** A call on a job fails exactly as documented: with [NotFound] for an
    unknown job, with a reconciliation error for a job in the wrong status,
    and the queue is then unchanged. *)
Theorem wrong_status_is_refused op id st q :
  required_status op = Some (id, st) →
  (q !! id_fmt id = None → call_result op q = Done (q, Err (NotFound ("job " +:+ id_fmt id)))) ∧
  (∀ j, q !! id_fmt id = Some j → job_status j ≠ st →
     ∃ m, call_result op q = Done (q, Err (ReconciliationError m))).
Proof.
  intros Hreq. destruct op; simplify_eq/=;
    unfold complete, fail, pause, resume, requeue, running_job, lookup_job; unfold_monad;
    (split; [by intros ->|]); intros j -> Hst; simpl; rewrite decide_False by done; eauto.
Qed.

(** ** Retries end *)

(** [fail_cycles id n q q']: the job [id] is claimed and fails [n] times on the
    way from [q] to [q'], while other calls leave its entry alone. *)
Inductive fail_cycles (id : JobId) : nat → JobQueue → JobQueue → Prop :=
| fc_done q : fail_cycles id 0 q q
| fc_other n q q1 q2 :
    queue_step q q1 → q1 !! id_fmt id = q !! id_fmt id →
    fail_cycles id n q1 q2 → fail_cycles id n q q2
| fc_fail n q q1 q2 q3 now error now' st :
    claim_next now q = Done (q1, Some id) →
    fail id error now' q1 = Done (q2, Ok st) →
    fail_cycles id n q2 q3 → fail_cycles id (S n) q q3.

Lemma state_of_step {A} op q q' (o : outcome (JobQueue * A)) (a : A) :
  op_ok op q → run_queue_op op q = state_of o → o = Done (q', a) → queue_step q q'.
Proof. intros Hok Hrun ->. exists op. by rewrite Hrun. Qed.

Lemma claim_then_fail id q q1 q2 now error now' st :
  queue_wf q → claim_next now q = Done (q1, Some id) →
  fail id error now' q1 = Done (q2, Ok st) →
  queue_wf q2 ∧ ∃ j j2, q !! id_fmt id = Some j ∧ job_status j = Queued ∧
    q2 !! id_fmt id = Some j2 ∧ job_status j2 = st ∧ job_policy j2 = job_policy j ∧
    job_attempts j2 = job_attempts j + 1 ∧
    st = if decide (budget (job_policy j) ≤ job_attempts j + 1) then Dead else Queued.
Proof.
  intros Hwf Hclaim Hfail. split.
  { eapply queue_step_wf; [eapply queue_step_wf; [exact Hwf|]|].
    - eapply (state_of_step (QClaim now)); [done| |exact Hclaim]. done.
    - eapply (state_of_step (QFail id error now')); [done| |exact Hfail]. done. }
  destruct (claim_next_cases now q Hwf) as [[E _]|(j & Hj & Hst & _ & E & _)];
    rewrite E in Hclaim; simplify_eq.
  destruct (wf_attempts _ Hwf _ _ Hj) as [Hp Ha]. rewrite Hst in Ha.
  exists j. unfold fail, running_job, lookup_job, store in Hfail. unfold_monad_in Hfail.
  rewrite lookup_insert_eq in Hfail. run_op Hfail; eexists;
    (split; [done|]); (split; [done|]); (split; [apply lookup_insert_eq|]); simpl;
    (split; [done|]); (split; [done|]); (split; [done|]);
    unfold budget in *; case_decide; naive_solver lia.
Qed.

(** A dead job starts no further cycle. *)
Lemma dead_job_rests id n q q' j :
  fail_cycles id n q q' → queue_wf q → q !! id_fmt id = Some j → job_status j = Dead →
  n = 0%nat ∧ q' !! id_fmt id = q !! id_fmt id.
Proof.
  intros Hc. induction Hc as [|n q q1 q2 Hstep Hsame _ IH|n q q1 q2 q3 now error now' st Hcl Hf];
    intros Hwf Hj Hst; [done|..].
  - destruct IH as [-> ->]; [by eapply queue_step_wf|congruence|done|done].
  - destruct (claim_then_fail _ _ _ _ _ _ _ _ Hwf Hcl Hf) as (_ & ? & ? & ? & ? & _). congruence.
Qed.

(** C34: a job that fails at every attempt is retried at most up to its
    budget and then dead: after [n] failed cycles its counter has grown by
    [n], it never exceeds the budget, and it is dead exactly when the budget
    is used up. *)
Theorem failing_job_dies_at_budget id n q q' j :
  queue_reachable q → q !! id_fmt id = Some j → job_status j = Queued →
  fail_cycles id n q q' →
  ∃ j', q' !! id_fmt id = Some j' ∧ job_attempts j' = job_attempts j + Z.of_nat n ∧
    job_attempts j' ≤ budget (job_policy j) ∧
    job_status j' = if decide (job_attempts j' = budget (job_policy j)) then Dead else Queued.
Proof.
  intros Hwf%queue_reachable_wf Hj Hst Hc. revert j Hwf Hj Hst.
  induction Hc as [q|n q q1 q2 Hstep Hsame _ IH|n q q1 q2 q3 now error now' st Hcl Hf Hrest IH];
    intros j Hwf Hj Hst.
  - destruct (wf_attempts _ Hwf _ _ Hj) as [_ Ha]. rewrite Hst in Ha.
    exists j. rewrite decide_False by lia. repeat split; [done|lia|lia|done].
  - apply IH; [by eapply queue_step_wf|congruence|done].
  - destruct (claim_then_fail _ _ _ _ _ _ _ _ Hwf Hcl Hf)
      as (Hwf2 & j0 & j2 & Hj0 & _ & Hj2 & Hst2 & Hpol & Hatt & ->). simplify_eq.
    case_decide as Hd.
    + (* dead: no further cycle can start *)
      destruct (wf_attempts _ Hwf2 _ _ Hj2) as [_ Ha2]. rewrite Hst2, Hpol in Ha2.
      destruct (dead_job_rests _ _ _ _ _ Hrest Hwf2 Hj2 Hst2) as [-> Hq3].
      exists j2. rewrite Hq3. split; [done|]. rewrite Hst2.
      rewrite decide_True by lia. repeat split; lia || done.
    + destruct (IH j2 Hwf2 Hj2 Hst2) as (j' & ? & ? & ? & Hs'). rewrite Hpol in *.
      exists j'. repeat split; [done|lia|done|done].
Qed.

(** Requeueing a dead job does not look at the idempotency keys: if
    another job with the same key is in flight, the call succeeds and the
    queue then holds two in-flight jobs with one key. *)
Theorem requeue_can_duplicate_key id now q j k2 j2 :
  q !! id_fmt id = Some j → job_status j = Dead →
  q !! k2 = Some j2 → is_in_flight (job_status j2) = true → job_key j2 = job_key j →
  ∃ q', requeue id now q = Done (q', Ok tt) ∧ ¬ keys_unique q'.
Proof.
  intros Hj Hdead Hj2 Hfl Hkey. unfold requeue, lookup_job. unfold_monad.
  rewrite Hj. simpl. rewrite decide_True by done. unfold store, modify.
  eexists. split; [done|]. intros Hu.
  assert (id_fmt id ≠ k2) as Hne by (intros <-; by simplify_eq; rewrite Hdead in Hfl).
  apply Hne. eapply Hu; [apply lookup_insert_eq|by rewrite lookup_insert_ne|done|done|done].
Qed.
End Contract.

(* ------------------------------------------------------------------ *)
(** * Runs on concrete queues *)

Section Runs.
Context `{UuidLib} `{Chrono} `{BuildProfile}.

Definition op_okb (op : QueueOp) (q : JobQueue) : bool :=
  match op with
  | QEnqueue fresh _ _ _ policy _ =>
      bool_decide (q !! id_fmt fresh = None) &&
      bool_decide (0 ≤ max_attempts policy ≤ u32_max)
  | _ => true
  end.
Fixpoint run_ops (ops : list QueueOp) (q : JobQueue) : option JobQueue :=
  match ops with
  | [] => Some q
  | op :: ops =>
      if op_okb op q
      then match run_queue_op op q with Done q' => run_ops ops q' | Panic _ => None end
      else None
  end.
Lemma op_okb_ok op q : op_okb op q = true → op_ok op q.
Proof.
  destruct op; simpl; try done. rewrite andb_true_iff, !bool_decide_eq_true. done.
Qed.
Lemma run_ops_steps ops q q' : run_ops ops q = Some q' → rtc queue_step q q'.
Proof.
  revert q. induction ops as [|op ops IH]; intros q; simpl; [by intros [= ->]|].
  destruct (op_okb op q) eqn:Hok; [|done]. destruct (run_queue_op op q) eqn:Hrun; [|done].
  intros Hrest. eapply rtc_l; [|by apply IH]. exists op. split; [by apply op_okb_ok|done].
Qed.
Lemma run_ops_careful ops q q' :
  forallb (λ op, bool_decide (revived op = None)) ops = true →
  run_ops ops q = Some q' → rtc careful_step q q'.
Proof.
  revert q. induction ops as [|op ops IH]; intros q; simpl; [by intros _ [= ->]|].
  intros [Hr%bool_decide_eq_true Hall]%andb_true_iff.
  destruct (op_okb op q) eqn:Hok; [|done]. destruct (run_queue_op op q) eqn:Hrun; [|done].
  intros Hrest. eapply rtc_l; [|by apply IH]. exists op.
  split; [by apply op_okb_ok|]. split; [done|]. intros k j Hk. congruence.
Qed.
End Runs.

Module QueueExamples.
Import RefInstances.
Definition j1 : JobId := mkId (uuid 1).
Definition j2 : JobId := mkId (uuid 2).
Definition once : RetryPolicy :=
  {| max_attempts := 1; base_delay := nanos_per_sec; factor := 2; max_delay := None |}.
(** One job queued, claimed and dead-lettered; then the same step again. *)
Definition redo_ops : list QueueOp :=
  [QEnqueue j1 "res_1" JProvision 1 once 0; QClaim 0; QFail j1 "boom" 0;
   QEnqueue j2 "res_1" JProvision 1 once 5].
Definition redo_queue : JobQueue := default ∅ (run_ops redo_ops ∅).
(** A second queue with a job waiting and one running. *)
Definition busy_ops : list QueueOp :=
  [QEnqueue j1 "res_1" JProvision 1 once 0; QEnqueue j2 "res_2" JProvision 1 once 3; QClaim 1].
Definition busy_queue : JobQueue := default ∅ (run_ops busy_ops ∅).
Definition one_queue : JobQueue :=
  default ∅ (run_ops [QEnqueue j1 "res_1" JProvision 1 once 0] ∅).
Definition some_job (id : JobId) : Job := mkJob id "" JVerify "" Dead 0 once 0 None 0 0.
Definition job_at (q : JobQueue) (id : JobId) : Job := default (some_job id) (q !! id_fmt id).
Definition after (op : QueueOp) (q : JobQueue) : JobQueue := done_or ∅ (run_queue_op op q).

Lemma redo_reachable : queue_reachable redo_queue.
Proof. apply (run_ops_steps redo_ops), is_some_eq. vm_compute. reflexivity. Qed.
Lemma busy_reachable : queue_reachable busy_queue.
Proof. apply (run_ops_steps busy_ops), is_some_eq. vm_compute. reflexivity. Qed.
Lemma one_reachable : queue_reachable one_queue.
Proof. apply (run_ops_steps [QEnqueue j1 "res_1" JProvision 1 once 0]), is_some_eq. vm_compute. reflexivity. Qed.

Lemma in_flight_keys_unique_witness :
  rtc careful_step JobQueue_new busy_queue ∧ keys_unique busy_queue.
Proof.
  assert (rtc careful_step JobQueue_new busy_queue) as Hr
    by (apply (run_ops_careful busy_ops); [|apply is_some_eq]; vm_compute; reflexivity).
  split; [exact Hr|]. exact (in_flight_keys_unique busy_queue Hr).
Defined.
Lemma attempts_within_budget_witness :
  queue_reachable busy_queue ∧ ∃ q' o, claim_next 9 busy_queue = Done (q', o).
Proof.
  split; [exact busy_reachable|].
  exact (proj2 (attempts_within_budget busy_queue 9 busy_reachable)).
Defined.
(** At time 9 the second job is claimed. *)
Lemma claim_next_spec_witness :
  ∃ q' j, claim_next 9 busy_queue = Done (q', Some j2) ∧
    busy_queue !! id_fmt j2 = Some j ∧ job_status j = Queued.
Proof.
  destruct (claim_next 9 busy_queue) as [[q' o]|] eqn:E.
  - pose proof (claim_next_spec busy_queue 9 q' o busy_reachable E) as Hs.
    assert (o = Some j2) as -> by
      (replace o with (done_or (∅, None) (claim_next 9 busy_queue)).2
         by (rewrite E; reflexivity); vm_compute; reflexivity).
    destruct Hs as (j & Hj & _ & Hst & _). exists q', j.
    split; [reflexivity|split; [exact Hj|exact Hst]].
  - exfalso. assert (is_done (claim_next 9 busy_queue) = true) as Hd by (vm_compute; reflexivity).
    rewrite E in Hd. discriminate Hd.
Defined.
Lemma queue_refines_job_machine_witness :
  run_queue_op (QComplete j1 4) busy_queue = Done (after (QComplete j1 4) busy_queue) ∧
  queue_effect (QComplete j1 4) busy_queue (after (QComplete j1 4) busy_queue).
Proof.
  assert (run_queue_op (QComplete j1 4) busy_queue = Done (after (QComplete j1 4) busy_queue)) as E
    by (apply is_done_eq; vm_compute; reflexivity).
  split; [exact E|]. exact (queue_refines_job_machine (QComplete j1 4) _ _ busy_reachable I E).
Defined.
Lemma wrong_status_is_refused_witness :
  job_status (job_at busy_queue j1) = Running ∧
  ∃ m, call_result (QPause j1 4) busy_queue = Done (busy_queue, Err (ReconciliationError m)).
Proof.
  split; [vm_compute; reflexivity|].
  apply (proj2 (wrong_status_is_refused (QPause j1 4) j1 Queued busy_queue eq_refl)
           (job_at busy_queue j1)); [apply is_some_eq|]; vm_compute; [reflexivity|discriminate].
Defined.
(** The job of [one_queue] is dead after its single attempt fails. *)
Lemma failing_job_dies_at_budget_witness :
  ∃ q' j', fail_cycles j1 1 one_queue q' ∧ q' !! id_fmt j1 = Some j' ∧ job_status j' = Dead.
Proof.
  assert (one_queue !! id_fmt j1 = Some (job_at one_queue j1)) as Hj
    by (apply is_some_eq; vm_compute; reflexivity).
  set (r1 := done_or (∅, None) (claim_next 0 one_queue)).
  set (r2 := done_or (∅, Ok Dead) (fail j1 "boom" 0 r1.1)).
  assert (fail_cycles j1 1 one_queue r2.1) as Hc.
  { apply (fc_fail _ 0 _ r1.1 r2.1 r2.1 0 "boom" 0 Dead); [| |constructor].
    - apply is_done_pair; vm_compute; reflexivity.
    - apply is_done_pair; vm_compute; reflexivity. }
  destruct (failing_job_dies_at_budget j1 1 one_queue r2.1 (job_at one_queue j1)
              one_reachable Hj ltac:(vm_compute; reflexivity) Hc) as (j' & Hj' & Ha & _ & Hst).
  exists r2.1, j'. split; [exact Hc|]. split; [exact Hj'|].
  rewrite Hst, Ha. vm_compute. reflexivity.
Defined.
(** A step is dead-lettered, enqueued again and then requeued: two in-flight
    jobs with one key. *)
Lemma requeue_can_duplicate_key_witness :
  queue_reachable redo_queue ∧
  ∃ q', requeue j1 9 redo_queue = Done (q', Ok tt) ∧ ¬ keys_unique q'.
Proof.
  split; [exact redo_reachable|].
  apply (requeue_can_duplicate_key j1 9 redo_queue (job_at redo_queue j1) (id_fmt j2)
           (job_at redo_queue j2)); try apply is_some_eq; vm_compute; reflexivity.
Defined.
End QueueExamples.
