(* ===== verification/State.v ===== *)
(** Desired and observed application state (state.rs). *)

From stdpp Require Import base option strings gmap.
From Stdlib Require Import ZArith Lia.
From S2P Require Import Prelude External.
Local Open Scope Z_scope.

Inductive ObservedStatus := OUnknown | OHealthy | ODegraded | OUnhealthy.
#[global] Instance ObservedStatus_eq_dec : EqDecision ObservedStatus.
Proof. solve_decision. Defined.
Definition ObservedStatus_debug (s : ObservedStatus) : string :=
  match s with
  | OUnknown => "Unknown" | OHealthy => "Healthy" | ODegraded => "Degraded"
  | OUnhealthy => "Unhealthy"
  end.

Record ObservedState := {
  os_desired_version : Z;
  os_status : ObservedStatus;
  os_last_observed_at : DateTime;
  os_detail : option string;
}.

Section State.
Context `{JsonLib} `{BuildProfile}.

Record DesiredState := {
  ds_version : Z;
  ds_profiles : gmap string Json;
  ds_config : Json;
}.

Definition DesiredState_initial : DesiredState :=
  {| ds_version := 1; ds_profiles := ∅; ds_config := json_null |}.

Definition with_config (self : DesiredState) (config : Json) : outcome DesiredState :=
  version ← add_unsigned u64_max (ds_version self) 1;
  Done {| ds_version := version; ds_profiles := ds_profiles self; ds_config := config |}.

(** [now] is the instant read by [Utc::now]. *)
Definition ObservedState_unknown (desired_version : Z) (now : DateTime) : ObservedState :=
  {| os_desired_version := desired_version; os_status := OUnknown;
     os_last_observed_at := now; os_detail := None |}.

Definition is_stale (self : ObservedState) (desired : DesiredState) : bool :=
  negb (os_desired_version self =? ds_version desired).

(** After an update every earlier observation is stale: the new version differs
    from the version the observation was taken against, and the other fields
    keep their value. *)
Lemma with_config_makes_stale d c d' o :
  0 ≤ ds_version d ≤ u64_max → with_config d c = Done d' →
  is_stale o d = false → is_stale o d' = true ∧ ds_config d' = c ∧ ds_profiles d' = ds_profiles d.
Proof.
  unfold with_config, is_stale, add_unsigned, u64_max. intros Hv E.
  rewrite !negb_true_iff, negb_false_iff, Z.eqb_eq, Z.eqb_neq. intros Ho.
  run_op E; (split; [|done]); rewrite Ho; [lia|].
  assert (ds_version d = 18446744073709551615) as -> by lia. done.
Qed.
End State.
