(* ===== verification/Controllers.v ===== *)
(** Health aggregation, reconciliation results and the five controllers
    (controller.rs, third part). *)

From stdpp Require Import base option list strings pretty gmap relations.
From Stdlib Require Import ZArith Lia.
From S2P Require Import Prelude External Errors Ids Trail Resource Jobs State.
Local Open Scope Z_scope.

(* ------------------------------------------------------------------ *)
(** * Health aggregation *)

Inductive CheckSource := CkPlatformProbe | CkAgentTool.
#[global] Instance CheckSource_eq_dec : EqDecision CheckSource.
Proof. solve_decision. Defined.

Record HealthCheck := {
  hc_name : string;
  hc_source : CheckSource;
  hc_state : HealthState;
  hc_detail : option string;
}.
Definition HealthCheck_probe (name : string) (state : HealthState) : HealthCheck :=
  {| hc_name := name; hc_source := CkPlatformProbe; hc_state := state; hc_detail := None |}.
Definition HealthCheck_agent_claim (name : string) (state : HealthState) : HealthCheck :=
  {| hc_name := name; hc_source := CkAgentTool; hc_state := state; hc_detail := None |}.

Record HealthReport := {
  hr_state : HealthState;
  hr_checks : list HealthCheck;
  hr_ignored_agent_claims : list string;
  hr_at : DateTime;
}.

Definition aggregate_health (states : list HealthState) : HealthState :=
  match states with
  | [] => HUnknown
  | _ =>
      let has needle := bool_decide (needle ∈ states) in
      if has HFailed then HFailed
      else if has HDegraded then HDegraded
      else if has HUnknown then HUnknown
      else if has HProvisioning then HProvisioning
      else if has HPaused then HPaused
      else HHealthy
  end.

(** The loop that sorts the checks into platform probes and ignored claims. *)
Definition split_step (acc : list HealthCheck * list string) (check : HealthCheck) :
    list HealthCheck * list string :=
  let '(platform, ignored) := acc in
  if decide (hc_source check = CkPlatformProbe)
  then (platform ++ [check], ignored)
  else (platform, ignored ++ [hc_name check]).
Definition split_checks (checks : list HealthCheck) : list HealthCheck * list string :=
  foldl split_step ([], []) checks.

Definition HealthReport_from_checks (checks : list HealthCheck) (at_ : DateTime) : HealthReport :=
  let '(platform, ignored) := split_checks checks in
  {| hr_state := aggregate_health (hc_state <$> platform); hr_checks := platform;
     hr_ignored_agent_claims := ignored; hr_at := at_ |}.

Definition HealthReport_is_healthy (self : HealthReport) : bool :=
  bool_decide (hr_state self = HHealthy).

(* ------------------------------------------------------------------ *)
(** * Reconciliation results *)

Inductive DriftKind := Missing | Stale | Unhealthy | Terminated.
#[global] Instance DriftKind_eq_dec : EqDecision DriftKind.
Proof. solve_decision. Defined.
Record Drift := { drift_kind : DriftKind; drift_detail : string }.

Record Reconciliation := mkReconciliation {
  rec_controller : string;
  rec_target : string;
  rec_desired_version : Z;
  rec_observed_version : Z;
  rec_in_sync : bool;
  rec_drift : list Drift;
  rec_actions : list IdempotencyKey;
  rec_at : DateTime;
}.
Definition is_mismatch (self : Reconciliation) : bool := negb (rec_in_sync self).
Definition Reconciliation_to_event_detail (self : Reconciliation) : string :=
  rec_controller self +:+ " '" +:+ rec_target self +:+ "' desired v"
  +:+ pretty (rec_desired_version self) +:+ " observed v" +:+ pretty (rec_observed_version self)
  +:+ " " +:+ (if rec_in_sync self then "in sync" else "MISMATCH")
  +:+ " (" +:+ pretty (length (rec_drift self)) +:+ " drift, "
  +:+ pretty (length (rec_actions self)) +:+ " actions)".

(** [drift.is_empty()]. *)
Definition no_drift (d : list Drift) : bool := match d with [] => true | _ => false end.

(** The trait: a name and one pass over the shared queue.  No controller draws
    more than one job identifier per pass; [fresh] is that identifier. *)
Class Controller (C : Type) := {
  controller_name : C → string;
  reconcile : C → JobId → DateTime → M JobQueue CoreError Reconciliation;
}.

(* ------------------------------------------------------------------ *)
(** * Controllers *)

Record ResourceController := mkResourceController {
  rc_resource : Resource;
  rc_desired_present : bool;
  rc_observed_present : option bool;
}.
Record CapabilityController := mkCapabilityController {
  cc_capability : string;
  cc_resource_id : ResourceId;
  cc_desired_ready : bool;
  cc_phase : ResourcePhase;
  cc_agent_claims_ignored : Z;
}.
Record PreviewController := mkPreviewController {
  pc_preview_id : PreviewId;
  pc_desired_live : bool;
  pc_observed_live : bool;
  pc_observed_healthy : bool;
}.
Record DeploymentController := mkDeploymentController {
  dc_key : string;
  dc_desired_artifact : string;
  dc_observed_artifact : option string;
  dc_observed_ready : bool;
}.

Section Controllers.
Context `{UuidLib} `{Chrono} `{BuildProfile} `{JsonLib} `{StrDebug}.

Record ApplicationController := mkApplicationController {
  ac_application_id : ApplicationId;
  ac_desired : DesiredState;
  ac_observed : ObservedState;
}.

Definition ApplicationController_observe (observed : ObservedState)
    (self : ApplicationController) : ApplicationController :=
  mkApplicationController (ac_application_id self) (ac_desired self) observed.

(** [queue.enqueue(target, action, version, RetryPolicy::default(), now)]. *)
Definition enqueue_default (fresh : JobId) (target : string) (action : JobAction) (version : Z)
    (now : DateTime) : M JobQueue CoreError unit :=
  policy ← lift_o RetryPolicy_default;
  modify (λ q, (enqueue fresh target action version policy now q).1).

Definition ApplicationController_reconcile (self : ApplicationController) (fresh : JobId) (now : DateTime) :
    M JobQueue CoreError Reconciliation :=
  let drift :=
    (if is_stale (ac_observed self) (ac_desired self) then
       [{| drift_kind := Stale;
           drift_detail := "observation at v" +:+ pretty (os_desired_version (ac_observed self))
                           +:+ " lags desired v" +:+ pretty (ds_version (ac_desired self)) |}]
     else [])
    ++
    (if decide (os_status (ac_observed self) = OHealthy) then []
     else [{| drift_kind := Unhealthy;
              drift_detail := "observed status "
                              +:+ ObservedStatus_debug (os_status (ac_observed self)) |}]) in
  let target := id_fmt (ac_application_id self) in
  actions ← (if no_drift drift then mret []
             else
               enqueue_default fresh target JUpdate (ds_version (ac_desired self)) now;;
               mret [IdempotencyKey_new target JUpdate (ds_version (ac_desired self))]);
  mret (mkReconciliation "application" target (ds_version (ac_desired self))
          (os_desired_version (ac_observed self)) (no_drift drift) drift actions now).
#[export] Instance ApplicationController_controller : Controller ApplicationController := {
  controller_name _ := "application";
  reconcile := ApplicationController_reconcile;
}.

Definition ResourceController_new (resource : Resource) : ResourceController :=
  mkResourceController resource true None.

Definition ResourceController_observe (present : bool) (phase : option ResourcePhase)
    (source : ObservationSource) (reason : option string) (at_ : DateTime) :
    M ResourceController CoreError unit :=
  modify (λ self, mkResourceController (rc_resource self) (rc_desired_present self) (Some present));;
  self ← get;
  match phase with
  | Some phase =>
      if decide (phase = res_phase (rc_resource self)) then mret tt
      else
        zoom rc_resource
          (λ r self, mkResourceController r (rc_desired_present self) (rc_observed_present self))
          (Resource_observe phase source reason at_);;
        mret tt
  | None => mret tt
  end.

Definition ResourceController_health (self : ResourceController) : HealthState :=
  if decide (rc_observed_present self = Some false) then HUnknown
  else phase_health (res_phase (rc_resource self)).

Definition ResourceController_reconcile (self : ResourceController) (fresh : JobId) (now : DateTime) :
    M JobQueue CoreError Reconciliation :=
  let resource := rc_resource self in
  let target := id_fmt (res_id resource) in
  let version := convergence_version resource in
  let missing := rc_desired_present self && negb (bool_decide (rc_observed_present self = Some true)) in
  '(drift1, actions1) ←
    (if missing then
       enqueue_default fresh target JProvision version now;;
       mret ([{| drift_kind := Missing;
                 drift_detail := "desired " +:+ res_kind resource +:+ " present at v"
                   +:+ pretty (res_desired_version resource) +:+ " but observed "
                   +:+ option_debug bool_debug (rc_observed_present self) |}],
             [IdempotencyKey_new target JProvision version])
     else mret ([], []));
  let drift2 :=
    match res_failure resource with
    | Some failure =>
        [{| drift_kind := Terminated;
            drift_detail := "attempt " +:+ pretty (fr_attempts failure) +:+ "/"
              +:+ pretty (max_attempts (fr_policy failure)) +:+ " failed: "
              +:+ fr_reason failure |}]
    | None => []
    end in
  let drift3 :=
    if rc_desired_present self && bool_decide (rc_observed_present self = Some true)
       && negb (bool_decide (res_phase resource = Ready)) && negb missing
    then [{| drift_kind := Unhealthy;
             drift_detail := "resource phase " +:+ ResourcePhase_debug (res_phase resource) |}]
    else [] in
  '(drift4, actions4) ←
    (if negb (rc_desired_present self) && negb (bool_decide (res_phase resource = Deleted)) then
       enqueue_default fresh target JDelete version now;;
       mret ([{| drift_kind := Stale;
                 drift_detail := "resource should be deleted but is "
                   +:+ ResourcePhase_debug (res_phase resource) |}],
             [IdempotencyKey_new target JDelete version])
     else mret ([], []));
  let drift := drift1 ++ drift2 ++ drift3 ++ drift4 in
  mret (mkReconciliation "resource" target (res_desired_version resource)
          (match rc_observed_present self with
           | Some _ => res_desired_version resource | None => 0 end)
          (no_drift drift) drift (actions1 ++ actions4) now).
#[export] Instance ResourceController_controller : Controller ResourceController := {
  controller_name _ := "resource";
  reconcile := ResourceController_reconcile;
}.

Definition CapabilityController_new (capability : string) (resource_id : ResourceId) :
    CapabilityController :=
  mkCapabilityController capability resource_id true Provisioning 0.
Definition CapabilityController_observe_readiness (phase : ResourcePhase)
    (self : CapabilityController) : CapabilityController :=
  mkCapabilityController (cc_capability self) (cc_resource_id self) (cc_desired_ready self) phase
    (cc_agent_claims_ignored self).
Definition accept_agent_completion (self : CapabilityController) : outcome CapabilityController :=
  claims ← add_unsigned u32_max (cc_agent_claims_ignored self) 1;
  Done (mkCapabilityController (cc_capability self) (cc_resource_id self) (cc_desired_ready self)
          (cc_phase self) claims).
Definition CapabilityController_health (self : CapabilityController) : HealthState :=
  phase_health (cc_phase self).

(** [self.phase as u64]: the declaration order of the phases. *)
Definition phase_discriminant (p : ResourcePhase) : Z :=
  match p with
  | Requested => 0 | Provisioning => 1 | Ready => 2 | Degraded => 3 | Failed => 4
  | Deleting => 5 | Deleted => 6
  end.

Definition CapabilityController_reconcile (self : CapabilityController) (fresh : JobId) (now : DateTime) :
    M JobQueue CoreError Reconciliation :=
  let target := id_fmt (cc_resource_id self) in
  '(drift, actions) ←
    (if cc_desired_ready self && negb (bool_decide (cc_phase self = Ready)) then
       enqueue_default fresh target JProvision 1 now;;
       mret ([{| drift_kind := Unhealthy;
                 drift_detail := "capability '" +:+ cc_capability self +:+ "' phase "
                   +:+ ResourcePhase_debug (cc_phase self) |}],
             [IdempotencyKey_new target JProvision 1])
     else mret ([], []));
  mret (mkReconciliation "capability" target (Z.b2z (cc_desired_ready self))
          (phase_discriminant (cc_phase self)) (no_drift drift) drift actions now).
#[export] Instance CapabilityController_controller : Controller CapabilityController := {
  controller_name _ := "capability";
  reconcile := CapabilityController_reconcile;
}.

Definition PreviewController_new (preview_id : PreviewId) : PreviewController :=
  mkPreviewController preview_id true false false.
Definition PreviewController_observe (live healthy : bool) (self : PreviewController) :
    PreviewController :=
  mkPreviewController (pc_preview_id self) (pc_desired_live self) live healthy.
Definition PreviewController_health (self : PreviewController) : HealthState :=
  if negb (pc_desired_live self) then HPaused
  else match pc_observed_live self, pc_observed_healthy self with
       | false, _ => HProvisioning
       | true, true => HHealthy
       | true, false => HDegraded
       end.

Definition PreviewController_reconcile (self : PreviewController) (fresh : JobId) (now : DateTime) :
    M JobQueue CoreError Reconciliation :=
  let target := id_fmt (pc_preview_id self) in
  '(drift1, actions1) ←
    (if pc_desired_live self && negb (pc_observed_live self) then
       enqueue_default fresh target JProvision 1 now;;
       mret ([{| drift_kind := Missing;
                 drift_detail := "preview desired live but not running" |}],
             [IdempotencyKey_new target JProvision 1])
     else mret ([], []));
  '(drift2, actions2) ←
    (if pc_desired_live self && pc_observed_live self && negb (pc_observed_healthy self) then
       enqueue_default fresh target JVerify 1 now;;
       mret ([{| drift_kind := Unhealthy; drift_detail := "preview failing health checks" |}],
             [IdempotencyKey_new target JVerify 1])
     else mret ([], []));
  let drift := drift1 ++ drift2 in
  mret (mkReconciliation "preview" target (Z.b2z (pc_desired_live self))
          (Z.b2z (pc_observed_live self)) (no_drift drift) drift (actions1 ++ actions2) now).
#[export] Instance PreviewController_controller : Controller PreviewController := {
  controller_name _ := "preview";
  reconcile := PreviewController_reconcile;
}.

Definition DeploymentController_new (key desired_artifact : string) : DeploymentController :=
  mkDeploymentController key desired_artifact None false.
Definition DeploymentController_observe (artifact : string) (ready : bool)
    (self : DeploymentController) : DeploymentController :=
  mkDeploymentController (dc_key self) (dc_desired_artifact self) (Some artifact) ready.
Definition DeploymentController_health (self : DeploymentController) : HealthState :=
  match dc_observed_artifact self, dc_observed_ready self with
  | Some artifact, true =>
      if decide (artifact = dc_desired_artifact self) then HHealthy else HDegraded
  | Some _, false => HProvisioning
  | None, _ => HUnknown
  end.

Definition DeploymentController_reconcile (self : DeploymentController) (fresh : JobId) (now : DateTime) :
    M JobQueue CoreError Reconciliation :=
  '(drift, actions) ←
    (if decide (dc_observed_artifact self = Some (dc_desired_artifact self)) then mret ([], [])
     else
       enqueue_default fresh (dc_key self) JRollout 1 now;;
       mret ([{| drift_kind := Stale;
                 drift_detail := "observed " +:+ option_debug str_debug (dc_observed_artifact self)
                   +:+ " != desired '" +:+ dc_desired_artifact self +:+ "'" |}],
             [IdempotencyKey_new (dc_key self) JRollout 1]));
  mret (mkReconciliation "deployment" (dc_key self) 1
          (match dc_observed_artifact self with Some _ => 1 | None => 0 end)
          (no_drift drift) drift actions now).
#[export] Instance DeploymentController_controller : Controller DeploymentController := {
  controller_name _ := "deployment";
  reconcile := DeploymentController_reconcile;
}.
End Controllers.

(* ------------------------------------------------------------------ *)
(** * Health facts *)

(** The documented precedence as a rank. *)
Definition severity (s : HealthState) : Z :=
  match s with
  | HHealthy => 0 | HPaused => 1 | HProvisioning => 2 | HUnknown => 3 | HDegraded => 4
  | HFailed => 5
  end.

(** The aggregate of a non-empty list of checks is one of them, and none
    of them is more severe in the order
    Failed > Degraded > Unknown > Provisioning > Paused > Healthy. *)
Theorem aggregate_health_is_worst states :
  states ≠ [] →
  aggregate_health states ∈ states ∧
  ∀ s, s ∈ states → severity s ≤ severity (aggregate_health states).
Proof.
  intros Hne. destruct states as [|s0 l] eqn:El; [done|]. rewrite <- El in *. clear Hne.
  assert (s0 ∈ states) as H0 by set_solver.
  assert (aggregate_health states =
    if bool_decide (HFailed ∈ states) then HFailed
    else if bool_decide (HDegraded ∈ states) then HDegraded
    else if bool_decide (HUnknown ∈ states) then HUnknown
    else if bool_decide (HProvisioning ∈ states) then HProvisioning
    else if bool_decide (HPaused ∈ states) then HPaused else HHealthy) as ->
    by (by rewrite El).
  repeat case_bool_decide; (split; [|intros []; simpl; intros; first [lia|done]]); try done.
  by destruct s0.
Qed.
Lemma aggregate_health_is_worst_witness :
  [HHealthy; HDegraded; HPaused] ≠ [] ∧ severity HPaused ≤ severity HDegraded.
Proof.
  split; [done|].
  apply (proj2 (aggregate_health_is_worst [HHealthy; HDegraded; HPaused] ltac:(done)) HPaused).
  set_solver.
Defined.

Lemma split_steps_platform checks acc :
  (foldl split_step acc checks).1 =
  acc.1 ++ filter (λ c, hc_source c = CkPlatformProbe) checks.
Proof.
  revert acc. induction checks as [|c checks IH]; intros [pl ig]; simpl; [by rewrite app_nil_r|].
  rewrite IH, filter_cons. case_decide; simpl; [by rewrite <- app_assoc|done].
Qed.

Lemma from_checks_state checks at_ :
  hr_state (HealthReport_from_checks checks at_) =
  aggregate_health (hc_state <$> filter (λ c, hc_source c = CkPlatformProbe) checks).
Proof.
  pose proof (split_steps_platform checks ([], [])) as E. fold (split_checks checks) in E.
  unfold HealthReport_from_checks. destruct (split_checks checks). simpl in *. by rewrite E.
Qed.

Lemma aggregate_healthy_iff states :
  aggregate_health states = HHealthy ↔ states ≠ [] ∧ ∀ s, s ∈ states → s = HHealthy.
Proof.
  destruct states as [|s0 l] eqn:El; [naive_solver|]. rewrite <- El.
  assert (aggregate_health states =
    if bool_decide (HFailed ∈ states) then HFailed
    else if bool_decide (HDegraded ∈ states) then HDegraded
    else if bool_decide (HUnknown ∈ states) then HUnknown
    else if bool_decide (HProvisioning ∈ states) then HProvisioning
    else if bool_decide (HPaused ∈ states) then HPaused else HHealthy) as ->
    by (by rewrite El).
  split.
  - repeat case_bool_decide; try done. intros _. split; [by subst|]. by intros [] ?.
  - intros [_ Hall]. repeat case_bool_decide; try done;
      match goal with Hin : _ ∈ states |- _ => by apply Hall in Hin end.
Qed.

(** A report is healthy exactly when there is at least one platform
    probe and every platform probe is healthy: agent claims neither help nor
    hurt. *)
Theorem healthy_report_needs_probes checks at_ :
  HealthReport_is_healthy (HealthReport_from_checks checks at_) = true ↔
  (∃ c, c ∈ checks ∧ hc_source c = CkPlatformProbe) ∧
  ∀ c, c ∈ checks → hc_source c = CkPlatformProbe → hc_state c = HHealthy.
Proof.
  unfold HealthReport_is_healthy. rewrite bool_decide_eq_true, from_checks_state, aggregate_healthy_iff.
  split.
  - intros [Hne Hall]. split.
    + destruct (filter _ checks) as [|c l] eqn:E; [done|].
      assert (c ∈ filter (λ c, hc_source c = CkPlatformProbe) checks) as Hc by (rewrite E; set_solver).
      apply list_elem_of_filter in Hc. naive_solver.
    + intros c Hc Hs. apply Hall, list_elem_of_fmap. exists c. split; [done|].
      by apply list_elem_of_filter.
  - intros [(c & Hc & Hs) Hall].
    assert (c ∈ filter (λ c, hc_source c = CkPlatformProbe) checks) as Hin by (by apply list_elem_of_filter).
    split; [intros E%fmap_nil_inv; rewrite E in Hin; set_solver|].
    intros s (d & -> & [Hd1 Hd2]%list_elem_of_filter)%list_elem_of_fmap. auto.
Qed.

(* ------------------------------------------------------------------ *)
(** * What a controller promises *)

(** The abstract result of a pass: at most one convergence step. *)
Definition Plan : Type := option (string * JobAction * Z).
Definition plan_keys (p : Plan) : list IdempotencyKey :=
  match p with Some (t, a, v) => [IdempotencyKey_new t a v] | None => [] end.

Section Promise.
Context `{UuidLib} `{Chrono}.

Definition default_policy : RetryPolicy :=
  {| max_attempts := 5; base_delay := 5 * nanos_per_sec; factor := 2;
     max_delay := Some (300 * nanos_per_sec) |}.
Definition enqueue_plan (fresh : JobId) (now : DateTime) (p : Plan) (q : JobQueue) : JobQueue :=
  match p with
  | Some (t, a, v) => (enqueue fresh t a v default_policy now q).1
  | None => q
  end.

(** A controller computes, from its own state alone, a plan and a report: a pass
    succeeds, enqueues the plan, reports the plan's keys as its actions, and is
    in sync exactly when [converged] holds, in which case there is no drift and
    nothing is enqueued. *)
Class ControllerLaws (C : Type) `{Controller C} := {
  converged : C → bool;
  plan : C → Plan;
  reconcile_spec c now : ∃ r,
    (∀ fresh q, reconcile c fresh now q = Done (enqueue_plan fresh now (plan c) q, Ok r)) ∧
    rec_actions r = plan_keys (plan c) ∧
    rec_in_sync r = converged c ∧
    (converged c = true ↔ rec_drift r = []) ∧
    (converged c = true → plan c = None) ∧
    rec_controller r = controller_name c;
}.
End Promise.

Section Implementation.
Context `{UuidLib} `{ChronoLaws} `{BuildProfile} `{JsonLib} `{StrDebug}.

Lemma enqueue_default_eq fresh t a v now q :
  enqueue_default fresh t a v now q =
  Done (enqueue_plan fresh now (Some (t, a, v)) q, Ok tt).
Proof. unfold enqueue_default. rewrite RetryPolicy_default_eq. done. Qed.

(** Rewrites the guards that a hypothesis decides. *)
Local Ltac decided :=
  repeat match goal with
  | E : ?P |- context [bool_decide ?P] => rewrite (bool_decide_eq_true_2 P E)
  | E : ¬ ?P |- context [bool_decide ?P] => rewrite (bool_decide_eq_false_2 P E)
  | E : ?P |- context [decide ?P] => rewrite (decide_True _ _ E)
  | E : ¬ ?P |- context [decide ?P] => rewrite (decide_False _ _ E)
  end; cbn [negb andb orb app no_drift].
(** Evaluates a pass whose guards have been decided. *)
Local Ltac pass :=
  decided; eexists; split;
  [intros fresh q; decided; unfold mbind, M_bind, mret, M_ret;
   rewrite ?enqueue_default_eq; reflexivity
  |cbn [rec_actions rec_in_sync rec_drift rec_controller plan_keys]; split_and!; done].

#[export] Program Instance ApplicationController_laws : ControllerLaws ApplicationController := {
  converged c := negb (is_stale (ac_observed c) (ac_desired c))
                 && bool_decide (os_status (ac_observed c) = OHealthy);
  plan c :=
    if negb (is_stale (ac_observed c) (ac_desired c))
       && bool_decide (os_status (ac_observed c) = OHealthy) then None
    else Some (id_fmt (ac_application_id c), JUpdate, ds_version (ac_desired c));
}.
Next Obligation.
  intros c now. unfold reconcile, ApplicationController_controller, ApplicationController_reconcile.
  destruct (is_stale _ _), (decide (os_status (ac_observed c) = OHealthy)); pass.
Qed.

#[export] Program Instance ResourceController_laws : ControllerLaws ResourceController := {
  converged c :=
    bool_decide (res_failure (rc_resource c) = None) &&
    (if rc_desired_present c
     then bool_decide (rc_observed_present c = Some true)
          && bool_decide (res_phase (rc_resource c) = Ready)
     else bool_decide (res_phase (rc_resource c) = Deleted));
  plan c :=
    if rc_desired_present c
    then if decide (rc_observed_present c = Some true) then None
         else Some (id_fmt (res_id (rc_resource c)), JProvision,
                    convergence_version (rc_resource c))
    else if decide (res_phase (rc_resource c) = Deleted) then None
         else Some (id_fmt (res_id (rc_resource c)), JDelete,
                    convergence_version (rc_resource c));
}.
Next Obligation.
  intros c now. unfold reconcile, ResourceController_controller, ResourceController_reconcile.
  destruct (rc_desired_present c), (decide (rc_observed_present c = Some true)) as [E|E],
    (decide (res_phase (rc_resource c) = Deleted)) as [E'|E'],
    (decide (res_phase (rc_resource c) = Ready)) as [E''|E''], (res_failure (rc_resource c)); try congruence;
    pass.
Qed.

#[export] Program Instance CapabilityController_laws : ControllerLaws CapabilityController := {
  converged c := negb (cc_desired_ready c) || bool_decide (cc_phase c = Ready);
  plan c := if cc_desired_ready c && negb (bool_decide (cc_phase c = Ready))
            then Some (id_fmt (cc_resource_id c), JProvision, 1) else None;
}.
Next Obligation.
  intros c now. unfold reconcile, CapabilityController_controller, CapabilityController_reconcile.
  destruct (cc_desired_ready c), (decide (cc_phase c = Ready)); pass.
Qed.

#[export] Program Instance PreviewController_laws : ControllerLaws PreviewController := {
  converged c := negb (pc_desired_live c) || pc_observed_live c && pc_observed_healthy c;
  plan c :=
    if pc_desired_live c
    then if pc_observed_live c
         then if pc_observed_healthy c then None
              else Some (id_fmt (pc_preview_id c), JVerify, 1)
         else Some (id_fmt (pc_preview_id c), JProvision, 1)
    else None;
}.
Next Obligation.
  intros c now. unfold reconcile, PreviewController_controller, PreviewController_reconcile.
  destruct (pc_desired_live c), (pc_observed_live c), (pc_observed_healthy c); pass.
Qed.

#[export] Program Instance DeploymentController_laws : ControllerLaws DeploymentController := {
  converged c := bool_decide (dc_observed_artifact c = Some (dc_desired_artifact c));
  plan c := if decide (dc_observed_artifact c = Some (dc_desired_artifact c)) then None
            else Some (dc_key c, JRollout, 1);
}.
Next Obligation.
  intros c now. unfold reconcile, DeploymentController_controller, DeploymentController_reconcile.
  destruct (decide (dc_observed_artifact c = Some (dc_desired_artifact c))); pass.
Qed.
End Implementation.

(* ------------------------------------------------------------------ *)
(** * Passes over any controllers

    These theorems use only the promise, not the five implementations. *)

Section Fleet.
Context `{UuidLaws} `{ChronoLaws} `{BuildProfile}.
Implicit Types q : JobQueue.

(** A controller of any kind, with its promise. *)
Record AnyController := mkAny {
  any_type : Type;
  any_impl : Controller any_type;
  any_laws : ControllerLaws any_type;
  any_state : any_type;
}.
#[local] Existing Instance any_impl.
#[local] Existing Instance any_laws.

(** One reconciliation round: each controller runs once, in order. *)
Fixpoint run_fleet (cs : list AnyController) (fresh : list JobId) (now : DateTime) :
    M JobQueue CoreError (list Reconciliation) :=
  match cs, fresh with
  | c :: cs, f :: fs =>
      r ← reconcile (any_state c) f now;
      rs ← run_fleet cs fs now;
      mret (r :: rs)
  | _, _ => mret []
  end.

Definition any_plan (c : AnyController) : Plan := plan (any_state c).

Lemma enqueue_plan_ensures fresh now p q key :
  key ∈ plan_keys p → in_flight_with key (enqueue_plan fresh now p q).
Proof.
  destruct p as [[[t a] v]|]; simpl; [|by intros ?%not_elem_of_nil].
  intros ->%list_elem_of_singleton. apply enqueue_ensures.
Qed.

Lemma enqueue_plan_keeps fresh now p q key :
  q !! id_fmt fresh = None → in_flight_with key q → in_flight_with key (enqueue_plan fresh now p q).
Proof.
  intros Hnew Hin. destruct p as [[[t a] v]|]; [|done]. simpl.
  destruct (enqueue_cases fresh t a v default_policy now q) as [(k & j & _ & _ & _ & ->)|[_ ->]];
    [done|]. simpl. destruct Hin as (k & j & Hj & Hk & Hf). exists k, j. split; [|done].
  rewrite lookup_insert_ne; [done|]. intros <-. congruence.
Qed.

Lemma enqueue_plan_quiet fresh now p q :
  (∀ key, key ∈ plan_keys p → in_flight_with key q) → enqueue_plan fresh now p q = q.
Proof.
  intros Hin. destruct p as [[[t a] v]|]; [|done]. simpl. apply enqueue_suppressed, Hin. set_solver.
Qed.

Lemma enqueue_plan_new fresh f now p q :
  f ≠ fresh → q !! id_fmt f = None → enqueue_plan fresh now p q !! id_fmt f = None.
Proof.
  intros Hne Hf. destruct p as [[[t a] v]|]; [|done]. simpl.
  destruct (enqueue_cases fresh t a v default_policy now q) as [(k & j & _ & _ & _ & ->)|[_ ->]];
    [done|]. simpl. rewrite lookup_insert_ne; [done|]. by intros ?%(inj id_fmt).
Qed.

Lemma default_policy_ok : policy_ok default_policy.
Proof. unfold policy_ok, u32_max. simpl. lia. Qed.

Lemma enqueue_plan_step fresh now p q :
  q !! id_fmt fresh = None → queue_wf q → keys_unique q →
  queue_wf (enqueue_plan fresh now p q) ∧ keys_unique (enqueue_plan fresh now p q).
Proof.
  intros Hnew Hwf Hu. destruct p as [[[t a] v]|]; [|done]. simpl.
  assert (queue_effect (QEnqueue fresh t a v default_policy now) q
            (enqueue fresh t a v default_policy now q).1) as He.
  { apply op_effect; [done|by split; [|apply default_policy_ok]|done]. }
  split; [by eapply effect_wf|]. eapply effect_unique; [done|exact He|]. intros k j Hk. done.
Qed.

(** A round on fresh identifiers. *)
Lemma run_fleet_spec cs fresh now q :
  queue_wf q → keys_unique q → length fresh = length cs →
  NoDup fresh → (∀ f, f ∈ fresh → q !! id_fmt f = None) →
  ∃ q' rs, run_fleet cs fresh now q = Done (q', Ok rs) ∧
    queue_wf q' ∧ keys_unique q' ∧
    (∀ key, in_flight_with key q → in_flight_with key q') ∧
    Forall2 (λ c r, rec_actions r = plan_keys (any_plan c) ∧
                    rec_in_sync r = converged (any_state c)) cs rs ∧
    ∀ c key, c ∈ cs → key ∈ plan_keys (any_plan c) → in_flight_with key q'.
Proof.
  revert fresh q. induction cs as [|c cs IH]; intros [|f fresh] q Hwf Hu Hlen Hnd Hnew; try done.
  { exists q, []. simpl. split_and!; try done. intros c key []%not_elem_of_nil. }
  apply NoDup_cons in Hnd as [Hf Hnd].
  destruct (reconcile_spec (any_state c) now) as (r & Hr & Hact & Hsync & _).
  assert (q !! id_fmt f = None) as Hfnew by (apply Hnew; set_solver).
  destruct (enqueue_plan_step f now (any_plan c) q Hfnew Hwf Hu) as [Hwf1 Hu1].
  destruct (IH fresh (enqueue_plan f now (any_plan c) q)) as (q' & rs & Hrun & Hwf' & Hu' & Hkeep & Hall & Hin).
  - done.
  - done.
  - by injection Hlen.
  - done.
  - intros g Hg. apply enqueue_plan_new; [set_solver|]. apply Hnew. set_solver.
  - exists q', (r :: rs). split.
    { simpl. unfold mbind, M_bind. rewrite Hr. fold (any_plan c). rewrite Hrun. done. }
    split; [done|]. split; [done|]. split.
    { intros key Hkey. apply Hkeep. by apply enqueue_plan_keeps. }
    split; [by constructor|].
    intros c' key [->|Hc']%elem_of_cons Hkey; [|by eapply Hin].
    apply Hkeep. by apply enqueue_plan_ensures.
Qed.

(** A round whose steps are all in flight changes nothing. *)
Lemma run_fleet_quiet cs fresh now q :
  (∀ c key, c ∈ cs → key ∈ plan_keys (any_plan c) → in_flight_with key q) →
  ∃ rs, run_fleet cs fresh now q = Done (q, Ok rs).
Proof.
  revert fresh. induction cs as [|c cs IH]; intros [|f fresh] Hin; try by eexists.
  destruct (reconcile_spec (any_state c) now) as (r & Hr & _).
  destruct (IH fresh) as [rs Hrs]; [intros c' key Hc'; apply Hin; set_solver|].
  exists (r :: rs). simpl. unfold mbind, M_bind. rewrite Hr. fold (any_plan c).
  rewrite enqueue_plan_quiet by (intros key; apply Hin; set_solver). by rewrite Hrs.
Qed.

(** C7: a reconciliation round over any controllers succeeds, keeps the
    in-flight keys unique, leaves every reported action in flight, reports a
    controller in sync exactly when it has converged; and repeating the round
    at any later time, before any job finishes, enqueues nothing. *)
Theorem reconcile_round_idempotent cs fresh now q :
  queue_wf q → keys_unique q → length fresh = length cs →
  NoDup fresh → (∀ f, f ∈ fresh → q !! id_fmt f = None) →
  ∃ q' rs, run_fleet cs fresh now q = Done (q', Ok rs) ∧ keys_unique q' ∧
    Forall2 (λ c r, rec_in_sync r = converged (any_state c) ∧
                    ∀ key, key ∈ rec_actions r → in_flight_with key q') cs rs ∧
    ∀ fresh' now', ∃ rs', run_fleet cs fresh' now' q' = Done (q', Ok rs').
Proof.
  intros Hwf Hu Hlen Hnd Hnew.
  destruct (run_fleet_spec cs fresh now q Hwf Hu Hlen Hnd Hnew)
    as (q' & rs & Hrun & _ & Hu' & _ & Hall & Hin).
  exists q', rs. split; [done|]. split; [done|]. split.
  - eapply Forall2_impl_elem; [done|]. intros c r Hc [-> Hs]. eauto.
  - intros. by apply run_fleet_quiet.
Qed.
End Fleet.

(* ------------------------------------------------------------------ *)
(** * Facts about single controllers *)

Section Single.
Context `{UuidLib} `{ChronoLaws} `{BuildProfile} `{JsonLib} `{StrDebug}.

Lemma reconcile_value {C} `{ControllerLaws C} (c : C) fresh now q q' res :
  reconcile c fresh now q = Done (q', res) →
  q' = enqueue_plan fresh now (plan c) q ∧
  ∃ r, res = Ok r ∧ rec_in_sync r = converged c ∧ rec_actions r = plan_keys (plan c).
Proof.
  destruct (reconcile_spec c now) as (r & Hr & Ha & Hs & _). rewrite Hr. intros [= <- <-]. eauto.
Qed.

(** A resource is reported in sync exactly when it carries no failure
    record and is either wanted, observed present and ready, or unwanted and
    deleted. *)
Theorem resource_in_sync_iff c fresh now q q' r :
  ResourceController_reconcile c fresh now q = Done (q', Ok r) →
  rec_in_sync r = true ↔
  res_failure (rc_resource c) = None ∧
  (if rc_desired_present c
   then rc_observed_present c = Some true ∧ res_phase (rc_resource c) = Ready
   else res_phase (rc_resource c) = Deleted).
Proof.
  intros E. change (reconcile c fresh now q = Done (q', Ok r)) in E.
  apply reconcile_value in E as [_ (r' & [= <-] & -> & _)].
  unfold converged, ResourceController_laws. rewrite andb_true_iff, bool_decide_eq_true.
  destruct (rc_desired_present c); rewrite ?andb_true_iff, !bool_decide_eq_true; done.
Qed.

(** While a wanted resource is not observed present, every pass reports
    a mismatch and leaves a provisioning job for the resource's convergence
    version in flight. *)
Theorem missing_resource_is_provisioned c fresh now q q' r :
  rc_desired_present c = true → rc_observed_present c ≠ Some true →
  ResourceController_reconcile c fresh now q = Done (q', Ok r) →
  is_mismatch r = true ∧
  in_flight_with (IdempotencyKey_new (id_fmt (res_id (rc_resource c))) JProvision
                    (convergence_version (rc_resource c))) q'.
Proof.
  intros Hd Ho E. change (reconcile c fresh now q = Done (q', Ok r)) in E.
  apply reconcile_value in E as [-> (r' & [= <-] & Hs & _)].
  unfold is_mismatch. rewrite Hs. unfold converged, plan, ResourceController_laws. rewrite Hd.
  rewrite (bool_decide_eq_false_2 _ Ho), (decide_False _ _ Ho), andb_false_r. split; [done|].
  apply enqueue_plan_ensures. set_solver.
Qed.

Lemma failure_persists_steps r r' :
  Resource_wf r → rtc resource_step r r' → is_Some (res_failure r) → res_phase r' ≠ Deleted →
  is_Some (res_failure r').
Proof.
  intros Hwf Hsteps. induction Hsteps as [|x y z (op & res & Hrun) Hrest IH]; [done|].
  intros Hf Hp. assert (Resource_wf y) as Hy by (eapply resource_step_wf; [done|by exists op, res]).
  apply IH; [done| |done]. eapply failure_persists; [exact Hwf|exact Hrun|done|].
  intros Hd. apply Hp. clear -Hd Hrest. induction Hrest as [|a b c (op & res & Hrun) _ IH]; [done|].
  destruct (op_from_deleted op a Hd) as [e He]. rewrite He in Hrun. simplify_eq. auto.
Qed.

(** A resource that failed once and then recovers is never reported in
    sync again: its failure record survives until deletion, so the pass keeps
    reporting a mismatch although the resource is present, ready and healthy. *)
Theorem recovered_resource_stays_mismatched r0 r1 r reason secrets policy at_ fresh now q q' rec :
  resource_reachable r0 →
  Resource_fail reason secrets policy at_ r0 = Done (r1, Ok tt) →
  rtc resource_step r1 r → res_phase r = Ready →
  let c := mkResourceController r true (Some true) in
  ResourceController_reconcile c fresh now q = Done (q', Ok rec) →
  ResourceController_health c = HHealthy ∧ rec_in_sync rec = false.
Proof.
  intros Hwf%resource_reachable_wf Hfail Hsteps Hp c E.
  change (reconcile c fresh now q = Done (q', Ok rec)) in E.
  apply reconcile_value in E as [_ (r' & [= <-] & -> & _)].
  split; [unfold ResourceController_health; simpl; by rewrite Hp|].
  destruct (fail_ok _ _ _ _ _ _ Hwf Hfail) as (Hwf1 & _ & a & d & t & _ & _ & _ & _ & Hf1).
  destruct (failure_persists_steps r1 r Hwf1 Hsteps) as [f Hf].
  - by rewrite Hf1.
  - by rewrite Hp.
  - unfold converged, ResourceController_laws. simpl. by rewrite Hf.
Qed.

(** An agent's completion claim is only counted: it changes neither the
    health of the capability nor any later pass. *)
Theorem agent_completion_changes_nothing c c' :
  accept_agent_completion c = Done c' →
  CapabilityController_health c' = CapabilityController_health c ∧
  ∀ fresh now q, CapabilityController_reconcile c' fresh now q =
                 CapabilityController_reconcile c fresh now q.
Proof. unfold accept_agent_completion. intros E. by run_op E. Qed.
End Single.

(** Below saturation, and as long as a resource fails fewer than 1000
    times per desired version, the convergence version determines the desired
    version and the failure generation, so a new failure always gives a new
    idempotency key. *)
Theorem convergence_version_injective r s :
  0 ≤ res_desired_version r → 0 ≤ res_desired_version s →
  0 ≤ res_generation r < 1000 → 0 ≤ res_generation s < 1000 →
  res_desired_version r * 1000 + 999 ≤ u64_max → res_desired_version s * 1000 + 999 ≤ u64_max →
  convergence_version r = convergence_version s →
  res_desired_version r = res_desired_version s ∧ res_generation r = res_generation s.
Proof.
  unfold convergence_version, sat_add, sat_mul. intros. rewrite !(Z.min_r u64_max) in * by lia. lia.
Qed.

Module ControllerExamples.
Import RefInstances ResourceExamples.
Definition f1 : JobId := mkId (uuid 21).
Definition f2 : JobId := mkId (uuid 22).
Definition rc_missing : ResourceController := mkResourceController r_provisioning true (Some false).
Definition rc_ok : ResourceController :=
  mkResourceController (after_op (OpObserve Ready SrcPlatformProbe None 3) r_provisioning)
    true (Some true).
Definition cap : CapabilityController := CapabilityController_new "database.postgres" r_id.
Definition fleet : list AnyController :=
  [mkAny ResourceController _ _ rc_missing; mkAny CapabilityController _ _ cap].

Lemma reconcile_round_idempotent_witness :
  ∃ q' rs, run_fleet fleet [f1; f2] 5 ∅ = Done (q', Ok rs) ∧ keys_unique q' ∧
    ∀ fresh' now', ∃ rs', run_fleet fleet fresh' now' q' = Done (q', Ok rs').
Proof.
  destruct (reconcile_round_idempotent fleet [f1; f2] 5 ∅) as (q' & rs & Hrun & Hu & _ & Hquiet).
  - apply empty_wf.
  - intros k1 k2 i1 i2 Hk. by rewrite lookup_empty in Hk.
  - reflexivity.
  - apply (bool_decide_unpack _). vm_compute. exact I.
  - intros. apply lookup_empty.
  - exists q', rs. split; [exact Hrun|split; [exact Hu|exact Hquiet]].
Defined.

Definition pass_of (c : ResourceController) : JobQueue * result CoreError Reconciliation :=
  done_or (∅, Err (NotFound "")) (ResourceController_reconcile c f1 5 ∅).
Definition report_of (c : ResourceController) : Reconciliation :=
  match (pass_of c).2 with
  | Ok r => r
  | Err _ => mkReconciliation "" "" 0 0 false [] [] 0
  end.
Lemma pass_ok c :
  is_done (ResourceController_reconcile c f1 5 ∅) = true →
  match (pass_of c).2 with Ok _ => true | Err _ => false end = true →
  ResourceController_reconcile c f1 5 ∅ = Done ((pass_of c).1, Ok (report_of c)).
Proof.
  intros Hd Hr. apply is_done_pair; [exact Hd|]. fold (pass_of c).
  unfold report_of. by destruct (pass_of c).2.
Qed.

Lemma resource_in_sync_iff_witness :
  rec_in_sync (report_of rc_ok) = true.
Proof.
  apply (resource_in_sync_iff rc_ok f1 5 ∅ (pass_of rc_ok).1 (report_of rc_ok)).
  - apply pass_ok; vm_compute; reflexivity.
  - vm_compute. done.
Defined.
Lemma missing_resource_is_provisioned_witness :
  is_mismatch (report_of rc_missing) = true ∧
  in_flight_with (IdempotencyKey_new (id_fmt r_id) JProvision 1000) (pass_of rc_missing).1.
Proof.
  apply (missing_resource_is_provisioned rc_missing f1 5 ∅ (pass_of rc_missing).1
           (report_of rc_missing)).
  - reflexivity.
  - discriminate.
  - apply pass_ok; vm_compute; reflexivity.
Defined.

(** Failed, provisioned again, ready: the pass still reports a mismatch. *)
Definition r_recovered : Resource :=
  after_op (OpObserve Ready SrcPlatformProbe None 8)
    (after_op (OpObserve Provisioning SrcProviderCallback None 7) r_failed).
Lemma recovered_resource_stays_mismatched_witness :
  res_phase r_recovered = Ready ∧
  rec_in_sync (report_of (mkResourceController r_recovered true (Some true))) = false.
Proof.
  split; [vm_compute; reflexivity|].
  apply (recovered_resource_stays_mismatched r_provisioning r_failed r_recovered
           "auth p@ss refused" ["p@ss"] default_policy_ref 2 f1 5 ∅
           (pass_of (mkResourceController r_recovered true (Some true))).1).
  - exact provisioning_reachable.
  - vm_compute. reflexivity.
  - eapply rtc_l; [apply (step_after (OpObserve Provisioning SrcProviderCallback None 7));
      vm_compute; reflexivity|].
    apply rtc_once, step_after. vm_compute. reflexivity.
  - vm_compute. reflexivity.
  - apply pass_ok; vm_compute; reflexivity.
Defined.
Lemma agent_completion_changes_nothing_witness :
  ∃ c', accept_agent_completion cap = Done c' ∧
    CapabilityController_health c' = CapabilityController_health cap.
Proof.
  eexists. split; [vm_compute; reflexivity|].
  apply (agent_completion_changes_nothing cap). vm_compute. reflexivity.
Defined.
Lemma convergence_version_injective_witness :
  convergence_version r_failed = convergence_version r_failed →
  res_desired_version r_failed = res_desired_version r_failed ∧
  res_generation r_failed = res_generation r_failed.
Proof.
  apply (convergence_version_injective r_failed r_failed); vm_compute; intuition congruence.
Defined.
(** The bound on generations is needed: version 1 after 1000 failures and version
    2 before any share their key. *)
Example convergence_version_collides :
  convergence_version (res_set_generation 1000 r_requested) = 2000.
Proof. reflexivity. Qed.
End ControllerExamples.
