(* ===== verification/Runtime.v ===== *)
(** Runtime planning (runtime.rs): kinds, tiers, profiles, sandbox limits, the
    adapters' commands, framework conventions, [prepare], the simulated build
    and the health rules.  Detection from a project snapshot is not part of
    this file. *)

From stdpp Require Import base option list strings pretty.
From Stdlib Require Import ZArith Lia.
From S2P Require Import Prelude External Errors.
Local Open Scope Z_scope.

(* ------------------------------------------------------------------ *)
(** * Data *)

Inductive RuntimeKind := Generic | Node | DotNet | Python | Rust | Expo.
#[global] Instance RuntimeKind_eq_dec : EqDecision RuntimeKind.
Proof. solve_decision. Defined.
Definition canonical_name (k : RuntimeKind) : string :=
  match k with
  | Generic => "generic" | Node => "node" | DotNet => "dotnet" | Python => "python"
  | Rust => "rust" | Expo => "expo"
  end.

Inductive SupportTier := Tier0 | Tier1 | Tier2 | Tier3.
#[global] Instance SupportTier_eq_dec : EqDecision SupportTier.
Proof. solve_decision. Defined.

Inductive RuntimeProfile := Development | Production.
#[global] Instance RuntimeProfile_eq_dec : EqDecision RuntimeProfile.
Proof. solve_decision. Defined.

Inductive HealthStatus :=
| HsStarting
| HsHealthy
| HsUnhealthy (reason : string)
| HsUnknown (reason : string).
Definition HealthStatus_is_healthy (h : HealthStatus) : bool :=
  match h with HsHealthy => true | _ => false end.

Record Endpoint := { ep_host : string; ep_port : Z; ep_exposed : bool }.
Definition Endpoint_new (host : string) (port : Z) (exposed : bool) : result CoreError Endpoint :=
  if decide (port = 0) then Err (InvalidRuntime "port must be in 1..=65535")
  else Ok {| ep_host := host; ep_port := port; ep_exposed := exposed |}.
Definition Endpoint_loopback (port : Z) (exposed : bool) : result CoreError Endpoint :=
  Endpoint_new "127.0.0.1" port exposed.

Inductive NetworkMode := NetDisabled | NetIsolated | NetBridged.

Record SandboxLimits := {
  cpu_millicpus : Z;
  memory_mb : Z;
  timeout_secs : Z;
  readonly_root : bool;
  network : NetworkMode;
  drop_capabilities : list string;
  max_processes : Z;
}.
Definition docker_default : SandboxLimits :=
  {| cpu_millicpus := 1000; memory_mb := 512; timeout_secs := 600; readonly_root := true;
     network := NetIsolated; drop_capabilities := ["ALL"]; max_processes := 128 |}.
Definition SandboxLimits_validate (self : SandboxLimits) : result CoreError unit :=
  if decide (cpu_millicpus self = 0) then Err (InvalidRuntime "sandbox cpu_millicpus must be > 0")
  else if decide (memory_mb self = 0) then Err (InvalidRuntime "sandbox memory_mb must be > 0")
  else if decide (timeout_secs self = 0) then
    Err (InvalidRuntime "sandbox timeout_secs must be > 0")
  else if decide (max_processes self = 0) then
    Err (InvalidRuntime "sandbox max_processes must be > 0")
  else Ok tt.
Definition allows_port_exposure (self : SandboxLimits) : bool :=
  match network self with NetDisabled => false | _ => true end.

Record RuntimeConfig := {
  cfg_kind : RuntimeKind;
  cfg_tier : SupportTier;
  cfg_profile : RuntimeProfile;
  cfg_port : Z;
  cfg_healthcheck_path : option string;
  cfg_dockerfile : option string;
  cfg_run_command : list string;
  cfg_oci_image : option string;
  cfg_limits : SandboxLimits;
}.
Definition RuntimeConfig_endpoint (self : RuntimeConfig) : result CoreError Endpoint :=
  Endpoint_loopback (cfg_port self) (allows_port_exposure (cfg_limits self)).

Inductive BuildStatus := BsSucceeded | BsFailed | BsCancelled.
#[global] Instance BuildStatus_eq_dec : EqDecision BuildStatus.
Proof. solve_decision. Defined.
Definition BuildStatus_debug (b : BuildStatus) : string :=
  match b with
  | BsSucceeded => "Succeeded" | BsFailed => "Failed" | BsCancelled => "Cancelled"
  end.

Record BuildResult := {
  br_status : BuildStatus;
  br_cancelled : bool;
  br_limit_enforced : option string;
  br_recovery : option string;
  br_detail : string;
}.
Definition BuildResult_succeeded (detail : string) : BuildResult :=
  {| br_status := BsSucceeded; br_cancelled := false; br_limit_enforced := None;
     br_recovery := None; br_detail := detail |}.
Definition BuildResult_failed (detail : string) : BuildResult :=
  {| br_status := BsFailed; br_cancelled := false; br_limit_enforced := None;
     br_recovery := None; br_detail := detail |}.
Definition BuildResult_timed_out (timeout_secs elapsed_secs : Z) : BuildResult :=
  {| br_status := BsCancelled; br_cancelled := true;
     br_limit_enforced := Some ("timeout_secs=" +:+ pretty timeout_secs);
     br_recovery := Some "increase sandbox timeout_secs or reduce build work, then retry";
     br_detail := "build exceeded timeout: elapsed " +:+ pretty elapsed_secs +:+ "s > limit "
                  +:+ pretty timeout_secs +:+ "s" |}.
Definition BuildResult_limit_cancelled (limit detail : string) : BuildResult :=
  {| br_status := BsCancelled; br_cancelled := true; br_limit_enforced := Some limit;
     br_recovery := Some "raise the enforced sandbox limit or reduce usage, then retry";
     br_detail := detail |}.
Definition BuildResult_is_success (self : BuildResult) : bool :=
  bool_decide (br_status self = BsSucceeded).

Record DetectedRuntime := {
  dr_kind : RuntimeKind;
  dr_tier : SupportTier;
  dr_framework : option string;
  dr_prod_entry : option string;
  dr_migrate_command : list string;
  dr_test_command : list string;
  dr_evidence : list string;
}.
Definition DetectedRuntime_new (kind : RuntimeKind) (tier : SupportTier)
    (evidence : list string) : DetectedRuntime :=
  {| dr_kind := kind; dr_tier := tier; dr_framework := None; dr_prod_entry := None;
     dr_migrate_command := []; dr_test_command := []; dr_evidence := evidence |}.
Definition DetectedRuntime_with_framework (kind : RuntimeKind) (framework : string)
    (evidence : list string) : DetectedRuntime :=
  {| dr_kind := kind; dr_tier := Tier3; dr_framework := Some framework; dr_prod_entry := None;
     dr_migrate_command := []; dr_test_command := []; dr_evidence := evidence |}.

Record FrameworkConventions := {
  fc_framework : string;
  fc_migrate_command : list string;
  fc_test_command : list string;
  fc_dev_command : list string;
  fc_prod_command : list string;
  fc_health_path : option string;
  fc_evidence : list string;
}.

(* ------------------------------------------------------------------ *)
(** * Conventions and adapters *)

Definition conventions_lookup (kind : RuntimeKind) (framework prod_entry : string) :
    option FrameworkConventions :=
  let entry := trim prod_entry in
  match kind with
  | Python =>
      if decide (framework = "django" ∧ entry ≠ "") then
        Some {| fc_framework := "django";
                fc_migrate_command := ["python"; "manage.py"; "migrate"];
                fc_test_command := ["python"; "manage.py"; "test"];
                fc_dev_command := ["python"; "manage.py"; "runserver"];
                fc_prod_command := ["gunicorn"; entry +:+ ".wsgi:application"];
                fc_health_path := None; fc_evidence := [] |}
      else if decide (framework = "fastapi" ∧ entry ≠ "") then
        Some {| fc_framework := "fastapi"; fc_migrate_command := []; fc_test_command := [];
                fc_dev_command := ["python"; "-m"; "uvicorn"; entry +:+ ":app"; "--reload"];
                fc_prod_command := ["python"; "-m"; "uvicorn"; entry +:+ ":app"];
                fc_health_path := Some "/health"; fc_evidence := [] |}
      else None
  | Rust =>
      if decide (framework = "axum") then
        Some {| fc_framework := "axum"; fc_migrate_command := [];
                fc_test_command := ["cargo"; "test"];
                fc_dev_command := ["cargo"; "run"];
                fc_prod_command := ["cargo"; "build"; "--release"];
                fc_health_path := Some "/health"; fc_evidence := [] |}
      else if decide (framework = "rust") then
        Some {| fc_framework := "rust"; fc_migrate_command := [];
                fc_test_command := ["cargo"; "test"];
                fc_dev_command := ["cargo"; "run"];
                fc_prod_command := ["cargo"; "build"; "--release"];
                fc_health_path := None; fc_evidence := [] |}
      else None
  | Expo =>
      if decide (framework = "expo") then
        Some {| fc_framework := "expo"; fc_migrate_command := []; fc_test_command := [];
                fc_dev_command := ["expo"; "start"]; fc_prod_command := ["expo"; "export"];
                fc_health_path := None; fc_evidence := [] |}
      else None
  | _ => None
  end.
Definition with_migrate (self : FrameworkConventions) (command : list string) :
    FrameworkConventions :=
  {| fc_framework := fc_framework self; fc_migrate_command := command;
     fc_test_command := fc_test_command self; fc_dev_command := fc_dev_command self;
     fc_prod_command := fc_prod_command self; fc_health_path := fc_health_path self;
     fc_evidence := fc_evidence self |}.
Definition with_test (self : FrameworkConventions) (command : list string) :
    FrameworkConventions :=
  {| fc_framework := fc_framework self; fc_migrate_command := fc_migrate_command self;
     fc_test_command := command; fc_dev_command := fc_dev_command self;
     fc_prod_command := fc_prod_command self; fc_health_path := fc_health_path self;
     fc_evidence := fc_evidence self |}.
Definition conventions (self : DetectedRuntime) : option FrameworkConventions :=
  framework ← dr_framework self;
  let entry := default "" (dr_prod_entry self) in
  (λ c, with_test (with_migrate c (dr_migrate_command self)) (dr_test_command self))
    <$> conventions_lookup (dr_kind self) framework entry.

(** The planning methods of the trait [RuntimeAdapter] ([detect] reads a project
    snapshot and is left out). *)
Record RuntimeAdapter := {
  adapter_kind : RuntimeKind;
  adapter_tier : SupportTier;
  dev_command : list string;
  prod_command : list string;
  prod_oci_image : option string;
  health_path : option string;
}.
Definition GenericAdapter : RuntimeAdapter :=
  {| adapter_kind := Generic; adapter_tier := Tier0;
     dev_command := ["docker"; "build"; "."]; prod_command := ["docker"; "build"; "."];
     prod_oci_image := Some "oci://app:prod"; health_path := None |}.
Definition NodeAdapter : RuntimeAdapter :=
  {| adapter_kind := Node; adapter_tier := Tier1;
     dev_command := ["npm"; "run"; "dev"];
     prod_command := ["npm"; "run"; "build"; "&&"; "npm"; "start"];
     prod_oci_image := Some "oci://node-app:prod"; health_path := Some "/" |}.
Definition DotNetAdapter : RuntimeAdapter :=
  {| adapter_kind := DotNet; adapter_tier := Tier1;
     dev_command := ["dotnet"; "watch"];
     prod_command := ["dotnet"; "publish"; "-c"; "Release"];
     prod_oci_image := Some "oci://dotnet-app:prod"; health_path := Some "/healthz" |}.
Definition PythonAdapter : RuntimeAdapter :=
  {| adapter_kind := Python; adapter_tier := Tier1;
     dev_command := ["python"; "-m"; "uvicorn"; "app:app"; "--reload"];
     prod_command := ["python"; "-m"; "gunicorn"; "app:app"];
     prod_oci_image := Some "oci://python-app:prod"; health_path := Some "/healthz" |}.
Definition RustAdapter : RuntimeAdapter :=
  {| adapter_kind := Rust; adapter_tier := Tier1;
     dev_command := ["cargo"; "run"]; prod_command := ["cargo"; "build"; "--release"];
     prod_oci_image := Some "oci://rust-app:prod"; health_path := Some "/healthz" |}.
Definition ExpoAdapter : RuntimeAdapter :=
  {| adapter_kind := Expo; adapter_tier := Tier1;
     dev_command := ["expo"; "start"]; prod_command := ["expo"; "export"];
     prod_oci_image := None; health_path := None |}.

(* ------------------------------------------------------------------ *)
(** * Planning, building, health *)

(** [a.or(b)]. *)
Definition option_or {A} (a b : option A) : option A :=
  match a with Some _ => a | None => b end.

Definition prepare (detected : DetectedRuntime) (profile : RuntimeProfile) (port : Z)
    (healthcheck_path dockerfile : option string) (limits : SandboxLimits) :
    result CoreError RuntimeConfig :=
  if decide (port = 0) then Err (InvalidRuntime "port must be in 1..=65535")
  else
    SandboxLimits_validate limits;;
    let conv := conventions detected in
    let conv_dev (adapter : RuntimeAdapter) :=
      default (dev_command adapter) (fc_dev_command <$> conv) in
    let conv_prod (adapter : RuntimeAdapter) :=
      default (prod_command adapter) (fc_prod_command <$> conv) in
    let '(run_command, oci_image, default_path, tier) :=
      match dr_kind detected with
      | Generic => (dev_command GenericAdapter, prod_oci_image GenericAdapter, None, Tier0)
      | Node => (dev_command NodeAdapter, prod_oci_image NodeAdapter, health_path NodeAdapter,
                 dr_tier detected)
      | DotNet => (dev_command DotNetAdapter, prod_oci_image DotNetAdapter,
                   health_path DotNetAdapter, dr_tier detected)
      | Python => (conv_dev PythonAdapter, prod_oci_image PythonAdapter,
                   option_or (conv ≫= fc_health_path)
                     (if decide (dr_framework detected = Some "django") then None
                      else health_path PythonAdapter),
                   dr_tier detected)
      | Rust => (conv_dev RustAdapter, prod_oci_image RustAdapter,
                 option_or (conv ≫= fc_health_path) (health_path RustAdapter), dr_tier detected)
      | Expo => (conv_dev ExpoAdapter, None, health_path ExpoAdapter, dr_tier detected)
      end in
    let '(run_command, oci_image) :=
      match profile with
      | Development => (run_command, None)
      | Production =>
          (match dr_kind detected with
           | Generic => prod_command GenericAdapter
           | Node => prod_command NodeAdapter
           | DotNet => prod_command DotNetAdapter
           | Python => conv_prod PythonAdapter
           | Rust => conv_prod RustAdapter
           | Expo => conv_prod ExpoAdapter
           end, oci_image)
      end in
    Ok {| cfg_kind := dr_kind detected; cfg_tier := tier; cfg_profile := profile;
          cfg_port := port; cfg_healthcheck_path := option_or healthcheck_path default_path;
          cfg_dockerfile :=
            option_or dockerfile
              (if decide (dr_kind detected = Generic) then head (dr_evidence detected) else None);
          cfg_run_command := run_command; cfg_oci_image := oci_image; cfg_limits := limits |}.

Definition simulate_build (config : RuntimeConfig) (elapsed_secs : Z) : BuildResult :=
  if decide (timeout_secs (cfg_limits config) < elapsed_secs) then
    BuildResult_timed_out (timeout_secs (cfg_limits config)) elapsed_secs
  else
    BuildResult_succeeded (canonical_name (cfg_kind config) +:+ " build finished in "
      +:+ pretty elapsed_secs +:+ "s on port " +:+ pretty (cfg_port config)).

Definition enforce_run_usage (config : RuntimeConfig) (processes memory : Z) :
    result CoreError unit :=
  if decide (max_processes (cfg_limits config) < processes) then
    Err (LimitExceeded ("max_processes=" +:+ pretty (max_processes (cfg_limits config)))
           ("process count " +:+ pretty processes +:+ " exceeds sandbox limit "
            +:+ pretty (max_processes (cfg_limits config))))
  else if decide (memory_mb (cfg_limits config) < memory) then
    Err (LimitExceeded ("memory_mb=" +:+ pretty (memory_mb (cfg_limits config)))
           ("memory usage " +:+ pretty memory +:+ "MiB exceeds sandbox limit "
            +:+ pretty (memory_mb (cfg_limits config)) +:+ "MiB"))
  else Ok tt.

Definition evaluate_health (config : RuntimeConfig) (http_status : option Z)
    (path : option string) : HealthStatus :=
  match http_status with
  | None =>
      match cfg_healthcheck_path config with
      | None => HsUnknown "no health signal reported"
      | Some _ => HsUnhealthy "no health signal reported"
      end
  | Some status =>
      match cfg_profile config with
      | Development =>
          if decide (200 ≤ status < 400) then HsHealthy
          else HsUnhealthy ("dev server answered " +:+ pretty status)
      | Production =>
          let expected := cfg_healthcheck_path config in
          let path_ok := match expected, path with
                         | None, _ => true
                         | Some _, None => false
                         | Some e, Some p => bool_decide (e = p)
                         end in
          if bool_decide (200 ≤ status < 300) && path_ok then HsHealthy
          else HsUnhealthy ("production health check failed: status " +:+ pretty status
                 +:+ " on path " +:+ default "<none>" path +:+ " (expected "
                 +:+ default "<tcp>" expected +:+ ")")
      end
  end.

(* ------------------------------------------------------------------ *)
(** * Facts *)

Definition limits_valid (l : SandboxLimits) : Prop :=
  cpu_millicpus l ≠ 0 ∧ memory_mb l ≠ 0 ∧ timeout_secs l ≠ 0 ∧ max_processes l ≠ 0.
Lemma validate_spec l :
  if decide (cpu_millicpus l ≠ 0 ∧ memory_mb l ≠ 0 ∧ timeout_secs l ≠ 0 ∧ max_processes l ≠ 0)
  then SandboxLimits_validate l = Ok tt
  else ∃ m, SandboxLimits_validate l = Err (InvalidRuntime m).
Proof. unfold SandboxLimits_validate. repeat case_decide; eauto; naive_solver. Qed.

Lemma conventions_differ kind framework entry c :
  conventions_lookup kind framework entry = Some c → fc_dev_command c ≠ fc_prod_command c.
Proof. unfold conventions_lookup. destruct kind; repeat case_decide; intros [= <-]; done. Qed.
Lemma conventions_commands d c :
  conventions d = Some c → fc_dev_command c ≠ fc_prod_command c.
Proof.
  unfold conventions. destruct (dr_framework d) as [f|]; [|done]. simpl.
  destruct (conventions_lookup _ f _) as [c0|] eqn:E; [|done]. intros [= <-].
  by apply conventions_differ in E.
Qed.

(** Planning succeeds exactly for a non-zero port and non-zero limits;
    the plan keeps the requested kind, profile, port and limits; a development
    plan has no OCI image, and a production plan has one for every kind but
    Expo. *)
Theorem prepare_spec d profile port hp df limits :
  if decide (port ≠ 0 ∧ limits_valid limits) then
    ∃ c, prepare d profile port hp df limits = Ok c ∧
      cfg_kind c = dr_kind d ∧ cfg_profile c = profile ∧ cfg_port c = port ∧
      cfg_limits c = limits ∧
      (is_Some (cfg_oci_image c) ↔ profile = Production ∧ dr_kind d ≠ Expo)
  else ∃ m, prepare d profile port hp df limits = Err (InvalidRuntime m).
Proof.
  pose proof (validate_spec limits) as Hv. unfold prepare. fold (limits_valid limits) in Hv.
  destruct (decide (port = 0)) as [->|Hp].
  { rewrite decide_False by naive_solver. eauto. }
  unfold limits_valid in *. case_decide as Hl.
  - rewrite decide_True by naive_solver. rewrite Hv. unfold_monad.
    destruct (dr_kind d) eqn:Ek, profile; eexists; (split; [reflexivity|]); simpl;
      split_and!; try done; naive_solver.
  - rewrite decide_False by naive_solver. destruct Hv as [m ->]. unfold_monad. eauto.
Qed.

(** The command a plan runs, by profile. *)
Lemma conv_command_differs d (a : RuntimeAdapter) :
  dev_command a ≠ prod_command a →
  default (dev_command a) (fc_dev_command <$> conventions d) ≠
  default (prod_command a) (fc_prod_command <$> conventions d).
Proof.
  intros Ha. destruct (conventions d) as [c|] eqn:E; simpl; [|done].
  by apply conventions_commands in E.
Qed.

(** Whatever framework was detected, the production command differs
    from the development command for every native runtime, and the two are the
    same for the generic container runtime. *)
Theorem profile_commands_differ d port hp df limits cd cp :
  prepare d Development port hp df limits = Ok cd →
  prepare d Production port hp df limits = Ok cp →
  cfg_run_command cd = cfg_run_command cp ↔ dr_kind d = Generic.
Proof.
  unfold prepare. case_decide; [done|].
  destruct (SandboxLimits_validate limits) as [[]|e]; unfold_monad; [|done].
  intros Hd Hp. destruct (dr_kind d) eqn:Ek; injection Hd as <-; injection Hp as <-; simpl;
    (split; [|done]); intros Heq; try done; exfalso.
  - by apply (conv_command_differs d PythonAdapter).
  - by apply (conv_command_differs d RustAdapter).
  - by apply (conv_command_differs d ExpoAdapter).
Qed.

(** A workload counts as healthy only on an HTTP answer: any 2xx or
    3xx one under the development profile; under the production profile a 2xx
    one that, when the plan names a health path, was given on that path. *)
Theorem evaluate_health_healthy c status path :
  evaluate_health c status path = HsHealthy ↔
  ∃ s, status = Some s ∧
    match cfg_profile c with
    | Development => 200 ≤ s < 400
    | Production =>
        200 ≤ s < 300 ∧ ∀ e, cfg_healthcheck_path c = Some e → path = Some e
    end.
Proof.
  unfold evaluate_health. destruct status as [s|]; [|split; [by case_match|naive_solver]].
  destruct (cfg_profile c).
  - case_decide; naive_solver.
  - case_bool_decide; simpl; [|naive_solver].
    destruct (cfg_healthcheck_path c) as [e|], path as [p|]; simpl;
      try case_bool_decide; naive_solver.
Qed.

Section RuntimeExamples.
Definition fastapi_project : DetectedRuntime :=
  {| dr_kind := Python; dr_tier := Tier3; dr_framework := Some "fastapi";
     dr_prod_entry := Some " main "; dr_migrate_command := []; dr_test_command := [];
     dr_evidence := ["requirements.txt"] |}.
Definition fastapi_plan (p : RuntimeProfile) (command : list string) (oci : option string) :
    RuntimeConfig :=
  {| cfg_kind := Python; cfg_tier := Tier3; cfg_profile := p; cfg_port := 8000;
     cfg_healthcheck_path := Some "/health"; cfg_dockerfile := None;
     cfg_run_command := command; cfg_oci_image := oci; cfg_limits := docker_default |}.
Lemma profile_commands_differ_witness :
  let cd := fastapi_plan Development ["python"; "-m"; "uvicorn"; "main:app"; "--reload"] None in
  let cp := fastapi_plan Production ["python"; "-m"; "uvicorn"; "main:app"]
              (Some "oci://python-app:prod") in
  prepare fastapi_project Development 8000 None None docker_default = Ok cd ∧
  prepare fastapi_project Production 8000 None None docker_default = Ok cp ∧
  cfg_run_command cd ≠ cfg_run_command cp.
Proof.
  intros cd cp.
  assert (Hd : prepare fastapi_project Development 8000 None None docker_default = Ok cd)
    by reflexivity.
  assert (Hp : prepare fastapi_project Production 8000 None None docker_default = Ok cp)
    by reflexivity.
  split; [exact Hd|]. split; [exact Hp|]. intros E.
  apply (profile_commands_differ _ _ _ _ _ _ _ Hd Hp) in E. discriminate E.
Defined.
End RuntimeExamples.
