(* ===== verification/Approval.v ===== *)
(** Explicit human approval (inspector.rs), the gate shared by adoption, secrets,
    domains and rollbacks. *)

From stdpp Require Import base strings.
From S2P Require Import Prelude.

Record ExplicitApproval := {
  approved : bool;
  approver : string;
  proposal_summary : string;
}.
Definition ExplicitApproval_granted (approver proposal_summary : string) : ExplicitApproval :=
  {| approved := true; approver := approver; proposal_summary := proposal_summary |}.
Definition ExplicitApproval_denied (approver proposal_summary : string) : ExplicitApproval :=
  {| approved := false; approver := approver; proposal_summary := proposal_summary |}.

(** The guard [!approval.approved || approval.approver.trim().is_empty()] that
    every gated operation evaluates. *)
Definition approval_missing (a : ExplicitApproval) : bool :=
  negb (approved a) || trim_is_empty (approver a).

(** A granted approval with a name. *)
Definition approval_ok (a : ExplicitApproval) : Prop :=
  approved a = true ∧ trim_is_empty (approver a) = false.
Lemma approval_missing_false a : approval_missing a = false ↔ approval_ok a.
Proof.
  unfold approval_missing, approval_ok. destruct (approved a), (trim_is_empty (approver a));
    simpl; naive_solver.
Qed.
Lemma approval_missing_true a : approval_missing a = true ↔ ¬ approval_ok a.
Proof. rewrite <- approval_missing_false. by destruct (approval_missing a). Qed.
#[global] Instance approval_ok_dec a : Decision (approval_ok a).
Proof. unfold approval_ok. apply _. Defined.
