(* ===== verification/Snapshot.v ===== *)
(** Project snapshots (inspector.rs): the in-memory view of a repository that
    inspection and runtime detection read, with the string operations they use. *)

From stdpp Require Import base option list strings gmap sorting.
From Stdlib Require Import ZArith Lia Ascii String.
From S2P Require Import Prelude.
Local Open Scope string_scope.

(* ------------------------------------------------------------------ *)
(** * String operations *)

Definition map_chars (f : ascii → ascii) : string → string :=
  fix go s := match s with "" => "" | String a s' => String (f a) (go s') end.
Definition lower_char (a : ascii) : ascii :=
  let n := N_of_ascii a in if decide (65 ≤ n ≤ 90)%N then ascii_of_N (n + 32) else a.
Definition upper_char (a : ascii) : ascii :=
  let n := N_of_ascii a in if decide (97 ≤ n ≤ 122)%N then ascii_of_N (n - 32) else a.
Definition to_ascii_lowercase : string → string := map_chars lower_char.
Definition to_ascii_uppercase : string → string := map_chars upper_char.
Definition eq_ignore_ascii_case (s t : string) : bool :=
  bool_decide (to_ascii_lowercase s = to_ascii_lowercase t).

Fixpoint strip_suffix (p s : string) : option string :=
  if decide (s = p) then Some ""
  else match s with "" => None | String a s' => String a <$> strip_suffix p s' end.
Definition ends_with (p s : string) : bool := is_some (strip_suffix p s).

(** [s.rsplit_once(c)]. *)
Fixpoint rsplit_once (c : ascii) (s : string) : option (string * string) :=
  match s with
  | "" => None
  | String a s' =>
      match rsplit_once c s' with
      | Some (before, after) => Some (String a before, after)
      | None => if decide (a = c) then Some ("", s') else None
      end
  end.

(** [s.lines()]: a line ends at a line feed, with the carriage return before it. *)
Definition line_feed : ascii := ascii_of_nat 10.
Definition carriage_return : ascii := ascii_of_nat 13.
Fixpoint str_lines (s : string) : list string :=
  match s with
  | "" => []
  | String a s' =>
      if decide (a = line_feed) then "" :: str_lines s'
      else if decide (a = carriage_return ∧ head (chars s') = Some line_feed) then str_lines s'
      else match str_lines s' with
           | l :: ls => String a l :: ls
           | [] => [String a ""]
           end
  end.

(** [s.split_whitespace()]: the bytes of a white-space character, then the words
    between such characters. *)
Definition ws_len (s : string) : nat :=
  match s with
  | "" => 0
  | String a s1 =>
      if ws1 a then 1
      else match s1 with
           | "" => 0
           | String b s2 =>
               if ws2 a b then 2
               else match s2 with "" => 0 | String c _ => if ws3 a b c then 3 else 0 end
           end
  end.
Fixpoint split_ws (skip : nat) (s : string) : list string :=
  match s with
  | "" => [""]
  | String a s' =>
      match skip with
      | S k => split_ws k s'
      | O => match ws_len s with
             | S k => "" :: split_ws k s'
             | O => match split_ws 0 s' with
                    | w :: ws => String a w :: ws
                    | [] => [String a ""]
                    end
             end
      end
  end.
Definition split_whitespace (s : string) : list string :=
  List.filter (λ w, negb (str_is_empty w)) (split_ws 0 s).

(* ------------------------------------------------------------------ *)
(** * Snapshots *)

Definition normalize_path (path : string) : string :=
  let p := str_replace "\" "/" path in default p (strip_prefix "./" p).
Definition file_name (path : string) : string :=
  match rsplit_once "/" path with Some (_, name) => name | None => path end.

(** [files], iterated in the order of the paths. *)
Definition ProjectSnapshot : Type := gmap string string.
Definition File : Type := string * string.
Definition ProjectSnapshot_new (files : list File) : ProjectSnapshot :=
  foldl (λ m f, <[normalize_path f.1 := f.2]> m) ∅ files.

Section Queries.
Context (self : ProjectSnapshot).
Definition files : list File := btree_entries self.
Definition snapshot_get (path : string) : option string := self !! normalize_path path.
Definition has_file (path : string) : bool := is_some (self !! normalize_path path).
Definition files_with_name (name : string) : list File :=
  List.filter (λ f, bool_decide (file_name f.1 = name)) files.
Definition files_with_extension (extension : string) : list File :=
  List.filter (λ f, ends_with extension f.1) files.
Definition files_named_anywhere (names : list string) : list File :=
  List.filter (λ f, bool_decide (file_name f.1 ∈ names)) files.
Definition has_dir (prefix : string) : bool :=
  existsb (λ f, bool_decide (f.1 = prefix) || starts_with (prefix +:+ "/") f.1) files.
Definition has_dir_anywhere (name : string) : bool :=
  existsb (λ f, bool_decide (f.1 = name) || starts_with (name +:+ "/") f.1
                || str_contains ("/" +:+ name +:+ "/") f.1) files.
Definition any_content_contains (needle : string) : option File :=
  List.find (λ f, str_contains needle f.2) files.
Definition any_content_contains_insensitive (needle : string) : option File :=
  List.find (λ f, str_contains (to_ascii_lowercase needle) (to_ascii_lowercase f.2)) files.
End Queries.

(** [found.sort_by(|a, b| a.0.cmp(b.0))], and the first file after it. *)
Definition sort_files (l : list File) : list File := merge_sort entry_le l.
Definition first_file (l : list File) : option File := head (sort_files l).

(* ------------------------------------------------------------------ *)
(** * Lemmas *)

Lemma elem_of_files s p c : (p, c) ∈ files s ↔ s !! p = Some c.
Proof. apply elem_of_btree_entries. Qed.
Lemma elem_of_sort_files l f : f ∈ sort_files l ↔ f ∈ l.
Proof. unfold sort_files. by rewrite merge_sort_Permutation. Qed.
Lemma first_file_elem l f : first_file l = Some f → f ∈ l.
Proof.
  unfold first_file. intros Hf. apply elem_of_sort_files.
  destruct (sort_files l); [done|]. simplify_eq/=. apply elem_of_cons. by left.
Qed.
Lemma first_file_None l : first_file l = None ↔ l = [].
Proof.
  unfold first_file. split; [|by intros ->]. intros Hn.
  destruct (sort_files l) as [|f k] eqn:E; [|done].
  apply Permutation_nil. rewrite <- E. apply merge_sort_Permutation.
Qed.
(** The first file is the one with the least path. *)
Lemma first_file_least l f g : first_file l = Some f → g ∈ l → String.le f.1 g.1.
Proof.
  unfold first_file, sort_files. intros Hf Hg.
  pose proof (StronglySorted_merge_sort entry_le l) as Hs.
  assert (g ∈ merge_sort entry_le l) as Hg' by by rewrite merge_sort_Permutation.
  destruct (merge_sort entry_le l) as [|h k]; [done|]. simplify_eq/=.
  apply elem_of_cons in Hg' as [->|Hg']; [reflexivity|].
  apply StronglySorted_inv in Hs as [_ Hall]. rewrite Forall_forall in Hall. by apply Hall.
Qed.

Lemma rsplit_once_after c s b a : rsplit_once c s = Some (b, a) → c ∉ chars a.
Proof.
  revert b. induction s as [|x s IH]; intros b; simpl; [done|].
  destruct (rsplit_once c s) as [[b' a']|] eqn:E; [intros [= <- <-]; by eapply IH|].
  case_decide; [|done]. intros [= <- <-]. clear IH. revert E.
  induction s as [|y s IH]; simpl; [by intros _ ?%not_elem_of_nil|].
  destruct (rsplit_once c s) as [[]|]; [done|]. case_decide; [done|]. intros _.
  change (chars (String y s)) with (y :: chars s). rewrite not_elem_of_cons. split; [done|auto].
Qed.
Lemma rsplit_once_None c s : rsplit_once c s = None → c ∉ chars s.
Proof.
  induction s as [|y s IH]; simpl; [by intros _ ?%not_elem_of_nil|].
  destruct (rsplit_once c s) as [[]|]; [done|]. case_decide; [done|]. intros _.
  change (chars (String y s)) with (y :: chars s). rewrite not_elem_of_cons. split; [done|auto].
Qed.
(** A file name contains no slash. *)
Lemma file_name_flat p : "/"%char ∉ chars (file_name p).
Proof.
  unfold file_name. destruct (rsplit_once "/" p) as [[b a]|] eqn:E.
  - by eapply rsplit_once_after.
  - by apply rsplit_once_None.
Qed.
Lemma rsplit_once_spec c s b a : rsplit_once c s = Some (b, a) → s = b +:+ String c a.
Proof.
  revert b. induction s as [|x s IH]; intros b; simpl; [done|].
  destruct (rsplit_once c s) as [[b' a']|] eqn:E.
  - intros [= <- <-]. rewrite str_app_cons. f_equal. by apply IH.
  - case_decide; [|done]. by intros [= <- <-]; subst.
Qed.
