(* ===== verification/Detection.v ===== *)
(** Runtime detection (runtime.rs): what each adapter recognises in a project
    snapshot, and the choice among them. *)

From stdpp Require Import base option list strings gmap.
From Stdlib Require Import ZArith Ascii.
From S2P Require Import Prelude Errors Runtime Snapshot.

(* ------------------------------------------------------------------ *)
(** * Adapters *)

Definition set_prod_entry (entry : option string) (d : DetectedRuntime) : DetectedRuntime :=
  {| dr_kind := dr_kind d; dr_tier := dr_tier d; dr_framework := dr_framework d;
     dr_prod_entry := entry; dr_migrate_command := dr_migrate_command d;
     dr_test_command := dr_test_command d; dr_evidence := dr_evidence d |}.
Definition set_migrate (command : list string) (d : DetectedRuntime) : DetectedRuntime :=
  {| dr_kind := dr_kind d; dr_tier := dr_tier d; dr_framework := dr_framework d;
     dr_prod_entry := dr_prod_entry d; dr_migrate_command := command;
     dr_test_command := dr_test_command d; dr_evidence := dr_evidence d |}.
Definition set_test (command : list string) (d : DetectedRuntime) : DetectedRuntime :=
  {| dr_kind := dr_kind d; dr_tier := dr_tier d; dr_framework := dr_framework d;
     dr_prod_entry := dr_prod_entry d; dr_migrate_command := dr_migrate_command d;
     dr_test_command := command; dr_evidence := dr_evidence d |}.
Definition push_detected (e : string) (d : DetectedRuntime) : DetectedRuntime :=
  {| dr_kind := dr_kind d; dr_tier := dr_tier d; dr_framework := dr_framework d;
     dr_prod_entry := dr_prod_entry d; dr_migrate_command := dr_migrate_command d;
     dr_test_command := dr_test_command d; dr_evidence := dr_evidence d ++ [e] |}.

Section Detect.
Context (snapshot : ProjectSnapshot).

Definition from_line (l : string) : bool :=
  starts_with "FROM " (to_ascii_uppercase (trim_start l)).
Definition has_dockerfile : bool :=
  existsb (λ f, existsb from_line (str_lines f.2))
    (files_named_anywhere snapshot ["Dockerfile"; "dockerfile"]).
Definition dockerfile_path : option string :=
  fst <$> first_file (files_named_anywhere snapshot ["Dockerfile"; "dockerfile"]).
Definition Generic_detect : option DetectedRuntime :=
  path ← dockerfile_path;
  if has_dockerfile then Some (DetectedRuntime_new Generic Tier0 [path]) else None.

Definition Node_detect : option DetectedRuntime :=
  if has_file snapshot "package.json" then
    if negb (is_nil (files_named_anywhere snapshot
                       ["next.config.js"; "next.config.mjs"; "next.config.ts"]))
    then Some (DetectedRuntime_new Node Tier2 ["package.json"; "next.config.*"])
    else Some (DetectedRuntime_new Node Tier1 ["package.json"])
  else None.

Definition has_project : bool :=
  negb (is_nil (files_with_extension snapshot ".csproj"))
  || negb (is_nil (files_with_extension snapshot ".sln")).
Definition DotNet_detect : option DetectedRuntime :=
  if has_project then
    if has_file snapshot "appsettings.json"
       || is_some (any_content_contains_insensitive snapshot "Microsoft.AspNetCore")
    then Some (DetectedRuntime_new DotNet Tier2
                 ["*.csproj"; "appsettings.json|Microsoft.AspNetCore"])
    else Some (DetectedRuntime_new DotNet Tier1 ["*.csproj"])
  else None.

Definition detect_django : option DetectedRuntime :=
  '(settings_path, _) ← first_file (files_named_anywhere snapshot ["settings.py"]);
  '(dir, _) ← rsplit_once "/" settings_path;
  let package := str_replace "/" "." dir in
  if str_is_empty package then None
  else if has_dir_anywhere snapshot "migrations" then
    Some (set_test ["python"; "manage.py"; "test"]
           (set_migrate ["python"; "manage.py"; "migrate"]
             (set_prod_entry (Some package)
               (DetectedRuntime_with_framework Python "django"
                  ["manage.py"; settings_path; "migrations/"]))))
  else None.

Definition has_alembic : bool :=
  has_file snapshot "alembic.ini" || has_dir_anywhere snapshot "alembic".
Definition has_pytest : bool :=
  is_some (any_content_contains_insensitive snapshot "pytest") || has_dir_anywhere snapshot "tests".
Definition detect_fastapi : option DetectedRuntime :=
  '(entry_path, _) ← List.find (λ f, str_contains "FastAPI" f.2)
      (sort_files (files_named_anywhere snapshot ["main.py"; "app.py"]));
  let module := str_replace "/" "." (default entry_path (strip_suffix ".py" entry_path)) in
  let has_uvicorn := is_some (any_content_contains_insensitive snapshot "uvicorn") in
  if has_uvicorn || has_alembic || has_pytest then
    let evidence := ["requirements.txt|pyproject.toml|setup.py"; entry_path]
      ++ (if has_alembic then ["alembic.ini|alembic/"] else []) in
    let detected := set_prod_entry (Some module)
      (DetectedRuntime_with_framework Python "fastapi" evidence) in
    let detected := if has_alembic then set_migrate ["alembic"; "upgrade"; "head"] detected
                    else detected in
    Some (if has_pytest then set_test ["pytest"] detected else detected)
  else None.

(** [if cond { if let Some(x) = found { return Some(x) } } rest]. *)
Definition or_return {A} (cond : bool) (found rest : option A) : option A :=
  if cond then match found with Some x => Some x | None => rest end else rest.

Definition Python_detect : option DetectedRuntime :=
  if has_file snapshot "requirements.txt" || has_file snapshot "pyproject.toml"
     || has_file snapshot "setup.py"
  then
    or_return (has_file snapshot "manage.py") detect_django
      (or_return (is_some (any_content_contains_insensitive snapshot "fastapi")) detect_fastapi
        (if has_file snapshot "manage.py"
            || is_some (any_content_contains_insensitive snapshot "fastapi")
            || is_some (any_content_contains_insensitive snapshot "django")
         then Some (DetectedRuntime_new Python Tier2
                      ["requirements.txt|pyproject.toml|setup.py"; "manage.py|fastapi|django"])
         else Some (DetectedRuntime_new Python Tier1 ["requirements.txt|pyproject.toml|setup.py"])))
  else None.

Definition detect_axum (manifest : string) : DetectedRuntime :=
  let detected := DetectedRuntime_with_framework Rust "axum" ["Cargo.toml:axum"; "src/main.rs"] in
  let detected :=
    if str_contains "sqlx" manifest then
      push_detected "Cargo.toml:sqlx" (set_migrate ["sqlx"; "migrate"; "run"] detected)
    else if str_contains "diesel" manifest || has_file snapshot "diesel.toml" then
      push_detected "Cargo.toml:diesel|diesel.toml"
        (set_migrate ["diesel"; "migration"; "run"] detected)
    else push_detected "migrations/" detected in
  set_test ["cargo"; "test"] detected.
Definition detect_workspace (manifest : string) : DetectedRuntime :=
  set_test ["cargo"; "test"]
    (set_migrate (if str_contains "diesel" manifest then ["diesel"; "migration"; "run"]
                  else ["sqlx"; "migrate"; "run"])
      (DetectedRuntime_with_framework Rust "rust" ["Cargo.toml:[workspace]"; "migrations/"])).
Definition Rust_detect : option DetectedRuntime :=
  manifest ← snapshot_get snapshot "Cargo.toml";
  if str_contains "axum" manifest && has_file snapshot "src/main.rs"
     && (str_contains "sqlx" manifest || str_contains "diesel" manifest
         || has_dir_anywhere snapshot "migrations" || has_file snapshot "diesel.toml")
  then Some (detect_axum manifest)
  else if str_contains "[workspace]" manifest
     && (str_contains "sqlx" manifest || str_contains "diesel" manifest)
     && has_dir_anywhere snapshot "migrations"
  then Some (detect_workspace manifest)
  else if str_contains "axum" manifest || str_contains "actix-web" manifest
     || str_contains "rocket" manifest
  then Some (DetectedRuntime_new Rust Tier2 ["Cargo.toml"; "Cargo.toml:axum|actix-web|rocket"])
  else Some (DetectedRuntime_new Rust Tier1 ["Cargo.toml"]).

Definition Expo_detect : option DetectedRuntime :=
  package ← snapshot_get snapshot "package.json";
  if negb (str_contains "expo" package) || negb (has_file snapshot "app.json") then None
  else if has_dir_anywhere snapshot "app" || has_file snapshot "eas.json" then
    let evidence := ["package.json:expo"; "app.json"]
      ++ (if has_dir_anywhere snapshot "app" then ["app/"] else [])
      ++ (if has_file snapshot "eas.json" then ["eas.json"] else []) in
    let detected := DetectedRuntime_with_framework Expo "expo" evidence in
    Some (if str_contains "jest" package then set_test ["jest"] detected else detected)
  else Some (DetectedRuntime_new Expo Tier1 ["package.json:expo"; "app.json"]).

Definition detect_runtime : result CoreError DetectedRuntime :=
  match Expo_detect with Some found => Ok found | None =>
  match Node_detect with Some found => Ok found | None =>
  match DotNet_detect with Some found => Ok found | None =>
  match Python_detect with Some found => Ok found | None =>
  match Rust_detect with Some found => Ok found | None =>
  match Generic_detect with Some found => Ok found | None =>
    Err (UnsupportedRuntime "no recognized manifest or Dockerfile; runtime unsupported")
  end end end end end end.
End Detect.

(* ------------------------------------------------------------------ *)
(** * Which runtime is chosen *)

Definition python_manifest (s : ProjectSnapshot) : bool :=
  has_file s "requirements.txt" || has_file s "pyproject.toml" || has_file s "setup.py".
Definition expo_app (s : ProjectSnapshot) : bool :=
  match snapshot_get s "package.json" with
  | Some package => str_contains "expo" package && has_file s "app.json"
  | None => false
  end.

(** What each adapter needs to recognise a project, and the kind it answers. *)
Lemma expo_detects s :
  match Expo_detect s with
  | Some d => expo_app s = true ∧ has_file s "package.json" = true ∧ dr_kind d = Expo
  | None => expo_app s = false
  end.
Proof.
  unfold Expo_detect, expo_app, has_file, snapshot_get. unfold_monad. unfold option_bind.
  destruct (s !! normalize_path "package.json") as [package|]; [|done].
  destruct (str_contains "expo" package); [|done].
  destruct (is_some (s !! normalize_path "app.json")); [|done]. simpl.
  destruct (has_dir_anywhere s "app" || _); [|done].
  by destruct (str_contains "jest" package).
Qed.
Lemma node_detects s :
  match Node_detect s with
  | Some d => has_file s "package.json" = true ∧ dr_kind d = Node
  | None => has_file s "package.json" = false
  end.
Proof. unfold Node_detect. destruct (has_file s "package.json"); [|done]. by destruct (negb _). Qed.
Lemma dotnet_detects s :
  match DotNet_detect s with
  | Some d => has_project s = true ∧ dr_kind d = DotNet
  | None => has_project s = false
  end.
Proof. unfold DotNet_detect. destruct (has_project s); [|done]. by destruct (_ || _). Qed.
Lemma django_kind s d : detect_django s = Some d → dr_kind d = Python.
Proof.
  unfold detect_django. unfold mbind, option_bind. intros E.
  repeat (case_match; simplify_eq/=); done.
Qed.
Lemma fastapi_kind s d : detect_fastapi s = Some d → dr_kind d = Python.
Proof.
  unfold detect_fastapi. unfold mbind, option_bind.
  destruct (List.find _ _) as [[p c]|]; [|done].
  destruct (is_some _ || _ || _); [|done]. intros [= <-].
  destruct (has_alembic s), (has_pytest s); done.
Qed.
Lemma python_detects s :
  match Python_detect s with
  | Some d => python_manifest s = true ∧ dr_kind d = Python
  | None => python_manifest s = false
  end.
Proof.
  unfold Python_detect, or_return. fold (python_manifest s).
  destruct (python_manifest s); [|done].
  destruct (detect_django s) as [d|] eqn:Hd, (detect_fastapi s) as [f|] eqn:Hf;
    try apply django_kind in Hd; try apply fastapi_kind in Hf;
    destruct (has_file s "manage.py"), (is_some (any_content_contains_insensitive s "fastapi")),
      (is_some (any_content_contains_insensitive s "django")); done.
Qed.
Lemma rust_detects s :
  match Rust_detect s with
  | Some d => has_file s "Cargo.toml" = true ∧ dr_kind d = Rust
  | None => has_file s "Cargo.toml" = false
  end.
Proof.
  assert (has_file s "Cargo.toml" = is_some (snapshot_get s "Cargo.toml")) as -> by done.
  unfold Rust_detect. unfold mbind, option_bind.
  destruct (snapshot_get s "Cargo.toml") as [m|]; [|done].
  destruct (_ && _ && _); [by unfold detect_axum; repeat destruct (str_contains _ m || _);
    repeat destruct (str_contains _ m)|].
  destruct (_ && _ && _); [done|]. by destruct (_ || _).
Qed.
Lemma generic_detects s :
  match Generic_detect s with
  | Some d => has_dockerfile s = true ∧ dr_kind d = Generic
  | None => has_dockerfile s = false
  end.
Proof.
  unfold Generic_detect, dockerfile_path.
  destruct (first_file _) as [[p c]|] eqn:Hl; simpl; [by destruct (has_dockerfile s)|].
  apply first_file_None in Hl. unfold has_dockerfile. by rewrite Hl.
Qed.

(** Detection never rejects a project by language: it fails exactly
    when there is neither a manifest some adapter knows nor a valid Dockerfile.
    Otherwise the kind is that of the first applicable adapter, in the order
    Expo, Node, .NET, Python, Rust, with the generic container last. *)
Theorem detect_runtime_spec s :
  match detect_runtime s with
  | Ok d =>
      dr_kind d =
        if expo_app s then Expo
        else if has_file s "package.json" then Node
        else if has_project s then DotNet
        else if python_manifest s then Python
        else if has_file s "Cargo.toml" then Rust else Generic
  | Err _ =>
      has_file s "package.json" = false ∧ has_project s = false ∧ python_manifest s = false ∧
      has_file s "Cargo.toml" = false ∧ has_dockerfile s = false
  end.
Proof.
  pose proof (expo_detects s) as He. pose proof (node_detects s) as Hn.
  pose proof (dotnet_detects s) as Hd. pose proof (python_detects s) as Hp.
  pose proof (rust_detects s) as Hr. pose proof (generic_detects s) as Hg.
  unfold detect_runtime.
  destruct (Expo_detect s) as [d|]; [by destruct He as (-> & _ & ->)|]. rewrite He.
  destruct (Node_detect s) as [d|]; [by destruct Hn as [-> ->]|]. rewrite Hn.
  destruct (DotNet_detect s) as [d|]; [by destruct Hd as [-> ->]|]. rewrite Hd.
  destruct (Python_detect s) as [d|]; [by destruct Hp as [-> ->]|]. rewrite Hp.
  destruct (Rust_detect s) as [d|]; [by destruct Hr as [-> ->]|]. rewrite Hr.
  by destruct (Generic_detect s) as [d|]; [destruct Hg|].
Qed.

(* ------------------------------------------------------------------ *)
(** * Deep layouts *)

(** A printable ASCII character, which no trimming removes. *)
Definition visible (a : ascii) : Prop := (byte_of a < 128)%N ∧ ws1 a = false.

Lemma ws2_high a b : ws2 a b = true → (128 ≤ byte_of a)%N ∧ (128 ≤ byte_of b)%N.
Proof.
  unfold ws2, in_range. rewrite !andb_true_iff, !orb_true_iff, !N.eqb_eq. lia.
Qed.
Lemma ws3_high a b c :
  ws3 a b c = true → (128 ≤ byte_of a)%N ∧ (128 ≤ byte_of b)%N ∧ (128 ≤ byte_of c)%N.
Proof.
  unfold ws3, in_range.
  rewrite !orb_true_iff, !andb_true_iff, !orb_true_iff, !andb_true_iff, !N.eqb_eq, !N.leb_le. lia.
Qed.
Lemma chars_cons a s : chars (String.String a s) = a :: chars s.
Proof. done. Qed.

Lemma trim_start_visible a s :
  visible a → a ∈ chars s → trim_is_empty s = false ∧ a ∈ chars (trim_start s).
Proof.
  intros [Hlow Hws]. induction s as [s IH] using (induction_ltof1 _ String.length).
  destruct s as [|x s1]; [by intros ?%not_elem_of_nil|]. intros Ha. simpl.
  rewrite chars_cons, elem_of_cons in Ha. destruct (ws1 x) eqn:Hx.
  { destruct Ha as [->|Ha]; [congruence|]. apply IH; [unfold ltof; simpl; lia|done]. }
  destruct s1 as [|y s2]; [rewrite chars_cons; split; [done|]; apply elem_of_cons; naive_solver|].
  destruct (ws2 x y) eqn:Hxy.
  { apply ws2_high in Hxy as [? ?]. rewrite chars_cons, elem_of_cons in Ha.
    destruct Ha as [->|[->|Ha]]; [lia..|]. apply IH; [unfold ltof; simpl; lia|done]. }
  destruct s2 as [|z s3]; [rewrite !chars_cons in *; split; [done|]; rewrite !elem_of_cons in *; naive_solver|].
  destruct (ws3 x y z) eqn:Hxyz.
  { apply ws3_high in Hxyz as (? & ? & ?). rewrite !chars_cons, !elem_of_cons in Ha.
    destruct Ha as [->|[->|[->|Ha]]]; [lia..|]. apply IH; [unfold ltof; simpl; lia|done]. }
  split; [done|]. rewrite !chars_cons, !elem_of_cons in *. naive_solver.
Qed.
Lemma trim_end_visible a s : visible a → a ∈ chars s → a ∈ chars (trim_end s).
Proof.
  intros Hv. induction s as [|x s IH]; [done|]. intros Ha.
  change (trim_end (String.String x s)) with
    (if trim_is_empty (String.String x s) then "" else String.String x (trim_end s)).
  rewrite (proj1 (trim_start_visible a _ Hv Ha)). rewrite chars_cons, elem_of_cons in *. naive_solver.
Qed.
Lemma trim_visible a s : visible a → a ∈ chars s → trim s ≠ "".
Proof.
  intros Hv Ha He. apply (trim_start_visible a s Hv), proj2, (trim_end_visible a) in Ha; [|done].
  unfold trim in He. rewrite He in Ha. by apply not_elem_of_nil in Ha.
Qed.

(** Replacing slashes by dots keeps every other character. *)
Lemma dots_keep a s : a ≠ "/"%char → a ∈ chars s → a ∈ chars (str_replace "/" "." s).
Proof.
  intros Hne. unfold str_replace. induction s as [|x s IH]; [done|]. intros Ha.
  rewrite chars_cons, elem_of_cons in Ha. cbn [replace_from]. rewrite starts_with_cons.
  destruct (Ascii.eqb_spec "/" x) as [<-|Hx]; simpl; apply elem_of_cons;
    (destruct Ha as [->|Ha]; [naive_solver|right; by apply IH]).
Qed.
Lemma strip_suffix_spec p s r : strip_suffix p s = Some r → s = r +:+ p.
Proof.
  revert r. induction s as [|x s IH]; intros r; simpl; case_decide; try (by intros [= <-]; subst).
  destruct (strip_suffix p s) as [r'|]; [|done]. intros [= <-]. rewrite str_app_cons. f_equal. auto.
Qed.

(** A path that names one of the entry files leaves a module name. *)
Lemma entry_module path :
  file_name path ∈ ["main.py"; "app.py"] →
  trim (str_replace "/" "." (default path (strip_suffix ".py" path))) ≠ "".
Proof.
  intros Hf.
  assert (∃ stem, (stem = "main" ∨ stem = "app") ∧
    (path = stem +:+ ".py" ∨ ∃ dir, path = dir +:+ "/" +:+ stem +:+ ".py")) as (stem & Hstem & Hpath).
  { unfold file_name in Hf. destruct (rsplit_once "/" path) as [[b a]|] eqn:E.
    - apply rsplit_once_spec in E. rewrite !elem_of_cons, elem_of_nil in Hf.
      destruct Hf as [->|[->|[]]]; [exists "main"|exists "app"]; eauto.
    - rewrite !elem_of_cons, elem_of_nil in Hf.
      destruct Hf as [->|[->|[]]]; [exists "main"|exists "app"]; eauto. }
  assert (∃ q, path = q +:+ ".py" ∧ "a"%char ∈ chars q) as (q & -> & Hq).
  { assert ("a"%char ∈ chars stem) as Ha by (destruct Hstem as [-> | ->]; apply (bool_decide_unpack _); vm_compute; exact I).
    destruct Hpath as [->|[dir ->]]; [by exists stem|]. exists (dir +:+ "/" +:+ stem).
    rewrite !str_app_assoc. split; [done|]. rewrite !chars_app, !elem_of_app. auto. }
  assert ("a"%char ∈ chars (default (q +:+ ".py") (strip_suffix ".py" (q +:+ ".py")))) as Ha.
  { destruct (strip_suffix ".py" (q +:+ ".py")) as [r|] eqn:E; simpl.
    - apply strip_suffix_spec in E. apply (f_equal chars) in E. rewrite !chars_app in E.
      apply app_inv_tail in E. by rewrite <- E.
    - rewrite chars_app, elem_of_app. auto. }
  apply (trim_visible "a"); [split; vm_compute; reflexivity|]. by apply dots_keep.
Qed.

(** The framework of a deep layout and its production entry. *)
Definition resolved (d : DetectedRuntime) : Prop :=
  dr_tier d = Tier3 ∧
  (dr_kind d = Python ∧ dr_framework d = Some "django" ∧ is_Some (dr_prod_entry d) ∨
   dr_kind d = Python ∧ dr_framework d = Some "fastapi" ∧
     (∃ entry, dr_prod_entry d = Some entry ∧ trim entry ≠ "") ∨
   dr_kind d = Rust ∧ (dr_framework d = Some "axum" ∨ dr_framework d = Some "rust") ∨
   dr_kind d = Expo ∧ dr_framework d = Some "expo").
Definition plain (d : DetectedRuntime) : Prop := dr_tier d ≠ Tier3 ∧ dr_framework d = None.

Lemma django_resolved s d : detect_django s = Some d → resolved d.
Proof.
  unfold detect_django. unfold mbind, option_bind. intros E.
  destruct (first_file _) as [[p c]|]; [|done]. destruct (rsplit_once _ p) as [[dir n]|]; [|done].
  destruct (str_is_empty _); [done|]. destruct (has_dir_anywhere _ _); [|done]. injection E as <-.
  split; [done|]. left. by eauto.
Qed.
Lemma fastapi_resolved s d : detect_fastapi s = Some d → resolved d.
Proof.
  unfold detect_fastapi. unfold mbind, option_bind.
  destruct (List.find _ _) as [[p c]|] eqn:Ef; [|done].
  apply find_Some_elem in Ef as [Hin _]. rewrite elem_of_sort_files in Hin.
  unfold files_named_anywhere in Hin. apply elem_of_lfilter in Hin as [_ Hn%bool_decide_eq_true].
  destruct (is_some _ || _ || _); [|done]. intros [= <-].
  assert (∀ d, dr_tier d = Tier3 → dr_kind d = Python → dr_framework d = Some "fastapi" →
    dr_prod_entry d = Some (str_replace "/" "." (default p (strip_suffix ".py" p))) → resolved d) as Hr.
  { intros ? ? ? ? ?. split; [done|]. right; left. split_and!; [done..|]. eexists. split; [done|].
    by apply entry_module. }
  destruct (has_alembic s), (has_pytest s); by apply Hr.
Qed.

Lemma adapters_resolved s d :
  Some d ∈ [Expo_detect s; Node_detect s; DotNet_detect s; Python_detect s; Rust_detect s;
            Generic_detect s] → resolved d ∨ plain d.
Proof.
  rewrite !elem_of_cons, elem_of_nil. intros [E|[E|[E|[E|[E|[E|[]]]]]]]; symmetry in E.
  - unfold Expo_detect in E. destruct (snapshot_get s _) as [pkg|]; [|done]. simpl in E.
    destruct (_ || _); [done|]. destruct (_ || _); injection E as <-; [|by right].
    left. by destruct (str_contains "jest" pkg); (split; [done|]); auto.
  - unfold Node_detect in E. destruct (has_file s _); [|done]. right.
    by destruct (negb _); injection E as <-.
  - unfold DotNet_detect in E. destruct (has_project s); [|done]. right.
    by destruct (_ || _); injection E as <-.
  - unfold Python_detect, or_return in E. destruct (_ || _ || _); [|done].
    destruct (detect_django s) as [dj|] eqn:Hd, (detect_fastapi s) as [fa|] eqn:Hf;
      try apply django_resolved in Hd; try apply fastapi_resolved in Hf;
      destruct (has_file s "manage.py"), (is_some (any_content_contains_insensitive s "fastapi")),
        (is_some (any_content_contains_insensitive s "django"));
      injection E as <-; first [by left|by right].
  - unfold Rust_detect in E. destruct (snapshot_get s _) as [m|]; [|done]. simpl in E.
    destruct (_ && _ && _); [injection E as <-; left|].
    { unfold detect_axum. destruct (str_contains "sqlx" m); [|destruct (str_contains "diesel" m || _)];
        (split; [done|]); auto 6. }
    destruct (_ && _ && _); [injection E as <-; left; split; [done|]; auto 6|].
    right. by destruct (_ || _); injection E as <-.
  - unfold Generic_detect in E. destruct (dockerfile_path s) as [p|]; [|done]. simpl in E.
    destruct (has_dockerfile s); [|done]. right. by injection E as <-.
Qed.
Lemma detect_resolved s d : detect_runtime s = Ok d → resolved d ∨ plain d.
Proof.
  intros E. apply (adapters_resolved s). unfold detect_runtime in E. rewrite !elem_of_cons.
  destruct (Expo_detect s); [naive_solver|]. destruct (Node_detect s); [naive_solver|].
  destruct (DotNet_detect s); [naive_solver|]. destruct (Python_detect s); [naive_solver|].
  destruct (Rust_detect s); [naive_solver|]. destruct (Generic_detect s); naive_solver.
Qed.

(** A deep layout (Tier 3) is reported only with a framework whose
    conventions resolve, so planning uses the framework's own commands and the
    migration and test runners that were found; without one no convention is
    invented.  The one exception is a Django package directory with a blank
    name. *)
Theorem deep_layout_resolves s d :
  detect_runtime s = Ok d →
  (dr_tier d = Tier3 →
     (∃ c, conventions d = Some c ∧ fc_migrate_command c = dr_migrate_command d ∧
        fc_test_command c = dr_test_command d) ∨
     dr_framework d = Some "django" ∧ trim (default "" (dr_prod_entry d)) = "") ∧
  (dr_tier d ≠ Tier3 → conventions d = None).
Proof.
  intros [[Ht Hr]|[Ht Hr]]%detect_resolved.
  2: { split; [done|]. intros _. unfold conventions. by rewrite Hr. }
  split; [|done]. intros _. unfold conventions, conventions_lookup.
  destruct Hr as [(Hk & Hf & [e He])|[(Hk & Hf & e & He & Hne)|[(Hk & [Hf|Hf])|(Hk & Hf)]]];
    rewrite Hk, Hf; simpl; [| |by left; eexists..].
  - rewrite He. simpl. destruct (decide (trim e = "")) as [He'|He']; [by right|left].
    rewrite decide_True by done. by eexists.
  - left. rewrite He. simpl. rewrite decide_True by done. by eexists.
Qed.

Module DetectionExamples.
Definition shop : ProjectSnapshot := ProjectSnapshot_new
  [("./requirements.txt", "fastapi==0.110"); ("src\main.py", "app = FastAPI()"); ("tests/test_a.py", "")].
Definition detected : DetectedRuntime :=
  match detect_runtime shop with Ok d => d | Err _ => DetectedRuntime_new Generic Tier0 [] end.
Lemma deep_layout_resolves_witness :
  detect_runtime shop = Ok detected ∧ dr_prod_entry detected = Some "src.main" ∧
  ∃ c, conventions detected = Some c ∧ fc_test_command c = ["pytest"].
Proof.
  assert (detect_runtime shop = Ok detected) as E by (vm_compute; reflexivity).
  split; [exact E|]. split; [vm_compute; reflexivity|].
  destruct (deep_layout_resolves shop detected E) as [H _].
  destruct (H ltac:(vm_compute; reflexivity)) as [(c & Hc & _ & Ht)|[_ Hb]].
  - exists c. split; [exact Hc|]. rewrite Ht. vm_compute. reflexivity.
  - vm_compute in Hb. discriminate Hb.
Defined.
End DetectionExamples.
