(* ===== verification/Inspector.v ===== *)
(** Project inspection and adoption planning (inspector.rs). *)

From stdpp Require Import base option list strings gmap sorting.
From Stdlib Require Import ZArith Lia Ascii SpecFloat.
From S2P Require Import Prelude Errors Approval Snapshot.

(* ------------------------------------------------------------------ *)
(** * Confidences

    An [f32] is an IEEE 754 value; the inspector only compares and clamps them.
    A literal is the nearest binary32 value. *)

Abbreviation f32 := spec_float.
Definition f32_0 : f32 := S754_zero false.
Definition f32_1 : f32 := S754_finite false 8388608 (-23).
Definition f32_0_95 : f32 := S754_finite false 15938355 (-24).
Definition f32_0_9 : f32 := S754_finite false 15099494 (-24).
Definition f32_0_85 : f32 := S754_finite false 14260634 (-24).
Definition f32_0_8 : f32 := S754_finite false 13421773 (-24).
Definition f32_0_7 : f32 := S754_finite false 11744051 (-24).
Definition f32_0_6 : f32 := S754_finite false 10066330 (-24).
Definition f32_0_5 : f32 := S754_finite false 8388608 (-24).
Definition f32_0_3 : f32 := S754_finite false 10066330 (-25).
(** [x.clamp(0.0, 1.0)] keeps a NaN. *)
Definition clamp01 (x : f32) : f32 :=
  let x := if SFltb x f32_0 then f32_0 else x in
  if SFltb f32_1 x then f32_1 else x.

(* ------------------------------------------------------------------ *)
(** * Data *)

Definition INSPECTION_ORDER : list string :=
  ["dockerfile"; "compose"; "manifest"; "framework_convention"; "configuration"; "ci"; "source"].
Definition stage_order (stage : string) : nat :=
  default (length INSPECTION_ORDER) (fst <$> list_find (λ s, s = stage) INSPECTION_ORDER).

Record Evidence := mkEvidence {
  ev_source : string;
  ev_stage : string;
  ev_detail : string;
  ev_confidence : f32;
}.
Definition Evidence_new (source stage detail : string) (confidence : f32) : Evidence :=
  mkEvidence source stage detail (clamp01 confidence).
Record Unknown := mkUnknown {
  un_field : string;
  un_reason : string;
  un_evidence_considered : list string;
}.
Record Fact := mkFact { fact_name : string; fact_value : string; fact_evidence : Evidence }.

Record ApplicationProfile := mkProfile {
  container_compatible : bool;
  language : option string;
  framework : option string;
  facts : list Fact;
  unknowns : list Unknown;
  evidence : list Evidence;
}.
Definition profile_fact (self : ApplicationProfile) (name : string) : option Fact :=
  List.find (λ f, bool_decide (fact_name f = name)) (facts self).
Definition is_unknown (self : ApplicationProfile) (field : string) : bool :=
  existsb (λ u, bool_decide (un_field u = field)) (unknowns self).

Record PluginFinding := mkFinding {
  pf_field : string;
  pf_value : string;
  pf_evidence : Evidence;
  pf_confidence : f32;
}.
Definition PluginFinding_new (field value : string) (e : Evidence) (confidence : f32) : PluginFinding :=
  mkFinding field value e (clamp01 confidence).
(** The trait. *)
Record InspectorPlugin := {
  ip_name : string;
  ip_detect : ProjectSnapshot → list PluginFinding;
}.
Definition Inspector : Type := list InspectorPlugin.
Definition Inspector_register (plugin : InspectorPlugin) (self : Inspector) : Inspector :=
  self ++ [plugin].
Definition plugin_names (self : Inspector) : list string := map ip_name self.

(* ------------------------------------------------------------------ *)
(** * The builder *)

Record FieldState := mkField {
  fs_value : option string;
  fs_confidence : f32;
  fs_evidence : option Evidence;
  fs_candidates : list (string * Evidence * f32);
}.
Definition FieldState_default : FieldState := mkField None f32_0 None [].
Record ProfileBuilder := mkBuilder {
  pb_container : bool;
  pb_language : FieldState;
  pb_framework : FieldState;
  pb_facts : list Fact;
  pb_unknowns : list Unknown;
  pb_evidence : list Evidence;
}.
Definition ProfileBuilder_default : ProfileBuilder :=
  mkBuilder false FieldState_default FieldState_default [] [] [].

(** A field by its name: everything but [language] is the framework. *)
Definition field (name : string) (b : ProfileBuilder) : FieldState :=
  if decide (name = "language") then pb_language b else pb_framework b.
Definition on_field (name : string) (f : FieldState → FieldState) (b : ProfileBuilder) :
    ProfileBuilder :=
  if decide (name = "language")
  then mkBuilder (pb_container b) (f (pb_language b)) (pb_framework b) (pb_facts b)
         (pb_unknowns b) (pb_evidence b)
  else mkBuilder (pb_container b) (pb_language b) (f (pb_framework b)) (pb_facts b)
         (pb_unknowns b) (pb_evidence b).
Definition push_evidence (e : Evidence) (b : ProfileBuilder) : ProfileBuilder :=
  mkBuilder (pb_container b) (pb_language b) (pb_framework b) (pb_facts b) (pb_unknowns b)
    (pb_evidence b ++ [e]).
Definition push_unknown (u : Unknown) (b : ProfileBuilder) : ProfileBuilder :=
  mkBuilder (pb_container b) (pb_language b) (pb_framework b) (pb_facts b)
    (pb_unknowns b ++ [u]) (pb_evidence b).
Definition push_fact (name value : string) (e : Evidence) (b : ProfileBuilder) : ProfileBuilder :=
  let b := push_evidence e b in
  mkBuilder (pb_container b) (pb_language b) (pb_framework b)
    (pb_facts b ++ [mkFact name value e]) (pb_unknowns b) (pb_evidence b).
Definition push_candidate (c : string * Evidence * f32) (st : FieldState) : FieldState :=
  mkField (fs_value st) (fs_confidence st) (fs_evidence st) (fs_candidates st ++ [c]).
Definition clear_value (st : FieldState) : FieldState :=
  mkField None (fs_confidence st) (fs_evidence st) (fs_candidates st).
Definition set_field (name value : string) (e : Evidence) (confidence : f32) (b : ProfileBuilder) :
    ProfileBuilder :=
  push_evidence e (on_field name (λ st,
    match fs_value st with
    | None => mkField (Some value) confidence (Some e) (fs_candidates st)
    | Some _ => push_candidate (value, e, confidence) st
    end) b).

(** A rival value at least as confident as the current one. *)
Definition conflict (current : string) (st : FieldState) : option (string * Evidence * f32) :=
  List.find (λ c, negb (eq_ignore_ascii_case c.1.1 current) && SFleb (fs_confidence st) c.2)
    (fs_candidates st).
Definition finish_field (name : string) (b : ProfileBuilder) : ProfileBuilder :=
  let st := field name b in
  match fs_value st with
  | None => b
  | Some current =>
      match conflict current st with
      | None => b
      | Some (other, _, _) =>
          let considered := default "" (ev_source <$> fs_evidence st)
            :: map (λ c, ev_source c.1.2) (fs_candidates st) in
          on_field name clear_value (push_unknown
            (mkUnknown name ("conflicting evidence: '" +:+ current +:+ "' vs '" +:+ other
               +:+ "'; recorded as unknown rather than inventing a value") considered) b)
      end
  end.
Definition finish_deterministic (b : ProfileBuilder) : ProfileBuilder :=
  finish_field "framework" (finish_field "language" b).

Definition has_unknown (name : string) (b : ProfileBuilder) : bool :=
  existsb (λ u, bool_decide (un_field u = name)) (pb_unknowns b).
Definition build_field (name : string) (b : ProfileBuilder) : ProfileBuilder :=
  let st := field name b in
  if negb (is_some (fs_value st)) && negb (has_unknown name b) then
    push_unknown (mkUnknown name
      "no recognized evidence; recorded as unknown rather than inventing a value"
      (map (λ c, ev_source c.1.2) (fs_candidates st))) b
  else b.
Definition build (b : ProfileBuilder) : ApplicationProfile :=
  let b := build_field "framework" (build_field "language" b) in
  mkProfile (pb_container b) (fs_value (pb_language b)) (fs_value (pb_framework b)) (pb_facts b)
    (pb_unknowns b) (pb_evidence b).

(* ------------------------------------------------------------------ *)
(** * Detectors *)

Section Detectors.
Context (snapshot : ProjectSnapshot).

(** ** Dockerfile and compose *)

(** The image of a [FROM] line. *)
Definition from_image (line : string) : option string :=
  let t := trim line in
  if starts_with "FROM " (to_ascii_uppercase t) then split_whitespace t !! 1%nat else None.
Definition base_language (lower : string) : option (string * string) :=
  if str_contains "node:" lower || bool_decide (lower = "node") || starts_with "node-" lower
     || str_contains "/node" lower
  then Some ("node", "Node")
  else if str_contains "dotnet" lower || str_contains "mcr.microsoft.com" lower
  then Some ("dotnet", ".NET")
  else if str_contains "python" lower then Some ("python", "Python")
  else if str_contains "rust" lower then Some ("rust", "Rust")
  else None.
Definition detect_docker (b : ProfileBuilder) : ProfileBuilder :=
  match first_file (files_with_name snapshot "Dockerfile") with
  | None => b
  | Some (path, content) =>
      let b := mkBuilder true (pb_language b) (pb_framework b) (pb_facts b) (pb_unknowns b)
                 (pb_evidence b) in
      let first_image := default "" (head (omap from_image (str_lines content))) in
      let ev detail confidence := Evidence_new path "dockerfile" detail confidence in
      let b := push_evidence (ev ("Dockerfile present (base: " +:+ first_image +:+ ")") f32_1) b in
      match base_language (to_ascii_lowercase first_image) with
      | Some (value, shown) =>
          set_field "language" value
            (ev ("base image suggests " +:+ shown +:+ " (" +:+ first_image +:+ ")") f32_0_9) f32_0_9 b
      | None =>
          push_unknown (mkUnknown "docker_base_language"
            ("unrecognized base image '" +:+ first_image +:+ "'; language stays to later stages")
            [path]) b
      end
  end.

Definition detect_compose (b : ProfileBuilder) : ProfileBuilder :=
  match first_file (files_named_anywhere snapshot
          ["docker-compose.yml"; "docker-compose.yaml"; "compose.yml"; "compose.yaml"]) with
  | Some (path, _) =>
      push_fact "compose" "present" (Evidence_new path "compose" "compose file present" f32_1) b
  | None => b
  end.

(** ** Manifests *)

Record ManifestHit := mkHit {
  mh_language : string;
  mh_confidence : f32;
  mh_detail : string;
  mh_source : string;
  mh_framework : option (string * f32 * string);
}.
Definition apply_manifest_hit (hit : ManifestHit) (stage : string) (b : ProfileBuilder) :
    ProfileBuilder :=
  let b := set_field "language" (mh_language hit)
    (Evidence_new (mh_source hit) stage (mh_detail hit) (mh_confidence hit)) (mh_confidence hit) b in
  match mh_framework hit with
  | Some (fw, confidence, detail) =>
      set_field "framework" fw (Evidence_new (mh_source hit) stage detail confidence) confidence b
  | None => b
  end.
Definition quoted (s : string) : string :=
  let q := String.String (ascii_of_nat 34) "" in q +:+ s +:+ q.
Definition detect_node_framework (content : string) : option (string * f32 * string) :=
  if str_contains (quoted "next") content || str_contains "'next'" content
  then Some ("next.js", f32_0_9, "next dependency in package.json")
  else if str_contains "@nestjs/core" content
  then Some ("nestjs", f32_0_9, "nestjs dependency in package.json")
  else if str_contains (quoted "expo") content
  then Some ("expo", f32_0_9, "expo dependency in package.json")
  else if str_contains (quoted "express") content
  then Some ("express", f32_0_9, "express dependency in package.json")
  else if str_contains (quoted "react") content
  then Some ("react", f32_0_7, "react dependency in package.json")
  else None.
Definition dotnet_framework (content : string) (has_sln : bool) : option (string * f32 * string) :=
  if str_contains "Microsoft.NET.Sdk.Web" content
  then Some ("aspnetcore", f32_0_9, "Web SDK in project file")
  else if str_contains "Microsoft.NET.Sdk" content || has_sln
  then Some ("dotnet-sdk", f32_0_7, ".NET SDK project layout")
  else None.
Definition python_framework (lower : string) : option (string * f32 * string) :=
  if str_contains "django" lower then Some ("django", f32_0_9, "django dependency declared")
  else if str_contains "fastapi" lower then Some ("fastapi", f32_0_9, "fastapi dependency declared")
  else if str_contains "flask" lower then Some ("flask", f32_0_9, "flask dependency declared")
  else None.
Definition rust_framework (lower : string) : option (string * f32 * string) :=
  if str_contains "axum" lower then Some ("axum", f32_0_9, "axum dependency declared")
  else if str_contains "actix-web" lower
  then Some ("actix-web", f32_0_9, "actix-web dependency declared")
  else if str_contains "rocket" lower then Some ("rocket", f32_0_9, "rocket dependency declared")
  else None.

Definition node_hit : option ManifestHit :=
  (λ f : File, mkHit "node" f32_1 "package.json manifest present" f.1 (detect_node_framework f.2))
    <$> first_file (files_with_name snapshot "package.json").
Definition dotnet_hit : option ManifestHit :=
  let csproj := first_file (files_with_extension snapshot ".csproj") in
  let sln := files_with_extension snapshot ".sln" in
  let global := files_with_name snapshot "global.json" in
  let found := match csproj with
    | Some f => Some f
    | None => match head sln with Some f => Some f | None => head global end
    end in
  (λ f : File, mkHit "dotnet" f32_1 (file_name f.1 +:+ " manifest present") f.1
                 (dotnet_framework f.2 (negb (is_nil sln)))) <$> found.
Definition python_hit : option ManifestHit :=
  (λ f : File, mkHit "python" f32_1 (file_name f.1 +:+ " manifest present") f.1
                 (python_framework (to_ascii_lowercase f.2)))
    <$> first_file (["requirements.txt"; "pyproject.toml"; "setup.py"; "setup.cfg"; "Pipfile";
                     "poetry.lock"] ≫= files_with_name snapshot).
Definition cargo_hit : option ManifestHit :=
  (λ f : File, mkHit "rust" f32_1 "Cargo.toml manifest present" f.1
                 (rust_framework (to_ascii_lowercase f.2)))
    <$> first_file (files_with_name snapshot "Cargo.toml").
Definition apply_hit (hit : option ManifestHit) (b : ProfileBuilder) : ProfileBuilder :=
  match hit with Some hit => apply_manifest_hit hit "manifest" b | None => b end.
Definition detect_manifests (b : ProfileBuilder) : ProfileBuilder :=
  let b := apply_hit cargo_hit (apply_hit python_hit (apply_hit dotnet_hit (apply_hit node_hit b))) in
  if has_dir snapshot ".git" || has_file snapshot ".git/config" || has_file snapshot ".git/HEAD"
  then push_fact "git" "present" (Evidence_new ".git" "manifest" "git metadata present" f32_1) b
  else b.

(** ** Framework conventions *)

Definition conventions_table : list (list string * string * string * f32 * string) :=
  [(["next.config.js"; "next.config.mjs"; "next.config.ts"], "framework", "next.js", f32_0_8,
      "Next.js config convention");
   (["manage.py"], "framework", "django", f32_0_8, "Django manage.py convention");
   (["Program.cs"; "Startup.cs"], "framework", "aspnetcore", f32_0_6,
      "ASP.NET Core entrypoint convention");
   (["main.py"; "app.py"], "framework", "fastapi", f32_0_5, "Python app entrypoint convention");
   (["src/main.rs"], "language", "rust", f32_0_6, "Rust binary entrypoint convention")].
Definition apply_convention (b : ProfileBuilder)
    (row : list string * string * string * f32 * string) : ProfileBuilder :=
  let '(names, name, value, confidence, detail) := row in
  match first_file (files_named_anywhere snapshot names) with
  | Some (path, _) =>
      let e := Evidence_new path "framework_convention" detail confidence in
      if SFltb (fs_confidence (field name b)) confidence then set_field name value e confidence b
      else push_evidence e b
  | None => b
  end.
Definition detect_framework_conventions (b : ProfileBuilder) : ProfileBuilder :=
  foldl apply_convention b conventions_table.

Definition convention (source detail : string) (confidence : f32) : Evidence :=
  Evidence_new source "framework_convention" detail confidence.
Definition when (cond : bool) (f : ProfileBuilder → ProfileBuilder) (b : ProfileBuilder) :
    ProfileBuilder := if cond then f b else b.

Definition deep_django (b : ProfileBuilder) : ProfileBuilder :=
  let settings := files_named_anywhere snapshot ["settings.py"] in
  let b := match first_file settings with
    | Some (path, _) =>
        set_field "framework" "django"
          (convention path "Django settings module discovered" f32_0_85) f32_0_85 b
    | None => b
    end in
  when (has_file snapshot "manage.py") (λ b,
    let b := when (negb (is_nil settings) && has_dir_anywhere snapshot "migrations")
      (set_field "framework" "django" (convention "manage.py"
         "Django layout fully resolved (manage.py, settings, migrations)" f32_0_95) f32_0_95) b in
    push_fact "test_runner" "manage.py test"
      (convention "manage.py" "Django test runner convention" f32_0_8)
      (push_fact "migration_runner" "manage.py migrate"
         (convention "manage.py" "Django migration runner convention" f32_0_9) b)) b.
Definition deep_fastapi (b : ProfileBuilder) : ProfileBuilder :=
  let entries := sort_files (files_named_anywhere snapshot ["main.py"; "app.py"]) in
  let b := match List.find (λ f, str_contains "FastAPI" f.2) entries with
    | Some (path, _) =>
        set_field "framework" "fastapi"
          (convention path "FastAPI application entry discovered" f32_0_85) f32_0_85 b
    | None => b
    end in
  let b := when (has_file snapshot "alembic.ini" || has_dir_anywhere snapshot "alembic")
    (push_fact "migration_runner" "alembic upgrade head"
       (convention "alembic.ini" "Alembic migration runner convention" f32_0_9)) b in
  when (has_file snapshot "pytest.ini" || has_dir_anywhere snapshot "tests"
        || is_some (any_content_contains_insensitive snapshot "pytest"))
    (push_fact "test_runner" "pytest" (convention "pytest" "pytest test runner convention" f32_0_8)) b.
Definition deep_axum (b : ProfileBuilder) : ProfileBuilder :=
  let mains := sort_files (files_with_name snapshot "main.rs") in
  let b := match List.find (λ f, str_contains "axum" f.2) mains with
    | Some (path, _) =>
        set_field "framework" "axum"
          (convention path "Axum application entry discovered" f32_0_85) f32_0_85 b
    | None => b
    end in
  let cargo := default "" (snapshot_get snapshot "Cargo.toml") in
  let b :=
    if str_contains "sqlx" cargo then
      push_fact "migration_runner" "sqlx migrate run"
        (convention "Cargo.toml" "sqlx migration runner convention" f32_0_9) b
    else if str_contains "diesel" cargo || has_file snapshot "diesel.toml" then
      push_fact "migration_runner" "diesel migration run"
        (convention "Cargo.toml" "diesel migration runner convention" f32_0_9) b
    else when (has_dir_anywhere snapshot "migrations" && has_file snapshot "Cargo.toml")
      (push_fact "migration_runner" "cargo migration runner (unresolved tool)"
         (convention "migrations/" "migrations layout without a resolved tool" f32_0_6)) b in
  when (has_file snapshot "Cargo.toml" && str_contains "[workspace]" cargo)
    (push_fact "workspace" "cargo workspace" (convention "Cargo.toml" "Cargo workspace layout" f32_0_9)) b.
Definition deep_expo (b : ProfileBuilder) : ProfileBuilder :=
  let b := when (has_file snapshot "eas.json")
    (push_fact "build_profile" "eas"
       (convention "eas.json" "Expo Application Services build profiles" f32_0_9)) b in
  when (has_dir_anywhere snapshot "app" && has_file snapshot "app.json")
    (set_field "framework" "expo" (convention "app/" "Expo file-based routing discovered" f32_0_85)
       f32_0_85) b.
Definition detect_deep_framework_conventions (b : ProfileBuilder) : ProfileBuilder :=
  deep_expo (deep_axum (deep_fastapi (deep_django b))).

(** ** Configuration, CI and source *)

Definition auth_fact (value path detail : string) (confidence : f32) : ProfileBuilder → ProfileBuilder :=
  push_fact "auth_provider" value (Evidence_new path "configuration" detail confidence).
Definition dedup_files : list File → list File :=
  fix go l := match l with
    | a :: (b :: _) as l' => if decide (a.1 = b.1) then a :: tail (go l') else a :: go l'
    | _ => l
    end.
Definition configuration_files (name : string) : list File :=
  let found := files_with_name snapshot name in
  let found := if decide (name = ".env") then
      let dotted := List.filter (λ f, starts_with ".env." (file_name f.1))
                      (files_named_anywhere snapshot []) in
      found ++ files_with_extension snapshot ".env" ++ dotted
    else found in
  dedup_files (sort_files found).
Definition config_fact (b : ProfileBuilder) (name : string) : ProfileBuilder :=
  match head (configuration_files name) with
  | Some (path, _) =>
      push_fact "configuration" (file_name path)
        (Evidence_new path "configuration" (file_name path +:+ " configuration present") f32_0_8) b
  | None => b
  end.
Definition detect_configuration (b : ProfileBuilder) : ProfileBuilder :=
  let b := match any_content_contains snapshot "GOOGLE_CLIENT_ID" with
    | Some (path, _) =>
        auth_fact "google-oauth" path "Google OAuth client reference configured" f32_0_9 b
    | None =>
        match any_content_contains_insensitive snapshot "accounts.google.com" with
        | Some (path, _) =>
            when (is_some (any_content_contains_insensitive snapshot "oauth"))
              (auth_fact "google-oauth" path "Google OAuth endpoint configured" f32_0_8) b
        | None => b
        end
    end in
  let b := match any_content_contains snapshot "GITHUB_CLIENT_ID" with
    | Some (path, _) =>
        auth_fact "github-oauth" path "GitHub OAuth client reference configured" f32_0_9 b
    | None => b
    end in
  foldl config_fact b
    [".env"; "appsettings.json"; "application.yml"; "application.yaml"; "config.yaml"].

Definition ci_found : list (string * string * string) :=
  (if has_dir snapshot ".github/workflows" then
     match min_by (λ a b : File, bool_decide (String.le a.1 b.1))
             (List.filter (λ f, starts_with ".github/workflows/" f.1) (files snapshot)) with
     | Some (path, _) => [(path, "github-actions", "GitHub Actions workflow present")]
     | None => []
     end
   else [])
  ++ List.filter (λ c, has_file snapshot c.1.1)
       [(".gitlab-ci.yml", "gitlab-ci", "GitLab CI configuration present");
        ("azure-pipelines.yml", "azure-pipelines", "Azure Pipelines configuration present");
        ("Jenkinsfile", "jenkins", "Jenkinsfile present");
        (".circleci/config.yml", "circleci", "CircleCI configuration present")].
Definition detect_ci (b : ProfileBuilder) : ProfileBuilder :=
  foldl (λ b '(path, value, detail),
    push_fact "ci" value (Evidence_new path "ci" detail f32_0_9) b) b ci_found.

Definition source_hint (b : ProfileBuilder) (hint : string * string) : ProfileBuilder :=
  match first_file (files_with_extension snapshot hint.1) with
  | Some (path, _) =>
      let e := Evidence_new path "source"
        (hint.1 +:+ " source file without a recognized manifest") f32_0_3 in
      push_evidence e (on_field "language" (push_candidate (hint.2, e, f32_0_3)) b)
  | None => b
  end.
Definition detect_source_fallback (b : ProfileBuilder) : ProfileBuilder :=
  if is_some (fs_value (pb_language b)) then b
  else foldl source_hint b
    [(".ts", "node"); (".tsx", "node"); (".js", "node"); (".jsx", "node"); (".cs", "dotnet");
     (".py", "python"); (".rs", "rust")].

(* ------------------------------------------------------------------ *)
(** * Inference *)

Definition apply_finding (name : string) (b : ProfileBuilder) (finding : PluginFinding) :
    ProfileBuilder :=
  let e := mkEvidence ("plugin:" +:+ name +:+ ":" +:+ ev_source (pf_evidence finding)) "plugin"
             (ev_detail (pf_evidence finding)) (ev_confidence (pf_evidence finding)) in
  let confidence := clamp01 (pf_confidence finding) in
  let fld := pf_field finding in
  if decide (fld = "language" ∨ fld = "framework") then
    let st := field fld b in
    match fs_value st with
    | None => push_evidence e (on_field fld (push_candidate (pf_value finding, e, confidence)) b)
    | Some current =>
        if eq_ignore_ascii_case current (pf_value finding) then push_evidence e b
        else if SFleb (fs_confidence st) confidence then
          push_evidence (Evidence_new ("plugin:" +:+ name) "plugin"
              ("conflicting hypothesis '" +:+ pf_value finding +:+ "' recorded") confidence)
            (on_field fld clear_value (push_unknown
               (mkUnknown fld ("conflicting evidence: '" +:+ current +:+ "' vs plugin '" +:+ name
                  +:+ "' hypothesis '" +:+ pf_value finding +:+ "'; recorded as unknown")
                  [ev_source e]) b))
        else push_fact ("candidate_" +:+ fld) (pf_value finding) e b
    end
  else push_fact (default fld (strip_prefix "fact:" fld)) (pf_value finding) e b.
Definition apply_plugin (b : ProfileBuilder) (plugin : InspectorPlugin) : ProfileBuilder :=
  foldl (apply_finding (ip_name plugin)) b (ip_detect plugin snapshot).

Definition deterministic : ProfileBuilder :=
  finish_deterministic (detect_source_fallback (detect_ci (detect_configuration
    (detect_deep_framework_conventions (detect_framework_conventions (detect_manifests
      (detect_compose (detect_docker ProfileBuilder_default)))))))).
Definition inspect (self : Inspector) : ApplicationProfile :=
  build (foldl apply_plugin deterministic self).
End Detectors.

(* ------------------------------------------------------------------ *)
(** * Adoption *)

Inductive AdoptionItemKind := Keep | Adopt | OptionalMigration.
#[global] Instance AdoptionItemKind_eq_dec : EqDecision AdoptionItemKind.
Proof. solve_decision. Defined.
Record AdoptionItem := mkItem {
  ai_kind : AdoptionItemKind;
  ai_subject : string;
  ai_rationale : string;
  ai_evidence : list Evidence;
}.
Record AdoptionPlan := mkPlan {
  ap_items : list AdoptionItem;
  ap_profile_digest : string;
  ap_applied : bool;
}.

(** [facts.sort()] on pairs of texts. *)
Definition pair_le (p q : string * string) : Prop :=
  p.1 ≠ q.1 ∧ String.le p.1 q.1 ∨ p.1 = q.1 ∧ String.le p.2 q.2.
#[global] Instance pair_le_dec p q : Decision (pair_le p q).
Proof. unfold pair_le. apply _. Defined.
Definition profile_digest (profile : ApplicationProfile) : string :=
  let mix hash text := foldl fnv_step hash (chars text) in
  let hash := mix 0xcbf29ce484222325%Z (if container_compatible profile then "true" else "false") in
  let hash := mix hash (default "?" (language profile)) in
  let hash := mix hash (default "?" (framework profile)) in
  let sorted := merge_sort pair_le (map (λ f, (fact_name f, fact_value f)) (facts profile)) in
  hex_fixed 16 (foldl (λ hash p, mix (mix hash p.1) p.2) hash sorted).

Definition keep_item (fact : Fact) : option AdoptionItem :=
  if decide (fact_name fact = "auth_provider") then
    Some (mkItem Keep ("auth integration (" +:+ fact_value fact +:+ ")")
            "Existing auth is preserved; the platform must not rewrite it." [fact_evidence fact])
  else if decide (fact_name fact = "ci") then
    Some (mkItem Keep ("CI configuration (" +:+ fact_value fact +:+ ")")
            "Existing CI keeps running; adoption must not replace it silently." [fact_evidence fact])
  else if decide (fact_name fact = "compose") then
    Some (mkItem Keep "compose definition"
            "Existing compose topology is preserved as declared infrastructure." [fact_evidence fact])
  else if decide (fact_name fact = "git") then
    Some (mkItem Keep "git history and remotes"
            "Version history stays authoritative in the source repository." [fact_evidence fact])
  else None.
Definition runner_item (fact : Fact) : option AdoptionItem :=
  if decide (fact_name fact = "migration_runner") then
    Some (mkItem Adopt ("database migrations via " +:+ fact_value fact)
            "Proposed migration command from detected framework layout; requires review and never runs automatically."
            [fact_evidence fact])
  else if decide (fact_name fact = "test_runner") then
    Some (mkItem Adopt ("test suite via " +:+ fact_value fact)
            "Proposed test command from detected framework layout; requires review and never runs automatically."
            [fact_evidence fact])
  else None.
Definition AdoptionPlan_generate (profile : ApplicationProfile) : AdoptionPlan :=
  let keep := omap keep_item (facts profile) in
  let container := if container_compatible profile then
      [mkItem Keep "Dockerfile / container definition"
         "Existing container definition is preserved as the runtime contract."
         (option_list (List.find (λ e, bool_decide (ev_stage e = "dockerfile")) (evidence profile)))]
    else [] in
  let adopt := map (λ subject, mkItem Adopt subject
      "Proposed platform capability; requires review and never applies automatically." [])
    ["secrets management"; "preview environments"; "deployment pipeline"; "log aggregation"] in
  let runners := omap runner_item (facts profile) in
  let migration := mkItem OptionalMigration "storage replacement / framework migration"
    "Presented with affected evidence; never applied without explicit approval." (evidence profile) in
  mkPlan (keep ++ container ++ adopt ++ runners ++ [migration]) (profile_digest profile) false.
Definition AdoptionPlan_apply (approval : ExplicitApproval) : M AdoptionPlan CoreError unit :=
  if negb (approved approval) then
    mthrow (ApprovalRequired "adoption plan requires explicit approval before apply")
  else if trim_is_empty (approver approval) then
    mthrow (ApprovalRequired "adoption plan approval must name an approver")
  else modify (λ self, mkPlan (ap_items self) (ap_profile_digest self) true).
Definition items_of_kind (self : AdoptionPlan) (kind : AdoptionItemKind) : list AdoptionItem :=
  List.filter (λ i, bool_decide (ai_kind i = kind)) (ap_items self).

(* ------------------------------------------------------------------ *)
(** * The sequence of a broad change *)

Inductive ChangeStep := CsInspect | CsUnderstand | CsModel | CsPropose | CsApply.
#[global] Instance ChangeStep_eq_dec : EqDecision ChangeStep.
Proof. solve_decision. Defined.
Definition predecessors (step : ChangeStep) : list ChangeStep :=
  match step with
  | CsInspect => []
  | CsUnderstand => [CsInspect]
  | CsModel => [CsInspect; CsUnderstand]
  | CsPropose => [CsInspect; CsUnderstand; CsModel]
  | CsApply => [CsInspect; CsUnderstand; CsModel; CsPropose]
  end.
Definition ChangeStep_debug (s : ChangeStep) : string :=
  match s with
  | CsInspect => "Inspect" | CsUnderstand => "Understand" | CsModel => "Model"
  | CsPropose => "Propose" | CsApply => "Apply"
  end.
Definition BroadChangeGate_check (completed : list ChangeStep) (requested : ChangeStep) :
    result CoreError unit :=
  let missing := List.filter (λ s, negb (bool_decide (s ∈ completed))) (predecessors requested) in
  if is_nil missing then Ok tt
  else Err (SequenceViolation
    ("broad changes require inspect → understand → model → propose → apply; missing ["
     +:+ str_join ", " (map ChangeStep_debug missing) +:+ "] before " +:+ ChangeStep_debug requested)).

(* ------------------------------------------------------------------ *)
(** * The deterministic stages *)

Definition tracked (name : string) : Prop := name = "language" ∨ name = "framework".

(** A stage only adds: observations of its own, facts backed by them, values where
    there were none. *)
Record grows (k : string) (b b' : ProfileBuilder) : Prop := {
  gr_evidence : ∃ l, pb_evidence b' = pb_evidence b ++ l ∧ Forall (λ e, ev_stage e = k) l;
  gr_facts : pb_facts b `prefix_of` pb_facts b';
  gr_container : pb_container b' = true → pb_container b = true ∨ ∃ e, e ∈ pb_evidence b' ∧ ev_stage e = "dockerfile";
  gr_backed f : f ∈ pb_facts b' → f ∈ pb_facts b ∨ fact_evidence f ∈ pb_evidence b';
  gr_unknown name : tracked name → has_unknown name b' = has_unknown name b;
  gr_value name v : fs_value (field name b') = Some v →
    fs_value (field name b) = Some v ∨ ∃ e, e ∈ pb_evidence b' ∧ ev_stage e = k;
}.

Lemma grows_refl k b : grows k b b.
Proof. split; try done; eauto. exists []. by rewrite app_nil_r. Qed.
Lemma grows_trans k b1 b2 b3 : grows k b1 b2 → grows k b2 b3 → grows k b1 b3.
Proof.
  intros [(l1 & E1 & F1) P1 C1 B1 U1 V1] [(l2 & E2 & F2) P2 C2 B2 U2 V2]. split.
  - exists (l1 ++ l2). rewrite E2, E1, app_assoc. split; [done|]. by apply Forall_app.
  - by etrans.
  - intros [Hc|?]%C2; [|auto]. destruct (C1 Hc) as [?|(e & He & ?)]; [auto|].
    right. exists e. rewrite E2, elem_of_app. auto.
  - intros f [Hf|?]%B2; [|auto]. destruct (B1 _ Hf) as [?|?]; [auto|]. right.
    rewrite E2. apply elem_of_app. auto.
  - intros name Hn. by rewrite U2, U1.
  - intros name v [Hv|?]%V2; [|auto]. destruct (V1 _ _ Hv) as [?|(e & He & ?)]; [auto|].
    right. exists e. rewrite E2, elem_of_app. auto.
Qed.
Lemma push_evidence_grows k e b : ev_stage e = k → grows k b (push_evidence e b).
Proof. intros. split; try done; simpl; eauto. Qed.
Lemma push_fact_grows k name value e b : ev_stage e = k → grows k b (push_fact name value e b).
Proof.
  intros. split; try done; simpl; auto.
  - exists [e]. split; [done|]. by repeat constructor.
  - by apply prefix_app_r.
  - intros f. rewrite !elem_of_app, list_elem_of_singleton. intros [?| ->]; [by left|].
    right. rewrite list_elem_of_singleton. by right.
Qed.
Lemma on_field_field name f n b :
  fs_value (field n (on_field name f b)) = fs_value (field n b) ∨
  fs_value (field n (on_field name f b)) = fs_value (f (field n b)).
Proof. unfold field, on_field. repeat case_decide; simpl; auto. Qed.
Lemma on_field_rest name f b :
  pb_facts (on_field name f b) = pb_facts b ∧ pb_unknowns (on_field name f b) = pb_unknowns b ∧
  pb_evidence (on_field name f b) = pb_evidence b ∧ pb_container (on_field name f b) = pb_container b.
Proof. unfold on_field. by case_decide. Qed.
Lemma has_unknown_eq n b b' : pb_unknowns b' = pb_unknowns b → has_unknown n b' = has_unknown n b.
Proof. unfold has_unknown. by intros ->. Qed.
Lemma set_field_grows k name value e c b : ev_stage e = k → grows k b (set_field name value e c b).
Proof.
  intros He. unfold set_field. set (f := λ st, _).
  destruct (on_field_rest name f b) as (Hf & Hu & Hev & Hc). split; simpl; rewrite ?Hf, ?Hev, ?Hc; auto.
  - exists [e]. split; [done|]. by repeat constructor.
  - intros n _. by apply has_unknown_eq.
  - intros n v Hv. change (fs_value (field n (on_field name f b)) = Some v) in Hv.
    right. exists e. rewrite elem_of_app, list_elem_of_singleton. auto.
Qed.
Lemma candidate_grows k name c b : grows k b (on_field name (push_candidate c) b).
Proof.
  destruct (on_field_rest name (push_candidate c) b) as (Hf & Hu & Hev & Hc).
  split; rewrite ?Hf, ?Hev, ?Hc; auto.
  - exists []. by rewrite app_nil_r.
  - intros n _. by apply has_unknown_eq.
  - intros n v Hv. left. by destruct (on_field_field name (push_candidate c) n b) as [E|E]; rewrite E in Hv.
Qed.
Lemma push_unknown_grows k u b : ¬ tracked (un_field u) → grows k b (push_unknown u b).
Proof.
  intros Hu. split; try done; simpl; eauto.
  - exists []. by rewrite app_nil_r.
  - intros name Hn. unfold has_unknown. simpl. rewrite existsb_app. simpl.
    rewrite bool_decide_eq_false_2 by (intros <-; done). by rewrite !orb_false_r.
Qed.
Lemma container_grows e b : ev_stage e = "dockerfile" →
  grows "dockerfile" b (push_evidence e (mkBuilder true (pb_language b) (pb_framework b)
    (pb_facts b) (pb_unknowns b) (pb_evidence b))).
Proof.
  intros He. split; try done; simpl; eauto.
  intros _. right. exists e. rewrite elem_of_app, list_elem_of_singleton. auto.
Qed.
Lemma when_grows k c f b : (∀ b, grows k b (f b)) → grows k b (when c f b).
Proof. intros Hf. destruct c; [apply Hf|apply grows_refl]. Qed.
Lemma foldl_grows {A} k (f : ProfileBuilder → A → ProfileBuilder) l b :
  (∀ b a, grows k b (f b a)) → grows k b (foldl f b l).
Proof.
  intros Hf. revert b. induction l as [|a l IH]; intros b; [apply grows_refl|].
  simpl. eapply grows_trans; [apply Hf|apply IH].
Qed.

Create HintDb grows.
#[local] Hint Resolve grows_refl push_evidence_grows push_fact_grows set_field_grows candidate_grows
  push_unknown_grows container_grows when_grows : grows.
(** One step of a stage at a time, from the last one. *)
Ltac grow_step := first
  [ by apply set_field_grows | by apply push_fact_grows | by apply container_grows
  | by apply push_evidence_grows | apply candidate_grows | apply when_grows; intros ?; grow ]
with grow := first [apply grows_refl | eapply grows_trans; [|grow_step]; grow].

Section Stages.
Context (s : ProjectSnapshot).
Lemma docker_grows b : grows "dockerfile" b (detect_docker s b).
Proof.
  unfold detect_docker. destruct (first_file _) as [[p c]|]; [|apply grows_refl].
  destruct (base_language _) as [[v w]|]; [grow|].
  eapply grows_trans; [|apply push_unknown_grows; by intros [|]]. grow.
Qed.
Lemma compose_grows b : grows "compose" b (detect_compose s b).
Proof. unfold detect_compose. destruct (first_file _) as [[p c]|]; auto with grows. Qed.
Lemma hit_grows hit b : grows "manifest" b (apply_manifest_hit hit "manifest" b).
Proof. unfold apply_manifest_hit. destruct (mh_framework hit) as [[[f c] d]|]; grow. Qed.
Lemma manifests_grows b : grows "manifest" b (detect_manifests s b).
Proof.
  assert (∀ h b, grows "manifest" b (apply_hit h b)) as Hh.
  { intros [h|] b'; [apply hit_grows|apply grows_refl]. }
  unfold detect_manifests. destruct (_ || _ || _).
  - eapply grows_trans; [|by apply push_fact_grows]. repeat (eapply grows_trans; [|apply Hh]). apply grows_refl.
  - repeat (eapply grows_trans; [|apply Hh]). apply grows_refl.
Qed.
Lemma conventions_grows b : grows "framework_convention" b (detect_framework_conventions s b).
Proof.
  apply foldl_grows. intros b' [[[[names name] value] c] d]. unfold apply_convention.
  destruct (first_file _) as [[p ?]|]; [|apply grows_refl]. destruct (SFltb _ _); auto with grows.
Qed.
Lemma deep_grows b : grows "framework_convention" b (detect_deep_framework_conventions s b).
Proof.
  unfold detect_deep_framework_conventions.
  assert (∀ b, grows "framework_convention" b (deep_django s b)) as H1.
  { intros b'. unfold deep_django. eapply grows_trans; [|apply when_grows].
    - destruct (first_file _) as [[p c]|]; auto with grows.
    - intros b''. grow. }
  assert (∀ b, grows "framework_convention" b (deep_fastapi s b)) as H2.
  { intros b'. unfold deep_fastapi. destruct (List.find _ _) as [[p c]|]; grow. }
  assert (∀ b, grows "framework_convention" b (deep_axum s b)) as H3.
  { intros b'. unfold deep_axum.
    destruct (List.find _ _) as [[p c]|];
      (destruct (str_contains "sqlx" _); [|destruct (str_contains "diesel" _ || _)]); grow. }
  assert (∀ b, grows "framework_convention" b (deep_expo s b)) as H4.
  { intros b'. unfold deep_expo. grow. }
  eapply grows_trans; [|apply H4]. eapply grows_trans; [|apply H3]. eapply grows_trans; [|apply H2]. apply H1.
Qed.
Lemma configuration_grows b : grows "configuration" b (detect_configuration s b).
Proof.
  unfold detect_configuration, auth_fact. eapply grows_trans; [|apply foldl_grows].
  - destruct (any_content_contains s "GOOGLE_CLIENT_ID") as [[p c]|],
      (any_content_contains s "GITHUB_CLIENT_ID") as [[p' c']|],
      (any_content_contains_insensitive s "accounts.google.com") as [[p'' c'']|]; grow.
  - intros b' name. unfold config_fact. destruct (head _) as [[p c]|]; auto with grows.
Qed.
Lemma ci_grows b : grows "ci" b (detect_ci s b).
Proof. apply foldl_grows. intros b' [[p v] d]. auto with grows. Qed.
Lemma source_grows b : grows "source" b (detect_source_fallback s b).
Proof.
  unfold detect_source_fallback. destruct (is_some _); [apply grows_refl|].
  apply foldl_grows. intros b' h. unfold source_hint. destruct (first_file _) as [[p c]|]; grow.
Qed.
End Stages.

(* ------------------------------------------------------------------ *)
(** * What inspection guarantees *)

Definition stage_le (e e' : Evidence) : Prop :=
  stage_order (ev_stage e) ≤ stage_order (ev_stage e').

(** Observations are in inspection order, up to stage [n]; a value has an
    observation of a deterministic stage, a fact its own; and a field with an
    unknown entry has no value. *)
Record builder_inv (n : nat) (b : ProfileBuilder) : Prop := {
  bi_sorted : StronglySorted stage_le (pb_evidence b);
  bi_stage e : e ∈ pb_evidence b → stage_order (ev_stage e) ≤ n;
  bi_value name v : tracked name → fs_value (field name b) = Some v →
    ∃ e, e ∈ pb_evidence b ∧ ev_stage e ∈ INSPECTION_ORDER;
  bi_fact f : f ∈ pb_facts b → fact_evidence f ∈ pb_evidence b;
  bi_container : pb_container b = true → ∃ e, e ∈ pb_evidence b ∧ ev_stage e = "dockerfile";
  bi_unknown name : tracked name → has_unknown name b = true → fs_value (field name b) = None;
}.
Definition no_unknown (b : ProfileBuilder) : Prop := ∀ name, tracked name → has_unknown name b = false.

Lemma sorted_extend n l1 l2 :
  StronglySorted stage_le l1 → (∀ e, e ∈ l1 → stage_order (ev_stage e) ≤ n) →
  Forall (λ e, stage_order (ev_stage e) = n) l2 → StronglySorted stage_le (l1 ++ l2).
Proof.
  intros Hs Hle Hn. induction Hs as [|e l1 Hs IH Hall]; simpl.
  - clear Hle. induction Hn as [|e l2 He Hn IH]; constructor; [done|].
    eapply Forall_impl; [exact Hn|]. unfold stage_le. simpl. lia.
  - constructor; [apply IH; intros; apply Hle; by apply elem_of_cons; right|].
    apply Forall_app. split; [done|]. eapply Forall_impl; [exact Hn|].
    intros e' He'. unfold stage_le. rewrite He'. apply Hle. apply elem_of_cons. by left.
Qed.

Lemma extended_inv n m k b b' l :
  builder_inv n b → n ≤ m → stage_order k = m →
  pb_evidence b' = pb_evidence b ++ l → Forall (λ e, ev_stage e = k) l →
  StronglySorted stage_le (pb_evidence b') ∧ ∀ e, e ∈ pb_evidence b' → stage_order (ev_stage e) ≤ m.
Proof.
  intros Hb Hnm Hk -> Hl.
  assert (Forall (λ e, stage_order (ev_stage e) = m) l) as Hm
    by (eapply Forall_impl; [exact Hl|]; simpl; congruence).
  split.
  - apply (sorted_extend m); [apply Hb| |done]. intros e He. etrans; [by eapply bi_stage|done].
  - intros e [He|He]%elem_of_app; [etrans; [by eapply bi_stage|done]|].
    rewrite Forall_forall in Hm. by rewrite (Hm e He).
Qed.

Lemma stage_inv n k b b' :
  k ∈ INSPECTION_ORDER → n ≤ stage_order k → builder_inv n b ∧ no_unknown b → grows k b b' →
  builder_inv (stage_order k) b' ∧ no_unknown b'.
Proof.
  intros Hk Hn [Hb Hu] G. destruct (gr_evidence _ _ _ G) as (l & El & Hl).
  destruct (extended_inv n _ k b b' l Hb Hn eq_refl El Hl) as [Hs Hle].
  assert (no_unknown b') as Hu' by (intros name Ht; rewrite (gr_unknown _ _ _ G) by done; by apply Hu).
  split; [split; try done|done].
  - intros name v Ht [Hv|(e & He & <-)]%(gr_value _ _ _ G); [|eauto].
    destruct (bi_value _ _ Hb _ _ Ht Hv) as (e & He & ?). exists e. rewrite El, elem_of_app. auto.
  - intros f [Hf|?]%(gr_backed _ _ _ G); [|done]. rewrite El, elem_of_app. left. by eapply bi_fact.
  - intros [Hc|?]%(gr_container _ _ _ G); [|done]. destruct (bi_container _ _ Hb Hc) as (e & ? & ?).
    exists e. rewrite El, elem_of_app. auto.
  - intros name Ht Hx. by rewrite Hu' in Hx.
Qed.

Lemma default_inv : builder_inv 0 ProfileBuilder_default ∧ no_unknown ProfileBuilder_default.
Proof.
  split; [|done]. split; simpl.
  - constructor.
  - by intros e ?%not_elem_of_nil.
  - intros name v [-> | ->]; done.
  - by intros f ?%not_elem_of_nil.
  - done.
  - done.
Qed.

Lemma field_on_field name f b :
  field name (on_field name f b) = f (field name b).
Proof. unfold field, on_field. by case_decide. Qed.
Lemma field_on_other name n f b : tracked name → tracked n → n ≠ name →
  field n (on_field name f b) = field n b.
Proof. intros [-> | ->] [-> | ->]; done. Qed.
Lemma has_unknown_push n u b :
  has_unknown n (push_unknown u b) = has_unknown n b || bool_decide (un_field u = n).
Proof. unfold has_unknown. simpl. rewrite existsb_app. simpl. by rewrite orb_false_r. Qed.

(** Withdrawing a value and saying why keeps the invariant. *)
Lemma withdraw_inv n name u b :
  tracked name → un_field u = name → builder_inv n b →
  builder_inv n (on_field name clear_value (push_unknown u b)).
Proof.
  intros Ht Hu Hb. set (b' := push_unknown u b).
  destruct (on_field_rest name clear_value b') as (Hf & Hun & Hev & Hct).
  assert (∀ m, tracked m → m ≠ name → field m (on_field name clear_value b') = field m b) as Ho
    by (intros m ??; by rewrite field_on_other).
  split; rewrite ?Hf, ?Hev, ?Hct; try apply Hb.
  - intros m v Hm Hv. destruct (decide (m = name)) as [->|Hne].
    + by rewrite field_on_field in Hv.
    + rewrite Ho in Hv by done. by eapply (bi_value n b Hb).
  - intros m Hm Hx. destruct (decide (m = name)) as [->|Hne]; [by rewrite field_on_field|].
    rewrite (has_unknown_eq m b' _ Hun) in Hx. unfold b' in Hx. rewrite has_unknown_push in Hx.
    rewrite bool_decide_eq_false_2, orb_false_r in Hx by congruence.
    rewrite Ho by done. by apply (bi_unknown n b Hb).
Qed.
Lemma finish_field_inv n name b : tracked name → builder_inv n b → builder_inv n (finish_field name b).
Proof.
  intros Ht Hb. unfold finish_field. destruct (fs_value _); [|done].
  destruct (conflict _ _) as [[[o ?] ?]|]; [|done]. by apply withdraw_inv.
Qed.

(** A stage follows any earlier one. *)
Definition reaches (k : string) (b : ProfileBuilder) : Prop :=
  builder_inv (stage_order k) b ∧ no_unknown b.
Lemma next_stage j k b b' :
  bool_decide (k ∈ INSPECTION_ORDER) && (stage_order j <=? stage_order k)%nat = true →
  reaches j b → grows k b b' → reaches k b'.
Proof.
  rewrite andb_true_iff, bool_decide_eq_true, Nat.leb_le. intros [Hk Hle]. by apply stage_inv.
Qed.
Lemma deterministic_inv s : builder_inv 6 (deterministic s).
Proof.
  assert (reaches "dockerfile" ProfileBuilder_default) as H0 by exact default_inv.
  pose proof (next_stage "dockerfile" "dockerfile" _ _ eq_refl H0 (docker_grows s _)) as H1.
  pose proof (next_stage "dockerfile" "compose" _ _ eq_refl H1 (compose_grows s _)) as H2.
  pose proof (next_stage "compose" "manifest" _ _ eq_refl H2 (manifests_grows s _)) as H3.
  pose proof (next_stage "manifest" "framework_convention" _ _ eq_refl H3 (conventions_grows s _)) as H4.
  pose proof (next_stage "framework_convention" "framework_convention" _ _ eq_refl H4 (deep_grows s _)) as H5.
  pose proof (next_stage "framework_convention" "configuration" _ _ eq_refl H5 (configuration_grows s _)) as H6.
  pose proof (next_stage "configuration" "ci" _ _ eq_refl H6 (ci_grows s _)) as H7.
  destruct (next_stage "ci" "source" _ _ eq_refl H7 (source_grows s _)) as [H8 _].
  unfold deterministic, finish_deterministic.
  apply finish_field_inv; [by right|]. apply finish_field_inv; [by left|]. exact H8.
Qed.

(** ** Inference *)

Lemma builder_inv_le n m b : n ≤ m → builder_inv n b → builder_inv m b.
Proof. intros Hle [? Hs ? ? ? ?]. split; try done. intros e He. etrans; [by apply Hs|done]. Qed.

(** Adding an observation of inference. *)
Lemma push_plugin_inv e b : ev_stage e = "plugin" → builder_inv 7 b → builder_inv 7 (push_evidence e b).
Proof.
  intros He Hb. destruct (extended_inv 7 7 "plugin" b (push_evidence e b) [e] Hb) as [Hs Hle];
    [done|done|done|by repeat constructor|].
  split; try done; simpl.
  - intros name v Ht Hv. destruct (bi_value 7 b Hb name v Ht Hv) as (e' & ? & ?). exists e'.
    rewrite elem_of_app. auto.
  - intros f Hf. apply elem_of_app. left. by apply (bi_fact 7 b Hb).
  - intros Hc. destruct (bi_container 7 b Hb Hc) as (e' & ? & ?). exists e'. rewrite elem_of_app. auto.
  - apply Hb.
Qed.
Lemma candidate_inv n name c b : builder_inv n b → builder_inv n (on_field name (push_candidate c) b).
Proof.
  intros Hb. destruct (on_field_rest name (push_candidate c) b) as (Hf & Hun & Hev & Hct).
  assert (∀ m, fs_value (field m (on_field name (push_candidate c) b)) = fs_value (field m b)) as Hv
    by (intros m; by destruct (on_field_field name (push_candidate c) m b)).
  split; rewrite ?Hf, ?Hev, ?Hct; try apply Hb.
  - intros m v Ht. rewrite Hv. by apply Hb.
  - intros m Ht. rewrite (has_unknown_eq m b _ Hun), Hv. by apply Hb.
Qed.
Lemma push_plugin_fact_inv name value e b :
  ev_stage e = "plugin" → builder_inv 7 b → builder_inv 7 (push_fact name value e b).
Proof.
  intros He Hb. pose proof (push_plugin_inv e b He Hb) as [? ? ? Hf ? ?]. split; try done.
  intros f. unfold push_fact. simpl. rewrite elem_of_app, list_elem_of_singleton.
  intros [?| ->]; [by apply Hf|]. simpl. rewrite elem_of_app, list_elem_of_singleton. auto.
Qed.
Lemma apply_finding_inv name b f : builder_inv 7 b → builder_inv 7 (apply_finding name b f).
Proof.
  intros Hb. unfold apply_finding. case_decide as Ht; [|by apply push_plugin_fact_inv].
  destruct (fs_value _) as [current|]; [|by apply push_plugin_inv, candidate_inv].
  destruct (eq_ignore_ascii_case _ _); [by apply push_plugin_inv|].
  destruct (SFleb _ _); [|by apply push_plugin_fact_inv].
  apply push_plugin_inv; [done|]. by apply withdraw_inv.
Qed.
Lemma foldl_inv {A} (P : ProfileBuilder → Prop) (f : ProfileBuilder → A → ProfileBuilder) l b :
  (∀ b a, P b → P (f b a)) → P b → P (foldl f b l).
Proof. intros Hf. revert b. induction l as [|a l IH]; intros b Hb; simpl; auto. Qed.
Lemma inspected_inv s plugins : builder_inv 7 (foldl (apply_plugin s) (deterministic s) plugins).
Proof.
  apply (foldl_inv (builder_inv 7)); [|eapply builder_inv_le, deterministic_inv; lia].
  intros b p Hb. apply (foldl_inv (builder_inv 7)); [|done]. intros. by apply apply_finding_inv.
Qed.

(** The profile keeps the builder's values and observations, and adds an unknown
    entry for each field left without a value. *)
Lemma build_fields b :
  let p := build b in
  language p = fs_value (pb_language b) ∧ framework p = fs_value (pb_framework b) ∧
  facts p = pb_facts b ∧ evidence p = pb_evidence b ∧ container_compatible p = pb_container b ∧
  ∀ name, tracked name →
    is_unknown p name = has_unknown name b || negb (is_some (fs_value (field name b))).
Proof.
  assert (∀ name b, let b' := build_field name b in
    pb_language b' = pb_language b ∧ pb_framework b' = pb_framework b ∧ pb_facts b' = pb_facts b ∧
    pb_evidence b' = pb_evidence b ∧ pb_container b' = pb_container b ∧
    ∀ n, has_unknown n b' = has_unknown n b ||
      (bool_decide (n = name) && negb (is_some (fs_value (field name b))))) as Hstep.
  { intros name b'. unfold build_field.
    destruct (is_some (fs_value (field name b'))) eqn:Hv, (has_unknown name b') eqn:Hn; simpl;
      split_and!; try done; intros n; rewrite ?andb_false_r, ?orb_false_r, ?andb_true_r; try done.
    - case_bool_decide; subst; by rewrite ?Hn, ?orb_false_r.
    - rewrite has_unknown_push. simpl. f_equal. apply bool_decide_ext. naive_solver. }
  intros p. unfold p, build.
  destruct (Hstep "language" b) as (L1 & F1 & A1 & E1 & C1 & U1).
  destruct (Hstep "framework" (build_field "language" b)) as (L2 & F2 & A2 & E2 & C2 & U2).
  clear Hstep p. set (b2 := build_field "framework" (build_field "language" b)) in *. clearbody b2.
  set (b1 := build_field "language" b) in *. clearbody b1.
  cbn [language framework facts evidence container_compatible].
  rewrite L2, F2, A2, E2, C2, L1, F1, A1, E1, C1. split_and!; try done.
  intros name Ht. change (has_unknown name b2 = has_unknown name b || negb (is_some (fs_value (field name b)))).
  rewrite U2, U1. unfold field. destruct Ht as [-> | ->].
  - rewrite bool_decide_eq_true_2, bool_decide_eq_false_2 by done. by rewrite orb_false_r.
  - rewrite (bool_decide_eq_false_2 ("framework" = "language")), (bool_decide_eq_true_2 ("framework" = "framework")) by done.
    rewrite !(decide_False (P := "framework" = "language")) by done.
    by rewrite andb_false_l, andb_true_l, orb_false_r, F1.
Qed.

(** Inspection never invents: a language or framework it reports has an
    observation of a deterministic stage, whatever the plugins claim, and every
    fact carries one of the listed observations.  A field is reported unknown
    exactly when it has no value. *)
Theorem profile_is_evidenced s plugins :
  let p := inspect s plugins in
  (∀ v, language p = Some v ∨ framework p = Some v →
     ∃ e, e ∈ evidence p ∧ ev_stage e ∈ INSPECTION_ORDER) ∧
  (∀ f, f ∈ facts p → fact_evidence f ∈ evidence p) ∧
  is_unknown p "language" = negb (is_some (language p)) ∧
  is_unknown p "framework" = negb (is_some (framework p)).
Proof.
  pose proof (inspected_inv s plugins) as Hb. unfold inspect.
  destruct (build_fields (foldl (apply_plugin s) (deterministic s) plugins))
    as (-> & -> & -> & -> & _ & Hu).
  set (b := foldl _ _ _) in *. clearbody b. split_and!.
  - intros v [Hv|Hv]; [apply (bi_value 7 b Hb "language" v)|apply (bi_value 7 b Hb "framework" v)];
      try done; by (left + right).
  - apply Hb.
  - rewrite Hu by by left. pose proof (bi_unknown 7 b Hb "language" (or_introl eq_refl)) as Hx.
    change (field "language" b) with (pb_language b) in *.
    destruct (has_unknown "language" b); [by rewrite Hx|done].
  - rewrite Hu by by right. pose proof (bi_unknown 7 b Hb "framework" (or_intror eq_refl)) as Hx.
    change (field "framework" b) with (pb_framework b) in *.
    destruct (has_unknown "framework" b); [by rewrite Hx|done].
Qed.

(** The observations of a profile are listed in the inspection order,
    those of plugins last. *)
Theorem evidence_in_inspection_order s plugins :
  StronglySorted stage_le (evidence (inspect s plugins)).
Proof.
  unfold inspect. destruct (build_fields (foldl (apply_plugin s) (deterministic s) plugins))
    as (_ & _ & _ & -> & _). apply (inspected_inv s plugins).
Qed.

(** ** Plugins against deterministic findings *)

(** A finding for this field with another value, as confident as the current one. *)
Definition rival (name v : string) (confidence : f32) (f : PluginFinding) : Prop :=
  pf_field f = name ∧ eq_ignore_ascii_case v (pf_value f) = false ∧
  SFleb confidence (clamp01 (pf_confidence f)) = true.

(** Inference only adds observations and facts; it keeps a value or, for a rival
    finding of [L], withdraws it. *)
Record infers (L : list PluginFinding) (b b' : ProfileBuilder) : Prop := {
  in_evidence : pb_evidence b `prefix_of` pb_evidence b';
  in_facts : pb_facts b `prefix_of` pb_facts b';
  in_container : pb_container b' = pb_container b;
  in_confidence name : tracked name → fs_confidence (field name b') = fs_confidence (field name b);
  in_value name : tracked name → fs_value (field name b') = fs_value (field name b) ∨
    fs_value (field name b') = None ∧ ∃ v f, fs_value (field name b) = Some v ∧ f ∈ L ∧
      rival name v (fs_confidence (field name b)) f;
}.
Lemma infers_refl L b : infers L b b.
Proof. split; try done. by left. Qed.
Lemma infers_trans L b1 b2 b3 : infers L b1 b2 → infers L b2 b3 → infers L b1 b3.
Proof.
  intros [E1 F1 C1 K1 V1] [E2 F2 C2 K2 V2]. split; [by etrans|by etrans|congruence|..].
  - intros name Ht. by rewrite K2, K1.
  - intros name Ht. specialize (K1 name Ht). destruct (V2 name Ht) as [->|(-> & v & f & Hv & Hf & Hr)]; [auto|].
    right. split; [done|]. rewrite K1 in Hr. destruct (V1 name Ht) as [H1|(H1 & _)]; [|congruence].
    exists v, f. split; [congruence|done].
Qed.
Lemma push_evidence_infers L e b : infers L b (push_evidence e b).
Proof. split; try done; simpl; [by apply prefix_app_r|by left]. Qed.
Lemma push_fact_infers L name value e b : infers L b (push_fact name value e b).
Proof. split; try done; simpl; [by apply prefix_app_r..|by left]. Qed.
Lemma push_unknown_infers L u b : infers L b (push_unknown u b).
Proof. split; try done. by left. Qed.
Lemma on_field_infers L name f b : tracked name →
  (∀ st, fs_confidence (f st) = fs_confidence st) →
  (fs_value (f (field name b)) = fs_value (field name b) ∨
   fs_value (f (field name b)) = None ∧ ∃ v x, fs_value (field name b) = Some v ∧ x ∈ L ∧
     rival name v (fs_confidence (field name b)) x) →
  infers L b (on_field name f b).
Proof.
  intros Ht Hc Hv. destruct (on_field_rest name f b) as (Hf & _ & He & Hct).
  split; rewrite ?Hf, ?He; try done.
  - intros n Hn. destruct (decide (n = name)) as [->|]; [by rewrite field_on_field|by rewrite field_on_other].
  - intros n Hn. destruct (decide (n = name)) as [->|];
      [by rewrite field_on_field|rewrite field_on_other by done; by left].
Qed.
Lemma apply_finding_infers L name b f : f ∈ L → infers L b (apply_finding name b f).
Proof.
  intros HL. unfold apply_finding. case_decide as Ht; [|apply push_fact_infers].
  destruct (fs_value (field _ b)) as [v|] eqn:Hv.
  2: { eapply infers_trans; [|apply push_evidence_infers]. apply on_field_infers; [done|done|by left]. }
  destruct (eq_ignore_ascii_case _ _) eqn:Heq; [apply push_evidence_infers|].
  destruct (SFleb _ _) eqn:Hle; [|apply push_fact_infers].
  eapply infers_trans; [|apply push_evidence_infers].
  eapply infers_trans; [apply (push_unknown_infers L)|]. apply on_field_infers; [done|done|]. right.
  split; [done|]. exists v, f. split; [done|]. by split.
Qed.
Lemma foldl_infers {A} L (g : ProfileBuilder → A → ProfileBuilder) l b :
  (∀ b a, a ∈ l → infers L b (g b a)) → infers L b (foldl g b l).
Proof.
  revert b. induction l as [|a l IH]; intros b Hg; [apply infers_refl|]. simpl.
  eapply infers_trans; [apply Hg, elem_of_cons; by left|]. apply IH. intros. apply Hg, elem_of_cons. by right.
Qed.

Lemma inspected_infers s plugins :
  infers (plugins ≫= λ q, ip_detect q s) (deterministic s)
    (foldl (apply_plugin s) (deterministic s) plugins).
Proof.
  apply foldl_infers. intros b q Hq. apply foldl_infers. intros b' f Hf. apply apply_finding_infers.
  apply list_elem_of_bind. eauto.
Qed.

(** Plugins never override what deterministic inspection found: with
    plugins the container flag is the same, the observations and facts start with
    the deterministic ones, and language and framework are the same value or
    withdrawn; a withdrawn one has a plugin finding for another value at least as
    confident. *)
Theorem plugins_never_override s plugins :
  let p0 := inspect s [] in
  let p := inspect s plugins in
  let findings := plugins ≫= λ q, ip_detect q s in
  container_compatible p = container_compatible p0 ∧ evidence p0 `prefix_of` evidence p ∧
  facts p0 `prefix_of` facts p ∧
  (language p = language p0 ∨ language p = None ∧ ∃ v f, language p0 = Some v ∧ f ∈ findings ∧
     rival "language" v (fs_confidence (pb_language (deterministic s))) f) ∧
  (framework p = framework p0 ∨ framework p = None ∧ ∃ v f, framework p0 = Some v ∧ f ∈ findings ∧
     rival "framework" v (fs_confidence (pb_framework (deterministic s))) f).
Proof.
  intros p0 p findings. unfold p0, p, inspect. cbn [foldl].
  destruct (build_fields (deterministic s)) as (-> & -> & -> & -> & -> & _).
  destruct (build_fields (foldl (apply_plugin s) (deterministic s) plugins))
    as (-> & -> & -> & -> & -> & _).
  destruct (inspected_infers s plugins) as [E F C K V].
  split_and!; [done..| |].
  - apply (V "language"). by left.
  - apply (V "framework"). by right.
Qed.

(** ** Conventions that never apply *)

Lemma rust_convention_never s b :
  detect_framework_conventions s b = foldl (apply_convention s) b (take 4 conventions_table).
Proof.
  unfold detect_framework_conventions.
  change conventions_table with (take 4 conventions_table ++ drop 4 conventions_table) at 1.
  rewrite foldl_app. generalize (foldl (apply_convention s) b (take 4 conventions_table)). intros b'.
  simpl. assert (files_named_anywhere s ["src/main.rs"] = []) as ->; [|done].
  unfold files_named_anywhere. apply elem_of_nil_inv. intros f [_ Hf%bool_decide_eq_true]%elem_of_lfilter.
  apply list_elem_of_singleton in Hf. pose proof (file_name_flat f.1) as Hn. rewrite Hf in Hn.
  apply Hn. apply (bool_decide_unpack _). vm_compute. exact I.
Qed.
(** The convention for the Rust entry point never fires: it looks for a
    file named [src/main.rs], and a file name has no slash.  Likewise no variant
    of [.env] such as [.env.local] is ever found: the variants are sought among
    files named by an empty list. *)
Theorem some_conventions_never_apply s b :
  detect_framework_conventions s b = foldl (apply_convention s) b (take 4 conventions_table) ∧
  configuration_files s ".env" =
    dedup_files (sort_files (files_with_name s ".env" ++ files_with_extension s ".env")).
Proof.
  split.
  - apply rust_convention_never.
  - unfold configuration_files. rewrite decide_True by done.
    assert (files_named_anywhere s [] = []) as ->; [|by rewrite app_nil_r].
    unfold files_named_anywhere. apply elem_of_nil_inv.
    intros f [_ Hf%bool_decide_eq_true]%elem_of_lfilter. by apply not_elem_of_nil in Hf.
Qed.

(** ** Which language is reported *)

(** The languages a snapshot shows: that of the first image of its Dockerfile, then
    those whose manifests it has. *)
Definition docker_language (s : ProjectSnapshot) : option string :=
  '(_, content) ← first_file (files_with_name s "Dockerfile");
  fst <$> base_language (to_ascii_lowercase (default "" (head (omap from_image (str_lines content))))).
Definition shown_languages (s : ProjectSnapshot) : list string :=
  let any (names : list string) := negb (is_nil (names ≫= files_with_name s)) in
  option_list (docker_language s) ++
  (if any ["package.json"] then ["node"] else []) ++
  (if negb (is_nil (files_with_extension s ".csproj")) || negb (is_nil (files_with_extension s ".sln"))
      || any ["global.json"] then ["dotnet"] else []) ++
  (if any ["requirements.txt"; "pyproject.toml"; "setup.py"; "setup.cfg"; "Pipfile"; "poetry.lock"]
   then ["python"] else []) ++
  (if any ["Cargo.toml"] then ["rust"] else []).
(** The value all agree on, if there is one. *)
Definition unanimous (l : list string) : option string :=
  match l with
  | [] => None
  | v :: l => if forallb (λ w, bool_decide (w = v)) l then Some v else None
  end.

(** A field without its observations. *)
Definition view (st : FieldState) : option string * f32 * list (string * f32) :=
  (fs_value st, fs_confidence st, map (λ c, (c.1.1, c.2)) (fs_candidates st)).
Definition view_set (v : string) (c : f32) (w : option string * f32 * list (string * f32)) :
    option string * f32 * list (string * f32) :=
  match w with
  | (None, _, cs) => (Some v, c, cs)
  | (Some u, k, cs) => (Some u, k, cs ++ [(v, c)])
  end.
Definition view_result (w : option string * f32 * list (string * f32)) : option string :=
  match w with
  | (Some u, k, cs) =>
      if existsb (λ c, negb (eq_ignore_ascii_case c.1 u) && SFleb k c.2) cs then None else Some u
  | (None, _, _) => None
  end.

Lemma set_language_view v e c b : view (pb_language (set_field "language" v e c b)) = view_set v c (view (pb_language b)).
Proof.
  unfold set_field, view, view_set. simpl.
  destruct (fs_value (pb_language b)) eqn:Hv; simpl; [|done]. by rewrite Hv, map_app.
Qed.
Lemma foldl_language {A} (f : ProfileBuilder → A → ProfileBuilder) l b :
  (∀ b a, a ∈ l → pb_language (f b a) = pb_language b) → pb_language (foldl f b l) = pb_language b.
Proof.
  revert b. induction l as [|a l IH]; intros b Hf; simpl; [done|].
  rewrite IH by (intros; apply Hf, elem_of_cons; by right). apply Hf, elem_of_cons. by left.
Qed.
Lemma when_language c f b : (∀ b, pb_language (f b) = pb_language b) →
  pb_language (when c f b) = pb_language b.
Proof. intros Hf. destruct c; [apply Hf|done]. Qed.
Lemma push_fact_language n v e b : pb_language (push_fact n v e b) = pb_language b.
Proof. done. Qed.
(** Steps that leave the language alone. *)
Ltac same_language := repeat first
  [ reflexivity | rewrite push_fact_language | rewrite when_language; [|intros ?; same_language] | case_match; simplify_eq/= ].

Section Language.
Context (s : ProjectSnapshot).
Lemma compose_language b : pb_language (detect_compose s b) = pb_language b.
Proof. unfold detect_compose. same_language. Qed.
Lemma conventions_language b : pb_language (detect_framework_conventions s b) = pb_language b.
Proof.
  rewrite rust_convention_never. apply foldl_language. intros b' row Hr.
  assert (row.1.1.1.2 = "framework") as Hn.
  { revert row Hr. apply Forall_forall. repeat constructor. }
  destruct row as [[[[names name] v] c] d]. simpl in Hn. subst name. unfold apply_convention. same_language.
Qed.
Lemma deep_language b : pb_language (detect_deep_framework_conventions s b) = pb_language b.
Proof.
  unfold detect_deep_framework_conventions.
  trans (pb_language (deep_axum s (deep_fastapi s (deep_django s b)))); [unfold deep_expo; same_language|].
  trans (pb_language (deep_fastapi s (deep_django s b))); [unfold deep_axum; same_language|].
  trans (pb_language (deep_django s b)); [unfold deep_fastapi; same_language|].
  unfold deep_django. same_language.
Qed.
Lemma configuration_language b : pb_language (detect_configuration s b) = pb_language b.
Proof.
  unfold detect_configuration. rewrite foldl_language; [same_language|].
  intros b' n _. unfold config_fact. same_language.
Qed.
Lemma ci_language b : pb_language (detect_ci s b) = pb_language b.
Proof. apply foldl_language. by intros b' [[p v] d] _. Qed.
Lemma source_language b : view_result (view (pb_language (detect_source_fallback s b)))
  = view_result (view (pb_language b)).
Proof.
  unfold detect_source_fallback. destruct (fs_value (pb_language b)) eqn:Hv; cbn [is_some]; [done|].
  assert (∀ l b, fs_value (pb_language b) = None → fs_value (pb_language (foldl (source_hint s) b l)) = None) as Hn.
  { induction l as [|h l IH]; intros b' Hb'; [done|]. apply IH. unfold source_hint. by destruct (first_file _) as [[]|]. }
  unfold view. by rewrite Hn, Hv.
Qed.
Lemma find_view u st : is_some (conflict u st) =
  existsb (λ c : string * f32, negb (eq_ignore_ascii_case c.1 u) && SFleb (fs_confidence st) c.2)
    (map (λ c, (c.1.1, c.2)) (fs_candidates st)).
Proof.
  unfold conflict. generalize (fs_confidence st). intros k.
  induction (fs_candidates st) as [|[[v e] c] l IH]; simpl; [done|]. by destruct (_ && _).
Qed.
Lemma finish_language b : fs_value (pb_language (finish_deterministic b)) = view_result (view (pb_language b)).
Proof.
  unfold finish_deterministic.
  trans (fs_value (pb_language (finish_field "language" b))).
  { unfold finish_field at 1. same_language. }
  unfold finish_field, view, view_result. change (field "language" b) with (pb_language b).
  destruct (fs_value (pb_language b)) as [u|] eqn:Hv; [|done].
  rewrite <- (find_view u (pb_language b)). fold (conflict u (pb_language b)).
  destruct (conflict u (pb_language b)) as [[[o e] c]|]; simpl; [done|]. by rewrite Hv.
Qed.
Lemma docker_view b : pb_language b = FieldState_default →
  view (pb_language (detect_docker s b)) =
  match docker_language s with
  | Some v => (Some v, f32_0_9, [])
  | None => (None, f32_0, [])
  end.
Proof.
  intros Hb. unfold detect_docker, docker_language. destruct (first_file _) as [[p c]|]; simpl; [|by rewrite Hb].
  destruct (base_language _) as [[v w]|]; simpl; rewrite Hb; done.
Qed.
Lemma apply_hit_view h b : view (pb_language (apply_hit h b)) =
  match h with
  | Some h => view_set (mh_language h) (mh_confidence h) (view (pb_language b))
  | None => view (pb_language b)
  end.
Proof.
  destruct h as [h|]; [|done]. rewrite <- (set_language_view _
    (Evidence_new (mh_source h) "manifest" (mh_detail h) (mh_confidence h))).
  simpl. unfold apply_manifest_hit. by case_match; [case_match; case_match|].
Qed.
(** What a manifest adds to the language field. *)
Definition hit_step (found : bool) (v : string) (w : option string * f32 * list (string * f32)) :=
  if found then view_set v f32_1 w else w.
Lemma hit_view (h : option ManifestHit) found v w :
  match h with Some h => mh_language h = v ∧ mh_confidence h = f32_1 ∧ found = true | None => found = false end →
  match h with Some h => view_set (mh_language h) (mh_confidence h) w | None => w end = hit_step found v w.
Proof. destruct h as [h|]; [intros (-> & -> & ->)|intros ->]; done. Qed.
Lemma first_file_found l : is_some (first_file l) = negb (is_nil l).
Proof.
  destruct (first_file l) as [f|] eqn:Hf; [|by apply first_file_None in Hf as ->].
  apply first_file_elem in Hf. by destruct l; [apply not_elem_of_nil in Hf|].
Qed.
Lemma docker_language_known v : docker_language s = Some v → v ∈ ["node"; "dotnet"; "python"; "rust"].
Proof.
  unfold docker_language. destruct (first_file _) as [[p c]|]; [|done]. simpl.
  unfold base_language. repeat case_match; intros [= <-]; set_solver.
Qed.
Lemma manifests_view b :
  let any (names : list string) := negb (is_nil (names ≫= files_with_name s)) in
  view (pb_language (detect_manifests s b)) =
  hit_step (any ["Cargo.toml"]) "rust"
  (hit_step (any ["requirements.txt"; "pyproject.toml"; "setup.py"; "setup.cfg"; "Pipfile"; "poetry.lock"]) "python"
  (hit_step (negb (is_nil (files_with_extension s ".csproj")) || negb (is_nil (files_with_extension s ".sln"))
      || any ["global.json"]) "dotnet"
  (hit_step (any ["package.json"]) "node" (view (pb_language b))))).
Proof.
  intros any. unfold detect_manifests.
  trans (view (pb_language (apply_hit (cargo_hit s) (apply_hit (python_hit s)
    (apply_hit (dotnet_hit s) (apply_hit (node_hit s) b)))))); [by destruct (_ || _ || _)|].
  rewrite !apply_hit_view. f_equal.
  rewrite (hit_view (node_hit s) (any ["package.json"]) "node"),
    (hit_view (dotnet_hit s) (negb (is_nil (files_with_extension s ".csproj"))
       || negb (is_nil (files_with_extension s ".sln")) || any ["global.json"]) "dotnet"),
    (hit_view (python_hit s) (any ["requirements.txt"; "pyproject.toml"; "setup.py"; "setup.cfg";
       "Pipfile"; "poetry.lock"]) "python"),
    (hit_view (cargo_hit s) (any ["Cargo.toml"]) "rust"); [done|..].
  - unfold cargo_hit, any. simpl. rewrite app_nil_r, <- first_file_found. by destruct (first_file _).
  - unfold python_hit, any. rewrite <- first_file_found. by destruct (first_file _).
  - unfold dotnet_hit, any. simpl. rewrite app_nil_r, <- (first_file_found (files_with_extension s ".csproj")).
    destruct (first_file (files_with_extension s ".csproj")); simpl; [done|].
    by destruct (files_with_extension s ".sln"), (files_with_name s "global.json").
  - unfold node_hit, any. simpl. rewrite app_nil_r, <- first_file_found. by destruct (first_file _).
Qed.
Lemma deterministic_language : language (inspect s []) = unanimous (shown_languages s).
Proof.
  unfold inspect. cbn [foldl]. destruct (build_fields (deterministic s)) as (-> & _).
  unfold deterministic. rewrite finish_language, source_language, ci_language, configuration_language,
    deep_language, conventions_language, manifests_view, compose_language, docker_view by done.
  unfold shown_languages. cbv zeta. pose proof docker_language_known as Hd. generalize dependent (docker_language s).
  repeat (let H := fresh in set (H := negb (is_nil _)); clearbody H). intros d Hd.
  destruct d as [v|]; [|repeat match goal with H : bool |- _ => destruct H end; reflexivity].
  specialize (Hd v eq_refl). rewrite !elem_of_cons in Hd.
  destruct Hd as [->|[->|[->|[->|Hd]]]]; [..|by apply not_elem_of_nil in Hd];
    repeat match goal with H : bool |- _ => destruct H end; reflexivity.
Qed.
End Language.

(** The language of a profile is the one everything shows: without plugins
    it is the common language of the first Dockerfile's base image and of all
    the manifests, and unknown when there is none or they disagree.  Conventions
    and source files never decide it, and plugins can only withdraw it. *)
Theorem language_is_unanimous s plugins :
  language (inspect s []) = unanimous (shown_languages s) ∧
  (language (inspect s plugins) = unanimous (shown_languages s) ∨ language (inspect s plugins) = None).
Proof.
  rewrite <- deterministic_language. split; [done|]. unfold inspect. cbn [foldl].
  destruct (build_fields (deterministic s)) as (-> & _).
  destruct (build_fields (foldl (apply_plugin s) (deterministic s) plugins)) as (-> & _).
  destruct (in_value _ _ _ (inspected_infers s plugins) "language" (or_introl eq_refl)) as [?|[? _]]; auto.
Qed.

(* ------------------------------------------------------------------ *)
(** * Adoption plans and the gate *)

Definition integration (name : string) : Prop := name ∈ ["auth_provider"; "ci"; "compose"; "git"].
Lemma keep_item_spec f :
  match keep_item f with
  | Some i => integration (fact_name f) ∧ ai_kind i = Keep ∧ ai_evidence i = [fact_evidence f]
  | None => ¬ integration (fact_name f)
  end.
Proof. unfold keep_item, integration. repeat case_decide; simpl; split_and?; set_solver. Qed.
Lemma runner_item_kind f i : runner_item f = Some i → ai_kind i = Adopt.
Proof. unfold runner_item. repeat case_decide; by intros [= <-]. Qed.

(** The adoption plan of an inspected project is not applied, keeps every
    existing integration with the observation that shows it, and each item it
    keeps is backed by an observation of the profile.  Applying a plan only sets
    its flag, and only for a granted approval that names its approver. *)
Theorem adoption_preserves_existing s plugins approval :
  let p := inspect s plugins in
  let plan := AdoptionPlan_generate p in
  ap_applied plan = false ∧
  (∀ f, f ∈ facts p → integration (fact_name f) →
     ∃ i, i ∈ ap_items plan ∧ ai_kind i = Keep ∧ ai_evidence i = [fact_evidence f]) ∧
  (∀ i, i ∈ ap_items plan → ai_kind i = Keep →
     ai_evidence i ≠ [] ∧ ∀ e, e ∈ ai_evidence i → e ∈ evidence p) ∧
  ∃ r, AdoptionPlan_apply approval plan =
    Done (mkPlan (ap_items plan) (ap_profile_digest plan) (bool_decide (approval_ok approval)), r).
Proof.
  intros p plan. pose proof (inspected_inv s plugins) as Hb.
  destruct (build_fields (foldl (apply_plugin s) (deterministic s) plugins))
    as (_ & _ & Hf & He & Hc & _).
  change (build _) with p in Hf, He, Hc. clearbody p.
  set (b := foldl _ _ _) in *. clearbody b. split_and!.
  - done.
  - intros f Hin Hi. pose proof (keep_item_spec f) as Hk. destruct (keep_item f) as [i|] eqn:Ei; [|done].
    exists i. split; [|naive_solver]. unfold plan. simpl. apply elem_of_app. left.
    apply list_elem_of_omap. eauto.
  - intros i Hi Hk. unfold plan, AdoptionPlan_generate in Hi. cbn [ap_items] in Hi. rewrite !elem_of_app in Hi.
    destruct Hi as [Hi|[Hi|[Hi|[Hi|Hi]]]].
    + apply list_elem_of_omap in Hi as (f & Hin & Hi). pose proof (keep_item_spec f) as Hs.
      rewrite Hi in Hs. destruct Hs as (_ & _ & ->). split; [done|].
      intros e ->%list_elem_of_singleton. rewrite He. apply (bi_fact 7 b Hb). by rewrite <- Hf.
    + destruct (container_compatible p) eqn:Ec; [|by apply not_elem_of_nil in Hi].
      apply list_elem_of_singleton in Hi as ->. simpl.
      destruct (bi_container 7 b Hb) as (e & Hin & Hst); [congruence|]. rewrite <- He in Hin.
      destruct (List.find _ _) as [e'|] eqn:Ef; simpl.
      * apply find_Some_elem in Ef as [? _]. split; [done|]. by intros ? ->%list_elem_of_singleton.
      * exfalso. eapply find_None_elem in Ef; [|exact Hin]. by rewrite bool_decide_eq_true_2 in Ef.
    + apply list_elem_of_fmap in Hi as (x & -> & _). done.
    + apply list_elem_of_omap in Hi as (f & _ & Hi%runner_item_kind). congruence.
    + by apply list_elem_of_singleton in Hi as ->.
  - unfold AdoptionPlan_apply. destruct (approved approval) eqn:Ea; simpl.
    + destruct (trim_is_empty (approver approval)) eqn:Et; eexists; unfold_monad.
      * rewrite bool_decide_eq_false_2; [done|]. unfold approval_ok. by rewrite Ea, Et; intros [].
      * by rewrite bool_decide_eq_true_2.
    + eexists. unfold_monad. rewrite bool_decide_eq_false_2; [done|]. unfold approval_ok. rewrite Ea. by intros [].
Qed.

(** The steps of a change, each allowed by the gate. *)
Inductive change_run : list ChangeStep → Prop :=
| cr_start : change_run []
| cr_step completed requested :
    change_run completed → BroadChangeGate_check completed requested = Ok tt →
    change_run (completed ++ [requested]).
Lemma check_ok completed requested :
  BroadChangeGate_check completed requested = Ok tt ↔
  ∀ q, q ∈ predecessors requested → q ∈ completed.
Proof.
  unfold BroadChangeGate_check. set (missing := List.filter _ _).
  assert (∀ q, q ∈ missing ↔ q ∈ predecessors requested ∧ q ∉ completed) as Hm.
  { intros q. unfold missing. rewrite elem_of_lfilter, negb_true_iff, bool_decide_eq_false. done. }
  clearbody missing. destruct missing as [|q l]; simpl; split; try done.
  - intros _ q Hq. destruct (decide (q ∈ completed)); [done|]. exfalso.
    by eapply not_elem_of_nil, Hm.
  - intros Hall. destruct (proj1 (Hm q)) as [Hq Hn]; [apply elem_of_cons; by left|]. by destruct Hn; apply Hall.
Qed.

(** In every run of steps that the gate allows, a step comes after all the
    steps that must precede it, so nothing is applied that was not inspected,
    understood, modelled and proposed before; and the gate never blocks a change
    that follows the sequence. *)
Theorem broad_change_sequence completed :
  change_run completed →
  (∀ i step q, completed !! i = Some step → q ∈ predecessors step →
     ∃ j, j < i ∧ completed !! j = Some q) ∧
  ∀ step, (∀ q, q ∈ predecessors step → q ∈ completed) → change_run (completed ++ [step]).
Proof.
  intros Hr. split.
  - induction Hr as [|c r _ IH Hok]; intros i step q; [done|].
    rewrite check_ok in Hok. rewrite lookup_app_Some, list_lookup_singleton_Some.
    intros [Hi|(Hlen & Hi & <-)] Hq.
    + destruct (IH i step q Hi Hq) as (j & Hj & Hlj). exists j. split; [done|]. by apply lookup_app_l_Some.
    + apply Hok, list_elem_of_lookup in Hq as [j Hj]. exists j.
      pose proof (lookup_lt_Some _ _ _ Hj). split; [lia|]. by apply lookup_app_l_Some.
  - intros step Hq. apply cr_step; [done|]. by apply check_ok.
Qed.

Module InspectorExamples.
(** A FastAPI service with a Dockerfile, and a plugin that claims another language. *)
Definition service : ProjectSnapshot := ProjectSnapshot_new
  [("Dockerfile", "FROM python:3.12"); ("requirements.txt", "fastapi"); ("main.py", "app = FastAPI()");
   (".git/HEAD", "ref"); (".gitlab-ci.yml", "")].
Definition go_plugin (confidence : f32) : InspectorPlugin :=
  {| ip_name := "go"; ip_detect _ := [PluginFinding_new "language" "go"
       (Evidence_new "go.mod" "manifest" "module" confidence) confidence] |}.
Example service_profile :
  (language (inspect service []), framework (inspect service []),
   language (inspect service [go_plugin f32_0_8]), language (inspect service [go_plugin f32_0_9]))
  = (Some "python", Some "fastapi", Some "python", None).
Proof. vm_compute. reflexivity. Qed.
Definition steps_done : list ChangeStep := [CsInspect; CsUnderstand; CsModel; CsPropose; CsApply].
Lemma broad_change_sequence_witness :
  change_run steps_done ∧ ∃ j, j < 4 ∧ steps_done !! j = Some CsPropose.
Proof.
  assert (change_run steps_done) as Hr.
  { apply (cr_step [CsInspect; CsUnderstand; CsModel; CsPropose]); [|reflexivity].
    apply (cr_step [CsInspect; CsUnderstand; CsModel]); [|reflexivity].
    apply (cr_step [CsInspect; CsUnderstand]); [|reflexivity].
    apply (cr_step [CsInspect]); [|reflexivity]. apply (cr_step []); [apply cr_start|reflexivity]. }
  split; [exact Hr|].
  apply (proj1 (broad_change_sequence steps_done Hr) 4 CsApply CsPropose); [reflexivity|].
  apply (bool_decide_unpack _). vm_compute. exact I.
Defined.
End InspectorExamples.
