(* ===== verification/Deployment.v ===== *)
(** Deployments, images, domains, rollouts and rollback (deployment.rs). *)

From stdpp Require Import base option list strings pretty relations.
From Stdlib Require Import ZArith Lia.
From S2P Require Import Prelude External Errors Ids Trail Approval Resource Runtime.
Local Open Scope Z_scope.

(* ------------------------------------------------------------------ *)
(** * Revisions and images *)

Definition DATABASE_DATA_WARNING : string :=
  "deployment rollback restores the application image only; database data is not "
  +:+ "automatically rolled back. Review migrations applied since the target revision "
  +:+ "and restore data through an explicit, approved data operation.".
Definition CONFIGURATION_DATA_WARNING : string :=
  "configuration rollback changes platform configuration only; it does not revert "
  +:+ "the running image or database data.".
Definition SOURCE_WARNING : string :=
  "source rollback rebuilds from an earlier revision; it does not revert the "
  +:+ "currently running image until the rebuild is promoted".
Definition MIGRATION_WARNING : string :=
  "the delta includes a database migration; schema and data may be ahead of the "
  +:+ "rollback target".

Record Revision := {
  source_sha : string;
  config_hash : string;
  capability_hash : option string;
  introduces_migration : bool;
}.
Definition Revision_new (source_sha config_hash : string) (capability_hash : option string) :
    Revision :=
  {| source_sha := source_sha; config_hash := config_hash; capability_hash := capability_hash;
     introduces_migration := false |}.
Definition with_migration (self : Revision) (introduces : bool) : Revision :=
  {| source_sha := source_sha self; config_hash := config_hash self;
     capability_hash := capability_hash self; introduces_migration := introduces |}.

Inductive ImageSource := IsGeneric | IsNative.
Definition ImageSource_label (s : ImageSource) : string :=
  match s with
  | IsGeneric => "generic container runtime"
  | IsNative => "native runtime adapter"
  end.

Record Image := {
  img_reference : string;
  img_digest : string;
  img_source : ImageSource;
  img_runtime_kind : RuntimeKind;
  img_revision_sha : string;
}.
Definition is_addressable (self : Image) : bool :=
  starts_with "sha256:" (img_digest self) && negb (str_is_empty (img_reference self)).
Definition source_label (self : Image) : string := ImageSource_label (img_source self).

Inductive LogLevel := LlInfo | LlWarn | LlError.
Record DeploymentLog := { log_level : LogLevel; log_message : string; log_at : DateTime }.

Definition digest_of (base revision_sha : string) : string :=
  let hash := foldl fnv_step 0xcbf29ce484222325 (chars base ++ chars revision_sha) in
  let second := foldl fnv_step hash (chars revision_sha ++ chars base) in
  hex_fixed 16 hash +:+ hex_fixed 16 second.

Definition build_image (config : RuntimeConfig) (build : BuildResult) (revision : Revision)
    (secrets : list string) : result CoreError Image :=
  if decide (cfg_profile config ≠ Production) then
    Err (DeploymentError "development profiles never mint an OCI image")
  else if decide (br_status build ≠ BsSucceeded) then
    let detail := redact_reason (br_detail build) secrets in
    Err (DeploymentError ("cannot build image from " +:+ BuildStatus_debug (br_status build)
      +:+ " build: " +:+ detail))
  else
    base ← ok_or (DeploymentError ("runtime '" +:+ canonical_name (cfg_kind config)
                    +:+ "' produces no OCI artifact")) (cfg_oci_image config);
    let source := match cfg_kind config with Generic => IsGeneric | _ => IsNative end in
    let digest := "sha256:" +:+ digest_of base (source_sha revision) in
    Ok {| img_reference := base +:+ "@" +:+ digest; img_digest := digest; img_source := source;
          img_runtime_kind := cfg_kind config; img_revision_sha := source_sha revision |}.

(* ------------------------------------------------------------------ *)
(** * Domains *)

Record Domain := {
  dom_id : DomainId;
  dom_environment_id : EnvironmentId;
  dom_hostname : string;
  dom_tls : bool;
  dom_deployment : option DeploymentId;
}.
(** [fresh] is the identifier drawn by [DomainId::new]. *)
Definition Domain_new (fresh : DomainId) (environment_id : EnvironmentId) (hostname : string)
    (tls : bool) : Domain :=
  {| dom_id := fresh; dom_environment_id := environment_id; dom_hostname := hostname;
     dom_tls := tls; dom_deployment := None |}.
Definition is_routable (self : Domain) : bool :=
  negb (trim_is_empty (dom_hostname self)) && negb (any_whitespace (dom_hostname self)).
Definition dom_set_deployment (d : option DeploymentId) (self : Domain) : Domain :=
  {| dom_id := dom_id self; dom_environment_id := dom_environment_id self;
     dom_hostname := dom_hostname self; dom_tls := dom_tls self; dom_deployment := d |}.

(* ------------------------------------------------------------------ *)
(** * Deployment lifecycle *)

Inductive DeploymentPhase :=
| DpPending | DpBuilding | DpDeploying | DpHealthy | DpDegraded | DpFailed | DpSuperseded
| DpRolledBack.
#[global] Instance DeploymentPhase_eq_dec : EqDecision DeploymentPhase.
Proof. solve_decision. Defined.
Definition DeploymentPhase_debug (p : DeploymentPhase) : string :=
  match p with
  | DpPending => "Pending" | DpBuilding => "Building" | DpDeploying => "Deploying"
  | DpHealthy => "Healthy" | DpDegraded => "Degraded" | DpFailed => "Failed"
  | DpSuperseded => "Superseded" | DpRolledBack => "RolledBack"
  end.
Definition dp_is_terminal (p : DeploymentPhase) : bool :=
  match p with DpRolledBack => true | _ => false end.
Definition serves_traffic (p : DeploymentPhase) : bool := bool_decide (p = DpHealthy).
Definition dp_can_transition_to (p next : DeploymentPhase) : bool :=
  match p with
  | DpPending => match next with DpBuilding | DpFailed => true | _ => false end
  | DpBuilding => match next with DpDeploying | DpFailed => true | _ => false end
  | DpDeploying => match next with DpHealthy | DpDegraded | DpFailed => true | _ => false end
  | DpHealthy => match next with DpDegraded | DpSuperseded | DpRolledBack => true | _ => false end
  | DpDegraded => match next with DpHealthy | DpFailed | DpRolledBack => true | _ => false end
  | DpFailed => match next with DpRolledBack => true | _ => false end
  | DpSuperseded => match next with DpRolledBack => true | _ => false end
  | DpRolledBack => false
  end.

Record DeploymentTransition := {
  dt_from : DeploymentPhase;
  dt_to : DeploymentPhase;
  dt_at : DateTime;
  dt_reason : option string;
}.

Record Deployment := mkDeployment {
  dep_id : DeploymentId;
  dep_application_id : ApplicationId;
  dep_environment_id : EnvironmentId;
  dep_revision : Revision;
  dep_build : option BuildResult;
  dep_image : option Image;
  dep_runtime : RuntimeConfig;
  dep_resources : list ResourceId;
  dep_endpoint : option Endpoint;
  dep_health : HealthStatus;
  dep_phase : DeploymentPhase;
  dep_logs : list DeploymentLog;
  dep_rollback_target : option DeploymentId;
  dep_transitions : list DeploymentTransition;
}.
Definition dep_set_build b d :=
  mkDeployment (dep_id d) (dep_application_id d) (dep_environment_id d) (dep_revision d) b
    (dep_image d) (dep_runtime d) (dep_resources d) (dep_endpoint d) (dep_health d)
    (dep_phase d) (dep_logs d) (dep_rollback_target d) (dep_transitions d).
Definition dep_set_image i d :=
  mkDeployment (dep_id d) (dep_application_id d) (dep_environment_id d) (dep_revision d)
    (dep_build d) i (dep_runtime d) (dep_resources d) (dep_endpoint d) (dep_health d)
    (dep_phase d) (dep_logs d) (dep_rollback_target d) (dep_transitions d).
Definition dep_set_endpoint e d :=
  mkDeployment (dep_id d) (dep_application_id d) (dep_environment_id d) (dep_revision d)
    (dep_build d) (dep_image d) (dep_runtime d) (dep_resources d) e (dep_health d)
    (dep_phase d) (dep_logs d) (dep_rollback_target d) (dep_transitions d).
Definition dep_set_health h d :=
  mkDeployment (dep_id d) (dep_application_id d) (dep_environment_id d) (dep_revision d)
    (dep_build d) (dep_image d) (dep_runtime d) (dep_resources d) (dep_endpoint d) h
    (dep_phase d) (dep_logs d) (dep_rollback_target d) (dep_transitions d).
Definition dep_set_phase p d :=
  mkDeployment (dep_id d) (dep_application_id d) (dep_environment_id d) (dep_revision d)
    (dep_build d) (dep_image d) (dep_runtime d) (dep_resources d) (dep_endpoint d)
    (dep_health d) p (dep_logs d) (dep_rollback_target d) (dep_transitions d).
Definition dep_push_transition t d :=
  mkDeployment (dep_id d) (dep_application_id d) (dep_environment_id d) (dep_revision d)
    (dep_build d) (dep_image d) (dep_runtime d) (dep_resources d) (dep_endpoint d)
    (dep_health d) (dep_phase d) (dep_logs d) (dep_rollback_target d)
    (dep_transitions d ++ [t]).
Definition push_log (level : LogLevel) (message : string) (at_ : DateTime) (d : Deployment) :=
  mkDeployment (dep_id d) (dep_application_id d) (dep_environment_id d) (dep_revision d)
    (dep_build d) (dep_image d) (dep_runtime d) (dep_resources d) (dep_endpoint d)
    (dep_health d) (dep_phase d)
    (dep_logs d ++ [{| log_level := level; log_message := message; log_at := at_ |}])
    (dep_rollback_target d) (dep_transitions d).

Section Operations.
Context `{UuidLib}.

(** [fresh] is the identifier drawn by [DeploymentId::new]. *)
Definition Deployment_new (fresh : DeploymentId) (application_id : ApplicationId)
    (environment_id : EnvironmentId) (revision : Revision) (runtime : RuntimeConfig)
    (resources : list ResourceId) (rollback_target : option DeploymentId) (at_ : DateTime) :
    result CoreError Deployment :=
  if decide (cfg_profile runtime ≠ Production) then
    Err (DeploymentError "deployments require a production runtime profile")
  else
    Ok {| dep_id := fresh; dep_application_id := application_id;
          dep_environment_id := environment_id; dep_revision := revision; dep_build := None;
          dep_image := None; dep_runtime := runtime; dep_resources := resources;
          dep_endpoint := None; dep_health := HsStarting; dep_phase := DpPending;
          dep_logs := []; dep_rollback_target := rollback_target;
          dep_transitions :=
            [{| dt_from := DpPending; dt_to := DpPending; dt_at := at_; dt_reason := None |}] |}.

Definition move_to (next : DeploymentPhase) (reason : option string) (at_ : DateTime) :
    M Deployment CoreError unit :=
  self ← get;
  if negb (dp_can_transition_to (dep_phase self) next) then
    mthrow (DeploymentError ("illegal deployment transition "
      +:+ DeploymentPhase_debug (dep_phase self) +:+ " -> " +:+ DeploymentPhase_debug next
      +:+ " for " +:+ id_fmt (dep_id self)))
  else if decide (next = dep_phase self) then
    mthrow (DeploymentError ("deployment " +:+ id_fmt (dep_id self) +:+ " is already "
      +:+ DeploymentPhase_debug next))
  else
    modify (dep_set_phase next);;
    previous ← lift_o (expect "never empty" (last (dep_transitions self)));
    modify (dep_push_transition
      {| dt_from := dt_to previous; dt_to := next; dt_at := at_; dt_reason := reason |}).

Definition start_build (at_ : DateTime) : M Deployment CoreError unit :=
  move_to DpBuilding None at_.

Definition record_build (build : BuildResult) (secrets : list string) (at_ : DateTime) :
    M Deployment CoreError unit :=
  self ← get;
  if decide (dep_phase self ≠ DpBuilding) then
    mthrow (DeploymentError ("deployment " +:+ id_fmt (dep_id self)
      +:+ " cannot record a build while " +:+ DeploymentPhase_debug (dep_phase self)))
  else
    modify (dep_set_build (Some build));;
    if negb (BuildResult_is_success build) then
      let detail := redact_reason (br_detail build) secrets in
      modify (push_log LlError detail at_);;
      move_to DpFailed (Some detail) at_
    else
      image ← lift_r (build_image (dep_runtime self) build (dep_revision self) secrets);
      modify (push_log LlInfo ("image " +:+ img_digest image +:+ " built from "
                               +:+ source_label image) at_);;
      modify (dep_set_image (Some image));;
      move_to DpDeploying None at_.

Definition record_health (health : HealthStatus) (secrets : list string) (at_ : DateTime) :
    M Deployment CoreError unit :=
  match health with
  | HsHealthy =>
      modify (dep_set_health health);;
      move_to DpHealthy None at_
  | HsUnhealthy reason =>
      self ← get;
      let target := if decide (dep_phase self = DpDeploying) then DpFailed else DpDegraded in
      let reason := redact_reason reason secrets in
      modify (dep_set_health (HsUnhealthy reason));;
      move_to target (Some reason) at_
  | HsStarting | HsUnknown _ => modify (dep_set_health health)
  end.

Definition mark_superseded (at_ : DateTime) : M Deployment CoreError unit :=
  move_to DpSuperseded (Some "newer revision promoted") at_.
Definition mark_rolled_back (reason : string) (at_ : DateTime) : M Deployment CoreError unit :=
  move_to DpRolledBack (Some reason) at_.

Definition attach_endpoint (endpoint : Endpoint) : M Deployment CoreError unit :=
  if negb (ep_exposed endpoint) then
    mthrow (DeploymentError "cannot attach a non-exposed endpoint to a deployment")
  else modify (dep_set_endpoint (Some endpoint)).

Definition is_promoted (self : Deployment) : bool := serves_traffic (dep_phase self).

(** The derived [Debug] of an identifier is [DeploymentId(<uuid>)]. *)
Definition DeploymentId_debug (i : DeploymentId) : string :=
  "DeploymentId(" +:+ uuid_hyphenated (id_uuid i) +:+ ")".
Definition Deployment_to_event_detail (self : Deployment) : string :=
  let image := match dep_image self with Some i => img_digest i | None => "no-image" end in
  "deployment " +:+ id_fmt (dep_id self) +:+ " (" +:+ canonical_name (cfg_kind (dep_runtime self))
  +:+ ") phase " +:+ DeploymentPhase_debug (dep_phase self) +:+ " revision "
  +:+ source_sha (dep_revision self) +:+ " image " +:+ image +:+ " rollback "
  +:+ option_debug DeploymentId_debug (dep_rollback_target self).

(* ------------------------------------------------------------------ *)
(** * Rollouts *)

Record Rollout := mkRollout {
  deployments : list Deployment;
  current : option DeploymentId;
}.
Definition Rollout_new : Rollout := {| deployments := []; current := None |}.

Definition has_id (id : DeploymentId) (d : Deployment) : bool := bool_decide (dep_id d = id).
Definition Rollout_get (self : Rollout) (id : DeploymentId) : option Deployment :=
  List.find (has_id id) (deployments self).

(** [if let Some(d) = self.get_mut(id) { m(d)? }]: runs [m] on the first
    deployment with the identifier and writes it back; nothing when there is
    none. *)
Definition with_mut (id : DeploymentId) (m : M Deployment CoreError unit) :
    M Rollout CoreError unit := λ self,
  match Rollout_get self id with
  | None => Done (self, Ok tt)
  | Some d =>
      match m d with
      | Done (d', r) =>
          Done (mkRollout (update_first (has_id id) (λ _, d') (deployments self))
                  (current self), r)
      | Panic msg => Panic msg
      end
  end.

Definition is_rollback_candidate (d : Deployment) : bool :=
  match dep_phase d with DpHealthy | DpSuperseded => true | _ => false end
  && is_some (dep_image d).
Definition rollback_target (self : Rollout) : option DeploymentId :=
  dep_id <$> rfind is_rollback_candidate (deployments self).

Definition begin (fresh : DeploymentId) (application_id : ApplicationId)
    (environment_id : EnvironmentId) (revision : Revision) (runtime : RuntimeConfig)
    (resources : list ResourceId) (at_ : DateTime) : M Rollout CoreError DeploymentId :=
  self ← get;
  let target := rollback_target self in
  deployment ← lift_r (Deployment_new fresh application_id environment_id revision runtime
                         resources target at_);
  let id := dep_id deployment in
  modify (λ s, mkRollout (deployments s ++ [deployment]) (current s));;
  mret id.

Definition promote (id : DeploymentId) (at_ : DateTime) : M Rollout CoreError unit :=
  self ← get;
  deployment ← lift_r (ok_or (NotFound ("deployment " +:+ id_fmt id)) (Rollout_get self id));
  if decide (dep_phase deployment ≠ DpHealthy) then
    mthrow (DeploymentError ("only a healthy deployment can be promoted, " +:+ id_fmt id
      +:+ " is " +:+ DeploymentPhase_debug (dep_phase deployment)))
  else
    match current self with
    | Some previous =>
        if decide (previous ≠ id) then
          with_mut previous (
            old ← get;
            if decide (dep_phase old = DpHealthy) then mark_superseded at_ else mret tt)
        else mret tt
    | None => mret tt
    end;;
    modify (λ s, mkRollout (deployments s) (Some id)).

Definition current_digest (self : Rollout) : option string :=
  id ← current self;
  d ← Rollout_get self id;
  img_digest <$> dep_image d.

(* ------------------------------------------------------------------ *)
(** * Rollback *)

Inductive RollbackKind := RkSource | RkDeployment | RkConfiguration.
#[global] Instance RollbackKind_eq_dec : EqDecision RollbackKind.
Proof. solve_decision. Defined.
Definition RollbackKind_debug (k : RollbackKind) : string :=
  match k with
  | RkSource => "Source" | RkDeployment => "Deployment" | RkConfiguration => "Configuration"
  end.
Definition touches_runtime_image (k : RollbackKind) : bool :=
  match k with RkDeployment => true | _ => false end.

Record RollbackPlan := {
  rp_kind : RollbackKind;
  rp_from : DeploymentId;
  rp_to : DeploymentId;
  rp_warnings : list string;
  rp_migration_in_delta : bool;
  rp_requires_approval : bool;
}.

Definition plan_rollback (kind : RollbackKind) (from to : Deployment) :
    result CoreError RollbackPlan :=
  if decide (dep_id from = dep_id to) then
    Err (DeploymentError "rollback target must differ from the current deployment")
  else if negb (is_some (dep_image to)) then
    Err (DeploymentError ("rollback target " +:+ id_fmt (dep_id to) +:+ " has no built image"))
  else
    let migration_in_delta := introduces_migration (dep_revision from) in
    let warnings := match kind with
                    | RkDeployment => [DATABASE_DATA_WARNING]
                    | RkSource => [SOURCE_WARNING]
                    | RkConfiguration => [CONFIGURATION_DATA_WARNING]
                    end in
    let warnings :=
      if migration_in_delta && bool_decide (kind ≠ RkConfiguration)
      then warnings ++ [MIGRATION_WARNING] else warnings in
    Ok {| rp_kind := kind; rp_from := dep_id from; rp_to := dep_id to; rp_warnings := warnings;
          rp_migration_in_delta := migration_in_delta; rp_requires_approval := true |}.

Definition select_rollback_target (rollout : Rollout) (current : DeploymentId) :
    option DeploymentId :=
  dep_id <$> rfind (λ d, bool_decide (dep_id d ≠ current) && is_some (dep_image d)
                         && bool_decide (dep_phase d ≠ DpFailed)) (deployments rollout).

Record RollbackOutcome := {
  ro_kind : RollbackKind;
  ro_from : DeploymentId;
  ro_to : DeploymentId;
  ro_traffic_moved : bool;
  ro_detail : string;
}.

Definition is_safe_target (p : DeploymentPhase) : bool :=
  match p with DpSuperseded | DpRolledBack | DpHealthy => true | _ => false end.

(** The two [&mut] arguments, the rollout and the domains, are the state. *)
Definition execute_rollback (plan : RollbackPlan) (approval : ExplicitApproval)
    (at_ : DateTime) : M (Rollout * list Domain) CoreError RollbackOutcome :=
  if approval_missing approval then
    mthrow (ApprovalRequired ("rollback " +:+ RollbackKind_debug (rp_kind plan) +:+ " "
      +:+ id_fmt (rp_from plan) +:+ " -> " +:+ id_fmt (rp_to plan)
      +:+ " requires a granted, named human approval"))
  else if decide (rp_kind plan ≠ RkDeployment) then
    mret {| ro_kind := rp_kind plan; ro_from := rp_from plan; ro_to := rp_to plan;
            ro_traffic_moved := false; ro_detail := str_join " | " (rp_warnings plan) |}
  else
    '(rollout, _) ← get;
    target ← lift_r (ok_or (NotFound ("deployment " +:+ id_fmt (rp_to plan)))
                       (Rollout_get rollout (rp_to plan)));
    let target_phase := dep_phase target in
    if negb (is_safe_target target_phase) then
      mthrow (DeploymentError ("rollback target " +:+ id_fmt (rp_to plan) +:+ " is "
        +:+ DeploymentPhase_debug target_phase +:+ ", not a safe target"))
    else
      zoom fst (λ r s, (r, s.2)) (with_mut (rp_from plan) (
        source ← get;
        if decide (dep_phase source = DpHealthy ∨ dep_phase source = DpDegraded) then
          mark_rolled_back ("rolled back to " +:+ id_fmt (rp_to plan) +:+ " by "
                            +:+ approver approval) at_
        else mret tt));;
      zoom fst (λ r s, (r, s.2)) (with_mut (rp_to plan) (
        target ← get;
        if decide (dep_phase target ≠ DpHealthy) then
          modify (dep_set_phase DpHealthy);;
          modify (dep_push_transition
            {| dt_from := target_phase; dt_to := DpHealthy; dt_at := at_;
               dt_reason := Some "restored by rollback" |})
        else mret tt));;
      modify (λ '(r, ds), (mkRollout (deployments r) (Some (rp_to plan)), ds));;
      modify (λ '(r, ds),
        (r, map (λ domain,
                 if decide (dom_deployment domain = Some (rp_from plan))
                 then dom_set_deployment (Some (rp_to plan)) domain else domain) ds));;
      mret {| ro_kind := rp_kind plan; ro_from := rp_from plan; ro_to := rp_to plan;
              ro_traffic_moved := true; ro_detail := DATABASE_DATA_WARNING |}.

Definition attach_domain (deployment : Deployment) (approval : ExplicitApproval) :
    M Domain CoreError unit :=
  domain ← get;
  if approval_missing approval then
    mthrow (ApprovalRequired ("domain change for '" +:+ dom_hostname domain
      +:+ "' requires explicit approval"))
  else if negb (is_routable domain) then
    mthrow (DeploymentError ("domain '" +:+ dom_hostname domain +:+ "' is not routable"))
  else if negb (is_promoted deployment) then
    mthrow (DeploymentError ("cannot route '" +:+ dom_hostname domain
      +:+ "' to unpromoted deployment " +:+ id_fmt (dep_id deployment) +:+ " ("
      +:+ DeploymentPhase_debug (dep_phase deployment) +:+ ")"))
  else modify (dom_set_deployment (Some (dep_id deployment))).
End Operations.

(* ------------------------------------------------------------------ *)
(** * Images *)

Lemma build_image_ok config build revision secrets i :
  build_image config build revision secrets = Ok i ↔
  cfg_profile config = Production ∧ br_status build = BsSucceeded ∧
  ∃ base, cfg_oci_image config = Some base ∧
    let digest := "sha256:" +:+ digest_of base (source_sha revision) in
    i = {| img_reference := base +:+ "@" +:+ digest; img_digest := digest;
           img_source := match cfg_kind config with Generic => IsGeneric | _ => IsNative end;
           img_runtime_kind := cfg_kind config; img_revision_sha := source_sha revision |}.
Proof.
  unfold build_image. case_decide; [naive_solver|]. case_decide; [naive_solver|].
  destruct (cfg_oci_image config); unfold_monad; [|naive_solver].
  destruct (decide (cfg_profile config = Production)); [|done].
  destruct (decide (br_status build = BsSucceeded)); [|done]. naive_solver.
Qed.

(** An image is minted exactly for a succeeded production build of a
    runtime that has an OCI reference; it is addressable, its digest is
    [sha256:] and 32 hexadecimal digits, its reference is the runtime's reference
    pinned to the digest, and it does not depend on the secrets used for
    redaction. *)
Theorem build_image_spec config build revision secrets :
  if decide (cfg_profile config = Production ∧ br_status build = BsSucceeded ∧
             is_Some (cfg_oci_image config)) then
    ∃ i base, build_image config build revision secrets = Ok i ∧
      cfg_oci_image config = Some base ∧
      is_addressable i = true ∧ String.length (img_digest i) = 39%nat ∧
      img_reference i = base +:+ "@" +:+ img_digest i ∧
      img_revision_sha i = source_sha revision ∧
      ∀ secrets', build_image config build revision secrets' = Ok i
  else ∃ m, build_image config build revision secrets = Err (DeploymentError m).
Proof.
  case_decide as Hc.
  - destruct Hc as (Hp & Hb & [base Ho]).
    eexists _, base. split; [apply build_image_ok; eauto|]. split; [done|]. simpl.
    split; [|split; [|split; [done|split; [done|]]]].
    + unfold is_addressable. simpl. by destruct base.
    + done.
    + intros secrets'. apply build_image_ok. eauto.
  - unfold build_image. case_decide; [eauto|]. case_decide; [eauto|].
    destruct (cfg_oci_image config) eqn:E; unfold_monad; [|eauto].
    exfalso. apply Hc. split_and!; [by destruct (cfg_profile config)| |eauto].
    by destruct (decide (br_status build = BsSucceeded)).
Qed.

(* ------------------------------------------------------------------ *)
(** * One deployment *)

(** A rollback may restore a superseded or rolled-back deployment; every other
    move follows the rollout graph. *)
Definition dep_legal (p q : DeploymentPhase) : bool :=
  dp_can_transition_to p q
  || bool_decide (q = DpHealthy ∧ (p = DpSuperseded ∨ p = DpRolledBack)).

Definition needs_image (p : DeploymentPhase) : bool :=
  match p with DpDeploying | DpHealthy | DpDegraded | DpSuperseded => true | _ => false end.
Definition gate_passed (d : Deployment) : Prop :=
  Exists (λ t, dt_to t = DpHealthy) (dep_transitions d).

Record Deployment_wf (d : Deployment) : Prop := {
  wf_trail : trail dt_from dt_to dep_legal DpPending (dep_transitions d) (dep_phase d);
  wf_profile : cfg_profile (dep_runtime d) = Production;
  wf_needs_image : needs_image (dep_phase d) = true → is_Some (dep_image d);
  wf_unbuilt : dep_phase d = DpPending ∨ dep_phase d = DpBuilding → dep_image d = None;
  wf_gate_image : gate_passed d → is_Some (dep_image d);
  wf_image : ∀ i, dep_image d = Some i →
    ∃ build, dep_build d = Some build ∧ build_image (dep_runtime d) build (dep_revision d) [] = Ok i;
}.

(** What no operation changes, and what only grows. *)
Record evolves (d d' : Deployment) : Prop := {
  ev_id : dep_id d' = dep_id d;
  ev_application : dep_application_id d' = dep_application_id d;
  ev_environment : dep_environment_id d' = dep_environment_id d;
  ev_revision : dep_revision d' = dep_revision d;
  ev_runtime : dep_runtime d' = dep_runtime d;
  ev_resources : dep_resources d' = dep_resources d;
  ev_target : dep_rollback_target d' = dep_rollback_target d;
  ev_image : ∀ i, dep_image d = Some i → dep_image d' = Some i;
  ev_transitions : dep_transitions d `prefix_of` dep_transitions d';
  ev_logs : dep_logs d `prefix_of` dep_logs d';
}.
#[global] Instance evolves_preorder : PreOrder evolves.
Proof.
  split.
  - intros d. by split.
  - intros d1 d2 d3 [] []. split; try congruence; eauto; by etrans.
Qed.

Lemma evolves_gate d d' : evolves d d' → gate_passed d → gate_passed d'.
Proof.
  unfold gate_passed. intros [? ? ? ? ? ? ? ? [k ->] ?] Hg. apply Exists_app. by left.
Qed.

(** One call on a deployment. *)
Inductive DeploymentOp :=
| DoStartBuild (at_ : DateTime)
| DoRecordBuild (build : BuildResult) (secrets : list string) (at_ : DateTime)
| DoRecordHealth (health : HealthStatus) (secrets : list string) (at_ : DateTime)
| DoMarkSuperseded (at_ : DateTime)
| DoMarkRolledBack (reason : string) (at_ : DateTime)
| DoAttachEndpoint (endpoint : Endpoint)
| DoPushLog (level : LogLevel) (message : string) (at_ : DateTime).

Definition moved (next : DeploymentPhase) (reason : option string) (at_ : DateTime)
    (d : Deployment) : Deployment :=
  dep_push_transition
    {| dt_from := dep_phase d; dt_to := next; dt_at := at_; dt_reason := reason |}
    (dep_set_phase next d).

Section DeploymentFacts.
Context `{UuidLib}.
Implicit Types (d : Deployment) (op : DeploymentOp).

Definition run_deployment_op (op : DeploymentOp) : M Deployment CoreError unit :=
  match op with
  | DoStartBuild at_ => start_build at_
  | DoRecordBuild build secrets at_ => record_build build secrets at_
  | DoRecordHealth health secrets at_ => record_health health secrets at_
  | DoMarkSuperseded at_ => mark_superseded at_
  | DoMarkRolledBack reason at_ => mark_rolled_back reason at_
  | DoAttachEndpoint endpoint => attach_endpoint endpoint
  | DoPushLog level message at_ => modify (push_log level message at_)
  end.

Lemma dp_no_self p : dp_can_transition_to p p = false.
Proof. by destruct p. Qed.

Definition has_trail (d : Deployment) : Prop :=
  trail dt_from dt_to dep_legal DpPending (dep_transitions d) (dep_phase d).

Lemma move_to_legal next reason at_ d :
  has_trail d → dp_can_transition_to (dep_phase d) next = true →
  move_to next reason at_ d = Done (moved next reason at_ d, Ok tt).
Proof.
  intros Hwf E. unfold move_to. unfold_monad. rewrite E. simpl.
  rewrite decide_False by (intros ->; by rewrite dp_no_self in E).
  destruct (trail_last _ _ _ _ _ _ Hwf) as (l & Hl & Hto). rewrite Hl. simpl.
  unfold moved. by rewrite Hto.
Qed.
Lemma move_to_illegal next reason at_ d :
  dp_can_transition_to (dep_phase d) next = false →
  ∃ m, move_to next reason at_ d = Done (d, Err (DeploymentError m)).
Proof. intros E. unfold move_to. unfold_monad. rewrite E. simpl. eauto. Qed.

(** The fields other than the health reading and the logs. *)
Definition same_core d d' : Prop :=
  evolves d d' ∧ dep_phase d' = dep_phase d ∧ dep_image d' = dep_image d ∧
  dep_transitions d' = dep_transitions d ∧
  (dep_image d = None ∨ dep_build d' = dep_build d).
Lemma same_core_wf d d' : same_core d d' → Deployment_wf d → Deployment_wf d'.
Proof.
  intros (Hev & Hp & Hi & Ht & Hb) [H1 H2 H3 H4 H5 H6]. destruct Hev.
  split; unfold gate_passed in *; rewrite ?Hp, ?Hi, ?Ht; try congruence; eauto.
  intros i E. destruct Hb as [Hb| ->]; [congruence|].
  destruct (H6 i E) as (b & ? & ?). exists b. split; congruence.
Qed.

Lemma dep_legal_graph p q : dp_can_transition_to p q = true → dep_legal p q = true.
Proof. unfold dep_legal. by intros ->. Qed.

(** A legal move keeps the invariant when the phases that need an image have
    one. *)
Lemma moved_wf next reason at_ d :
  Deployment_wf d → dep_legal (dep_phase d) next = true →
  (needs_image next = true → is_Some (dep_image d)) →
  (next = DpBuilding → dep_phase d = DpPending) → next ≠ DpPending →
  Deployment_wf (moved next reason at_ d).
Proof.
  intros [H1 H2 H3 H4 H5 H6] Hleg Himg Hb Hp. split; simpl; try done.
  - by eapply trail_extend.
  - intros [?|?]; naive_solver.
  - unfold gate_passed. simpl. intros [Hg|Hg]%Exists_app; [by apply H5|].
    apply Exists_cons in Hg as [Hg|Hg%Exists_nil]; [|done]. simpl in Hg. subst. by apply Himg.
Qed.
Lemma moved_evolves next reason at_ d : evolves d (moved next reason at_ d).
Proof. split; simpl; try done. by eexists. Qed.

(** The rollout graph never enters an image phase from one without an image. *)
Lemma graph_needs_image p q :
  dp_can_transition_to p q = true → needs_image q = true →
  q = DpDeploying ∧ p = DpBuilding ∨ needs_image p = true.
Proof. destruct p, q; simpl; try done; intros; first [by left | by right]. Qed.
Lemma graph_targets p q :
  dp_can_transition_to p q = true → q ≠ DpPending ∧ (q = DpBuilding → p = DpPending).
Proof. by destruct p, q. Qed.

Lemma set_health_core h d : same_core d (dep_set_health h d).
Proof. unfold same_core. split_and!; try done; first [by right | by split]. Qed.
Lemma moved_core next reason at_ d d' :
  same_core d d' → evolves d (moved next reason at_ d').
Proof. intros [Hev _]. etrans; [exact Hev|apply moved_evolves]. Qed.

(** What one call does to a deployment: it finishes, keeps the invariant, keeps
    the frame, moves along the rollout graph if at all, and enters the healthy
    phase only on a healthy observation. *)
Definition dep_op_effect op d d' : Prop :=
  Deployment_wf d' ∧ evolves d d' ∧
  (dep_phase d' = dep_phase d ∨ dp_can_transition_to (dep_phase d) (dep_phase d') = true) ∧
  (dep_phase d' = DpHealthy → dep_phase d ≠ DpHealthy →
   (∃ secrets at_, op = DoRecordHealth HsHealthy secrets at_) ∧
   (dep_phase d = DpDeploying ∨ dep_phase d = DpDegraded) ∧
   dep_health d' = HsHealthy ∧ is_Some (dep_image d')).

(** A move after a change of readings, which never fails to finish. *)
Lemma move_effect op next reason at_ d d0 :
  Deployment_wf d → same_core d d0 →
  (next = DpDeploying → dep_phase d ≠ DpBuilding) →
  (next = DpHealthy →
   (∃ secrets at_, op = DoRecordHealth HsHealthy secrets at_) ∧ dep_health d0 = HsHealthy) →
  ∃ d' res, move_to next reason at_ d0 = Done (d', res) ∧ dep_op_effect op d d'.
Proof.
  intros Hwf Hc Hnext Hh. pose proof (same_core_wf _ _ Hc Hwf) as Hwf0.
  destruct Hc as (Hev & Hp & Hi & Hrest).
  destruct (dp_can_transition_to (dep_phase d0) next) eqn:E.
  - eexists _, _. rewrite move_to_legal by (try apply Hwf0; done). split; [done|].
    destruct (graph_targets _ _ E) as [Hnp Hnb].
    assert (needs_image next = true → is_Some (dep_image d0)) as Himg.
    { intros Hn. apply Hwf0. destruct (graph_needs_image _ _ E Hn) as [[-> Hb]|?]; [|done].
      destruct Hnext; congruence. }
    split; [by apply moved_wf; auto using dep_legal_graph|].
    split; [etrans; [exact Hev|apply moved_evolves]|]. simpl. rewrite <- Hp.
    split; [by right|]. intros -> Hne. destruct (Hh eq_refl) as [? ?]. split_and!; auto.
    destruct (dep_phase d0); simpl in E; auto; done.
  - destruct (move_to_illegal next reason at_ d0 E) as [m ->]. eexists _, _.
    split; [done|]. split; [done|]. split; [done|]. split; [auto|]. congruence.
Qed.

Lemma keep_effect op d d' : Deployment_wf d → same_core d d' → dep_op_effect op d d'.
Proof.
  intros Hwf Hc. split; [by eapply same_core_wf|]. destruct Hc as (Hev & Hp & _).
  split; [done|]. rewrite Hp. split; [by left|done].
Qed.

(** A successful build mints the image and moves on. *)
Lemma record_build_success build secrets at_ d i :
  Deployment_wf d → dep_phase d = DpBuilding →
  build_image (dep_runtime d) build (dep_revision d) secrets = Ok i →
  record_build build secrets at_ d =
    Done (moved DpDeploying None at_ (dep_set_image (Some i)
            (push_log LlInfo ("image " +:+ img_digest i +:+ " built from " +:+ source_label i) at_
               (dep_set_build (Some build) d))), Ok tt).
Proof.
  intros Hwf Hp Hi. pose proof (proj1 (build_image_ok _ _ _ _ _) Hi) as (_ & Hs & _).
  unfold record_build, mbind, M_bind, get. rewrite decide_False by naive_solver.
  unfold modify, lift_r, BuildResult_is_success. rewrite Hs. simpl. rewrite Hi.
  apply move_to_legal; [apply Hwf|]. simpl. by rewrite Hp.
Qed.
Lemma record_build_wf build at_ d i level m reason :
  Deployment_wf d → dep_phase d = DpBuilding →
  build_image (dep_runtime d) build (dep_revision d) [] = Ok i →
  Deployment_wf (moved DpDeploying reason at_ (dep_set_image (Some i)
     (push_log level m at_ (dep_set_build (Some build) d)))).
Proof.
  intros [H1 H2 H3 H4 H5 H6] Hp Hi. split; simpl; try done.
  - eapply trail_extend; [exact H1|simpl; congruence|done|]. by rewrite Hp.
  - naive_solver.
  - intros i' [= <-]. eauto.
Qed.

Lemma record_build_effect build secrets at_ d :
  Deployment_wf d →
  ∃ d' res, record_build build secrets at_ d = Done (d', res) ∧
    dep_op_effect (DoRecordBuild build secrets at_) d d'.
Proof.
  intros Hwf. destruct (decide (dep_phase d = DpBuilding)) as [Hp|Hp].
  2:{ unfold record_build. unfold_monad. rewrite decide_True by done.
      eexists _, _. split; [done|]. apply keep_effect; [done|].
      unfold same_core. split_and!; try done. by right. }
  assert (dep_image d = None) as Hnone by (apply Hwf; auto).
  destruct (build_image (dep_runtime d) build (dep_revision d) secrets) as [i|e] eqn:Hi.
  - eexists _, _. split; [by apply record_build_success|].
    split; [by apply record_build_wf; [..|apply build_image_ok in Hi; apply build_image_ok]|].
    split; [|simpl; rewrite Hp; split; [by right|done]].
    split; simpl; try done; [congruence|by eexists..].
  - unfold record_build, mbind, M_bind, get, modify, lift_r.
    rewrite decide_False by naive_solver. rewrite Hi.
    assert (∀ f, (∀ x, same_core x (f x)) → same_core d (f (dep_set_build (Some build) d))) as Hc.
    { intros f Hf. destruct (Hf (dep_set_build (Some build) d)) as (Hev & Hp' & Hi' & Ht & _).
      destruct Hev. split; [by split|]. split_and!; [done..|]. by left. }
    destruct (BuildResult_is_success build); simpl.
    + eexists _, _. split; [done|]. apply keep_effect; [done|]. apply (Hc id).
      intros x. unfold same_core. split_and!; try done. by right.
    + apply move_effect; [done| |done|done].
      apply (Hc (push_log _ _ _)). intros x. unfold same_core.
      split_and!; try done; [|by right]. split; simpl; try done. by eexists.
Qed.

(** Every call finishes with the effect above. *)
Lemma deployment_op_effect op d :
  Deployment_wf d → ∃ d' res, run_deployment_op op d = Done (d', res) ∧ dep_op_effect op d d'.
Proof.
  intros Hwf. assert (same_core d d) as Hrefl.
  { unfold same_core. split_and!; try done. by right. }
  destruct op as [at_|build secrets at_|health secrets at_|at_|reason at_|e|l m at_]; simpl.
  - by apply move_effect.
  - by apply record_build_effect.
  - destruct health as [| |reason|reason]; unfold record_health, mbind, M_bind, get, modify.
    + eexists _, _. split; [done|]. apply keep_effect; [done|apply set_health_core].
    + apply move_effect; [done|apply set_health_core|done|]. intros _. eauto.
    + apply move_effect; [done|apply set_health_core|..]; case_decide; done.
    + eexists _, _. split; [done|]. apply keep_effect; [done|apply set_health_core].
  - by apply move_effect.
  - by apply move_effect.
  - unfold attach_endpoint. destruct (ep_exposed e); unfold_monad; eexists _, _;
      (split; [done|]); apply keep_effect; try done. unfold same_core.
    split_and!; try done; first [by right | by split].
  - eexists _, _. split; [done|]. apply keep_effect; [done|]. unfold same_core.
    split_and!; try done; [|by right]. split; simpl; try done. by eexists.
Qed.

Lemma Deployment_new_wf fresh app env rev rt res target at_ d :
  Deployment_new fresh app env rev rt res target at_ = Ok d →
  Deployment_wf d ∧ dep_id d = fresh ∧ dep_rollback_target d = target ∧ dep_phase d = DpPending.
Proof.
  unfold Deployment_new. case_decide as Hp; [done|]. intros [= <-]. split; [|done].
  split; simpl; try done.
  - by constructor.
  - intros Hg. by apply Exists_cons in Hg as [?|?%Exists_nil].
Qed.
End DeploymentFacts.

(* ------------------------------------------------------------------ *)
(** * Rollouts: promotion and rollback *)

(** Applying a function to the first deployment with an identifier. *)
Definition on (id : DeploymentId) (f : Deployment → Deployment) (r : Rollout) : Rollout :=
  mkRollout (update_first (has_id id) f (deployments r)) (current r).
Definition phase_of (r : Rollout) (id : DeploymentId) : option DeploymentPhase :=
  dep_phase <$> Rollout_get r id.

(** What [promote] does to the previously serving deployment, and what
    [execute_rollback] does to the source and to the target. *)
Definition superseded (at_ : DateTime) (d : Deployment) : Deployment :=
  if decide (dep_phase d = DpHealthy)
  then moved DpSuperseded (Some "newer revision promoted") at_ d else d.
Definition restored (at_ : DateTime) (d : Deployment) : Deployment :=
  if decide (dep_phase d ≠ DpHealthy)
  then moved DpHealthy (Some "restored by rollback") at_ d else d.
Definition repoint (from to : DeploymentId) (domain : Domain) : Domain :=
  if decide (dom_deployment domain = Some from) then dom_set_deployment (Some to) domain
  else domain.

Lemma has_id_true id d : has_id id d = true ↔ dep_id d = id.
Proof. unfold has_id. by rewrite bool_decide_eq_true. Qed.
Lemma Rollout_get_Some r id d :
  Rollout_get r id = Some d → dep_id d = id ∧ d ∈ deployments r.
Proof. intros [? ?%has_id_true]%find_Some_elem. done. Qed.

Lemma find_update_first (id id' : DeploymentId) f l :
  (∀ d, dep_id d = id → dep_id (f d) = id) →
  List.find (has_id id') (update_first (has_id id) f l) =
    if decide (id' = id) then f <$> List.find (has_id id) l else List.find (has_id id') l.
Proof.
  intros Hf. induction l as [|d l IH]; simpl; [by case_decide|].
  destruct (has_id id d) eqn:E; simpl.
  - apply has_id_true in E. unfold has_id. rewrite E, (Hf d E).
    case_decide as Hid; [by rewrite bool_decide_true|by rewrite bool_decide_false].
  - rewrite IH. case_decide as Hid; [subst; by rewrite E|done].
Qed.
Lemma get_on id f r id' :
  (∀ d, dep_id d = id → dep_id (f d) = id) →
  Rollout_get (on id f r) id' =
    if decide (id' = id) then f <$> Rollout_get r id else Rollout_get r id'.
Proof. apply find_update_first. Qed.

Lemma update_first_None {A} (p : A → bool) f l : List.find p l = None → update_first p f l = l.
Proof.
  induction l as [|x l IH]; simpl; [done|]. destruct (p x); [done|]. intros H. by rewrite IH.
Qed.
Lemma update_first_const {A} (p : A → bool) f l x :
  List.find p l = Some x → update_first p (λ _, f x) l = update_first p f l.
Proof.
  induction l as [|y l IH]; simpl; [done|]. destruct (p y); [by intros [= ->]|].
  intros H. by rewrite IH.
Qed.

#[global] Instance safe_target_dec (o : option DeploymentPhase) :
  Decision (∃ p, o = Some p ∧ is_safe_target p = true).
Proof.
  destruct o as [p|]; [|right; naive_solver].
  destruct (is_safe_target p) eqn:E; [left; by exists p|right; intros (q & [= <-] & ?); congruence].
Defined.

Section RolloutFacts.
Context `{UuidLib}.
Implicit Types (r : Rollout) (id : DeploymentId).

Definition retired (to : DeploymentId) (by_ : string) (at_ : DateTime) (d : Deployment) :
    Deployment :=
  if decide (dep_phase d = DpHealthy ∨ dep_phase d = DpDegraded)
  then moved DpRolledBack (Some ("rolled back to " +:+ id_fmt to +:+ " by " +:+ by_)) at_ d
  else d.

Lemma superseded_id at_ id d : dep_id d = id → dep_id (superseded at_ d) = id.
Proof. unfold superseded. by case_decide. Qed.
Lemma restored_id at_ id d : dep_id d = id → dep_id (restored at_ d) = id.
Proof. unfold restored. by case_decide. Qed.
Lemma retired_id to by_ at_ id d : dep_id d = id → dep_id (retired to by_ at_ d) = id.
Proof. unfold retired. by case_decide. Qed.

Lemma with_mut_on id (m : M Deployment CoreError unit) f r :
  (∀ d, Rollout_get r id = Some d → m d = Done (f d, Ok tt)) →
  with_mut id m r = Done (on id f r, Ok tt).
Proof.
  intros Hm. unfold with_mut, on. destruct (Rollout_get r id) as [d|] eqn:E.
  - rewrite (Hm d) by done. by rewrite (update_first_const _ f _ d).
  - rewrite update_first_None by done. by destruct r.
Qed.

Definition all_wf r : Prop := Forall Deployment_wf (deployments r).
Lemma all_wf_get r id d : all_wf r → Rollout_get r id = Some d → Deployment_wf d.
Proof. unfold all_wf. rewrite Forall_forall. intros Hall [_ ?]%Rollout_get_Some. auto. Qed.

Lemma promote_run id at_ r d :
  all_wf r → Rollout_get r id = Some d → dep_phase d = DpHealthy →
  promote id at_ r =
    Done (mkRollout
            (match current r with
             | Some previous =>
                 if decide (previous ≠ id) then deployments (on previous (superseded at_) r)
                 else deployments r
             | None => deployments r
             end) (Some id), Ok tt).
Proof.
  intros Hwf Hget Hp. unfold promote. unfold_monad. rewrite Hget. simpl.
  rewrite decide_False by naive_solver.
  destruct (current r) as [previous|]; [|done]. case_decide; [|done].
  erewrite (with_mut_on previous _ (superseded at_)); [done|].
  intros old Hold. unfold superseded. simpl. case_decide as Ho; [|done].
  unfold mark_superseded. rewrite move_to_legal; [done| |by rewrite Ho]. apply (wf_trail _ (all_wf_get _ _ _ Hwf Hold)).
Qed.

(** Promotion refuses an unknown deployment and one that is not
    healthy, without any change.  Otherwise the deployment becomes the current
    one, the previously current one is superseded when it was still healthy, and
    no other deployment changes phase. *)
Theorem promote_spec id at_ r :
  all_wf r →
  match phase_of r id with
  | None => promote id at_ r = Done (r, Err (NotFound ("deployment " +:+ id_fmt id)))
  | Some DpHealthy =>
      ∃ r', promote id at_ r = Done (r', Ok tt) ∧ current r' = Some id ∧
        ∀ id', phase_of r' id' =
          if decide (current r = Some id' ∧ id' ≠ id ∧ phase_of r id' = Some DpHealthy)
          then Some DpSuperseded else phase_of r id'
  | Some _ => ∃ m, promote id at_ r = Done (r, Err (DeploymentError m))
  end.
Proof.
  intros Hwf. unfold phase_of at 1. destruct (Rollout_get r id) as [d|] eqn:Hget; simpl.
  2:{ unfold promote. unfold_monad. by rewrite Hget. }
  destruct (decide (dep_phase d = DpHealthy)) as [Hp|Hp].
  2:{ assert (∃ m, promote id at_ r = Done (r, Err (DeploymentError m)));
        [|by destruct (dep_phase d)].
      unfold promote. unfold_monad. rewrite Hget. simpl. rewrite decide_True by done. eauto. }
  rewrite Hp. eexists. split; [by eapply promote_run|]. split; [done|]. intros id'.
  unfold phase_of, Rollout_get. simpl.
  destruct (current r) as [previous|]; [|by rewrite decide_False by naive_solver].
  case_decide as Hne.
  2:{ rewrite decide_False; [done|]. intros ([= ->] & ? & ?). done. }
  simpl. rewrite find_update_first by apply superseded_id.
  destruct (decide (id' = previous)) as [->|Hid'].
  2:{ rewrite (decide_False (P := _ ∧ _)); [done|]. naive_solver. }
  destruct (List.find (has_id previous) (deployments r)) as [old|]; simpl.
  2:{ rewrite decide_False; [done|]. naive_solver. }
  unfold superseded. destruct (decide (dep_phase old = DpHealthy)) as [Ho|Ho].
  - rewrite decide_True; [done|]. by rewrite Ho.
  - rewrite decide_False; [done|]. naive_solver.
Qed.

Definition rolled_back_state (plan : RollbackPlan) (approval : ExplicitApproval) (at_ : DateTime)
    (s : Rollout * list Domain) : Rollout * list Domain :=
  (mkRollout
     (deployments (on (rp_to plan) (restored at_)
                     (on (rp_from plan) (retired (rp_to plan) (approver approval) at_) s.1)))
     (Some (rp_to plan)),
   map (repoint (rp_from plan) (rp_to plan)) s.2).
Definition moved_outcome (plan : RollbackPlan) : RollbackOutcome :=
  {| ro_kind := rp_kind plan; ro_from := rp_from plan; ro_to := rp_to plan;
     ro_traffic_moved := true; ro_detail := DATABASE_DATA_WARNING |}.

Lemma retired_run d to by_ at_ :
  Deployment_wf d →
  (if decide (dep_phase d = DpHealthy ∨ dep_phase d = DpDegraded)
   then mark_rolled_back ("rolled back to " +:+ id_fmt to +:+ " by " +:+ by_) at_ d
   else Done (d, Ok tt)) = Done (retired to by_ at_ d, Ok tt).
Proof.
  intros Hwf. unfold retired. case_decide as Hp; [|done].
  unfold mark_rolled_back. rewrite move_to_legal; [done|apply (wf_trail _ Hwf)|].
  by destruct Hp as [-> | ->].
Qed.

Lemma execute_rollback_run plan approval at_ r ds target :
  all_wf r → approval_ok approval → rp_kind plan = RkDeployment → rp_from plan ≠ rp_to plan →
  Rollout_get r (rp_to plan) = Some target → is_safe_target (dep_phase target) = true →
  execute_rollback plan approval at_ (r, ds) =
    Done (rolled_back_state plan approval at_ (r, ds), Ok (moved_outcome plan)).
Proof.
  intros Hwf Happ%approval_missing_false Hk Hne Hget Hsafe.
  unfold execute_rollback. rewrite Happ, decide_False by naive_solver.
  unfold mbind, M_bind, get, lift_r, zoom. simpl. rewrite Hget. simpl. rewrite Hsafe. simpl.
  erewrite (with_mut_on (rp_from plan) _ (retired (rp_to plan) (approver approval) at_)).
  2:{ intros d Hd. rewrite <- retired_run by (by eapply all_wf_get). by case_decide. }
  simpl. erewrite (with_mut_on (rp_to plan) _ (restored at_)); [done|].
  intros d. rewrite get_on by apply retired_id. rewrite decide_False by done.
  rewrite Hget. intros [= <-]. unfold restored, moved. by case_decide.
Qed.

(** A target that is missing or not safe is refused before anything is written. *)
Lemma execute_rollback_refused plan approval at_ r ds :
  approval_ok approval → rp_kind plan = RkDeployment →
  (∀ target, Rollout_get r (rp_to plan) = Some target →
     is_safe_target (dep_phase target) = false) →
  ∃ e, execute_rollback plan approval at_ (r, ds) = Done ((r, ds), Err e).
Proof.
  intros Happ%approval_missing_false Hk Hunsafe.
  unfold execute_rollback. rewrite Happ, decide_False by naive_solver.
  unfold mbind, M_bind, get, lift_r. simpl.
  destruct (Rollout_get r (rp_to plan)) as [t|] eqn:Hget; simpl; [|by eexists].
  rewrite (Hunsafe t) by done. by eexists.
Qed.

(** The phases after an executed rollback. *)
Definition phase_after (plan : RollbackPlan) r id : option DeploymentPhase :=
  if decide (id = rp_to plan) then Some DpHealthy
  else if decide (id = rp_from plan ∧
                  (phase_of r id = Some DpHealthy ∨ phase_of r id = Some DpDegraded))
  then Some DpRolledBack else phase_of r id.
Lemma rolled_back_phase_of plan approval at_ r ds id target :
  rp_from plan ≠ rp_to plan → Rollout_get r (rp_to plan) = Some target →
  phase_of (rolled_back_state plan approval at_ (r, ds)).1 id = phase_after plan r id.
Proof.
  intros Hne Hget. unfold phase_of at 1, phase_after. unfold rolled_back_state, Rollout_get. simpl.
  rewrite find_update_first by apply restored_id.
  rewrite !find_update_first by apply retired_id.
  case_decide as Hto.
  { rewrite decide_False by done. fold (Rollout_get r (rp_to plan)). rewrite Hget. simpl.
    unfold restored. case_decide as Hh; [done|].
    by destruct (decide (dep_phase target = DpHealthy)) as [->|]. }
  fold (Rollout_get r id). fold (Rollout_get r (rp_from plan)). unfold phase_of.
  destruct (decide (id = rp_from plan)) as [->|Hfrom].
  2:{ rewrite (decide_False (P := _ ∧ _)); [done|]. naive_solver. }
  destruct (Rollout_get r (rp_from plan)) as [d|]; simpl.
  2:{ rewrite decide_False; [done|]. naive_solver. }
  unfold retired. destruct (decide (dep_phase d = DpHealthy ∨ dep_phase d = DpDegraded)) as [Hp|Hp].
  - rewrite decide_True; [done|]. split; [done|]. destruct Hp as [-> | ->]; auto.
  - rewrite decide_False; [done|]. naive_solver.
Qed.

(** A rollback without a granted, named approval is refused; a source
    or configuration rollback only reports its warnings; an image rollback to an
    unknown or unsafe target is refused; none of these changes anything.  An
    approved image rollback to a safe target makes the target healthy and
    current, marks the source rolled back when it was serving, leaves every
    other deployment in its phase, re-points exactly the domains of the source,
    and answers with the warning that database data is not restored. *)
Theorem execute_rollback_spec plan approval at_ r ds :
  all_wf r → rp_from plan ≠ rp_to plan →
  if decide (approval_ok approval) then
    if decide (rp_kind plan = RkDeployment) then
      if decide (∃ p, phase_of r (rp_to plan) = Some p ∧ is_safe_target p = true) then
        ∃ r', execute_rollback plan approval at_ (r, ds) =
            Done ((r', map (repoint (rp_from plan) (rp_to plan)) ds), Ok (moved_outcome plan)) ∧
          current r' = Some (rp_to plan) ∧
          ∀ id, phase_of r' id = phase_after plan r id
      else ∃ e, execute_rollback plan approval at_ (r, ds) = Done ((r, ds), Err e)
    else ∃ o, execute_rollback plan approval at_ (r, ds) = Done ((r, ds), Ok o) ∧
      ro_traffic_moved o = false ∧ ro_detail o = str_join " | " (rp_warnings plan)
  else ∃ m, execute_rollback plan approval at_ (r, ds) = Done ((r, ds), Err (ApprovalRequired m)).
Proof.
  intros Hwf Hne. case_decide as Happ.
  2:{ unfold execute_rollback. apply approval_missing_true in Happ. rewrite Happ. by eexists. }
  case_decide as Hk.
  2:{ unfold execute_rollback. apply approval_missing_false in Happ.
      rewrite Happ, decide_True by done. by eexists. }
  case_decide as Hsafe.
  - destruct Hsafe as (p & Hp & Hsafe). unfold phase_of in Hp.
    destruct (Rollout_get r (rp_to plan)) as [target|] eqn:Hget; simplify_eq/=.
    eexists. split; [by eapply execute_rollback_run|]. split; [done|]. intros id.
    apply (rolled_back_phase_of plan approval at_ r ds id target); done.
  - apply execute_rollback_refused; [done..|]. intros target Hget.
    apply not_true_is_false. intros Hs. apply Hsafe. exists (dep_phase target).
    unfold phase_of. by rewrite Hget.
Qed.
End RolloutFacts.

(* ------------------------------------------------------------------ *)
(** * The deployment system: one environment's rollout and its domains *)

Definition System : Type := Rollout * list Domain.
Inductive SystemOp :=
| SoBegin (fresh : DeploymentId) (application_id : ApplicationId)
    (environment_id : EnvironmentId) (revision : Revision) (runtime : RuntimeConfig)
    (resources : list ResourceId) (at_ : DateTime)
| SoDeployment (id : DeploymentId) (op : DeploymentOp)
| SoPromote (id : DeploymentId) (at_ : DateTime)
| SoRollback (kind : RollbackKind) (from to : DeploymentId) (approval : ExplicitApproval)
    (at_ : DateTime)
| SoAddDomain (fresh : DomainId) (environment_id : EnvironmentId) (hostname : string) (tls : bool)
| SoAttachDomain (index : nat) (id : DeploymentId) (approval : ExplicitApproval).

(** A deployment that exists and has been healthy. *)
Definition served (r : Rollout) (id : DeploymentId) : Prop :=
  ∃ d, Rollout_get r id = Some d ∧ gate_passed d.
Definition routed_served (r : Rollout) (dom : Domain) : Prop :=
  ∀ id, dom_deployment dom = Some id → served r id.
(** The rollback target of each deployment is an earlier deployment with an image. *)
Definition targets_earlier (ds : list Deployment) : Prop :=
  ∀ i d t, ds !! i = Some d → dep_rollback_target d = Some t →
    ∃ j d', (j < i)%nat ∧ ds !! j = Some d' ∧ dep_id d' = t ∧ is_Some (dep_image d').

Record system_inv (s : System) : Prop := {
  inv_ids : NoDup (dep_id <$> deployments s.1);
  inv_wf : Forall Deployment_wf (deployments s.1);
  inv_targets : targets_earlier (deployments s.1);
  inv_current : ∀ id, current s.1 = Some id → served s.1 id;
  inv_domains : Forall (routed_served s.1) s.2;
}.

Lemma healthy_gate d : Deployment_wf d → dep_phase d = DpHealthy → gate_passed d.
Proof.
  intros Hwf Hp. destruct (trail_last _ _ _ _ _ _ (wf_trail _ Hwf)) as (t & Hl & Hto).
  unfold gate_passed. apply Exists_exists. exists t. split; [|congruence].
  by apply last_Some_elem_of.
Qed.
Lemma healthy_served r id :
  Forall Deployment_wf (deployments r) → phase_of r id = Some DpHealthy → served r id.
Proof.
  unfold phase_of. intros Hwf Hp. destruct (Rollout_get r id) as [d|] eqn:E; simplify_eq/=.
  exists d. split; [done|]. apply healthy_gate; [|done].
  apply Rollout_get_Some in E as [_ ?]. by rewrite Forall_forall in Hwf; apply Hwf.
Qed.

Lemma evolves_find l l' id d :
  Forall2 evolves l l' → List.find (has_id id) l = Some d →
  ∃ d', List.find (has_id id) l' = Some d' ∧ evolves d d'.
Proof.
  induction 1 as [|x y l l' Hxy Hl IH]; simpl; [done|].
  unfold has_id at 1 3. rewrite (ev_id _ _ Hxy). destruct (bool_decide (dep_id x = id)); [|done].
  intros [= <-]. eauto.
Qed.
Lemma evolves_served r r' id :
  Forall2 evolves (deployments r) (deployments r') → served r id → served r' id.
Proof.
  intros Hev (d & Hget & Hg). destruct (evolves_find _ _ _ _ Hev Hget) as (d' & ? & ?).
  exists d'. split; [done|]. by eapply evolves_gate.
Qed.
Lemma evolves_ids l l' : Forall2 evolves l l' → dep_id <$> l' = dep_id <$> l.
Proof. induction 1 as [|x y ?? Hxy]; [done|]. csimpl. by rewrite (ev_id _ _ Hxy), IHForall2. Qed.
Lemma evolves_targets l l' : Forall2 evolves l l' → targets_earlier l → targets_earlier l'.
Proof.
  intros Hev Ht i d' t Hi Htgt.
  destruct (Forall2_lookup_r _ _ _ _ _ Hev Hi) as (d & Hd & Hdd).
  rewrite (ev_target _ _ Hdd) in Htgt. destruct (Ht _ _ _ Hd Htgt) as (j & e & ? & He & <- & [im Him]).
  destruct (Forall2_lookup_l _ _ _ _ _ Hev He) as (e' & He' & Hee).
  exists j, e'. rewrite (ev_id _ _ Hee). split_and!; [done..|].
  exists im. by apply (ev_image _ _ Hee).
Qed.

(** A step that only evolves deployments keeps the invariant when the current
    deployment and the domains it newly routes have been healthy. *)
Lemma evolving_step_inv s s' :
  system_inv s → Forall2 evolves (deployments s.1) (deployments s'.1) →
  Forall Deployment_wf (deployments s'.1) →
  (∀ id, current s'.1 = Some id → current s.1 = Some id ∨ served s'.1 id) →
  Forall (λ dom, dom ∈ s.2 ∨ routed_served s'.1 dom) s'.2 → system_inv s'.
Proof.
  intros [Hids Hwf Htgt Hcur Hdom] Hev Hwf' Hcur' Hdom'. split.
  - by rewrite (evolves_ids _ _ Hev).
  - done.
  - by eapply evolves_targets.
  - intros id Hid. destruct (Hcur' id Hid); [|done]. eapply evolves_served; eauto.
  - eapply Forall_impl; [exact Hdom'|]. intros dom [Hin|?]; [|done].
    rewrite Forall_forall in Hdom. intros id Hid. eapply evolves_served; [done|].
    by eapply Hdom.
Qed.

Lemma on_evolves id f r :
  Forall Deployment_wf (deployments r) →
  (∀ d, Rollout_get r id = Some d → evolves d (f d) ∧ Deployment_wf (f d)) →
  Forall2 evolves (deployments r) (deployments (on id f r)) ∧
  Forall Deployment_wf (deployments (on id f r)).
Proof.
  unfold on, Rollout_get. simpl. induction (deployments r) as [|d l IH]; intros Hwf Hf; simpl.
  { done. }
  apply Forall_cons in Hwf as [Hd Hwf]. simpl in Hf. destruct (has_id id d).
  - destruct (Hf d eq_refl). by split; constructor.
  - destruct (IH Hwf Hf). by split; constructor.
Qed.

Lemma find_unique_id l d :
  NoDup (dep_id <$> l) → d ∈ l → List.find (has_id (dep_id d)) l = Some d.
Proof.
  induction l as [|x l IH]; csimpl; [set_solver|]. intros [Hx Hnd]%NoDup_cons [->|Hin]%elem_of_cons.
  - by rewrite (proj2 (has_id_true _ _)).
  - destruct (has_id (dep_id d) x) eqn:E; [|by apply IH].
    apply has_id_true in E. destruct Hx. rewrite E. by apply list_elem_of_fmap_2.
Qed.

Section SystemFacts.
Context `{UuidLib}.
Implicit Types (s : System) (r : Rollout) (ds : list Domain).

(** A rollback request plans between two deployments of the rollout and executes
    the plan. *)
Definition request_rollback (kind : RollbackKind) (from to : DeploymentId)
    (approval : ExplicitApproval) (at_ : DateTime) : M System CoreError unit :=
  s ← get;
  match Rollout_get s.1 from, Rollout_get s.1 to with
  | Some source, Some target =>
      plan ← lift_r (plan_rollback kind source target);
      execute_rollback plan approval at_;;
      mret tt
  | _, _ => mret tt
  end.
Definition attach_domain_at (index : nat) (id : DeploymentId) (approval : ExplicitApproval) :
    M System CoreError unit := λ s,
  match s.2 !! index, Rollout_get s.1 id with
  | Some dom, Some deployment =>
      match attach_domain deployment approval dom with
      | Done (dom', res) => Done ((s.1, <[index := dom']> s.2), res)
      | Panic msg => Panic msg
      end
  | _, _ => Done (s, Ok tt)
  end.
Definition run_system_op (op : SystemOp) : M System CoreError unit :=
  match op with
  | SoBegin fresh app env rev rt res at_ =>
      zoom fst (λ r s, (r, s.2)) (begin fresh app env rev rt res at_);; mret tt
  | SoDeployment id op => zoom fst (λ r s, (r, s.2)) (with_mut id (run_deployment_op op))
  | SoPromote id at_ => zoom fst (λ r s, (r, s.2)) (promote id at_)
  | SoRollback kind from to approval at_ => request_rollback kind from to approval at_
  | SoAddDomain fresh env hostname tls =>
      modify (λ s, (s.1, s.2 ++ [Domain_new fresh env hostname tls]))
  | SoAttachDomain index id approval => attach_domain_at index id approval
  end.

(** Random identifiers are not drawn twice. *)
Definition fresh_for (op : SystemOp) s : Prop :=
  match op with
  | SoBegin fresh _ _ _ _ _ _ => fresh ∉ (dep_id <$> deployments s.1)
  | _ => True
  end.

(** How a deployment may become healthy in one step. *)
Definition health_gate (op : SystemOp) r id : Prop :=
  (∃ secrets at_, op = SoDeployment id (DoRecordHealth HsHealthy secrets at_) ∧
     (phase_of r id = Some DpDeploying ∨ phase_of r id = Some DpDegraded)) ∨
  (∃ from approval at_, op = SoRollback RkDeployment from id approval at_ ∧
     approval_ok approval ∧
     (phase_of r id = Some DpSuperseded ∨ phase_of r id = Some DpRolledBack)).
Definition gated (op : SystemOp) s s' : Prop :=
  ∀ id, phase_of s'.1 id = Some DpHealthy → phase_of s.1 id ≠ Some DpHealthy →
    health_gate op s.1 id.
Definition good_step (op : SystemOp) s : Prop :=
  ∃ s' res, run_system_op op s = Done (s', res) ∧ system_inv s' ∧ gated op s s'.

Lemma good_unchanged op s res :
  system_inv s → run_system_op op s = Done (s, res) → good_step op s.
Proof. intros Hinv Hrun. exists s, res. split_and!; [done..|]. by intros id ?. Qed.

Lemma phase_of_on id f r id' :
  (∀ d, dep_id d = id → dep_id (f d) = id) →
  phase_of (on id f r) id' =
    if decide (id' = id) then dep_phase ∘ f <$> Rollout_get r id else phase_of r id'.
Proof.
  intros Hf. unfold phase_of. rewrite get_on by done. case_decide; [|done].
  by destruct (Rollout_get r id).
Qed.

Definition snoc (d : Deployment) r : Rollout := mkRollout (deployments r ++ [d]) (current r).
Lemma get_snoc d r id :
  Rollout_get (snoc d r) id =
    match Rollout_get r id with
    | Some e => Some e
    | None => if has_id id d then Some d else None
    end.
Proof.
  unfold Rollout_get, snoc. simpl. induction (deployments r) as [|x l IH]; simpl; [done|].
  by destruct (has_id id x).
Qed.
Lemma snoc_targets d r :
  dep_rollback_target d = rollback_target r → targets_earlier (deployments r) →
  targets_earlier (deployments r ++ [d]).
Proof.
  intros Hd Ht i e t [Hi|[Hlen Hi]]%lookup_app_Some Htgt.
  - destruct (Ht _ _ _ Hi Htgt) as (j & e' & ? & He' & ? & ?).
    exists j, e'. split_and!; try done. by apply lookup_app_l_Some.
  - destruct (i - length (deployments r))%nat eqn:Ei; simplify_eq/=.
    rewrite Hd in Htgt. unfold rollback_target in Htgt.
    destruct (rfind is_rollback_candidate (deployments r)) as [e'|] eqn:Er; simplify_eq/=.
    apply find_Some_elem in Er as [He' Hc].
    rewrite elem_of_reverse in He'. apply list_elem_of_lookup in He' as [j Hj].
    exists j, e'. pose proof (lookup_lt_Some _ _ _ Hj).
    split_and!; [lia|by apply lookup_app_l_Some|done|].
    unfold is_rollback_candidate in Hc. apply andb_true_iff in Hc as [_ Hc].
    by destruct (dep_image e').
Qed.
Lemma snoc_inv d r ds :
  system_inv (r, ds) → Deployment_wf d → dep_id d ∉ (dep_id <$> deployments r) →
  dep_rollback_target d = rollback_target r → system_inv (snoc d r, ds).
Proof.
  intros [Hids Hwf Htgt Hcur Hdom] Hd Hid Ht.
  assert (∀ id, served r id → served (snoc d r) id) as Hserved.
  { intros id (e & He & Hg). exists e. split; [|done]. by rewrite get_snoc, He. }
  split; simpl in *.
  - rewrite fmap_app. apply NoDup_app. split_and!; [done| |apply NoDup_singleton].
    intros x Hx ->%list_elem_of_singleton. done.
  - apply Forall_app. split; [done|]. by constructor.
  - by apply snoc_targets.
  - eauto.
  - eapply Forall_impl; [exact Hdom|]. intros dom Hr id Hid'. by apply Hserved, Hr.
Qed.
Lemma begin_good fresh app env rev rt res at_ s :
  system_inv s → fresh ∉ (dep_id <$> deployments s.1) →
  good_step (SoBegin fresh app env rev rt res at_) s.
Proof.
  intros Hinv Hfresh. destruct s as [r ds]. simpl in *.
  destruct (Deployment_new fresh app env rev rt res (rollback_target r) at_) as [d|e] eqn:Hnew.
  2:{ eapply good_unchanged; [done|]. simpl. unfold begin. unfold_monad. by rewrite Hnew. }
  destruct (Deployment_new_wf _ _ _ _ _ _ _ _ _ Hnew) as (Hwf & Hid & Htgt & Hp).
  exists (snoc d r, ds), (Ok tt). split.
  { simpl. unfold begin. unfold_monad. by rewrite Hnew. }
  split; [apply snoc_inv; congruence|]. intros id. unfold phase_of. simpl. rewrite get_snoc.
  destruct (Rollout_get r id); [done|]. destruct (has_id id d); simpl; congruence.
Qed.

Lemma deployment_good id op s : system_inv s → good_step (SoDeployment id op) s.
Proof.
  intros Hinv. destruct s as [r ds].
  destruct (Rollout_get r id) as [d|] eqn:Hget.
  2:{ eapply (good_unchanged _ _ (Ok tt)); [done|]. simpl. unfold zoom, with_mut. simpl.
      by rewrite Hget. }
  assert (Deployment_wf d) as Hd by (eapply all_wf_get; [apply Hinv|exact Hget]).
  destruct (deployment_op_effect op d Hd) as (d' & res & Hrun & Hwf' & Hev & _ & Hgate).
  destruct (Rollout_get_Some _ _ _ Hget) as [Hid _].
  destruct (on_evolves id (λ _, d') r) as [Hall Hallwf]; [apply Hinv|naive_solver|].
  exists (on id (λ _, d') r, ds), res. split_and!.
  - simpl. unfold zoom, with_mut. simpl. by rewrite Hget, Hrun.
  - apply (evolving_step_inv (r, ds)); simpl; auto. rewrite Forall_forall. auto.
  - intros id'. simpl. rewrite phase_of_on by (intros; rewrite (ev_id _ _ Hev); congruence).
    case_decide as Hid'; [|done]. subst id'. rewrite Hget. simpl. intros [= Hh].
    unfold phase_of. rewrite Hget. simpl. intros Hne.
    destruct (Hgate Hh) as ((secrets & at_ & ->) & Hp & _); [congruence|].
    left. exists secrets, at_. split; [done|]. unfold phase_of. rewrite Hget. simpl.
    destruct Hp as [-> | ->]; auto.
Qed.

Lemma superseded_ok at_ d :
  Deployment_wf d → evolves d (superseded at_ d) ∧ Deployment_wf (superseded at_ d).
Proof.
  intros Hwf. unfold superseded. case_decide as Hp; [|done]. split; [apply moved_evolves|].
  apply moved_wf; try done; [by rewrite Hp|]. intros _. apply Hwf. by rewrite Hp.
Qed.
Lemma retired_ok to by_ at_ d :
  Deployment_wf d → evolves d (retired to by_ at_ d) ∧ Deployment_wf (retired to by_ at_ d).
Proof.
  intros Hwf. unfold retired. case_decide as Hp; [|done]. split; [apply moved_evolves|].
  apply moved_wf; try done. by destruct Hp as [-> | ->].
Qed.
Lemma restored_ok at_ d :
  Deployment_wf d → is_safe_target (dep_phase d) = true → is_Some (dep_image d) →
  evolves d (restored at_ d) ∧ Deployment_wf (restored at_ d).
Proof.
  intros Hwf Hs Hi. unfold restored. case_decide as Hp; [|done]. split; [apply moved_evolves|].
  apply moved_wf; try done. unfold dep_legal. apply orb_true_iff. right.
  apply bool_decide_eq_true. split; [done|]. destruct (dep_phase d); auto; done.
Qed.
Lemma superseded_phase at_ d : dep_phase (superseded at_ d) ≠ DpHealthy.
Proof. unfold superseded. by case_decide. Qed.

Lemma promote_good id at_ s : system_inv s → good_step (SoPromote id at_) s.
Proof.
  intros Hinv. destruct s as [r ds]. pose proof (inv_wf _ Hinv) as Hwf. simpl in Hwf.
  destruct (Rollout_get r id) as [d|] eqn:Hget.
  2:{ eapply good_unchanged; [done|]. simpl. unfold promote. unfold_monad. by rewrite Hget. }
  destruct (decide (dep_phase d = DpHealthy)) as [Hp|Hp].
  2:{ eapply good_unchanged; [done|]. simpl. unfold promote. unfold_monad. rewrite Hget. simpl.
      by rewrite decide_True. }
  pose proof (promote_run id at_ r d Hwf Hget Hp) as Hrun.
  set (r1 := match current r with
             | Some previous => if decide (previous ≠ id) then on previous (superseded at_) r else r
             | None => r
             end).
  assert (Forall2 evolves (deployments r) (deployments r1) ∧
          Forall Deployment_wf (deployments r1) ∧
          ∀ id', phase_of r1 id' = Some DpHealthy → phase_of r id' = Some DpHealthy)
    as (Hev & Hwf1 & Hph).
  { unfold r1. destruct (current r) as [previous|]; [|done]. case_decide; [|done].
    destruct (on_evolves previous (superseded at_) r Hwf) as [??].
    { intros e He. by apply superseded_ok, (all_wf_get r previous). }
    split_and!; [done..|]. intros id'. rewrite phase_of_on by apply superseded_id.
    case_decide; [|done]. destruct (Rollout_get r previous) as [e|]; [|done].
    simpl. intros [= ?%superseded_phase]. done. }
  assert (served r1 id) as Hserved.
  { apply (evolves_served r); [done|]. exists d. split; [done|].
    apply healthy_gate; [exact (all_wf_get _ _ _ Hwf Hget)|done]. }
  exists (mkRollout (deployments r1) (Some id), ds), (Ok tt). split_and!.
  - simpl. unfold zoom. simpl. rewrite Hrun. unfold r1.
    destruct (current r); [by case_decide|done].
  - apply (evolving_step_inv (r, ds)); simpl; auto; [|rewrite Forall_forall; auto].
    intros id' [= <-]. by right.
  - intros id' Hid' Hne. by apply Hph in Hid'.
Qed.

Lemma plan_rollback_ok kind from to plan :
  plan_rollback kind from to = Ok plan →
  dep_id from ≠ dep_id to ∧ is_Some (dep_image to) ∧
  rp_kind plan = kind ∧ rp_from plan = dep_id from ∧ rp_to plan = dep_id to.
Proof.
  unfold plan_rollback. case_decide; [done|]. destruct (dep_image to); simpl; [|done].
  intros [= <-]. eauto.
Qed.

(** An executed rollback keeps the invariant. *)
Lemma rolled_back_inv plan approval at_ r ds target :
  system_inv (r, ds) → rp_from plan ≠ rp_to plan →
  Rollout_get r (rp_to plan) = Some target → is_safe_target (dep_phase target) = true →
  is_Some (dep_image target) → system_inv (rolled_back_state plan approval at_ (r, ds)).
Proof.
  intros Hinv Hne Hget Hsafe Himg. pose proof (inv_wf _ Hinv) as Hwf. simpl in Hwf.
  set (f := retired (rp_to plan) (approver approval) at_).
  destruct (on_evolves (rp_from plan) f r Hwf) as [Hev1 Hwf1].
  { intros d Hd. by apply retired_ok, (all_wf_get r (rp_from plan)). }
  destruct (on_evolves (rp_to plan) (restored at_) (on (rp_from plan) f r) Hwf1) as [Hev2 Hwf2].
  { intros d. rewrite get_on by apply retired_id. rewrite decide_False by done.
    rewrite Hget. intros [= <-]. apply restored_ok; [exact (all_wf_get _ _ _ Hwf Hget)|done..]. }
  assert (served (rolled_back_state plan approval at_ (r, ds)).1 (rp_to plan)) as Hserved.
  { apply healthy_served; [done|]. rewrite (rolled_back_phase_of _ _ _ _ _ _ target) by done.
    unfold phase_after. by rewrite decide_True. }
  apply (evolving_step_inv (r, ds)); simpl; auto.
  - by etrans.
  - intros id [= <-]. by right.
  - rewrite Forall_forall. intros dom (dom0 & -> & Hdom)%list_elem_of_fmap. unfold repoint.
    case_decide; [|by left]. right. intros id [= <-]. done.
Qed.

Lemma rollback_good kind from to approval at_ s :
  system_inv s → good_step (SoRollback kind from to approval at_) s.
Proof.
  intros Hinv. destruct s as [r ds]. unfold good_step. simpl. unfold request_rollback.
  unfold mbind, M_bind, get, lift_r, mret, M_ret. simpl.
  assert (∀ res, ∃ s' res', Done ((r, ds), res) = Done (s', res' : result CoreError unit) ∧
            system_inv s' ∧ gated (SoRollback kind from to approval at_) (r, ds) s') as Hkeep.
  { intros res. exists (r, ds), res. split_and!; [done..|]. by intros ??. }
  destruct (Rollout_get r from) as [source|] eqn:Hfrom; [|by apply Hkeep].
  destruct (Rollout_get r to) as [target|] eqn:Hto; [|by apply Hkeep].
  destruct (plan_rollback kind source target) as [plan|e] eqn:Hplan; [|by apply Hkeep].
  destruct (plan_rollback_ok _ _ _ _ Hplan) as (Hne & Himg & Hk & Hpf & Hpt).
  destruct (Rollout_get_Some _ _ _ Hfrom) as [Hidf _].
  destruct (Rollout_get_Some _ _ _ Hto) as [Hidt _].
  rewrite Hidf in Hpf. rewrite Hidt in Hpt. rewrite Hidf, Hidt in Hne.
  destruct (decide (approval_ok approval)) as [Happ|Happ].
  2:{ unfold execute_rollback. apply approval_missing_true in Happ. rewrite Happ. by apply Hkeep. }
  destruct (decide (kind = RkDeployment)) as [->|Hkind].
  2:{ unfold execute_rollback. apply approval_missing_false in Happ.
      rewrite Happ, decide_True by congruence. by apply Hkeep. }
  destruct (is_safe_target (dep_phase target)) eqn:Hsafe.
  2:{ destruct (execute_rollback_refused plan approval at_ r ds) as [e ->]; [done..| |by apply Hkeep].
      rewrite Hpt, Hto. naive_solver. }
  rewrite (execute_rollback_run plan approval at_ r ds target);
    [|apply Hinv|done|done|congruence|by rewrite Hpt|done].
  eexists _, _. split; [done|]. split.
  { eapply rolled_back_inv; [done|congruence|by rewrite Hpt|done..]. }
  intros id. rewrite (rolled_back_phase_of _ _ _ _ _ _ target) by congruence.
  unfold phase_after. rewrite Hpt. case_decide as Hid; [|case_decide; [done|done]].
  subst id. unfold phase_of at 1. simpl. rewrite Hto. simpl. intros _ Hph. right.
  exists from, approval, at_. split_and!; [done..|]. unfold phase_of. rewrite Hto. simpl.
  destruct (dep_phase target); simpl in *; auto; done.
Qed.

Lemma attach_domain_ok deployment approval dom :
  if decide (approval_ok approval ∧ is_routable dom = true ∧ dep_phase deployment = DpHealthy)
  then attach_domain deployment approval dom =
         Done (dom_set_deployment (Some (dep_id deployment)) dom, Ok tt)
  else ∃ e, attach_domain deployment approval dom = Done (dom, Err e).
Proof.
  unfold attach_domain, is_promoted, serves_traffic. unfold_monad. case_decide as Hc.
  - destruct Hc as (Ha%approval_missing_false & Hr & Hp). rewrite Ha, Hr. simpl.
    by rewrite bool_decide_true.
  - destruct (approval_missing approval) eqn:Ha; [by eexists|].
    apply approval_missing_false in Ha.
    destruct (is_routable dom); simpl; [|by eexists].
    rewrite bool_decide_false by naive_solver. by eexists.
Qed.

Lemma domain_step_inv r ds ds' :
  system_inv (r, ds) → Forall (λ dom, dom ∈ ds ∨ routed_served r dom) ds' →
  system_inv (r, ds').
Proof.
  intros Hinv Hds.
  apply (evolving_step_inv (r, ds)); simpl; [done|done|apply Hinv|by left|done].
Qed.

Lemma add_domain_good fresh env hostname tls s :
  system_inv s → good_step (SoAddDomain fresh env hostname tls) s.
Proof.
  intros Hinv. destruct s as [r ds]. eexists _, _. split_and!; [done| |by intros ??].
  apply (domain_step_inv r ds); [done|]. apply Forall_app. split.
  - rewrite Forall_forall. auto.
  - constructor; [|done]. right. done.
Qed.

Lemma attach_good index id approval s :
  system_inv s → good_step (SoAttachDomain index id approval) s.
Proof.
  intros Hinv. destruct s as [r ds]. unfold good_step. simpl. unfold attach_domain_at. simpl.
  destruct (ds !! index) as [dom|] eqn:Hdom.
  2:{ eexists _, _. split_and!; [done|done|by intros ??]. }
  destruct (Rollout_get r id) as [d|] eqn:Hget.
  2:{ eexists _, _. split_and!; [done|done|by intros ??]. }
  pose proof (attach_domain_ok d approval dom) as Hatt. case_decide as Hc.
  - rewrite Hatt. eexists _, _. split_and!; [done| |by intros ??].
    apply (domain_step_inv r ds); [done|]. destruct Hc as (_ & _ & Hp).
    apply Forall_insert; [rewrite Forall_forall; auto|]. right. intros id' [= <-].
    destruct (Rollout_get_Some _ _ _ Hget) as [-> _]. apply healthy_served; [apply Hinv|].
    unfold phase_of. rewrite Hget. simpl. by rewrite Hp.
  - destruct Hatt as [e ->]. eexists _, _. split_and!; [done| |by intros ??].
    by rewrite list_insert_id.
Qed.

Lemma system_step_good op s : system_inv s → fresh_for op s → good_step op s.
Proof.
  destruct op; simpl; intros Hinv Hf;
    auto using begin_good, deployment_good, promote_good, rollback_good, add_domain_good,
      attach_good.
Qed.

Inductive system_step : System → System → Prop :=
| system_step_op op s s' res :
    fresh_for op s → run_system_op op s = Done (s', res) → system_step s s'.
Definition system_init : System := (Rollout_new, []).

Lemma system_init_inv : system_inv system_init.
Proof. split; try done; simpl; constructor. Qed.
Lemma system_step_inv s s' : system_inv s → system_step s s' → system_inv s'.
Proof.
  intros Hinv Hstep. destruct Hstep as [op s1 s2 res Hf Hrun].
  destruct (system_step_good op s1 Hinv Hf) as (s'' & res' & Hrun' & ? & _).
  rewrite Hrun in Hrun'. by simplify_eq.
Qed.
Lemma system_reachable_inv s : rtc system_step system_init s → system_inv s.
Proof.
  intros Hs. assert (∀ s0 s1, rtc system_step s0 s1 → system_inv s0 → system_inv s1) as Hgen.
  { induction 1; eauto using system_step_inv. }
  eapply Hgen; [done|apply system_init_inv].
Qed.


(** C4: the health gate.  In a reachable state, a deployment becomes healthy
    only by a healthy observation of a deploying or degraded deployment, or by an
    approved image rollback to a deployment that was superseded or rolled
    back. *)
Theorem health_gate_holds s op s' res id :
  rtc system_step system_init s → fresh_for op s → run_system_op op s = Done (s', res) →
  phase_of s'.1 id = Some DpHealthy → phase_of s.1 id ≠ Some DpHealthy →
  health_gate op s.1 id.
Proof.
  intros Hs%system_reachable_inv Hf Hrun Hh Hn.
  destruct (system_step_good op s Hs Hf) as (s'' & res' & Hrun' & _ & Hg).
  rewrite Hrun in Hrun'. simplify_eq. by apply Hg.
Qed.

(** The rollback target a rollout names can always be rolled back to:
    with a granted, named approval the request from any other deployment
    succeeds and makes the target the healthy current deployment. *)
Theorem rollback_target_usable s from to approval at_ :
  rtc system_step system_init s → rollback_target s.1 = Some to →
  is_Some (Rollout_get s.1 from) → from ≠ to → approval_ok approval →
  ∃ s', run_system_op (SoRollback RkDeployment from to approval at_) s = Done (s', Ok tt) ∧
    current s'.1 = Some to ∧ phase_of s'.1 to = Some DpHealthy.
Proof.
  intros Hs%system_reachable_inv Ht [source Hfrom] Hne Happ. destruct s as [r ds]. simpl in *.
  unfold rollback_target in Ht.
  destruct (rfind is_rollback_candidate (deployments r)) as [target|] eqn:Er; simplify_eq/=.
  apply find_Some_elem in Er as [Hin Hc]. rewrite elem_of_reverse in Hin.
  assert (Rollout_get r (dep_id target) = Some target) as Hto.
  { apply (find_unique_id (deployments r)); [apply Hs|done]. }
  unfold is_rollback_candidate in Hc. apply andb_true_iff in Hc as [Hph Himg].
  destruct (Rollout_get_Some _ _ _ Hfrom) as [Hidf _].
  unfold request_rollback, mbind, M_bind, get, lift_r, mret, M_ret. simpl.
  rewrite Hfrom, Hto. destruct (plan_rollback RkDeployment source target) as [plan|e] eqn:Hp.
  2:{ exfalso. unfold plan_rollback in Hp. rewrite decide_False in Hp by congruence.
      rewrite Himg in Hp. done. }
  destruct (plan_rollback_ok _ _ _ _ Hp) as (_ & _ & Hk & Hpf & Hpt).
  rewrite (execute_rollback_run plan approval at_ r ds target);
    [|apply Hs|done|done|congruence|by rewrite Hpt|by destruct (dep_phase target)].
  eexists. split; [done|]. split; [simpl; by rewrite Hpt|].
  rewrite (rolled_back_phase_of _ _ _ _ _ _ target) by congruence.
  unfold phase_after. by rewrite decide_True.
Qed.
End SystemFacts.

(** A rollback is planned exactly between different deployments whose
    target has an image.  Every plan requires approval; an image rollback always
    carries the database warning; a migration in the delta is flagged in the
    plan and warned about, except for a configuration rollback. *)
Theorem plan_rollback_spec kind from to :
  if decide (dep_id from ≠ dep_id to ∧ is_Some (dep_image to)) then
    ∃ plan, plan_rollback kind from to = Ok plan ∧
      rp_kind plan = kind ∧ rp_from plan = dep_id from ∧ rp_to plan = dep_id to ∧
      rp_requires_approval plan = true ∧
      rp_migration_in_delta plan = introduces_migration (dep_revision from) ∧
      (DATABASE_DATA_WARNING ∈ rp_warnings plan ↔ kind = RkDeployment) ∧
      (MIGRATION_WARNING ∈ rp_warnings plan ↔
       introduces_migration (dep_revision from) = true ∧ kind ≠ RkConfiguration)
  else ∃ m, plan_rollback kind from to = Err (DeploymentError m).
Proof.
  unfold plan_rollback. case_decide as Hc.
  - destruct Hc as [Hne [i Hi]]. rewrite decide_False, Hi by done. simpl.
    eexists. split; [done|]. simpl. split_and!; try done;
      destruct kind, (introduces_migration (dep_revision from)); simpl;
      rewrite ?elem_of_cons, ?elem_of_nil;
      (split; [|intros Hx; try (by destruct Hx); by auto]);
      intros Hx; repeat (destruct Hx as [Hx|Hx]); try discriminate Hx; try done.
  - case_decide; [by eexists|]. destruct (dep_image to) eqn:Hi; simpl; [|by eexists].
    by destruct Hc.
Qed.

(** The reading a health report leaves on the record, and the move it asks for. *)
Definition stored_health (h : HealthStatus) (secrets : list string) : HealthStatus :=
  match h with
  | HsUnhealthy reason => HsUnhealthy (redact_reason reason secrets)
  | _ => h
  end.
Definition health_move (h : HealthStatus) (secrets : list string) (p : DeploymentPhase) :
    option (DeploymentPhase * option string) :=
  match h with
  | HsHealthy => Some (DpHealthy, None)
  | HsUnhealthy reason =>
      Some (if decide (p = DpDeploying) then DpFailed else DpDegraded,
            Some (redact_reason reason secrets))
  | _ => None
  end.

(** A health report always finishes and stores the reading, redacted.
    A healthy report asks for the healthy phase, an unhealthy one fails a
    deploying deployment and degrades any other, and the remaining ones ask for
    nothing.  A move outside the graph is refused, but the new reading stays on
    the record. *)
Theorem record_health_spec `{UuidLib} h secrets at_ d :
  Deployment_wf d →
  let d0 := dep_set_health (stored_health h secrets) d in
  match health_move h secrets (dep_phase d) with
  | None => record_health h secrets at_ d = Done (d0, Ok tt)
  | Some (next, reason) =>
      if dp_can_transition_to (dep_phase d) next
      then record_health h secrets at_ d = Done (moved next reason at_ d0, Ok tt)
      else ∃ m, record_health h secrets at_ d = Done (d0, Err (DeploymentError m))
  end.
Proof.
  intros Hwf d0. assert (has_trail d0) as Ht by apply Hwf.
  destruct h as [| |reason|reason]; simpl; try done;
    destruct (dp_can_transition_to _ _) eqn:E;
    first [by apply (move_to_legal _ _ at_ d0) | by apply (move_to_illegal _ _ at_ d0)].
Qed.

(* ------------------------------------------------------------------ *)
(** * Examples: two releases and a rollback *)

#[global] Instance fresh_for_dec op s : Decision (fresh_for op s).
Proof. destruct op; simpl; apply _. Defined.

Module DeploymentExamples.
Import RefInstances.

(** Runs calls in sequence, provided each draws a fresh identifier. *)
Fixpoint run_system_ops (ops : list SystemOp) (s : System) : outcome System :=
  match ops with
  | [] => Done s
  | op :: ops' =>
      if decide (fresh_for op s) then
        match run_system_op op s with
        | Done (s', _) => run_system_ops ops' s'
        | Panic m => Panic m
        end
      else Panic "identifier drawn twice"
  end.
Lemma run_system_ops_rtc ops s s' : run_system_ops ops s = Done s' → rtc system_step s s'.
Proof.
  revert s. induction ops as [|op ops IH]; intros s; simpl; [by intros [= ->]|].
  case_decide; [|done]. destruct (run_system_op op s) as [[s1 r]|] eqn:E; [|done].
  intros Hs. eapply rtc_l; [by econstructor|]. by apply IH.
Qed.

Definition plan_cfg : RuntimeConfig :=
  fastapi_plan Production ["python"; "-m"; "uvicorn"; "main:app"] (Some "oci://python-app:prod").
Definition dep1 : DeploymentId := mkId (uuid 1).
Definition dep2 : DeploymentId := mkId (uuid 2).
Definition app1 : ApplicationId := mkId (uuid 3).
Definition env1 : EnvironmentId := mkId (uuid 4).
Definition release (id : DeploymentId) (sha : string) : list SystemOp :=
  [SoBegin id app1 env1 (Revision_new sha "cfg" None) plan_cfg [] 0;
   SoDeployment id (DoStartBuild 1);
   SoDeployment id (DoRecordBuild (BuildResult_succeeded "ok") [] 2);
   SoDeployment id (DoRecordHealth HsHealthy [] 3);
   SoPromote id 4].
Definition history : list SystemOp :=
  release dep1 "a1" ++
  [SoAddDomain (mkId (uuid 9)) env1 "shop.example" true;
   SoAttachDomain 0 dep1 (ExplicitApproval_granted "ann" "go")] ++
  release dep2 "b2".
Definition after_history : System := done_or system_init (run_system_ops history system_init).
Definition ann : ExplicitApproval := ExplicitApproval_granted "ann" "undo".

Lemma after_history_reachable : rtc system_step system_init after_history.
Proof.
  apply (run_system_ops_rtc history). apply is_done_eq. vm_compute. reflexivity.
Qed.
Lemma after_history_wf : all_wf after_history.1.
Proof. exact (inv_wf _ (system_reachable_inv _ after_history_reachable)). Qed.


(** The second release before its health report. *)
Definition before_report : System := done_or system_init (run_system_ops (take 10 history) system_init).
Definition report : SystemOp := SoDeployment dep2 (DoRecordHealth HsHealthy [] 3).
Definition after_report : System :=
  (done_or (system_init, Ok tt) (run_system_op report before_report)).1.
Lemma health_gate_holds_witness :
  phase_of before_report.1 dep2 = Some DpDeploying ∧
  phase_of after_report.1 dep2 = Some DpHealthy ∧ health_gate report before_report.1 dep2.
Proof.
  assert (H1 : phase_of before_report.1 dep2 = Some DpDeploying) by (vm_compute; reflexivity).
  assert (H2 : phase_of after_report.1 dep2 = Some DpHealthy) by (vm_compute; reflexivity).
  split; [exact H1|]. split; [exact H2|].
  apply (health_gate_holds before_report report after_report (Ok tt) dep2).
  - apply (run_system_ops_rtc (take 10 history)). apply is_done_eq. vm_compute. reflexivity.
  - exact I.
  - apply is_done_pair; vm_compute; reflexivity.
  - exact H2.
  - rewrite H1. discriminate.
Defined.

Lemma rollback_target_usable_witness :
  rollback_target before_report.1 = Some dep1 ∧ dep2 ≠ dep1 ∧ approval_ok ann ∧
  ∃ s', run_system_op (SoRollback RkDeployment dep2 dep1 ann 9) before_report = Done (s', Ok tt) ∧
    current s'.1 = Some dep1 ∧ phase_of s'.1 dep1 = Some DpHealthy.
Proof.
  assert (H1 : rollback_target before_report.1 = Some dep1) by (vm_compute; reflexivity).
  assert (H2 : dep2 ≠ dep1) by (intros E; discriminate E).
  assert (H3 : approval_ok ann) by (split; reflexivity).
  split; [exact H1|]. split; [exact H2|]. split; [exact H3|].
  apply (rollback_target_usable before_report dep2 dep1 ann 9); [|exact H1| |exact H2|exact H3].
  - apply (run_system_ops_rtc (take 10 history)). apply is_done_eq. vm_compute. reflexivity.
  - destruct (Rollout_get before_report.1 dep2) eqn:E; [by eexists|].
    exfalso. assert (is_some (Rollout_get before_report.1 dep2) = true) as E'
      by (vm_compute; reflexivity). rewrite E in E'. discriminate E'.
Defined.

Lemma promote_spec_witness :
  all_wf before_report.1 ∧ phase_of before_report.1 dep2 = Some DpDeploying ∧
  ∃ m, promote dep2 4 before_report.1 = Done (before_report.1, Err (DeploymentError m)).
Proof.
  assert (Hwf : all_wf before_report.1).
  { refine (inv_wf _ (system_reachable_inv before_report _)).
    apply (run_system_ops_rtc (take 10 history)). apply is_done_eq. vm_compute. reflexivity. }
  assert (H1 : phase_of before_report.1 dep2 = Some DpDeploying) by (vm_compute; reflexivity).
  split; [exact Hwf|]. split; [exact H1|].
  pose proof (promote_spec dep2 4 before_report.1 Hwf) as H. rewrite H1 in H. exact H.
Defined.

Definition undo : RollbackPlan :=
  {| rp_kind := RkDeployment; rp_from := dep2; rp_to := dep1;
     rp_warnings := [DATABASE_DATA_WARNING]; rp_migration_in_delta := false;
     rp_requires_approval := true |}.
(** Rolling the second release back: the first one is healthy again, the second
    one is rolled back. *)
Lemma execute_rollback_spec_witness :
  all_wf after_history.1 ∧ approval_ok ann ∧
  ∃ r', execute_rollback undo ann 9 (after_history.1, after_history.2) =
      Done ((r', map (repoint dep2 dep1) after_history.2), Ok (moved_outcome undo)) ∧
    phase_of r' dep1 = Some DpHealthy ∧ phase_of r' dep2 = Some DpRolledBack.
Proof.
  assert (H3 : approval_ok ann) by (split; reflexivity).
  split; [exact after_history_wf|]. split; [exact H3|].
  assert (rp_from undo ≠ rp_to undo) as Hne by (intros E; discriminate E).
  pose proof (execute_rollback_spec undo ann 9 after_history.1 after_history.2
                after_history_wf Hne) as H.
  rewrite decide_True in H by exact H3. rewrite decide_True in H by reflexivity.
  rewrite decide_True in H by (exists DpSuperseded; split; vm_compute; reflexivity).
  destruct H as (r' & Hrun & _ & Hph). exists r'.
  split; [exact Hrun|].
  rewrite !Hph. split; vm_compute; reflexivity.
Defined.

(** A healthy report on a deployment that has not been built is refused, but the
    record then reads healthy. *)
Definition pending1 : Deployment :=
  mkDeployment dep1 app1 env1 (Revision_new "a1" "cfg" None) None None plan_cfg [] None
    HsStarting DpPending [] None
    [{| dt_from := DpPending; dt_to := DpPending; dt_at := 0; dt_reason := None |}].
Lemma record_health_spec_witness :
  Deployment_wf pending1 ∧
  ∃ m, record_health HsHealthy [] 1 pending1 =
         Done (dep_set_health HsHealthy pending1, Err (DeploymentError m)).
Proof.
  assert (Hwf : Deployment_wf pending1).
  { refine (proj1 (Deployment_new_wf dep1 app1 env1 (Revision_new "a1" "cfg" None) plan_cfg []
              None 0 pending1 _)). reflexivity. }
  split; [exact Hwf|]. exact (record_health_spec HsHealthy [] 1 pending1 Hwf).
Defined.
End DeploymentExamples.
