(* ===== verification/Capability.v ===== *)
(** Capabilities, providers, bindings and operating modes (capability.rs, first
    part). *)

From stdpp Require Import base option list strings pretty gmap relations.
From Stdlib Require Import ZArith Lia.
From S2P Require Import Prelude External Errors Ids Trail Approval.
Local Open Scope Z_scope.

(* ------------------------------------------------------------------ *)
(** * Data *)

Inductive EnvSource :=
| Literal (value : string)
| SecretRef (ref_id : string)
| ResourceField (field : string).
#[global] Instance EnvSource_eq_dec : EqDecision EnvSource.
Proof. solve_decision. Defined.
Definition EnvContract : Type := gmap string EnvSource.

Record Capability := {
  capability_key : string;
  capability_version : Z;
  capability_dependencies : list string;
}.
Definition Capability_new (key : string) (version : Z) : Capability :=
  {| capability_key := key; capability_version := version; capability_dependencies := [] |}.
Definition with_dependencies (self : Capability) (dependencies : list string) : Capability :=
  {| capability_key := capability_key self; capability_version := capability_version self;
     capability_dependencies := dependencies |}.

Inductive CapabilityMode := Managed | External | Adopted.
#[global] Instance CapabilityMode_eq_dec : EqDecision CapabilityMode.
Proof. solve_decision. Defined.
Definition CapabilityMode_debug (m : CapabilityMode) : string :=
  match m with Managed => "Managed" | External => "External" | Adopted => "Adopted" end.

Record Provider := {
  pr_key : string;
  pr_capability : string;
  pr_version : Z;
  pr_supports_reversal : bool;
  pr_modes : list CapabilityMode;
}.
Definition supplies (self : Provider) (key : string) : bool :=
  bool_decide (pr_capability self = key).
Definition supports_mode (self : Provider) (mode : CapabilityMode) : bool :=
  bool_decide (mode ∈ pr_modes self).

Inductive BindingKind := BkFramework (framework : string) | BkGeneric.
#[global] Instance BindingKind_eq_dec : EqDecision BindingKind.
Proof. solve_decision. Defined.

Record Binding := {
  bd_key : string;
  bd_capability : string;
  bd_provider : string;
  bd_version : Z;
  bd_kind : BindingKind;
  bd_env : EnvContract;
}.
Definition is_generic (self : Binding) : bool := bool_decide (bd_kind self = BkGeneric).
Definition framework (self : Binding) : option string :=
  match bd_kind self with BkFramework f => Some f | BkGeneric => None end.
Definition secret_refs (self : Binding) : list string :=
  omap (λ source, match source with SecretRef id => Some id | _ => None end)
       (btree_values (bd_env self)).

Record ResourceRef := {
  rr_id : ResourceId;
  rr_capability : string;
  rr_provider : string;
  rr_external_ref : string;
}.

(* ------------------------------------------------------------------ *)
(** * Choosing a binding *)

Section Resolve.
Context `{StrDebug}.

Definition resolve_binding (bindings : list Binding) (providers : list Provider)
    (capability_key provider_key : string) (framework_ : option string) :
    result CoreError Binding :=
  provider ← ok_or (CapabilityBinding ("unknown provider '" +:+ provider_key +:+ "'"))
               (List.find (λ p, bool_decide (pr_key p = provider_key)) providers);
  if negb (supplies provider capability_key) then
    Err (CapabilityBinding ("provider '" +:+ provider_key +:+ "' supplies '"
      +:+ pr_capability provider +:+ "', not '" +:+ capability_key +:+ "'"))
  else
    let candidates :=
      List.filter (λ b, bool_decide (bd_capability b = capability_key)
                        && bool_decide (bd_provider b = provider_key)) bindings in
    match candidates with
    | [] => Err (CapabilityBinding ("no binding connects capability '" +:+ capability_key
              +:+ "' to provider '" +:+ provider_key +:+ "'"))
    | _ =>
        let generic :=
          let generic := List.filter is_generic candidates in
          match generic with
          | [b] => Ok b
          | [] => Err (CapabilityBinding ("no generic binding for '" +:+ capability_key +:+ "/"
                    +:+ provider_key +:+ "' and no framework binding matches "
                    +:+ option_debug str_debug framework_))
          | _ => Err (CapabilityBinding ("binding conflict: " +:+ pretty (length generic)
                   +:+ " generic bindings for '" +:+ capability_key +:+ "/" +:+ provider_key
                   +:+ "'"))
          end in
        match framework_ with
        | None => generic
        | Some f =>
            let deep := List.filter (λ b, bool_decide (framework b = Some f)) candidates in
            match deep with
            | [] => generic
            | [b] => Ok b
            | _ => Err (CapabilityBinding ("binding conflict: " +:+ pretty (length deep)
                     +:+ " bindings for framework '" +:+ f +:+ "' on '" +:+ capability_key
                     +:+ "/" +:+ provider_key +:+ "'"))
            end
        end
    end.
End Resolve.

Definition generic_postgres_binding (provider_key : string) : Binding :=
  {| bd_key := "postgres.generic"; bd_capability := "database.postgres";
     bd_provider := provider_key; bd_version := 1; bd_kind := BkGeneric;
     bd_env := <["DATABASE_URL" := SecretRef (provider_key +:+ ".database_url")]> ∅ |}.
Definition generic_object_storage_binding (provider_key : string) : Binding :=
  {| bd_key := "object-storage.generic"; bd_capability := "storage.object";
     bd_provider := provider_key; bd_version := 1; bd_kind := BkGeneric;
     bd_env := <["OBJECT_STORAGE_SECRET_KEY" := SecretRef (provider_key +:+ ".secret_key")]>
       (<["OBJECT_STORAGE_ACCESS_KEY" := SecretRef (provider_key +:+ ".access_key")]>
       (<["OBJECT_STORAGE_BUCKET" := ResourceField "bucket"]>
       (<["OBJECT_STORAGE_URL" := ResourceField "endpoint"]> ∅))) |}.
Definition generic_auth_binding (provider_key : string) : Binding :=
  {| bd_key := "auth.generic"; bd_capability := "auth";
     bd_provider := provider_key; bd_version := 1; bd_kind := BkGeneric;
     bd_env := <["AUTH_SECRET_KEY" := SecretRef (provider_key +:+ ".signing_key")]>
       (<["AUTH_URL" := ResourceField "issuer"]> ∅) |}.
Definition generic_file_storage_binding (provider_key : string) : Binding :=
  {| bd_key := "file-storage.generic"; bd_capability := "storage.file";
     bd_provider := provider_key; bd_version := 1; bd_kind := BkGeneric;
     bd_env := <["FILE_STORAGE_TOKEN" := SecretRef (provider_key +:+ ".token")]>
       (<["FILE_STORAGE_URL" := ResourceField "root"]> ∅) |}.

(* ------------------------------------------------------------------ *)
(** * Bound capabilities and their modes *)

Record ModeTransition := {
  mt_from : CapabilityMode;
  mt_to : CapabilityMode;
  mt_approved_by : string;
  mt_at : DateTime;
  mt_reversible : bool;
  mt_source : option string;
}.
Definition ModeTransition_to_event_detail (self : ModeTransition) : string :=
  let source := default "" ((λ s, " source: " +:+ s) <$> mt_source self) in
  "mode " +:+ CapabilityMode_debug (mt_from self) +:+ " -> "
  +:+ CapabilityMode_debug (mt_to self) +:+ " approved by " +:+ mt_approved_by self
  +:+ source +:+ " reversible: " +:+ bool_debug (mt_reversible self).

Record BoundCapability := mkBound {
  bc_id : BindingId;
  bc_application_id : ApplicationId;
  bc_environment_name : string;
  bc_capability : string;
  bc_provider : string;
  bc_binding : string;
  bc_mode : CapabilityMode;
  bc_resource : ResourceRef;
  bc_history : list ModeTransition;
}.
Definition bc_set_mode (m : CapabilityMode) (b : BoundCapability) : BoundCapability :=
  mkBound (bc_id b) (bc_application_id b) (bc_environment_name b) (bc_capability b)
    (bc_provider b) (bc_binding b) m (bc_resource b) (bc_history b).
Definition bc_push (t : ModeTransition) (b : BoundCapability) : BoundCapability :=
  mkBound (bc_id b) (bc_application_id b) (bc_environment_name b) (bc_capability b)
    (bc_provider b) (bc_binding b) (bc_mode b) (bc_resource b) (bc_history b ++ [t]).

Section Bound.
Context `{UuidLib}.

(** [fresh] is the identifier drawn by [BindingId::new]. *)
Definition bind (fresh : BindingId) (application_id : ApplicationId)
    (environment_name : string) (binding : Binding) (provider : Provider)
    (mode : CapabilityMode) (resource : ResourceRef) (actor : string) (at_ : DateTime) :
    result CoreError BoundCapability :=
  if decide (bd_capability binding ≠ rr_capability resource ∨
             bd_provider binding ≠ rr_provider resource) then
    Err (CapabilityBinding ("resource " +:+ id_fmt (rr_id resource)
      +:+ " does not match binding '" +:+ bd_capability binding +:+ "/" +:+ bd_provider binding
      +:+ "'"))
  else if negb (supplies provider (bd_capability binding))
          || bool_decide (pr_key provider ≠ bd_provider binding) then
    Err (CapabilityBinding ("provider '" +:+ pr_key provider +:+ "' does not supply binding '"
      +:+ bd_capability binding +:+ "/" +:+ bd_provider binding +:+ "'"))
  else if negb (supports_mode provider mode) then
    Err (CapabilityBinding ("provider '" +:+ pr_key provider +:+ "' does not operate in mode "
      +:+ CapabilityMode_debug mode))
  else
    Ok {| bc_id := fresh; bc_application_id := application_id;
          bc_environment_name := environment_name; bc_capability := bd_capability binding;
          bc_provider := bd_provider binding; bc_binding := bd_key binding; bc_mode := mode;
          bc_resource := resource;
          bc_history :=
            [{| mt_from := mode; mt_to := mode; mt_approved_by := actor; mt_at := at_;
                mt_reversible := pr_supports_reversal provider; mt_source := None |}] |}.

Definition transition (next : CapabilityMode) (provider : Provider)
    (approval : ExplicitApproval) (at_ : DateTime) :
    M BoundCapability CoreError ModeTransition :=
  self ← get;
  if negb (approved approval) then
    mthrow (ApprovalRequired ("capability '" +:+ bc_capability self +:+ "' mode change to "
      +:+ CapabilityMode_debug next +:+ " requires explicit approval"))
  else if trim_is_empty (approver approval) then
    mthrow (ApprovalRequired "mode transition approval must name an approver")
  else if decide (next = bc_mode self) then
    mthrow (CapabilityBinding ("capability '" +:+ bc_capability self +:+ "' is already in mode "
      +:+ CapabilityMode_debug next))
  else if negb (supports_mode provider next) then
    mthrow (CapabilityBinding ("provider '" +:+ pr_key provider +:+ "' cannot operate in mode "
      +:+ CapabilityMode_debug next))
  else
    let reversing := bool_decide (bc_mode self = Adopted) && bool_decide (next ≠ Adopted) in
    if reversing && negb (pr_supports_reversal provider) then
      mthrow (CapabilityBinding ("provider '" +:+ pr_key provider
        +:+ "' does not support reversal out of Adopted"))
    else
      let source :=
        if decide (next = Adopted)
        then Some (bc_provider self +:+ ":" +:+ rr_external_ref (bc_resource self)) else None in
      modify (bc_set_mode next);;
      previous ← lift_o (expect "history is never empty" (last (bc_history self)));
      modify (bc_push {| mt_from := mt_to previous; mt_to := next;
                         mt_approved_by := approver approval; mt_at := at_;
                         mt_reversible := pr_supports_reversal provider; mt_source := source |});;
      self ← get;
      lift_o (expect "transition was just pushed" (last (bc_history self))).

Definition BoundCapability_to_event_detail (self : BoundCapability) : string :=
  "capability '" +:+ bc_capability self +:+ "' via provider '" +:+ bc_provider self
  +:+ "' binding '" +:+ bc_binding self +:+ "' in mode " +:+ CapabilityMode_debug (bc_mode self)
  +:+ " (resource " +:+ id_fmt (rr_id (bc_resource self)) +:+ ")".
End Bound.

(* ------------------------------------------------------------------ *)
(** * Resolution facts *)

Section ResolveFacts.
Context `{StrDebug}.
Implicit Types (b : Binding) (cap prov : string).

Definition connects cap prov b : bool :=
  bool_decide (bd_capability b = cap) && bool_decide (bd_provider b = prov).
(** The bindings of the pair that are deep for the framework, and the generic
    ones. *)
Definition deep_bindings (bindings : list Binding) cap prov (fw : option string) : list Binding :=
  match fw with
  | None => []
  | Some f => List.filter (λ b, bool_decide (framework b = Some f))
                (List.filter (connects cap prov) bindings)
  end.
Definition generic_bindings (bindings : list Binding) cap prov : list Binding :=
  List.filter is_generic (List.filter (connects cap prov) bindings).
Definition supplied (providers : list Provider) cap prov : Prop :=
  ∃ p, List.find (λ p, bool_decide (pr_key p = prov)) providers = Some p ∧ pr_capability p = cap.

(** Past the provider check, the answer is the unique deep binding, or the
    unique generic one when there is no deep one. *)
Lemma resolve_supplied bindings providers cap prov fw :
  supplied providers cap prov →
  match deep_bindings bindings cap prov fw, generic_bindings bindings cap prov with
  | [b], _ | [], [b] => resolve_binding bindings providers cap prov fw = Ok b
  | _, _ => ∃ m, resolve_binding bindings providers cap prov fw = Err (CapabilityBinding m)
  end.
Proof.
  intros (p & Hp & Hc). unfold resolve_binding. rewrite Hp. unfold_monad.
  unfold supplies. rewrite bool_decide_true by done. simpl.
  fold (connects cap prov). unfold deep_bindings, generic_bindings.
  destruct (List.filter (connects cap prov) bindings) as [|c cs]; simpl.
  { destruct fw; eauto. }
  destruct fw as [f|]; simpl; repeat case_match; simplify_eq/=; eauto.
Qed.

Lemma deep_elem bindings cap prov fw b :
  b ∈ deep_bindings bindings cap prov fw →
  b ∈ bindings ∧ bd_capability b = cap ∧ bd_provider b = prov ∧ is_Some fw ∧ framework b = fw.
Proof.
  unfold deep_bindings, connects. destruct fw as [f|]; [|set_solver].
  rewrite list_elem_of_In, !List.filter_In, <- list_elem_of_In, andb_true_iff,
    !bool_decide_eq_true. naive_solver.
Qed.
Lemma generic_elem bindings cap prov b :
  b ∈ generic_bindings bindings cap prov →
  b ∈ bindings ∧ bd_capability b = cap ∧ bd_provider b = prov ∧ bd_kind b = BkGeneric.
Proof.
  unfold generic_bindings, connects, is_generic.
  rewrite list_elem_of_In, !List.filter_In, <- list_elem_of_In, andb_true_iff,
    !bool_decide_eq_true. naive_solver.
Qed.

(** A binding is found exactly when the provider is known and supplies
    the capability and either one binding of the pair is deep for the requested
    framework, or none is and one is generic: a project is never blocked by the
    absence of a deep binding.  The binding found is one of those given, connects
    the requested pair, and is deep for the framework or generic accordingly. *)
Theorem resolve_binding_spec bindings providers cap prov fw :
  let deep := deep_bindings bindings cap prov fw in
  let generic := generic_bindings bindings cap prov in
  ((∃ b, resolve_binding bindings providers cap prov fw = Ok b) ↔
   supplied providers cap prov ∧
   (length deep = 1%nat ∨ length deep = 0%nat ∧ length generic = 1%nat)) ∧
  ∀ b, resolve_binding bindings providers cap prov fw = Ok b →
    b ∈ bindings ∧ bd_capability b = cap ∧ bd_provider b = prov ∧
    (is_Some fw ∧ framework b = fw ∨ deep = [] ∧ bd_kind b = BkGeneric).
Proof.
  intros deep generic.
  assert (Hnot : ¬ supplied providers cap prov →
            ∀ b, resolve_binding bindings providers cap prov fw ≠ Ok b).
  { intros Hn b. unfold resolve_binding.
    destruct (List.find _ providers) as [p|] eqn:Hp; unfold_monad; [|done].
    unfold supplies. rewrite bool_decide_false; [done|]. intros Hc. apply Hn. by exists p. }
  assert (Decision (supplied providers cap prov)) as [Hs|Hn].
  { unfold supplied. destruct (List.find _ providers) as [p|]; [|right; naive_solver].
    destruct (decide (pr_capability p = cap)); [left; eauto|right; naive_solver]. }
  - pose proof (resolve_supplied bindings providers cap prov fw Hs) as Hr.
    fold deep generic in Hr.
    assert (∀ b, b ∈ deep → b ∈ bindings ∧ bd_capability b = cap ∧ bd_provider b = prov ∧
              is_Some fw ∧ framework b = fw) as Hd by apply deep_elem.
    assert (∀ b, b ∈ generic → b ∈ bindings ∧ bd_capability b = cap ∧ bd_provider b = prov ∧
              bd_kind b = BkGeneric) as Hg by apply generic_elem.
    destruct deep as [|b1 [|??]], generic as [|g1 [|??]]; simpl in *;
      try match type of Hr with ex _ => destruct Hr as [m Hr] end; rewrite Hr;
      (split; [split; [naive_solver|intros [_ [?|[? ?]]]; eauto; lia]|]); intros b' [= <-];
      first [destruct (Hd b1) as (?&?&?&?&?); [set_solver|]
            |destruct (Hg g1) as (?&?&?&?); [set_solver|]]; auto 7.
  - split; [|intros b Hb; by destruct (Hnot Hn b)].
    split; [intros [b Hb]; by destruct (Hnot Hn b)|]. by intros [? _].
Qed.
End ResolveFacts.

(* ------------------------------------------------------------------ *)
(** * Mode facts *)

Definition mode_legal (p q : CapabilityMode) : bool := bool_decide (p ≠ q).

(** A mode change on the record: approved by a named person, out of [Adopted] only
    when reversible, with its source recorded exactly when it enters [Adopted]. *)
Definition change_ok (b : BoundCapability) (t : ModeTransition) : Prop :=
  trim_is_empty (mt_approved_by t) = false ∧
  (mt_from t = Adopted → mt_reversible t = true) ∧
  mt_source t =
    (if decide (mt_to t = Adopted)
     then Some (bc_provider b +:+ ":" +:+ rr_external_ref (bc_resource b)) else None).

Record bound_inv (m0 : CapabilityMode) (b : BoundCapability) : Prop := {
  bi_trail : trail mt_from mt_to mode_legal m0 (bc_history b) (bc_mode b);
  bi_changes : Forall (change_ok b) (tail (bc_history b));
}.
Definition bound_frame (b b' : BoundCapability) : Prop :=
  bc_id b' = bc_id b ∧ bc_application_id b' = bc_application_id b ∧
  bc_environment_name b' = bc_environment_name b ∧ bc_capability b' = bc_capability b ∧
  bc_provider b' = bc_provider b ∧ bc_binding b' = bc_binding b ∧
  bc_resource b' = bc_resource b ∧ bc_history b `prefix_of` bc_history b'.

Definition may_transition (next : CapabilityMode) (provider : Provider)
    (approval : ExplicitApproval) (b : BoundCapability) : Prop :=
  approval_ok approval ∧ next ≠ bc_mode b ∧ supports_mode provider next = true ∧
  (bc_mode b = Adopted → pr_supports_reversal provider = true).
#[global] Instance may_transition_dec next provider approval b :
  Decision (may_transition next provider approval b).
Proof.
  unfold may_transition. destruct (decide (bc_mode b = Adopted)); [|].
  - destruct (pr_supports_reversal provider) eqn:E;
      [|right; naive_solver].
    destruct (decide (approval_ok approval ∧ next ≠ bc_mode b ∧ supports_mode provider next = true));
      [left; naive_solver|right; naive_solver].
  - destruct (decide (approval_ok approval ∧ next ≠ bc_mode b ∧ supports_mode provider next = true));
      [left; naive_solver|right; naive_solver].
Defined.

(** The record an allowed mode change adds. *)
Definition change (next : CapabilityMode) (provider : Provider) (approval : ExplicitApproval)
    (at_ : DateTime) (b : BoundCapability) : ModeTransition :=
  {| mt_from := bc_mode b; mt_to := next; mt_approved_by := approver approval; mt_at := at_;
     mt_reversible := pr_supports_reversal provider;
     mt_source := if decide (next = Adopted)
                  then Some (bc_provider b +:+ ":" +:+ rr_external_ref (bc_resource b))
                  else None |}.

Lemma transition_allowed m0 next provider approval at_ b :
  bound_inv m0 b → may_transition next provider approval b →
  let t := change next provider approval at_ b in
  transition next provider approval at_ b = Done (bc_push t (bc_set_mode next b), Ok t).
Proof.
  intros [Ht _] ([Ha Hn] & Hne & Hs & Hrev). unfold transition. unfold_monad.
  rewrite Ha, Hn. simpl. rewrite decide_False, Hs by done. simpl.
  replace (_ && negb (pr_supports_reversal provider)) with false.
  - destruct (trail_last _ _ _ _ _ _ Ht) as (l & Hl & Hto). rewrite Hl. simpl.
    rewrite last_snoc. unfold change. by rewrite Hto.
  - symmetry. destruct (decide (bc_mode b = Adopted)) as [E|E].
    + by rewrite Hrev, andb_false_r.
    + by rewrite bool_decide_false.
Qed.
Lemma transition_refused next provider approval at_ b :
  ¬ may_transition next provider approval b →
  ∃ e, transition next provider approval at_ b = Done (b, Err e).
Proof.
  intros Hn. unfold transition. unfold_monad.
  destruct (approved approval) eqn:Ha; simpl; [|eauto].
  destruct (trim_is_empty (approver approval)) eqn:Hb; [eauto|].
  case_decide; [eauto|]. destruct (supports_mode provider next) eqn:Hs; simpl; [|eauto].
  destruct (bool_decide (bc_mode b = Adopted)) eqn:Hm; simpl.
  - apply bool_decide_eq_true in Hm. rewrite bool_decide_true by congruence. simpl.
    destruct (pr_supports_reversal provider) eqn:Hr; simpl; [|eauto].
    exfalso. apply Hn. by split.
  - apply bool_decide_eq_false in Hm. exfalso. apply Hn. by split.
Qed.

Lemma change_inv m0 next provider approval at_ b :
  bound_inv m0 b → may_transition next provider approval b →
  bound_inv m0 (bc_push (change next provider approval at_ b) (bc_set_mode next b)).
Proof.
  intros [Ht Hc] ([Ha Hn] & Hne & Hs & Hrev). split; simpl.
  - eapply trail_extend; [exact Ht|done|done|]. by apply bool_decide_eq_true.
  - destruct (bc_history b) as [|t0 ts] eqn:Eh; [by apply trail_nonempty in Ht|].
    simpl in *. apply Forall_app. split; [exact Hc|]. constructor; [|done]. by split_and!.
Qed.

(** A mode change happens exactly with a granted, named approval, to a
    different mode the provider supports, and out of [Adopted] only when the
    provider can reverse; it adds the one record that describes it.  Otherwise
    it is refused and nothing changes. *)
Theorem transition_spec m0 next provider approval at_ b :
  bound_inv m0 b →
  if decide (may_transition next provider approval b) then
    let t := change next provider approval at_ b in
    transition next provider approval at_ b = Done (bc_push t (bc_set_mode next b), Ok t)
  else ∃ e, transition next provider approval at_ b = Done (b, Err e).
Proof. intros. case_decide; eauto using transition_allowed, transition_refused. Qed.

(** Any sequence of mode changes. *)
Inductive mode_step : BoundCapability → BoundCapability → Prop :=
| mode_step_run next provider approval at_ b b' res :
    transition next provider approval at_ b = Done (b', res) → mode_step b b'.

Lemma mode_step_inv m0 b b' :
  bound_inv m0 b → mode_step b b' → bound_inv m0 b' ∧ bound_frame b b'.
Proof.
  intros Hinv Hstep. destruct Hstep as [next provider approval at_ b b' res Hrun].
  destruct (decide (may_transition next provider approval b)) as [Hm|Hm].
  - rewrite (transition_allowed m0) in Hrun by done. simplify_eq.
    split; [by apply change_inv|]. unfold bound_frame. split_and!; try done. by eexists.
  - destruct (transition_refused next provider approval at_ b Hm) as [e He].
    rewrite He in Hrun. simplify_eq. by split.
Qed.

Section BoundFacts.
Context `{UuidLib}.
Lemma bind_inv fresh app env binding provider mode resource actor at_ b :
  bind fresh app env binding provider mode resource actor at_ = Ok b →
  bound_inv mode b ∧ rr_capability resource = bc_capability b ∧ rr_provider resource = bc_provider b ∧
  pr_key provider = bc_provider b ∧ pr_capability provider = bc_capability b ∧
  mode ∈ pr_modes provider ∧ bc_resource b = resource ∧ length (bc_history b) = 1%nat.
Proof.
  unfold bind. case_decide as H1; [done|]. unfold supplies, supports_mode.
  destruct (decide (pr_capability provider = bd_capability binding)) as [H2|H2];
    [rewrite (bool_decide_true (pr_capability _ = _)) by done
    |by rewrite (bool_decide_false (pr_capability _ = _))].
  destruct (decide (pr_key provider = bd_provider binding)) as [H3|H3];
    [rewrite (bool_decide_false (pr_key _ ≠ _)) by naive_solver
    |by rewrite (bool_decide_true (pr_key _ ≠ _))].
  destruct (decide (mode ∈ pr_modes provider)) as [H4|H4];
    [rewrite (bool_decide_true (mode ∈ _)) by done|by rewrite (bool_decide_false (mode ∈ _))].
  intros [= <-]. simpl.
  assert (bd_capability binding = rr_capability resource ∧ bd_provider binding = rr_provider resource)
    as [? ?] by (split; apply dec_stable; naive_solver).
  split_and!; try done. split; simpl; [by constructor|constructor].
Qed.

(** From its binding on, and through any sequence of mode changes, a
    bound capability keeps its resource, and its history starts with the initial
    record and only grows: each record starts in the mode the previous one
    ended in, ends in a different mode, names a human approver, leaves [Adopted]
    only when reversible, and carries the adoption source exactly when it enters
    [Adopted]. *)
Theorem mode_history_sound fresh app env binding provider mode resource actor at_ b0 b :
  bind fresh app env binding provider mode resource actor at_ = Ok b0 → rtc mode_step b0 b →
  bound_inv mode b ∧ bound_frame b0 b ∧ bc_resource b = resource.
Proof.
  intros Hb Hs. destruct (bind_inv _ _ _ _ _ _ _ _ _ _ Hb) as (Hinv & _ & _ & _ & _ & _ & Hr & _).
  assert (bound_inv mode b ∧ bound_frame b0 b) as [Hi Hf].
  { clear Hb Hr. induction Hs as [|b1 b2 b3 Hs Hss IH]; [by split|].
    destruct (mode_step_inv _ _ _ Hinv Hs) as [Hi2 Hf2]. destruct (IH Hi2) as [Hi3 Hf3].
    split; [done|]. destruct Hf2 as (?&?&?&?&?&?&?&?), Hf3 as (?&?&?&?&?&?&?&?).
    unfold bound_frame. split_and!; try congruence. by etrans. }
  split_and!; [done..|]. destruct Hf as (_&_&_&_&_&_&->&_). done.
Qed.
End BoundFacts.

Module CapabilityExamples.
Import RefInstances.
Definition pg : Provider :=
  {| pr_key := "pg"; pr_capability := "database.postgres"; pr_version := 1;
     pr_supports_reversal := false; pr_modes := [Managed; Adopted] |}.
Definition pg_resource : ResourceRef :=
  {| rr_id := mkId (uuid 5); rr_capability := "database.postgres"; rr_provider := "pg";
     rr_external_ref := "prod-db" |}.
Definition bound0 : BoundCapability :=
  {| bc_id := mkId (uuid 6); bc_application_id := mkId (uuid 7); bc_environment_name := "production";
     bc_capability := "database.postgres"; bc_provider := "pg"; bc_binding := "postgres.generic";
     bc_mode := Managed; bc_resource := pg_resource;
     bc_history := [{| mt_from := Managed; mt_to := Managed; mt_approved_by := "ann"; mt_at := 0;
                       mt_reversible := false; mt_source := None |}] |}.
Definition ok_by_ann : ExplicitApproval := ExplicitApproval_granted "ann" "adopt".
Definition adopted0 : BoundCapability :=
  bc_push (change Adopted pg ok_by_ann 1 bound0) (bc_set_mode Adopted bound0).
Lemma bound0_inv : bound_inv Managed bound0.
Proof. split; simpl; [by constructor|constructor]. Qed.
Lemma adopted0_inv : bound_inv Managed adopted0.
Proof. apply change_inv; [apply bound0_inv|]. by split_and!. Qed.

(** A provider without reversal cannot leave [Adopted] again. *)
Lemma transition_spec_witness :
  bound_inv Managed adopted0 ∧
  ∃ e, transition Managed pg ok_by_ann 2 adopted0 = Done (adopted0, Err e).
Proof.
  split; [exact adopted0_inv|].
  pose proof (transition_spec Managed Managed pg ok_by_ann 2 adopted0 adopted0_inv) as H.
  rewrite decide_False in H; [exact H|]. intros (_ & _ & _ & Hr). discriminate (Hr eq_refl).
Defined.
Lemma mode_history_sound_witness :
  bind (mkId (uuid 6)) (mkId (uuid 7)) "production" (generic_postgres_binding "pg") pg Managed
    pg_resource "ann" 0 = Ok bound0 ∧
  rtc mode_step bound0 adopted0 ∧ bc_resource adopted0 = pg_resource.
Proof.
  assert (Hb : bind (mkId (uuid 6)) (mkId (uuid 7)) "production" (generic_postgres_binding "pg") pg
            Managed pg_resource "ann" 0 = Ok bound0) by reflexivity.
  assert (Hs : rtc mode_step bound0 adopted0).
  { apply rtc_once, (mode_step_run Adopted pg ok_by_ann 1 _ _ (Ok (change Adopted pg ok_by_ann 1 bound0))).
    apply (transition_allowed Managed); [apply bound0_inv|by split_and!]. }
  split; [exact Hb|]. split; [exact Hs|].
  apply (mode_history_sound _ _ _ _ _ _ _ _ _ _ _ Hb Hs).
Defined.
End CapabilityExamples.
