(* ===== verification/Secrets.v ===== *)
(** The sealed secret store (capability.rs, second part): master keys, cipher
    envelopes, and the store's put, inject, rotate, rotate_key, replace, delete,
    redact and guard operations. *)

From stdpp Require Import base option list strings pretty gmap relations.
From Stdlib Require Import ZArith Lia Ascii.
From S2P Require Import Prelude External Errors Ids Approval Capability.
Local Open Scope Z_scope.


(* ------------------------------------------------------------------ *)
(** * Keys, envelopes and audit records *)

Definition SECRET_ENVELOPE_LEGACY_XOR : Z := 0.
Definition SECRET_ENVELOPE_VERSION : Z := 1.

Record MasterKey := mkMasterKey { key_bytes : string }.
Definition MasterKey_new (bytes : string) : result CoreError MasterKey :=
  if str_is_empty bytes then Err (CapabilityBinding "master key must not be empty")
  else Ok (mkMasterKey bytes).
(** [value] is what [std::env::var(var)] finds. *)
Definition MasterKey_from_env (value : option string) (var : string) :
    result CoreError MasterKey :=
  value ← ok_or (CapabilityBinding ("master key environment variable '" +:+ var
            +:+ "' is not set; export it from process configuration and retry")) value;
  if trim_is_empty value then
    Err (CapabilityBinding ("master key environment variable '" +:+ var
      +:+ "' is empty; provide key material from process configuration and retry"))
  else Ok (mkMasterKey value).
(** The loop that pops trailing line ends. *)
Fixpoint pop_line_ends (rev_bytes : list ascii) : list ascii :=
  match rev_bytes with
  | b :: rest => if Ascii.eqb b "010"%char || Ascii.eqb b "013"%char then pop_line_ends rest else rev_bytes
  | [] => []
  end.
(** [contents] is what [std::fs::read(path)] returns, with the text of its error. *)
Definition MasterKey_from_file (contents : result string string) (path : string) :
    result CoreError MasterKey :=
  match contents with
  | Err e => Err (CapabilityBinding ("cannot read master key file '" +:+ path +:+ "': " +:+ e
               +:+ "; check the path and file permissions, then retry"))
  | Ok bytes =>
      let bytes := String.string_of_list_ascii (reverse (pop_line_ends (reverse (chars bytes)))) in
      if str_is_empty bytes then
        Err (CapabilityBinding ("master key file '" +:+ path
          +:+ "' holds no key material; write key material from process configuration and retry"))
      else Ok (mkMasterKey bytes)
  end.

Record InjectionGrant := {
  ig_application_id : ApplicationId;
  ig_environment_name : string;
  ig_production : bool;
}.

Record SealedSecret := {
  ss_ref_id : string;
  ss_version : Z;
  ss_scope : InjectionGrant;
  ss_cipher_version : Z;
  ss_nonce : string;
  ss_ciphertext : string;
}.

Record SecretReference := { sr_ref_id : string; sr_redacted_hint : option string }.
Definition SealedSecret_reference (self : SealedSecret) : SecretReference :=
  {| sr_ref_id := ss_ref_id self; sr_redacted_hint := Some ("v" +:+ pretty (ss_version self)) |}.

Inductive SecretAction := SaStore | SaRotate | SaReplace | SaDelete.
Definition SecretAction_debug (a : SecretAction) : string :=
  match a with
  | SaStore => "Store" | SaRotate => "Rotate" | SaReplace => "Replace" | SaDelete => "Delete"
  end.
Record SecretAudit := {
  sa_ref_id : string;
  sa_action : SecretAction;
  sa_version : Z;
  sa_actor : string;
  sa_at : DateTime;
  sa_approved_by : option string;
}.
Definition SecretAudit_to_event_detail (self : SecretAudit) : string :=
  let approver := default "" ((λ a, " approved by " +:+ a) <$> sa_approved_by self) in
  "secret '" +:+ sa_ref_id self +:+ "' " +:+ SecretAction_debug (sa_action self) +:+ " v"
  +:+ pretty (sa_version self) +:+ " by " +:+ sa_actor self +:+ approver.

Record SecretStore := mkStore {
  st_master_key : MasterKey;
  st_secrets : gmap string SealedSecret;
  st_audit : list SecretAudit;
}.
Definition SecretStore_new (master_key : MasterKey) : SecretStore :=
  {| st_master_key := master_key; st_secrets := ∅; st_audit := [] |}.
Definition st_insert (k : string) (s : SealedSecret) (st : SecretStore) : SecretStore :=
  mkStore (st_master_key st) (<[k := s]> (st_secrets st)) (st_audit st).
Definition st_push_audit (a : SecretAudit) (st : SecretStore) : SecretStore :=
  mkStore (st_master_key st) (st_secrets st) (st_audit st ++ [a]).
Definition SecretStore_contains (self : SecretStore) (ref_id : string) : bool :=
  is_some (st_secrets self !! ref_id).

(* ------------------------------------------------------------------ *)
(** * The retired XOR envelope *)

Definition xor_byte (a b : ascii) : ascii := ascii_of_N (N.lxor (N_of_ascii a) (N_of_ascii b)).
Definition to_le_bytes (z : Z) : list ascii :=
  map (λ i, ascii_of_N (Z.to_N ((z / 256 ^ Z.of_nat i) mod 256))) (seq 0 8).
Definition mix (hash : Z) (bytes : list ascii) : Z := foldl fnv_step hash bytes.
(** The [while out.len() < len] loop; every round adds eight bytes, so [len]
    rounds are enough. *)
Fixpoint keystream_loop (fuel : nat) (len : nat) (out : list ascii) (hash counter : Z) :
    list ascii :=
  match fuel with
  | O => out
  | S fuel' =>
      if decide (length out < len)%nat then
        let hash := mix hash (to_le_bytes counter) in
        keystream_loop fuel' len (out ++ to_le_bytes hash) hash (counter + 1)
      else out
  end.
Definition keystream (master_key : MasterKey) (ref_id : string) (len : nat) : list ascii :=
  let hash := mix 0xcbf29ce484222325 (chars (key_bytes master_key)) in
  let hash := mix hash (chars ref_id) in
  take len (keystream_loop len len [] hash 0).

Definition xor_with (bytes stream : list ascii) : string :=
  String.string_of_list_ascii (zip_with xor_byte bytes stream).
Definition seal_legacy (master_key : MasterKey) (ref_id plaintext : string) : string :=
  let stream := keystream master_key ref_id (String.length plaintext) in
  xor_with (chars plaintext) stream.
Definition open_legacy (master_key : MasterKey) (sealed : SealedSecret) : option string :=
  let stream := keystream master_key (ss_ref_id sealed) (String.length (ss_ciphertext sealed)) in
  from_utf8 (xor_with (chars (ss_ciphertext sealed)) stream).

(* ------------------------------------------------------------------ *)
(** * The store *)

Section Store.
Context `{Crypto} `{UuidLib} `{BuildProfile}.

Definition aead_key (k : MasterKey) : string := sha256 (key_bytes k).
Definition envelope_aad (ref_id : string) (version : Z) : string :=
  "labrys-secret v" +:+ pretty SECRET_ENVELOPE_VERSION +:+ ":" +:+ ref_id +:+ ":v"
  +:+ pretty version.
(** [nonce] is the randomness drawn for the seal; the result is the ciphertext
    (the nonce is kept beside it). *)
Definition seal (master_key : MasterKey) (nonce ref_id : string) (version : Z)
    (plaintext : string) : string :=
  aead_encrypt (aead_key master_key) nonce (envelope_aad ref_id version) plaintext.
Definition open (master_key : MasterKey) (sealed : SealedSecret) : option string :=
  if decide (ss_cipher_version sealed = SECRET_ENVELOPE_VERSION) then
    plain ← aead_decrypt (aead_key master_key) (ss_nonce sealed)
              (envelope_aad (ss_ref_id sealed) (ss_version sealed)) (ss_ciphertext sealed);
    from_utf8 plain
  else if decide (ss_cipher_version sealed = SECRET_ENVELOPE_LEGACY_XOR) then
    open_legacy master_key sealed
  else None.

Definition open_envelope (self : SecretStore) (sealed : SealedSecret) : result CoreError string :=
  ok_or (Verification ("secret '" +:+ ss_ref_id sealed
           +:+ "' failed authentication (tampered envelope or wrong key); no plaintext was exposed — re-seal from a trusted source and rotate"))
    (open (st_master_key self) sealed).

Definition put (nonce ref_id value : string) (scope : InjectionGrant) (actor : string)
    (at_ : DateTime) : M SecretStore CoreError SealedSecret :=
  self ← get;
  if trim_is_empty ref_id then
    mthrow (SecretNotFound "secret reference id must not be empty")
  else
    version ← lift_o match st_secrets self !! ref_id with
                     | None => Done 1
                     | Some s => add_unsigned u64_max (ss_version s) 1
                     end;
    let ciphertext := seal (st_master_key self) nonce ref_id version value in
    let sealed := {| ss_ref_id := ref_id; ss_version := version; ss_scope := scope;
                     ss_cipher_version := SECRET_ENVELOPE_VERSION; ss_nonce := nonce;
                     ss_ciphertext := ciphertext |} in
    modify (st_insert ref_id sealed);;
    modify (st_push_audit {| sa_ref_id := ref_id; sa_action := SaStore; sa_version := version;
                             sa_actor := actor; sa_at := at_; sa_approved_by := None |});;
    mret sealed.

Definition inject (self : SecretStore) (grant : InjectionGrant) (ref_id : string) :
    result CoreError string :=
  sealed ← ok_or (SecretNotFound ("secret '" +:+ ref_id +:+ "' not found"))
             (st_secrets self !! ref_id);
  if decide (ig_application_id (ss_scope sealed) ≠ ig_application_id grant ∨
             ig_environment_name (ss_scope sealed) ≠ ig_environment_name grant) then
    Err (CapabilityBinding ("secret '" +:+ ref_id +:+ "' is not authorized for environment '"
      +:+ ig_environment_name grant +:+ "'"))
  else open_envelope self sealed.

(** The loop over the binding's environment, in key order, with its early return. *)
Fixpoint inject_loop (self : SecretStore) (grant : InjectionGrant)
    (env : list (string * EnvSource)) (out : gmap string string) :
    result CoreError (gmap string string) :=
  match env with
  | [] => Ok out
  | (name, SecretRef ref_id) :: env' =>
      value ← inject self grant ref_id;
      inject_loop self grant env' (<[name := value]> out)
  | _ :: env' => inject_loop self grant env' out
  end.
Definition inject_binding (self : SecretStore) (grant : InjectionGrant) (binding : Binding) :
    result CoreError (gmap string string) :=
  inject_loop self grant (btree_entries (bd_env binding)) ∅.

(** [approval.approved && !approval.approver.trim().is_empty()] and
    [approved.then(|| approver)]. *)
Definition is_approved (a : ExplicitApproval) : bool :=
  approved a && negb (trim_is_empty (approver a)).
Definition approver_if (ok : bool) (a : ExplicitApproval) : option string :=
  if ok then Some (approver a) else None.

Definition rotate (nonce ref_id : string) (approval : ExplicitApproval) (actor : string)
    (at_ : DateTime) : M SecretStore CoreError Z :=
  self ← get;
  sealed ← lift_r (ok_or (SecretNotFound ("secret '" +:+ ref_id +:+ "' not found"))
                     (st_secrets self !! ref_id));
  let approved := is_approved approval in
  if ig_production (ss_scope sealed) && negb approved then
    mthrow (ApprovalRequired ("production rotation of secret '" +:+ ref_id
      +:+ "' requires explicit human approval; request a granted named approval and retry"))
  else
    value ← lift_r (open_envelope self sealed);
    version ← lift_o (add_unsigned u64_max (ss_version sealed) 1);
    let scope := ss_scope sealed in
    let ciphertext := seal (st_master_key self) nonce ref_id version value in
    modify (st_insert ref_id
      {| ss_ref_id := ref_id; ss_version := version; ss_scope := scope;
         ss_cipher_version := SECRET_ENVELOPE_VERSION; ss_nonce := nonce;
         ss_ciphertext := ciphertext |});;
    modify (st_push_audit
      {| sa_ref_id := ref_id; sa_action := SaRotate; sa_version := version; sa_actor := actor;
         sa_at := at_; sa_approved_by := approver_if approved approval |});;
    mret version.

(** First loop of [rotate_key]: every value is opened under the old key. *)
Fixpoint open_all (self : SecretStore) (entries : list (string * SealedSecret)) :
    M SecretStore CoreError (list (string * Z * InjectionGrant * string)) :=
  match entries with
  | [] => mret []
  | (ref_id, sealed) :: entries' =>
      value ← lift_r (open_envelope self sealed);
      version ← lift_o (add_unsigned u64_max (ss_version sealed) 1);
      rest ← open_all self entries';
      mret ((ref_id, version, ss_scope sealed, value) :: rest)
  end.
(** Second loop: one re-seal and one audit record per value; [nonces i] is the
    randomness of the i-th seal. *)
Fixpoint reseal_all (new_key : MasterKey) (nonces : nat → string) (approved_by : option string)
    (actor : string) (at_ : DateTime) (i : nat)
    (plaintexts : list (string * Z * InjectionGrant * string)) : M SecretStore CoreError unit :=
  match plaintexts with
  | [] => mret tt
  | (ref_id, version, scope, value) :: rest =>
      let ciphertext := seal new_key (nonces i) ref_id version value in
      modify (st_insert ref_id
        {| ss_ref_id := ref_id; ss_version := version; ss_scope := scope;
           ss_cipher_version := SECRET_ENVELOPE_VERSION; ss_nonce := nonces i;
           ss_ciphertext := ciphertext |});;
      modify (st_push_audit
        {| sa_ref_id := ref_id; sa_action := SaRotate; sa_version := version; sa_actor := actor;
           sa_at := at_; sa_approved_by := approved_by |});;
      reseal_all new_key nonces approved_by actor at_ (S i) rest
  end.
Definition rotate_key (new_key : MasterKey) (nonces : nat → string)
    (approval : ExplicitApproval) (actor : string) (at_ : DateTime) :
    M SecretStore CoreError nat :=
  self ← get;
  let approved := is_approved approval in
  let production_refs :=
    (List.filter (λ e, ig_production (ss_scope e.2)) (btree_entries (st_secrets self))).*1 in
  if negb (bool_decide (production_refs = [])) && negb approved then
    mthrow (ApprovalRequired ("key rotation over production secrets ("
      +:+ str_join ", " production_refs
      +:+ ") requires explicit human approval; request a granted named approval and retry"))
  else
    plaintexts ← open_all self (btree_entries (st_secrets self));
    reseal_all new_key nonces (approver_if approved approval) actor at_ 0 plaintexts;;
    modify (λ st, mkStore new_key (st_secrets st) (st_audit st));;
    mret (length plaintexts).

Definition replace (nonce ref_id new_value : string) (grant : InjectionGrant)
    (approval : ExplicitApproval) (actor : string) (at_ : DateTime) :
    M SecretStore CoreError SecretAudit :=
  let approved := is_approved approval in
  if ig_production grant && negb approved then
    mthrow (ApprovalRequired ("production replacement of secret '" +:+ ref_id
      +:+ "' requires explicit human approval"))
  else
    self ← get;
    if negb (SecretStore_contains self ref_id) then
      mthrow (SecretNotFound ("cannot replace unknown secret '" +:+ ref_id +:+ "'"))
    else
      put nonce ref_id new_value grant actor at_;;
      self ← get;
      version ← lift_o (expect "just stored" (ss_version <$> st_secrets self !! ref_id));
      let audit := {| sa_ref_id := ref_id; sa_action := SaReplace; sa_version := version;
                      sa_actor := actor; sa_at := at_;
                      sa_approved_by := approver_if approved approval |} in
      modify (st_push_audit audit);;
      mret audit.

Definition delete (ref_id actor : string) (at_ : DateTime) : M SecretStore CoreError unit :=
  self ← get;
  match st_secrets self !! ref_id with
  | None => mthrow (SecretNotFound ("cannot delete unknown secret '" +:+ ref_id +:+ "'"))
  | Some _ =>
      modify (λ st, mkStore (st_master_key st) (base.delete ref_id (st_secrets st)) (st_audit st));;
      modify (st_push_audit {| sa_ref_id := ref_id; sa_action := SaDelete; sa_version := 0;
                               sa_actor := actor; sa_at := at_; sa_approved_by := None |})
  end.

Definition redact_step (self : SecretStore) (out : string) (sealed : SealedSecret) : string :=
  match open (st_master_key self) sealed with
  | Some value =>
      if negb (str_is_empty value) && str_contains value out
      then str_replace value ("[redacted:" +:+ ss_ref_id sealed +:+ "]") out else out
  | None => out
  end.
Definition redact (self : SecretStore) (text : string) : string :=
  foldl (redact_step self) text (btree_values (st_secrets self)).
Definition leaks (self : SecretStore) (redacted : string) (sealed : SealedSecret) : bool :=
  match open (st_master_key self) sealed with
  | Some value => negb (str_is_empty value) && str_contains value redacted
  | None => false
  end.
Definition guard_text (self : SecretStore) (field text : string) : result CoreError string :=
  let redacted := redact self text in
  if existsb (leaks self redacted) (btree_values (st_secrets self)) then
    Err (SecretLeak ("secret value rejected before persistence in field '" +:+ field +:+ "'"))
  else Ok redacted.
End Store.

(* ------------------------------------------------------------------ *)
(** * The retired envelope round trip *)

Lemma xor_byte_involutive a b : xor_byte (xor_byte a b) b = a.
Proof.
  unfold xor_byte. rewrite N_ascii_embedding.
  - by rewrite N.lxor_assoc, N.lxor_nilpotent, N.lxor_0_r, ascii_N_embedding.
  - pose proof (N_ascii_bounded a) as Ha. pose proof (N_ascii_bounded b) as Hb.
    change 256%N with (2 ^ 8)%N in *. destruct (decide (N.lxor (N_of_ascii a) (N_of_ascii b) = 0)%N)
      as [->|Hne]; [done|].
    apply N.log2_lt_pow2; [lia|]. eapply N.le_lt_trans; [apply N.log2_lxor|].
    assert (∀ n, (n < 2 ^ 8)%N → (N.log2 n < 8)%N) as Hlog.
    { intros n Hn. destruct (decide (n = 0)%N) as [->|?]; [done|]. apply N.log2_lt_pow2; lia. }
    apply N.max_lub_lt; by apply Hlog.
Qed.
Lemma zip_xor_involutive l s :
  length l = length s → zip_with xor_byte (zip_with xor_byte l s) s = l.
Proof.
  revert s. induction l as [|a l IH]; intros [|b s] E; simplify_eq/=; [done|].
  by rewrite xor_byte_involutive, IH.
Qed.

Lemma chars_of_list l : chars (String.string_of_list_ascii l) = l.
Proof. apply String.list_ascii_of_string_of_list_ascii. Qed.
Lemma length_chars s : length (chars s) = String.length s.
Proof. induction s as [|a s IH]; [done|]. simpl. by rewrite <- IH. Qed.

(** Enough rounds always fill the requested length. *)
Lemma keystream_loop_length fuel len out hash counter :
  (len ≤ length out + 8 * fuel)%nat →
  (len ≤ length (keystream_loop fuel len out hash counter))%nat.
Proof.
  revert out hash counter. induction fuel as [|fuel IH]; intros out hash counter Hf; simpl; [lia|].
  case_decide; [|lia]. apply IH. rewrite length_app. unfold to_le_bytes.
  rewrite length_map, length_seq. lia.
Qed.
Lemma keystream_length k ref len : length (keystream k ref len) = len.
Proof.
  unfold keystream. apply length_take_le, keystream_loop_length. simpl. lia.
Qed.

Lemma legacy_stream_length k ref p :
  String.length (seal_legacy k ref p) = String.length p.
Proof.
  unfold seal_legacy, xor_with. rewrite <- length_chars, chars_of_list, length_zip_with,
    keystream_length, length_chars. lia.
Qed.

(** Whatever the key, a value sealed by the retired envelope opens to
    itself under the key and reference it was sealed with, and the keystream
    always has the length of the value. *)
Theorem legacy_round_trip k ref p sealed :
  utf8_valid p = true → ss_ref_id sealed = ref → ss_ciphertext sealed = seal_legacy k ref p →
  open_legacy k sealed = Some p ∧ length (keystream k ref (String.length p)) = String.length p.
Proof.
  intros Hp Hr Hc. split; [|apply keystream_length].
  unfold open_legacy. rewrite Hr, Hc, legacy_stream_length.
  unfold seal_legacy, xor_with. rewrite chars_of_list, zip_xor_involutive.
  - unfold from_utf8, chars. by rewrite String.string_of_list_ascii_of_string, Hp.
  - by rewrite keystream_length, length_chars.
Qed.

(* ------------------------------------------------------------------ *)
(** * Envelopes *)

Lemma pretty_Z_inj (a b : Z) : pretty a = pretty b → a = b.
Proof. apply (inj pretty). Qed.

(** The associated data of an envelope determines its reference and version,
    whatever characters the reference contains. *)
Lemma envelope_aad_injective r1 v1 r2 v2 :
  0 ≤ v1 → 0 ≤ v2 → envelope_aad r1 v1 = envelope_aad r2 v2 → r1 = r2 ∧ v1 = v2.
Proof.
  intros H1 H2. unfold envelope_aad. rewrite <- !str_app_assoc.
  assert (∀ v, 0 ≤ v → ":"%char ∉ chars ("v" +:+ pretty v)) as Hsep.
  { intros v Hv. rewrite chars_app. apply not_elem_of_app. split; [by apply (bool_decide_unpack _)|].
    apply pretty_Z_chars; [done|apply digit_not_colon]. }
  intros E.
  assert (∀ s (v : Z), (s +:+ ":v") +:+ pretty v = s +:+ String ":" ("v" +:+ pretty v)) as Hs.
  { intros s v. by rewrite str_app_assoc. }
  rewrite !Hs in E. apply str_split_last_sep in E as [E1 E2]; [|by apply Hsep..].
  split.
  - apply (inj (String.app _)) in E1. done.
  - rewrite !str_app_cons, !str_app_nil_l in E2. injection E2 as E2. by apply pretty_Z_inj.
Qed.

(* ------------------------------------------------------------------ *)
(** * The abstract store: what each reference holds *)

Record Entry := { e_value : string; e_version : Z; e_scope : InjectionGrant }.
Definition bump (e : Entry) : Entry :=
  {| e_value := e_value e; e_version := e_version e + 1; e_scope := e_scope e |}.

Inductive StoreOp :=
| StPut (nonce ref_id value : string) (scope : InjectionGrant) (actor : string) (at_ : DateTime)
| StRotate (nonce ref_id : string) (approval : ExplicitApproval) (actor : string) (at_ : DateTime)
| StRotateKey (new_key : MasterKey) (nonces : nat → string) (approval : ExplicitApproval)
    (actor : string) (at_ : DateTime)
| StReplace (nonce ref_id new_value : string) (grant : InjectionGrant)
    (approval : ExplicitApproval) (actor : string) (at_ : DateTime)
| StDelete (ref_id actor : string) (at_ : DateTime).

(** Strings of the language are UTF-8. *)
Definition op_utf8 (op : StoreOp) : Prop :=
  match op with
  | StPut _ _ value _ _ _ | StReplace _ _ value _ _ _ _ => utf8_valid value = true
  | _ => True
  end.

Definition store_entry (ref_id value : string) (scope : InjectionGrant) (m : gmap string Entry) :
    gmap string Entry :=
  <[ref_id := {| e_value := value;
                 e_version := match m !! ref_id with Some e => e_version e + 1 | None => 1 end;
                 e_scope := scope |}]> m.
Definition no_production (m : gmap string Entry) : Prop :=
  map_Forall (λ _ e, ig_production (e_scope e) = false) m.

(** Whether an operation needs the approval of a human: always for the replacement
    of a secret that is of production or becomes it, and for the rotation of one. *)
Definition production_replacement (e : Entry) (grant : InjectionGrant) : bool :=
  ig_production (e_scope e) || ig_production grant.

(** What an operation does to the contents; [None] is a refusal. *)
Definition spec_step (op : StoreOp) (m : gmap string Entry) : option (gmap string Entry) :=
  match op with
  | StPut _ ref_id value scope _ _ =>
      if trim_is_empty ref_id then None else Some (store_entry ref_id value scope m)
  | StRotate _ ref_id approval _ _ =>
      e ← m !! ref_id;
      if ig_production (e_scope e) && negb (is_approved approval) then None
      else Some (<[ref_id := bump e]> m)
  | StRotateKey _ _ approval _ _ =>
      if negb (bool_decide (no_production m)) && negb (is_approved approval) then None
      else Some (bump <$> m)
  | StReplace _ ref_id value grant approval _ _ =>
      e ← m !! ref_id;
      if production_replacement e grant && negb (is_approved approval) then None
      else Some (store_entry ref_id value grant m)
  | StDelete ref_id _ _ => if is_some (m !! ref_id) then Some (base.delete ref_id m) else None
  end.

(** The one case in which the code does not keep to that: the unapproved replacement
    of a secret stored for production, under a grant that is not marked production.
    The code asks the grant of the caller only, and replaces the secret. *)
Definition unapproved_downgrade (op : StoreOp) (m : gmap string Entry) : option (gmap string Entry) :=
  match op with
  | StReplace _ ref_id value grant approval _ _ =>
      e ← m !! ref_id;
      if ig_production (e_scope e) && negb (ig_production grant) && negb (is_approved approval)
      then Some (store_entry ref_id value grant m) else None
  | _ => None
  end.

Section StoreFacts.
Context `{CryptoLaws} `{UuidLib} `{BuildProfile}.
Implicit Types (st : SecretStore) (op : StoreOp).

Definition discard {A} (m : M SecretStore CoreError A) : M SecretStore CoreError unit :=
  m;; mret tt.
Definition run_store_op (op : StoreOp) : M SecretStore CoreError unit :=
  match op with
  | StPut nonce ref_id value scope actor at_ => discard (put nonce ref_id value scope actor at_)
  | StRotate nonce ref_id approval actor at_ => discard (rotate nonce ref_id approval actor at_)
  | StRotateKey new_key nonces approval actor at_ =>
      discard (rotate_key new_key nonces approval actor at_)
  | StReplace nonce ref_id value grant approval actor at_ =>
      discard (replace nonce ref_id value grant approval actor at_)
  | StDelete ref_id actor at_ => delete ref_id actor at_
  end.

Definition sealed_ok (k : MasterKey) (ref : string) (s : SealedSecret) : Prop :=
  ss_ref_id s = ref ∧ trim_is_empty ref = false ∧
  ss_cipher_version s = SECRET_ENVELOPE_VERSION ∧ 1 ≤ ss_version s ∧ is_Some (open k s).
Definition store_wf st : Prop := map_Forall (sealed_ok (st_master_key st)) (st_secrets st).

Definition view (k : MasterKey) (s : SealedSecret) : Entry :=
  {| e_value := default "" (open k s); e_version := ss_version s; e_scope := ss_scope s |}.
Definition contents st : gmap string Entry := view (st_master_key st) <$> st_secrets st.
(** No version counter is at its last value. *)
Definition versions_room (m : gmap string Entry) : Prop :=
  map_Forall (λ _ e, e_version e < u64_max) m.

Definition new_sealed (k : MasterKey) (nonce ref : string) (version : Z) (scope : InjectionGrant)
    (value : string) : SealedSecret :=
  {| ss_ref_id := ref; ss_version := version; ss_scope := scope;
     ss_cipher_version := SECRET_ENVELOPE_VERSION; ss_nonce := nonce;
     ss_ciphertext := seal k nonce ref version value |}.
Lemma open_new k nonce ref version scope value :
  utf8_valid value = true → open k (new_sealed k nonce ref version scope value) = Some value.
Proof.
  intros Hv. unfold open. rewrite decide_True by done. simpl. unfold seal.
  rewrite aead_round_trip. simpl. unfold from_utf8. by rewrite Hv.
Qed.
Lemma from_utf8_Some s v : from_utf8 s = Some v → utf8_valid v = true.
Proof. unfold from_utf8. destruct (utf8_valid s) eqn:E; congruence. Qed.
Lemma open_utf8 k s v : open k s = Some v → utf8_valid v = true.
Proof.
  unfold open, open_legacy. case_decide; [|case_decide; [apply from_utf8_Some|done]].
  destruct (aead_decrypt _ _ _ _); [apply from_utf8_Some|done].
Qed.
Lemma new_sealed_ok k nonce ref version scope value :
  utf8_valid value = true → trim_is_empty ref = false → 1 ≤ version →
  sealed_ok k ref (new_sealed k nonce ref version scope value).
Proof. intros. split_and!; try done. rewrite open_new by done. eauto. Qed.
Lemma view_new k nonce ref version scope value :
  utf8_valid value = true →
  view k (new_sealed k nonce ref version scope value) =
    {| e_value := value; e_version := version; e_scope := scope |}.
Proof. intros. unfold view. by rewrite open_new. Qed.

Lemma contents_lookup st ref :
  contents st !! ref = view (st_master_key st) <$> st_secrets st !! ref.
Proof. apply lookup_fmap. Qed.
Lemma room_version st ref s :
  versions_room (contents st) → st_secrets st !! ref = Some s →
  add_unsigned u64_max (ss_version s) 1 = Done (ss_version s + 1).
Proof.
  intros Hroom Hs. apply add_unsigned_done.
  assert (ss_version s < u64_max); [|lia].
  apply (Hroom ref (view (st_master_key st) s)). by rewrite contents_lookup, Hs.
Qed.

(** Storing a fresh envelope under the active key. *)
Lemma insert_wf st ref s a :
  store_wf st → sealed_ok (st_master_key st) ref s →
  store_wf (st_push_audit a (st_insert ref s st)).
Proof. intros Hwf Hs. by apply map_Forall_insert_2. Qed.
Lemma insert_contents st ref s a :
  contents (st_push_audit a (st_insert ref s st)) =
    <[ref := view (st_master_key st) s]> (contents st).
Proof. apply fmap_insert. Qed.

Lemma push_audit_wf st a : store_wf st → store_wf (st_push_audit a st).
Proof. done. Qed.
Lemma push_audit_contents st a : contents (st_push_audit a st) = contents st.
Proof. done. Qed.

(** What a refused and a granted call look like. *)
Definition refines op st : Prop :=
  ∃ st' res, run_store_op op st = Done (st', res) ∧ store_wf st' ∧
    match spec_step op (contents st), unapproved_downgrade op (contents st) with
    | Some m, _ | None, Some m => res = Ok tt ∧ contents st' = m
    | None, None => st' = st ∧ ∃ e, res = Err e
    end.
Lemma refines_refused op st e :
  store_wf st → run_store_op op st = Done (st, Err e) → spec_step op (contents st) = None →
  unapproved_downgrade op (contents st) = None → refines op st.
Proof. intros Hwf Hrun Hspec Hd. exists st, (Err e). rewrite Hspec, Hd. eauto. Qed.
Lemma refines_granted op st st' m :
  run_store_op op st = Done (st', Ok tt) → store_wf st' →
  spec_step op (contents st) = Some m → contents st' = m → refines op st.
Proof. intros Hrun Hwf Hspec Hc. exists st', (Ok tt). rewrite Hspec. eauto. Qed.

(** The version [put] assigns. *)
Definition next_version st ref : Z :=
  match st_secrets st !! ref with Some s => ss_version s + 1 | None => 1 end.
Lemma put_run nonce ref value scope actor at_ st :
  versions_room (contents st) → trim_is_empty ref = false →
  let sealed := new_sealed (st_master_key st) nonce ref (next_version st ref) scope value in
  let a := {| sa_ref_id := ref; sa_action := SaStore; sa_version := next_version st ref;
              sa_actor := actor; sa_at := at_; sa_approved_by := None |} in
  put nonce ref value scope actor at_ st = Done (st_push_audit a (st_insert ref sealed st), Ok sealed).
Proof.
  intros Hroom Href. unfold put, next_version. unfold_monad. rewrite Href.
  destruct (st_secrets st !! ref) as [s|] eqn:Hs; [|done]. by rewrite (room_version st ref).
Qed.
Lemma next_version_pos st ref : store_wf st → 1 ≤ next_version st ref.
Proof.
  intros Hwf. unfold next_version. destruct (st_secrets st !! ref) as [s|] eqn:Hs; [|lia].
  apply Hwf in Hs as (_ & _ & _ & ? & _). lia.
Qed.
Lemma put_contents st nonce ref value scope a :
  utf8_valid value = true →
  contents (st_push_audit a (st_insert ref
    (new_sealed (st_master_key st) nonce ref (next_version st ref) scope value) st)) =
  store_entry ref value scope (contents st).
Proof.
  intros Hv. rewrite insert_contents, view_new by done. unfold store_entry, next_version.
  rewrite contents_lookup. by destruct (st_secrets st !! ref).
Qed.

Lemma put_refines nonce ref value scope actor at_ st :
  store_wf st → utf8_valid value = true → versions_room (contents st) →
  refines (StPut nonce ref value scope actor at_) st.
Proof.
  intros Hwf Hv Hroom. destruct (trim_is_empty ref) eqn:Href.
  - eapply refines_refused; [done| |simpl; by rewrite Href|done].
    simpl. unfold discard, put. unfold_monad. by rewrite Href.
  - eapply refines_granted; [| |simpl; by rewrite Href|by apply put_contents].
    + simpl. unfold discard, mbind, M_bind. by rewrite put_run.
    + apply insert_wf; [done|]. apply new_sealed_ok; auto using next_version_pos.
Qed.

(** A replacement that passes the check of the caller's grant. *)
Lemma replace_run nonce ref value grant approval actor at_ st s :
  store_wf st → utf8_valid value = true → versions_room (contents st) →
  st_secrets st !! ref = Some s → ig_production grant && negb (is_approved approval) = false →
  ∃ st', run_store_op (StReplace nonce ref value grant approval actor at_) st = Done (st', Ok tt) ∧
    store_wf st' ∧ contents st' = store_entry ref value grant (contents st).
Proof.
  intros Hwf Hv Hroom Hs Hg. destruct (Hwf _ _ Hs) as (_ & Href & _). eexists. split; [|split].
  - simpl. unfold discard, replace. rewrite Hg. unfold mbind, M_bind, get.
    unfold SecretStore_contains. rewrite Hs. simpl. rewrite put_run by done. unfold_monad.
    rewrite lookup_insert_eq. simpl. reflexivity.
  - apply push_audit_wf, insert_wf; [done|]. apply new_sealed_ok; auto using next_version_pos.
  - rewrite push_audit_contents. by apply put_contents.
Qed.

Lemma replace_refines nonce ref value grant approval actor at_ st :
  store_wf st → utf8_valid value = true → versions_room (contents st) →
  refines (StReplace nonce ref value grant approval actor at_) st.
Proof.
  intros Hwf Hv Hroom. destruct (st_secrets st !! ref) as [s|] eqn:Hs.
  2:{ destruct (ig_production grant && negb (is_approved approval)) eqn:Hg;
        (eapply refines_refused; [done| |simpl; by rewrite contents_lookup, Hs..]);
        simpl; unfold discard, replace; unfold_monad; rewrite Hg; [done|].
      unfold SecretStore_contains. by rewrite Hs. }
  destruct (ig_production grant && negb (is_approved approval)) eqn:Hg.
  { apply andb_true_iff in Hg as [Hp Ha].
    eapply refines_refused; [done| | |]; simpl; rewrite ?contents_lookup, ?Hs; simpl;
      unfold production_replacement; rewrite ?Hp, ?Ha, ?orb_true_r, ?andb_false_r; [|done..].
    unfold discard, replace. unfold_monad. by rewrite Hp, Ha. }
  edestruct (replace_run nonce ref value grant approval actor at_ st s) as (st' & Hrun & Hwf' & Hc); [done..|].
  exists st', (Ok tt). split; [done|]. split; [done|]. simpl. rewrite contents_lookup, Hs. simpl.
  unfold production_replacement. revert Hg.
  change (e_scope (view (st_master_key st) s)) with (ss_scope s).
  by destruct (ig_production (ss_scope s)), (ig_production grant), (is_approved approval).
Qed.

Lemma delete_refines ref actor at_ st : store_wf st → refines (StDelete ref actor at_) st.
Proof.
  intros Hwf. destruct (st_secrets st !! ref) as [s|] eqn:Hs.
  - eapply refines_granted; [| |simpl; by rewrite contents_lookup, Hs|].
    + simpl. unfold delete. unfold_monad. rewrite Hs. reflexivity.
    + apply push_audit_wf. by apply map_Forall_delete.
    + apply fmap_delete.
  - eapply refines_refused; [done| |simpl; by rewrite contents_lookup, Hs|done].
    simpl. unfold delete. unfold_monad. by rewrite Hs.
Qed.

Lemma open_envelope_ok st ref s :
  store_wf st → st_secrets st !! ref = Some s →
  open_envelope st s = Ok (e_value (view (st_master_key st) s)) ∧
  utf8_valid (e_value (view (st_master_key st) s)) = true.
Proof.
  intros Hwf Hs. destruct (Hwf _ _ Hs) as (_ & _ & _ & _ & [v Hv]).
  unfold open_envelope. simpl. rewrite Hv. split; [done|]. by apply open_utf8 in Hv.
Qed.

Lemma rotate_refines nonce ref approval actor at_ st :
  store_wf st → versions_room (contents st) → refines (StRotate nonce ref approval actor at_) st.
Proof.
  intros Hwf Hroom. destruct (st_secrets st !! ref) as [s|] eqn:Hs.
  2:{ eapply refines_refused; [done| |simpl; by rewrite contents_lookup, Hs|done].
      simpl. unfold discard, rotate. unfold_monad. by rewrite Hs. }
  destruct (ig_production (ss_scope s) && negb (is_approved approval)) eqn:Hg.
  { eapply refines_refused; [done| |simpl; rewrite contents_lookup, Hs; simpl; by rewrite Hg|done].
    simpl. unfold discard, rotate. unfold_monad. rewrite Hs. simpl. by rewrite Hg. }
  destruct (open_envelope_ok st ref s Hwf Hs) as [Hopen Hutf].
  pose proof Hs as (_ & Href & _ & Hpos & _)%Hwf.
  eapply refines_granted; [| |simpl; rewrite contents_lookup, Hs; simpl; by rewrite Hg|].
  - simpl. unfold discard, rotate, mbind, M_bind, get, lift_r, lift_o. rewrite Hs. simpl.
    rewrite Hg, Hopen. rewrite (room_version st ref) by done. reflexivity.
  - apply insert_wf; [done|]. apply new_sealed_ok; [done..|lia].
  - rewrite insert_contents. f_equal. by apply (view_new _ nonce ref).
Qed.

(** ** Key rotation *)

Definition planned st (e : string * SealedSecret) : string * Z * InjectionGrant * string :=
  (e.1, ss_version e.2 + 1, ss_scope e.2, e_value (view (st_master_key st) e.2)).

Lemma open_all_run st entries st0 :
  store_wf st → versions_room (contents st) →
  (∀ k s, (k, s) ∈ entries → st_secrets st !! k = Some s) →
  open_all st entries st0 = Done (st0, Ok (planned st <$> entries)).
Proof.
  intros Hwf Hroom. induction entries as [|[k s] entries IH]; intros Hin; [done|].
  assert (st_secrets st !! k = Some s) as Hs by (apply Hin; set_solver).
  destruct (open_envelope_ok st k s Hwf Hs) as [Hopen _].
  simpl. unfold mbind, M_bind, lift_r, lift_o. rewrite Hopen, (room_version st k) by done.
  rewrite IH by (intros; apply Hin; set_solver). done.
Qed.

Definition plan_key (p : string * Z * InjectionGrant * string) : string := p.1.1.1.
Lemma reseal_all_run key nonces ab actor at_ ps i st :
  NoDup (plan_key <$> ps) →
  ∃ st', reseal_all key nonces ab actor at_ i ps st = Done (st', Ok tt) ∧
    (∀ k, k ∉ (plan_key <$> ps) → st_secrets st' !! k = st_secrets st !! k) ∧
    (∀ k v sc val, (k, v, sc, val) ∈ ps →
       ∃ nonce, st_secrets st' !! k = Some (new_sealed key nonce k v sc val)).
Proof.
  revert i st. induction ps as [|[[[k v] sc] val] ps IH]; intros i st Hnd.
  { exists st. split; [done|]. split; [done|]. set_solver. }
  apply NoDup_cons in Hnd as [Hk Hnd]. simpl.
  unfold mbind, M_bind, modify.
  edestruct (IH (S i)) as (st' & Hrun & Hout & Hin); [done|].
  exists st'. split; [exact Hrun|]. split.
  - intros k' [Hne Hk']%not_elem_of_cons. rewrite Hout by done. simpl.
    by rewrite lookup_insert_ne by done.
  - intros k' v' sc' val' [[= -> -> -> ->]|Hps]%elem_of_cons; [|by eapply Hin].
    exists (nonces i). rewrite Hout by done. simpl. by rewrite lookup_insert_eq.
Qed.

Lemma production_refs_empty st :
  (List.filter (λ e, ig_production (ss_scope e.2)) (btree_entries (st_secrets st))).*1 = [] ↔
  no_production (contents st).
Proof.
  unfold no_production. rewrite map_Forall_lookup. split.
  - intros E ref e. rewrite contents_lookup.
    destruct (st_secrets st !! ref) as [s|] eqn:Hs; [|done]. intros [= <-]. simpl.
    apply not_true_is_false. intros Hp.
    assert (ref ∈ (List.filter (λ e, ig_production (ss_scope e.2))
                     (btree_entries (st_secrets st))).*1) as Hin; [|rewrite E in Hin; set_solver].
    apply list_elem_of_fmap. exists (ref, s). split; [done|].
    rewrite list_elem_of_In, List.filter_In, <- list_elem_of_In. split; [|done].
    by apply elem_of_btree_entries.
  - intros Hall. destruct (List.filter _ _) as [|[ref s] l] eqn:E; [done|]. exfalso.
    assert ((ref, s) ∈ List.filter (λ e, ig_production (ss_scope e.2))
              (btree_entries (st_secrets st))) as Hin by (rewrite E; set_solver).
    rewrite list_elem_of_In, List.filter_In, <- list_elem_of_In in Hin. destruct Hin as [Hin Hp].
    apply elem_of_btree_entries in Hin. simpl in Hp.
    specialize (Hall ref (view (st_master_key st) s)). rewrite contents_lookup, Hin in Hall.
    simpl in Hall. rewrite Hall in Hp; done.
Qed.

(** Every reference is re-sealed under the new key with its value and scope. *)
Lemma rotate_key_run key nonces approval actor at_ st :
  store_wf st → versions_room (contents st) →
  no_production (contents st) ∨ is_approved approval = true →
  ∃ st' n, rotate_key key nonces approval actor at_ st = Done (st', Ok n) ∧
    st_master_key st' = key ∧
    ∀ k, match st_secrets st !! k with
         | None => st_secrets st' !! k = None
         | Some s => ∃ nonce, st_secrets st' !! k =
             Some (new_sealed key nonce k (ss_version s + 1) (ss_scope s)
                     (e_value (view (st_master_key st) s)))
         end.
Proof.
  intros Hwf Hroom Hok. set (entries := btree_entries (st_secrets st)).
  assert (plan_key <$> (planned st <$> entries) = entries.*1) as Hkeys.
  { rewrite <- list_fmap_compose. by apply list_fmap_ext. }
  edestruct (reseal_all_run key nonces (approver_if (is_approved approval) approval) actor at_
    (planned st <$> entries) 0 st) as (st' & Hrun & Hout & Hin).
  { rewrite Hkeys. apply NoDup_btree_keys. }
  eexists (mkStore key (st_secrets st') (st_audit st')), _. split.
  { unfold rotate_key, mbind, M_bind, get.
    replace (negb (bool_decide _) && negb (is_approved approval)) with false.
    - fold entries. rewrite open_all_run; [|done..|intros k s; apply elem_of_btree_entries].
      rewrite Hrun. reflexivity.
    - symmetry. destruct Hok as [Hok| ->]; [|apply andb_false_r].
      apply production_refs_empty in Hok. by rewrite Hok. }
  split; [done|]. intros k. simpl. destruct (st_secrets st !! k) as [s|] eqn:Hs.
  - apply (Hin k). apply list_elem_of_fmap. exists (k, s). split; [done|].
    by apply elem_of_btree_entries.
  - rewrite Hout; [done|]. rewrite Hkeys. intros ([k' s] & -> & He)%list_elem_of_fmap.
    apply elem_of_btree_entries in He. simpl in Hs. congruence.
Qed.

Lemma rotate_key_refines key nonces approval actor at_ st :
  store_wf st → versions_room (contents st) →
  refines (StRotateKey key nonces approval actor at_) st.
Proof.
  intros Hwf Hroom.
  destruct (negb (bool_decide (no_production (contents st))) && negb (is_approved approval)) eqn:Hg.
  { eapply refines_refused; [done| |simpl; by rewrite Hg|done].
    simpl. unfold discard, rotate_key. unfold_monad.
    apply andb_true_iff in Hg as [Hnp%negb_true_iff%bool_decide_eq_false Ha].
    rewrite Ha, bool_decide_false; [done|]. by rewrite production_refs_empty. }
  destruct (rotate_key_run key nonces approval actor at_ st Hwf Hroom)
    as (st' & n & Hrun & Hkey & Hlk).
  { destruct (is_approved approval); [by right|left].
    rewrite andb_true_r in Hg. by apply negb_false_iff, bool_decide_eq_true in Hg. }
  eapply (refines_granted _ _ st'); [| |simpl; by rewrite Hg|].
  - simpl. unfold discard, mbind, M_bind. by rewrite Hrun.
  - intros k s' Hs'. specialize (Hlk k). destruct (st_secrets st !! k) as [s|] eqn:Hs; [|congruence].
    destruct Hlk as [nonce Hlk]. rewrite Hlk in Hs'. injection Hs' as <-. rewrite Hkey.
    pose proof Hs as (_ & Href & _ & Hpos & _)%Hwf.
    apply new_sealed_ok; [by apply (open_envelope_ok st k)|done|lia].
  - apply map_eq. intros k. rewrite contents_lookup, Hkey, lookup_fmap, contents_lookup.
    specialize (Hlk k). destruct (st_secrets st !! k) as [s|] eqn:Hs; simpl; [|by rewrite Hlk].
    destruct Hlk as [nonce ->]. simpl. by rewrite view_new by (by apply (open_envelope_ok st k)).
Qed.

Lemma store_op_refines op st :
  store_wf st → op_utf8 op → versions_room (contents st) → refines op st.
Proof.
  destruct op; simpl; intros; auto using put_refines, rotate_refines, rotate_key_refines,
    replace_refines, delete_refines.
Qed.

(** Stores built by the operations, from an empty store on. *)
Inductive store_step : SecretStore → SecretStore → Prop :=
| store_step_op op st st' res :
    op_utf8 op → versions_room (contents st) → run_store_op op st = Done (st', res) →
    store_step st st'.
Definition store_reachable st : Prop := ∃ k, rtc store_step (SecretStore_new k) st.
Lemma store_step_wf st st' : store_wf st → store_step st st' → store_wf st'.
Proof.
  intros Hwf Hs. destruct Hs as [op st st' res Hu Hroom Hrun].
  destruct (store_op_refines op st Hwf Hu Hroom) as (st1 & res1 & Hrun1 & Hwf1 & _).
  rewrite Hrun in Hrun1. by simplify_eq.
Qed.
Lemma store_reachable_wf st : store_reachable st → store_wf st.
Proof.
  intros [k Hs]. assert (store_wf (SecretStore_new k)) as Hnew by apply map_Forall_empty.
  induction Hs; eauto using store_step_wf.
Qed.

(** C5: on every reachable store, each operation finishes and behaves as the abstract
    store of values, versions and scopes, in which the replacement of a production
    secret always needs approval, but for one disclosed case.  It succeeds when the
    abstract step is allowed (non-blank or known reference, production approval for
    rotation, key rotation and replacement; a first or repeated put asks for none) and
    then changes the contents as that step does.  When the abstract step is refused it
    is refused and changes nothing, unless it is the unapproved replacement of a
    production secret under a grant that is not marked production: that one the code
    carries out, and the secret loses its production scope.  So sealing, rotation and
    key rotation keep every value readable, and a refused key rotation re-seals
    nothing. *)
Theorem secret_store_refines op st :
  store_reachable st → op_utf8 op → versions_room (contents st) →
  ∃ st' res, run_store_op op st = Done (st', res) ∧
    match spec_step op (contents st), unapproved_downgrade op (contents st) with
    | Some m, _ | None, Some m => res = Ok tt ∧ contents st' = m
    | None, None => st' = st ∧ ∃ e, res = Err e
    end.
Proof.
  intros Hwf%store_reachable_wf Hu Hroom.
  destruct (store_op_refines op st Hwf Hu Hroom) as (st' & res & Hrun & _ & Hspec). eauto.
Qed.

(** A value leaves the store only for the application and environment
    it is scoped to, and is then the value last stored; an unknown reference or a
    foreign grant gets an error. *)
Theorem inject_spec st grant ref :
  store_reachable st →
  match contents st !! ref with
  | Some e =>
      if decide (ig_application_id (e_scope e) = ig_application_id grant ∧
                 ig_environment_name (e_scope e) = ig_environment_name grant)
      then inject st grant ref = Ok (e_value e)
      else ∃ m, inject st grant ref = Err (CapabilityBinding m)
  | None => ∃ m, inject st grant ref = Err (SecretNotFound m)
  end.
Proof.
  intros Hwf%store_reachable_wf. rewrite contents_lookup. unfold inject.
  destruct (st_secrets st !! ref) as [s|] eqn:Hs; unfold_monad; [|eauto].
  destruct (open_envelope_ok st ref s Hwf Hs) as [Hopen _].
  simpl. destruct (decide (ig_application_id (ss_scope s) = ig_application_id grant)) as [Ha|Ha].
  - destruct (decide (ig_environment_name (ss_scope s) = ig_environment_name grant)) as [Hn|Hn].
    + by rewrite (decide_True (P := _ ∧ _)), (decide_False (P := _ ∨ _)) by naive_solver.
    + rewrite (decide_False (P := _ ∧ _)), (decide_True (P := _ ∨ _)) by naive_solver. eauto.
  - rewrite (decide_False (P := _ ∧ _)), (decide_True (P := _ ∨ _)) by naive_solver. eauto.
Qed.

Lemma inject_loop_spec st grant env out :
  NoDup env.*1 →
  match inject_loop st grant env out with
  | Ok out' =>
      (∀ name, name ∉ env.*1 → out' !! name = out !! name) ∧
      (∀ name src, (name, src) ∈ env →
         match src with
         | SecretRef r => ∃ v, inject st grant r = Ok v ∧ out' !! name = Some v
         | _ => out' !! name = out !! name
         end)
  | Err e => ∃ name r, (name, SecretRef r) ∈ env ∧ inject st grant r = Err e
  end.
Proof.
  revert out. induction env as [|[name src] env IH]; intros out Hnd.
  { simpl. split; [done|]. set_solver. }
  apply NoDup_cons in Hnd as [Hname Hnd].
  assert (∀ out', (∀ n, n ≠ name → out' !! n = out !! n) →
    (match src with
     | SecretRef r => ∃ v, inject st grant r = Ok v ∧ out' !! name = Some v
     | _ => out' !! name = out !! name
     end) →
    match inject_loop st grant env out' with
    | Ok o =>
        (∀ n, n ∉ ((name, src) :: env).*1 → o !! n = out !! n) ∧
        (∀ n s, (n, s) ∈ (name, src) :: env →
           match s with
           | SecretRef r => ∃ v, inject st grant r = Ok v ∧ o !! n = Some v
           | _ => o !! n = out !! n
           end)
    | Err e => ∃ n r, (n, SecretRef r) ∈ (name, src) :: env ∧ inject st grant r = Err e
    end) as Hstep.
  { intros out' Hkeep Hhere. specialize (IH out' Hnd).
    destruct (inject_loop st grant env out') as [o|e].
    2:{ destruct IH as (n & r & ? & ?). exists n, r. set_solver. }
    destruct IH as [Hout Hin]. split.
    - intros n Hn. csimpl in Hn. apply not_elem_of_cons in Hn as [? ?]. rewrite Hout by done. auto.
    - intros n s [[= -> ->]|Hns]%elem_of_cons.
      + rewrite (Hout name) by done. done.
      + assert (n ≠ name).
        { intros ->. apply Hname. apply list_elem_of_fmap. by exists (name, s). }
        specialize (Hin n s Hns). destruct s; rewrite <- ?Hkeep; auto. }
  destruct src as [lit|r|field]; simpl; [by apply Hstep| |by apply Hstep].
  unfold mbind, result_bind. destruct (inject st grant r) as [v|e] eqn:Hi.
  - apply (Hstep (<[name := v]> out)); [by intros; rewrite lookup_insert_ne|].
    exists v. by rewrite lookup_insert_eq.
  - exists name, r. split; [set_solver|done].
Qed.

(** Injecting a binding is all or nothing: it yields exactly one
    variable per secret reference of the environment contract, with the injected
    value, or the error of a reference that could not be injected. *)
Theorem inject_binding_spec st grant binding :
  match inject_binding st grant binding with
  | Ok out => ∀ name,
      match bd_env binding !! name with
      | Some (SecretRef r) => ∃ v, inject st grant r = Ok v ∧ out !! name = Some v
      | _ => out !! name = None
      end
  | Err e => ∃ name r, bd_env binding !! name = Some (SecretRef r) ∧ inject st grant r = Err e
  end.
Proof.
  unfold inject_binding. pose proof (inject_loop_spec st grant (btree_entries (bd_env binding)) ∅
    (NoDup_btree_keys _)) as Hl.
  destruct (inject_loop _ _ _ _) as [out|e].
  - destruct Hl as [Hout Hin]. intros name. destruct (bd_env binding !! name) as [src|] eqn:E.
    + apply elem_of_btree_entries in E. specialize (Hin name src E).
      destruct src; rewrite ?lookup_empty in Hin; done.
    + rewrite Hout; [apply lookup_empty|]. intros ([n s] & -> & Hn)%list_elem_of_fmap.
      apply elem_of_btree_entries in Hn. discriminate (eq_trans (eq_sym Hn) E).
  - destruct Hl as (name & r & Hin%elem_of_btree_entries & He). eauto.
Qed.

(** ** Redaction at the boundary *)

Lemma redact_clean st text :
  (∀ s v, s ∈ btree_values (st_secrets st) → open (st_master_key st) s = Some v → v ≠ "" →
     str_contains v text = false) →
  redact st text = text.
Proof.
  unfold redact. induction (btree_values (st_secrets st)) as [|s l IH]; intros Hc; [done|].
  simpl. assert (redact_step st text s = text) as ->.
  { unfold redact_step. destruct (open (st_master_key st) s) as [v|] eqn:Ev; [|done].
    destruct v as [|a v]; [done|]. by rewrite (Hc s _) by (done || set_solver). }
  apply IH. intros s' v Hs'. apply Hc. set_solver.
Qed.
Lemma leaks_false st out s :
  leaks st out s = false ↔
  ∀ v, open (st_master_key st) s = Some v → v ≠ "" → str_contains v out = false.
Proof.
  unfold leaks. destruct (open (st_master_key st) s) as [v|]; [|naive_solver].
  split.
  - intros E v' [= <-] Hne. by destruct v.
  - intros Hv. destruct v as [|a v]; [done|]. by rewrite (Hv (String a v)).
Qed.

(** The boundary guard is fail-closed: a payload it lets through is the
    redacted text and contains no non-empty secret value of the store; the only
    other answer is a leak error; and a payload without any secret value passes
    unchanged. *)
Theorem guard_text_sound st field text :
  store_reachable st →
  match guard_text st field text with
  | Ok out => out = redact st text ∧
      ∀ ref e, contents st !! ref = Some e → e_value e ≠ "" → str_contains (e_value e) out = false
  | Err e => ∃ m, e = SecretLeak m
  end ∧
  ((∀ ref e, contents st !! ref = Some e → e_value e ≠ "" → str_contains (e_value e) text = false) →
   guard_text st field text = Ok text).
Proof.
  intros Hwf%store_reachable_wf.
  assert (∀ out, (∀ ref e, contents st !! ref = Some e → e_value e ≠ "" →
                    str_contains (e_value e) out = false) ↔
            ∀ s, s ∈ btree_values (st_secrets st) → leaks st out s = false) as Hiff.
  { intros out. split.
    - intros Hc s [ref Hs]%elem_of_btree_values. apply leaks_false. intros v Hv.
      specialize (Hc ref (view (st_master_key st) s)).
      rewrite contents_lookup, Hs in Hc. simpl in Hc. rewrite Hv in Hc. by apply Hc.
    - intros Hl ref e. rewrite contents_lookup. destruct (st_secrets st !! ref) as [s|] eqn:Hs; [|done].
      intros [= <-]. pose proof Hs as (_ & _ & _ & _ & [v Hv])%Hwf. simpl. rewrite Hv. simpl.
      apply (leaks_false st out s); [|done]. apply Hl, elem_of_btree_values. eauto. }
  unfold guard_text. split.
  - destruct (existsb _ _) eqn:E; [by eexists|]. split; [done|].
    apply Hiff. by apply existsb_false.
  - intros Hc. assert (redact st text = text) as ->.
    { apply redact_clean. intros s v Hs Hv.
      apply (proj1 (leaks_false st text s)); [by apply (proj1 (Hiff text) Hc)|done]. }
    rewrite (proj2 (existsb_false _ _)); [done|]. exact (proj1 (Hiff text) Hc).
Qed.

(** Replacing checks the production flag of the grant the caller passes,
    not of the stored secret: under a grant that is not marked production, any
    caller replaces a production-scoped value without approval, and the secret
    loses its production scope. *)
Theorem replace_ignores_stored_scope nonce ref value grant approval actor at_ st e :
  store_reachable st → versions_room (contents st) → utf8_valid value = true →
  contents st !! ref = Some e → ig_production (e_scope e) = true → ig_production grant = false →
  ∃ st', run_store_op (StReplace nonce ref value grant approval actor at_) st = Done (st', Ok tt) ∧
    contents st' !! ref =
      Some {| e_value := value; e_version := e_version e + 1; e_scope := grant |}.
Proof.
  intros Hwf%store_reachable_wf Hroom Hv He Hp Hg.
  destruct (store_op_refines (StReplace nonce ref value grant approval actor at_) st Hwf Hv Hroom)
    as (st' & res & Hrun & _ & Hspec).
  assert (res = Ok tt ∧ contents st' = store_entry ref value grant (contents st)) as [-> Hc].
  { revert Hspec. simpl. rewrite He. simpl. unfold production_replacement. rewrite Hp, Hg.
    by destruct (is_approved approval). }
  exists st'. split; [done|]. rewrite Hc. unfold store_entry. by rewrite lookup_insert_eq, He.
Qed.
End StoreFacts.

Section EnvelopeFacts.
Context `{AeadBinds}.

(** A sealed value is pinned to its reference and version: presented
    under any other reference or version it does not open. *)
Theorem envelope_pinned k nonce ref version scope value ref' version' scope' :
  0 ≤ version → 0 ≤ version' → (ref', version') ≠ (ref, version) →
  open k {| ss_ref_id := ref'; ss_version := version'; ss_scope := scope';
            ss_cipher_version := SECRET_ENVELOPE_VERSION; ss_nonce := nonce;
            ss_ciphertext := ss_ciphertext (new_sealed k nonce ref version scope value) |} = None.
Proof.
  intros Hv Hv' Hne. unfold open. rewrite decide_True by done. simpl. unfold seal.
  rewrite aead_binds; [done|]. intros E. apply Hne.
  by apply envelope_aad_injective in E as [-> ->].
Qed.
End EnvelopeFacts.

(* ------------------------------------------------------------------ *)
(** * Examples *)

Module SecretExamples.
Import RefInstances.

Definition key0 : MasterKey := mkMasterKey "k0".
Definition secret_app : ApplicationId := mkId (uuid 1).
Definition prod : InjectionGrant :=
  {| ig_application_id := secret_app; ig_environment_name := "production"; ig_production := true |}.
Definition unmarked : InjectionGrant :=
  {| ig_application_id := secret_app; ig_environment_name := "production"; ig_production := false |}.
Definition denied : ExplicitApproval := ExplicitApproval_denied "" "".
Definition put_url : StoreOp := StPut "n0" "db.url" "s3cr3t" prod "ann" 0.
Definition store1 : SecretStore :=
  (done_or (SecretStore_new key0, Ok tt) (run_store_op put_url (SecretStore_new key0))).1.

Lemma empty_room k : versions_room (contents (SecretStore_new k)).
Proof. unfold contents. simpl. rewrite fmap_empty. apply map_Forall_empty. Qed.
Lemma store1_run :
  run_store_op put_url (SecretStore_new key0) = Done (store1, Ok tt) ∧
  contents store1 = {["db.url" := {| e_value := "s3cr3t"; e_version := 1; e_scope := prod |}]}.
Proof.
  destruct (put_refines "n0" "db.url" "s3cr3t" prod "ann" 0 (SecretStore_new key0))
    as (st & res & Hrun & _ & Hspec);
    [apply map_Forall_empty|reflexivity|apply empty_room|].
  change (spec_step (StPut "n0" "db.url" "s3cr3t" prod "ann" 0) (contents (SecretStore_new key0)))
    with (Some (store_entry "db.url" "s3cr3t" prod (contents (SecretStore_new key0)))) in Hspec.
  destruct Hspec as [-> Hc]. unfold store1, put_url. rewrite Hrun. split; [done|]. simpl.
  rewrite Hc. unfold store_entry, contents. simpl. by rewrite fmap_empty, lookup_empty.
Qed.
Lemma store1_reachable : store_reachable store1.
Proof.
  exists key0. apply rtc_once, (store_step_op put_url _ _ (Ok tt));
    [reflexivity|apply empty_room|apply store1_run].
Qed.
Lemma store1_entry :
  contents store1 !! "db.url" = Some {| e_value := "s3cr3t"; e_version := 1; e_scope := prod |}.
Proof. rewrite (proj2 store1_run). apply lookup_singleton_eq. Qed.
Lemma store1_room : versions_room (contents store1).
Proof. rewrite (proj2 store1_run). apply map_Forall_singleton. done. Qed.

(** A production secret is not rotated without approval. *)
Lemma secret_store_refines_witness :
  store_reachable store1 ∧ versions_room (contents store1) ∧
  ∃ e, run_store_op (StRotate "n1" "db.url" denied "bob" 1) store1 = Done (store1, Err e).
Proof.
  split; [exact store1_reachable|]. split; [exact store1_room|].
  destruct (secret_store_refines (StRotate "n1" "db.url" denied "bob" 1) store1 store1_reachable I
              store1_room) as (st' & res & Hrun & Hspec).
  cbn [spec_step] in Hspec. rewrite store1_entry in Hspec.
  destruct Hspec as [-> [e ->]]. exists e. exact Hrun.
Defined.
Lemma inject_spec_witness :
  store_reachable store1 ∧ inject store1 unmarked "db.url" = Ok "s3cr3t".
Proof.
  split; [exact store1_reachable|].
  pose proof (inject_spec store1 unmarked "db.url" store1_reachable) as Hi.
  rewrite store1_entry in Hi. rewrite decide_True in Hi by (split; reflexivity). exact Hi.
Defined.
Lemma guard_text_sound_witness :
  store_reachable store1 ∧ guard_text store1 "log" "all good" = Ok "all good".
Proof.
  split; [exact store1_reachable|].
  apply (guard_text_sound store1 "log" "all good" store1_reachable).
  intros ref e. rewrite (proj2 store1_run).
  intros [<- <-]%lookup_singleton_Some _. reflexivity.
Defined.
Lemma replace_ignores_stored_scope_witness :
  contents store1 !! "db.url" = Some {| e_value := "s3cr3t"; e_version := 1; e_scope := prod |} ∧
  ∃ st', run_store_op (StReplace "n2" "db.url" "other" unmarked denied "eve" 2) store1 =
           Done (st', Ok tt) ∧
    contents st' !! "db.url" = Some {| e_value := "other"; e_version := 2; e_scope := unmarked |}.
Proof.
  split; [exact store1_entry|].
  exact (replace_ignores_stored_scope "n2" "db.url" "other" unmarked denied "eve" 2 store1 _
           store1_reachable store1_room eq_refl store1_entry eq_refl eq_refl).
Defined.
Lemma envelope_pinned_witness :
  open key0 {| ss_ref_id := "db.url"; ss_version := 2; ss_scope := prod;
               ss_cipher_version := SECRET_ENVELOPE_VERSION; ss_nonce := "n0";
               ss_ciphertext := ss_ciphertext (new_sealed key0 "n0" "db.url" 1 prod "s3cr3t") |}
  = None.
Proof. apply (envelope_pinned key0 "n0" "db.url" 1 prod "s3cr3t" "db.url" 2 prod); [lia|lia|]. intros E. discriminate E. Defined.
Lemma legacy_round_trip_witness :
  utf8_valid "old-s3cr3t" = true ∧
  open_legacy key0 {| ss_ref_id := "db.url"; ss_version := 1; ss_scope := prod;
                      ss_cipher_version := SECRET_ENVELOPE_LEGACY_XOR; ss_nonce := "";
                      ss_ciphertext := seal_legacy key0 "db.url" "old-s3cr3t" |} = Some "old-s3cr3t".
Proof.
  split; [reflexivity|].
  apply (legacy_round_trip key0 "db.url" "old-s3cr3t"); reflexivity.
Defined.
End SecretExamples.
