(* ===== verification/Application.v ===== *)
(** The application aggregate (origin.rs, environment.rs, application.rs), its
    repository (repository.rs) and its portable manifest (manifest.rs). *)

From stdpp Require Import base option list strings pretty gmap relations.
From Stdlib Require Import ZArith Lia.
From S2P Require Import Prelude External Errors Ids State Runtime.
Local Open Scope Z_scope.

(* ------------------------------------------------------------------ *)
(** * Origins and environments *)

Inductive Origin :=
| OGenerated (prompt_summary : option string)
| OImportedGit (repository_url branch : string) (commit_sha : option string)
| OImportedLocal (path : string)
| OTemplate (template_id : string) (template_version : option string)
| OFork (parent_application_id : ApplicationId)
| OExternal (external_ref : string).
#[global] Instance Origin_eq_dec : EqDecision Origin.
Proof. solve_decision. Defined.
Definition Origin_kind (self : Origin) : string :=
  match self with
  | OGenerated _ => "generated"
  | OImportedGit _ _ _ => "imported_git"
  | OImportedLocal _ => "imported_local"
  | OTemplate _ _ => "template"
  | OFork _ => "fork"
  | OExternal _ => "external"
  end.

Inductive EnvironmentKind := EkDevelopment | EkPreview (name : string) | EkProduction.
#[global] Instance EnvironmentKind_eq_dec : EqDecision EnvironmentKind.
Proof. solve_decision. Defined.
Definition is_preview (k : EnvironmentKind) : bool :=
  match k with EkPreview _ => true | _ => false end.

Record EnvironmentRefs := {
  refs_runtime : gmap string string;
  refs_capabilities : gmap string string;
  refs_resources : gmap string string;
  refs_secrets : gmap string string;
  refs_deployments : gmap string string;
  refs_domains : gmap string string;
}.
Definition EnvironmentRefs_default : EnvironmentRefs :=
  {| refs_runtime := ∅; refs_capabilities := ∅; refs_resources := ∅; refs_secrets := ∅;
     refs_deployments := ∅; refs_domains := ∅ |}.

Record Environment := {
  env_id : EnvironmentId;
  env_application_id : ApplicationId;
  env_kind : EnvironmentKind;
  env_name : string;
  env_refs : EnvironmentRefs;
}.
(** [fresh] is the identifier drawn by [EnvironmentId::new]. *)
Definition Environment_new (fresh : EnvironmentId) (application_id : ApplicationId)
    (kind : EnvironmentKind) (name : string) : Environment :=
  {| env_id := fresh; env_application_id := application_id; env_kind := kind; env_name := name;
     env_refs := EnvironmentRefs_default |}.
Definition Environment_development (fresh : EnvironmentId) (application_id : ApplicationId) :=
  Environment_new fresh application_id EkDevelopment "development".
Definition Environment_production (fresh : EnvironmentId) (application_id : ApplicationId) :=
  Environment_new fresh application_id EkProduction "production".
Definition Environment_preview (fresh : EnvironmentId) (application_id : ApplicationId)
    (name : string) :=
  Environment_new fresh application_id (EkPreview name) name.

(* ------------------------------------------------------------------ *)
(** * Applications *)

Inductive ApplicationStatus := AsDraft | AsActive | AsArchived.

Record AuditMetadata := {
  created_by : string;
  updated_by : option string;
  audit_event_ids : list string;
}.

Record LifecycleCollections := {
  lc_workspaces : list string;
  lc_agent_sessions : list string;
  lc_capabilities : list string;
  lc_resources : list string;
  lc_providers : list string;
  lc_secrets : list string;
  lc_previews : list string;
  lc_deployments : list string;
  lc_domains : list string;
  lc_jobs : list string;
  lc_artifacts : list string;
  lc_logs : list string;
  lc_audit_events : list string;
}.
Definition LifecycleCollections_default : LifecycleCollections :=
  Build_LifecycleCollections [] [] [] [] [] [] [] [] [] [] [] [] [].

Section Model.
Context `{JsonLib}.

Record Application := mkApplication {
  app_id : ApplicationId;
  app_name : string;
  app_origin : Origin;
  app_status : ApplicationStatus;
  app_created_at : DateTime;
  app_updated_at : DateTime;
  app_audit : AuditMetadata;
  app_environments : list Environment;
  app_desired_state : DesiredState;
  app_observed_state : ObservedState;
  app_collections : LifecycleCollections;
}.
Definition app_set_desired d a :=
  mkApplication (app_id a) (app_name a) (app_origin a) (app_status a) (app_created_at a)
    (app_updated_at a) (app_audit a) (app_environments a) d (app_observed_state a)
    (app_collections a).
Definition app_set_observed o a :=
  mkApplication (app_id a) (app_name a) (app_origin a) (app_status a) (app_created_at a)
    (app_updated_at a) (app_audit a) (app_environments a) (app_desired_state a) o
    (app_collections a).
Definition app_set_environments es a :=
  mkApplication (app_id a) (app_name a) (app_origin a) (app_status a) (app_created_at a)
    (app_updated_at a) (app_audit a) es (app_desired_state a) (app_observed_state a)
    (app_collections a).
Definition app_set_updated_at t a :=
  mkApplication (app_id a) (app_name a) (app_origin a) (app_status a) (app_created_at a)
    t (app_audit a) (app_environments a) (app_desired_state a) (app_observed_state a)
    (app_collections a).
Definition app_set_updated_by u a :=
  mkApplication (app_id a) (app_name a) (app_origin a) (app_status a) (app_created_at a)
    (app_updated_at a)
    {| created_by := created_by (app_audit a); updated_by := u;
       audit_event_ids := audit_event_ids (app_audit a) |}
    (app_environments a) (app_desired_state a) (app_observed_state a) (app_collections a).

(** The fresh identifiers are drawn in this order: application, development
    environment, production environment; [now] and [observed_now] are the two
    readings of the clock. *)
Definition Application_new (fresh : ApplicationId) (fresh_dev fresh_prod : EnvironmentId)
    (now observed_now : DateTime) (name : string) (origin : Origin) (created_by_ : string) : Application :=
  let desired_state := DesiredState_initial in
  {| app_id := fresh; app_name := name; app_origin := origin; app_status := AsDraft;
     app_created_at := now; app_updated_at := now;
     app_audit := {| created_by := created_by_; updated_by := None; audit_event_ids := [] |};
     app_environments := [Environment_development fresh_dev fresh;
                          Environment_production fresh_prod fresh];
     app_desired_state := desired_state;
     app_observed_state := ObservedState_unknown (ds_version desired_state) observed_now;
     app_collections := LifecycleCollections_default |}.

Definition touch (now : DateTime) (updated_by_ : string) (self : Application) : Application :=
  app_set_updated_by (Some updated_by_) (app_set_updated_at now self).
Definition update_desired_state (now : DateTime) (next : DesiredState) (updated_by_ : string)
    (self : Application) : Application :=
  touch now updated_by_ (app_set_desired next self).
Definition record_observation (now : DateTime) (observed : ObservedState) (self : Application) :
    Application :=
  app_set_updated_at now (app_set_observed observed self).
Definition add_preview_environment (fresh : EnvironmentId) (now : DateTime) (name : string)
    (self : Application) : outcome (Application * Environment) :=
  let env := Environment_preview fresh (app_id self) name in
  let self := app_set_environments (app_environments self ++ [env]) self in
  let self := app_set_updated_at now self in
  added ← expect "just pushed" (last (app_environments self));
  Done (self, added).
Definition has_name (name : string) (env : Environment) : bool := bool_decide (env_name env = name).
Definition environment_by_name (self : Application) (name : string) : option Environment :=
  List.find (has_name name) (app_environments self).
(** A write through the reference [environment_by_name_mut] returns. *)
Definition environment_by_name_mut (name : string) (write : Environment → Environment)
    (self : Application) : Application :=
  app_set_environments (update_first (has_name name) write (app_environments self)) self.

(* ------------------------------------------------------------------ *)
(** * The in-memory repository *)

(** [poisoned] is the state of the lock. *)
Record InMemoryApplicationRepository := mkRepository {
  poisoned : bool;
  inner : gmap string Application;
}.
Definition Repository_new : InMemoryApplicationRepository := {| poisoned := false; inner := ∅ |}.
Definition lock_poisoned : CoreError := InvalidManifest "repository lock poisoned".

Section Repository.
Context `{UuidLib}.
Definition key (id : ApplicationId) : string := id_fmt id.
Definition save (app : Application) : M InMemoryApplicationRepository CoreError unit :=
  self ← get;
  if poisoned self then mthrow lock_poisoned
  else modify (λ r, mkRepository (poisoned r) (<[key (app_id app) := app]> (inner r))).
Definition Repository_get (self : InMemoryApplicationRepository) (id : ApplicationId) :
    result CoreError Application :=
  if poisoned self then Err lock_poisoned
  else ok_or (NotFound (id_fmt id)) (inner self !! key id).
(** The iteration order of the hash map is not specified. *)
Definition Repository_list (self : InMemoryApplicationRepository) : list Application :=
  if poisoned self then [] else (map_to_list (inner self)).*2.
Definition Repository_delete (id : ApplicationId) : M InMemoryApplicationRepository CoreError unit :=
  self ← get;
  if poisoned self then mthrow lock_poisoned
  else match inner self !! key id with
       | None => mthrow (NotFound (id_fmt id))
       | Some _ => modify (λ r, mkRepository (poisoned r) (delete (key id) (inner r)))
       end.
End Repository.

(* ------------------------------------------------------------------ *)
(** * Manifests *)

Definition MANIFEST_VERSION : Z := 1.

Record RuntimeNotes := {
  rn_kind : RuntimeKind;
  rn_tier : SupportTier;
  rn_framework : option string;
  rn_dev_command : list string;
  rn_prod_command : list string;
  rn_health_path : option string;
}.
Definition RuntimeNotes_from_detection (detected : DetectedRuntime) : RuntimeNotes :=
  let conv := conventions detected in
  let conv_dev (adapter : RuntimeAdapter) :=
    default (dev_command adapter) (fc_dev_command <$> conv) in
  let conv_prod (adapter : RuntimeAdapter) :=
    default (prod_command adapter) (fc_prod_command <$> conv) in
  let '(dev, prod, health) :=
    match dr_kind detected with
    | Generic => (dev_command GenericAdapter, prod_command GenericAdapter, None)
    | Node => (dev_command NodeAdapter, prod_command NodeAdapter, health_path NodeAdapter)
    | DotNet => (dev_command DotNetAdapter, prod_command DotNetAdapter, health_path DotNetAdapter)
    | Python => (conv_dev PythonAdapter, conv_prod PythonAdapter, conv ≫= fc_health_path)
    | Rust => (conv_dev RustAdapter, conv_prod RustAdapter, conv ≫= fc_health_path)
    | Expo => (conv_dev ExpoAdapter, conv_prod ExpoAdapter, None)
    end in
  {| rn_kind := dr_kind detected; rn_tier := dr_tier detected;
     rn_framework := dr_framework detected; rn_dev_command := dev; rn_prod_command := prod;
     rn_health_path := health |}.

Record ManifestEnvironment := { me_name : string; me_kind : string }.
Record Manifest := {
  mf_manifest_version : Z;
  mf_name : string;
  mf_origin : Origin;
  mf_environments : list ManifestEnvironment;
  mf_desired_state : option DesiredState;
  mf_runtime_notes : option RuntimeNotes;
}.

Definition kind_text (k : EnvironmentKind) : string :=
  match k with
  | EkDevelopment => "development"
  | EkProduction => "production"
  | EkPreview _ => "preview"
  end.
Definition Manifest_from_application (app : Application) : Manifest :=
  {| mf_manifest_version := MANIFEST_VERSION; mf_name := app_name app;
     mf_origin := app_origin app;
     mf_environments :=
       map (λ env, {| me_name := env_name env; me_kind := kind_text (env_kind env) |})
           (app_environments app);
     mf_desired_state := Some (app_desired_state app); mf_runtime_notes := None |}.

Definition kind_of_entry (entry : ManifestEnvironment) : EnvironmentKind :=
  if decide (me_kind entry = "production") then EkProduction
  else if decide (me_kind entry = "preview") then EkPreview (me_name entry)
  else EkDevelopment.
(** The loop over the entries; [fresh i] is the i-th identifier drawn. *)
Fixpoint import_environments (fresh : nat → EnvironmentId) (i : nat)
    (entries : list ManifestEnvironment) (app : Application) : Application :=
  match entries with
  | [] => app
  | entry :: rest =>
      match environment_by_name app (me_name entry) with
      | Some _ => import_environments fresh i rest app
      | None =>
          let env := Environment_new (fresh i) (app_id app) (kind_of_entry entry) (me_name entry) in
          import_environments fresh (S i) rest
            (app_set_environments (app_environments app ++ [env]) app)
      end
  end.
Definition import_application (fresh : ApplicationId) (fresh_dev fresh_prod : EnvironmentId)
    (fresh_env : nat → EnvironmentId) (now observed_now imported_now : DateTime)
    (manifest : option Manifest)
    (fallback_name : string) (fallback_origin : Origin) (created_by_ : string) : Application :=
  match manifest with
  | None => Application_new fresh fresh_dev fresh_prod now observed_now fallback_name
              fallback_origin created_by_
  | Some m =>
      let app := Application_new fresh fresh_dev fresh_prod now observed_now (mf_name m)
                   (mf_origin m) created_by_ in
      let app := match mf_desired_state m with
                 | Some desired =>
                     app_set_observed (ObservedState_unknown (ds_version desired) imported_now)
                       (app_set_desired desired app)
                 | None => app
                 end in
      import_environments fresh_env 0 (mf_environments m) app
  end.

(** serde_yaml, as used for manifests: both directions may fail with a text. *)
Class YamlLib := {
  yaml_to_string : Manifest → result string string;
  yaml_from_str : string → result string Manifest;
}.
(** What was serialized is read back. *)
Class YamlLaws `{YamlLib} : Prop := {
  yaml_round_trip m t : yaml_to_string m = Ok t → yaml_from_str t = Ok m;
}.

Section Yaml.
Context `{YamlLib}.
Definition to_yaml (self : Manifest) : result CoreError string := map_err_r Serialization (yaml_to_string self).
Definition from_yaml (yaml : string) : result CoreError Manifest :=
  manifest ← map_err_r Serialization (yaml_from_str yaml);
  if decide (mf_manifest_version manifest ≠ MANIFEST_VERSION) then
    Err (UnsupportedVersion (mf_manifest_version manifest) MANIFEST_VERSION)
  else if trim_is_empty (mf_name manifest) then
    Err (InvalidManifest "manifest name must not be empty")
  else Ok manifest.
Definition export_manifest_yaml (self : Application) : result CoreError string :=
  to_yaml (Manifest_from_application self).
Definition import_manifest_yaml (fresh : ApplicationId) (fresh_dev fresh_prod : EnvironmentId)
    (fresh_env : nat → EnvironmentId) (now observed_now imported_now : DateTime)
    (yaml : option string)
    (fallback_name : string) (fallback_origin : Origin) (created_by_ : string) :
    result CoreError Application :=
  match yaml with
  | None => Ok (import_application fresh fresh_dev fresh_prod fresh_env now observed_now imported_now
                  None fallback_name fallback_origin created_by_)
  | Some text =>
      manifest ← from_yaml text;
      Ok (import_application fresh fresh_dev fresh_prod fresh_env now observed_now imported_now
            (Some manifest) fallback_name fallback_origin created_by_)
  end.
End Yaml.
End Model.

(* ------------------------------------------------------------------ *)
(** * Repository facts *)

Section RepositoryFacts.
Context `{JsonLib} `{UuidLaws}.
Implicit Types (r : InMemoryApplicationRepository) (app : Application).

(** Every record is filed under its own identifier. *)
Definition repository_wf r : Prop := map_Forall (λ k app, k = key (app_id app)) (inner r).
Inductive RepositoryOp := RpSave (app : Application) | RpDelete (id : ApplicationId).
Definition run_repository_op (op : RepositoryOp) : M InMemoryApplicationRepository CoreError unit :=
  match op with RpSave app => save app | RpDelete id => Repository_delete id end.
Inductive repository_step : InMemoryApplicationRepository → InMemoryApplicationRepository → Prop :=
| repository_step_op op r r' res :
    run_repository_op op r = Done (r', res) → repository_step r r'.

Lemma repository_step_wf r r' : repository_wf r → repository_step r r' → repository_wf r'.
Proof.
  intros Hwf Hs. destruct Hs as [op r r' res Hrun]. destruct op; simpl in Hrun;
    unfold save, Repository_delete in Hrun; run_op Hrun; try done.
  - by apply map_Forall_insert_2.
  - by apply map_Forall_delete.
Qed.
Lemma repository_reachable_wf r : rtc repository_step Repository_new r → repository_wf r.
Proof.
  intros Hs. assert (repository_wf Repository_new) as Hn by apply map_Forall_empty.
  induction Hs; eauto using repository_step_wf.
Qed.

Lemma key_inj id id' : key id = key id' → id = id'.
Proof. apply (inj id_fmt). Qed.

(** While its lock is healthy the repository is a map from application
    identifiers to records: saving makes the record, and only it, readable under
    its identifier; deleting a known record removes it and only it, and an
    unknown one is an error that changes nothing; the list holds exactly the
    readable records. *)
Theorem repository_is_a_map r :
  rtc repository_step Repository_new r → poisoned r = false →
  (∀ app, ∃ r', save app r = Done (r', Ok tt) ∧
     ∀ id, Repository_get r' id = if decide (id = app_id app) then Ok app else Repository_get r id) ∧
  (∀ id, match Repository_get r id with
         | Ok _ => ∃ r', Repository_delete id r = Done (r', Ok tt) ∧
             ∀ id', Repository_get r' id' =
               if decide (id' = id) then Err (NotFound (id_fmt id')) else Repository_get r id'
         | Err e => e = NotFound (id_fmt id) ∧ Repository_delete id r = Done (r, Err e)
         end) ∧
  (∀ app, app ∈ Repository_list r ↔ Repository_get r (app_id app) = Ok app).
Proof.
  intros Hwf%repository_reachable_wf Hp. split_and!.
  - intros app. unfold save. unfold_monad. rewrite Hp. eexists. split; [done|]. intros id.
    unfold Repository_get. simpl. rewrite Hp. unfold ok_or. case_decide as Hid.
    + subst. by rewrite lookup_insert_eq.
    + rewrite lookup_insert_ne; [done|]. intros E'%key_inj. congruence.
  - intros id. unfold Repository_get at 1, Repository_delete. unfold_monad. rewrite Hp.
    destruct (inner r !! key id) as [a|] eqn:E; simpl; [|done].
    eexists. split; [done|]. intros id'. unfold Repository_get. simpl. rewrite Hp. unfold ok_or.
    case_decide as Hid.
    + subst. by rewrite lookup_delete_eq.
    + rewrite lookup_delete_ne; [done|]. intros E'%key_inj. congruence.
  - intros app. unfold Repository_list, Repository_get. rewrite Hp. unfold ok_or.
    rewrite list_elem_of_fmap. split.
    + intros ([k a] & -> & Hk%elem_of_map_to_list). cbn [snd].
      pose proof (Hwf k a Hk) as ->. by rewrite Hk.
    + intros E. destruct (inner r !! key (app_id app)) as [a|] eqn:Ek; [|done]. injection E as ->.
      exists (key (app_id app), app). split; [done|]. by apply elem_of_map_to_list.
Qed.
End RepositoryFacts.

(* ------------------------------------------------------------------ *)
(** * Environments and manifests *)

Section ApplicationFacts.
Context `{JsonLib}.
Implicit Types (a : Application) (e : Environment).

(** The life of an application: desired and observed state, previews, and
    changes of an environment's references. *)
Inductive app_step : Application → Application → Prop :=
| app_step_desired now next by_ a : app_step a (update_desired_state now next by_ a)
| app_step_observed now o a : app_step a (record_observation now o a)
| app_step_preview fresh now name a a' e :
    add_preview_environment fresh now name a = Done (a', e) → app_step a a'
| app_step_refs name f a :
    app_step a (environment_by_name_mut name
      (λ e, {| env_id := env_id e; env_application_id := env_application_id e;
               env_kind := env_kind e; env_name := env_name e; env_refs := f (env_refs e) |}) a).
Definition app_reachable a : Prop :=
  ∃ fresh dev prod now onow name origin by_,
    rtc app_step (Application_new fresh dev prod now onow name origin by_) a.

Definition env_sig e : string * EnvironmentKind := (env_name e, env_kind e).
Definition preview_ok (s : string * EnvironmentKind) : Prop := s.2 = EkPreview s.1.
(** Development, production, then previews named after themselves, all owned by
    the application. *)
Definition envs_inv a : Prop :=
  (∃ previews, map env_sig (app_environments a) =
     ("development", EkDevelopment) :: ("production", EkProduction) :: previews ∧
     Forall preview_ok previews) ∧
  Forall (λ e, env_application_id e = app_id a) (app_environments a).

Lemma update_first_Forall {A} (P : A → Prop) (p : A → bool) f l :
  (∀ x, P x → P (f x)) → Forall P l → Forall P (update_first p f l).
Proof.
  intros Hf. induction 1; simpl; [done|]. case_match; constructor; auto.
Qed.
Lemma app_step_inv a a' : envs_inv a → app_step a a' → envs_inv a'.
Proof.
  intros [(ps & Hs & Hps) Hown] Hstep.
  destruct Hstep as [now next by_ a|now o a|fresh now name a a' e Hadd|name f a]; try done.
  - by split; [exists ps|].
  - by split; [exists ps|].
  - unfold add_preview_environment in Hadd. simpl in Hadd. rewrite last_snoc in Hadd.
    injection Hadd as <- <-. split; simpl.
    + exists (ps ++ [(name, EkPreview name)]). rewrite map_app, Hs. split; [done|].
      apply Forall_app. by split; [|constructor].
    + apply Forall_app. split; [done|]. by constructor.
  - split.
    + exists ps. simpl. rewrite update_first_map by done. done.
    + simpl. by apply update_first_Forall.
Qed.
Lemma app_reachable_inv a : app_reachable a → envs_inv a.
Proof.
  intros (fresh & dev & prod & now & onow & name & origin & by_ & Hs).
  assert (envs_inv (Application_new fresh dev prod now onow name origin by_)) as Hn.
  { split; [by exists []|]. simpl. by repeat constructor. }
  induction Hs; eauto using app_step_inv.
Qed.

Lemma update_first_other {A} (p : A → bool) (f : A → A) l i x :
  l !! i = Some x → p x = false → update_first p f l !! i = Some x.
Proof.
  revert i. induction l as [|y l IH]; intros i Hi Hx; [done|].
  simpl. destruct (p y) eqn:Hy; destruct i; simplify_eq/=; auto; congruence.
Qed.

(** A write to an environment looked up by a name other than
    [production] leaves the production environment of a reachable application
    as it was; and the lookup of [production] never finds a preview, not even one
    that was added under that name, so a write meant for such a preview changes
    the production environment. *)
Theorem production_environment_isolated a name write :
  app_reachable a →
  ∃ prod, app_environments a !! 1%nat = Some prod ∧ env_kind prod = EkProduction ∧
    (name ≠ "production" →
     app_environments (environment_by_name_mut name write a) !! 1%nat = Some prod) ∧
    (∀ fresh now a' e, add_preview_environment fresh now "production" a = Done (a', e) →
       env_kind e = EkPreview "production" ∧ environment_by_name a' "production" = Some prod ∧
       app_environments (environment_by_name_mut "production" write a') !! 1%nat =
         Some (write prod)).
Proof.
  intros [(ps & Hs & _) _]%app_reachable_inv.
  destruct (app_environments a) as [|dev [|prod rest]] eqn:Ea; simplify_eq/=.
  assert (env_name dev = "development" ∧ env_name prod = "production" ∧ env_kind prod = EkProduction)
    as (Hd & Hp & Hk) by (unfold env_sig in *; split_and!; congruence).
  assert (has_name "production" dev = false ∧ has_name "production" prod = true) as [Hnd Hnp].
  { unfold has_name. rewrite Hd, Hp. done. }
  exists prod. split_and!; [done..| |].
  - intros Hne. rewrite Ea. apply update_first_other; [done|].
    unfold has_name. rewrite Hp. by apply bool_decide_eq_false.
  - intros fresh now a' e Hadd. unfold add_preview_environment in Hadd. simpl in Hadd.
    rewrite last_snoc in Hadd. injection Hadd as <- <-. split; [done|].
    unfold environment_by_name. simpl. rewrite Ea. simpl. by rewrite Hnd, Hnp.
Qed.

(** ** Import *)

Definition names a : list string := map env_name (app_environments a).
Lemma environment_by_name_None a name : environment_by_name a name = None ↔ name ∉ names a.
Proof.
  unfold environment_by_name, names. rewrite find_None_elem. split.
  - intros Hn Hin. rewrite list_elem_of_In, in_map_iff in Hin. destruct Hin as (e & <- & He).
    rewrite <- list_elem_of_In in He. specialize (Hn e He). unfold has_name in Hn. by rewrite bool_decide_eq_false in Hn.
  - intros Hn e He. apply bool_decide_eq_false. intros <-. apply Hn.
    apply list_elem_of_In, in_map. by apply list_elem_of_In.
Qed.

Definition same_record a a' : Prop :=
  app_id a' = app_id a ∧ app_name a' = app_name a ∧ app_origin a' = app_origin a ∧
  app_desired_state a' = app_desired_state a ∧ app_observed_state a' = app_observed_state a.
Lemma import_environments_names fresh entries i a :
  let a' := import_environments fresh i entries a in
  same_record a a' ∧ (NoDup (names a) → NoDup (names a')) ∧
  (∀ n, n ∈ names a' ↔ n ∈ names a ∨ n ∈ map me_name entries).
Proof.
  revert i a. induction entries as [|x entries IH]; intros i a; simpl.
  { split; [done|]. split; [done|]. intros n. split; [by left|]. intros [?|[]%not_elem_of_nil]; done. }
  destruct (environment_by_name a (me_name x)) as [e|] eqn:E.
  - destruct (IH i a) as (Hr & Hnd & Hin). split; [done|]. split; [done|].
    intros n. rewrite Hin, elem_of_cons. assert (me_name x ∈ names a); [|naive_solver].
    destruct (decide (me_name x ∈ names a)); [done|].
    by rewrite (proj2 (environment_by_name_None a (me_name x))) in E.
  - apply environment_by_name_None in E.
    edestruct (IH (S i)) as (Hr & Hnd & Hin). split; [exact Hr|].
    assert (names (app_set_environments (app_environments a ++
       [Environment_new (fresh i) (app_id a) (kind_of_entry x) (me_name x)]) a) =
       names a ++ [me_name x]) as Hnames by (unfold names; simpl; by rewrite map_app).
    rewrite Hnames in Hnd, Hin. split.
    + intros Ha. apply Hnd, NoDup_app. split_and!; [done| |apply NoDup_singleton].
      intros y Hy ->%list_elem_of_singleton. done.
    + intros n. rewrite Hin, elem_of_app, list_elem_of_singleton, elem_of_cons. tauto.
Qed.

Lemma import_environments_sigs fresh es i a :
  NoDup (names a ++ map env_name es) → Forall (λ e, preview_ok (env_sig e) ∨ is_preview (env_kind e) = false) es →
  map env_sig (app_environments (import_environments fresh i
    (map (λ e, {| me_name := env_name e; me_kind := kind_text (env_kind e) |}) es) a)) =
  map env_sig (app_environments a) ++ map env_sig es.
Proof.
  revert i a. induction es as [|e es IH]; intros i a Hnd Hok; simpl.
  { by rewrite app_nil_r. }
  apply Forall_cons in Hok as [He Hok].
  assert (env_name e ∉ names a) as Hfresh.
  { intros Hin. apply NoDup_app in Hnd as (_ & Hd & _). apply (Hd _ Hin). simpl. set_solver. }
  apply environment_by_name_None in Hfresh as Hnone. rewrite Hnone.
  set (e' := Environment_new _ _ _ _).
  assert (env_sig e' = env_sig e) as Hsig.
  { unfold e', env_sig, kind_of_entry. simpl. f_equal. unfold preview_ok, env_sig in He. simpl in He.
    destruct (env_kind e) as [|n|]; simpl; [done| |done]. destruct He as [He|He]; [|done]. congruence. }
  rewrite IH; [|unfold names; simpl; rewrite map_app; simpl; by rewrite <- app_assoc|done].
  simpl. rewrite map_app. simpl. by rewrite Hsig, <- app_assoc.
Qed.
Lemma import_skip fresh x entries i a :
  me_name x ∈ names a →
  import_environments fresh i (x :: entries) a = import_environments fresh i entries a.
Proof.
  intros Hin. simpl. destruct (environment_by_name a (me_name x)) eqn:E; [done|].
  by apply environment_by_name_None in E.
Qed.

(** Whatever a manifest lists, the imported application carries its
    name and origin, has the development and production environments and one
    environment per listed name, and no two environments share a name. *)
Theorem import_environments_unique fresh dev prod fresh_env t1 t2 t3 m name origin by_ :
  let a := import_application fresh dev prod fresh_env t1 t2 t3 (Some m) name origin by_ in
  app_name a = mf_name m ∧ app_origin a = mf_origin m ∧ NoDup (names a) ∧
  ∀ n, n ∈ names a ↔ n = "development" ∨ n = "production" ∨ n ∈ map me_name (mf_environments m).
Proof.
  simpl. set (a0 := match mf_desired_state m with Some _ => _ | None => _ end).
  assert (names a0 = ["development"; "production"] ∧ app_name a0 = mf_name m ∧
          app_origin a0 = mf_origin m) as (Hn & Hname & Horigin)
    by (unfold a0; by destruct (mf_desired_state m)).
  destruct (import_environments_names fresh_env (mf_environments m) 0 a0)
    as ((_ & Hn' & Ho' & _) & Hnd & Hin).
  rewrite Hn in Hnd, Hin. split_and!; [congruence..| |].
  - apply Hnd. by apply (bool_decide_unpack _).
  - intros n. rewrite Hin. set_solver.
Qed.

(** Exporting a reachable application with a non-blank name and
    distinct environment names, and importing the text, gives an application
    with the same name, origin, desired state and environments (names and kinds,
    in order), whose observed state is unknown for that version; only
    identifiers, instants and references are new. *)
Theorem manifest_round_trip `{!YamlLib} `{!YamlLaws} a yaml fresh dev prod fresh_env t1 t2 t3
    name origin by_ :
  app_reachable a → trim_is_empty (app_name a) = false → NoDup (names a) →
  export_manifest_yaml a = Ok yaml →
  ∃ a', import_manifest_yaml fresh dev prod fresh_env t1 t2 t3 (Some yaml) name origin by_ = Ok a' ∧
    app_name a' = app_name a ∧ app_origin a' = app_origin a ∧
    app_desired_state a' = app_desired_state a ∧
    app_observed_state a' = ObservedState_unknown (ds_version (app_desired_state a)) t3 ∧
    map env_sig (app_environments a') = map env_sig (app_environments a).
Proof.
  intros [(ps & Hs & Hps) _]%app_reachable_inv Hname Hnd Hexp.
  unfold export_manifest_yaml, to_yaml, map_err_r in Hexp.
  destruct (yaml_to_string (Manifest_from_application a)) as [t|] eqn:Ey; simplify_eq.
  apply yaml_round_trip in Ey. set (m := Manifest_from_application a) in *.
  assert (from_yaml yaml = Ok m) as Hfrom.
  { unfold from_yaml, map_err_r, mbind, result_bind. rewrite Ey.
    change (mf_name m) with (app_name a). by rewrite Hname. }
  unfold import_manifest_yaml, mbind, result_bind. rewrite Hfrom. eexists. split; [done|].
  set (a0 := app_set_observed (ObservedState_unknown (ds_version (app_desired_state a)) t3)
    (app_set_desired (app_desired_state a)
       (Application_new fresh dev prod t1 t2 (app_name a) (app_origin a) by_))).
  change (import_application _ _ _ _ _ _ _ (Some m) _ _ _)
    with (import_environments fresh_env 0 (mf_environments m) a0).
  unfold m, Manifest_from_application. cbn [mf_environments].
  destruct (app_environments a) as [|d [|p rest]] eqn:Ea; [discriminate Hs..|].
  injection Hs as Hd Hdk Hp Hpk Hrest. cbn [map].
  rewrite !import_skip by (simpl; rewrite ?Hd, ?Hp; unfold names; simpl; set_solver).
  destruct (import_environments_names fresh_env
    (map (λ env, {| me_name := env_name env; me_kind := kind_text (env_kind env) |}) rest) 0 a0)
    as ((_ & Hn' & Ho' & Hde' & Hob') & _).
  rewrite Hn', Ho', Hde', Hob'. split_and!; try done.
  rewrite import_environments_sigs.
  - assert (env_sig d = ("development", EkDevelopment) ∧ env_sig p = ("production", EkProduction))
      as [-> ->] by (unfold env_sig; split; congruence). done.
  - unfold names in Hnd. rewrite Ea in Hnd. simpl in Hnd. rewrite Hd, Hp in Hnd. exact Hnd.
  - rewrite Forall_forall. intros e He. left. rewrite Forall_forall in Hps. apply Hps.
    rewrite <- Hrest. apply list_elem_of_In, in_map. by apply list_elem_of_In.
Qed.
End ApplicationFacts.

(* ------------------------------------------------------------------ *)
(** * Examples *)

Module ApplicationExamples.
Import RefInstances.

Definition app0 : ApplicationId := mkId (uuid 1).
Definition env_ids (n : nat) : EnvironmentId := mkId (uuid 40).
Definition shop : Application :=
  Application_new app0 (mkId (uuid 2)) (mkId (uuid 3)) 10 11 "shop" (OImportedLocal "/src") "ann".
Definition shop_preview : Environment := Environment_preview (mkId (uuid 4)) app0 "pr-7".
Definition shop1 : Application :=
  app_set_updated_at 12 (app_set_environments (app_environments shop ++ [shop_preview]) shop).

Lemma shop_reachable : app_reachable shop.
Proof. repeat eexists. apply rtc_refl. Qed.
Lemma shop1_reachable : app_reachable shop1.
Proof.
  exists app0, (mkId (uuid 2)), (mkId (uuid 3)), 10, 11, "shop", (OImportedLocal "/src"), "ann".
  eapply rtc_once, (app_step_preview (mkId (uuid 4)) 12 "pr-7" _ _ shop_preview). reflexivity.
Qed.

Definition repo0 : InMemoryApplicationRepository := Repository_new.
Lemma repository_is_a_map_witness :
  rtc repository_step Repository_new repo0 ∧ poisoned repo0 = false ∧
  ∃ r', save shop repo0 = Done (r', Ok tt) ∧
    ∀ id, Repository_get r' id = if decide (id = app0) then Ok shop else Repository_get repo0 id.
Proof.
  split; [apply rtc_refl|]. split; [reflexivity|].
  apply (repository_is_a_map repo0 (rtc_refl _ _) eq_refl).
Defined.

Lemma production_environment_isolated_witness :
  app_reachable shop1 ∧
  app_environments (environment_by_name_mut "pr-7" (λ e, e) shop1) !! 1%nat =
    Some (Environment_production (mkId (uuid 3)) app0).
Proof.
  split; [exact shop1_reachable|].
  destruct (production_environment_isolated shop1 "pr-7" (λ e, e) shop1_reachable)
    as (prod & Hp & _ & Hw & _).
  rewrite Hw by (intros E; discriminate E).
  transitivity (app_environments shop1 !! 1%nat); [exact (eq_sym Hp)|reflexivity].
Defined.

(** A text format that knows one manifest. *)
Definition one_manifest : Manifest := Manifest_from_application shop1.
#[local] Instance Json_eq_dec : EqDecision Json := String.eq_dec.
#[local] Instance DesiredState_eq_dec : EqDecision DesiredState.
Proof. solve_decision. Defined.
#[local] Instance RuntimeNotes_eq_dec : EqDecision RuntimeNotes.
Proof. solve_decision. Defined.
#[local] Instance ManifestEnvironment_eq_dec : EqDecision ManifestEnvironment.
Proof. solve_decision. Defined.
#[local] Instance Manifest_eq_dec : EqDecision Manifest.
Proof. solve_decision. Defined.
#[local] Instance one_yaml : YamlLib := {
  yaml_to_string m := if decide (m = one_manifest) then Ok "yaml" else Err "unknown";
  yaml_from_str t := if decide (t = "yaml") then Ok one_manifest else Err "unknown";
}.
#[local] Instance one_yaml_laws : YamlLaws.
Proof. constructor. intros m t. simpl. case_decide; [|done]. intros [= <-]. by subst. Qed.

Lemma manifest_round_trip_witness :
  app_reachable shop1 ∧ NoDup (names shop1) ∧ export_manifest_yaml shop1 = Ok "yaml" ∧
  ∃ a', import_manifest_yaml app0 (mkId (uuid 2)) (mkId (uuid 3)) env_ids 20 21 22 (Some "yaml")
          "x" (OGenerated None) "bob" = Ok a' ∧
    app_name a' = "shop" ∧
    map env_sig (app_environments a') =
      [("development", EkDevelopment); ("production", EkProduction); ("pr-7", EkPreview "pr-7")].
Proof.
  assert (Hnd : NoDup (names shop1)) by (apply (bool_decide_unpack _); vm_compute; exact I).
  assert (Hexp : export_manifest_yaml shop1 = Ok "yaml").
  { unfold export_manifest_yaml, to_yaml. simpl. rewrite decide_True by reflexivity. reflexivity. }
  split; [exact shop1_reachable|]. split; [exact Hnd|]. split; [exact Hexp|].
  destruct (manifest_round_trip shop1 "yaml" app0 (mkId (uuid 2)) (mkId (uuid 3)) env_ids 20 21 22
    "x" (OGenerated None) "bob" shop1_reachable eq_refl Hnd Hexp) as (a' & Hi & Hn & _ & _ & _ & Hs).
  exists a'. split; [exact Hi|]. split; [exact Hn|]. exact Hs.
Defined.
End ApplicationExamples.
