(* ===== verification/Agent.v ===== *)
(** Agent sessions and platform policy (agent.rs): the session is the policy
    boundary; backends are used through the interface [AgentBackend]. *)

From stdpp Require Import base option list strings pretty relations.
From Stdlib Require Import ZArith Lia Ascii.
From S2P Require Import Prelude External Errors Ids Approval Secrets.
Local Open Scope Z_scope.

(* ------------------------------------------------------------------ *)
(** * Vocabulary *)

Definition AGENT_PROTOCOL_VERSION : Z := 1.
Inductive AgentBackendKind := AbNative | AbExternal.
#[global] Instance AgentBackendKind_eq_dec : EqDecision AgentBackendKind.
Proof. solve_decision. Defined.
Record BackendIdentity := { bi_kind : AgentBackendKind; bi_name : string }.
#[global] Instance BackendIdentity_eq_dec : EqDecision BackendIdentity.
Proof. solve_decision. Defined.
Definition BackendIdentity_native : BackendIdentity :=
  {| bi_kind := AbNative; bi_name := "labrys-native" |}.
Definition BackendIdentity_external (name : string) : BackendIdentity :=
  {| bi_kind := AbExternal; bi_name := name |}.

Inductive AgentEventKind :=
| AePlanning | AeFileChanged | AeCommandRun | AeCapabilityRequested | AeBuild | AePreview
| AeDeployment | AeVerification | AeApprovalRequested | AeDenied | AeInterrupted | AeResumed
| AeTimedOut | AeCompleted.
#[global] Instance AgentEventKind_eq_dec : EqDecision AgentEventKind.
Proof. solve_decision. Defined.
Definition event_canonical_name (k : AgentEventKind) : string :=
  match k with
  | AePlanning => "planning" | AeFileChanged => "file_changed" | AeCommandRun => "command_run"
  | AeCapabilityRequested => "capability_requested" | AeBuild => "build" | AePreview => "preview"
  | AeDeployment => "deployment" | AeVerification => "verification"
  | AeApprovalRequested => "approval_requested" | AeDenied => "denied"
  | AeInterrupted => "interrupted" | AeResumed => "resumed" | AeTimedOut => "timed_out"
  | AeCompleted => "completed"
  end.
Definition NORMALIZED_EVENT_NAMES : list string :=
  ["planning"; "file_changed"; "command_run"; "capability_requested"; "build"; "preview";
   "deployment"; "verification"; "approval_requested"; "denied"; "interrupted"; "resumed";
   "timed_out"; "completed"].

Record AgentEvent := {
  ae_sequence : Z;
  ae_session_id : AgentSessionId;
  ae_backend : BackendIdentity;
  ae_kind : AgentEventKind;
  ae_detail : string;
}.

Inductive ToolTier := TtPlatformApi | TtFrameworkTool | TtGenericTool | TtRawShell.
#[global] Instance ToolTier_eq_dec : EqDecision ToolTier.
Proof. solve_decision. Defined.
Definition rank (t : ToolTier) : Z :=
  match t with TtPlatformApi => 0 | TtFrameworkTool => 1 | TtGenericTool => 2 | TtRawShell => 3 end.
Definition select_preferred_tool (candidates : list ToolTier) : option ToolTier :=
  min_by (λ a b, rank a <=? rank b) candidates.

Inductive ActionKind :=
| AkReadOnly | AkPreviewDeploy | AkProductionDeploy | AkDestructiveResource
| AkDestructiveMigration | AkSecretReplacement | AkDomainChange | AkBillingChange
| AkExternalWrite.
#[global] Instance ActionKind_eq_dec : EqDecision ActionKind.
Proof. solve_decision. Defined.
Definition requires_approval (a : ActionKind) : bool :=
  match a with AkReadOnly | AkPreviewDeploy => false | _ => true end.
Definition ActionKind_label (a : ActionKind) : string :=
  match a with
  | AkReadOnly => "read-only inspection" | AkPreviewDeploy => "preview deployment"
  | AkProductionDeploy => "production deployment"
  | AkDestructiveResource => "destructive resource action"
  | AkDestructiveMigration => "destructive migration"
  | AkSecretReplacement => "secret replacement" | AkDomainChange => "domain change"
  | AkBillingChange => "billing change" | AkExternalWrite => "external write"
  end.

Record AgentContext := {
  ac_application_id : ApplicationId;
  ac_environment_name : string;
  ac_production : bool;
  ac_principal : string;
}.
Record AgentInput := {
  ai_text : string;
  ai_secret_refs : list SecretReference;
  ai_requested_action : option ActionKind;
  ai_tool : option ToolTier;
}.
Record ApprovalRequest := {
  ar_id : string;
  ar_session_id : AgentSessionId;
  ar_action : ActionKind;
  ar_reason : string;
  ar_requested_by : string;
}.
Inductive SessionStatus := SsActive | SsInterrupted | SsCompleted | SsTimedOut.
#[global] Instance SessionStatus_eq_dec : EqDecision SessionStatus.
Proof. solve_decision. Defined.
Definition SessionStatus_debug (s : SessionStatus) : string :=
  match s with
  | SsActive => "Active" | SsInterrupted => "Interrupted" | SsCompleted => "Completed"
  | SsTimedOut => "TimedOut"
  end.

Definition Policy_authorize (action : option ActionKind) (tool : option ToolTier)
    (production : bool) : result CoreError unit :=
  if production && bool_decide (tool = Some TtRawShell) then
    Err (PolicyDenied "raw shell is denied in production; use a platform, framework, or generic tool")
  else Ok tt.
Definition ensure_protocol_version (found : Z) : result CoreError unit :=
  if decide (found = AGENT_PROTOCOL_VERSION) then Ok tt
  else Err (ProtocolVersion found AGENT_PROTOCOL_VERSION).

(** The trait [AgentBackend]; [B] is the adapter's own state. *)
Class AgentBackend (B : Type) := {
  identity : B → BackendIdentity;
  protocol_version : B → Z;
  draft_events : AgentContext → AgentInput → Z → M B CoreError (list (AgentEventKind * string));
}.

(* ------------------------------------------------------------------ *)
(** * Sessions *)

Record AgentSession := mkSession {
  se_id : AgentSessionId;
  se_context : AgentContext;
  se_backend : BackendIdentity;
  se_status : SessionStatus;
  se_events : list AgentEvent;
  se_next_sequence : Z;
  se_deadline : option DateTime;
  se_pending_approvals : list ApprovalRequest;
  se_approval_counter : Z;
  se_protected_secrets : list string;
}.
Definition se_set_status st s :=
  mkSession (se_id s) (se_context s) (se_backend s) st (se_events s) (se_next_sequence s)
    (se_deadline s) (se_pending_approvals s) (se_approval_counter s) (se_protected_secrets s).
Definition se_push_event e next s :=
  mkSession (se_id s) (se_context s) (se_backend s) (se_status s) (se_events s ++ [e]) next
    (se_deadline s) (se_pending_approvals s) (se_approval_counter s) (se_protected_secrets s).
Definition set_deadline d s :=
  mkSession (se_id s) (se_context s) (se_backend s) (se_status s) (se_events s)
    (se_next_sequence s) (Some d) (se_pending_approvals s) (se_approval_counter s)
    (se_protected_secrets s).
Definition se_set_pending ps s :=
  mkSession (se_id s) (se_context s) (se_backend s) (se_status s) (se_events s)
    (se_next_sequence s) (se_deadline s) ps (se_approval_counter s) (se_protected_secrets s).
Definition se_set_counter c s :=
  mkSession (se_id s) (se_context s) (se_backend s) (se_status s) (se_events s)
    (se_next_sequence s) (se_deadline s) (se_pending_approvals s) c (se_protected_secrets s).


Section Session.
Context `{UuidLib} `{BuildProfile}.

(** [fresh] is the identifier drawn by [AgentSessionId::new]. *)
Definition AgentSession_open `{AgentBackend B} (fresh : AgentSessionId) (backend : B)
    (context : AgentContext) (protected_secrets : list string) : result CoreError AgentSession :=
  ensure_protocol_version (protocol_version backend);;
  Ok {| se_id := fresh; se_context := context; se_backend := identity backend;
        se_status := SsActive; se_events := []; se_next_sequence := 0; se_deadline := None;
        se_pending_approvals := []; se_approval_counter := 0;
        se_protected_secrets := protected_secrets |}.

Definition leaks_into (text protected : string) : bool :=
  negb (str_is_empty protected) && str_contains protected text.
Definition scan_text (self : AgentSession) (text : string) : result CoreError unit :=
  if existsb (leaks_into text) (se_protected_secrets self) then
    Err (SecretLeak "agent context contains a protected secret value; use a secret reference instead")
  else Ok tt.

Definition append_normalized_impl (kind : AgentEventKind) (detail : string)
    (backend : BackendIdentity) : M AgentSession CoreError AgentEvent :=
  self ← get;
  lift_r (scan_text self detail);;
  let event := {| ae_sequence := se_next_sequence self; ae_session_id := se_id self;
                  ae_backend := backend; ae_kind := kind; ae_detail := detail |} in
  next ← lift_o (add_unsigned u64_max (se_next_sequence self) 1);
  modify (se_push_event event next);;
  mret event.
Definition append_system_event (kind : AgentEventKind) (detail : string) :
    M AgentSession CoreError AgentEvent :=
  self ← get; append_normalized_impl kind detail (se_backend self).

Definition require_status (expected : SessionStatus) (operation : string) :
    M AgentSession CoreError unit :=
  self ← get;
  if decide (se_status self = expected) then mret tt
  else mthrow (SessionState ("cannot " +:+ operation +:+ " while session is "
         +:+ SessionStatus_debug (se_status self) +:+ " (expected "
         +:+ SessionStatus_debug expected +:+ ")")).

Definition check_timeout (now : DateTime) : M AgentSession CoreError unit :=
  self ← get;
  match se_deadline self with
  | Some deadline =>
      if decide (deadline < now) then
        modify (se_set_status SsTimedOut);;
        ignore_result (append_system_event AeTimedOut "agent prompt timed out");;
        mthrow (Timeout "agent prompt exceeded its deadline")
      else mret tt
  | None => mret tt
  end.

Definition approval_id (id : AgentSessionId) (n : Z) : string :=
  "apr_" +:+ id_fmt id +:+ "_" +:+ pretty n.
Definition require_approval (action : ActionKind) : M AgentSession CoreError CoreError :=
  self ← get;
  counter ← lift_o (add_unsigned u64_max (se_approval_counter self) 1);
  modify (se_set_counter counter);;
  let request := {| ar_id := approval_id (se_id self) counter; ar_session_id := se_id self;
                    ar_action := action;
                    ar_reason := ActionKind_label action
                                 +:+ " requires human approval before execution";
                    ar_requested_by := bi_name (se_backend self) |} in
  let detail := "approval " +:+ ar_id request +:+ " requested: " +:+ ar_reason request in
  modify (λ s, se_set_pending (se_pending_approvals s ++ [request]) s);;
  ignore_result (append_system_event AeApprovalRequested detail);;
  mret (ApprovalRequired (ActionKind_label action
          +:+ " blocked until a human approval is recorded")).

(** The loop over the secret references of an input, with its early return. *)
Fixpoint scan_refs (self : AgentSession) (refs : list SecretReference) : result CoreError unit :=
  match refs with
  | [] => Ok tt
  | r :: refs' => scan_text self (sr_ref_id r);; scan_refs self refs'
  end.
(** The loop over the drafted events. *)
Fixpoint append_all (candidates : list (AgentEventKind * string)) (backend : BackendIdentity) :
    M AgentSession CoreError (list AgentEvent) :=
  match candidates with
  | [] => mret []
  | (kind, detail) :: rest =>
      event ← append_normalized_impl kind detail backend;
      events ← append_all rest backend;
      mret (event :: events)
  end.

Definition on_session {B A} (m : M AgentSession CoreError A) : M (AgentSession * B) CoreError A :=
  zoom fst (λ s p, (s, p.2)) m.
Definition on_backend {B A} (m : M B CoreError A) : M (AgentSession * B) CoreError A :=
  zoom snd (λ b p, (p.1, b)) m.

(** The two [&mut] arguments, session and backend, are the state. *)
Definition prompt `{AgentBackend B} (input : AgentInput) (now : DateTime) :
    M (AgentSession * B) CoreError (list AgentEvent) :=
  '(_, backend) ← get;
  lift_r (ensure_protocol_version (protocol_version backend));;
  on_session (require_status SsActive "prompt");;
  on_session (check_timeout now);;
  '(self, _) ← get;
  lift_r (scan_text self (ai_text input));;
  lift_r (scan_refs self (ai_secret_refs input));;
  match Policy_authorize (ai_requested_action input) (ai_tool input)
          (ac_production (se_context self)) with
  | Err denied =>
      on_session (ignore_result (append_system_event AeDenied ("prompt denied: " +:+ CoreError_fmt denied)));;
      mthrow denied
  | Ok _ =>
      match ai_requested_action input with
      | Some action =>
          if requires_approval action then
            e ← on_session (require_approval action); mthrow e
          else
            candidates ← on_backend (draft_events (se_context self) input (se_next_sequence self));
            '(_, backend) ← get;
            on_session (append_all candidates (identity backend))
      | None =>
          candidates ← on_backend (draft_events (se_context self) input (se_next_sequence self));
          '(_, backend) ← get;
          on_session (append_all candidates (identity backend))
      end
  end.

Definition interrupt : M AgentSession CoreError AgentEvent :=
  require_status SsActive "interrupt";;
  modify (se_set_status SsInterrupted);;
  append_system_event AeInterrupted "session interrupted".
Definition resume : M AgentSession CoreError (list AgentEvent) :=
  require_status SsInterrupted "resume";;
  modify (se_set_status SsActive);;
  append_system_event AeResumed "session resumed";;
  self ← get;
  mret (se_events self).
Definition complete : M AgentSession CoreError AgentEvent :=
  require_status SsActive "complete";;
  modify (se_set_status SsCompleted);;
  append_system_event AeCompleted "session completed".

Definition replay_event (event : AgentEvent) : M AgentSession CoreError unit :=
  self ← get;
  if decide (ae_session_id event ≠ se_id self) then
    mthrow (SessionState ("event belongs to session " +:+ id_fmt (ae_session_id event)
      +:+ ", not " +:+ id_fmt (se_id self)))
  else if decide (ae_backend event ≠ se_backend self) then
    mthrow (SessionState ("event backend '" +:+ bi_name (ae_backend event)
      +:+ "' does not match session backend '" +:+ bi_name (se_backend self) +:+ "'"))
  else if decide (ae_sequence event ≠ se_next_sequence self) then
    mthrow (SessionState ("event out of order: got sequence " +:+ pretty (ae_sequence event)
      +:+ ", expected " +:+ pretty (se_next_sequence self)))
  else
    lift_r (scan_text self (ae_detail event));;
    next ← lift_o (add_unsigned u64_max (se_next_sequence self) 1);
    modify (se_push_event event next).

(** [iter().position(p)]. *)
Fixpoint position {A} (p : A → bool) (l : list A) : option nat :=
  match l with
  | [] => None
  | x :: l' => if p x then Some O else S <$> position p l'
  end.
Definition resolve_approval (request_id : string) (approval : ExplicitApproval) :
    M AgentSession CoreError AgentEvent :=
  self ← get;
  position ← lift_r (ok_or (ApprovalRequired ("unknown approval request '" +:+ request_id +:+ "'"))
                       (position (λ r, bool_decide (ar_id r = request_id))
                          (se_pending_approvals self)));
  let remove := modify (λ s, se_set_pending (base.delete position (se_pending_approvals s)) s) in
  if negb (approved approval) then
    event ← append_system_event AeDenied ("approval " +:+ request_id +:+ " denied by "
                                          +:+ approver approval);
    remove;;
    mret event
  else if trim_is_empty (approver approval) then
    mthrow (ApprovalRequired "approval must name an approver")
  else
    event ← append_system_event AeVerification ("approval " +:+ request_id +:+ " granted by "
                                                +:+ approver approval);
    remove;;
    mret event.
End Session.

(* ------------------------------------------------------------------ *)
(** * The two adapters *)

Inductive NativePhase := NpPlan | NpAct | NpObserve | NpVerify | NpRetry.
Definition as_event_kind (p : NativePhase) : AgentEventKind :=
  match p with
  | NpPlan => AePlanning | NpAct => AeCommandRun | NpObserve => AeFileChanged
  | NpVerify => AeVerification | NpRetry => AePlanning
  end.
Definition NativePhase_detail (p : NativePhase) (text : string) : string :=
  match p with
  | NpPlan => "native plan for prompt: " +:+ text
  | NpAct => "native act for prompt: " +:+ text
  | NpObserve => "native observe for prompt: " +:+ text
  | NpVerify => "native verify for prompt: " +:+ text
  | NpRetry => "native retry for prompt: " +:+ text
  end.
Record NativeAgent := { na_identity : BackendIdentity }.
Definition NativeAgent_new : NativeAgent := {| na_identity := BackendIdentity_native |}.
Definition reference_flow : list NativePhase := [NpPlan; NpAct; NpObserve; NpVerify].
#[global] Instance NativeAgent_backend : AgentBackend NativeAgent := {
  identity := na_identity;
  protocol_version _ := AGENT_PROTOCOL_VERSION;
  draft_events _ input _ :=
    mret (map (λ phase, (as_event_kind phase, NativePhase_detail phase (ai_text input)))
              reference_flow);
}.

Record ExternalProcessAgent := mkExternal {
  ea_identity : BackendIdentity;
  ea_protocol_version : Z;
  ea_command : list string;
  ea_scripted : list (AgentEventKind * string);
}.
Definition ExternalProcessAgent_new (name : string) (protocol_version : Z) (command : list string) :
    ExternalProcessAgent :=
  mkExternal (BackendIdentity_external name) protocol_version command [].
Definition with_scripted (self : ExternalProcessAgent) (scripted : list (AgentEventKind * string)) :
    ExternalProcessAgent :=
  mkExternal (ea_identity self) (ea_protocol_version self) (ea_command self) scripted.
Definition external_draft (input : AgentInput) :
    M ExternalProcessAgent CoreError (list (AgentEventKind * string)) :=
  self ← get;
  lift_r (ensure_protocol_version (ea_protocol_version self));;
  match ea_scripted self with
  | [] => mret [(AePlanning, "external '" +:+ bi_name (ea_identity self) +:+ "' planned the prompt")]
  | scripted => modify (λ s, with_scripted s []);; mret scripted
  end.
#[global] Instance ExternalProcessAgent_backend : AgentBackend ExternalProcessAgent := {
  identity := ea_identity;
  protocol_version := ea_protocol_version;
  draft_events _ input _ := external_draft input;
}.

(** [to_ascii_lowercase], [replace(['.', '-'], "_")] and [split('_')]. *)
Definition ascii_lower (c : ascii) : ascii :=
  if in_range 65 90 c then ascii_of_N (byte_of c + 32) else c.
Definition underscore (c : ascii) : ascii :=
  if Ascii.eqb c "."%char || Ascii.eqb c "-"%char then "_"%char else c.
Fixpoint map_chars (f : ascii → ascii) (s : string) : string :=
  match s with "" => "" | String.String c s' => String.String (f c) (map_chars f s') end.
Fixpoint split_underscore (acc : string) (s : string) : list string :=
  match s with
  | "" => [acc]
  | String.String c s' =>
      if Ascii.eqb c "_"%char then acc :: split_underscore "" s'
      else split_underscore (acc +:+ String.String c "") s'
  end.
Definition kind_of_name (candidate : string) : option AgentEventKind :=
  if decide (candidate ∈ ["planning"; "plan"]) then Some AePlanning
  else if decide (candidate ∈ ["file_changed"; "file"; "files"; "observe"]) then Some AeFileChanged
  else if decide (candidate ∈ ["command_run"; "command"; "act"; "exec"]) then Some AeCommandRun
  else if decide (candidate ∈ ["capability_requested"; "capability"]) then Some AeCapabilityRequested
  else if decide (candidate = "build") then Some AeBuild
  else if decide (candidate = "preview") then Some AePreview
  else if decide (candidate ∈ ["deployment"; "deploy"]) then Some AeDeployment
  else if decide (candidate ∈ ["verification"; "verify"]) then Some AeVerification
  else if decide (candidate ∈ ["completed"; "complete"; "done"]) then Some AeCompleted
  else None.
(** The loop over the start positions: longest suffix first. *)
Fixpoint find_suffix (parts : list string) : option AgentEventKind :=
  match parts with
  | [] => None
  | _ :: parts' =>
      match kind_of_name (str_join "_" parts) with
      | Some k => Some k
      | None => find_suffix parts'
      end
  end.
Definition normalize (self : ExternalProcessAgent) (raw_name detail : string) :
    result CoreError (AgentEventKind * string) :=
  let normalized := map_chars underscore (map_chars ascii_lower (trim raw_name)) in
  match find_suffix (split_underscore "" normalized) with
  | Some kind => Ok (kind, detail)
  | None => Err (SessionState ("unknown backend event '" +:+ raw_name +:+ "' from '"
              +:+ bi_name (ea_identity self)
              +:+ "'; consumers require the normalized vocabulary"))
  end.

(* ------------------------------------------------------------------ *)
(** * Session facts *)

(** A text that contains none of the protected values. *)
Definition clean (protected : list string) (text : string) : Prop :=
  ∀ p, p ∈ protected → p ≠ "" → str_contains p text = false.
Lemma scan_text_clean s text :
  scan_text s text = Ok tt ↔ clean (se_protected_secrets s) text.
Proof.
  unfold scan_text, clean. destruct (existsb _ _) eqn:E.
  - split; [done|]. intros Hc. exfalso. apply existsb_exists in E as (p & Hp & Hl).
    unfold leaks_into in Hl. apply andb_true_iff in Hl as [Hne Hcon].
    rewrite Hc in Hcon; [done|by apply list_elem_of_In|]. by destruct p.
  - split; [|done]. intros _ p Hp Hne. apply existsb_false with (x := p) in E; [|done].
    unfold leaks_into in E. by destruct p.
Qed.
Lemma scan_text_cases s text :
  (scan_text s text = Ok tt ∧ clean (se_protected_secrets s) text) ∨
  ∃ m, scan_text s text = Err (SecretLeak m).
Proof.
  destruct (scan_text s text) as [[]|e] eqn:E; [left; by rewrite <- scan_text_clean|right].
  unfold scan_text in E. case_match; simplify_eq. eauto.
Qed.

(** The log of a session: numbered from zero, of this session, free of protected
    values. *)
Record session_inv (s : AgentSession) : Prop := {
  si_next : se_next_sequence s = wrap_u64 (Z.of_nat (length (se_events s)));
  si_events : ∀ i e, se_events s !! i = Some e →
    ae_sequence e = wrap_u64 (Z.of_nat i) ∧ ae_session_id e = se_id s ∧
    clean (se_protected_secrets s) (ae_detail e);
}.
Definition ended (st : SessionStatus) : Prop := st = SsCompleted ∨ st = SsTimedOut.
(** What a step keeps. *)
Record advances (s s' : AgentSession) : Prop := {
  ad_id : se_id s' = se_id s;
  ad_context : se_context s' = se_context s;
  ad_backend : se_backend s' = se_backend s;
  ad_protected : se_protected_secrets s' = se_protected_secrets s;
  ad_events : se_events s `prefix_of` se_events s';
  ad_status : ended (se_status s) → se_status s' = se_status s;
  ad_inv : session_inv s → session_inv s';
}.
#[global] Instance advances_preorder : PreOrder advances.
Proof.
  split.
  - intros s. by split.
  - intros s1 s2 s3 [] []. split; try congruence; [by etrans| |auto].
    intros He. rewrite ad_status1; [auto|]. by rewrite ad_status0.
Qed.

Lemma next_sequence_wrap `{BuildProfile} n m :
  add_unsigned u64_max (wrap_u64 (Z.of_nat n)) 1 = Done m → m = wrap_u64 (Z.of_nat (S n)).
Proof.
  unfold add_unsigned, wrap_u64, u64_max. intros E.
  rewrite Nat2Z.inj_succ, <- Z.add_1_r, <- Zplus_mod_idemp_l.
  set (x := Z.of_nat n mod _) in *.
  assert (0 ≤ x < 18446744073709551615 + 1) by (apply Z.mod_pos_bound; lia).
  case_decide; simplify_eq; [by rewrite Z.mod_small by lia|]. case_match; by simplify_eq.
Qed.

Lemma push_advances `{BuildProfile} s e next :
  add_unsigned u64_max (se_next_sequence s) 1 = Done next →
  ae_sequence e = se_next_sequence s → ae_session_id e = se_id s →
  clean (se_protected_secrets s) (ae_detail e) →
  advances s (se_push_event e next s).
Proof.
  intros Hnext Hseq Hid Hclean. split; simpl; try done; [by eexists|].
  intros [Hn Hev]. split; simpl.
  - rewrite length_app. simpl. rewrite Nat.add_1_r. rewrite Hn in Hnext.
    by apply next_sequence_wrap in Hnext.
  - intros i e' [Hi|[Hi Hlk]]%lookup_app_Some; [by apply Hev|].
    destruct (i - length (se_events s))%nat eqn:Ei; simplify_eq/=.
    rewrite Hseq, Hn. split_and!; [|done..]. do 2 f_equal. lia.
Qed.

Section SessionFacts.
Context `{UuidLib} `{BuildProfile}.
Implicit Types (s : AgentSession).

Lemma append_effect kind detail b s s' r :
  append_normalized_impl kind detail b s = Done (s', r) →
  advances s s' ∧ se_status s' = se_status s ∧
  se_pending_approvals s' = se_pending_approvals s ∧
  match r with
  | Ok e => se_events s' = se_events s ++ [e] ∧ ae_kind e = kind ∧ ae_detail e = detail ∧
      ae_backend e = b
  | Err _ => s' = s
  end.
Proof.
  unfold append_normalized_impl, mbind, M_bind, get, lift_r, lift_o, modify, mret, M_ret.
  destruct (scan_text_cases s detail) as [[-> Hc]|[m ->]].
  - destruct (add_unsigned u64_max (se_next_sequence s) 1) as [next|] eqn:En; [|done].
    intros [= <- <-]. split_and!; try done. by apply push_advances.
  - intros [= <- <-]. done.
Qed.

(** Every session method advances the session. *)
Definition advancing {A} (m : M AgentSession CoreError A) s : Prop :=
  ∀ s' r, m s = Done (s', r) → advances s s'.
Lemma system_event_effect kind detail s s' r :
  append_system_event kind detail s = Done (s', r) →
  advances s s' ∧ se_status s' = se_status s ∧ se_pending_approvals s' = se_pending_approvals s.
Proof. intros E. apply append_effect in E as (? & ? & ? & _). done. Qed.
Lemma ignore_effect kind detail s s' (r : result CoreError unit) :
  ignore_result (append_system_event kind detail) s = Done (s', r) →
  r = Ok tt ∧ advances s s' ∧ se_status s' = se_status s ∧
  se_pending_approvals s' = se_pending_approvals s.
Proof.
  unfold ignore_result. destruct (append_system_event kind detail s) as [[s1 r1]|] eqn:E; [|done].
  intros [= <- <-]. apply system_event_effect in E as (? & ? & ?). done.
Qed.

Lemma set_status_advances st s : ¬ ended (se_status s) → advances s (se_set_status st s).
Proof. intros Hne. split; simpl; try done. by intros []; split. Qed.
Lemma set_pending_advances ps s : advances s (se_set_pending ps s).
Proof. split; simpl; try done. by intros []; split. Qed.
Lemma set_counter_advances c s : advances s (se_set_counter c s).
Proof. split; simpl; try done. by intros []; split. Qed.

Lemma require_status_run expected op s :
  require_status expected op s =
    if decide (se_status s = expected) then Done (s, Ok tt)
    else Done (s, Err (SessionState ("cannot " +:+ op +:+ " while session is "
           +:+ SessionStatus_debug (se_status s) +:+ " (expected "
           +:+ SessionStatus_debug expected +:+ ")"))).
Proof. unfold require_status. unfold_monad. by case_decide. Qed.

Lemma check_timeout_effect now s s' r :
  se_status s = SsActive → check_timeout now s = Done (s', r) →
  advances s s' ∧
  match r with
  | Ok _ => s' = s ∧ ∀ d, se_deadline s = Some d → now ≤ d
  | Err _ => se_status s' = SsTimedOut
  end.
Proof.
  intros Ha. unfold check_timeout, mbind, M_bind, get, modify, mthrow, M_throw, mret, M_ret.
  destruct (se_deadline s) as [d|]; [|by intros [= <- <-]]. case_decide as Hd.
  - destruct (ignore_result _ _) as [[s1 r1]|] eqn:Ei; [|done].
    apply ignore_effect in Ei as (-> & Had & Hst & _). intros [= <- <-]. split; [|done].
    etrans; [|exact Had]. apply set_status_advances. rewrite Ha. by intros [].
  - intros [= <- <-]. split; [done|]. split; [done|]. intros d' [= <-]. lia.
Qed.
Lemma require_approval_effect action s s' r :
  require_approval action s = Done (s', r) →
  advances s s' ∧ se_status s' = se_status s ∧ ∃ m, r = Ok (ApprovalRequired m).
Proof.
  unfold require_approval, mbind, M_bind, get, modify, lift_o, mret, M_ret.
  destruct (add_unsigned _ _ _) as [counter|]; [|done].
  destruct (ignore_result _ _) as [[s1 r1]|] eqn:Ei; [|done].
  apply ignore_effect in Ei as (-> & Had & Hst & _). intros [= <- <-].
  split; [|split; [done|eauto]].
  etrans; [apply (set_counter_advances counter)|]. etrans; [apply set_pending_advances|exact Had].
Qed.

Lemma append_all_effect cs b s s' r :
  append_all cs b s = Done (s', r) →
  advances s s' ∧ se_status s' = se_status s ∧
  ∀ evs, r = Ok evs → se_events s' = se_events s ++ evs ∧
    map (λ e, (ae_kind e, ae_detail e)) evs = cs ∧ Forall (λ e, ae_backend e = b) evs.
Proof.
  revert s s' r. induction cs as [|[kind detail] cs IH]; intros s s' r; simpl.
  { intros [= <- <-]. split_and!; [done..|]. intros evs [= <-]. by rewrite app_nil_r. }
  unfold mbind, M_bind. destruct (append_normalized_impl kind detail b s) as [[s1 r1]|] eqn:E1; [|done].
  apply append_effect in E1 as (Had1 & Hst1 & _ & Hev1).
  destruct r1 as [e|e]; [|intros [= <- <-]; done].
  destruct (append_all cs b s1) as [[s2 r2]|] eqn:E2; [|done].
  apply IH in E2 as (Had2 & Hst2 & Hev2). destruct Hev1 as (He & <- & <- & <-).
  destruct r2 as [evs|err]; intros [= <- <-]; (split; [by etrans|]); (split; [congruence|]); [|done].
  intros evs' [= <-]. destruct (Hev2 evs eq_refl) as (Hx & Hy & Hz).
  rewrite Hx, He, <- app_assoc. simpl. rewrite Hy. split_and!; [done..|]. by constructor.
Qed.

(** What an accepted prompt had to satisfy. *)
Record prompt_allowed `{AgentBackend B} (input : AgentInput) (now : DateTime) s (b : B) : Prop := {
  pa_protocol : protocol_version b = AGENT_PROTOCOL_VERSION;
  pa_active : se_status s = SsActive;
  pa_deadline : ∀ d, se_deadline s = Some d → now ≤ d;
  pa_text : clean (se_protected_secrets s) (ai_text input);
  pa_refs : Forall (λ r, clean (se_protected_secrets s) (sr_ref_id r)) (ai_secret_refs input);
  pa_tool : ac_production (se_context s) = true → ai_tool input ≠ Some TtRawShell;
  pa_action : ∀ a, ai_requested_action input = Some a → requires_approval a = false;
}.

Lemma scan_refs_clean s refs :
  scan_refs s refs = Ok tt → Forall (λ r, clean (se_protected_secrets s) (sr_ref_id r)) refs.
Proof.
  induction refs as [|r refs IH]; simpl; [constructor|]. unfold mbind, result_bind.
  destruct (scan_text_cases s (sr_ref_id r)) as [[-> Hc]|[m ->]]; [|done].
  intros Hr. constructor; auto.
Qed.

(** The prompt stopped before the backend was asked. *)
Ltac stopped := split; [done || assumption|split; [done|by eexists]].

(** Running a prompt: until the backend is asked, only the session may change;
    the backend is asked exactly when the prompt is allowed. *)
Lemma prompt_cases `{AgentBackend B} input now s (b : B) s' b' r :
  prompt input now (s, b) = Done ((s', b'), r) →
  (advances s s' ∧ b' = b ∧ ∃ e, r = Err e) ∨
  (prompt_allowed input now s b ∧
   match draft_events (se_context s) input (se_next_sequence s) b with
   | Done (b1, Ok cs) => b' = b1 ∧ append_all cs (identity b1) s = Done (s', r)
   | Done (b1, Err e) => s' = s ∧ b' = b1 ∧ r = Err e
   | Panic _ => False
   end).
Proof.
  unfold prompt, mbind, M_bind, get, lift_r, on_session, on_backend, zoom, mthrow, M_throw. simpl.
  unfold ensure_protocol_version at 1. case_decide as Hpv; [|intros [= <- <- <-]; left; stopped].
  rewrite require_status_run. case_decide as Hact; [|intros [= <- <- <-]; left; stopped].
  simpl. destruct (check_timeout now s) as [[s1 r1]|] eqn:Ect; simpl; [|done].
  apply check_timeout_effect in Ect as [Had1 Hr1]; [|done].
  destruct r1 as [[]|e1]; [|intros [= <- <- <-]; left; stopped].
  destruct Hr1 as [-> Hdl]. simpl.
  destruct (scan_text_cases s (ai_text input)) as [[-> Hct]|[m ->]];
    [|intros [= <- <- <-]; left; stopped].
  destruct (scan_refs s (ai_secret_refs input)) as [[]|e2] eqn:Erf;
    [|intros [= <- <- <-]; left; stopped].
  apply scan_refs_clean in Erf. unfold Policy_authorize.
  destruct (ac_production (se_context s) && bool_decide (ai_tool input = Some TtRawShell)) eqn:Epol.
  { simpl. destruct (ignore_result _ _) as [[s2 r2]|] eqn:Ei; simpl; [|done].
    apply ignore_effect in Ei as (-> & Had2 & _). intros [= <- <- <-]. left. eauto. }
  assert (ac_production (se_context s) = true → ai_tool input ≠ Some TtRawShell) as Htool.
  { intros Hp. rewrite Hp in Epol. by apply bool_decide_eq_false in Epol. }
  assert (Hask : (∀ a, ai_requested_action input = Some a → requires_approval a = false) →
    match draft_events (se_context s) input (se_next_sequence s) b with
    | Done (b1, Ok cs) =>
        match append_all cs (identity b1) s with
        | Done (s2, r2) => Done ((s2, b1), r2)
        | Panic msg => Panic msg
        end
    | Done (b1, Err e) => Done ((s, b1), Err e)
    | Panic msg => Panic msg
    end = Done ((s', b'), r) →
    prompt_allowed input now s b ∧
    match draft_events (se_context s) input (se_next_sequence s) b with
    | Done (b1, Ok cs) => b' = b1 ∧ append_all cs (identity b1) s = Done (s', r)
    | Done (b1, Err e) => s' = s ∧ b' = b1 ∧ r = Err e
    | Panic _ => False
    end).
  { intros Hact' Hrun. split; [by split|].
    destruct (draft_events _ _ _ b) as [[b1 [cs|e]]|]; [|naive_solver..].
    destruct (append_all cs (identity b1) s) as [[s2 r2]|]; naive_solver. }
  destruct (ai_requested_action input) as [a|] eqn:Eact.
  - destruct (requires_approval a) eqn:Era.
    + simpl. destruct (require_approval a s) as [[s2 r2]|] eqn:Eq; simpl; [|done].
      apply require_approval_effect in Eq as (Had2 & _ & m & ->). intros [= <- <- <-]. left. eauto.
    + intros Hrun. right. apply Hask; [naive_solver|]. simpl in Hrun.
      destruct (draft_events _ _ _ b) as [[b1 [cs|e]]|]; simpl in Hrun; exact Hrun.
  - intros Hrun. right. apply Hask; [done|]. simpl in Hrun.
    destruct (draft_events _ _ _ b) as [[b1 [cs|e]]|]; simpl in Hrun; exact Hrun.
Qed.

(** ** The session machine *)

Lemma simple_event_effect st st' op kind detail s s' r :
  ¬ ended st →
  (require_status st op;; modify (se_set_status st');; append_system_event kind detail) s
    = Done (s', r) → advances s s'.
Proof.
  intros Hst. unfold mbind, M_bind. rewrite require_status_run. case_decide as Ha.
  - unfold modify. intros E%system_event_effect. destruct E as (Had & _).
    etrans; [|exact Had]. apply set_status_advances. congruence.
  - by intros [= <- <-].
Qed.
Lemma resume_effect s s' r : resume s = Done (s', r) → advances s s'.
Proof.
  unfold resume, mbind, M_bind. rewrite require_status_run. case_decide as Ha; [|by intros [= <- <-]].
  unfold modify. destruct (append_system_event _ _ _) as [[s1 r1]|] eqn:E; [|done].
  apply system_event_effect in E as (Had & _).
  assert (advances s s1).
  { etrans; [|exact Had]. apply set_status_advances. rewrite Ha. by intros []. }
  destruct r1; intros [= <- <-]; done.
Qed.
Lemma replay_effect e s s' r : replay_event e s = Done (s', r) → advances s s'.
Proof.
  unfold replay_event, mbind, M_bind, get, lift_r, lift_o, modify, mthrow, M_throw.
  case_decide as H1; [by intros [= <- <-]|]. case_decide as H2; [by intros [= <- <-]|].
  case_decide as H3; [by intros [= <- <-]|].
  destruct (scan_text_cases s (ae_detail e)) as [[-> Hc]|[m ->]]; [|by intros [= <- <-]].
  destruct (add_unsigned _ _ _) as [next|] eqn:En; [|done]. intros [= <- <-].
  apply push_advances; try done; by apply dec_stable.
Qed.
Lemma resolve_effect id approval s s' r : resolve_approval id approval s = Done (s', r) → advances s s'.
Proof.
  unfold resolve_approval, mbind, M_bind, get, lift_r, modify, mthrow, M_throw, mret, M_ret.
  destruct (position _ _) as [i|]; simpl; [|by intros [= <- <-]].
  assert (∀ kind detail, match append_system_event kind detail s with
      | Done (s1, Ok e) => Done (se_set_pending (base.delete i (se_pending_approvals s1)) s1, Ok e)
      | Done (s1, Err e) => Done (s1, Err e)
      | Panic m => Panic m
      end = Done (s', r) → advances s s') as Hev.
  { intros kind detail. destruct (append_system_event kind detail s) as [[s1 [e|e]]|] eqn:E; [..|done];
      apply system_event_effect in E as (Had & _); intros [= <- <-]; [|done].
    etrans; [exact Had|apply set_pending_advances]. }
  destruct (approved approval); simpl; [destruct (trim_is_empty _); [by intros [= <- <-]|]|];
    match goal with |- context [append_system_event ?k ?d s] =>
      specialize (Hev k d); destruct (append_system_event k d s) as [[s1 [e|e]]|] end;
    simpl; intros E; by apply Hev.
Qed.

Inductive SessionOp :=
| AoPrompt (input : AgentInput) (now : DateTime)
| AoInterrupt | AoResume | AoComplete
| AoReplay (event : AgentEvent)
| AoResolve (request_id : string) (approval : ExplicitApproval)
| AoDeadline (deadline : DateTime).
Definition run_session_op `{AgentBackend B} (op : SessionOp) : M (AgentSession * B) CoreError unit :=
  match op with
  | AoPrompt input now => prompt input now;; mret tt
  | AoInterrupt => on_session interrupt;; mret tt
  | AoResume => on_session resume;; mret tt
  | AoComplete => on_session complete;; mret tt
  | AoReplay e => on_session (replay_event e)
  | AoResolve id approval => on_session (resolve_approval id approval);; mret tt
  | AoDeadline d => on_session (modify (set_deadline d))
  end.

Lemma set_deadline_advances d s : advances s (set_deadline d s).
Proof. split; simpl; try done. by intros []; split. Qed.
Lemma on_session_effect {B A} (m : M AgentSession CoreError A) s (b : B) p r :
  (on_session m;; mret tt) (s, b) = Done (p, r) →
  ∃ s' r', m s = Done (s', r') ∧ p = (s', b).
Proof.
  unfold on_session, mbind, M_bind, zoom. simpl.
  destruct (m s) as [[s1 [a|e]]|]; intros [= <- <-]; eauto.
Qed.
Lemma session_op_advances `{AgentBackend B} op s (b : B) p r :
  run_session_op op (s, b) = Done (p, r) → advances s p.1.
Proof.
  destruct op as [input now| | | |e|id approval|d]; simpl.
  - unfold mbind, M_bind. destruct (prompt input now (s, b)) as [[[s1 b1] r1]|] eqn:E; [|done].
    assert (advances s s1).
    { apply prompt_cases in E as [(? & _ & _)|[_ Hd]]; [done|].
      destruct (draft_events _ _ _ b) as [[b2 [cs|e]]|]; [| |done].
      - destruct Hd as [_ Hd]. by apply append_all_effect in Hd as (? & _).
      - by destruct Hd as [-> _]. }
    destruct r1; intros [= <- <-]; done.
  - intros (s1 & r1 & E & ->)%on_session_effect. unfold interrupt in E.
    eapply simple_event_effect in E; [done|]. by intros [].
  - intros (s1 & r1 & E & ->)%on_session_effect. by apply resume_effect in E.
  - intros (s1 & r1 & E & ->)%on_session_effect. unfold complete in E.
    eapply simple_event_effect in E; [done|]. by intros [].
  - unfold on_session, zoom. simpl. destruct (replay_event e s) as [[s1 r1]|] eqn:E; [|done].
    apply replay_effect in E. intros [= <- <-]. done.
  - intros (s1 & r1 & E & ->)%on_session_effect. by apply resolve_effect in E.
  - intros [= <- <-]. apply set_deadline_advances.
Qed.

(** Sessions, from their opening, through any calls and any backend behaviour. *)
Inductive session_step `{AgentBackend B} : AgentSession * B → AgentSession * B → Prop :=
| session_step_op op p p' r : run_session_op op p = Done (p', r) → session_step p p'.
Definition session_reachable `{AgentBackend B} (s : AgentSession) : Prop :=
  ∃ fresh (b0 : B) context secrets s0 b,
    AgentSession_open fresh b0 context secrets = Ok s0 ∧ rtc session_step (s0, b0) (s, b).

Lemma session_steps_advance `{AgentBackend B} (p p' : AgentSession * B) :
  rtc session_step p p' → advances p.1 p'.1.
Proof.
  induction 1 as [|p1 p2 p3 Hs _ IH]; [done|]. etrans; [|exact IH].
  destruct Hs as [op [s b] p r Hrun]. by apply session_op_advances in Hrun.
Qed.
Lemma open_inv `{AgentBackend B} fresh (b : B) context secrets s :
  AgentSession_open fresh b context secrets = Ok s →
  session_inv s ∧ se_protected_secrets s = secrets ∧ se_id s = fresh.
Proof.
  unfold AgentSession_open, mbind, result_bind, ensure_protocol_version.
  case_decide; [|done]. intros [= <-]. split; [|done]. split; simpl; [done|]. by intros i e ?.
Qed.

(** C33: whatever calls are made and whatever a backend drafts, the event log
    of a session only grows, its events are numbered consecutively from zero,
    belong to the session, and contain none of the protected secret values. *)
Theorem session_log_sound `{AgentBackend B} fresh (b0 : B) context secrets s0 s b :
  AgentSession_open fresh b0 context secrets = Ok s0 → rtc session_step (s0, b0) (s, b) →
  session_inv s ∧ se_id s = fresh ∧ se_protected_secrets s = secrets ∧
  ∀ s' b', rtc session_step (s, b) (s', b') → se_events s `prefix_of` se_events s'.
Proof.
  intros Ho Hs. apply open_inv in Ho as (Hinv & Hp & Hid).
  apply session_steps_advance in Hs as [Hi _ _ Hpr _ _ Hv]. simpl in *.
  split_and!; [auto|congruence|congruence|].
  intros s' b' Hs'%session_steps_advance. apply Hs'.
Qed.

(** A prompt whose protocol, session status, deadline, text, secret
    references, tool or action is not allowed fails without the backend being
    asked; an accepted prompt satisfied all of them and appends exactly the
    events the backend drafted, in order, without changing the session's
    status. *)
Theorem prompt_policy `{AgentBackend B} input now s (b : B) s' b' r :
  prompt input now (s, b) = Done ((s', b'), r) →
  (¬ prompt_allowed input now s b → b' = b ∧ ∃ e, r = Err e) ∧
  (∀ evs, r = Ok evs →
     prompt_allowed input now s b ∧ se_status s' = SsActive ∧
     se_events s' = se_events s ++ evs ∧
     ∃ b1 cs, draft_events (se_context s) input (se_next_sequence s) b = Done (b1, Ok cs) ∧
       map (λ e, (ae_kind e, ae_detail e)) evs = cs).
Proof.
  intros Hrun. destruct (prompt_cases _ _ _ _ _ _ _ Hrun) as [(Had & -> & e & ->)|[Hok Hd]].
  - split; [eauto|done].
  - split; [done|]. intros evs ->. split; [done|].
    destruct (draft_events _ _ _ b) as [[b1 [cs|e]]|]; [| |done].
    + destruct Hd as [-> Hap]. apply append_all_effect in Hap as (_ & Hst & Hev).
      destruct (Hev evs eq_refl) as (He & Hm & _).
      split; [by rewrite Hst; apply Hok|]. split; [done|]. by exists b1, cs.
    + by destruct Hd as (_ & _ & ?).
Qed.

(** An action that requires approval is never executed by a prompt, in
    any state of the session: the backend is never asked, also after a human
    has granted the requested approval. *)
Theorem high_risk_prompt_never_runs `{AgentBackend B} input now a s (b : B) s' b' r :
  ai_requested_action input = Some a → requires_approval a = true →
  prompt input now (s, b) = Done ((s', b'), r) → b' = b ∧ ∃ e, r = Err e.
Proof.
  intros Ha Hr Hrun.
  destruct (prompt_cases _ _ _ _ _ _ _ Hrun) as [(_ & -> & e & ->)|[Hok _]]; [eauto|].
  rewrite (pa_action _ _ _ _ Hok a Ha) in Hr. done.
Qed.

(** A completed or timed-out session stays that way, and refuses
    prompts, interruption, resumption and completion without any change. *)
Theorem ended_session_is_final `{AgentBackend B} s (b : B) s' b' :
  ended (se_status s) → rtc session_step (s, b) (s', b') →
  se_status s' = se_status s ∧
  (∃ e, interrupt s' = Done (s', Err e)) ∧ (∃ e, resume s' = Done (s', Err e)) ∧
  (∃ e, complete s' = Done (s', Err e)) ∧
  (∀ input now, ∃ e, prompt input now (s', b') = Done ((s', b'), Err e)).
Proof.
  intros He Hs%session_steps_advance. pose proof (ad_status _ _ Hs He) as Hst. simpl in Hst.
  split; [done|]. unfold interrupt, resume, complete, mbind, M_bind. rewrite !require_status_run, Hst.
  split_and!; [destruct He as [-> | ->]; eauto..|].
  intros input now. unfold prompt, mbind, M_bind, get, lift_r, on_session, zoom. simpl.
  unfold ensure_protocol_version. case_decide; [|eauto].
  rewrite require_status_run, Hst. destruct He as [-> | ->]; simpl; eauto.
Qed.

(** ** Replay *)

Fixpoint replay_all (events : list AgentEvent) : M AgentSession CoreError unit :=
  match events with [] => mret tt | e :: events' => replay_event e;; replay_all events' end.

Lemma replay_run e s :
  ae_session_id e = se_id s → ae_backend e = se_backend s → ae_sequence e = se_next_sequence s →
  clean (se_protected_secrets s) (ae_detail e) → se_next_sequence s < u64_max →
  replay_event e s = Done (se_push_event e (se_next_sequence s + 1) s, Ok tt).
Proof.
  intros H1 H2 H3 Hc Hroom. unfold replay_event, mbind, M_bind, get, lift_r, lift_o, modify.
  rewrite !decide_False by naive_solver. apply scan_text_clean in Hc. rewrite Hc.
  by rewrite add_unsigned_done by lia.
Qed.
Lemma replay_suffix events s s0 n :
  session_inv s → Z.of_nat (length (se_events s)) ≤ u64_max →
  Forall (λ e, ae_backend e = se_backend s) (se_events s) →
  se_id s0 = se_id s → se_backend s0 = se_backend s →
  se_protected_secrets s0 = se_protected_secrets s →
  drop n (se_events s) = events → se_next_sequence s0 = Z.of_nat n →
  (n ≤ length (se_events s))%nat →
  ∃ s1, replay_all events s0 = Done (s1, Ok tt) ∧ se_events s1 = se_events s0 ++ events ∧
    se_next_sequence s1 = Z.of_nat (length (se_events s)).
Proof.
  intros Hinv Hlen Hback. revert s0 n. induction events as [|e events IH];
    intros s0 n Hid Hb Hp Hdrop Hnext Hn.
  { exists s0. simpl. rewrite app_nil_r. split_and!; [done..|].
    assert (length (drop n (se_events s)) = 0%nat) as Hl by by rewrite Hdrop.
    rewrite length_drop in Hl. lia. }
  assert (se_events s !! n = Some e) as He.
  { rewrite <- (Nat.add_0_r n), <- lookup_drop, Hdrop. done. }
  pose proof (lookup_lt_Some _ _ _ He) as Hlt.
  destruct (si_events _ Hinv _ _ He) as (Hseq & Hsid & Hc).
  assert (wrap_u64 (Z.of_nat n) = Z.of_nat n) as Hw.
  { unfold wrap_u64. apply Z.mod_small. lia. }
  rewrite Hw in Hseq. simpl. unfold mbind, M_bind.
  rewrite replay_run; [|congruence| |congruence|by rewrite Hp|lia].
  2:{ rewrite Hb. rewrite Forall_forall in Hback. apply Hback. by eapply list_elem_of_lookup_2. }
  destruct (IH (se_push_event e (se_next_sequence s0 + 1) s0) (S n)) as (s1 & Hrun & Hev & Hns);
    simpl; try done.
  - erewrite drop_S in Hdrop by exact He. by injection Hdrop.
  - rewrite Hnext. lia.
  - exists s1. split; [done|]. rewrite Hev. simpl. by rewrite <- app_assoc.
Qed.

(** Replaying the log of a session into a fresh session with the same
    identifier, backend and protected values succeeds and rebuilds the log and
    the next sequence number, provided every event came from the session's own
    backend. *)
Theorem replay_rebuilds_log s s0 :
  session_inv s → Z.of_nat (length (se_events s)) ≤ u64_max →
  Forall (λ e, ae_backend e = se_backend s) (se_events s) →
  se_id s0 = se_id s → se_backend s0 = se_backend s →
  se_protected_secrets s0 = se_protected_secrets s → se_events s0 = [] → se_next_sequence s0 = 0 →
  ∃ s1, replay_all (se_events s) s0 = Done (s1, Ok tt) ∧ se_events s1 = se_events s ∧
    se_next_sequence s1 = Z.of_nat (length (se_events s)).
Proof.
  intros Hinv Hlen Hb Hid Hbk Hp He Hn.
  destruct (replay_suffix (se_events s) s s0 0) as (s1 & Hrun & Hev & Hns); try done; [lia|].
  exists s1. rewrite He in Hev. done.
Qed.
End SessionFacts.

(* ------------------------------------------------------------------ *)
(** * Adapters *)

Lemma kind_of_name_work name k :
  kind_of_name name = Some k →
  k ∉ [AeApprovalRequested; AeDenied; AeInterrupted; AeResumed; AeTimedOut].
Proof.
  unfold kind_of_name. intros E. repeat case_decide; simplify_eq/=; set_solver.
Qed.

(** An external backend cannot produce a policy or lifecycle event
    through normalization: whatever name it emits, the result is one of the nine
    work events with the detail unchanged, or an error; and each canonical name
    of a work event is normalized to that event. *)
Theorem normalize_spec self raw detail :
  (∀ k d, normalize self raw detail = Ok (k, d) →
     d = detail ∧ k ∉ [AeApprovalRequested; AeDenied; AeInterrupted; AeResumed; AeTimedOut]) ∧
  (∀ k, k ∉ [AeApprovalRequested; AeDenied; AeInterrupted; AeResumed; AeTimedOut] →
     normalize self (event_canonical_name k) detail = Ok (k, detail)).
Proof.
  split.
  - unfold normalize. intros k d. destruct (find_suffix _) as [k'|] eqn:E; [|done].
    intros [= <- <-]. split; [done|].
    induction (split_underscore _ _) as [|p parts IH]; [done|]. cbn [find_suffix] in E.
    destruct (kind_of_name (str_join "_" (p :: parts))) eqn:Ek; [|by apply IH].
    simplify_eq. by eapply kind_of_name_work.
  - intros k Hk. unfold normalize. destruct k; try (exfalso; apply Hk; set_solver); vm_compute; reflexivity.
Qed.

(** The preferred tool is one of the candidates and none of them has a
    better rank; there is none exactly when nothing is offered. *)
Theorem preferred_tool_spec candidates :
  match select_preferred_tool candidates with
  | Some t => t ∈ candidates ∧ ∀ t', t' ∈ candidates → rank t ≤ rank t'
  | None => candidates = []
  end.
Proof.
  unfold select_preferred_tool.
  destruct (min_by _ candidates) as [t|] eqn:E; [|by apply min_by_None in E].
  apply min_by_Some in E as [Hin Hle].
  - split; [done|]. intros t' Ht'. apply Z.leb_le. by apply Hle.
  - intros x y Hxy. apply Z.leb_le. apply Z.leb_gt in Hxy. lia.
  - intros x y z Hxy Hyz. apply Z.leb_le. apply Z.leb_le in Hxy, Hyz. lia.
Qed.

Module AgentExamples.
Import RefInstances.
Definition ctx : AgentContext :=
  {| ac_application_id := mkId (uuid 1); ac_environment_name := "production";
     ac_production := true; ac_principal := "ann" |}.
Definition sid : AgentSessionId := mkId (uuid 2).
Definition session0 : AgentSession :=
  mkSession sid ctx BackendIdentity_native SsActive [] 0 None [] 0 ["s3cr3t"].
Definition ask : AgentInput :=
  {| ai_text := "list files"; ai_secret_refs := []; ai_requested_action := Some AkReadOnly;
     ai_tool := None |}.
Definition deploy : AgentInput :=
  {| ai_text := "ship it"; ai_secret_refs := []; ai_requested_action := Some AkProductionDeploy;
     ai_tool := None |}.
Definition d0 : AgentSession * NativeAgent * result CoreError unit :=
  ((session0, NativeAgent_new), Ok tt).
Definition run_of (op : SessionOp) (p : AgentSession * NativeAgent) : AgentSession * NativeAgent :=
  (done_or d0 (run_session_op op p)).1.
Definition asked : AgentSession * NativeAgent := run_of (AoPrompt ask 5) (session0, NativeAgent_new).
Definition finished : AgentSession * NativeAgent := run_of AoComplete asked.

Lemma session0_open : AgentSession_open sid NativeAgent_new ctx ["s3cr3t"] = Ok session0.
Proof. reflexivity. Qed.
Lemma asked_step : session_step (session0, NativeAgent_new) asked.
Proof.
  apply (session_step_op (AoPrompt ask 5) _ _ (Ok tt)). apply is_done_pair; vm_compute; reflexivity.
Qed.
Lemma finished_step : session_step asked finished.
Proof.
  apply (session_step_op AoComplete _ _ (Ok tt)). apply is_done_pair; vm_compute; reflexivity.
Qed.

Lemma session_log_sound_witness :
  AgentSession_open sid NativeAgent_new ctx ["s3cr3t"] = Ok session0 ∧
  rtc session_step (session0, NativeAgent_new) (asked.1, asked.2) ∧
  session_inv asked.1 ∧ length (se_events asked.1) = 4%nat.
Proof.
  assert (Hs : rtc session_step (session0, NativeAgent_new) (asked.1, asked.2)).
  { apply rtc_once. exact asked_step. }
  split; [exact session0_open|]. split; [exact Hs|]. split; [|vm_compute; reflexivity].
  exact (proj1 (session_log_sound sid NativeAgent_new ctx ["s3cr3t"] session0 asked.1 asked.2
                  session0_open Hs)).
Defined.

(** The production deployment is blocked, its approval granted, and the next
    prompt blocked again. *)
Definition blocked : AgentSession * NativeAgent :=
  run_of (AoPrompt deploy 5) (session0, NativeAgent_new).
Definition granted : AgentSession * NativeAgent :=
  run_of (AoResolve (approval_id sid 1) (ExplicitApproval_granted "ann" "go")) blocked.
Definition retried : outcome (AgentSession * NativeAgent * result CoreError (list AgentEvent)) :=
  prompt deploy 6 granted.
Definition d1 : AgentSession * NativeAgent * result CoreError (list AgentEvent) :=
  ((session0, NativeAgent_new), Ok []).
Lemma high_risk_prompt_never_runs_witness :
  se_pending_approvals granted.1 = [] ∧
  prompt deploy 6 (granted.1, granted.2) = Done (((done_or d1 retried).1.1, (done_or d1 retried).1.2), (done_or d1 retried).2) ∧
  ∃ e, (done_or d1 retried).2 = Err e.
Proof.
  assert (E : prompt deploy 6 (granted.1, granted.2) =
    Done (((done_or d1 retried).1.1, (done_or d1 retried).1.2), (done_or d1 retried).2))
    by (vm_compute; reflexivity).
  split; [vm_compute; reflexivity|]. split; [exact E|].
  apply (high_risk_prompt_never_runs deploy 6 AkProductionDeploy _ _ _ _ _ eq_refl eq_refl E).
Defined.

Definition accepted : AgentSession * NativeAgent * result CoreError (list AgentEvent) :=
  done_or d1 (prompt ask 5 (session0, NativeAgent_new)).
Definition accepted_events : list AgentEvent :=
  match accepted.2 with Ok evs => evs | Err _ => [] end.
Lemma prompt_policy_witness :
  prompt ask 5 (session0, NativeAgent_new) =
    Done ((accepted.1.1, accepted.1.2), Ok accepted_events) ∧
  prompt_allowed ask 5 session0 NativeAgent_new ∧ se_status accepted.1.1 = SsActive.
Proof.
  assert (E : prompt ask 5 (session0, NativeAgent_new) =
    Done ((accepted.1.1, accepted.1.2), Ok accepted_events)) by (vm_compute; reflexivity).
  split; [exact E|].
  destruct (proj2 (prompt_policy _ _ _ _ _ _ _ E) _ eq_refl) as (Hok & Hst & _).
  split; [exact Hok|exact Hst].
Defined.

Lemma ended_session_is_final_witness :
  ended (se_status finished.1) ∧ ∃ e, resume finished.1 = Done (finished.1, Err e).
Proof.
  assert (He : ended (se_status finished.1)) by (left; vm_compute; reflexivity).
  split; [exact He|].
  apply (ended_session_is_final finished.1 finished.2 finished.1 finished.2 He (rtc_refl _ _)).
Defined.

Lemma replay_rebuilds_log_witness :
  session_inv asked.1 ∧
  ∃ s1, replay_all (se_events asked.1) session0 = Done (s1, Ok tt) ∧
    se_events s1 = se_events asked.1.
Proof.
  assert (Hinv : session_inv asked.1).
  { pose proof (session_op_advances (AoPrompt ask 5) session0 NativeAgent_new asked (Ok tt)) as Had.
    refine (ad_inv _ _ (Had _) _); [apply is_done_pair; vm_compute; reflexivity|].
    apply (open_inv _ _ _ _ _ session0_open). }
  split; [exact Hinv|].
  destruct (replay_rebuilds_log asked.1 session0 Hinv) as (s1 & Hr & He & _);
    [apply Z.leb_le; vm_compute; reflexivity| |reflexivity..|].
  - vm_compute. repeat constructor.
  - exists s1. split; [exact Hr|exact He].
Defined.
End AgentExamples.
