(* ===== verification/Events.v ===== *)
(** Attribution, structured events, logs, health snapshots and usage
    (observability.rs, first part). *)

From stdpp Require Import base option list strings pretty.
From Stdlib Require Import ZArith Lia.
From S2P Require Import Prelude External Errors Ids Resource Deployment.
Local Open Scope Z_scope.

Definition OBSERVABILITY_CONTRACT_VERSION : Z := 1.
Definition REDACTION_MARKER : string := "[redacted]".

(* ------------------------------------------------------------------ *)
(** * Correlation and attribution *)

Record EventResource := { er_kind : string; er_id : string }.
Definition EventResource_new (kind id : string) : EventResource :=
  {| er_kind := kind; er_id := id |}.

Record Correlation := mkCorrelation {
  trace_id : string;
  cor_session_id : option AgentSessionId;
  cor_application_id : option ApplicationId;
  cor_environment_id : option EnvironmentId;
}.
Definition Correlation_new (trace : string) : Correlation := mkCorrelation trace None None None.
Definition with_session (s : AgentSessionId) (self : Correlation) : Correlation :=
  mkCorrelation (trace_id self) (Some s) (cor_application_id self) (cor_environment_id self).
Definition with_application (a : ApplicationId) (self : Correlation) : Correlation :=
  mkCorrelation (trace_id self) (cor_session_id self) (Some a) (cor_environment_id self).
Definition with_environment (e : EnvironmentId) (self : Correlation) : Correlation :=
  mkCorrelation (trace_id self) (cor_session_id self) (cor_application_id self) (Some e).

Inductive EventActor :=
| ActAgent (session_id : AgentSessionId) (name : string)
| ActPlatform (name : string)
| ActHuman (name : string)
| ActProvider (name : string).
Definition kind_label (a : EventActor) : string :=
  match a with
  | ActAgent _ _ => "agent" | ActPlatform _ => "platform" | ActHuman _ => "human"
  | ActProvider _ => "provider"
  end.

Inductive EventAction :=
| EaCapabilityRequested | EaCapabilityDecision | EaResourceProvisioned | EaSecretRotated
| EaSecretReplaced | EaBuildStarted | EaBuildFinished | EaDeploymentRolledOut
| EaDeploymentRolledBack | EaDomainChanged | EaHealthProbed | EaReconciled
| EaVerificationFinished | EaApprovalRequested | EaApprovalDecided.
Definition EventAction_canonical_name (a : EventAction) : string :=
  match a with
  | EaCapabilityRequested => "capability_requested"
  | EaCapabilityDecision => "capability_decision"
  | EaResourceProvisioned => "resource_provisioned"
  | EaSecretRotated => "secret_rotated"
  | EaSecretReplaced => "secret_replaced"
  | EaBuildStarted => "build_started"
  | EaBuildFinished => "build_finished"
  | EaDeploymentRolledOut => "deployment_rolled_out"
  | EaDeploymentRolledBack => "deployment_rolled_back"
  | EaDomainChanged => "domain_changed"
  | EaHealthProbed => "health_probed"
  | EaReconciled => "reconciled"
  | EaVerificationFinished => "verification_finished"
  | EaApprovalRequested => "approval_requested"
  | EaApprovalDecided => "approval_decided"
  end.

Inductive EventResult :=
| ErAccepted | ErDenied | ErSucceeded | ErFailed (reason : string) | ErPending.
Definition is_failure (r : EventResult) : bool :=
  match r with ErFailed _ => true | _ => false end.
Definition EventResult_debug `{StrDebug} (r : EventResult) : string :=
  match r with
  | ErAccepted => "Accepted" | ErDenied => "Denied" | ErSucceeded => "Succeeded"
  | ErFailed reason => "Failed { reason: " +:+ str_debug reason +:+ " }"
  | ErPending => "Pending"
  end.

(* ------------------------------------------------------------------ *)
(** * Findings *)

Inductive Severity := SevInfo | SevWarning | SevError.
Record Finding := mkFinding {
  fi_code : string;
  fi_severity : Severity;
  fi_message : string;
  fi_recovery : option string;
  fi_resource : option EventResource;
}.
Definition Finding_new (code : string) (severity : Severity) (message : string) : Finding :=
  mkFinding code severity message None None.
Definition Finding_info (code message : string) : Finding := Finding_new code SevInfo message.
Definition Finding_warning (code message : string) : Finding := Finding_new code SevWarning message.
Definition Finding_error (code message : string) : Finding := Finding_new code SevError message.
Definition Finding_with_recovery (recovery : string) (self : Finding) : Finding :=
  mkFinding (fi_code self) (fi_severity self) (fi_message self) (Some recovery) (fi_resource self).
Definition Finding_on_resource (resource : EventResource) (self : Finding) : Finding :=
  mkFinding (fi_code self) (fi_severity self) (fi_message self) (fi_recovery self) (Some resource).

(* ------------------------------------------------------------------ *)
(** * Platform events *)

Record PlatformEvent := {
  pe_sequence : Z;
  pe_at : DateTime;
  pe_actor : EventActor;
  pe_correlation : Correlation;
  pe_action : EventAction;
  pe_resource : option EventResource;
  pe_before : option string;
  pe_after : option string;
  pe_result : EventResult;
}.
Definition PlatformEvent_to_event_detail `{StrDebug} (self : PlatformEvent) : string :=
  let resource := match pe_resource self with
    | Some r => " resource " +:+ er_id r +:+ "(" +:+ er_kind r +:+ ")"
    | None => ""
    end in
  "e" +:+ pretty (pe_sequence self) +:+ " " +:+ kind_label (pe_actor self) +:+ " "
  +:+ EventAction_canonical_name (pe_action self) +:+ " via "
  +:+ trace_id (pe_correlation self) +:+ resource +:+ " " +:+ EventResult_debug (pe_result self).

Record EventDraft := mkDraft {
  ed_at : DateTime;
  ed_actor : EventActor;
  ed_correlation : Correlation;
  ed_action : EventAction;
  ed_resource : option EventResource;
  ed_before : option string;
  ed_after : option string;
  ed_result : EventResult;
}.
Definition EventDraft_new (at_ : DateTime) (actor : EventActor) (correlation : Correlation)
    (action : EventAction) (result : EventResult) : EventDraft :=
  mkDraft at_ actor correlation action None None None result.
Definition EventDraft_on_resource (resource : EventResource) (self : EventDraft) : EventDraft :=
  mkDraft (ed_at self) (ed_actor self) (ed_correlation self) (ed_action self) (Some resource)
    (ed_before self) (ed_after self) (ed_result self).
Definition between (before after : string) (self : EventDraft) : EventDraft :=
  mkDraft (ed_at self) (ed_actor self) (ed_correlation self) (ed_action self) (ed_resource self)
    (Some before) (Some after) (ed_result self).

(** The event store is a vector that only [append] changes.  A vector has fewer
    than [2^63] elements, so [len() as u64 + 1] does not overflow. *)
Definition EventLog : Type := list PlatformEvent.
Definition EventLog_append (draft : EventDraft) (secrets : list string) (self : EventLog) :
    EventLog * PlatformEvent :=
  let sequence := Z.of_nat (length self) + 1 in
  let event :=
    {| pe_sequence := sequence; pe_at := ed_at draft; pe_actor := ed_actor draft;
       pe_correlation := ed_correlation draft; pe_action := ed_action draft;
       pe_resource := ed_resource draft;
       pe_before := (λ b, redact_reason b secrets) <$> ed_before draft;
       pe_after := (λ a, redact_reason a secrets) <$> ed_after draft;
       pe_result := match ed_result draft with
                    | ErFailed reason => ErFailed (redact_reason reason secrets)
                    | other => other
                    end |} in
  (self ++ [event], event).
Definition EventLog_len (self : EventLog) : nat := length self.
Definition for_application (a : ApplicationId) (self : EventLog) : list PlatformEvent :=
  List.filter (λ e, bool_decide (cor_application_id (pe_correlation e) = Some a)) self.
Definition for_environment (n : EnvironmentId) (self : EventLog) : list PlatformEvent :=
  List.filter (λ e, bool_decide (cor_environment_id (pe_correlation e) = Some n)) self.
Definition for_session (s : AgentSessionId) (self : EventLog) : list PlatformEvent :=
  List.filter (λ e, bool_decide (cor_session_id (pe_correlation e) = Some s)) self.
Definition for_trace (t : string) (self : EventLog) : list PlatformEvent :=
  List.filter (λ e, bool_decide (trace_id (pe_correlation e) = t)) self.

(* ------------------------------------------------------------------ *)
(** * Logs separated by source *)

Inductive LogSource := LsAgent | LsBuild | LsRuntime | LsDeployment | LsCapability | LsResource.
#[global] Instance LogSource_eq_dec : EqDecision LogSource.
Proof. solve_decision. Defined.
#[global] Instance LogLevel_eq_dec : EqDecision LogLevel.
Proof. solve_decision. Defined.
Definition LogSource_canonical_name (s : LogSource) : string :=
  match s with
  | LsAgent => "agent" | LsBuild => "build" | LsRuntime => "runtime"
  | LsDeployment => "deployment" | LsCapability => "capability" | LsResource => "resource"
  end.
Record LogEntry := {
  le_sequence : Z;
  le_at : DateTime;
  le_source : LogSource;
  le_level : LogLevel;
  le_correlation : Correlation;
  le_message : string;
}.
Definition LogStore : Type := list LogEntry.
Definition LogStore_append (source : LogSource) (level : LogLevel) (correlation : Correlation)
    (message : string) (secrets : list string) (at_ : DateTime) (self : LogStore) :
    LogStore * LogEntry :=
  let sequence := Z.of_nat (length self) + 1 in
  let entry := {| le_sequence := sequence; le_at := at_; le_source := source; le_level := level;
                  le_correlation := correlation; le_message := redact_reason message secrets |} in
  (self ++ [entry], entry).
Definition for_source (s : LogSource) (self : LogStore) : list LogEntry :=
  List.filter (λ e, bool_decide (le_source e = s)) self.
Definition LogStore_errors (self : LogStore) : list LogEntry :=
  List.filter (λ e, bool_decide (le_level e = LlError)) self.

(* ------------------------------------------------------------------ *)
(** * Health snapshots *)

(** [DateTime - DateTime] is the exact difference: chrono's date range is
    narrower than its duration range. *)
Definition datetime_sub (a b : DateTime) : Duration := a - b.

Record HealthSnapshot := mkSnapshot {
  hs_target : string;
  hs_state : HealthState;
  hs_observed_at : DateTime;
  hs_ttl : Duration;
  hs_detail : option string;
}.
Definition HealthSnapshot_new (target : string) (state : HealthState) (observed_at : DateTime)
    (ttl : Duration) : HealthSnapshot :=
  mkSnapshot target state observed_at ttl None.
Definition HealthSnapshot_with_detail (detail : string) (self : HealthSnapshot) : HealthSnapshot :=
  mkSnapshot (hs_target self) (hs_state self) (hs_observed_at self) (hs_ttl self) (Some detail).
Definition snapshot_is_stale (self : HealthSnapshot) (now : DateTime) : bool :=
  bool_decide (hs_ttl self < datetime_sub now (hs_observed_at self)).
Definition effective_state (self : HealthSnapshot) (now : DateTime) : HealthState :=
  if snapshot_is_stale self now then HUnknown else hs_state self.

(* ------------------------------------------------------------------ *)
(** * Usage accounting *)

Record UsageRecord := {
  ur_application_id : ApplicationId;
  ur_environment_id : EnvironmentId;
  ur_period_start : DateTime;
  ur_period_end : DateTime;
  ur_cpu_millicore_seconds : Z;
  ur_memory_mb_seconds : Z;
  ur_build_seconds : Z;
  ur_requests : Z;
  ur_egress_bytes : Z;
}.
Record UsageTotals := mkTotals {
  cpu_millicore_seconds : Z;
  memory_mb_seconds : Z;
  build_seconds : Z;
  requests : Z;
  egress_bytes : Z;
}.
Definition UsageLedger : Type := list UsageRecord.
Definition UsageLedger_record (record : UsageRecord) (self : UsageLedger) : UsageLedger :=
  self ++ [record].
Definition usage_for_application (a : ApplicationId) (self : UsageLedger) : list UsageRecord :=
  List.filter (λ r, bool_decide (ur_application_id r = a)) self.

Section Totals.
Context `{BuildProfile}.
(** One round of the loop of [totals]: five [+=] on [u64] fields. *)
Definition totals_step (t : UsageTotals) (r : UsageRecord) : outcome UsageTotals :=
  cpu ← add_unsigned u64_max (cpu_millicore_seconds t) (ur_cpu_millicore_seconds r);
  mem ← add_unsigned u64_max (memory_mb_seconds t) (ur_memory_mb_seconds r);
  bld ← add_unsigned u64_max (build_seconds t) (ur_build_seconds r);
  req ← add_unsigned u64_max (requests t) (ur_requests r);
  egr ← add_unsigned u64_max (egress_bytes t) (ur_egress_bytes r);
  Done (mkTotals cpu mem bld req egr).
Fixpoint totals_loop (t : UsageTotals) (l : list UsageRecord) : outcome UsageTotals :=
  match l with
  | [] => Done t
  | r :: l' => t' ← totals_step t r; totals_loop t' l'
  end.
Definition totals (self : UsageLedger) (a : ApplicationId) : outcome UsageTotals :=
  totals_loop (mkTotals 0 0 0 0 0) (usage_for_application a self).
End Totals.

(* ------------------------------------------------------------------ *)
(** * The event store numbers, keeps and redacts *)

(** The log after a history of appends. *)
Definition log_of (history : list (EventDraft * list string)) : list PlatformEvent :=
  foldl (λ log '(draft, secrets), (EventLog_append draft secrets log).1) [] history.

(** The free-text fields of a stored event. *)
Definition event_texts (e : PlatformEvent) : list string :=
  option_list (pe_before e) ++ option_list (pe_after e) ++
  match pe_result e with ErFailed reason => [reason] | _ => [] end.

(** What an event keeps of its draft. *)
Definition keeps_draft (d : EventDraft) (e : PlatformEvent) : Prop :=
  pe_at e = ed_at d ∧ pe_actor e = ed_actor d ∧ pe_correlation e = ed_correlation d ∧
  pe_action e = ed_action d ∧ pe_resource e = ed_resource d ∧
  is_failure (pe_result e) = is_failure (ed_result d) ∧
  (is_failure (ed_result d) = false → pe_result e = ed_result d).

Lemma log_of_snoc history d secrets :
  log_of (history ++ [(d, secrets)]) =
  log_of history ++ [(EventLog_append d secrets (log_of history)).2].
Proof. unfold log_of. by rewrite foldl_app. Qed.
Lemma log_of_length history : length (log_of history) = length history.
Proof.
  induction history as [|[d s] history IH] using rev_ind; [done|].
  rewrite log_of_snoc, !length_app, IH. done.
Qed.
Lemma append_hides d secrets log s t :
  s ∈ secrets → apart s redacted_marker →
  t ∈ event_texts (EventLog_append d secrets log).2 → str_contains s t = false.
Proof.
  intros Hs Hap. unfold event_texts. simpl. rewrite !elem_of_app.
  destruct (ed_before d), (ed_after d), (ed_result d); simpl;
    rewrite ?list_elem_of_singleton, ?elem_of_nil;
    intros Ht; destruct_or?; subst; try done; by apply redact_hides.
Qed.

(** Every event of the log is numbered by its position, carries the
    attribution, action, resource and outcome of the draft it was made from, in
    the order of the appends, and shows in none of its free-text fields a secret
    it was appended with (of those apart from the marker). *)
Theorem event_log_sound history i d secrets :
  history !! i = Some (d, secrets) →
  ∃ e, log_of history !! i = Some e ∧ pe_sequence e = Z.of_nat i + 1 ∧ keeps_draft d e ∧
    ∀ s t, s ∈ secrets → apart s redacted_marker →
      t ∈ event_texts e → str_contains s t = false.
Proof.
  induction history as [|[d' s'] history IH] using rev_ind; [done|].
  rewrite log_of_snoc. destruct (decide (i < length history)%nat) as [Hi|Hi].
  - rewrite lookup_app_l by done. intros (e & He & Hrest)%IH. exists e. split; [|done].
    rewrite lookup_app_l by (by rewrite log_of_length). done.
  - rewrite lookup_app_r by lia. intros H. apply list_lookup_singleton_Some in H as [Hz Heq].
    simplify_eq. assert (i = length history) as -> by lia. eexists. split.
    { rewrite lookup_app_r, log_of_length, Nat.sub_diag by (rewrite log_of_length; lia). done. }
    split; [by simpl; rewrite log_of_length|]. split.
    + repeat split; simpl; by destruct (ed_result d).
    + intros s t ???. by eapply append_hides.
Qed.

(* ------------------------------------------------------------------ *)
(** * Usage totals are sums *)

Definition sum_of (f : UsageRecord → Z) (l : list UsageRecord) : Z :=
  foldr (λ r acc, f r + acc) 0 l.
Definition fields_ok (P : Z → Prop) (r : UsageRecord) : Prop :=
  P (ur_cpu_millicore_seconds r) ∧ P (ur_memory_mb_seconds r) ∧ P (ur_build_seconds r) ∧
  P (ur_requests r) ∧ P (ur_egress_bytes r).
Definition totals_ok (P : Z → Prop) (t : UsageTotals) : Prop :=
  P (cpu_millicore_seconds t) ∧ P (memory_mb_seconds t) ∧ P (build_seconds t) ∧
  P (requests t) ∧ P (egress_bytes t).
Definition map_totals (f : Z → Z) (t : UsageTotals) : UsageTotals :=
  mkTotals (f (cpu_millicore_seconds t)) (f (memory_mb_seconds t)) (f (build_seconds t))
    (f (requests t)) (f (egress_bytes t)).
Definition plus_sums (t : UsageTotals) (l : list UsageRecord) : UsageTotals :=
  mkTotals (cpu_millicore_seconds t + sum_of ur_cpu_millicore_seconds l)
    (memory_mb_seconds t + sum_of ur_memory_mb_seconds l)
    (build_seconds t + sum_of ur_build_seconds l)
    (requests t + sum_of ur_requests l) (egress_bytes t + sum_of ur_egress_bytes l).
Definition is_u64 (z : Z) : Prop := 0 ≤ z ≤ u64_max.
#[global] Instance totals_ok_dec P `{∀ z, Decision (P z)} t : Decision (totals_ok P t).
Proof. unfold totals_ok. apply _. Defined.

(** The reference: exact sums; a sum that does not fit a [u64] panics in a
    checked build and is reduced in a release build. *)
Definition totals_ref `{BuildProfile} (t : UsageTotals) (l : list UsageRecord) :
    outcome UsageTotals :=
  let exact := plus_sums t l in
  if decide (totals_ok (λ z, z ≤ u64_max) exact) then Done exact
  else if overflow_checks then Panic "attempt to add with overflow"
  else Done (map_totals wrap_u64 exact).

Section TotalsFacts.
Context `{BuildProfile}.

Lemma sum_nonneg f l : Forall (λ r, 0 ≤ f r) l → 0 ≤ sum_of f l.
Proof. induction 1; simpl; lia. Qed.
Lemma sums_nonneg l : Forall (fields_ok is_u64) l →
  0 ≤ sum_of ur_cpu_millicore_seconds l ∧ 0 ≤ sum_of ur_memory_mb_seconds l ∧
  0 ≤ sum_of ur_build_seconds l ∧ 0 ≤ sum_of ur_requests l ∧ 0 ≤ sum_of ur_egress_bytes l.
Proof.
  intros Hl. repeat split; apply sum_nonneg; eapply Forall_impl; try done;
    intros r Hr; unfold fields_ok, is_u64 in Hr; simpl; lia.
Qed.
Lemma wrap_id z : is_u64 z → wrap_u64 z = z.
Proof. unfold is_u64, wrap_u64, u64_max. intros. apply Z.mod_small. lia. Qed.
Lemma wrap_range z : is_u64 (wrap_u64 z).
Proof. unfold is_u64, wrap_u64. pose proof (Z.mod_pos_bound z (u64_max + 1) eq_refl). lia. Qed.
Lemma wrap_add a b : wrap_u64 (wrap_u64 a + b) = wrap_u64 (a + b).
Proof. apply Z.add_mod_idemp_l. done. Qed.
Lemma add_wraps a b : overflow_checks = false → is_u64 a → is_u64 b →
  add_unsigned u64_max a b = Done (wrap_u64 (a + b)).
Proof.
  intros Hc Ha Hb. unfold add_unsigned. rewrite Hc. case_decide; [|done].
  by rewrite wrap_id by (unfold is_u64 in *; lia).
Qed.

Lemma step_wraps t r : overflow_checks = false → totals_ok is_u64 t → fields_ok is_u64 r →
  totals_step t r = Done (map_totals wrap_u64 (plus_sums t [r])).
Proof.
  intros Hc (?&?&?&?&?) (?&?&?&?&?). unfold totals_step. unfold_monad.
  rewrite !add_wraps by done. unfold map_totals, plus_sums. simpl. by rewrite !Z.add_0_r.
Qed.
Lemma loop_wraps t l : overflow_checks = false → totals_ok is_u64 t →
  Forall (fields_ok is_u64) l →
  totals_loop t l = Done (map_totals wrap_u64 (plus_sums t l)).
Proof.
  intros Hc Ht Hl. revert t Ht. induction Hl as [|r l Hr Hl IH]; intros t Ht; simpl.
  - destruct t, Ht as (?&?&?&?&?). unfold map_totals, plus_sums. simpl in *.
    by rewrite !Z.add_0_r, !wrap_id.
  - rewrite step_wraps by done. unfold mbind, outcome_bind. rewrite IH.
    + unfold map_totals, plus_sums. simpl. rewrite !wrap_add, !Z.add_0_r, !Z.add_assoc. done.
    + unfold map_totals, totals_ok. simpl. auto using wrap_range.
Qed.

Lemma step_checked t r : overflow_checks = true →
  totals_step t r = if decide (totals_ok (λ z, z ≤ u64_max) (plus_sums t [r]))
                    then Done (plus_sums t [r]) else Panic "attempt to add with overflow".
Proof.
  intros Hc. unfold totals_step, add_unsigned. unfold_monad. rewrite Hc.
  unfold totals_ok, plus_sums. simpl. rewrite !Z.add_0_r.
  repeat (case_decide; try tauto).
Qed.
Lemma loop_checked t l : overflow_checks = true → totals_ok is_u64 t →
  Forall (fields_ok is_u64) l →
  totals_loop t l = if decide (totals_ok (λ z, z ≤ u64_max) (plus_sums t l))
                    then Done (plus_sums t l) else Panic "attempt to add with overflow".
Proof.
  intros Hc Ht Hl. revert t Ht. induction Hl as [|r l Hr Hl IH]; intros t Ht.
  - destruct t, Ht as (?&?&?&?&?). unfold plus_sums, totals_ok, is_u64 in *. simpl in *.
    rewrite !Z.add_0_r, decide_True by lia. done.
  - assert (plus_sums t (r :: l) = plus_sums (plus_sums t [r]) l) as ->.
    { unfold plus_sums. simpl. rewrite !Z.add_0_r, !Z.add_assoc. done. }
    simpl totals_loop. rewrite step_checked by done. destruct Hr as (?&?&?&?&?), Ht as (?&?&?&?&?).
    pose proof (sums_nonneg _ Hl) as (?&?&?&?&?). case_decide as Hd.
    + unfold mbind, outcome_bind. apply IH. unfold totals_ok, plus_sums, is_u64 in *.
      simpl in *. lia.
    + simpl. rewrite decide_False; [done|]. intros Hn. apply Hd.
      unfold totals_ok, plus_sums, is_u64 in *. simpl in *. lia.
Qed.

(** The metering loop equals the reference on [u64] records: it returns
    the exact sum of every field of the application's records when all of them
    fit, and otherwise panics in a checked build and returns the sums modulo
    [2^64] in a release build. *)
Theorem totals_equals_sums ledger a :
  Forall (fields_ok is_u64) ledger →
  totals ledger a = totals_ref (mkTotals 0 0 0 0 0) (usage_for_application a ledger).
Proof.
  intros Hl. unfold totals, totals_ref.
  assert (Forall (fields_ok is_u64) (usage_for_application a ledger)) as Hf.
  { by apply Forall_lfilter. }
  assert (totals_ok is_u64 (mkTotals 0 0 0 0 0)) as H0 by (unfold totals_ok, is_u64; simpl; done).
  destruct overflow_checks eqn:Hc; [by apply loop_checked|].
  rewrite loop_wraps by done. case_decide as Hd; [|done].
  pose proof (sums_nonneg _ Hf) as (?&?&?&?&?). destruct Hd as (?&?&?&?&?).
  unfold map_totals, plus_sums in *. simpl in *.
  rewrite !wrap_id by (unfold is_u64; lia). done.
Qed.
End TotalsFacts.

(* ------------------------------------------------------------------ *)
(** * Examples *)

Module EventExamples.
Import RefInstances.
Definition draft : EventDraft :=
  between "key p@ss" "key rotated"
    (EventDraft_new 7 (ActHuman "ana") (Correlation_new "t1") EaSecretRotated
       (ErFailed "p@ss rejected")).
Lemma event_log_sound_witness :
  [(draft, ["p@ss"])] !! 0%nat = Some (draft, ["p@ss"]) ∧
  ∃ e, log_of [(draft, ["p@ss"])] !! 0%nat = Some e ∧ pe_sequence e = 1 ∧ keeps_draft draft e.
Proof.
  split; [reflexivity|].
  destruct (event_log_sound [(draft, ["p@ss"])] 0 draft ["p@ss"] eq_refl) as (e & He & Hs & Hk & _).
  by exists e.
Defined.

Definition usage (n : N) (Hn : (n <? 2 ^ 128)%N = true) (cpu : Z) : UsageRecord :=
  {| ur_application_id := mkId (mkUuid n Hn); ur_environment_id := mkId (uuid 9);
     ur_period_start := 0; ur_period_end := 1; ur_cpu_millicore_seconds := cpu;
     ur_memory_mb_seconds := 2; ur_build_seconds := 0; ur_requests := 1; ur_egress_bytes := 4 |}.
Definition ledger : UsageLedger :=
  [usage 1 eq_refl 5; usage 2 eq_refl 100; usage 1 eq_refl u64_max].
Lemma totals_equals_sums_witness :
  Forall (fields_ok is_u64) ledger ∧
  totals ledger (mkId (uuid 1)) = Panic "attempt to add with overflow" ∧
  totals ledger (mkId (uuid 2)) = Done (mkTotals 100 2 0 1 4).
Proof.
  assert (Forall (fields_ok is_u64) ledger) as H.
  { repeat constructor; unfold is_u64, u64_max; simpl; lia. }
  split; [exact H|]. rewrite !(totals_equals_sums ledger _ H). split; reflexivity.
Defined.
End EventExamples.
