(* ===== verification/AuditChain.v ===== *)
(** The hash-chained audit log (observability.rs, second part). *)

From stdpp Require Import base option list strings pretty.
From Stdlib Require Import ZArith Lia Ascii.
From S2P Require Import Prelude External Errors Ids Resource.
Local Open Scope Z_scope.

(* ------------------------------------------------------------------ *)
(** * Records and digests *)

Record AuditRecord := {
  ar_sequence : Z;
  ar_at : DateTime;
  ar_actor : string;
  ar_action : string;
  ar_target : string;
  ar_detail : string;
  ar_prev_hash : string;
  ar_hash : string;
}.
#[global] Instance AuditRecord_eq_dec : EqDecision AuditRecord.
Proof. solve_decision. Defined.

(** The byte [0x1f] that follows each part in the first digest. *)
Definition unit_separator : ascii := ascii_of_nat 31.

(** Two FNV-1a states: the first runs over the parts in order, with a separator
    after each; the second starts from it and runs over the parts in reverse. *)
Definition audit_digest (parts : list string) : string :=
  let hash := foldl (λ h part, fnv_step (foldl fnv_step h (chars part)) unit_separator)
                0xcbf29ce484222325 parts in
  let second := foldl (λ h part, foldl fnv_step h (chars part))
                  (Z.lxor hash 0x51ed270b07a5ac65) (reverse parts) in
  hex_fixed 16 hash +:+ hex_fixed 16 second.

Section AuditLog.
Context `{ChronoText}.

Definition audit_parts (self : AuditRecord) : list string :=
  [pretty (ar_sequence self); to_rfc3339 (ar_at self); ar_actor self; ar_action self;
   ar_target self; ar_detail self; ar_prev_hash self].
Definition compute_hash (self : AuditRecord) : string := audit_digest (audit_parts self).
Definition AuditRecord_to_event_detail (self : AuditRecord) : string :=
  "audit a" +:+ pretty (ar_sequence self) +:+ " " +:+ ar_action self +:+ " " +:+ ar_target self
  +:+ " -> " +:+ ar_detail self +:+ " by " +:+ ar_actor self +:+ " (" +:+ ar_actor self +:+ ")".

Definition AuditLog : Type := list AuditRecord.
Definition GENESIS : string :=
  "0000000000000000000000000000000000000000000000000000000000000000".

Definition ar_set_hash (h : string) (r : AuditRecord) : AuditRecord :=
  {| ar_sequence := ar_sequence r; ar_at := ar_at r; ar_actor := ar_actor r;
     ar_action := ar_action r; ar_target := ar_target r; ar_detail := ar_detail r;
     ar_prev_hash := ar_prev_hash r; ar_hash := h |}.

Definition AuditLog_append (at_ : DateTime) (actor action target detail : string)
    (secrets : list string) (self : AuditLog) : AuditLog * AuditRecord :=
  let sequence := Z.of_nat (length self) + 1 in
  let prev_hash := match last self with Some r => ar_hash r | None => GENESIS end in
  let record := {| ar_sequence := sequence; ar_at := at_; ar_actor := actor; ar_action := action;
                   ar_target := target; ar_detail := redact_reason detail secrets;
                   ar_prev_hash := prev_hash; ar_hash := "" |} in
  let record := ar_set_hash (compute_hash record) record in
  (self ++ [record], record).

(** [AuditLog::restore] keeps the stored hashes. *)
Definition AuditLog_restore (records : list AuditRecord) : AuditLog := records.

(** The loop of [verify], at [index] with the hash the next record must link to. *)
Fixpoint verify_loop (index : Z) (expected_prev : string) (records : list AuditRecord) :
    result CoreError unit :=
  match records with
  | [] => Ok tt
  | record :: rest =>
      if decide (ar_sequence record ≠ index + 1) then
        Err (AuditIntegrity ("sequence gap at index " +:+ pretty index +:+ ": "
               +:+ pretty (ar_sequence record)))
      else if decide (ar_prev_hash record ≠ expected_prev) then
        Err (AuditIntegrity ("chain break at record " +:+ pretty (ar_sequence record)))
      else if decide (ar_hash record ≠ compute_hash record) then
        Err (AuditIntegrity ("digest mismatch at record " +:+ pretty (ar_sequence record)))
      else verify_loop (index + 1) (ar_hash record) rest
  end.
Definition AuditLog_verify (self : AuditLog) : result CoreError unit :=
  verify_loop 0 GENESIS self.

Definition AuditLog_to_event_detail (self : AuditLog) : string :=
  str_join (String (ascii_of_nat 10) "")
    (map (λ r, "a" +:+ pretty (ar_sequence r) +:+ " " +:+ ar_action r +:+ " " +:+ ar_target r
               +:+ " -> " +:+ ar_detail r +:+ " by " +:+ ar_actor r) self).
End AuditLog.

(* ------------------------------------------------------------------ *)
(** * Intact chains *)

Section Chains.
Context `{ChronoText}.

(** The hash the record after [l] must link to. *)
Definition tip (l : list AuditRecord) : string :=
  match last l with Some r => ar_hash r | None => GENESIS end.

(** A chain grows by records that are numbered next, link to the tip and carry
    the digest of their content. *)
Inductive chain : list AuditRecord → Prop :=
| chain_nil : chain []
| chain_snoc l r :
    chain l → ar_sequence r = Z.of_nat (length l) + 1 → ar_prev_hash r = tip l →
    ar_hash r = compute_hash r → chain (l ++ [r]).

Lemma tip_snoc l r : tip (l ++ [r]) = ar_hash r.
Proof. unfold tip. by rewrite last_snoc. Qed.
Lemma compute_hash_set h r : compute_hash (ar_set_hash h r) = compute_hash r.
Proof. done. Qed.

Lemma append_chain at_ actor action target detail secrets log :
  chain log → chain (AuditLog_append at_ actor action target detail secrets log).1.
Proof. intros. by apply chain_snoc. Qed.

(** The verdict on one record, given the log before it. *)
Definition link_ok (l : list AuditRecord) (r : AuditRecord) : Prop :=
  ar_sequence r = Z.of_nat (length l) + 1 ∧ ar_prev_hash r = tip l ∧ ar_hash r = compute_hash r.
#[global] Instance link_ok_dec l r : Decision (link_ok l r).
Proof. unfold link_ok. apply _. Defined.

Lemma verify_loop_cons l r rest :
  link_ok l r →
  verify_loop (Z.of_nat (length l)) (tip l) (r :: rest) =
  verify_loop (Z.of_nat (length (l ++ [r]))) (tip (l ++ [r])) rest.
Proof.
  intros (Hs & Hp & Hh). simpl. rewrite !decide_False by congruence.
  rewrite tip_snoc. f_equal. rewrite length_app. simpl. lia.
Qed.
Lemma verify_loop_bad l r rest :
  ¬ link_ok l r →
  ∃ m, verify_loop (Z.of_nat (length l)) (tip l) (r :: rest) = Err (AuditIntegrity m).
Proof.
  intros Hn. simpl. repeat (case_decide; [by eexists|]). by destruct Hn.
Qed.

Lemma verify_loop_spec pre l :
  chain pre →
  (verify_loop (Z.of_nat (length pre)) (tip pre) l = Ok tt ∧ chain (pre ++ l)) ∨
  ∃ good r rest m, l = good ++ r :: rest ∧ chain (pre ++ good) ∧ ¬ link_ok (pre ++ good) r ∧
    verify_loop (Z.of_nat (length pre)) (tip pre) l = Err (AuditIntegrity m).
Proof.
  revert pre. induction l as [|r l IH]; intros pre Hpre.
  { left. by rewrite app_nil_r. }
  destruct (decide (link_ok pre r)) as [Hok|Hbad].
  - rewrite verify_loop_cons by done. destruct (IH (pre ++ [r])) as [[Hv Hc]|Hn].
    + destruct Hok as (?&?&?). by apply chain_snoc.
    + left. by rewrite <- app_assoc in Hc.
    + right. destruct Hn as (good & r' & rest & m & -> & Hc & Hn & Hv).
      exists (r :: good), r', rest, m. by rewrite <- app_assoc in Hc, Hn.
  - right. destruct (verify_loop_bad pre r l Hbad) as [m Hm].
    exists [], r, l, m. rewrite app_nil_r. done.
Qed.

Lemma chain_snoc_inv l r : chain (l ++ [r]) → chain l ∧ link_ok l r.
Proof.
  intros Hc. remember (l ++ [r]) as k eqn:E. destruct Hc as [|l' r' Hc Hs Hp Hh].
  - by destruct l.
  - apply app_inj_tail in E as [-> ->]. done.
Qed.
Lemma chain_prefix l k : chain (l ++ k) → chain l.
Proof.
  induction k as [|r k IH] using rev_ind; [by rewrite app_nil_r|].
  rewrite app_assoc. intros [Hc _]%chain_snoc_inv. auto.
Qed.
Lemma chain_next l r rest : chain (l ++ r :: rest) → link_ok l r.
Proof. intros Hc. apply (chain_snoc_inv l r), (chain_prefix _ rest). by rewrite <- app_assoc. Qed.

Lemma verify_cases log :
  (AuditLog_verify log = Ok tt ∧ chain log) ∨
  ∃ good r rest m, log = good ++ r :: rest ∧ chain good ∧ ¬ link_ok good r ∧
    AuditLog_verify log = Err (AuditIntegrity m).
Proof. exact (verify_loop_spec [] log chain_nil). Qed.
Lemma verify_iff log : AuditLog_verify log = Ok tt ↔ chain log.
Proof.
  destruct (verify_cases log) as [[Hv Hc]|(good & r & rest & m & -> & _ & Hn & Hv)]; [done|].
  split; [congruence|]. by intros ?%chain_next.
Qed.

(** Verification accepts exactly the intact chains.  On any other log
    it fails with an integrity error, and the log splits at the first record
    that is misnumbered, unlinked or does not match its digest.  Appending to an
    intact log keeps it intact, so a log built by appends always verifies. *)
Theorem verify_accepts_chains log :
  (AuditLog_verify log = Ok tt ↔ chain log) ∧
  (¬ chain log → ∃ good r rest m, log = good ++ r :: rest ∧ chain good ∧ ¬ link_ok good r ∧
     AuditLog_verify log = Err (AuditIntegrity m)) ∧
  (chain log → ∀ at_ actor action target detail secrets,
     AuditLog_verify (AuditLog_append at_ actor action target detail secrets log).1 = Ok tt).
Proof.
  split; [apply verify_iff|]. split.
  - intros Hn. by destruct (verify_cases log) as [[_ Hc]|Hbad].
  - intros. by apply verify_iff, append_chain.
Qed.

(** Two chains of one length that end in one hash are equal or collide. *)
Lemma chain_determined log1 log2 :
  chain log1 → chain log2 → length log1 = length log2 → tip log1 = tip log2 →
  log1 = log2 ∨
  ∃ i r1 r2, log1 !! i = Some r1 ∧ log2 !! i = Some r2 ∧ r1 ≠ r2 ∧
    compute_hash r1 = compute_hash r2.
Proof.
  revert log2. induction log1 as [|r1 l1 IH] using rev_ind; intros log2 H1 H2 Hlen Htip.
  { left. symmetry. by apply nil_length_inv. }
  destruct log2 as [|r2 l2 _] using rev_ind; [rewrite length_app in Hlen; simpl in *; lia|].
  rewrite !tip_snoc in Htip. rewrite !length_app in Hlen. simpl in Hlen.
  apply chain_snoc_inv in H1 as [H1 (_ & Hp1 & Hh1)], H2 as [H2 (_ & Hp2 & Hh2)].
  assert (length l1 = length l2) as Hl by lia.
  destruct (decide (r1 = r2)) as [->|Hne].
  - destruct (IH l2) as [->|(i & a & b & Ha & Hb & Hne & Hc)];
      [done|done|done|congruence|by left|].
    right. exists i, a, b. split_and!; [by apply lookup_app_l_Some..|done|done].
  - right. exists (length l1), r1, r2. split_and!; [|rewrite Hl| done|congruence];
      by rewrite lookup_app_r, Nat.sub_diag.
Qed.

(** C9: two logs of the same length that both verify and end in the same
    hash are equal, unless the digest collides: at some position both hold
    different records with the same digest.  So an edit, insertion or reordering
    that verification accepts under a known final hash needs a digest collision. *)
Theorem tampering_needs_collision log1 log2 :
  AuditLog_verify log1 = Ok tt → AuditLog_verify log2 = Ok tt →
  length log1 = length log2 → tip log1 = tip log2 →
  log1 = log2 ∨
  ∃ i r1 r2, log1 !! i = Some r1 ∧ log2 !! i = Some r2 ∧ r1 ≠ r2 ∧
    compute_hash r1 = compute_hash r2.
Proof. rewrite !verify_iff. apply chain_determined. Qed.

(* ------------------------------------------------------------------ *)
(** ** The digest does not fix the boundary between fields *)

(** A run of separators. *)
Definition seps (n : nat) : string := String.string_of_list_ascii (replicate n unit_separator).
Lemma chars_seps n : chars (seps n) = replicate n unit_separator.
Proof. apply String.list_ascii_of_string_of_list_ascii. Qed.

(** Both digests are folds over byte streams. *)
Definition stream1 (parts : list string) : list ascii :=
  parts ≫= λ p, chars p ++ [unit_separator].
Definition stream2 (parts : list string) : list ascii := reverse parts ≫= chars.
Lemma fold_stream1 h parts :
  foldl (λ h part, fnv_step (foldl fnv_step h (chars part)) unit_separator) h parts =
  foldl fnv_step h (stream1 parts).
Proof.
  revert h. induction parts as [|p parts IH]; intros h; [done|]. simpl.
  rewrite IH. unfold stream1. simpl. by rewrite !foldl_app.
Qed.
Lemma fold_stream2 h parts :
  foldl (λ h part, foldl fnv_step h (chars part)) h parts = foldl fnv_step h (parts ≫= chars).
Proof.
  revert h. induction parts as [|p parts IH]; intros h; [done|]. simpl.
  by rewrite IH, foldl_app.
Qed.
Lemma digest_of_streams p q :
  stream1 p = stream1 q → stream2 p = stream2 q → audit_digest p = audit_digest q.
Proof.
  intros H1 H2. unfold audit_digest, stream2 in *. by rewrite !fold_stream1, !fold_stream2, H1, H2.
Qed.
Lemma shift_separators pre post m n m' n' :
  (m + n = m' + n')%nat →
  audit_digest (pre ++ [seps m; seps n] ++ post) = audit_digest (pre ++ [seps m'; seps n'] ++ post).
Proof.
  intros E. apply digest_of_streams.
  - unfold stream1. rewrite !bind_app. do 2 f_equal. simpl. rewrite !chars_seps, !app_nil_r.
    change [unit_separator] with (replicate 1 unit_separator). rewrite <- !replicate_add.
    f_equal. lia.
  - unfold stream2. rewrite !reverse_app, !bind_app. do 2 f_equal. simpl.
    rewrite !chars_seps, !app_nil_r, <- !replicate_add. f_equal. lia.
Qed.

(** The record with another actor and action and the hash it had. *)
Definition edit_record (actor action : string) (r : AuditRecord) : AuditRecord :=
  {| ar_sequence := ar_sequence r; ar_at := ar_at r; ar_actor := actor; ar_action := action;
     ar_target := ar_target r; ar_detail := ar_detail r; ar_prev_hash := ar_prev_hash r;
     ar_hash := ar_hash r |}.

Lemma edit_links log r :
  link_ok log r → ar_actor r = seps 1 → ar_action r = seps 0 →
  link_ok log (edit_record (seps 0) (seps 1) r).
Proof.
  intros (Hs & Hp & Hh) Ha Hc. split_and!; [done|done|]. simpl. rewrite Hh.
  unfold compute_hash, audit_parts. simpl. rewrite Ha, Hc.
  apply (shift_separators [_; _] [_; _; _] 1 0 0 1). done.
Qed.

(** Not every edit breaks the chain.  After appending a record whose
    actor is one separator byte and whose action is empty, swapping the two
    fields in the stored record gives a different log that still verifies, with
    the same final hash. *)
Theorem some_edit_is_undetected log at_ target detail secrets :
  chain log →
  let r := (AuditLog_append at_ (seps 1) (seps 0) target detail secrets log).2 in
  let r' := edit_record (seps 0) (seps 1) r in
  AuditLog_verify (log ++ [r]) = Ok tt ∧ log ++ [r'] ≠ log ++ [r] ∧
  AuditLog_verify (AuditLog_restore (log ++ [r'])) = Ok tt ∧ tip (log ++ [r']) = tip (log ++ [r]).
Proof.
  intros Hc. assert (chain (log ++ [(AuditLog_append at_ (seps 1) (seps 0) target detail
    secrets log).2])) as Hr by by apply append_chain.
  assert (ar_actor (AuditLog_append at_ (seps 1) (seps 0) target detail secrets log).2 = seps 1)
    as Ha by done.
  assert (ar_action (AuditLog_append at_ (seps 1) (seps 0) target detail secrets log).2 = seps 0)
    as Hact by done.
  generalize dependent (AuditLog_append at_ (seps 1) (seps 0) target detail secrets log).2.
  intros r Hr Ha Hact r0 r'. subst r0. split; [by apply verify_iff|].
  apply chain_snoc_inv in Hr as [_ Hl]. split.
  { intros E. apply app_inv_head in E. apply (f_equal (map ar_actor)) in E. simpl in E.
    rewrite Ha in E. done. }
  split; [|by rewrite !tip_snoc].
  apply verify_iff. destruct (edit_links log r Hl Ha Hact) as (?&?&?). by apply chain_snoc.
Qed.
End Chains.

(* ------------------------------------------------------------------ *)
(** * Examples *)

Module AuditExamples.
Import RefInstances.
Definition log1 : AuditLog := (AuditLog_append 5 "ops" "rotate" "db" "key k1" ["k1"] []).1.
Definition log2 : AuditLog := (AuditLog_append 9 "ci" "deploy" "web" "ok" [] log1).1.
Lemma log2_chain : chain log2.
Proof. apply append_chain, append_chain, chain_nil. Qed.

Lemma verify_accepts_chains_witness :
  chain log2 ∧ AuditLog_verify log2 = Ok tt ∧
  AuditLog_verify (AuditLog_append 11 "ops" "retire" "web" "" [] log2).1 = Ok tt.
Proof.
  split; [exact log2_chain|]. destruct (verify_accepts_chains log2) as (Hiff & _ & Happ).
  split; [apply Hiff, log2_chain|apply Happ, log2_chain].
Defined.

(** The digests of two different records collide. *)
Definition odd_record : AuditRecord := (AuditLog_append 7 (seps 1) (seps 0) "db" "" [] log1).2.
Definition odd_log : AuditLog := log1 ++ [odd_record].
Definition edited_log : AuditLog := log1 ++ [edit_record (seps 0) (seps 1) odd_record].
Lemma tampering_needs_collision_witness :
  odd_log ≠ edited_log ∧
  ∃ i r1 r2, odd_log !! i = Some r1 ∧ edited_log !! i = Some r2 ∧ r1 ≠ r2 ∧
     compute_hash r1 = compute_hash r2.
Proof.
  assert (odd_log ≠ edited_log) as Hne.
  { intros E. apply (f_equal (λ l, ar_actor <$> last l)) in E. vm_compute in E. discriminate E. }
  split; [exact Hne|].
  destruct (tampering_needs_collision odd_log edited_log) as [E|Hc];
    [vm_compute; reflexivity..|destruct (Hne E)|exact Hc].
Defined.

(** A changed detail under the old hash is detected. *)
Example changed_detail_is_detected :
  match AuditLog_verify (map (λ r, {| ar_sequence := ar_sequence r; ar_at := ar_at r;
    ar_actor := ar_actor r; ar_action := ar_action r; ar_target := ar_target r;
    ar_detail := "forged"; ar_prev_hash := ar_prev_hash r; ar_hash := ar_hash r |}) log1) with
  | Err (AuditIntegrity m) => bool_decide (m = "digest mismatch at record 1")
  | _ => false
  end = true.
Proof. vm_compute. reflexivity. Qed.

Lemma some_edit_is_undetected_witness :
  chain log1 ∧
  (let r := (AuditLog_append 7 (seps 1) (seps 0) "db" "" [] log1).2 in
   AuditLog_verify (AuditLog_restore (log1 ++ [edit_record (seps 0) (seps 1) r])) = Ok tt).
Proof.
  assert (chain log1) as Hc by apply append_chain, chain_nil.
  split; [exact Hc|]. apply (some_edit_is_undetected log1 7 "db" "" [] Hc).
Defined.
End AuditExamples.
