(* ===== verification/Verifier.v ===== *)
(** Verification evidence, its retention and the independent verifier
    (observability.rs, third part). *)

From stdpp Require Import base option list strings pretty gmap relations.
From Stdlib Require Import ZArith Lia.
From S2P Require Import Prelude External Errors Ids Resource Events.
Local Open Scope Z_scope.

(* ------------------------------------------------------------------ *)
(** * Stages and evidence *)

Inductive VerifierStage :=
| VsDeterministic | VsBuildTest | VsHealth | VsSchema | VsBrowser | VsAdvisory | VsHuman.
#[global] Instance VerifierStage_eq_dec : EqDecision VerifierStage.
Proof. solve_decision. Defined.

(** The derived order is the order of declaration. *)
Definition stage_rank (s : VerifierStage) : Z :=
  match s with
  | VsDeterministic => 0 | VsBuildTest => 1 | VsHealth => 2 | VsSchema => 3 | VsBrowser => 4
  | VsAdvisory => 5 | VsHuman => 6
  end.
Definition all_stages : list VerifierStage :=
  [VsDeterministic; VsBuildTest; VsHealth; VsSchema; VsBrowser; VsAdvisory; VsHuman].
#[global] Program Instance VerifierStage_countable : Countable VerifierStage := {
  encode s := Pos.of_succ_nat (Z.to_nat (stage_rank s));
  decode p := all_stages !! pred (Pos.to_nat p);
}.
Next Obligation. by intros []. Qed.

Definition is_blocking (s : VerifierStage) : bool := bool_decide (s ≠ VsAdvisory).
Definition stage_canonical_name (s : VerifierStage) : string :=
  match s with
  | VsDeterministic => "deterministic" | VsBuildTest => "build_test" | VsHealth => "health"
  | VsSchema => "schema" | VsBrowser => "browser" | VsAdvisory => "advisory"
  | VsHuman => "human"
  end.

Record VerificationEvidence := mkEvidence {
  ve_id : string;
  ve_stage : VerifierStage;
  ve_check : string;
  ve_passed : bool;
  ve_summary : string;
  ve_resource : option EventResource;
  ve_recovery : option string;
  ve_at : DateTime;
}.
Definition VerificationEvidence_new (id : string) (stage : VerifierStage) (check : string)
    (passed : bool) (summary : string) (secrets : list string) (at_ : DateTime) :
    VerificationEvidence :=
  mkEvidence id stage check passed (redact_reason summary secrets) None None at_.
Definition evidence_on_resource (resource : EventResource) (self : VerificationEvidence) :=
  mkEvidence (ve_id self) (ve_stage self) (ve_check self) (ve_passed self) (ve_summary self)
    (Some resource) (ve_recovery self) (ve_at self).
Definition evidence_with_recovery (recovery : string) (self : VerificationEvidence) :=
  mkEvidence (ve_id self) (ve_stage self) (ve_check self) (ve_passed self) (ve_summary self)
    (ve_resource self) (Some recovery) (ve_at self).

Record FailureExplanation := {
  fe_stage : VerifierStage;
  fe_check : string;
  fe_what : string;
  fe_resource : option string;
  fe_recovery : string;
}.
Definition explanation (self : VerificationEvidence) : FailureExplanation :=
  {| fe_stage := ve_stage self; fe_check := ve_check self; fe_what := ve_summary self;
     fe_resource := (λ r, er_id r +:+ " (" +:+ er_kind r +:+ ")") <$> ve_resource self;
     fe_recovery := default
       "no automated recovery path recorded; escalate to the owning team" (ve_recovery self) |}.
Definition VerificationEvidence_to_event_detail (self : VerificationEvidence) : string :=
  "evidence " +:+ ve_id self +:+ " [" +:+ stage_canonical_name (ve_stage self) +:+ "] "
  +:+ (if ve_passed self then "PASS" else "FAIL") +:+ " " +:+ ve_check self +:+ ": "
  +:+ ve_summary self.
Definition FailureExplanation_to_event_detail (self : FailureExplanation) : string :=
  let resource := match fe_resource self with Some r => " resource: " +:+ r | None => "" end in
  "[" +:+ stage_canonical_name (fe_stage self) +:+ "] " +:+ fe_check self +:+ " failed: "
  +:+ fe_what self +:+ resource +:+ "; recovery: " +:+ fe_recovery self.

(* ------------------------------------------------------------------ *)
(** * Retention *)

Record RetentionPolicy := { max_age : Duration; keep_latest : nat }.
Definition RetentionPolicy_default : RetentionPolicy :=
  {| max_age := 90 * 86400 * nanos_per_sec; keep_latest := 10 |}.

Definition expired (policy : RetentionPolicy) (now : DateTime) (r : VerificationEvidence) : bool :=
  bool_decide (max_age policy < datetime_sub now (ve_at r)).

(** The surviving records and the identifiers removed.  The records are visited
    with their index. *)
Definition prune (self : RetentionPolicy) (evidence : list VerificationEvidence)
    (now : DateTime) : list VerificationEvidence * list string :=
  if decide (length evidence ≤ keep_latest self)%nat then (evidence, [])
  else
    let protected_start := (length evidence - keep_latest self)%nat in
    let drop p := bool_decide (p.1 < protected_start)%nat && expired self now p.2 in
    let visited := imap pair evidence in
    ((List.filter (λ p, negb (drop p)) visited).*2,
     map (λ p, ve_id p.2) (List.filter drop visited)).

Record EvidenceStore := { es_evidence : list VerificationEvidence; es_policy : RetentionPolicy }.
Definition EvidenceStore_new (policy : RetentionPolicy) : EvidenceStore :=
  {| es_evidence := []; es_policy := policy |}.
Definition EvidenceStore_append (evidence : VerificationEvidence) (self : EvidenceStore) :=
  {| es_evidence := es_evidence self ++ [evidence]; es_policy := es_policy self |}.
Definition for_stage (stage : VerifierStage) (self : EvidenceStore) : list VerificationEvidence :=
  List.filter (λ e, bool_decide (ve_stage e = stage)) (es_evidence self).

Definition blocking_failure (e : VerificationEvidence) : bool :=
  negb (ve_passed e) && is_blocking (ve_stage e).
Definition retain (now : DateTime) (self : EvidenceStore) : EvidenceStore * list string :=
  let has_failures := existsb blocking_failure (es_evidence self) in
  if negb has_failures then
    let '(kept, removed) := prune (es_policy self) (es_evidence self) now in
    ({| es_evidence := kept; es_policy := es_policy self |}, removed)
  else
    let drop r := expired (es_policy self) now r && negb (blocking_failure r) in
    ({| es_evidence := List.filter (λ r, negb (drop r)) (es_evidence self);
        es_policy := es_policy self |},
     map ve_id (List.filter drop (es_evidence self))).

(* ------------------------------------------------------------------ *)
(** * The verifier *)

Record StageResult := {
  sr_stage : VerifierStage;
  sr_applicable : bool;
  sr_evidence : list VerificationEvidence;
}.
Definition not_applicable (stage : VerifierStage) : StageResult :=
  {| sr_stage := stage; sr_applicable := false; sr_evidence := [] |}.
Definition StageResult_passed (stage : VerifierStage) (evidence : list VerificationEvidence) :=
  {| sr_stage := stage; sr_applicable := true; sr_evidence := evidence |}.
Definition StageResult_failed (stage : VerifierStage) (evidence : list VerificationEvidence) :=
  StageResult_passed stage evidence.
Definition is_passed (self : StageResult) : bool :=
  sr_applicable self && negb (is_nil (sr_evidence self)) && forallb ve_passed (sr_evidence self).
Definition is_failed (self : StageResult) : bool :=
  sr_applicable self && existsb (λ e, negb (ve_passed e)) (sr_evidence self).

Inductive VerificationVerdict :=
| VIncomplete (missing : list VerifierStage)
| VFailed (first_failure : VerifierStage)
| VPassed.
Definition verdict_is_success (v : VerificationVerdict) : bool :=
  match v with VPassed => true | _ => false end.

Record Verifier := mkVerifier {
  vf_stages : gmap VerifierStage StageResult;
  vf_agent_claim : option string;
  vf_disagreements : list string;
}.
Definition Verifier_new : Verifier := mkVerifier ∅ None [].
Definition record_agent_claim (claim : string) (self : Verifier) : Verifier :=
  mkVerifier (vf_stages self) (Some claim) (vf_disagreements self).
Definition push_disagreement (d : string) (self : Verifier) : Verifier :=
  mkVerifier (vf_stages self) (vf_agent_claim self) (vf_disagreements self ++ [d]).
Definition insert_stage (r : StageResult) (self : Verifier) : Verifier :=
  mkVerifier (<[sr_stage r := r]> (vf_stages self)) (vf_agent_claim self) (vf_disagreements self).

Definition add_stage (result : StageResult) : M Verifier CoreError unit :=
  self ← get;
  match vf_stages self !! sr_stage result with
  | Some existing =>
      if is_failed existing && is_passed result then
        modify (push_disagreement ("stage " +:+ stage_canonical_name (sr_stage result)
          +:+ " already failed; later pass ignored"))
      else if is_passed existing && is_failed result then
        modify (push_disagreement ("stage " +:+ stage_canonical_name (sr_stage result)
          +:+ " already passed; later failure recorded"));;
        modify (insert_stage result)
      else
        mthrow (Verification ("stage " +:+ stage_canonical_name (sr_stage result)
          +:+ " already recorded"))
  | None => modify (insert_stage result)
  end.

Definition for_stage_evidence (stage : VerifierStage) (self : Verifier) :=
  match vf_stages self !! stage with Some r => sr_evidence r | None => [] end.
(** [self.stages.values()]: in the order of the keys. *)
Definition stages (self : Verifier) : list StageResult :=
  omap (λ s, vf_stages self !! s) all_stages.

Definition missing_evidence (self : Verifier) : list VerifierStage :=
  List.filter (λ stage,
    match vf_stages self !! stage with
    | None => true
    | Some result => sr_applicable result && is_nil (sr_evidence result)
    end)
    [VsDeterministic; VsBuildTest; VsHealth; VsSchema; VsBrowser; VsHuman].

Definition verdict (self : Verifier) : VerificationVerdict :=
  let first_failure :=
    min_by (λ a b, bool_decide (stage_rank a ≤ stage_rank b))
      (map sr_stage (List.filter is_failed
         (List.filter (λ r, is_blocking (sr_stage r)) (stages self)))) in
  match first_failure with
  | Some stage => VFailed stage
  | None =>
      let missing := missing_evidence self in
      if negb (is_nil missing) then VIncomplete missing else VPassed
  end.

Definition failures (self : Verifier) : list FailureExplanation :=
  List.filter (λ r, is_blocking (sr_stage r) && is_failed r) (stages self) ≫= λ r,
    map explanation (List.filter (λ e, negb (ve_passed e)) (sr_evidence r)).

(* ------------------------------------------------------------------ *)
(** * Reachable verifiers *)

Inductive VerifierOp := VoClaim (claim : string) | VoStage (result : StageResult).
Definition run_verifier_op (op : VerifierOp) (v : Verifier) :
    outcome (Verifier * result CoreError unit) :=
  match op with
  | VoClaim claim => Done (record_agent_claim claim v, Ok tt)
  | VoStage result => add_stage result v
  end.
Definition verifier_step (v v' : Verifier) : Prop :=
  ∃ op res, run_verifier_op op v = Done (v', res).
Definition verifier_reachable (v : Verifier) : Prop := rtc verifier_step Verifier_new v.

(** Results are filed under their own stage. *)
Definition filed (v : Verifier) : Prop :=
  ∀ s r, vf_stages v !! s = Some r → sr_stage r = s.

(** How a step changes what is recorded for one stage: a first result is filed,
    a passing result may be replaced by a failing one, nothing else changes. *)
Definition stage_change (old new : option StageResult) : Prop :=
  new = old ∨ ∃ r', new = Some r' ∧
    (old = None ∨ ∃ r, old = Some r ∧ is_passed r = true ∧ is_failed r' = true).

Lemma verifier_step_change v v' s :
  verifier_step v v' → stage_change (vf_stages v !! s) (vf_stages v' !! s).
Proof.
  intros ([claim|result] & res & Hrun); simpl in Hrun; [simplify_eq; by left|].
  unfold add_stage in Hrun. run_op Hrun; try (by left);
    (destruct (decide (sr_stage result = s)) as [<-|Hne];
     [right; exists result; rewrite lookup_insert_eq; split; [done|]
     |left; by rewrite lookup_insert_ne]); [|by left].
  right. eexists. split; [done|]. by apply andb_true_iff.
Qed.
Lemma verifier_step_filed v v' : verifier_step v v' → filed v → filed v'.
Proof.
  intros ([claim|result] & res & Hrun) Hf; simpl in Hrun; [simplify_eq; done|].
  unfold add_stage in Hrun. run_op Hrun; try done;
    (intros s0 r0; simpl; intros [[<- <-]|[_ Hr]]%lookup_insert_Some; [done|by apply Hf]).
Qed.
Lemma verifier_reachable_filed v : verifier_reachable v → filed v.
Proof.
  intros Hr. assert (filed Verifier_new) as H0 by (intros s r; simpl; by rewrite lookup_empty).
  revert H0. induction Hr; eauto using verifier_step_filed.
Qed.
Lemma passed_not_failed r : is_passed r = true → is_failed r = false.
Proof.
  unfold is_passed, is_failed. destruct (sr_applicable r); [|done]. simpl.
  intros [_ Hall]%andb_true_iff. apply existsb_false. intros e He%list_elem_of_In.
  rewrite forallb_forall in Hall. by rewrite Hall.
Qed.
Lemma stage_change_kept r o : stage_change (Some r) o → is_passed r = false → o = Some r.
Proof. intros [->|(r' & -> & [?|(r0 & ? & Hp & _)])] Hn; [done|done|]. simplify_eq. congruence. Qed.
Lemma stage_change_keeps r o :
  stage_change (Some r) o → ∃ r', o = Some r' ∧ (r' = r ∨ is_failed r' = true).
Proof. intros [->|(r' & -> & [?|(r0 & ? & _ & Hf)])]; [eauto|done|eauto]. Qed.

(* ------------------------------------------------------------------ *)
(** * The verdict *)

Definition failing (v : Verifier) (s : VerifierStage) : Prop :=
  ∃ r, vf_stages v !! s = Some r ∧ is_failed r = true.
Definition lacking (v : Verifier) (s : VerifierStage) : Prop :=
  ∀ r, vf_stages v !! s = Some r → sr_applicable r = true ∧ sr_evidence r = [].
Definition supported (v : Verifier) (s : VerifierStage) : Prop :=
  ∃ r, vf_stages v !! s = Some r ∧ (sr_applicable r = false ∨ is_passed r = true).

Lemma elem_of_all_stages s : s ∈ all_stages.
Proof. unfold all_stages. destruct s; set_solver. Qed.
Lemma elem_of_stages v r : r ∈ stages v ↔ ∃ s, vf_stages v !! s = Some r.
Proof.
  unfold stages. rewrite list_elem_of_omap. split; [naive_solver|].
  intros [s Hs]. exists s. split; [apply elem_of_all_stages|done].
Qed.
Lemma elem_of_failed_stages v s :
  filed v →
  s ∈ map sr_stage (List.filter is_failed
        (List.filter (λ r, is_blocking (sr_stage r)) (stages v))) ↔
  is_blocking s = true ∧ failing v s.
Proof.
  intros Hf. setoid_rewrite list_elem_of_fmap. split.
  - intros (r & -> & [[[k Hk]%elem_of_stages Hb]%elem_of_lfilter Hr]%elem_of_lfilter).
    pose proof (Hf _ _ Hk) as <-. split; [done|by exists r].
  - intros [Hb (r & Hr & Hfl)]. exists r. pose proof (Hf _ _ Hr) as E. split; [done|].
    rewrite !elem_of_lfilter, elem_of_stages, E. eauto.
Qed.
Lemma elem_of_missing v s :
  s ∈ missing_evidence v ↔ is_blocking s = true ∧ lacking v s.
Proof.
  unfold missing_evidence. rewrite elem_of_lfilter.
  assert (s ∈ [VsDeterministic; VsBuildTest; VsHealth; VsSchema; VsBrowser; VsHuman] ↔
          is_blocking s = true) as ->.
  { unfold is_blocking. rewrite bool_decide_eq_true. destruct s; set_solver. }
  apply and_iff_compat_l. unfold lacking. destruct (vf_stages v !! s) as [r|]; [|done].
  rewrite andb_true_iff. split.
  - intros [Ha He] r' [= <-]. by destruct (sr_evidence r).
  - intros Hr. by destruct (Hr r eq_refl) as [-> ->].
Qed.
Lemma not_failed_passed r :
  sr_applicable r = true → sr_evidence r ≠ [] → is_failed r = false → is_passed r = true.
Proof.
  unfold is_passed, is_failed. intros -> Hne Hex. rewrite !andb_true_l in *.
  apply andb_true_iff. split; [by destruct (sr_evidence r)|]. apply forallb_forall.
  intros e He%list_elem_of_In. rewrite existsb_false in Hex. by apply negb_false_iff, Hex.
Qed.
Lemma supported_iff v s : supported v s ↔ ¬ failing v s ∧ ¬ lacking v s.
Proof.
  unfold supported, failing, lacking. destruct (vf_stages v !! s) as [r|].
  2:{ split; [by intros (?&?&?)|]. intros [_ []]. by intros. }
  split.
  - intros (r' & [= <-] & H). split.
    + intros (r' & [= <-] & Hf). destruct H as [Ha|Hp%passed_not_failed]; [|congruence].
      unfold is_failed in Hf. by rewrite Ha in Hf.
    + intros Hl. destruct (Hl r eq_refl) as [Ha He]. unfold is_passed in H. rewrite Ha, He in H.
      by destruct H.
  - intros [Hf Hl]. exists r. split; [done|]. destruct (sr_applicable r) eqn:Ha; [right|by left].
    apply not_failed_passed; [done| |].
    + intros He. apply Hl. by intros r' [= <-].
    + apply not_true_is_false. intros Ht. apply Hf. by exists r.
Qed.

Lemma stage_rank_leb_total a b :
  bool_decide (stage_rank a ≤ stage_rank b) = false → bool_decide (stage_rank b ≤ stage_rank a) = true.
Proof. rewrite bool_decide_eq_false, bool_decide_eq_true. lia. Qed.
Lemma stage_rank_leb_trans a b c :
  bool_decide (stage_rank a ≤ stage_rank b) = true →
  bool_decide (stage_rank b ≤ stage_rank c) = true →
  bool_decide (stage_rank a ≤ stage_rank c) = true.
Proof. rewrite !bool_decide_eq_true. lia. Qed.

Lemma verdict_cases v :
  filed v →
  match verdict v with
  | VFailed st => is_blocking st = true ∧ failing v st ∧
      ∀ s, is_blocking s = true → failing v s → stage_rank st ≤ stage_rank s
  | VIncomplete missing => missing ≠ [] ∧ (∀ s, is_blocking s = true → ¬ failing v s) ∧
      ∀ s, s ∈ missing ↔ is_blocking s = true ∧ lacking v s
  | VPassed => ∀ s, is_blocking s = true → supported v s
  end.
Proof.
  intros Hf. unfold verdict. destruct (min_by _ _) as [st|] eqn:Em.
  - apply min_by_Some in Em as [Hin Hmin];
      [|apply stage_rank_leb_total|apply stage_rank_leb_trans].
    apply elem_of_failed_stages in Hin as [Hb Hfl]; [|done]. split_and!; [done|done|].
    intros s Hs Hfs. apply (bool_decide_eq_true_1 _), Hmin. by apply elem_of_failed_stages.
  - apply min_by_None in Em.
    assert (∀ s, is_blocking s = true → ¬ failing v s) as Hnf.
    { intros s Hs Hfs. assert (s ∈ @nil VerifierStage) as H; [|by apply elem_of_nil in H].
      rewrite <- Em. by apply elem_of_failed_stages. }
    destruct (missing_evidence v) as [|m l] eqn:Hm; simpl.
    + intros s Hs. apply supported_iff. split; [by apply Hnf|]. intros Hl.
      assert (s ∈ @nil VerifierStage) as H; [|by apply elem_of_nil in H].
      rewrite <- Hm. by apply elem_of_missing.
    + split_and!; [done|done|]. intros s. rewrite <- Hm. apply elem_of_missing.
Qed.

(** C10: the verdict of a reachable verifier is decided by the recorded
    stage evidence alone.  It is success exactly when every blocking stage is
    recorded and either does not apply or has evidence that all passed; a
    failure names the first failed blocking stage; an incomplete verdict lists
    exactly the blocking stages without evidence, and none has failed. *)
Theorem verdict_is_evidence_based v :
  verifier_reachable v →
  (verdict v = VPassed ↔ ∀ s, is_blocking s = true → supported v s) ∧
  (∀ st, verdict v = VFailed st → is_blocking st = true ∧ failing v st ∧
     ∀ s, is_blocking s = true → failing v s → stage_rank st ≤ stage_rank s) ∧
  (∀ missing, verdict v = VIncomplete missing → missing ≠ [] ∧
     (∀ s, is_blocking s = true → ¬ failing v s) ∧
     ∀ s, s ∈ missing ↔ is_blocking s = true ∧ lacking v s).
Proof.
  intros Hr%verifier_reachable_filed. pose proof (verdict_cases v Hr) as Hc.
  split_and!; [|by intros st E; rewrite E in Hc|by intros m E; rewrite E in Hc].
  split; [by intros E; rewrite E in Hc|]. intros Hall.
  setoid_rewrite supported_iff in Hall.
  destruct (verdict v) as [missing|st|]; [| |done].
  - destruct Hc as (Hne & _ & Hm). destruct missing as [|m l]; [done|].
    destruct (Hm m) as [[Hb Hl] _]; [set_solver|]. by destruct (Hall m Hb).
  - destruct Hc as (Hb & Hfl & _). by destruct (Hall st Hb).
Qed.

(** Nothing that happens later improves a recorded stage.  A result
    that did not pass stays recorded as it is, and a passing one can only be
    replaced by a failure; so once a blocking stage has failed, or was recorded
    without evidence, no later evidence and no agent claim gives success. *)
Theorem recorded_failure_is_permanent v v' s r :
  verifier_reachable v → rtc verifier_step v v' → vf_stages v !! s = Some r →
  (is_passed r = false → vf_stages v' !! s = Some r) ∧
  (∃ r', vf_stages v' !! s = Some r' ∧ (r' = r ∨ is_failed r' = true)) ∧
  (is_blocking s = true → sr_applicable r = true → is_passed r = false → verdict v' ≠ VPassed).
Proof.
  intros Hr Hs Hl.
  assert ((is_passed r = false → vf_stages v' !! s = Some r) ∧
    ∃ r', vf_stages v' !! s = Some r' ∧ (r' = r ∨ is_failed r' = true)) as [Hk Hw].
  { clear Hr. induction Hs as [v|v v1 v' Hstep _ IH] in r, Hl |- *; [eauto|].
    apply (verifier_step_change _ _ s) in Hstep. rewrite Hl in Hstep.
    split; [intros Hn; apply IH; [by eapply stage_change_kept|done]|].
    destruct (stage_change_keeps _ _ Hstep) as (r1 & H1 & Hr1).
    destruct (IH r1 H1) as [Hkeep (r2 & H2 & Hr2)].
    destruct Hr1 as [->|Hf1]; [eauto|]. destruct (is_passed r1) eqn:Hp1.
    { apply passed_not_failed in Hp1. congruence. }
    exists r1. split; [by apply Hkeep|by right]. }
  split; [done|]. split; [done|]. intros Hb Ha Hn Hv. pose proof (Hk Hn) as Hl'.
  pose proof (verdict_cases v' (verifier_reachable_filed v' (rtc_trans _ _ _ Hr Hs))) as Hc.
  rewrite Hv in Hc. destruct (Hc s Hb) as (r' & ? & [?|?]); congruence.
Qed.

(* ------------------------------------------------------------------ *)
(** * Retention keeps what it must *)

(** Visiting the elements of [l] with their index, from [k] on. *)
Definition indexed {A} (k : nat) (l : list A) : list (nat * A) := imap (λ i x, (k + i, x)%nat) l.
Lemma indexed_cons {A} k (x : A) l : indexed k (x :: l) = (k, x) :: indexed (S k) l.
Proof.
  unfold indexed. rewrite imap_cons, Nat.add_0_r. f_equal. apply imap_ext.
  intros i y _. simpl. f_equal. lia.
Qed.
Lemma visit_kept {A} (f : A → bool) p k l :
  (List.filter (λ q, negb (bool_decide (q.1 < p)%nat && f q.2)) (indexed k l)).*2 =
  List.filter (λ x, negb (f x)) (take (p - k) l) ++ drop (p - k) l.
Proof.
  revert k. induction l as [|x l IH]; intros k; [by rewrite take_nil, drop_nil|].
  rewrite indexed_cons. simpl. case_bool_decide as Hk; simpl.
  - replace (p - k)%nat with (S (p - S k)) by lia. simpl.
    destruct (f x); simpl; [apply IH|]. f_equal. apply IH.
  - specialize (IH (S k)). replace (p - k)%nat with 0%nat by lia.
    replace (p - S k)%nat with 0%nat in IH by lia. rewrite take_0, drop_0 in *.
    simpl in *. f_equal. exact IH.
Qed.
Lemma visit_dropped {A B} (f : A → bool) (g : A → B) p k l :
  map (λ q, g q.2) (List.filter (λ q, bool_decide (q.1 < p)%nat && f q.2) (indexed k l)) =
  map g (List.filter f (take (p - k) l)).
Proof.
  revert k. induction l as [|x l IH]; intros k; [by rewrite take_nil|].
  rewrite indexed_cons. simpl. case_bool_decide as Hk; simpl.
  - replace (p - k)%nat with (S (p - S k)) by lia. simpl.
    destruct (f x); simpl; by rewrite IH.
  - specialize (IH (S k)). replace (p - k)%nat with 0%nat by lia.
    replace (p - S k)%nat with 0%nat in IH by lia. by rewrite take_0 in *.
Qed.

(** Pruning is filtering the records before the newest [keep_latest]. *)
Lemma prune_eq policy l now :
  let p := (length l - keep_latest policy)%nat in
  prune policy l now =
  (List.filter (λ r, negb (expired policy now r)) (take p l) ++ drop p l,
   map ve_id (List.filter (expired policy now) (take p l))).
Proof.
  intros p. unfold prune. case_decide as Hlen.
  - assert (p = 0%nat) as -> by lia. by rewrite take_0, drop_0.
  - change (imap pair l) with (indexed 0 l). rewrite visit_kept, visit_dropped.
    by rewrite Nat.sub_0_r.
Qed.

(** What every retention run guarantees of the records it kept and removed. *)
Record retention (policy : RetentionPolicy) (now : DateTime)
    (l kept : list VerificationEvidence) (removed : list string) : Prop := {
  rt_sublist : kept `sublist_of` l;
  rt_gone : ∃ gone, removed = map ve_id gone ∧ l ≡ₚ kept ++ gone ∧
    ∀ e, e ∈ gone → expired policy now e = true ∧ blocking_failure e = false;
}.

(** Retention only removes expired records and reports exactly the
    identifiers it removed; the rest keep their order, and no failed blocking
    check is ever removed.  While no blocking check has failed, the newest
    [keep_latest] records survive whatever their age; as soon as one has, every
    expired record that is not such a failure goes, the newest included. *)
Theorem retain_spec now st :
  let '(st', removed) := retain now st in
  es_policy st' = es_policy st ∧
  retention (es_policy st) now (es_evidence st) (es_evidence st') removed ∧
  ((∀ e, e ∈ es_evidence st → blocking_failure e = false) →
   ∃ old, es_evidence st' =
     old ++ drop (length (es_evidence st) - keep_latest (es_policy st)) (es_evidence st)) ∧
  (∀ f, f ∈ es_evidence st → blocking_failure f = true →
   ∀ e, e ∈ es_evidence st' ↔
     e ∈ es_evidence st ∧ (expired (es_policy st) now e = false ∨ blocking_failure e = true)).
Proof.
  destruct st as [l policy]. unfold retain. simpl.
  destruct (existsb blocking_failure l) eqn:Hex; simpl.
  - split; [done|]. split; [|split].
    + split; [apply lfilter_sublist|]. eexists. split; [done|]. split; [by rewrite lfilter_partition|].
      intros e [_ [He Hb]%andb_true_iff]%elem_of_lfilter. by apply negb_true_iff in Hb.
    + intros Hall. apply existsb_false in Hall. congruence.
    + intros _ _ _ e. rewrite elem_of_lfilter, negb_true_iff, andb_false_iff, negb_false_iff. done.
  - rewrite prune_eq. simpl. rewrite existsb_false in Hex. split; [done|]. split; [|split].
    + set (p := (length l - keep_latest policy)%nat). split.
      { rewrite <- (take_drop p l) at 3. apply sublist_app; [apply lfilter_sublist|done]. }
      eexists. split; [done|]. split.
      * rewrite <- (take_drop p l) at 1. rewrite <- (lfilter_partition (expired policy now) (take p l)) at 1.
        by rewrite <- !app_assoc, (Permutation_app_comm (drop p l)).
      * intros e [He ?]%elem_of_lfilter. split; [done|]. apply Hex.
        rewrite <- (take_drop p l). set_solver.
    + intros _. by eexists.
    + intros f Hf Hb. rewrite (Hex f Hf) in Hb. done.
Qed.

(* ------------------------------------------------------------------ *)
(** * Examples *)

Module VerifierExamples.
Definition check (id : string) (stage : VerifierStage) (passed : bool) : VerificationEvidence :=
  VerificationEvidence_new id stage "check" passed "done" [] 100.
Definition after (r : StageResult) (v : Verifier) : Verifier :=
  (done_or (v, Ok tt) (add_stage r v)).1.
Definition failed_build : StageResult :=
  StageResult_failed VsBuildTest [check "b1" VsBuildTest false].
Definition v1 : Verifier := after failed_build Verifier_new.
Definition v2 : Verifier :=
  after (StageResult_passed VsBuildTest [check "b2" VsBuildTest true]) (record_agent_claim "done" v1).

Lemma after_step r v : is_done (add_stage r v) = true → verifier_step v (after r v).
Proof.
  intros Hd. exists (VoStage r). unfold after. simpl.
  destruct (add_stage r v) as [[v' res]|]; [|done]. by exists res.
Qed.
Lemma v1_reachable : verifier_reachable v1.
Proof. eapply rtc_l; [by apply (after_step failed_build)|]. apply rtc_refl. Qed.
Lemma v2_later : rtc verifier_step v1 v2.
Proof.
  apply (rtc_l _ _ (record_agent_claim "done" v1)); [by exists (VoClaim "done"), (Ok tt)|].
  apply rtc_once, (after_step (StageResult_passed VsBuildTest [check "b2" VsBuildTest true])).
  reflexivity.
Qed.

Lemma verdict_is_evidence_based_witness :
  verifier_reachable v1 ∧ verdict v1 = VFailed VsBuildTest ∧
  (is_blocking VsBuildTest = true ∧ failing v1 VsBuildTest ∧
   ∀ s, is_blocking s = true → failing v1 s → stage_rank VsBuildTest ≤ stage_rank s).
Proof.
  split; [exact v1_reachable|]. split; [reflexivity|].
  apply (verdict_is_evidence_based v1 v1_reachable). reflexivity.
Defined.
Lemma recorded_failure_is_permanent_witness :
  verifier_reachable v1 ∧ rtc verifier_step v1 v2 ∧ verdict v2 ≠ VPassed.
Proof.
  split; [exact v1_reachable|]. split; [exact v2_later|].
  apply (recorded_failure_is_permanent v1 v2 VsBuildTest failed_build v1_reachable v2_later);
    reflexivity.
Defined.

(** A store of one fresh failure loses the newest of its passing records. *)
Definition full_store : EvidenceStore :=
  {| es_evidence := [VerificationEvidence_new "old" VsHealth "h" true "" [] 0;
                     VerificationEvidence_new "bad" VsSchema "s" false "" [] 0;
                     VerificationEvidence_new "new" VsHealth "h" true "" [] 1];
     es_policy := {| max_age := 10; keep_latest := 3 |} |}.
Example newest_is_pruned : (retain 100 full_store).2 = ["old"; "new"].
Proof. reflexivity. Qed.
End VerifierExamples.
