(* ===== verification/Provider.v ===== *)
(** Provider operations, registry delivery and domain delivery (provider.rs). *)

From stdpp Require Import base option list strings pretty.
From Stdlib Require Import ZArith Lia Ascii.
From S2P Require Import Prelude External Errors Ids Approval Resource Runtime Deployment.
Local Open Scope Z_scope.

Definition PROVIDER_CONTRACT_VERSION : Z := 1.
Definition PROVIDER_FAILURE_RECOVERY : string :=
  "retry with backoff; inspect redacted provider diagnostics and re-run the platform readiness probe before promoting".
Definition DIGEST_MISMATCH_RECOVERY : string :=
  "registry digest differs from the recorded build artifact; do not promote. Re-push the verified production image and re-verify the digest before deploying".
Definition CERTIFICATE_FAILURE_RECOVERY : string :=
  "TLS issuance failed; traffic was not attached. Fix DNS/issuer configuration and re-issue the certificate before attaching traffic".

(* ------------------------------------------------------------------ *)
(** * Operations *)

Inductive ProviderKind := PkPostgres | PkAuth | PkFileStorage | PkObjectStorage | PkGeneric.
Definition ProviderKind_debug (k : ProviderKind) : string :=
  match k with
  | PkPostgres => "Postgres" | PkAuth => "Auth" | PkFileStorage => "FileStorage"
  | PkObjectStorage => "ObjectStorage" | PkGeneric => "Generic"
  end.
Definition one_of (s : string) (l : list string) : bool := bool_decide (s ∈ l).
Definition supplies (k : ProviderKind) (capability : string) : bool :=
  match k with
  | PkPostgres => one_of capability ["database.postgres"; "database"]
  | PkAuth => one_of capability ["auth"; "auth.session"]
  | PkFileStorage => one_of capability ["storage.file"; "storage"]
  | PkObjectStorage => one_of capability ["storage.object"; "storage"]
  | PkGeneric => true
  end.

Inductive ProviderAction :=
| PaProvision | PaReadinessCheck | PaReplace | PaMigrate | PaAdopt | PaDelete.
#[global] Instance ProviderAction_eq_dec : EqDecision ProviderAction.
Proof. solve_decision. Defined.
Definition ProviderAction_debug (a : ProviderAction) : string :=
  match a with
  | PaProvision => "Provision" | PaReadinessCheck => "ReadinessCheck" | PaReplace => "Replace"
  | PaMigrate => "Migrate" | PaAdopt => "Adopt" | PaDelete => "Delete"
  end.
Definition is_destructive (a : ProviderAction) : bool :=
  match a with PaDelete | PaReplace | PaMigrate | PaAdopt => true | _ => false end.
Definition action_label (a : ProviderAction) : string :=
  match a with
  | PaProvision => "provision" | PaReadinessCheck => "readiness-check" | PaReplace => "replace"
  | PaMigrate => "migrate" | PaAdopt => "adopt" | PaDelete => "delete"
  end.

Record ProviderOperation := mkOperation {
  po_application_id : ApplicationId;
  po_environment_id : option EnvironmentId;
  po_resource_id : ResourceId;
  po_capability : string;
  po_provider_key : string;
  po_kind : ProviderKind;
  po_action : ProviderAction;
  po_idempotency_key : string;
  po_trace_id : string;
  po_secret_refs : list string;
  po_attempt : Z;
}.

Section Operations.
Context `{UuidLib}.

Definition provider_key_text (resource_id : ResourceId) (provider_key : string)
    (action : ProviderAction) (trace_id : string) : string :=
  id_fmt resource_id +:+ ":" +:+ provider_key +:+ ":" +:+ action_label action +:+ ":" +:+ trace_id.

Definition ProviderOperation_plan (application_id : ApplicationId)
    (environment_id : option EnvironmentId) (resource_id : ResourceId)
    (capability provider_key : string) (kind : ProviderKind) (action : ProviderAction)
    (trace_id : string) : result CoreError ProviderOperation :=
  if trim_is_empty capability then
    Err (CapabilityBinding "provider operation requires a capability key")
  else if trim_is_empty provider_key then
    Err (CapabilityBinding "provider operation requires a provider key")
  else if trim_is_empty trace_id then
    Err (CapabilityBinding "provider operation requires a trace id")
  else if negb (supplies kind capability) then
    Err (CapabilityBinding ("provider kind " +:+ ProviderKind_debug kind
           +:+ " does not supply capability '" +:+ capability +:+ "'"))
  else
    Ok (mkOperation application_id environment_id resource_id capability provider_key kind action
          (provider_key_text resource_id provider_key action trace_id) trace_id [] 1).
Definition with_secret_refs (refs : list string) (self : ProviderOperation) : ProviderOperation :=
  mkOperation (po_application_id self) (po_environment_id self) (po_resource_id self)
    (po_capability self) (po_provider_key self) (po_kind self) (po_action self)
    (po_idempotency_key self) (po_trace_id self) refs (po_attempt self).
Definition with_attempt (attempt : Z) (self : ProviderOperation) : ProviderOperation :=
  mkOperation (po_application_id self) (po_environment_id self) (po_resource_id self)
    (po_capability self) (po_provider_key self) (po_kind self) (po_action self)
    (po_idempotency_key self) (po_trace_id self) (po_secret_refs self) (Z.max attempt 1).

Definition ProviderOperation_require_approval (self : ProviderOperation)
    (approval : option ExplicitApproval) : result CoreError unit :=
  let on := "provider " +:+ ProviderAction_debug (po_action self) +:+ " on resource "
            +:+ id_fmt (po_resource_id self) in
  if negb (is_destructive (po_action self)) then Ok tt
  else
    match approval with
    | None => Err (ApprovalRequired (on +:+ " requires a granted, named human approval"))
    | Some approval =>
        if approval_missing approval then
          Err (ApprovalRequired (on +:+ " was denied or unnamed; no provider call occurred"))
        else if negb (str_contains (id_fmt (po_resource_id self)) (proposal_summary approval))
                && negb (str_contains (po_capability self) (proposal_summary approval)) then
          Err (ApprovalRequired ("approval scope '" +:+ proposal_summary approval
            +:+ "' does not match resource " +:+ id_fmt (po_resource_id self)
            +:+ " capability '" +:+ po_capability self +:+ "'; no provider call occurred"))
        else Ok tt
    end.
End Operations.

(* ------------------------------------------------------------------ *)
(** * Observations *)

Inductive ProviderObservation :=
| PoAccepted (detail : string)
| PoReady (detail : string)
| PoDegraded (reason : string)
| PoFailed (reason recovery : string).
Definition sanitize_failure (reason : string) (secrets : list string) : string * string :=
  (redact_reason reason secrets, PROVIDER_FAILURE_RECOVERY).
Definition ProviderObservation_failed (reason : string) (secrets : list string) :=
  let '(reason, recovery) := sanitize_failure reason secrets in PoFailed reason recovery.
Definition target_phase (o : ProviderObservation) : ResourcePhase :=
  match o with
  | PoAccepted _ => Provisioning
  | PoReady _ => Ready
  | PoDegraded _ => Degraded
  | PoFailed _ _ => Failed
  end.
Definition ProviderObservation_to_event_detail (o : ProviderObservation) : string :=
  match o with
  | PoAccepted detail => "provider accepted: " +:+ detail
  | PoReady detail => "provider ready: " +:+ detail
  | PoDegraded reason => "provider degraded: " +:+ reason
  | PoFailed reason recovery =>
      "provider failed: " +:+ reason +:+ " | recovery: " +:+ recovery
  end.
Definition note_agent_claim_ignored (claims_ignored : Z) : Z := sat_add u32_max claims_ignored 1.

(* ------------------------------------------------------------------ *)
(** * Registry delivery *)

Record RegistryArtifact := {
  ra_reference : string;
  ra_digest : string;
  ra_revision_sha : string;
  verified_production_build : bool;
}.
Definition RegistryArtifact_new (reference digest revision_sha : string) (verified : bool) :=
  {| ra_reference := reference; ra_digest := digest; ra_revision_sha := revision_sha;
     verified_production_build := verified |}.
Definition is_digest_addressable (self : RegistryArtifact) : bool :=
  starts_with "sha256:" (ra_digest self) && negb (str_is_empty (ra_reference self)).
Definition gate_registry_push (artifact : RegistryArtifact) : result CoreError unit :=
  if negb (verified_production_build artifact) then
    Err (DeploymentError "registry push requires a verified production build; development or unverified artifacts are refused")
  else if negb (is_digest_addressable artifact) then
    Err (DeploymentError ("registry push refused for non-digest-addressable artifact '"
           +:+ ra_reference artifact +:+ "'"))
  else Ok tt.
Definition verify_registry_digest (expected reported : string) : result CoreError unit :=
  if decide (expected = reported) then Ok tt
  else Err (DeploymentError ("registry digest mismatch: recorded " +:+ expected
              +:+ " but registry reported " +:+ reported +:+ ". " +:+ DIGEST_MISMATCH_RECOVERY)).

(* ------------------------------------------------------------------ *)
(** * Domain delivery *)

Inductive DnsState := DnsPending | DnsPropagated | DnsFailed (reason : string).
Inductive CertificateState :=
| CertPending | CertIssued | CertRenewing | CertFailed (reason : string).
Definition CertificateState_failed (reason : string) (secrets : list string) :=
  CertFailed (redact_reason reason secrets).
Definition is_issued (c : CertificateState) : bool :=
  match c with CertIssued | CertRenewing => true | _ => false end.
Definition is_propagated (d : DnsState) : bool :=
  match d with DnsPropagated => true | _ => false end.

Record DomainDelivery := mkDelivery {
  dd_domain_id : DomainId;
  dd_deployment_id : option DeploymentId;
  dd_dns : DnsState;
  dd_tls : CertificateState;
  traffic_attached : bool;
  dd_detail : option string;
}.
Definition DomainDelivery_new (domain_id : DomainId) : DomainDelivery :=
  mkDelivery domain_id None DnsPending CertPending false None.
Definition delivery_is_healthy (self : DomainDelivery) : bool :=
  traffic_attached self && is_some (dd_deployment_id self) && is_propagated (dd_dns self)
  && is_issued (dd_tls self).
(** After the first assignment the certificate state is always [Failed], so the
    [if let] that follows always matches. *)
Definition report_certificate_failure (reason : string) (secrets : list string)
    (self : DomainDelivery) : DomainDelivery :=
  let tls := CertificateState_failed reason secrets in
  let detail := match tls with
    | CertFailed reason => Some ("certificate issuance failed: " +:+ reason +:+ ". "
                                 +:+ CERTIFICATE_FAILURE_RECOVERY)
    | _ => dd_detail self
    end in
  mkDelivery (dd_domain_id self) (dd_deployment_id self) (dd_dns self) tls false detail.

Section Delivery.
Context `{UuidLib} `{StrDebug}.

Definition DnsState_debug (d : DnsState) : string :=
  match d with
  | DnsPending => "Pending" | DnsPropagated => "Propagated"
  | DnsFailed reason => "Failed { reason: " +:+ str_debug reason +:+ " }"
  end.
Definition CertificateState_debug (c : CertificateState) : string :=
  match c with
  | CertPending => "Pending" | CertIssued => "Issued" | CertRenewing => "Renewing"
  | CertFailed reason => "Failed { reason: " +:+ str_debug reason +:+ " }"
  end.
Definition DomainDelivery_to_event_detail (self : DomainDelivery) : string :=
  "domain " +:+ id_fmt (dd_domain_id self) +:+ " dns " +:+ DnsState_debug (dd_dns self)
  +:+ " tls " +:+ CertificateState_debug (dd_tls self) +:+ " traffic "
  +:+ bool_debug (traffic_attached self) +:+ " deployment "
  +:+ option_debug DeploymentId_debug (dd_deployment_id self) +:+ " "
  +:+ default "" (dd_detail self).

Definition attach_traffic (deployment : Deployment) (approval : ExplicitApproval)
    (self : DomainDelivery) : DomainDelivery :=
  mkDelivery (dd_domain_id self) (Some (dep_id deployment)) (dd_dns self) (dd_tls self) true
    (Some ("traffic attached to promoted deployment " +:+ id_fmt (dep_id deployment) +:+ " by "
           +:+ approver approval)).

Definition plan_traffic_attachment (domain : Domain) (deployment : Deployment)
    (approval : ExplicitApproval) : M DomainDelivery CoreError unit :=
  delivery ← get;
  if approval_missing approval then
    mthrow (ApprovalRequired ("domain traffic change for '" +:+ dom_hostname domain
              +:+ "' requires explicit approval"))
  else if negb (is_routable domain) then
    mthrow (DeploymentError ("domain '" +:+ dom_hostname domain +:+ "' is not routable"))
  else if negb (is_propagated (dd_dns delivery)) then
    mthrow (DeploymentError ("domain '" +:+ dom_hostname domain
              +:+ "' has no propagated DNS; traffic not attached"))
  else
    match dd_tls delivery with
    | CertFailed reason =>
        mthrow (DeploymentError ("certificate issuance failed for '" +:+ dom_hostname domain
                  +:+ "': " +:+ reason +:+ ". " +:+ CERTIFICATE_FAILURE_RECOVERY))
    | state =>
        if negb (is_issued state) then
          mthrow (DeploymentError ("domain '" +:+ dom_hostname domain
                    +:+ "' has no issued TLS certificate; traffic not attached"))
        else if negb (is_promoted deployment) then
          mthrow (DeploymentError ("cannot route '" +:+ dom_hostname domain
                    +:+ "' to unpromoted deployment " +:+ id_fmt (dep_id deployment) +:+ " ("
                    +:+ DeploymentPhase_debug (dep_phase deployment) +:+ ")"))
        else modify (attach_traffic deployment approval)
    end.
End Delivery.

(* ------------------------------------------------------------------ *)
(** * The approval gate *)

Section ProviderFacts.
Context `{UuidLib} `{StrDebug}.

(** An approval that covers the operation: granted, named, and its summary
    mentions the resource or its capability. *)
Definition covers (approval : ExplicitApproval) (op : ProviderOperation) : Prop :=
  approval_ok approval ∧
  (str_contains (id_fmt (po_resource_id op)) (proposal_summary approval) = true ∨
   str_contains (po_capability op) (proposal_summary approval) = true).
#[global] Instance covers_dec approval op : Decision (covers approval op).
Proof. unfold covers. apply _. Defined.

Definition gated (op : ProviderOperation) (approval : option ExplicitApproval) : Prop :=
  is_destructive (po_action op) = true → from_option (λ a, covers a op) False approval.
#[global] Instance gated_dec op approval : Decision (gated op approval).
Proof. unfold gated. destruct approval; apply _. Defined.

(** A provider operation passes the gate exactly when it is not
    destructive or comes with a granted, named approval whose summary mentions
    its resource or its capability; every other case is an approval error. *)
Theorem require_approval_spec op approval :
  if decide (gated op approval) then ProviderOperation_require_approval op approval = Ok tt
  else ∃ m, ProviderOperation_require_approval op approval = Err (ApprovalRequired m).
Proof.
  unfold ProviderOperation_require_approval. case_decide as Hg; unfold gated in Hg.
  - destruct (is_destructive (po_action op)); [|done]. specialize (Hg eq_refl).
    destruct approval as [a|]; [|done]. destruct Hg as [->%approval_missing_false Hs]. simpl.
    by destruct Hs as [-> | ->]; rewrite ?andb_false_r.
  - destruct (is_destructive (po_action op)); [|naive_solver]. simpl.
    destruct approval as [a|]; [|by eexists]. destruct (approval_missing a) eqn:Hm; [by eexists|].
    destruct (str_contains (id_fmt (po_resource_id op)) (proposal_summary a)) eqn:H1,
      (str_contains (po_capability op) (proposal_summary a)) eqn:H2; simpl; [..|by eexists];
      (destruct Hg; intros _; simpl; split; [by apply approval_missing_false|auto]).
Qed.

(** The first plan and the second share a key although one provisions with one
    provider and the other deletes with another. *)
Lemma key_text_shift r p x y :
  provider_key_text r p PaProvision (x +:+ ":delete:" +:+ y) =
  provider_key_text r (p +:+ ":provision:" +:+ x) PaDelete y.
Proof. unfold provider_key_text. by rewrite !str_app_assoc. Qed.
End ProviderFacts.

Section ProviderKeys.
Context `{UuidLaws}.

Lemma resource_no_colon (r : ResourceId) : ":"%char ∉ chars (id_fmt r).
Proof.
  change (id_fmt r) with ("res_" +:+ uuid_simple (id_uuid r)). rewrite chars_app, elem_of_app.
  intros [Hc|Hc]; [revert Hc; apply (bool_decide_unpack _); vm_compute; exact I|].
  pose proof (uuid_simple_hex (id_uuid r)) as Hx. rewrite Forall_forall in Hx.
  destruct (Hx _ Hc) as (d & Hd & E). unfold hex_digit in E. apply (f_equal nat_of_ascii) in E.
  rewrite nat_ascii_embedding in E by (case_decide; lia). case_decide; change (nat_of_ascii ":") with 58%nat in E; lia.
Qed.
Lemma label_no_colon a : ":"%char ∉ chars (action_label a).
Proof. destruct a; apply (bool_decide_unpack _); vm_compute; exact I. Qed.
Lemma label_inj a b : action_label a = action_label b → a = b.
Proof. by destruct a, b. Qed.

(** The idempotency keys of two planned operations are equal only for
    the same resource, provider, action and trace, provided the provider keys
    contain no colon.  Without that proviso they collide: a provision and a
    delete of the same resource can be planned with one and the same key. *)
Theorem provider_key_spec r p a t r' p' a' t' :
  (":"%char ∉ chars p → ":"%char ∉ chars p' →
   provider_key_text r p a t = provider_key_text r' p' a' t' → r = r' ∧ p = p' ∧ a = a' ∧ t = t') ∧
  ∃ p1 t1 p2 t2 app op1 op2,
    ProviderOperation_plan app None r "storage" p1 PkGeneric PaProvision t1 = Ok op1 ∧
    ProviderOperation_plan app None r "storage" p2 PkGeneric PaDelete t2 = Ok op2 ∧
    po_provider_key op1 ≠ po_provider_key op2 ∧
    po_idempotency_key op1 = po_idempotency_key op2.
Proof.
  split.
  - intros Hp Hp' E. unfold provider_key_text in E.
    apply str_split_first_sep in E as [E1 E]; [|apply resource_no_colon..].
    apply str_split_first_sep in E as [-> E]; [|done..].
    apply str_split_first_sep in E as [?%label_inj ->]; [|apply label_no_colon..].
    apply (inj id_fmt) in E1. done.
  - exists "s3", "a:delete:b", "s3:provision:a", "b", (mkId (id_uuid r)).
    eexists _, _. split; [reflexivity|]. split; [reflexivity|]. split; [done|].
    exact (key_text_shift r "s3" "a" "b").
Qed.
End ProviderKeys.

(* ------------------------------------------------------------------ *)
(** * Delivery *)

Section DeliveryFacts.
Context `{UuidLib} `{StrDebug}.

Definition may_attach (dd : DomainDelivery) (domain : Domain) (deployment : Deployment)
    (approval : ExplicitApproval) : Prop :=
  approval_ok approval ∧ is_routable domain = true ∧ is_propagated (dd_dns dd) = true ∧
  is_issued (dd_tls dd) = true ∧ is_promoted deployment = true.
#[global] Instance may_attach_dec dd domain deployment approval :
  Decision (may_attach dd domain deployment approval).
Proof. unfold may_attach. apply _. Defined.

(** Traffic is attached exactly when the approval is granted and
    named, the hostname is routable, DNS has propagated, a certificate is issued
    and the deployment is promoted; the delivery is then healthy and points at
    that deployment.  Otherwise the call fails and changes nothing.  A reported
    certificate failure makes the delivery unhealthy and blocks attachment. *)
Theorem traffic_attachment_spec domain deployment approval dd reason secrets :
  (if decide (may_attach dd domain deployment approval) then
     ∃ dd', plan_traffic_attachment domain deployment approval dd = Done (dd', Ok tt) ∧
       delivery_is_healthy dd' = true ∧ dd_deployment_id dd' = Some (dep_id deployment) ∧
       dd_domain_id dd' = dd_domain_id dd
   else ∃ e, plan_traffic_attachment domain deployment approval dd = Done (dd, Err e)) ∧
  (let failed := report_certificate_failure reason secrets dd in
   delivery_is_healthy failed = false ∧
   ∃ e, plan_traffic_attachment domain deployment approval failed = Done (failed, Err e)).
Proof.
  split.
  - unfold may_attach, plan_traffic_attachment. unfold_monad. case_decide as Hc.
    + destruct Hc as (Ha%approval_missing_false & Hr & Hd & Hi & Hp). rewrite Ha, Hr, Hd.
      unfold delivery_is_healthy. destruct (dd_tls dd) eqn:Ht; try done; simpl; rewrite Hp;
        (eexists; split; [done|]; simpl; by rewrite Hd, Ht).
    + destruct (approval_missing approval) eqn:Ha; [by eexists|].
      apply approval_missing_false in Ha. destruct (is_routable domain); [|by eexists].
      destruct (is_propagated (dd_dns dd)); [|by eexists].
      destruct (dd_tls dd); simpl in *; try (by eexists);
        destruct (is_promoted deployment); try (by eexists); naive_solver.
  - split; [done|]. unfold plan_traffic_attachment. unfold_monad.
    destruct (approval_missing approval); [by eexists|].
    destruct (is_routable domain); [|by eexists].
    destruct (is_propagated (dd_dns dd)); by eexists.
Qed.

(** Whatever a production build turned into an image passes the registry
    gate when it is marked as verified, is refused when it is not, and its
    digest verifies against the registry's report exactly when they agree. *)
Theorem built_image_is_deliverable config build revision secrets i verified reported :
  build_image config build revision secrets = Ok i →
  let artifact := RegistryArtifact_new (img_reference i) (img_digest i) (img_revision_sha i) verified in
  (gate_registry_push artifact = Ok tt ↔ verified = true) ∧
  (verify_registry_digest (ra_digest artifact) reported = Ok tt ↔ reported = img_digest i).
Proof.
  intros (_ & _ & base & _ & ->)%build_image_ok. simpl. split.
  - unfold gate_registry_push, is_digest_addressable. simpl. destruct verified; simpl; [|done].
    by destruct base.
  - unfold verify_registry_digest. case_decide; naive_solver.
Qed.
End DeliveryFacts.

(* ------------------------------------------------------------------ *)
(** * Examples *)

Module ProviderExamples.
Import RefInstances DeploymentExamples.
Definition bucket : ResourceId := mkId (uuid 7).

Lemma provider_key_spec_witness :
  (":"%char ∉ chars "s3" ∧ provider_key_text bucket "s3" PaDelete "a:b" =
     provider_key_text bucket "s3" PaDelete "a:b") ∧
  ∃ p1 t1 p2 t2 app op1 op2,
    ProviderOperation_plan app None bucket "storage" p1 PkGeneric PaProvision t1 = Ok op1 ∧
    ProviderOperation_plan app None bucket "storage" p2 PkGeneric PaDelete t2 = Ok op2 ∧
    po_provider_key op1 ≠ po_provider_key op2 ∧
    po_idempotency_key op1 = po_idempotency_key op2.
Proof.
  assert (":"%char ∉ chars "s3") as Hp by (apply (bool_decide_unpack _); vm_compute; exact I).
  split; [split; [exact Hp|reflexivity]|].
  apply (provider_key_spec bucket "s3" PaDelete "a:b" bucket "s3" PaDelete "a:b").
Defined.

Definition built_image : Image :=
  match build_image plan_cfg (BuildResult_succeeded "ok") (Revision_new "a1" "cfg" None) [] with
  | Ok i => i
  | Err _ => {| img_reference := ""; img_digest := ""; img_source := IsNative;
                img_runtime_kind := Generic; img_revision_sha := "" |}
  end.
Lemma built_image_is_deliverable_witness :
  build_image plan_cfg (BuildResult_succeeded "ok") (Revision_new "a1" "cfg" None) [] = Ok built_image ∧
  gate_registry_push (RegistryArtifact_new (img_reference built_image) (img_digest built_image)
    (img_revision_sha built_image) true) = Ok tt.
Proof.
  split; [reflexivity|].
  apply (built_image_is_deliverable plan_cfg (BuildResult_succeeded "ok")
    (Revision_new "a1" "cfg" None) [] built_image true ""); reflexivity.
Defined.

(** One approval that names the capability covers every resource of it. *)
Example capability_approval_covers_all_resources :
  let op n := mkOperation app1 None n "storage" "s3" PkGeneric PaDelete "k" "t" [] 1 in
  let a := ExplicitApproval_granted "ana" "delete the old storage bucket" in
  (ProviderOperation_require_approval (op bucket) (Some a),
   ProviderOperation_require_approval (op (mkId (uuid 8))) (Some a)) = (Ok tt, Ok tt).
Proof. vm_compute. reflexivity. Qed.
End ProviderExamples.
