(* ===== verification/Workspace.v ===== *)
(** Isolated worktrees, merge review, previews, Expo shares and feedback
    (workspace.rs). *)

From stdpp Require Import base option list strings pretty relations.
From Stdlib Require Import ZArith Lia.
From S2P Require Import Prelude External Errors Ids Approval Runtime.
Local Open Scope Z_scope.

(* ------------------------------------------------------------------ *)
(** * Worktrees *)

Record CanonicalRepository := {
  cr_application_id : ApplicationId;
  default_branch : string;
  head_sha : string;
}.
Definition CanonicalRepository_new (application_id : ApplicationId) (default_branch head_sha : string) :
    result CoreError CanonicalRepository :=
  if trim_is_empty default_branch then
    Err (WorkspaceState "canonical repository requires a default branch")
  else if trim_is_empty head_sha then
    Err (WorkspaceState "canonical repository requires a head sha")
  else Ok {| cr_application_id := application_id; default_branch := default_branch;
             head_sha := head_sha |}.

Inductive WorktreeStatus := WtActive | WtMerged | WtDiscarded.
#[global] Instance WorktreeStatus_eq_dec : EqDecision WorktreeStatus.
Proof. solve_decision. Defined.
Definition WorktreeStatus_debug (s : WorktreeStatus) : string :=
  match s with WtActive => "Active" | WtMerged => "Merged" | WtDiscarded => "Discarded" end.

Record WorkspaceDiff := {
  files_changed : list string;
  additions : Z;
  deletions : Z;
  wd_summary : string;
}.
Definition WorkspaceDiff_new (files : list string) (additions deletions : Z) (summary : string) :
    result CoreError WorkspaceDiff :=
  match files with
  | [] => Err (WorkspaceState "workspace diff must name at least one changed file")
  | _ =>
      if trim_is_empty summary then Err (WorkspaceState "workspace diff requires a summary")
      else Ok {| files_changed := files; additions := additions; deletions := deletions;
                 wd_summary := summary |}
  end.
Definition is_empty_change (self : WorkspaceDiff) : bool :=
  bool_decide (additions self = 0) && bool_decide (deletions self = 0).

Record RollbackInfo := { rb_base_sha : string; rb_base_branch : string; rb_worktree_path : string }.

Record SessionWorkspace := mkWorkspace {
  ws_id : WorkspaceId;
  ws_application_id : ApplicationId;
  ws_environment_name : string;
  ws_session_id : AgentSessionId;
  worktree_path : string;
  branch : string;
  base_sha : string;
  ws_status : WorktreeStatus;
  ws_diff : option WorkspaceDiff;
}.
Definition ws_set_status (st : WorktreeStatus) (w : SessionWorkspace) : SessionWorkspace :=
  mkWorkspace (ws_id w) (ws_application_id w) (ws_environment_name w) (ws_session_id w)
    (worktree_path w) (branch w) (base_sha w) st (ws_diff w).
Definition ws_set_diff (d : option WorkspaceDiff) (w : SessionWorkspace) : SessionWorkspace :=
  mkWorkspace (ws_id w) (ws_application_id w) (ws_environment_name w) (ws_session_id w)
    (worktree_path w) (branch w) (base_sha w) (ws_status w) d.

Record MergeRequest := mkMerge {
  mr_workspace_id : WorkspaceId;
  mr_diff : WorkspaceDiff;
  approved_by : option string;
}.

Section Workspaces.
Context `{UuidLib}.

(** [fresh] is the identifier drawn by [WorkspaceId::new]. *)
Definition SessionWorkspace_open (fresh : WorkspaceId) (repo : CanonicalRepository)
    (session_id : AgentSessionId) (environment_name : string) :
    result CoreError SessionWorkspace :=
  if trim_is_empty environment_name then
    Err (WorkspaceState "workspace requires an environment name")
  else
    Ok (mkWorkspace fresh (cr_application_id repo) environment_name session_id
          ("worktrees/" +:+ id_fmt session_id) ("session/" +:+ id_fmt session_id)
          (head_sha repo) WtActive None).

Definition record_diff (diff : WorkspaceDiff) : M SessionWorkspace CoreError unit :=
  self ← get;
  if decide (ws_status self ≠ WtActive) then
    mthrow (WorkspaceState ("cannot record diff while workspace " +:+ id_fmt (ws_id self)
              +:+ " is " +:+ WorktreeStatus_debug (ws_status self)))
  else modify (ws_set_diff (Some diff)).

Definition rollback_info (self : SessionWorkspace) : RollbackInfo :=
  {| rb_base_sha := base_sha self; rb_base_branch := branch self;
     rb_worktree_path := worktree_path self |}.

Definition merge_ready (self : SessionWorkspace) : result CoreError WorkspaceDiff :=
  if decide (ws_status self ≠ WtActive) then
    Err (WorkspaceState ("workspace " +:+ id_fmt (ws_id self) +:+ " is "
           +:+ WorktreeStatus_debug (ws_status self) +:+ ", not mergeable"))
  else ok_or (WorkspaceState ("workspace " +:+ id_fmt (ws_id self)
                +:+ " has no exposed diff; merge requires review")) (ws_diff self).

Definition merge (approval : ExplicitApproval) : M SessionWorkspace CoreError MergeRequest :=
  self ← get;
  diff ← lift_r (merge_ready self);
  if is_empty_change diff then
    mthrow (WorkspaceState ("workspace " +:+ id_fmt (ws_id self)
              +:+ " diff is empty; nothing to merge"))
  else if negb (approved approval) then
    mthrow (ApprovalRequired ("workspace " +:+ id_fmt (ws_id self)
              +:+ " merge requires explicit approval"))
  else if trim_is_empty (approver approval) then
    mthrow (ApprovalRequired "workspace merge approval must name an approver")
  else
    modify (ws_set_status WtMerged);;
    mret (mkMerge (ws_id self) diff (Some (approver approval))).

Definition discard : M SessionWorkspace CoreError unit :=
  self ← get;
  if decide (ws_status self ≠ WtActive) then
    mthrow (WorkspaceState ("cannot discard workspace " +:+ id_fmt (ws_id self) +:+ " while "
              +:+ WorktreeStatus_debug (ws_status self)))
  else
    modify (ws_set_status WtDiscarded);;
    modify (ws_set_diff None).

Definition needs_cleanup (self : SessionWorkspace) : bool := bool_decide (ws_status self ≠ WtActive).

Definition MergeRequest_propose (workspace : SessionWorkspace) : result CoreError MergeRequest :=
  diff ← merge_ready workspace;
  Ok (mkMerge (ws_id workspace) diff None).
Definition MergeRequest_approve (approval : ExplicitApproval) : M MergeRequest CoreError unit :=
  if negb (approved approval) then mthrow (ApprovalRequired "merge proposal was denied")
  else if trim_is_empty (approver approval) then
    mthrow (ApprovalRequired "merge approval must name an approver")
  else modify (λ self, mkMerge (mr_workspace_id self) (mr_diff self) (Some (approver approval))).
Definition MergeRequest_is_approved (self : MergeRequest) : bool := is_some (approved_by self).

(* ------------------------------------------------------------------ *)
(** ** The registry *)

Definition WorkspaceRegistry : Type := list SessionWorkspace.

Definition allocate (fresh : WorkspaceId) (repo : CanonicalRepository)
    (session_id : AgentSessionId) (environment_name : string) :
    M WorkspaceRegistry CoreError SessionWorkspace :=
  self ← get;
  if existsb (λ w, bool_decide (ws_session_id w = session_id)
                   && bool_decide (ws_application_id w = cr_application_id repo)) self then
    mthrow (WorkspaceState ("session " +:+ id_fmt session_id +:+ " already owns a worktree"))
  else
    workspace ← lift_r (SessionWorkspace_open fresh repo session_id environment_name);
    modify (λ ws, ws ++ [workspace]);;
    mret workspace.
Definition WorkspaceRegistry_get (self : WorkspaceRegistry) (id : WorkspaceId) :=
  List.find (λ w, bool_decide (ws_id w = id)) self.
Definition active_for_application (self : WorkspaceRegistry) (a : ApplicationId) :=
  List.filter (λ w, bool_decide (ws_application_id w = a)
                    && bool_decide (ws_status w = WtActive)) self.
Definition sync (workspace : SessionWorkspace) (self : WorkspaceRegistry) : WorkspaceRegistry :=
  update_first (λ w, bool_decide (ws_id w = ws_id workspace)) (λ _, workspace) self.
(** The surviving worktrees and the number removed. *)
Definition cleanup_finished (self : WorkspaceRegistry) : WorkspaceRegistry * nat :=
  let kept := List.filter (λ w, negb (needs_cleanup w)) self in
  (kept, (length self - length kept)%nat).
End Workspaces.

(* ------------------------------------------------------------------ *)
(** * Web previews *)

Inductive PreviewAccess := PaPrivate | PaShareableLink.
#[global] Instance PreviewAccess_eq_dec : EqDecision PreviewAccess.
Proof. solve_decision. Defined.
Inductive PreviewStatus :=
| PsPending | PsBuilding | PsAvailable | PsUnavailable (reason : string) | PsExpired.
#[global] Instance PreviewStatus_eq_dec : EqDecision PreviewStatus.
Proof. solve_decision. Defined.

Record WebPreview := mkPreview {
  wp_id : PreviewId;
  wp_workspace_id : WorkspaceId;
  wp_session_id : AgentSessionId;
  wp_access : PreviewAccess;
  wp_status : PreviewStatus;
  wp_health : option HealthStatus;
  wp_url : option string;
  build_error : option string;
  wp_expires_at : option DateTime;
}.
Definition wp_set_status (s : PreviewStatus) (p : WebPreview) : WebPreview :=
  mkPreview (wp_id p) (wp_workspace_id p) (wp_session_id p) (wp_access p) s (wp_health p)
    (wp_url p) (build_error p) (wp_expires_at p).
Definition wp_set_health (h : option HealthStatus) (p : WebPreview) : WebPreview :=
  mkPreview (wp_id p) (wp_workspace_id p) (wp_session_id p) (wp_access p) (wp_status p) h
    (wp_url p) (build_error p) (wp_expires_at p).
Definition wp_set_url (u : option string) (p : WebPreview) : WebPreview :=
  mkPreview (wp_id p) (wp_workspace_id p) (wp_session_id p) (wp_access p) (wp_status p)
    (wp_health p) u (build_error p) (wp_expires_at p).
Definition wp_set_build_error (e : option string) (p : WebPreview) : WebPreview :=
  mkPreview (wp_id p) (wp_workspace_id p) (wp_session_id p) (wp_access p) (wp_status p)
    (wp_health p) (wp_url p) e (wp_expires_at p).

(** [fresh] is the identifier drawn by [PreviewId::new]. *)
Definition WebPreview_new (fresh : PreviewId) (workspace : SessionWorkspace)
    (access : PreviewAccess) (expires_at : option DateTime) : WebPreview :=
  mkPreview fresh (ws_id workspace) (ws_session_id workspace) access PsPending None None None
    expires_at.
Definition temporary_url (self : WebPreview) : option string :=
  if decide (wp_status self = PsAvailable) then wp_url self else None.
Definition is_shareable (self : WebPreview) : bool :=
  bool_decide (wp_status self = PsAvailable) && bool_decide (wp_access self = PaShareableLink).

Section Previews.
Context `{UuidLib} `{StrDebug}.

Definition PreviewStatus_debug (s : PreviewStatus) : string :=
  match s with
  | PsPending => "Pending" | PsBuilding => "Building" | PsAvailable => "Available"
  | PsUnavailable reason => "Unavailable { reason: " +:+ str_debug reason +:+ " }"
  | PsExpired => "Expired"
  end.

Definition notify_build_started : M WebPreview CoreError unit :=
  self ← get;
  if decide (wp_status self ≠ PsPending) then
    mthrow (PreviewUnavailable ("preview " +:+ id_fmt (wp_id self)
              +:+ " cannot start a build while " +:+ PreviewStatus_debug (wp_status self)))
  else modify (wp_set_status PsBuilding).

Definition status_label (result : BuildResult) : string :=
  if br_cancelled result then "cancelled" else "failed".
Definition build_failure_reason (result : BuildResult) : string :=
  "preview build " +:+ status_label result +:+ ": " +:+ br_detail result
  +:+ match br_limit_enforced result with Some l => " (limit " +:+ l +:+ ")" | None => "" end
  +:+ match br_recovery result with Some r => "; recovery: " +:+ r | None => "" end.

Definition preview_record_build (result : BuildResult) : M WebPreview CoreError unit :=
  self ← get;
  if decide (wp_status self = PsAvailable ∨ wp_status self = PsExpired) then
    mthrow (PreviewUnavailable ("preview " +:+ id_fmt (wp_id self)
              +:+ " cannot record a build while " +:+ PreviewStatus_debug (wp_status self)))
  else if BuildResult_is_success result then
    (if decide (wp_status self = PsPending) then modify (wp_set_status PsBuilding) else mret tt);;
    modify (wp_set_build_error None)
  else
    let reason := build_failure_reason result in
    modify (wp_set_build_error (Some reason));;
    modify (wp_set_status (PsUnavailable reason)).

Definition preview_url (id : PreviewId) : string :=
  "https://" +:+ id_fmt id +:+ ".preview.labrys.local".

Definition preview_record_health (health : HealthStatus) : M WebPreview CoreError unit :=
  self ← get;
  if decide (wp_status self = PsExpired) then
    mthrow (PreviewUnavailable ("preview " +:+ id_fmt (wp_id self) +:+ " is expired"))
  else
    modify (wp_set_health (Some health));;
    match health with
    | HsHealthy =>
        match wp_url self with
        | None => modify (wp_set_url (Some (preview_url (wp_id self))))
        | Some _ => mret tt
        end;;
        modify (wp_set_status PsAvailable)
    | HsStarting =>
        if decide (wp_status self = PsPending) then modify (wp_set_status PsBuilding) else mret tt
    | HsUnhealthy reason | HsUnknown reason =>
        modify (wp_set_status (PsUnavailable ("preview health failed: " +:+ reason)))
    end.

Definition WebPreview_to_event_detail (self : WebPreview) : string :=
  "preview " +:+ id_fmt (wp_id self) +:+ " for workspace " +:+ id_fmt (wp_workspace_id self)
  +:+ match wp_status self with
      | PsAvailable => " available at " +:+ default "<pending url>" (wp_url self)
      | PsUnavailable reason => " unavailable: " +:+ reason
      | other => " " +:+ PreviewStatus_debug other
      end.

Definition preview_expire (self : WebPreview) : WebPreview := wp_set_status PsExpired self.
Definition is_live (self : WebPreview) (now : DateTime) : bool :=
  if decide (wp_status self ≠ PsAvailable) then false
  else match wp_expires_at self with
       | Some expiry => bool_decide (now < expiry)
       | None => true
       end.
End Previews.

(* ------------------------------------------------------------------ *)
(** * Expo shares *)

Inductive ExpoTransport := ExpoGo | DevelopmentBuild.
Definition transport_name (t : ExpoTransport) : string :=
  match t with ExpoGo => "expo_go" | DevelopmentBuild => "development_build" end.
Definition is_expo_go (t : ExpoTransport) : bool :=
  match t with ExpoGo => true | _ => false end.
Inductive ExpoShareStatus := XsActive | XsExpired | XsRevoked.
#[global] Instance ExpoShareStatus_eq_dec : EqDecision ExpoShareStatus.
Proof. solve_decision. Defined.
Definition ExpoShareStatus_debug (s : ExpoShareStatus) : string :=
  match s with XsActive => "Active" | XsExpired => "Expired" | XsRevoked => "Revoked" end.

Record ExpoShare := mkShare {
  xs_id : PreviewId;
  xs_workspace_id : WorkspaceId;
  xs_session_id : AgentSessionId;
  project_slug : string;
  dev_server_url : string;
  transport : ExpoTransport;
  xs_status : ExpoShareStatus;
  xs_expires_at : DateTime;
  qr_payload : string;
}.

Section Shares.
Context `{UuidLib} `{ChronoText}.

Definition discover_server_url (host : string) (port : Z) : result CoreError string :=
  if trim_is_empty host then
    Err (PreviewUnavailable "expo server discovery requires a host")
  else if decide (port = 0) then
    Err (PreviewUnavailable "expo server discovery requires a port in 1..=65535")
  else Ok ("exp://" +:+ host +:+ ":" +:+ pretty port).

Definition qr_payload_for (dev_server_url project_slug : string) (session_id : AgentSessionId)
    (transport : ExpoTransport) : string :=
  dev_server_url +:+ "/--/expo?project=" +:+ project_slug +:+ "&session=" +:+ id_fmt session_id
  +:+ "&transport=" +:+ transport_name transport.

Definition ExpoShare_new (fresh : PreviewId) (workspace : SessionWorkspace)
    (project_slug dev_server_url : string) (transport : ExpoTransport) (expires_at : DateTime) :
    result CoreError ExpoShare :=
  if trim_is_empty project_slug then
    Err (PreviewUnavailable "expo share requires a project slug")
  else if trim_is_empty dev_server_url then
    Err (PreviewUnavailable "expo share requires a dev server url")
  else
    Ok (mkShare fresh (ws_id workspace) (ws_session_id workspace) project_slug dev_server_url
          transport XsActive expires_at
          (qr_payload_for dev_server_url project_slug (ws_session_id workspace) transport)).

Definition share_is_active (self : ExpoShare) (now : DateTime) : bool :=
  bool_decide (xs_status self = XsActive) && bool_decide (now < xs_expires_at self).
Definition xs_set_status (s : ExpoShareStatus) (x : ExpoShare) : ExpoShare :=
  mkShare (xs_id x) (xs_workspace_id x) (xs_session_id x) (project_slug x) (dev_server_url x)
    (transport x) s (xs_expires_at x) (qr_payload x).
Definition share_expire (self : ExpoShare) : ExpoShare := xs_set_status XsExpired self.
Definition share_revoke (self : ExpoShare) : ExpoShare := xs_set_status XsRevoked self.
Definition ExpoShare_to_event_detail (self : ExpoShare) : string :=
  "expo share " +:+ id_fmt (xs_id self) +:+ " project '" +:+ project_slug self +:+ "' server "
  +:+ dev_server_url self +:+ " expires " +:+ to_rfc3339 (xs_expires_at self) +:+ " transport "
  +:+ transport_name (transport self) +:+ " status " +:+ ExpoShareStatus_debug (xs_status self).
End Shares.

(* ------------------------------------------------------------------ *)
(** * Feedback *)

Record Feedback := mkFeedback {
  fb_id : FeedbackId;
  fb_workspace_id : WorkspaceId;
  fb_session_id : AgentSessionId;
  fb_preview_id : option PreviewId;
  fb_author : string;
  fb_body : string;
  fb_created_at : DateTime;
}.

Section Feedbacks.
Context `{UuidLib}.

Definition Feedback_new (fresh : FeedbackId) (workspace : SessionWorkspace)
    (author body : string) (created_at : DateTime) : result CoreError Feedback :=
  if trim_is_empty author then Err (WorkspaceState "feedback requires an author")
  else if trim_is_empty body then Err (WorkspaceState "feedback requires a body")
  else Ok (mkFeedback fresh (ws_id workspace) (ws_session_id workspace) None author body created_at).
Definition fb_set_preview (p : PreviewId) (f : Feedback) : Feedback :=
  mkFeedback (fb_id f) (fb_workspace_id f) (fb_session_id f) (Some p) (fb_author f) (fb_body f)
    (fb_created_at f).

Definition for_web_preview (fresh : FeedbackId) (workspace : SessionWorkspace)
    (preview : WebPreview) (author body : string) (created_at : DateTime) :
    result CoreError Feedback :=
  if decide (wp_workspace_id preview ≠ ws_id workspace) then
    Err (WorkspaceState ("feedback preview " +:+ id_fmt (wp_id preview)
           +:+ " does not belong to workspace " +:+ id_fmt (ws_id workspace)))
  else
    feedback ← Feedback_new fresh workspace author body created_at;
    Ok (fb_set_preview (wp_id preview) feedback).
Definition for_expo_share (fresh : FeedbackId) (workspace : SessionWorkspace)
    (share : ExpoShare) (author body : string) (created_at : DateTime) :
    result CoreError Feedback :=
  if decide (xs_workspace_id share ≠ ws_id workspace) then
    Err (WorkspaceState ("feedback expo share " +:+ id_fmt (xs_id share)
           +:+ " does not belong to workspace " +:+ id_fmt (ws_id workspace)))
  else
    feedback ← Feedback_new fresh workspace author body created_at;
    Ok (fb_set_preview (xs_id share) feedback).
End Feedbacks.

(* ------------------------------------------------------------------ *)
(** * One worktree *)

Section WorkspaceFacts.
Context `{UuidLib}.

Inductive WorkspaceOp :=
| WoDiff (diff : WorkspaceDiff) | WoMerge (approval : ExplicitApproval) | WoDiscard.
Definition run_workspace_op (op : WorkspaceOp) (w : SessionWorkspace) :
    outcome (SessionWorkspace * result CoreError (option MergeRequest)) :=
  match op with
  | WoDiff diff => (record_diff diff;; mret None) w
  | WoMerge approval => (m ← merge approval; mret (Some m)) w
  | WoDiscard => (discard;; mret None) w
  end.

(** What the owner of a worktree may do with it, and the result. *)
Definition workspace_effect (op : WorkspaceOp) (w : SessionWorkspace) : option SessionWorkspace :=
  if decide (ws_status w = WtActive) then
    match op with
    | WoDiff diff => Some (ws_set_diff (Some diff) w)
    | WoMerge approval =>
        diff ← ws_diff w;
        if decide (approval_ok approval ∧ is_empty_change diff = false)
        then Some (ws_set_status WtMerged w) else None
    | WoDiscard => Some (ws_set_diff None (ws_set_status WtDiscarded w))
    end
  else None.
Definition merge_result (op : WorkspaceOp) (w : SessionWorkspace) : option MergeRequest :=
  match op with
  | WoMerge approval => (λ d, mkMerge (ws_id w) d (Some (approver approval))) <$> ws_diff w
  | _ => None
  end.

(** A worktree can be changed only while it is active.  A diff is
    recorded, a discard drops the diff, and a merge needs a recorded diff that
    changes something and a granted, named approval: it then returns exactly that
    diff with the approver's name.  Every other call is refused and leaves the
    worktree as it was, so a merged or discarded worktree never changes again. *)
Theorem workspace_op_spec op w :
  match workspace_effect op w with
  | Some w' => run_workspace_op op w = Done (w', Ok (merge_result op w)) ∧
      ws_id w' = ws_id w ∧ worktree_path w' = worktree_path w ∧ base_sha w' = base_sha w
  | None => ∃ e, run_workspace_op op w = Done (w, Err e)
  end.
Proof.
  unfold workspace_effect, run_workspace_op, record_diff, merge, merge_ready, discard.
  destruct op as [diff|a|]; unfold_monad.
  - destruct (decide (ws_status w = WtActive)) as [E|E].
    + rewrite decide_False by (intros Hn; by apply Hn). done.
    + rewrite decide_True by done. by eexists.
  - destruct (decide (ws_status w = WtActive)) as [E|E].
    2:{ rewrite decide_True by done. by eexists. }
    rewrite decide_False by (intros Hn; by apply Hn).
    destruct (ws_diff w) as [d|]; simpl; [|by eexists].
    case_decide as Hc.
    + destruct Hc as [[-> ->] ->]. done.
    + unfold approval_ok in Hc. destruct (is_empty_change d); [by eexists|].
      destruct (approved a), (trim_is_empty (approver a)); try (by eexists); naive_solver.
  - destruct (decide (ws_status w = WtActive)) as [E|E].
    + rewrite decide_False by (intros Hn; by apply Hn). done.
    + rewrite decide_True by done. by eexists.
Qed.

(** The state after a call, whatever its answer. *)
Definition worked (op : WorkspaceOp) (w : SessionWorkspace) : SessionWorkspace :=
  default w (workspace_effect op w).

Definition same_identity (w w' : SessionWorkspace) : Prop :=
  ws_id w' = ws_id w ∧ ws_session_id w' = ws_session_id w ∧
  ws_application_id w' = ws_application_id w ∧ worktree_path w' = worktree_path w ∧
  branch w' = branch w.
Lemma worked_identity op w : same_identity w (worked op w).
Proof.
  unfold worked, workspace_effect, same_identity. case_decide; [|done].
  destruct op; simpl; try done. destruct (ws_diff w); simpl; [|done]. by case_decide.
Qed.

(* ------------------------------------------------------------------ *)
(** * The registry and the copies its callers hold *)

(** [allocate] and [get] hand out copies; a caller works on its copy and writes
    it back with [sync], possibly late. *)
Record Sessions := { registry : list SessionWorkspace; copies : list SessionWorkspace }.
Inductive RegistryOp :=
| RoAllocate (fresh : WorkspaceId) (repo : CanonicalRepository) (s : AgentSessionId) (env : string)
| RoGet (id : WorkspaceId)
| RoWork (i : nat) (op : WorkspaceOp)
| RoSync (i : nat)
| RoCleanup.
Definition everyone (s : Sessions) : list SessionWorkspace := registry s ++ copies s.
Definition registry_fresh (op : RegistryOp) (s : Sessions) : Prop :=
  match op with RoAllocate fresh _ _ _ => fresh ∉ ws_id <$> everyone s | _ => True end.
Definition run_registry_op (op : RegistryOp) (s : Sessions) : Sessions :=
  match op with
  | RoAllocate fresh repo session env =>
      match allocate fresh repo session env (registry s) with
      | Done (reg, Ok w) => {| registry := reg; copies := copies s ++ [w] |}
      | Done (reg, Err _) => {| registry := reg; copies := copies s |}
      | Panic _ => s
      end
  | RoGet id =>
      match WorkspaceRegistry_get (registry s) id with
      | Some w => {| registry := registry s; copies := copies s ++ [w] |}
      | None => s
      end
  | RoWork i op =>
      match copies s !! i with
      | Some w =>
          match run_workspace_op op w with
          | Done (w', _) => {| registry := registry s; copies := <[i := w']> (copies s) |}
          | Panic _ => s
          end
      | None => s
      end
  | RoSync i =>
      match copies s !! i with
      | Some w => {| registry := sync w (registry s); copies := copies s |}
      | None => s
      end
  | RoCleanup => {| registry := (cleanup_finished (registry s)).1; copies := copies s |}
  end.
Definition registry_step (s s' : Sessions) : Prop :=
  ∃ op, registry_fresh op s ∧ s' = run_registry_op op s.
Definition no_sessions : Sessions := {| registry := []; copies := [] |}.

Record sessions_inv (s : Sessions) : Prop := {
  si_ids : NoDup (ws_id <$> registry s);
  si_owner : ∀ w w', w ∈ registry s → w' ∈ registry s →
    ws_session_id w = ws_session_id w' → ws_application_id w = ws_application_id w' →
    ws_id w = ws_id w';
  si_identity : ∀ w w', w ∈ everyone s → w' ∈ everyone s → ws_id w = ws_id w' → same_identity w w';
  si_paths : ∀ w, w ∈ everyone s →
    worktree_path w = "worktrees/" +:+ id_fmt (ws_session_id w) ∧
    branch w = "session/" +:+ id_fmt (ws_session_id w);
}.

Lemma run_workspace_worked op w : ∃ r, run_workspace_op op w = Done (worked op w, r).
Proof.
  pose proof (workspace_op_spec op w) as Hs. unfold worked.
  destruct (workspace_effect op w) as [w'|]; [destruct Hs as [-> _]|destruct Hs as [e ->]]; by eexists.
Qed.
Lemma same_identity_sym w w' : same_identity w w' → same_identity w' w.
Proof. unfold same_identity. intuition congruence. Qed.
Lemma same_identity_trans w1 w2 w3 :
  same_identity w1 w2 → same_identity w2 w3 → same_identity w1 w3.
Proof. unfold same_identity. intuition congruence. Qed.

Lemma same_identity_refl w : same_identity w w.
Proof. done. Qed.

(** The invariant survives when worktrees come from worktrees. *)
Lemma evolve_inv s s' :
  sessions_inv s → NoDup (ws_id <$> registry s') →
  (∀ w, w ∈ registry s' → ∃ w0, w0 ∈ registry s ∧ same_identity w0 w) →
  (∀ w, w ∈ copies s' → ∃ w0, w0 ∈ everyone s ∧ same_identity w0 w) → sessions_inv s'.
Proof.
  intros [_ Hown Hid Hpath] Hnd Hreg Hcop.
  assert (∀ w, w ∈ everyone s' → ∃ w0, w0 ∈ everyone s ∧ same_identity w0 w) as Hev.
  { intros w [Hw|Hw]%elem_of_app; [|by apply Hcop].
    destruct (Hreg w Hw) as (w0 & H0 & ?). exists w0. split; [by apply elem_of_app; left|done]. }
  split; [done| | |].
  - intros w w' Hw Hw' Hs Ha. destruct (Hreg w Hw) as (u & Hu & (E1&E2&E3&_)).
    destruct (Hreg w' Hw') as (u' & Hu' & (F1&F2&F3&_)). rewrite E1, F1.
    apply Hown; congruence.
  - intros w w' Hw Hw' E. destruct (Hev w Hw) as (u & Hu & Hi), (Hev w' Hw') as (u' & Hu' & Hi').
    eapply same_identity_trans; [by apply same_identity_sym|].
    eapply same_identity_trans; [|done]. apply Hid; [done|done|].
    destruct Hi as [-> _] in E. destruct Hi' as [-> _] in E. done.
  - intros w Hw. destruct (Hev w Hw) as (u & Hu & (_ & E2 & _ & E4 & E5)).
    rewrite E2, E4, E5. by apply Hpath.
Qed.

Lemma everyone_reg s w : w ∈ registry s → w ∈ everyone s.
Proof. intros. by apply elem_of_app; left. Qed.
Lemma everyone_copy s w : w ∈ copies s → w ∈ everyone s.
Proof. intros. by apply elem_of_app; right. Qed.

Lemma sync_inv s i w :
  sessions_inv s → copies s !! i = Some w →
  sessions_inv {| registry := sync w (registry s); copies := copies s |}.
Proof.
  intros Hinv Hw. apply (evolve_inv s); [done| | |]; simpl.
  - unfold sync. setoid_rewrite update_first_map; [apply Hinv|].
    intros x Hx. by apply bool_decide_eq_true in Hx.
  - intros w' [Hw'|(y & Hy & Hp & ->)]%elem_of_update_first; [by exists w'|].
    exists y. split; [done|]. apply bool_decide_eq_true in Hp.
    apply (si_identity s Hinv); [by apply everyone_reg| |done].
    by apply everyone_copy, list_elem_of_lookup_2 in Hw || eapply everyone_copy, list_elem_of_lookup_2.
  - intros w' Hw'. exists w'. split; [by apply everyone_copy|done].
Qed.

Lemma allocate_cases fresh repo session env reg :
  (∃ e, allocate fresh repo session env reg = Done (reg, Err e)) ∨
  ∃ w, allocate fresh repo session env reg = Done (reg ++ [w], Ok w) ∧
    SessionWorkspace_open fresh repo session env = Ok w ∧
    ∀ w', w' ∈ reg → ws_session_id w' = session → ws_application_id w' ≠ cr_application_id repo.
Proof.
  unfold allocate. unfold_monad. destruct (existsb _ reg) eqn:Hex; [left; by eexists|].
  destruct (SessionWorkspace_open fresh repo session env) as [w|e]; [|left; by eexists].
  right. exists w. split_and!; [done|done|]. rewrite existsb_false in Hex.
  intros w' Hw' Hs Ha. specialize (Hex w' Hw'). rewrite andb_false_iff, !bool_decide_eq_false in Hex.
  naive_solver.
Qed.
Lemma open_fields fresh repo session env w :
  SessionWorkspace_open fresh repo session env = Ok w →
  ws_id w = fresh ∧ ws_session_id w = session ∧ ws_application_id w = cr_application_id repo ∧
  worktree_path w = "worktrees/" +:+ id_fmt session ∧ branch w = "session/" +:+ id_fmt session.
Proof. unfold SessionWorkspace_open. case_match; naive_solver. Qed.

Lemma allocate_inv s fresh repo session env w :
  sessions_inv s → fresh ∉ ws_id <$> everyone s →
  SessionWorkspace_open fresh repo session env = Ok w →
  (∀ w', w' ∈ registry s → ws_session_id w' = session →
     ws_application_id w' ≠ cr_application_id repo) →
  sessions_inv {| registry := registry s ++ [w]; copies := copies s ++ [w] |}.
Proof.
  intros [Hnd Hown Hid Hpath] Hf (Hi & Hs & Ha & Hp & Hb)%open_fields Hfree.
  assert (∀ u, u ∈ everyone s → ws_id u ≠ fresh) as Hne.
  { intros u Hu E. apply Hf. rewrite <- E. by apply list_elem_of_fmap_2. }
  assert (∀ u, u ∈ everyone {| registry := registry s ++ [w]; copies := copies s ++ [w] |} →
            u ∈ everyone s ∨ u = w) as Hev.
  { intros u. unfold everyone. simpl. rewrite !elem_of_app, list_elem_of_singleton. tauto. }
  split; simpl.
  - rewrite fmap_app. apply NoDup_app. split_and!; [done| |apply NoDup_singleton].
    intros x (u & -> & Hu)%list_elem_of_fmap. simpl. rewrite list_elem_of_singleton, Hi.
    by apply Hne, everyone_reg.
  - intros u u' [Hu| ->%list_elem_of_singleton]%elem_of_app
      [Hu'| ->%list_elem_of_singleton]%elem_of_app Es Ea; [by apply Hown| | |done]; exfalso.
    + apply (Hfree u Hu); congruence.
    + apply (Hfree u' Hu'); congruence.
  - intros u u' [Hu| ->]%Hev [Hu'| ->]%Hev E; [by apply Hid| | |done]; exfalso;
      [by apply (Hne u Hu); congruence|by apply (Hne u' Hu'); congruence].
  - intros u [Hu| ->]%Hev; [by apply Hpath|]. by rewrite Hs.
Qed.

Lemma registry_step_inv s s' : registry_step s s' → sessions_inv s → sessions_inv s'.
Proof.
  intros (op & Hf & ->) Hinv. destruct op as [fresh repo session env|id|i op|i|]; simpl in *.
  - destruct (allocate_cases fresh repo session env (registry s)) as [[e ->]|(w & -> & Ho & Hfree)].
    + by destruct s.
    + by eapply allocate_inv.
  - destruct (WorkspaceRegistry_get (registry s) id) as [w|] eqn:Eg; [|done].
    apply find_Some_elem in Eg as [Hw _]. apply (evolve_inv s); [done|apply Hinv| |]; simpl.
    + intros u Hu. by exists u.
    + intros u [Hu| ->%list_elem_of_singleton]%elem_of_app;
        [exists u; split; [by apply everyone_copy|done]|exists w; split; [by apply everyone_reg|done]].
  - destruct (copies s !! i) as [w|] eqn:Ew; [|done].
    destruct (run_workspace_worked op w) as [r ->].
    apply (evolve_inv s); [done|apply Hinv| |]; simpl.
    + intros u Hu. by exists u.
    + intros u [j Hu]%list_elem_of_lookup. apply list_lookup_insert_Some in Hu as [(<- & <- & _)|[_ Hu]].
      * exists w. split; [by eapply everyone_copy, list_elem_of_lookup_2|apply worked_identity].
      * exists u. split; [by eapply everyone_copy, list_elem_of_lookup_2|done].
  - destruct (copies s !! i) as [w|] eqn:Ew; [|done]. by eapply sync_inv.
  - apply (evolve_inv s); [done| | |]; simpl.
    + eapply sublist_NoDup; [apply Hinv|]. apply fmap_sublist, lfilter_sublist.
    + intros u [Hu _]%elem_of_lfilter. by exists u.
    + intros u Hu. exists u. split; [by apply everyone_copy|done].
Qed.
Lemma sessions_reachable_inv s : rtc registry_step no_sessions s → sessions_inv s.
Proof.
  assert (sessions_inv no_sessions) as H0.
  { split; [constructor|..]; intros *; simpl; set_solver. }
  intros Hr. revert H0. induction Hr; eauto using registry_step_inv.
Qed.
End WorkspaceFacts.

(** However sessions allocate worktrees, work on their copies, write
    them back late or clean up, two entries of the registry that belong to the
    same application have different sessions, different worktree paths and
    different branches, and each entry still has the path and branch of its own
    session. *)
Theorem worktrees_are_isolated `{UuidLaws} s i j w w' :
  rtc registry_step no_sessions s → registry s !! i = Some w → registry s !! j = Some w' →
  i ≠ j → ws_application_id w = ws_application_id w' →
  ws_session_id w ≠ ws_session_id w' ∧ worktree_path w ≠ worktree_path w' ∧ branch w ≠ branch w' ∧
  worktree_path w = "worktrees/" +:+ id_fmt (ws_session_id w).
Proof.
  intros Hs%sessions_reachable_inv Hi Hj Hne Ha.
  assert (ws_session_id w ≠ ws_session_id w') as Hse.
  { intros Es. apply Hne. apply (NoDup_lookup _ _ _ (ws_id w) (si_ids s Hs));
      rewrite list_lookup_fmap; [by rewrite Hi|]. rewrite Hj. simpl. f_equal. symmetry.
    apply (si_owner s Hs); eauto using list_elem_of_lookup_2. }
  destruct (si_paths s Hs w) as [Hp Hb]; [by eapply everyone_reg, list_elem_of_lookup_2|].
  destruct (si_paths s Hs w') as [Hp' Hb']; [by eapply everyone_reg, list_elem_of_lookup_2|].
  split_and!; [done| | |done]; rewrite ?Hp, ?Hp', ?Hb, ?Hb'; intros E; apply Hse;
    by simplify_eq.
Qed.

(* ------------------------------------------------------------------ *)
(** * The preview gate *)

Section PreviewFacts.
Context `{UuidLib} `{StrDebug}.

Inductive PreviewOp :=
| PvBuildStarted | PvBuild (result : BuildResult) | PvHealth (health : HealthStatus) | PvExpire.
Definition run_preview_op (op : PreviewOp) (p : WebPreview) :
    outcome (WebPreview * result CoreError unit) :=
  match op with
  | PvBuildStarted => notify_build_started p
  | PvBuild result => preview_record_build result p
  | PvHealth health => preview_record_health health p
  | PvExpire => Done (preview_expire p, Ok tt)
  end.
Definition preview_step (p p' : WebPreview) : Prop := ∃ op r, run_preview_op op p = Done (p', r).

(** The last reading that was not [Starting] was healthy. *)
Record preview_inv (p : WebPreview) : Prop := {
  pv_url : ∀ u, wp_url p = Some u → u = preview_url (wp_id p);
  pv_available : wp_status p = PsAvailable →
    is_Some (wp_url p) ∧ (wp_health p = Some HsHealthy ∨ wp_health p = Some HsStarting);
}.
Lemma preview_step_inv p p' : preview_step p p' → preview_inv p → preview_inv p' ∧ wp_id p' = wp_id p.
Proof.
  intros (op & r & Hrun) [Hu Ha].
  destruct op as [|result|health|]; simpl in Hrun;
    unfold notify_build_started, preview_record_build, preview_record_health, preview_expire in Hrun;
    run_op Hrun; (split; [|done]); split; simpl; naive_solver.
Qed.
Lemma preview_reachable_inv fresh w access expires p :
  rtc preview_step (WebPreview_new fresh w access expires) p → preview_inv p ∧ wp_id p = fresh.
Proof.
  intros Hr. assert (preview_inv (WebPreview_new fresh w access expires)) as H1 by by split.
  assert (wp_id (WebPreview_new fresh w access expires) = fresh) as H2 by done.
  revert H1 H2. induction Hr as [|p1 p2 p3 Hstep _ IH]; [done|]. intros Hi Hid.
  destruct (preview_step_inv _ _ Hstep Hi) as [Hi2 Hid2]. apply IH; congruence.
Qed.
Lemma preview_expired_step p p' : preview_step p p' → wp_status p = PsExpired → wp_status p' = PsExpired.
Proof.
  intros (op & r & Hrun) He. destruct op as [|result|health|]; simpl in Hrun;
    unfold notify_build_started, preview_record_build, preview_record_health, preview_expire in Hrun;
    run_op Hrun; simpl;
    first [congruence
          |exfalso; match goal with n : ¬ _ |- _ => apply n; first [congruence|by right] end].
Qed.

(** A preview hands out a URL only while it is available, the URL is
    the one of its own identifier, and its last health reading was healthy or
    starting.  A preview that is unhealthy, of unknown health, building or
    expired has none; an expired preview never has one again; and a preview is
    live only before its expiry. *)
Theorem preview_url_gate fresh w access expires p :
  rtc preview_step (WebPreview_new fresh w access expires) p →
  (∀ u, temporary_url p = Some u →
     u = preview_url fresh ∧ wp_status p = PsAvailable ∧
     (wp_health p = Some HsHealthy ∨ wp_health p = Some HsStarting)) ∧
  (∀ p', wp_status p = PsExpired → rtc preview_step p p' → temporary_url p' = None) ∧
  (∀ now, is_live p now = true → is_Some (temporary_url p) ∧
     ∀ t, wp_expires_at p = Some t → now < t).
Proof.
  intros [[Hu Ha] Hid]%preview_reachable_inv. unfold temporary_url. split_and!.
  - intros u. case_decide as Hs; [|done]. intros Hu'. destruct (Ha Hs) as [_ Hh].
    split_and!; [|done|done]. by rewrite (Hu u Hu'), Hid.
  - intros p' He Hr. assert (wp_status p' = PsExpired) as ->; [|done].
    clear Hu Ha Hid. induction Hr; eauto using preview_expired_step.
  - intros now. unfold is_live. case_decide as Hs; [done|].
    destruct (decide (wp_status p = PsAvailable)) as [Hav|]; [|done]. intros Hl.
    split; [by apply Ha|]. intros t Ht. rewrite Ht in Hl. by apply bool_decide_eq_true in Hl.
Qed.

(** An available preview stays available when its runtime reports that it is
    starting again. *)
Lemma starting_keeps_available p :
  wp_status p = PsAvailable →
  preview_record_health HsStarting p = Done (wp_set_health (Some HsStarting) p, Ok tt).
Proof.
  intros Hs. unfold preview_record_health. unfold_monad. rewrite Hs. done.
Qed.
End PreviewFacts.

(* ------------------------------------------------------------------ *)
(** * Examples *)

Module WorkspaceExamples.
Import RefInstances.
Definition repo (n : N) (Hn : (n <? 2 ^ 128)%N = true) : CanonicalRepository :=
  {| cr_application_id := mkId (mkUuid n Hn); default_branch := "main"; head_sha := "c0ffee" |}.
Definition alloc1 : RegistryOp := RoAllocate (mkId (uuid 1)) (repo 50 eq_refl) (mkId (uuid 5)) "dev".
Definition alloc2 : RegistryOp := RoAllocate (mkId (uuid 2)) (repo 50 eq_refl) (mkId (uuid 6)) "dev".
(** The session of [alloc1] on another application. *)
Definition alloc3 : RegistryOp := RoAllocate (mkId (uuid 3)) (repo 51 eq_refl) (mkId (uuid 5)) "dev".
Definition s1 : Sessions := run_registry_op alloc1 no_sessions.
Definition s2 : Sessions := run_registry_op alloc2 s1.
Definition s3 : Sessions := run_registry_op alloc3 s2.
Lemma s2_reachable : rtc registry_step no_sessions s2.
Proof.
  apply (rtc_l _ _ s1); [exists alloc1|apply rtc_once; exists alloc2]; split; try reflexivity;
    apply (bool_decide_unpack _); vm_compute; exact I.
Qed.
Definition entry (n : nat) : SessionWorkspace :=
  default (mkWorkspace (mkId (uuid 0)) (mkId (uuid 0)) "" (mkId (uuid 0)) "" "" "" WtActive None)
    (registry s2 !! n).

Lemma worktrees_are_isolated_witness :
  (registry s2 !! 0%nat = Some (entry 0) ∧ registry s2 !! 1%nat = Some (entry 1) ∧
   ws_application_id (entry 0) = ws_application_id (entry 1)) ∧
  worktree_path (entry 0) ≠ worktree_path (entry 1).
Proof.
  split; [split_and!; reflexivity|].
  apply (worktrees_are_isolated s2 0 1 (entry 0) (entry 1) s2_reachable); [reflexivity..|done|reflexivity].
Defined.

(** One session on two applications gets one worktree path. *)
Example two_applications_share_a_path :
  (worktree_path <$> registry s3 !! 0%nat) = (worktree_path <$> registry s3 !! 2%nat) ∧
  (ws_application_id <$> registry s3 !! 0%nat) ≠ (ws_application_id <$> registry s3 !! 2%nat).
Proof. split; [reflexivity|done]. Qed.

Definition fresh_preview : WebPreview :=
  WebPreview_new (mkId (uuid 8)) (entry 0) PaShareableLink (Some 100).
Definition live_preview : WebPreview :=
  (done_or (fresh_preview, Ok tt) (preview_record_health HsHealthy fresh_preview)).1.
Lemma preview_url_gate_witness :
  rtc preview_step fresh_preview live_preview ∧
  is_live live_preview 7 = true ∧ is_Some (temporary_url live_preview).
Proof.
  assert (rtc preview_step fresh_preview live_preview) as Hr.
  { apply rtc_once. exists (PvHealth HsHealthy), (Ok tt). reflexivity. }
  split; [exact Hr|]. split; [reflexivity|].
  destruct (preview_url_gate (mkId (uuid 8)) (entry 0) PaShareableLink (Some 100) live_preview Hr)
    as (_ & _ & Hl).
  apply (Hl 7). reflexivity.
Defined.
End WorkspaceExamples.
