(* ===== verification/Json.v ===== *)
(** The interface of [serde_json] beyond storing values: building, reading,
    printing and parsing [serde_json::Value]s.  The crate is not part of the
    repository; the documented behaviour the theorems rely on is stated as laws,
    and a reference instance satisfies them. *)

From stdpp Require Import base option list strings pretty countable.
From Stdlib Require Import ZArith Lia.
From S2P Require Import Prelude External.
Local Open Scope Z_scope.

(** The first binding of a key. *)
Fixpoint assoc {V} (k : string) (l : list (string * V)) : option V :=
  match l with
  | [] => None
  | (k', v) :: l' => if decide (k = k') then Some v else assoc k l'
  end.

Class JsonOps `{JsonLib} := {
  (** The constructors of [Value] that [json!] uses; [json_float] is the number
      with that decimal text. *)
  json_bool : bool → Json;
  json_u64 : Z → Json;
  json_float : string → Json;
  json_str : string → Json;
  json_array : list Json → Json;
  json_object : list (string * Json) → Json;
  (** [Value::get] with a string index, and the keys of an object. *)
  json_get : string → Json → option Json;
  json_keys : Json → option (list string);
  json_as_u64 : Json → option Z;
  json_as_str : Json → option string;
  json_as_array : Json → option (list Json);
  json_is_null : Json → bool;
  (** [serde_json::to_string] and [from_str] on a [Value]. *)
  json_print : Json → string;
  json_parse : string → option Json;
  (** Values that survive printing and parsing (floating-point numbers may lose
      their last digit). *)
  json_exact : Json → Prop;
}.
Class JsonLaws `{JsonOps} : Prop := {
  json_get_object k l : NoDup l.*1 → json_get k (json_object l) = assoc k l;
  json_keys_object l : NoDup l.*1 → ∃ ks, json_keys (json_object l) = Some ks ∧ ks ≡ₚ l.*1;
  json_as_u64_u64 n : 0 ≤ n ≤ u64_max → json_as_u64 (json_u64 n) = Some n;
  json_as_str_str s : json_as_str (json_str s) = Some s;
  json_str_not_null s : json_is_null (json_str s) = false;
  json_exact_str s : json_exact (json_str s);
  json_exact_u64 n : 0 ≤ n ≤ u64_max → json_exact (json_u64 n);
  json_exact_object l : NoDup l.*1 → Forall (λ p, json_exact p.2) l → json_exact (json_object l);
  json_parse_print v : json_exact v → json_parse (json_print v) = Some v;
}.

(** [json!] turns [None] into [null]. *)
Definition json_option `{JsonLib} (o : option Json) : Json := default json_null o.

Lemma assoc_in {V} k (l : list (string * V)) v : assoc k l = Some v → (k, v) ∈ l.
Proof.
  induction l as [|[k' v'] l IH]; simpl; [done|]. case_decide; intros; simplify_eq; [left|right; auto].
Qed.

(* ------------------------------------------------------------------ *)
(** * Reference instance: labelled trees, printed as the bits of their code *)

Module RefJson.
Definition leaf : Type := string + (Z + bool).
Definition tree : Type := gen_tree leaf.
#[global] Instance tree_json : JsonLib := { Json := tree; json_null := GenNode 0 [] }.

Fixpoint flatten (l : list (string * tree)) : list tree :=
  match l with [] => [] | (k, v) :: l' => GenLeaf (inl k) :: v :: flatten l' end.
Fixpoint entries (l : list tree) : list (string * tree) :=
  match l with GenLeaf (inl k) :: v :: l' => (k, v) :: entries l' | _ => [] end.
Lemma entries_flatten l : entries (flatten l) = l.
Proof. induction l as [|[k v] l IH]; simpl; [done|]. by rewrite IH. Qed.

Fixpoint bits (p : positive) : string :=
  match p with
  | xH => ""
  | xO q => String.String (Ascii.ascii_of_nat 48) (bits q)
  | xI q => String.String (Ascii.ascii_of_nat 49) (bits q)
  end.
Fixpoint of_bits (s : string) : positive :=
  match s with
  | ""%string => xH
  | String.String c s' =>
      if decide (c = Ascii.ascii_of_nat 48) then xO (of_bits s') else xI (of_bits s')
  end.
Lemma of_bits_bits p : of_bits (bits p) = p.
Proof. induction p as [p IH|p IH|]; simpl; [by rewrite IH..|done]. Qed.

#[global] Instance tree_ops : JsonOps := {
  json_bool b := GenLeaf (inr (inr b));
  json_u64 n := GenLeaf (inr (inl n));
  json_float s := GenNode 3 [GenLeaf (inl s)];
  json_str s := GenLeaf (inl s);
  json_array l := GenNode 1 l;
  json_object l := GenNode 2 (flatten l);
  json_get k v := match v with GenNode 2 l => assoc k (entries l) | _ => None end;
  json_keys v := match v with GenNode 2 l => Some (entries l).*1 | _ => None end;
  json_as_u64 v := match v with GenLeaf (inr (inl n)) => Some n | _ => None end;
  json_as_str v := match v with GenLeaf (inl s) => Some s | _ => None end;
  json_as_array v := match v with GenNode 1 l => Some l | _ => None end;
  json_is_null v := match v with GenNode 0 [] => true | _ => false end;
  json_print v := bits (encode v);
  json_parse s := decode (of_bits s);
  json_exact _ := True;
}.
#[global] Instance tree_laws : JsonLaws.
Proof.
  constructor; simpl; try done.
  - intros k l _. by rewrite entries_flatten.
  - intros l _. eexists. split; [done|]. by rewrite entries_flatten.
  - intros v _. rewrite of_bits_bits. apply decode_encode.
Qed.
End RefJson.
