(* ===== verification/Plugin.v ===== *)
(** The plugin protocol (plugin.rs): handshake, process lifecycle, registry,
    JSON-RPC frames and the example plugin of each family. *)

From stdpp Require Import base option list strings pretty gmap relations.
From Stdlib Require Import ZArith Lia.
From S2P Require Import Prelude External Errors Deployment Json.
Local Open Scope Z_scope.

Definition PLUGIN_PROTOCOL_VERSION : Z := 1.

(* ------------------------------------------------------------------ *)
(** * Families and manifests *)

Inductive PluginFamily :=
| AgentProvider | CapabilityProvider | BindingProvider | RuntimeProvider | InspectorProvider
| DeployProvider.
#[global] Instance PluginFamily_eq_dec : EqDecision PluginFamily.
Proof. solve_decision. Defined.
Definition PluginFamily_all : list PluginFamily :=
  [AgentProvider; CapabilityProvider; BindingProvider; RuntimeProvider; InspectorProvider;
   DeployProvider].
Definition family_name (f : PluginFamily) : string :=
  match f with
  | AgentProvider => "agent_provider" | CapabilityProvider => "capability_provider"
  | BindingProvider => "binding_provider" | RuntimeProvider => "runtime_provider"
  | InspectorProvider => "inspector_provider" | DeployProvider => "deploy_provider"
  end.
Definition required_methods (f : PluginFamily) : list string :=
  match f with
  | AgentProvider => ["agent.draft_events"; "agent.interrupt"]
  | CapabilityProvider => ["capability.plan"; "capability.observe"]
  | BindingProvider => ["binding.resolve"]
  | RuntimeProvider => ["runtime.detect"; "runtime.prepare"]
  | InspectorProvider => ["inspect.snapshot"; "inspect.findings"]
  | DeployProvider => ["deploy.build"; "deploy.rollback"]
  end.

Record PluginManifest := mkManifest {
  pm_id : string;
  pm_name : string;
  pm_version : string;
  pm_family : PluginFamily;
  pm_protocol_version : Z;
  pm_methods : list string;
  pm_command : list string;
  pm_capabilities : list string;
}.
Definition PluginManifest_new (id name : string) (family : PluginFamily) (protocol_version : Z)
    (methods : list string) : PluginManifest :=
  mkManifest id name "0.1.0" family protocol_version methods [] [].
Definition with_command (command : list string) (m : PluginManifest) : PluginManifest :=
  mkManifest (pm_id m) (pm_name m) (pm_version m) (pm_family m) (pm_protocol_version m)
    (pm_methods m) command (pm_capabilities m).
Definition with_capabilities (caps : list string) (m : PluginManifest) : PluginManifest :=
  mkManifest (pm_id m) (pm_name m) (pm_version m) (pm_family m) (pm_protocol_version m)
    (pm_methods m) (pm_command m) caps.
Definition answers (m : PluginManifest) (method : string) : bool :=
  existsb (λ x, bool_decide (x = method)) (pm_methods m).
Definition implements_family (m : PluginManifest) : bool :=
  forallb (answers m) (required_methods (pm_family m)).

(* ------------------------------------------------------------------ *)
(** * JSON-RPC messages *)

Inductive RpcErrorCode :=
| ParseError | InvalidRequest | MethodNotFound | InvalidParams | InternalError
| RpcPluginUnavailable | Cancelled | VersionMismatch.
#[global] Instance RpcErrorCode_eq_dec : EqDecision RpcErrorCode.
Proof. solve_decision. Defined.
Definition rpc_code (c : RpcErrorCode) : Z :=
  match c with
  | ParseError => -32700 | InvalidRequest => -32600 | MethodNotFound => -32601
  | InvalidParams => -32602 | InternalError => -32603 | RpcPluginUnavailable => -32000
  | Cancelled => -32800 | VersionMismatch => -32001
  end.
(** The name shown by [Display], which is also the serde name of the variant. *)
Definition rpc_code_name (c : RpcErrorCode) : string :=
  match c with
  | ParseError => "parse_error" | InvalidRequest => "invalid_request"
  | MethodNotFound => "method_not_found" | InvalidParams => "invalid_params"
  | InternalError => "internal_error" | RpcPluginUnavailable => "plugin_unavailable"
  | Cancelled => "cancelled" | VersionMismatch => "version_mismatch"
  end.
Definition RpcErrorCode_fmt (c : RpcErrorCode) : string :=
  pretty (rpc_code c) +:+ "(" +:+ rpc_code_name c +:+ ")".

Record RpcError := mkRpcError {
  re_code : RpcErrorCode;
  re_message : string;
  re_recovery : option string;
}.
Definition RpcError_new (code : RpcErrorCode) (message : string) : RpcError :=
  mkRpcError code message None.
Definition RpcError_with_recovery (recovery : string) (e : RpcError) : RpcError :=
  mkRpcError (re_code e) (re_message e) (Some recovery).
Definition from_core_error (e : CoreError) : RpcError :=
  match e with
  | PluginUnavailable message => RpcError_new RpcPluginUnavailable message
  | PluginError message => RpcError_new InvalidParams message
  | ProtocolVersion found expected =>
      RpcError_new VersionMismatch ("offered protocol v" +:+ pretty found
        +:+ ", control plane speaks v" +:+ pretty expected)
  | other => RpcError_new InternalError (CoreError_fmt other)
  end.

Section Messages.
Context `{JsonLib}.
Record RpcRequest := { rq_id : Z; rq_method : string; rq_params : Json }.
Record RpcResponse := mkResponse { rs_id : Z; rs_result : option Json; rs_error : option RpcError }.
Definition RpcResponse_ok (id : Z) (result : Json) : RpcResponse := mkResponse id (Some result) None.
Definition RpcResponse_err (id : Z) (error : RpcError) : RpcResponse := mkResponse id None (Some error).
Definition RpcResponse_is_success (r : RpcResponse) : bool :=
  negb (is_some (rs_error r)) && is_some (rs_result r).
End Messages.

(* ------------------------------------------------------------------ *)
(** * Plugin processes *)

Record Handshake := {
  hk_plugin_id : string;
  hk_family : PluginFamily;
  negotiated_version : Z;
  hk_methods : list string;
  hk_capabilities : list string;
}.
Inductive PluginState := PlActive | PlRefused | PlUnavailable | PlStopped.
#[global] Instance PluginState_eq_dec : EqDecision PluginState.
Proof. solve_decision. Defined.
Definition PluginState_debug (s : PluginState) : string :=
  match s with
  | PlActive => "Active" | PlRefused => "Refused" | PlUnavailable => "Unavailable"
  | PlStopped => "Stopped"
  end.

Record PluginProcess := mkProcess {
  pp_manifest : PluginManifest;
  pp_state : PluginState;
  pp_handshake : option Handshake;
  pp_refusal : option RpcError;
  next_call_id : Z;
  in_flight : gmap Z string;
  pp_cancelled : list Z;
  pp_calls : list (string * Z);
}.
Definition pp_set_state (s : PluginState) (p : PluginProcess) : PluginProcess :=
  mkProcess (pp_manifest p) s (pp_handshake p) (pp_refusal p) (next_call_id p) (in_flight p)
    (pp_cancelled p) (pp_calls p).
Definition pp_set_next (n : Z) (p : PluginProcess) : PluginProcess :=
  mkProcess (pp_manifest p) (pp_state p) (pp_handshake p) (pp_refusal p) n (in_flight p)
    (pp_cancelled p) (pp_calls p).
Definition pp_set_in_flight (f : gmap Z string) (p : PluginProcess) : PluginProcess :=
  mkProcess (pp_manifest p) (pp_state p) (pp_handshake p) (pp_refusal p) (next_call_id p) f
    (pp_cancelled p) (pp_calls p).
Definition pp_push_cancelled (id : Z) (p : PluginProcess) : PluginProcess :=
  mkProcess (pp_manifest p) (pp_state p) (pp_handshake p) (pp_refusal p) (next_call_id p)
    (in_flight p) (pp_cancelled p ++ [id]) (pp_calls p).
Definition pp_push_call (c : string * Z) (p : PluginProcess) : PluginProcess :=
  mkProcess (pp_manifest p) (pp_state p) (pp_handshake p) (pp_refusal p) (next_call_id p)
    (in_flight p) (pp_cancelled p) (pp_calls p ++ [c]).

(** The [Debug] form of a [Vec<&str>]. *)
Definition str_list_debug `{StrDebug} (l : list string) : string :=
  "[" +:+ str_join ", " (map str_debug l) +:+ "]".

Section Process.
Context `{JsonLib} `{StrDebug} `{BuildProfile}.

Definition negotiate (manifest : PluginManifest) : result CoreError Handshake :=
  if decide (pm_protocol_version manifest ≠ PLUGIN_PROTOCOL_VERSION) then
    Err (ProtocolVersion (pm_protocol_version manifest) PLUGIN_PROTOCOL_VERSION)
  else if trim_is_empty (pm_name manifest) then
    Err (PluginError "plugin manifest must name the plugin")
  else if negb (implements_family manifest) then
    let missing := List.filter (λ method, negb (answers manifest method))
                     (required_methods (pm_family manifest)) in
    Err (PluginError ("plugin '" +:+ pm_name manifest +:+ "' does not implement its "
           +:+ family_name (pm_family manifest) +:+ " contract, missing "
           +:+ str_list_debug missing))
  else
    Ok {| hk_plugin_id := pm_id manifest; hk_family := pm_family manifest;
          negotiated_version := PLUGIN_PROTOCOL_VERSION; hk_methods := pm_methods manifest;
          hk_capabilities := pm_capabilities manifest |}.

Definition connect (manifest : PluginManifest) : PluginProcess :=
  match negotiate manifest with
  | Ok handshake => mkProcess manifest PlActive (Some handshake) None 1 ∅ [] []
  | Err error => mkProcess manifest PlRefused None (Some (from_core_error error)) 1 ∅ [] []
  end.

Definition process_is_active (p : PluginProcess) : bool := bool_decide (pp_state p = PlActive).
Definition call_count (p : PluginProcess) : nat := length (pp_calls p).

Definition mark_unavailable (p : PluginProcess) : PluginProcess :=
  if decide (pp_state p = PlActive) then pp_set_in_flight ∅ (pp_set_state PlUnavailable p) else p.
Definition shutdown (p : PluginProcess) : PluginProcess :=
  if decide (pp_state p ≠ PlRefused) then pp_set_in_flight ∅ (pp_set_state PlStopped p) else p.

Definition unavailable_error (self : PluginProcess) (method : string) : RpcError :=
  let code := match pp_state self with
    | PlUnavailable => RpcPluginUnavailable
    | PlRefused => VersionMismatch
    | PlStopped => RpcPluginUnavailable
    | PlActive => InternalError
    end in
  let message := match pp_state self with
    | PlRefused => match pp_refusal self with
                   | Some r => re_message r
                   | None => "plugin refused at handshake"
                   end
    | other => "plugin '" +:+ pm_name (pp_manifest self) +:+ "' is " +:+ PluginState_debug other
               +:+ ", cannot invoke '" +:+ method +:+ "'"
    end in
  RpcError_with_recovery
    match pp_state self with
    | PlRefused => "upgrade the plugin to protocol v{PLUGIN_PROTOCOL_VERSION}"
    | _ => "restart the plugin process or disable it"
    end (RpcError_new code message).

(** [handler] is the closure that carries the call to the plugin. *)
Definition invoke (method : string) (params : Json) (handler : string → Json → result CoreError Json)
    (self : PluginProcess) : outcome (PluginProcess * RpcResponse) :=
  if decide (pp_state self ≠ PlActive) then
    Done (self, RpcResponse_err (next_call_id self) (unavailable_error self method))
  else if negb (answers (pp_manifest self) method) then
    let id := next_call_id self in
    next ← add_unsigned u64_max (next_call_id self) 1;
    Done (pp_set_next next self,
      RpcResponse_err id (RpcError_with_recovery "check the plugin manifest methods"
        (RpcError_new MethodNotFound ("plugin '" +:+ pm_name (pp_manifest self)
           +:+ "' does not answer '" +:+ method +:+ "'"))))
  else
    let id := next_call_id self in
    next ← add_unsigned u64_max (next_call_id self) 1;
    let self := pp_set_next next self in
    let self := pp_set_in_flight (<[id := method]> (in_flight self)) self in
    let response := match handler method params with
      | Ok result => RpcResponse_ok id result
      | Err err => RpcResponse_err id (from_core_error err)
      end in
    let self := pp_set_in_flight (delete id (in_flight self)) self in
    Done (pp_push_call (method, id) self, response).

Definition begin_call (id : Z) (method : string) (self : PluginProcess) : outcome PluginProcess :=
  let self := pp_set_in_flight (<[id := method]> (in_flight self)) self in
  next ← add_unsigned u64_max id 1;
  Done (pp_set_next (Z.max (next_call_id self) next) self).

Definition cancel (id : Z) : M PluginProcess CoreError unit :=
  self ← get;
  method ← lift_r (ok_or (PluginError ("no in-flight call " +:+ pretty id +:+ " to cancel"))
                     (in_flight self !! id));
  modify (λ p, pp_set_in_flight (delete id (in_flight p)) p);;
  modify (pp_push_cancelled id);;
  modify (pp_push_call (method +:+ "#cancelled", id)).

Definition cancelled_response (self : PluginProcess) (id : Z) : option RpcResponse :=
  if decide (id ∈ pp_cancelled self) then
    Some (RpcResponse_err id (RpcError_with_recovery
            "retry with a longer timeout or a smaller request"
            (RpcError_new Cancelled "call cancelled by control plane")))
  else None.

(* ------------------------------------------------------------------ *)
(** ** The registry *)

Definition PluginRegistry : Type := gmap string PluginProcess.

Definition register (manifest : PluginManifest) : M PluginRegistry CoreError PluginFamily :=
  let process := connect manifest in
  let family := pm_family manifest in
  match pp_refusal process with
  | Some error =>
      modify (λ r : PluginRegistry, <[pm_id manifest := process]> r);;
      mthrow (PluginError (re_message error))
  | None =>
      self ← get;
      match List.find (λ p, bool_decide (pm_family (pp_manifest p) = family)
                            && bool_decide (pp_state p = PlActive)
                            && bool_decide (pm_id (pp_manifest p) ≠ pm_id manifest))
              (btree_values self) with
      | Some existing =>
          mthrow (PluginError ("family " +:+ family_name family +:+ " already has an active plugin '"
                    +:+ pm_name (pp_manifest existing) +:+ "'"))
      | None =>
          modify (λ r : PluginRegistry, <[pm_id manifest := process]> r);;
          mret family
      end
  end.

Definition active_for (self : PluginRegistry) (family : PluginFamily) : option PluginProcess :=
  List.find (λ p, bool_decide (pm_family (pp_manifest p) = family)
                  && bool_decide (pp_state p = PlActive)) (btree_values self).

Record PluginReport := {
  pr_id : string;
  pr_name : string;
  pr_family : PluginFamily;
  pr_state : PluginState;
  pr_protocol_version : Z;
  pr_detail : string;
}.
Definition report_one (p : PluginProcess) : PluginReport :=
  {| pr_id := pm_id (pp_manifest p); pr_name := pm_name (pp_manifest p);
     pr_family := pm_family (pp_manifest p); pr_state := pp_state p;
     pr_protocol_version := pm_protocol_version (pp_manifest p);
     pr_detail := match pp_refusal p with
       | Some r => RpcErrorCode_fmt (re_code r) +:+ ": " +:+ re_message r
       | None => pretty (Z.of_nat (length (pm_methods (pp_manifest p)))) +:+ " methods"
       end |}.
Definition report (self : PluginRegistry) : list PluginReport := map report_one (btree_values self).
Definition PluginReport_to_event_detail (self : PluginReport) : string :=
  "plugin " +:+ pr_name self +:+ " (" +:+ family_name (pr_family self) +:+ ") state "
  +:+ PluginState_debug (pr_state self) +:+ " protocol v" +:+ pretty (pr_protocol_version self)
  +:+ ": " +:+ pr_detail self.
End Process.

(* ------------------------------------------------------------------ *)
(** * Frames *)

(** The derived serde instances of [RpcError]. *)
Class RpcErrorSerde `{JsonLib} := {
  rpc_error_to_value : RpcError → Json;
  rpc_error_from_value : Json → result string RpcError;
}.
Class RpcErrorSerdeLaws `{JsonOps} `{!RpcErrorSerde} : Prop := {
  rpc_error_round_trip e : rpc_error_from_value (rpc_error_to_value e) = Ok e;
  rpc_error_exact e : json_exact (rpc_error_to_value e);
}.

Section Frames.
Context `{JsonOps} `{!RpcErrorSerde}.

(** [json!({...})] followed by an index assignment: an object with one more
    field. *)
Definition encode_response (response : RpcResponse) : result CoreError string :=
  let frame := [("jsonrpc", json_str "2.0"); ("id", json_u64 (rs_id response))] in
  match rs_result response, rs_error response with
  | Some result, None => Ok (json_print (json_object (frame ++ [("result", result)])))
  | None, Some error =>
      Ok (json_print (json_object (frame ++ [("error", rpc_error_to_value error)])))
  | _, _ => Err (PluginError "response must carry exactly one of result or error")
  end.

Definition decode_response (frame : string) : result CoreError RpcResponse :=
  value ← ok_or (PluginError "malformed JSON-RPC frame from plugin") (json_parse frame);
  id ← ok_or (PluginError "JSON-RPC frame is missing an id")
         (v ← json_get "id" value; json_as_u64 v);
  match json_get "error" value with
  | Some error =>
      match rpc_error_from_value error with
      | Ok parsed => Ok (RpcResponse_err id parsed)
      | Err m => Err (Serialization m)
      end
  | None =>
      result ← ok_or (PluginError "JSON-RPC frame carries neither result nor error")
                 (json_get "result" value);
      Ok (RpcResponse_ok id result)
  end.
End Frames.

(* ------------------------------------------------------------------ *)
(** * The plugin side *)

Section Sdk.
Context `{JsonOps}.

(** The [Plugin] trait; [handle] may change the plugin's own state. *)
Class Plugin (P : Type) := {
  plugin_manifest : P → PluginManifest;
  handle : string → Json → P → P * result CoreError Json;
}.
Definition respond {P} `{!Plugin P} (request : RpcRequest) (self : P) : P * RpcResponse :=
  let manifest := plugin_manifest self in
  if negb (answers manifest (rq_method request)) then
    (self, RpcResponse_err (rq_id request) (RpcError_new MethodNotFound
       ("'" +:+ rq_method request +:+ "' is not implemented")))
  else
    let '(self, answer) := handle (rq_method request) (rq_params request) self in
    (self, match answer with
           | Ok result => RpcResponse_ok (rq_id request) result
           | Err err => RpcResponse_err (rq_id request) (from_core_error err)
           end).

Definition unhandled (other : string) : result CoreError Json :=
  Err (PluginError ("unhandled method " +:+ other)).
(** [params.get(key).and_then(Value::as_str)] and the like for arrays. *)
Definition str_param (key : string) (params : Json) : option string :=
  v ← json_get key params; json_as_str v.
Definition array_param (key : string) (params : Json) : option (list Json) :=
  v ← json_get key params; json_as_array v.
Fixpoint ends_with (suffix s : string) : bool :=
  bool_decide (s = suffix) || match s with ""%string => false | String.String _ s' => ends_with suffix s' end.
Definition any_file (suffix : string) (params : Json) : bool :=
  match array_param "files" params with
  | Some items => existsb (λ item, ends_with suffix (default "" (json_as_str item))) items
  | None => false
  end.

Record ExampleAgentPlugin := { ea_name : string }.
Definition ExampleAgentPlugin_manifest (self : ExampleAgentPlugin) : PluginManifest :=
  with_capabilities ["prompt"; "interrupt"] (with_command ["node"; "agent-plugin.js"]
    (PluginManifest_new "example-agent" (ea_name self) AgentProvider PLUGIN_PROTOCOL_VERSION
       ["agent.draft_events"; "agent.interrupt"])).
Definition ExampleAgentPlugin_handle (self : ExampleAgentPlugin) (method : string) (params : Json) :
    result CoreError Json :=
  if decide (method = "agent.draft_events") then
    prompt ← ok_or (PluginError "agent.draft_events needs 'prompt'") (str_param "prompt" params);
    Ok (json_object [("events", json_array
      [json_object [("kind", json_str "planning");
                    ("detail", json_str (ea_name self +:+ " planned: " +:+ prompt))];
       json_object [("kind", json_str "command_run");
                    ("detail", json_str (ea_name self +:+ " acted"))]])])
  else if decide (method = "agent.interrupt") then Ok (json_object [("interrupted", json_bool true)])
  else unhandled method.

Inductive ExamplePlugin :=
| ExampleInspectorPlugin | ExampleRuntimePlugin | ExampleCapabilityProviderPlugin
| ExampleBindingProviderPlugin | ExampleDeployPlugin.
Definition example_manifest (p : ExamplePlugin) : PluginManifest :=
  match p with
  | ExampleInspectorPlugin =>
      with_capabilities ["compose"] (with_command ["bun"; "inspector-plugin.ts"]
        (PluginManifest_new "example-inspector" "docker-compose-inspector" InspectorProvider
           PLUGIN_PROTOCOL_VERSION ["inspect.snapshot"; "inspect.findings"]))
  | ExampleRuntimePlugin =>
      with_capabilities ["oci"] (with_command ["node"; "runtime-plugin.js"]
        (PluginManifest_new "example-runtime" "haskell-ghcup-runtime" RuntimeProvider
           PLUGIN_PROTOCOL_VERSION ["runtime.detect"; "runtime.prepare"]))
  | ExampleCapabilityProviderPlugin =>
      with_capabilities ["database.postgres"; "managed"] (with_command ["node"; "capability-plugin.js"]
        (PluginManifest_new "example-capability" "neon-postgres" CapabilityProvider
           PLUGIN_PROTOCOL_VERSION ["capability.plan"; "capability.observe"]))
  | ExampleBindingProviderPlugin =>
      with_capabilities ["generic"] (with_command ["node"; "binding-plugin.js"]
        (PluginManifest_new "example-binding" "env-contract-binding" BindingProvider
           PLUGIN_PROTOCOL_VERSION ["binding.resolve"]))
  | ExampleDeployPlugin =>
      with_capabilities ["oci"; "rollback"] (with_command ["node"; "deploy-plugin.js"]
        (PluginManifest_new "example-deploy" "fly-deploy" DeployProvider
           PLUGIN_PROTOCOL_VERSION ["deploy.build"; "deploy.rollback"]))
  end.

Definition inspector_handle (method : string) (params : Json) : result CoreError Json :=
  if decide (method = "inspect.snapshot") then
    let files := match array_param "files" params with Some items => length items | None => 0%nat end in
    Ok (json_object [("files_seen", json_u64 (Z.of_nat files))])
  else if decide (method = "inspect.findings") then
    let has_compose := any_file "compose.yaml" params in
    Ok (json_object [("findings", json_option (if has_compose then
      Some (json_object [("name", json_str "compose"); ("value", json_str "present");
                         ("confidence", json_float "1.0")]) else None))])
  else unhandled method.
Definition runtime_handle (method : string) (params : Json) : result CoreError Json :=
  if decide (method = "runtime.detect") then
    let has_dockerfile := any_file "Dockerfile" params in
    Ok (json_object [("supported", json_bool has_dockerfile);
      ("kind", json_option (if has_dockerfile then Some (json_str "generic") else None));
      ("tier", json_option (if has_dockerfile then Some (json_str "tier0") else None))])
  else if decide (method = "runtime.prepare") then
    Ok (json_object [("run_command", json_array [json_str "./entrypoint"]);
                     ("oci_image", json_str "registry.local/plugin-app");
                     ("profile", json_str "production")])
  else unhandled method.
Definition capability_handle (method : string) (params : Json) : result CoreError Json :=
  if decide (method = "capability.plan") then
    let capability := default "database.postgres" (str_param "capability" params) in
    Ok (json_object [("capability", json_str capability); ("mode", json_str "managed");
      ("resource", json_object [("external_ref", json_str (capability +:+ "-plan"))]);
      ("secret_refs", json_array [json_str ("neon." +:+ capability +:+ ".url")])])
  else if decide (method = "capability.observe") then Ok (json_object [("phase", json_str "ready")])
  else unhandled method.
Definition binding_handle (method : string) (params : Json) : result CoreError Json :=
  if decide (method = "binding.resolve") then
    let provider := default "postgres" (str_param "provider" params) in
    Ok (json_object [("kind", json_str "generic");
      ("env", json_object [("DATABASE_URL",
         json_object [("secret_ref", json_str (provider +:+ ".database_url"))])])])
  else unhandled method.
Definition deploy_handle (method : string) (params : Json) : result CoreError Json :=
  if decide (method = "deploy.build") then
    revision ← ok_or (PluginError "deploy.build needs 'revision'") (str_param "revision" params);
    Ok (json_object [("digest", json_str ("sha256:" +:+ revision)); ("health_gate", json_bool true)])
  else if decide (method = "deploy.rollback") then
    digest ← ok_or (PluginError "deploy.rollback needs 'digest'") (str_param "digest" params);
    Ok (json_object [("rolled_back_to", json_str digest); ("traffic_moved", json_bool true);
      ("database_data_restored", json_bool false); ("warning", json_str DATABASE_DATA_WARNING)])
  else unhandled method.
Definition example_handle (p : ExamplePlugin) : string → Json → result CoreError Json :=
  match p with
  | ExampleInspectorPlugin => inspector_handle
  | ExampleRuntimePlugin => runtime_handle
  | ExampleCapabilityProviderPlugin => capability_handle
  | ExampleBindingProviderPlugin => binding_handle
  | ExampleDeployPlugin => deploy_handle
  end.

#[global] Instance ExampleAgentPlugin_plugin : Plugin ExampleAgentPlugin := {
  plugin_manifest := ExampleAgentPlugin_manifest;
  handle method params self := (self, ExampleAgentPlugin_handle self method params);
}.
#[global] Instance ExamplePlugin_plugin : Plugin ExamplePlugin := {
  plugin_manifest := example_manifest;
  handle method params self := (self, example_handle self method params);
}.
End Sdk.

(** The manifests of [sdk_examples], in its order. *)
Definition sdk_manifests : list PluginManifest :=
  [ExampleAgentPlugin_manifest {| ea_name := "opencode" |};
   example_manifest ExampleCapabilityProviderPlugin; example_manifest ExampleBindingProviderPlugin;
   example_manifest ExampleRuntimePlugin; example_manifest ExampleInspectorPlugin;
   example_manifest ExampleDeployPlugin].

Section Registration.
Context `{JsonLib} `{StrDebug} `{BuildProfile}.
Fixpoint register_all (ms : list PluginManifest) (families : list PluginFamily) :
    M PluginRegistry CoreError (list PluginFamily) :=
  match ms with
  | [] => mret families
  | m :: ms' => f ← register m; register_all ms' (families ++ [f])
  end.
Definition register_sdk_examples : M PluginRegistry CoreError (list PluginFamily) :=
  register_all sdk_manifests [].
End Registration.

(* ------------------------------------------------------------------ *)
(** * The handshake *)

(** What the control plane accepts. *)
Definition compatible (m : PluginManifest) : Prop :=
  pm_protocol_version m = PLUGIN_PROTOCOL_VERSION ∧ trim_is_empty (pm_name m) = false ∧
  ∀ method, method ∈ required_methods (pm_family m) → method ∈ pm_methods m.

Lemma answers_true m method : answers m method = true ↔ method ∈ pm_methods m.
Proof.
  unfold answers. split.
  - intros (x & Hx%list_elem_of_In & ->%bool_decide_eq_true)%existsb_exists. done.
  - intros Hin. apply existsb_exists. exists method. rewrite <- list_elem_of_In.
    by rewrite bool_decide_eq_true.
Qed.
Lemma implements_family_true m :
  implements_family m = true ↔
  ∀ method, method ∈ required_methods (pm_family m) → method ∈ pm_methods m.
Proof.
  unfold implements_family. rewrite forallb_forall. setoid_rewrite <- list_elem_of_In.
  by setoid_rewrite answers_true.
Qed.

Section ProcessFacts.
Context `{JsonLib} `{StrDebug} `{BuildProfile}.

(** The handshake offered for a compatible manifest. *)
Definition agreed (m : PluginManifest) : Handshake :=
  {| hk_plugin_id := pm_id m; hk_family := pm_family m;
     negotiated_version := PLUGIN_PROTOCOL_VERSION; hk_methods := pm_methods m;
     hk_capabilities := pm_capabilities m |}.
Lemma negotiate_cases m :
  (compatible m ∧ negotiate m = Ok (agreed m)) ∨ (¬ compatible m ∧ ∃ e, negotiate m = Err e).
Proof.
  unfold negotiate, compatible. case_decide; [right; split; [naive_solver|eauto]|].
  destruct (trim_is_empty (pm_name m)); [right; split; [naive_solver|eauto]|].
  rewrite <- implements_family_true. destruct (implements_family m); simpl; [by left|right].
  split; [naive_solver|eauto].
Qed.

(* ------------------------------------------------------------------ *)
(** * One process *)

Inductive ProcessOp :=
| XInvoke (method : string) (params : Json) (handler : string → Json → result CoreError Json)
| XBegin (id : Z) (method : string)
| XCancel (id : Z)
| XUnavailable
| XShutdown.
Definition run_process_op (op : ProcessOp) (p : PluginProcess) : outcome PluginProcess :=
  match op with
  | XInvoke method params handler => '(p', _) ← invoke method params handler p; Done p'
  | XBegin id method => begin_call id method p
  | XCancel id => '(p', _) ← cancel id p; Done p'
  | XUnavailable => Done (mark_unavailable p)
  | XShutdown => Done (shutdown p)
  end.
Definition process_step (p p' : PluginProcess) : Prop := ∃ op, run_process_op op p = Done p'.

(** Steps keep the manifest, the handshake and the refusal, and never make a
    process active. *)
Definition process_keeps (p p' : PluginProcess) : Prop :=
  pp_manifest p' = pp_manifest p ∧ pp_handshake p' = pp_handshake p ∧
  pp_refusal p' = pp_refusal p ∧
  (pp_state p' = pp_state p ∨ pp_state p ≠ PlRefused ∧ (pp_state p' = PlUnavailable ∨ pp_state p' = PlStopped)).
Lemma process_step_keeps p p' : process_step p p' → process_keeps p p'.
Proof.
  unfold process_keeps. intros ([method params handler|id method|id| |] & Hrun); simpl in Hrun.
  - unfold invoke in Hrun. unfold_monad_in Hrun. repeat case_match; simplify_eq/=; tauto.
  - unfold begin_call in Hrun. unfold_monad_in Hrun. repeat case_match; simplify_eq/=; tauto.
  - unfold cancel in Hrun. unfold_monad_in Hrun.
    destruct (in_flight p !! id); simplify_eq/=; tauto.
  - simplify_eq. unfold mark_unavailable. case_decide as Hs; simpl; [|tauto].
    rewrite Hs. split_and!; [done..|]. right. by split; [|left].
  - simplify_eq. unfold shutdown. case_decide; simpl; tauto.
Qed.

(** The state of a process connected for [m]. *)
Definition process_inv (m : PluginManifest) (p : PluginProcess) : Prop :=
  pp_manifest p = m ∧
  ((compatible m ∧ pp_state p ≠ PlRefused ∧ pp_handshake p = Some (agreed m) ∧ pp_refusal p = None) ∨
   (¬ compatible m ∧ pp_state p = PlRefused ∧ pp_handshake p = None ∧ is_Some (pp_refusal p))).
Lemma connect_inv m : process_inv m (connect m).
Proof.
  unfold connect, process_inv. destruct (negotiate_cases m) as [[Hc ->]|[Hc [e ->]]];
    (split; [done|]); [left|right]; by split_and!.
Qed.
Lemma process_step_inv m p p' : process_step p p' → process_inv m p → process_inv m p'.
Proof.
  unfold process_inv. intros (E1 & E2 & E3 & E4)%process_step_keeps. rewrite E1, E2, E3.
  intros [Hm [(Hc & Hs & Hr)|(Hc & Hs & Hr)]]; (split; [done|]); [left|right]; split_and!; try apply Hr; try done.
  - destruct E4 as [->|[_ [-> | ->]]]; done.
  - destruct E4 as [->|[? _]]; done.
Qed.
Lemma not_active_step p p' : process_step p p' → pp_state p ≠ PlActive → pp_state p' ≠ PlActive.
Proof. intros (_ & _ & _ & [->|[_ [-> | ->]]])%process_step_keeps; done. Qed.

(** A connected plugin is refused exactly when its manifest is not
    compatible, with a structured reason and no handshake; otherwise it has the
    handshake both sides agreed on.  Only a compatible plugin is ever active, a
    refused one stays refused, and a plugin that is not active never becomes
    active again, whatever calls, cancellations and failures happen. *)
Theorem plugin_lifecycle m p p' :
  rtc process_step (connect m) p → rtc process_step p p' →
  process_inv m p ∧ (pp_state p = PlActive → compatible m) ∧
  (pp_state p = PlRefused → pp_state p' = PlRefused) ∧
  (pp_state p ≠ PlActive → pp_state p' ≠ PlActive).
Proof.
  assert (∀ q q', process_inv m q → rtc process_step q q' → process_inv m q') as Hinv.
  { intros q q' Hq Hr. revert Hq. induction Hr; eauto using process_step_inv. }
  intros Hp%Hinv Hp'; [|apply connect_inv]. pose proof (Hinv _ _ Hp Hp') as Hp1.
  destruct Hp as [Hm Hp], Hp1 as [_ Hp1]. split; [done|]. split_and!.
  - intros Ha. destruct Hp as [(? & _)|(_ & Hs & _)]; [done|congruence].
  - intros Hs. destruct Hp as [(_ & ? & _)|(Hc & _)]; [done|]. by destruct Hp1 as [(? & _)|(_ & ? & _)].
  - clear -Hp'. induction Hp'; eauto using not_active_step.
Qed.

(** Exactly one of result and error. *)
Definition response_wf (r : RpcResponse) : Prop :=
  is_Some (rs_result r) ↔ rs_error r = None.

Lemma err_wf id e : response_wf (RpcResponse_err id e).
Proof. split; [by intros [? ?]|done]. Qed.
Lemma ok_wf id v : response_wf (RpcResponse_ok id v).
Proof. split; [done|by eexists]. Qed.

(** An invocation always answers, with exactly one of a result and an
    error (call numbers below the 64-bit limit).  It reaches the handler only
    when the plugin is active and declares the method; then the answer carries
    the call's fresh number and the handler's verdict, the call is counted, and
    nothing else stays in flight.  Otherwise the answer is an error whatever the
    handler would say, and no call is counted. *)
Theorem invoke_spec method params handler p :
  next_call_id p < u64_max →
  ∃ p' r, invoke method params handler p = Done (p', r) ∧ response_wf r ∧
    rs_id r = next_call_id p ∧ pp_state p' = pp_state p ∧
    if decide (pp_state p = PlActive ∧ method ∈ pm_methods (pp_manifest p)) then
      next_call_id p' = next_call_id p + 1 ∧ pp_calls p' = pp_calls p ++ [(method, next_call_id p)] ∧
      in_flight p' = delete (next_call_id p) (in_flight p) ∧
      match handler method params with
      | Ok v => rs_result r = Some v
      | Err e => rs_error r = Some (from_core_error e)
      end
    else
      is_Some (rs_error r) ∧ pp_calls p' = pp_calls p ∧ in_flight p' = in_flight p ∧
      ∀ handler', invoke method params handler' p = Done (p', r).
Proof.
  intros Hn. unfold invoke. destruct (decide (pp_state p = PlActive)) as [Ha|Ha].
  2:{ rewrite !decide_True by done. eexists _, _. split; [done|].
      split; [apply err_wf|]. rewrite decide_False by tauto. split_and!; try done.
      intros handler'. by rewrite decide_True. }
  rewrite decide_False by tauto. rewrite add_unsigned_done by lia. unfold_monad.
  destruct (answers (pp_manifest p) method) eqn:Em; simpl.
  - apply answers_true in Em. eexists _, _. split; [done|]. rewrite decide_True by done.
    split; [destruct (handler method params); [apply ok_wf|apply err_wf]|].
    simpl. rewrite delete_insert_eq. by destruct (handler method params).
  - eexists _, _. split; [done|]. split; [apply err_wf|].
    rewrite decide_False by (intros [_ Hin%answers_true]; congruence).
    split_and!; try done.
    intros handler'. rewrite decide_False by tauto. done.
Qed.
End ProcessFacts.

(* ------------------------------------------------------------------ *)
(** * The registry *)

Section RegistryFacts.
Context `{JsonLib} `{StrDebug} `{BuildProfile}.
Implicit Types (r : gmap string PluginProcess) (p : PluginProcess) (k : string).

Inductive PluginRegistryOp := PrRegister (m : PluginManifest) | PrProcess (id : string) (op : ProcessOp).
Definition run_plugin_registry_op (op : PluginRegistryOp) r : outcome (gmap string PluginProcess) :=
  match op with
  | PrRegister m => '(r', _) ← register m r; Done r'
  | PrProcess id op =>
      match r !! id with
      | Some p => p' ← run_process_op op p; Done (<[id := p']> r)
      | None => Done r
      end
  end.
Definition plugin_registry_step r r' : Prop := ∃ op, run_plugin_registry_op op r = Done r'.

Record plugin_registry_inv r : Prop := {
  pri_inv k p : r !! k = Some p → ∃ m, pm_id m = k ∧ process_inv m p;
  pri_one k k' p p' : r !! k = Some p → r !! k' = Some p' →
    pp_state p = PlActive → pp_state p' = PlActive →
    pm_family (pp_manifest p) = pm_family (pp_manifest p') → k = k';
}.

Lemma pri_key r k p : plugin_registry_inv r → r !! k = Some p → pm_id (pp_manifest p) = k.
Proof. intros Hr Hp. by destruct (pri_inv r Hr k p Hp) as (m & <- & -> & _). Qed.

Lemma register_cases m r :
  (¬ compatible m ∧ ∃ e, register m r = Done (<[pm_id m := connect m]> r, Err e)) ∨
  (compatible m ∧ (∃ k p, r !! k = Some p ∧ pm_family (pp_manifest p) = pm_family m ∧
     pp_state p = PlActive ∧ pm_id (pp_manifest p) ≠ pm_id m) ∧
   ∃ e, register m r = Done (r, Err e)) ∨
  (compatible m ∧ (∀ k p, r !! k = Some p → pm_family (pp_manifest p) = pm_family m →
     pp_state p = PlActive → pm_id (pp_manifest p) = pm_id m) ∧
   register m r = Done (<[pm_id m := connect m]> r, Ok (pm_family m))).
Proof.
  unfold register. destruct (connect_inv m) as [_ [(Hc & _ & _ & Hr)|(Hc & _ & _ & [e Hr])]]; rewrite Hr.
  2:{ left. split; [done|]. by eexists. }
  right. unfold_monad. destruct (List.find _ _) as [p|] eqn:Ef.
  - left. split; [done|]. split; [|by eexists].
    apply find_Some_elem in Ef as [[k Hk]%elem_of_btree_values Hp]. exists k, p.
    rewrite !andb_true_iff, !bool_decide_eq_true in Hp. naive_solver.
  - right. split; [done|]. split; [|done]. rewrite find_None_elem in Ef. intros k p Hk Hf Ha.
    specialize (Ef p). rewrite elem_of_btree_values, !andb_false_iff, !bool_decide_eq_false in Ef.
    destruct Ef as [[?|?]|Hn]; [eauto|done|done|]. by apply dec_stable.
Qed.

Lemma connect_state m : pp_manifest (connect m) = m ∧ (pp_state (connect m) = PlActive ↔ compatible m).
Proof.
  unfold connect. destruct (negotiate_cases m) as [[Hc ->]|[Hc [e ->]]]; simpl; naive_solver.
Qed.

Lemma insert_process_inv r k p m :
  plugin_registry_inv r → pm_id m = k → process_inv m p →
  (pp_state p = PlActive → ∀ k' p', r !! k' = Some p' → pp_state p' = PlActive →
     pm_family (pp_manifest p') = pm_family m → k' = k) →
  plugin_registry_inv (<[k := p]> r).
Proof.
  intros [Hi Ho] Hk Hp Hone. pose proof (proj1 Hp) as Hm. split.
  - intros k1 p1 [[<- <-]|[_ G1]]%lookup_insert_Some; [by exists m|by apply Hi].
  - intros k1 k2 p1 p2 [[<- <-]|[Hn1 G1]]%lookup_insert_Some [[<- <-]|[Hn2 G2]]%lookup_insert_Some
      A1 A2 E; [done| | |by eapply Ho].
    + symmetry. eapply Hone; [done|done|done|]. by rewrite <- E, Hm.
    + eapply Hone; [done|done|done|]. by rewrite E, Hm.
Qed.

Lemma plugin_registry_step_inv r r' :
  plugin_registry_step r r' → plugin_registry_inv r → plugin_registry_inv r'.
Proof.
  intros ([m|id op] & Hrun) Hr; simpl in Hrun.
  - destruct (register_cases m r) as [(Hc & e & E)|[(_ & _ & e & E)|(Hc & Hu & E)]];
      rewrite E in Hrun; simpl in Hrun; simplify_eq; [|done|].
    + apply (insert_process_inv r _ _ m); [done|done|apply connect_inv|].
      intros Ha%(proj2 (connect_state m)). done.
    + apply (insert_process_inv r _ _ m); [done|done|apply connect_inv|]. intros _ k p Hk Ha Hf.
      rewrite <- (Hu k p) by done. symmetry. by eapply pri_key.
  - destruct (r !! id) as [p|] eqn:Hp; [|by simplify_eq].
    destruct (run_process_op op p) as [p'|] eqn:Hop; simpl in Hrun; simplify_eq.
    assert (process_step p p') as Hstep by by exists op.
    destruct (pri_inv r Hr id p Hp) as (m & Hid & Hm).
    apply (insert_process_inv r _ _ m); [done|done|by eapply process_step_inv|].
    intros Ha k q Hq Hqa Hf. apply process_step_keeps in Hstep as (_ & _ & _ & Hst).
    eapply (pri_one r Hr); [done|done|done| |].
    + destruct Hst as [E|[_ [E|E]]]; congruence.
    + by rewrite Hf, (proj1 Hm).
Qed.
Lemma plugin_registry_reachable_inv r : rtc plugin_registry_step ∅ r → plugin_registry_inv r.
Proof.
  assert (plugin_registry_inv ∅) as Hempty by (split; intros *; by rewrite lookup_empty).
  intros Hr. revert Hempty. induction Hr; eauto using plugin_registry_step_inv.
Qed.

(** Whatever is registered and whatever happens to the processes, a
    family has at most one active plugin, that plugin is compatible, and
    [active_for] returns exactly it. *)
Theorem one_active_plugin_per_family r f :
  rtc plugin_registry_step ∅ r →
  (∀ p, active_for r f = Some p ↔
     ∃ k, r !! k = Some p ∧ pp_state p = PlActive ∧ pm_family (pp_manifest p) = f) ∧
  (∀ k k' p p', r !! k = Some p → r !! k' = Some p' → pp_state p = PlActive →
     pp_state p' = PlActive → pm_family (pp_manifest p) = pm_family (pp_manifest p') → k = k') ∧
  (∀ p, active_for r f = Some p → compatible (pp_manifest p)).
Proof.
  intros Hr%plugin_registry_reachable_inv.
  assert (∀ p, active_for r f = Some p →
    ∃ k, r !! k = Some p ∧ pp_state p = PlActive ∧ pm_family (pp_manifest p) = f) as Hsound.
  { intros p [[k Hk]%elem_of_btree_values Hp]%find_Some_elem.
    rewrite andb_true_iff, !bool_decide_eq_true in Hp. naive_solver. }
  split_and!; [|apply Hr|].
  - intros p. split; [apply Hsound|]. intros (k & Hk & Ha & Hf).
    destruct (find_is_Some (λ p, bool_decide (pm_family (pp_manifest p) = f)
      && bool_decide (pp_state p = PlActive)) (btree_values r) p) as [q Hq].
    { apply elem_of_btree_values. eauto. }
    { rewrite andb_true_iff, !bool_decide_eq_true. done. }
    destruct (Hsound q Hq) as (k' & Hk' & Ha' & Hf'). change (active_for r f = Some q) in Hq.
    assert (k' = k) as -> by (eapply (pri_one r Hr); [done|done|done|done|congruence]). congruence.
  - intros p (k & Hk & Ha & _)%Hsound. destruct (pri_inv r Hr k p Hk) as (m & _ & -> & Hm).
    destruct Hm as [(? & _)|(_ & Hs & _)]; [done|congruence].
Qed.

(** Registering an incompatible manifest reports an error, but records
    the refused process under the manifest's identifier all the same, so it
    removes a working plugin registered under that identifier. *)
Theorem refused_registration_evicts m r p :
  ¬ compatible m → r !! pm_id m = Some p → rtc plugin_registry_step ∅ r →
  ∃ r' e, register m r = Done (r', Err e) ∧ r' !! pm_id m = Some (connect m) ∧
    pp_state (connect m) = PlRefused ∧
    (pp_state p = PlActive → active_for r' (pm_family (pp_manifest p)) = None).
Proof.
  intros Hc Hp Hr%plugin_registry_reachable_inv.
  destruct (register_cases m r) as [(_ & e & E)|[(? & _)|(? & _)]]; [|done..].
  exists (<[pm_id m := connect m]> r), e. split; [done|]. rewrite lookup_insert_eq. split; [done|].
  destruct (connect_inv m) as [_ [(? & _)|(_ & Hs & _)]]; [done|]. split; [done|]. intros Ha.
  unfold active_for. apply find_None_elem. intros q [k Hk]%elem_of_btree_values.
  rewrite andb_false_iff, !bool_decide_eq_false.
  apply lookup_insert_Some in Hk as [[<- <-]|[Hne Hk]]; [right; congruence|].
  destruct (decide (pp_state q = PlActive)) as [Hq|]; [left|by right]. intros Hf.
  apply Hne. by eapply (pri_one r Hr).
Qed.

(** The six example plugins join an empty registry, one per family. *)
Lemma sdk_examples_register :
  match register_sdk_examples ∅ with
  | Done (r, Ok families) =>
      families = [AgentProvider; CapabilityProvider; BindingProvider; RuntimeProvider;
                  InspectorProvider; DeployProvider] ∧
      ∀ f, is_some (active_for r f) = true
  | _ => False
  end.
Proof. vm_compute. split; [done|]. by intros []. Qed.
End RegistryFacts.

(* ------------------------------------------------------------------ *)
(** * Frames *)

Section FrameFacts.
Context `{JsonLaws} `{!RpcErrorSerde} `{!RpcErrorSerdeLaws}.

(** A response that carries exactly one of a result and an error, with
    a 64-bit number, survives its JSON frame; any other response is refused by
    the encoder. *)
Theorem frames_round_trip r :
  0 ≤ rs_id r ≤ u64_max → (∀ v, rs_result r = Some v → json_exact v) →
  if decide (is_some (rs_result r) = negb (is_some (rs_error r))) then
    ∃ frame, encode_response r = Ok frame ∧ decode_response frame = Ok r
  else ∃ e, encode_response r = Err e.
Proof.
  intros Hid Hex. destruct r as [id [v|] [e|]]; simpl in *; try by eexists.
  - assert (NoDup ["jsonrpc"; "id"; "result"]) as Hnd by (apply (bool_decide_unpack _); vm_compute; exact I).
    eexists. split; [done|]. unfold decode_response. rewrite json_parse_print.
    2:{ apply json_exact_object; [done|]. repeat constructor; simpl;
        [apply json_exact_str|by apply json_exact_u64|by apply Hex]. }
    unfold_monad. rewrite !json_get_object by done. simpl. by rewrite json_as_u64_u64.
  - assert (NoDup ["jsonrpc"; "id"; "error"]) as Hnd by (apply (bool_decide_unpack _); vm_compute; exact I).
    eexists. split; [done|]. unfold decode_response. rewrite json_parse_print.
    2:{ apply json_exact_object; [done|]. repeat constructor; simpl;
        [apply json_exact_str|by apply json_exact_u64|apply rpc_error_exact]. }
    unfold_monad. rewrite !json_get_object by done. simpl. rewrite json_as_u64_u64 by done.
    simpl. by rewrite rpc_error_round_trip.
Qed.
End FrameFacts.

(* ------------------------------------------------------------------ *)
(** * Examples *)

Module PluginExamples.
Import RefInstances RefJson.
#[local] Existing Instance tree_json.
Definition codes : list RpcErrorCode :=
  [ParseError; InvalidRequest; MethodNotFound; InvalidParams; InternalError; RpcPluginUnavailable;
   Cancelled; VersionMismatch].
#[local] Instance ref_serde : RpcErrorSerde := {
  rpc_error_to_value e :=
    json_object [("code", json_str (rpc_code_name (re_code e))); ("message", json_str (re_message e));
      ("recovery", json_option (json_str <$> re_recovery e))];
  rpc_error_from_value v :=
    match (x ← json_get "code" v; n ← json_as_str x;
             List.find (λ c, bool_decide (rpc_code_name c = n)) codes),
          (x ← json_get "message" v; json_as_str x), json_get "recovery" v with
    | Some c, Some m, Some r => Ok (mkRpcError c m (json_as_str r))
    | _, _, _ => Err "invalid error object"
    end;
}.
#[local] Instance ref_serde_laws : RpcErrorSerdeLaws.
Proof. constructor; [|done]. intros [c m [r|]]; by destruct c. Qed.

Definition good : PluginManifest := example_manifest ExampleDeployPlugin.
(** The same plugin, offering another protocol version. *)
Definition bad : PluginManifest :=
  mkManifest (pm_id good) (pm_name good) "9" DeployProvider 2 (pm_methods good) [] [].
Lemma good_compatible : compatible good.
Proof. split_and!; [done|done|]. by intros method Hm. Qed.
Lemma bad_incompatible : ¬ compatible bad.
Proof. by intros (? & _). Qed.

Lemma plugin_lifecycle_witness :
  rtc process_step (connect good) (mark_unavailable (connect good)) ∧
  pp_state (shutdown (mark_unavailable (connect good))) ≠ PlActive.
Proof.
  assert (rtc process_step (connect good) (mark_unavailable (connect good))) as Hr.
  { apply rtc_once. by exists XUnavailable. }
  split; [exact Hr|].
  apply (plugin_lifecycle good _ (shutdown (mark_unavailable (connect good))) Hr);
    [apply rtc_once; by exists XShutdown|done].
Defined.

Lemma invoke_spec_witness :
  next_call_id (connect good) < u64_max ∧
  ∃ p' r, invoke "deploy.destroy" json_null deploy_handle (connect good) = Done (p', r) ∧
    response_wf r.
Proof.
  assert (next_call_id (connect good) < u64_max) as Hn by (vm_compute; reflexivity).
  split; [exact Hn|].
  destruct (invoke_spec "deploy.destroy" json_null deploy_handle (connect good) Hn)
    as (p' & r & E & Hw & _). by exists p', r.
Defined.

Definition with_good : gmap string PluginProcess := <[pm_id good := connect good]> ∅.
Lemma with_good_reachable : rtc plugin_registry_step ∅ with_good.
Proof. apply rtc_once. by exists (PrRegister good). Qed.
Lemma one_active_plugin_per_family_witness :
  rtc plugin_registry_step ∅ with_good ∧ active_for with_good DeployProvider = Some (connect good).
Proof.
  split; [exact with_good_reachable|].
  apply (proj2 (proj1 (one_active_plugin_per_family with_good DeployProvider with_good_reachable)
                  (connect good))).
  exists (pm_id good). split; [by apply lookup_insert_eq|done].
Defined.
Lemma refused_registration_evicts_witness :
  ¬ compatible bad ∧ ∃ r' e, register bad with_good = Done (r', Err e) ∧
    active_for r' DeployProvider = None.
Proof.
  split; [exact bad_incompatible|].
  destruct (refused_registration_evicts bad with_good (connect good)) as (r' & e & E & _ & _ & Hn);
    [exact bad_incompatible|apply lookup_insert_eq|exact with_good_reachable|].
  exists r', e. split; [exact E|]. by apply Hn.
Defined.

Definition answer : RpcResponse := RpcResponse_err 7 (RpcError_new Cancelled "stop").
Lemma frames_round_trip_witness :
  (0 ≤ rs_id answer ≤ u64_max) ∧
  ∃ frame, encode_response answer = Ok frame ∧ decode_response frame = Ok answer.
Proof.
  assert (0 ≤ rs_id answer ≤ u64_max) as Hid by (unfold u64_max; simpl; lia).
  split; [exact Hid|]. exact (frames_round_trip answer Hid (λ _ _, I)).
Defined.
End PluginExamples.
