(* ===== verification/Surfaces.v ===== *)
(** The command-line contract (surfaces.rs, first part): commands, requests,
    responses, the permission boundary and the idempotent executor. *)

From stdpp Require Import base option list strings pretty gmap relations.
From Stdlib Require Import ZArith Lia.
From S2P Require Import Prelude External Errors Ids Resource Approval.
From S2P Require Import Snapshot Deployment Events AuditChain Verifier Json Plugin.
Local Open Scope Z_scope.

(* ------------------------------------------------------------------ *)
(** * Commands and actors *)

Inductive CliCommand :=
| CcInit | CcImport | CcInspect | CcDev | CcAgent | CcPreview | CcCapability | CcResources
| CcBuild | CcDeploy | CcDeployments | CcLogs | CcHealth | CcRollback | CcDoctor.
#[global] Instance CliCommand_eq_dec : EqDecision CliCommand.
Proof. solve_decision. Defined.
Definition command_name (c : CliCommand) : string :=
  match c with
  | CcInit => "init" | CcImport => "import" | CcInspect => "inspect" | CcDev => "dev"
  | CcAgent => "agent" | CcPreview => "preview" | CcCapability => "capability"
  | CcResources => "resources" | CcBuild => "build" | CcDeploy => "deploy"
  | CcDeployments => "deployments" | CcLogs => "logs" | CcHealth => "health"
  | CcRollback => "rollback" | CcDoctor => "doctor"
  end.
Definition is_mutating (c : CliCommand) : bool :=
  match c with
  | CcInit | CcImport | CcBuild | CcDeploy | CcRollback | CcCapability | CcPreview | CcAgent => true
  | _ => false
  end.
Definition requires_environment (c : CliCommand) : bool :=
  match c with CcDeploy | CcRollback | CcHealth | CcPreview => true | _ => false end.
Definition requires_application (c : CliCommand) : bool :=
  match c with CcInit | CcImport => false | _ => true end.
Definition CliCommand_all : list CliCommand :=
  [CcInit; CcImport; CcInspect; CcDev; CcAgent; CcPreview; CcCapability; CcResources; CcBuild;
   CcDeploy; CcDeployments; CcLogs; CcHealth; CcRollback; CcDoctor].

Inductive CliActor :=
| CaHuman (name : string)
| CaAgent (session_id name : string)
| CaPlatform (name : string).
Definition actor_label (a : CliActor) : string :=
  match a with CaHuman _ => "human" | CaAgent _ _ => "agent" | CaPlatform _ => "platform" end.
Definition is_human (a : CliActor) : bool := match a with CaHuman _ => true | _ => false end.
Definition is_agent (a : CliActor) : bool := match a with CaAgent _ _ => true | _ => false end.
Definition is_platform (a : CliActor) : bool := match a with CaPlatform _ => true | _ => false end.

(** The derived [Debug] forms the messages show. *)
Definition HealthState_debug (s : HealthState) : string :=
  match s with
  | HUnknown => "Unknown" | HProvisioning => "Provisioning" | HHealthy => "Healthy"
  | HDegraded => "Degraded" | HFailed => "Failed" | HPaused => "Paused"
  end.
Definition LogLevel_debug (l : LogLevel) : string :=
  match l with LlInfo => "Info" | LlWarn => "Warn" | LlError => "Error" end.
Definition Severity_debug (s : Severity) : string :=
  match s with SevInfo => "Info" | SevWarning => "Warning" | SevError => "Error" end.
#[global] Instance Severity_eq_dec : EqDecision Severity.
Proof. solve_decision. Defined.

Record CliRequest := mkRequest {
  cq_command : CliCommand;
  cq_actor : CliActor;
  cq_application_id : option ApplicationId;
  cq_environment : option string;
  cq_arguments : gmap string string;
  cq_idempotency_key : option string;
  cq_approval : option ExplicitApproval;
}.
Definition CliRequest_new (command : CliCommand) (actor : CliActor) : CliRequest :=
  mkRequest command actor None None ∅ None None.
Definition on_application (a : ApplicationId) (r : CliRequest) : CliRequest :=
  mkRequest (cq_command r) (cq_actor r) (Some a) (cq_environment r) (cq_arguments r)
    (cq_idempotency_key r) (cq_approval r).
Definition in_environment (e : string) (r : CliRequest) : CliRequest :=
  mkRequest (cq_command r) (cq_actor r) (cq_application_id r) (Some e) (cq_arguments r)
    (cq_idempotency_key r) (cq_approval r).
Definition with_argument (k v : string) (r : CliRequest) : CliRequest :=
  mkRequest (cq_command r) (cq_actor r) (cq_application_id r) (cq_environment r)
    (<[k := v]> (cq_arguments r)) (cq_idempotency_key r) (cq_approval r).
Definition with_idempotency_key (k : string) (r : CliRequest) : CliRequest :=
  mkRequest (cq_command r) (cq_actor r) (cq_application_id r) (cq_environment r) (cq_arguments r)
    (Some k) (cq_approval r).
Definition with_approval (a : ExplicitApproval) (r : CliRequest) : CliRequest :=
  mkRequest (cq_command r) (cq_actor r) (cq_application_id r) (cq_environment r) (cq_arguments r)
    (cq_idempotency_key r) (Some a).

(* ------------------------------------------------------------------ *)
(** * Platform state *)

Record PlatformState := mkState {
  applications : list ApplicationId;
  environments : gmap ApplicationId (list string);
  capabilities : gmap ApplicationId (list string);
  resources : gmap ApplicationId (list string);
  deployments : gmap ApplicationId (list string);
  health : gmap ApplicationId HealthSnapshot;
  logs : LogStore;
  events : EventLog;
  audit : AuditLog;
  plugins : PluginRegistry;
  evidence : option EvidenceStore;
}.
Definition PlatformState_new : PlatformState := mkState [] ∅ ∅ ∅ ∅ ∅ [] [] [] ∅ None.
Definition knows (s : PlatformState) (a : ApplicationId) : bool := bool_decide (a ∈ applications s).
Definition add_application (a : ApplicationId) (envs : list string) (s : PlatformState) : PlatformState :=
  mkState (if knows s a then applications s else applications s ++ [a])
    (<[a := envs]> (environments s)) (capabilities s) (resources s) (deployments s) (health s)
    (logs s) (events s) (audit s) (plugins s) (evidence s).
Definition set_audit (l : AuditLog) (s : PlatformState) : PlatformState :=
  mkState (applications s) (environments s) (capabilities s) (resources s) (deployments s) (health s)
    (logs s) (events s) l (plugins s) (evidence s).
(** [deployments.entry(id).or_default().push(text)]. *)
Definition push_deployment (a : ApplicationId) (text : string) (s : PlatformState) : PlatformState :=
  mkState (applications s) (environments s) (capabilities s) (resources s)
    (<[a := default [] (deployments s !! a) ++ [text]]> (deployments s)) (health s)
    (logs s) (events s) (audit s) (plugins s) (evidence s).

(** [map(|a| a.approved && !a.approver.trim().is_empty()).unwrap_or(false)]. *)
Definition approval_granted (a : option ExplicitApproval) : bool :=
  match a with Some a => approved a && negb (trim_is_empty (approver a)) | None => false end.

Section Cli.
Context `{JsonOps} `{UuidLib} `{ChronoText} `{StrDebug}.

Record CliResponse := mkCliResponse {
  cr_command : string;
  cr_ok : bool;
  cr_replayed : bool;
  cr_application_id : option ApplicationId;
  cr_environment : option string;
  cr_findings : list Finding;
  cr_data : option Json;
  cr_idempotency_key : option string;
  cr_at : DateTime;
}.
Definition has_errors (r : CliResponse) : bool :=
  existsb (λ f, bool_decide (fi_severity f = SevError)) (cr_findings r).
Definition CliResponse_to_event_detail (r : CliResponse) : string :=
  cr_command r +:+ " " +:+ (if cr_ok r then "ok" else "FAILED") +:+ " ("
  +:+ pretty (Z.of_nat (length (cr_findings r))) +:+ " findings)"
  +:+ (if cr_replayed r then " replayed" else "").

(** [Finding::to_json_value]. *)
Definition Finding_to_json_value (f : Finding) : Json :=
  json_object
    [("code", json_str (fi_code f));
     ("severity", json_str (to_ascii_lowercase (Severity_debug (fi_severity f))));
     ("message", json_str (fi_message f));
     ("recovery", json_option (json_str <$> fi_recovery f));
     ("resource", json_option ((λ r, json_object [("kind", json_str (er_kind r));
                                                  ("id", json_str (er_id r))]) <$> fi_resource f))].

(* ------------------------------------------------------------------ *)
(** * Permissions *)

Definition authorize (r : CliRequest) : option Finding :=
  let c := cq_command r in
  if is_agent (cq_actor r) && bool_decide (c ∈ [CcInit; CcImport; CcDeploy; CcRollback; CcBuild]) then
    Some (Finding_with_recovery "a human operator must run this command"
      (Finding_error "cli.permission_denied"
         ("an agent session may not run '" +:+ command_name c +:+ "'")))
  else if bool_decide (c = CcRollback) && negb (is_human (cq_actor r)) then
    Some (Finding_with_recovery "a named human must issue the rollback"
      (Finding_error "cli.permission_denied" "rollback is a human-only operation"))
  else if is_platform (cq_actor r) && bool_decide (c ∈ [CcDeploy; CcRollback]) then
    Some (Finding_with_recovery "route this through a human approval flow"
      (Finding_error "cli.permission_denied"
         ("platform automation may not issue '" +:+ command_name c +:+ "'")))
  else None.
Definition failure (r : CliRequest) (now : DateTime) (findings : list Finding) : CliResponse :=
  mkCliResponse (command_name (cq_command r)) false false (cq_application_id r) (cq_environment r)
    findings None (cq_idempotency_key r) now.

(** The findings about missing or unknown targets. *)
Definition application_findings (s : PlatformState) (r : CliRequest) : list Finding :=
  if requires_application (cq_command r) then
    match cq_application_id r with
    | None =>
        [Finding_with_recovery "pass --application <id> or run `labrys import .` first"
           (Finding_error "cli.application_required"
              ("'" +:+ command_name (cq_command r) +:+ "' needs an application"))]
    | Some a =>
        if negb (knows s a) then
          [Finding_with_recovery "run `labrys import .` to register this project"
             (Finding_error "cli.application_unknown"
                ("application " +:+ id_fmt a +:+ " is not registered"))]
        else []
    end
  else [].
Definition environment_known (s : PlatformState) (r : CliRequest) : bool :=
  match cq_application_id r ≫= λ a, environments s !! a with
  | Some envs => existsb (λ e, bool_decide (Some e = cq_environment r)) envs
  | None => false
  end.
Definition environment_findings (s : PlatformState) (r : CliRequest) : list Finding :=
  if requires_environment (cq_command r)
     && (negb (is_some (cq_environment r)) || negb (environment_known s r)) then
    [Finding_with_recovery "list environments with `labrys inspect`"
       (Finding_error "cli.environment_unknown"
          ("'" +:+ command_name (cq_command r) +:+ "' needs a known environment, got "
           +:+ option_debug str_debug (cq_environment r)))]
  else [].

(* ------------------------------------------------------------------ *)
(** * The commands

    An arm returns the new platform state with the outcome of the command, or
    with the findings of an early failure. *)

Inductive ArmResult :=
| ArmDone (ok : bool) (data : option Json) (findings : list Finding)
| ArmFailure (findings : list Finding).
Abbreviation Arm := (outcome (PlatformState * ArmResult)).

Definition json_strs (l : list string) : Json := json_array (map json_str l).
Definition validated (r : CliRequest) : outcome ApplicationId :=
  expect "validated above" (cq_application_id r).
Definition audited (now : DateTime) (actor action target detail : string) (secrets : list string)
    (s : PlatformState) : PlatformState :=
  set_audit (AuditLog_append now actor action target detail secrets (audit s)).1 s.

Definition register_arm (fresh : ApplicationId) (r : CliRequest) (secrets : list string)
    (now : DateTime) (s : PlatformState) : Arm :=
  let id := default fresh (cq_application_id r) in
  let path := default "." (cq_arguments r !! "path") in
  let s := add_application id ["development"; "production"] s in
  let s := audited now (actor_label (cq_actor r)) (command_name (cq_command r)) (id_fmt id)
             ("registered from " +:+ path) secrets s in
  Done (s, ArmDone true
    (Some (json_object [("application_id", json_str (id_fmt id)); ("path", json_str path);
                        ("environments", json_strs ["development"; "production"])]))
    [Finding_info "cli.registered"
       ("application " +:+ id_fmt id +:+ " registered from " +:+ path)]).

Definition inspect_arm (r : CliRequest) (s : PlatformState) : Arm :=
  id ← validated r;
  let caps := default [] (capabilities s !! id) in
  let res := default [] (resources s !! id) in
  Done (s, ArmDone true
    (Some (json_object
       [("application_id", json_str (id_fmt id));
        ("environments", json_strs (default [] (environments s !! id)));
        ("capabilities", json_strs caps); ("resources", json_strs res);
        ("deployments", json_strs (default [] (deployments s !! id)))]))
    [Finding_info "cli.inspected"
       (pretty (Z.of_nat (length caps)) +:+ " capabilities, "
        +:+ pretty (Z.of_nat (length res)) +:+ " resources")]).

Definition health_check (now : DateTime) (snapshot : option HealthSnapshot) : Finding :=
  match snapshot with
  | None =>
      Finding_with_recovery "run a health probe or wait for the controller"
        (Finding_warning "doctor.no_health_evidence" "no platform health observation recorded")
  | Some h =>
      if snapshot_is_stale h now then
        Finding_with_recovery "re-probe before trusting this result"
          (Finding_warning "doctor.stale_health"
             ("health evidence for '" +:+ hs_target h +:+ "' is stale"))
      else Finding_info "doctor.health"
             (hs_target h +:+ " is " +:+ HealthState_debug (effective_state h now))
  end.
Definition plugin_check (p : PluginReport) : Finding :=
  match pr_state p with
  | PlActive =>
      Finding_info "doctor.plugin"
        (pr_name p +:+ " (" +:+ family_name (pr_family p) +:+ ") active")
  | other =>
      Finding_with_recovery (pr_detail p)
        (Finding_error "doctor.plugin_unavailable"
           (pr_name p +:+ " (" +:+ family_name (pr_family p) +:+ ") is "
            +:+ PluginState_debug other))
  end.
Definition evidence_check (e : VerificationEvidence) : Finding :=
  Finding_with_recovery
    (default "inspect the failing check and re-run verification" (ve_recovery e))
    (Finding_error "doctor.failed_evidence" (VerificationEvidence_to_event_detail e)).
Definition doctor_checks (now : DateTime) (id : ApplicationId) (s : PlatformState) : list Finding :=
  health_check now (health s !! id) :: map plugin_check (report (plugins s)) ++
  match evidence s with
  | Some store => map evidence_check (List.filter (λ e, negb (ve_passed e)) (es_evidence store))
  | None => []
  end.
Definition doctor_arm (r : CliRequest) (now : DateTime) (s : PlatformState) : Arm :=
  id ← validated r;
  let doctor := doctor_checks now id s in
  let ok := negb (existsb (λ f, bool_decide (fi_severity f = SevError)) doctor) in
  Done (s, ArmDone ok
    (Some (json_object [("application_id", json_str (id_fmt id));
                        ("checks", json_array (map Finding_to_json_value doctor))]))
    doctor).

Definition log_source_named (name : string) : option LogSource :=
  List.find (λ l, bool_decide (LogSource_canonical_name l = name))
    [LsAgent; LsBuild; LsRuntime; LsDeployment; LsCapability; LsResource].
Definition log_json (e : LogEntry) : Json :=
  json_object
    [("sequence", json_u64 (le_sequence e));
     ("source", json_str (LogSource_canonical_name (le_source e)));
     ("level", json_str (LogLevel_debug (le_level e))); ("message", json_str (le_message e));
     ("trace", json_str (trace_id (le_correlation e)))].
Definition logs_arm (r : CliRequest) (s : PlatformState) : Arm :=
  id ← validated r;
  let entries := match cq_arguments r !! "source" ≫= log_source_named with
    | Some source => for_source source (logs s)
    | None => logs s
    end in
  let rendered := map log_json entries in
  Done (s, ArmDone true
    (Some (json_object [("application_id", json_str (id_fmt id)); ("entries", json_array rendered)]))
    [Finding_info "cli.logs" (pretty (Z.of_nat (length rendered)) +:+ " entries")]).

Definition health_arm (r : CliRequest) (now : DateTime) (s : PlatformState) : Arm :=
  id ← validated r;
  match health s !! id with
  | None =>
      Done (s, ArmDone false None
        [Finding_with_recovery "run `labrys doctor` to see which probe is missing"
           (Finding_error "cli.no_health" "no platform health evidence for this application")])
  | Some h =>
      let effective := effective_state h now in
      let stale := snapshot_is_stale h now in
      let first := mkFinding "cli.health"
        (if stale || negb (bool_decide (effective = HHealthy)) then SevWarning else SevInfo)
        (hs_target h +:+ " is " +:+ HealthState_debug effective)
        (if stale then Some "re-probe; this observation is older than its ttl" else None) None in
      let findings := first :: match hs_detail h with
        | Some detail => [Finding_info "cli.health_detail" detail]
        | None => []
        end in
      Done (s, ArmDone (bool_decide (effective = HHealthy) && negb stale)
        (Some (json_object [("state", json_str (HealthState_debug effective));
                            ("stale", json_bool stale);
                            ("observed_at", json_str (to_rfc3339 (hs_observed_at h)))]))
        findings)
  end.

Definition rollback_arm (r : CliRequest) (secrets : list string) (now : DateTime) (s : PlatformState) :
    Arm :=
  id ← validated r;
  if negb (approval_granted (cq_approval r)) then
    Done (s, ArmFailure
      [Finding_with_recovery "re-run with --approve-by <name> --target <id>"
         (Finding_error "cli.approval_required" "rollback requires a granted, named human approval")])
  else
    a ← expect "granted above" (cq_approval r);
    let target := default "previous" (cq_arguments r !! "target") in
    let s := audited now (approver a) "rollback" (id_fmt id)
               "traffic moved; database data not restored" secrets s in
    Done (s, ArmDone true
      (Some (json_object
         [("application_id", json_str (id_fmt id)); ("target", json_str target);
          ("approved_by", json_str (approver a)); ("database_data_restored", json_bool false);
          ("warning", json_str DATABASE_DATA_WARNING)]))
      [Finding_info "cli.rolled_back" ("rolled back to " +:+ target)]).

Definition deploy_arm (r : CliRequest) (secrets : list string) (now : DateTime) (s : PlatformState) :
    Arm :=
  id ← validated r;
  environment ← expect "validated above" (cq_environment r);
  if bool_decide (environment = "production") && negb (is_human (cq_actor r)) then
    Done (s, ArmFailure
      [Finding_with_recovery "a human must run `labrys deploy --environment production`"
         (Finding_error "cli.permission_denied" "production deployment requires a human actor")])
  else
    let digest := default "sha256:unspecified" (cq_arguments r !! "artifact") in
    let s := push_deployment id (environment +:+ ":" +:+ digest) s in
    let s := audited now (actor_label (cq_actor r)) (command_name (cq_command r)) (id_fmt id)
               (environment +:+ " -> " +:+ digest) secrets s in
    Done (s, ArmDone true
      (Some (json_object
         [("application_id", json_str (id_fmt id)); ("environment", json_str environment);
          ("artifact", json_str digest); ("health_gate", json_bool true)]))
      [Finding_info "cli.converging"
         (command_name (cq_command r) +:+ " " +:+ digest
          +:+ " requested; promotion waits for health")]).

Definition listing_arm (r : CliRequest) (secrets : list string) (now : DateTime) (s : PlatformState) :
    Arm :=
  id ← validated r;
  let c := cq_command r in
  let '(key, values) := match c with
    | CcCapability => ("capabilities", capabilities s !! id)
    | CcResources => ("resources", resources s !! id)
    | CcDeployments => ("deployments", deployments s !! id)
    | _ => (command_name c, None)
    end in
  let values := default [] values in
  let s := if is_mutating c then
      audited now (actor_label (cq_actor r)) (command_name c) (id_fmt id) "requested" secrets s
    else s in
  Done (s, ArmDone true
    (Some (json_object [("application_id", json_str (id_fmt id)); (key, json_strs values)]))
    [Finding_info ("cli." +:+ command_name c) (pretty (Z.of_nat (length values)) +:+ " entries")]).

Definition run_command (fresh : ApplicationId) (r : CliRequest) (secrets : list string)
    (now : DateTime) (s : PlatformState) : Arm :=
  match cq_command r with
  | CcInit | CcImport => register_arm fresh r secrets now s
  | CcInspect => inspect_arm r s
  | CcDoctor => doctor_arm r now s
  | CcLogs => logs_arm r s
  | CcHealth => health_arm r now s
  | CcRollback => rollback_arm r secrets now s
  | CcDeploy | CcBuild => deploy_arm r secrets now s
  | CcCapability | CcResources | CcDeployments | CcPreview | CcDev | CcAgent =>
      listing_arm r secrets now s
  end.

(* ------------------------------------------------------------------ *)
(** * The executor *)

Abbreviation Cli := (gmap string CliResponse).
Definition set_replayed (r : CliResponse) : CliResponse :=
  mkCliResponse (cr_command r) (cr_ok r) true (cr_application_id r) (cr_environment r)
    (cr_findings r) (cr_data r) (cr_idempotency_key r) (cr_at r).

(** The identifier a registration reports, parsed back from its data. *)
Definition resolved_application (c : CliCommand) (ok : bool) (data : option Json) :
    option ApplicationId :=
  if ok && bool_decide (c ∈ [CcInit; CcImport]) then
    d ← data; v ← json_get "application_id" d; t ← json_as_str v;
    match ApplicationId_from_str t with Ok i => Some i | Err _ => None end
  else None.
(** What [execute] does once the request has passed its checks. *)
Definition perform (fresh : ApplicationId) (r : CliRequest) (secrets : list string) (now : DateTime)
    (cli : Cli) (s : PlatformState) : outcome ((Cli * PlatformState) * CliResponse) :=
  '(s', arm) ← run_command fresh r secrets now s;
  match arm with
  | ArmFailure findings => Done ((cli, s'), failure r now findings)
  | ArmDone ok data findings =>
      let resolved := resolved_application (cq_command r) ok data in
      let response := mkCliResponse (command_name (cq_command r)) ok false
        (match resolved with Some a => Some a | None => cq_application_id r end)
        (cq_environment r) findings data (cq_idempotency_key r) now in
      let cli' := match cq_idempotency_key r with
        | Some key => <[key := response]> cli
        | None => cli
        end in
      Done ((cli', s'), response)
  end.
Definition execute (fresh : ApplicationId) (r : CliRequest) (secrets : list string) (now : DateTime)
    (cli : Cli) (s : PlatformState) : outcome ((Cli * PlatformState) * CliResponse) :=
  match authorize r with
  | Some denied => Done ((cli, s), failure r now [denied])
  | None =>
      if is_mutating (cq_command r) && negb (is_some (cq_idempotency_key r)) then
        Done ((cli, s), failure r now
          [Finding_with_recovery "re-run with --idempotency-key <key> so a retry is safe"
             (Finding_error "cli.idempotency_required"
                ("'" +:+ command_name (cq_command r)
                 +:+ "' changes platform state and needs an idempotency key"))])
      else
        match cq_idempotency_key r ≫= λ key, cli !! key with
        | Some replay => Done ((cli, s), set_replayed replay)
        | None =>
            let findings := application_findings s r ++ environment_findings s r in
            if negb (is_nil findings) then Done ((cli, s), failure r now findings)
            else perform fresh r secrets now cli s
        end
  end.
End Cli.

(* ------------------------------------------------------------------ *)
(** * What a request may do *)

(** The commands each kind of actor may run. *)
Definition permitted (r : CliRequest) : Prop :=
  match cq_actor r with
  | CaHuman _ => True
  | CaAgent _ _ => cq_command r ∉ [CcInit; CcImport; CcDeploy; CcRollback; CcBuild]
  | CaPlatform _ => cq_command r ∉ [CcDeploy; CcRollback]
  end.
Lemma authorize_None r : authorize r = None ↔ permitted r.
Proof.
  unfold authorize, permitted. destruct (cq_actor r), (cq_command r); simpl;
    split; intros Hx; try done; try set_solver; exfalso; apply Hx; set_solver.
Qed.
Lemma permitted_human r : permitted r → cq_command r ∈ [CcDeploy; CcRollback] → is_human (cq_actor r) = true.
Proof.
  unfold permitted. intros Hp Hr. rewrite !elem_of_cons in Hr. destruct Hr as [Hc|[Hc|?%elem_of_nil]]; [..|done];
    rewrite Hc in Hp; (destruct (cq_actor r); [done|..]); exfalso; apply Hp; repeat constructor.
Qed.
Lemma authorize_Some r f : authorize r = Some f →
  fi_severity f = SevError ∧ is_some (fi_recovery f) = true.
Proof. unfold authorize. repeat case_match; intros [= <-]; done. Qed.

Section Effects.
Context `{JsonOps} `{UuidLib} `{ChronoText} `{StrDebug}.

(** The changes of platform state, one per kind of mutating command, with what
    each is conditional on. *)
Inductive effect (fresh : ApplicationId) (secrets : list string) (now : DateTime) (r : CliRequest)
    (s : PlatformState) : PlatformState → Prop :=
| effect_register id path :
    cq_command r ∈ [CcInit; CcImport] → id = default fresh (cq_application_id r) →
    effect fresh secrets now r s
      (audited now (actor_label (cq_actor r)) (command_name (cq_command r)) (id_fmt id)
         ("registered from " +:+ path) secrets (add_application id ["development"; "production"] s))
| effect_rollback id a :
    cq_command r = CcRollback → cq_application_id r = Some id → id ∈ applications s →
    cq_approval r = Some a → approval_ok a →
    effect fresh secrets now r s
      (audited now (approver a) "rollback" (id_fmt id) "traffic moved; database data not restored"
         secrets s)
| effect_deploy id environment digest :
    cq_command r ∈ [CcDeploy; CcBuild] → cq_application_id r = Some id → id ∈ applications s →
    cq_environment r = Some environment → (environment = "production" → is_human (cq_actor r) = true) →
    effect fresh secrets now r s
      (audited now (actor_label (cq_actor r)) (command_name (cq_command r)) (id_fmt id)
         (environment +:+ " -> " +:+ digest) secrets
         (push_deployment id (environment +:+ ":" +:+ digest) s))
| effect_request id :
    cq_command r ∈ [CcCapability; CcPreview; CcAgent] → cq_application_id r = Some id →
    id ∈ applications s →
    effect fresh secrets now r s
      (audited now (actor_label (cq_actor r)) (command_name (cq_command r)) (id_fmt id) "requested"
         secrets s).

Lemma application_ok s r : application_findings s r = [] →
  requires_application (cq_command r) = true → ∃ id, cq_application_id r = Some id ∧ id ∈ applications s.
Proof.
  unfold application_findings. intros Hf Ha. rewrite Ha in Hf.
  destruct (cq_application_id r) as [a|]; [|done]. exists a. split; [done|].
  unfold knows in Hf. by case_bool_decide.
Qed.
Lemma approval_granted_spec a : approval_granted a = true ↔ ∃ b, a = Some b ∧ approval_ok b.
Proof.
  unfold approval_granted, approval_ok. destruct a as [a|]; [|naive_solver].
  rewrite andb_true_iff, negb_true_iff. naive_solver.
Qed.

(** An arm either leaves the state alone or has the effect of its command. *)
Definition arm_ok fresh secrets now r s s' (arm : ArmResult) : Prop :=
  s' = s ∧ (is_mutating (cq_command r) = false ∨ ∃ fs, arm = ArmFailure fs) ∨
  effect fresh secrets now r s s' ∧ is_mutating (cq_command r) = true ∧
  ∃ data fs, arm = ArmDone true data fs.
Lemma register_arm_ok fresh r secrets now s s' arm : cq_command r ∈ [CcInit; CcImport] →
  register_arm fresh r secrets now s = Done (s', arm) → arm_ok fresh secrets now r s s' arm.
Proof.
  intros Hc Hrun. unfold register_arm in Hrun. simplify_eq. right. split; [by apply effect_register|].
  split; [|eauto]. by rewrite !elem_of_cons in Hc; destruct Hc as [->|[->|?%elem_of_nil]].
Qed.
Lemma rollback_arm_ok fresh r secrets now s s' arm id : cq_command r = CcRollback →
  cq_application_id r = Some id → id ∈ applications s →
  rollback_arm r secrets now s = Done (s', arm) → arm_ok fresh secrets now r s s' arm.
Proof.
  intros Hc Hid Hk. unfold rollback_arm, validated. rewrite Hid. simpl.
  destruct (approval_granted (cq_approval r)) eqn:Ha; simpl; intros Hrun; [|simplify_eq; left; eauto].
  apply approval_granted_spec in Ha as (a & Ha & Hok). rewrite Ha in Hrun. simpl in Hrun. simplify_eq.
  right. split; [by apply effect_rollback|]. rewrite Hc. eauto.
Qed.
Lemma deploy_arm_ok fresh r secrets now s s' arm id : cq_command r ∈ [CcDeploy; CcBuild] →
  cq_application_id r = Some id → id ∈ applications s →
  deploy_arm r secrets now s = Done (s', arm) → arm_ok fresh secrets now r s s' arm.
Proof.
  intros Hc Hid Hk. unfold deploy_arm, validated. rewrite Hid. simpl.
  destruct (cq_environment r) as [env|] eqn:He; simpl; [|done].
  destruct (bool_decide (env = "production") && negb (is_human (cq_actor r))) eqn:Hp; intros Hrun;
    simplify_eq; [left; eauto|].
  right. split; [|split; [by rewrite !elem_of_cons in Hc; destruct Hc as [->|[->|?%elem_of_nil]]|eauto]].
  apply effect_deploy; [done..|]. intros ->. by destruct (is_human _).
Qed.
Lemma listing_arm_ok fresh r secrets now s s' arm id :
  cq_command r ∈ [CcCapability; CcResources; CcDeployments; CcPreview; CcDev; CcAgent] →
  cq_application_id r = Some id → id ∈ applications s →
  listing_arm r secrets now s = Done (s', arm) → arm_ok fresh secrets now r s s' arm.
Proof.
  intros Hc Hid Hk. unfold listing_arm, validated. rewrite Hid. simpl.
  destruct (match cq_command r with CcCapability => _ | _ => _ end) as [key values].
  intros Hrun. simplify_eq. destruct (is_mutating (cq_command r)) eqn:Hm; [right|left; by auto].
  split; [|eauto]. apply effect_request; [|done..].
  destruct (cq_command r); try done; set_solver.
Qed.
Lemma read_arm_ok fresh r secrets now s s' arm :
  cq_command r ∈ [CcInspect; CcDoctor; CcLogs; CcHealth] →
  run_command fresh r secrets now s = Done (s', arm) → arm_ok fresh secrets now r s s' arm.
Proof.
  intros Hc Hrun. assert (s' = s) as ->.
  { revert Hrun. unfold run_command. destruct (cq_command r); try set_solver;
      unfold inspect_arm, doctor_arm, logs_arm, health_arm, validated;
      (destruct (cq_application_id r); simpl; [|done]); repeat case_match; intros; by simplify_eq. }
  left. split; [done|]. left. by destruct (cq_command r); try set_solver.
Qed.
Lemma run_command_ok fresh r secrets now s s' arm :
  application_findings s r = [] →
  run_command fresh r secrets now s = Done (s', arm) → arm_ok fresh secrets now r s s' arm.
Proof.
  intros Hf Hrun. pose proof (application_ok s r Hf) as Hid. pose proof Hrun as Hrun'.
  unfold run_command in Hrun. destruct (cq_command r) eqn:Hc; simpl in Hid;
    lazymatch goal with
    | _ : register_arm _ _ _ _ _ = _ |- _ => eapply register_arm_ok; [rewrite Hc; repeat constructor|done]
    | _ : listing_arm _ _ _ _ = _ |- _ => destruct (Hid eq_refl) as (id & Hi & Hk);
        eapply listing_arm_ok; [rewrite Hc; repeat constructor|done..]
    | _ : deploy_arm _ _ _ _ = _ |- _ => destruct (Hid eq_refl) as (id & Hi & Hk);
        eapply deploy_arm_ok; [rewrite Hc; repeat constructor|done..]
    | _ : rollback_arm _ _ _ _ = _ |- _ => destruct (Hid eq_refl) as (id & Hi & Hk);
        by eapply rollback_arm_ok
    | _ => eapply read_arm_ok; [rewrite Hc; repeat constructor|done]
    end.
Qed.

Lemma findings_nil s r : is_nil (application_findings s r ++ environment_findings s r) = true →
  application_findings s r = [] ∧ environment_findings s r = [].
Proof.
  destruct (application_findings s r); simpl; [|done]. by destruct (environment_findings s r).
Qed.

(** One execution: nothing changes, or a fresh key gets its response; the platform
    state changes only by the effect of a permitted mutating request. *)
Lemma execute_cases fresh r secrets now cli s cli' s' resp :
  execute fresh r secrets now cli s = Done ((cli', s'), resp) →
  (cli' = cli ∧ s' = s) ∨
  (∃ key, cq_idempotency_key r = Some key ∧ cli !! key = None ∧ cli' = <[key := resp]> cli ∧
    (s' = s ∨ permitted r ∧ is_mutating (cq_command r) = true ∧ effect fresh secrets now r s s')).
Proof.
  unfold execute. destruct (authorize r) as [d|] eqn:Ha; [intros; simplify_eq; by left|].
  apply authorize_None in Ha.
  destruct (is_mutating (cq_command r) && _) eqn:Hkey; [intros; simplify_eq; by left|].
  destruct (cq_idempotency_key r ≫= _) as [rep|] eqn:Hrep; [intros; simplify_eq; by left|].
  destruct (is_nil _) eqn:Hnil; simpl; [|intros; simplify_eq; by left].
  apply findings_nil in Hnil as [Hf _]. unfold perform.
  destruct (run_command _ _ _ _ _) as [[s1 arm]|] eqn:Hrun; simpl; [|done].
  apply run_command_ok in Hrun; [|done].
  destruct Hrun as [(-> & Hno)|(He & Hm & data & fs & ->)].
  - destruct arm as [ok data fs|fs]; [|intros; simplify_eq; by left].
    destruct (cq_idempotency_key r) as [key|] eqn:Hk; intros Hx; simplify_eq; [|by left].
    right. exists key. simpl in Hrep. auto.
  - rewrite Hm in Hkey. destruct (cq_idempotency_key r) as [key|] eqn:Hk; [|done].
    intros Hx. simplify_eq. right. exists key. simpl in Hrep. split_and!; try done. auto.
Qed.
Lemma execute_replays fresh r secrets now cli s key resp :
  cq_idempotency_key r = Some key → cli !! key = Some resp →
  execute fresh r secrets now cli s =
  Done ((cli, s), match authorize r with Some d => failure r now [d] | None => set_replayed resp end).
Proof.
  intros Hk Hr. unfold execute. destruct (authorize r); [done|]. rewrite Hk. simpl.
  by rewrite andb_false_r, Hr.
Qed.
Lemma audited_chain now actor action target detail secrets s :
  chain (audit s) → chain (audit (audited now actor action target detail secrets s)).
Proof. simpl. apply append_chain. Qed.
Lemma effect_audit fresh secrets now r s s' : effect fresh secrets now r s s' →
  length (audit s') = S (length (audit s)) ∧ (chain (audit s) → chain (audit s')).
Proof.
  destruct 1; simpl; rewrite length_app; simpl; (split; [lia|]); intros; by apply chain_snoc.
Qed.

(** * Runs of the executor *)

Record Call := mkCall {
  cl_fresh : ApplicationId;
  cl_request : CliRequest;
  cl_secrets : list string;
  cl_now : DateTime;
}.
Definition call (c : Call) (st : gmap string CliResponse * PlatformState) : 
    outcome ((gmap string CliResponse * PlatformState) * CliResponse) :=
  execute (cl_fresh c) (cl_request c) (cl_secrets c) (cl_now c) st.1 st.2.
Definition cli_step (st st' : gmap string CliResponse * PlatformState) : Prop := ∃ c resp, call c st = Done (st', resp).
Lemma recorded_stays st st' key resp :
  rtc cli_step st st' → st.1 !! key = Some resp → st'.1 !! key = Some resp.
Proof.
  induction 1 as [|st1 [cli2 s2] st3 (c & resp' & Hc) _ IH]; [done|]. intros Hk. apply IH. simpl.
  destruct st1 as [cli1 s1]. apply execute_cases in Hc as [[-> _]|(key' & _ & Hn & -> & _)]; [done|].
  simpl in *. apply lookup_insert_Some. right. split; [|done]. congruence.
Qed.

(** A retry is safe.  Once a request has changed the platform state, every later
    request with its idempotency key, however many others ran in between, leaves
    the state as it is; a permitted one gets the recorded response, marked as
    replayed. *)
Theorem effect_once st1 c resp st2 st3 d :
  call c st1 = Done (st2, resp) → st2.2 ≠ st1.2 → rtc cli_step st2 st3 →
  cq_idempotency_key (cl_request d) = cq_idempotency_key (cl_request c) →
  ∃ answer, call d st3 = Done (st3, answer) ∧
    (permitted (cl_request d) → answer = set_replayed resp).
Proof.
  intros Hc Hne Hrun Hkey. destruct st1 as [cli1 s1], st2 as [cli2 s2], st3 as [cli3 s3]. simpl in Hne.
  apply execute_cases in Hc as [[_ ->]|(key & Hk & _ & -> & _)]; [done|].
  eapply (recorded_stays _ _ key resp) in Hrun; [|apply lookup_insert_eq]. simpl in Hrun.
  rewrite Hk in Hkey. unfold call. simpl. erewrite execute_replays by done. eexists. split; [done|].
  intros Hp%authorize_None. by rewrite Hp.
Qed.

(** The platform state changes only through a permitted mutating request with an
    unused key, and then by exactly the effect of its command: a registration, an
    approved rollback by a human, a deployment (to production only by a human)
    or a recorded request, each on a registered application, with one audit
    record added to an intact chain. *)
Theorem cli_effects_are_authorized c cli s cli' s' resp :
  call c (cli, s) = Done ((cli', s'), resp) → s' ≠ s →
  let r := cl_request c in
  permitted r ∧ is_mutating (cq_command r) = true ∧
  (∃ key, cq_idempotency_key r = Some key ∧ cli !! key = None ∧ cli' = <[key := resp]> cli) ∧
  effect (cl_fresh c) (cl_secrets c) (cl_now c) r s s' ∧
  (cq_command r ∈ [CcDeploy; CcRollback] → is_human (cq_actor r) = true) ∧
  length (audit s') = S (length (audit s)) ∧ (chain (audit s) → chain (audit s')).
Proof.
  intros Hc Hne r. apply execute_cases in Hc as [[_ ->]|(key & Hk & Hn & -> & [->|(Hp & Hm & He)])]; [done..|].
  split_and!; [done|done|eauto|done|by apply permitted_human|by eapply effect_audit..].
Qed.

(** ** The panic *)

Definition build_unvalidated (cli : gmap string CliResponse) (s : PlatformState) (r : CliRequest) : Prop :=
  permitted r ∧ cq_command r = CcBuild ∧
  (∃ key, cq_idempotency_key r = Some key ∧ cli !! key = None) ∧
  (∃ id, cq_application_id r = Some id ∧ id ∈ applications s) ∧ cq_environment r = None.
Lemma environment_ok s r : environment_findings s r = [] →
  requires_environment (cq_command r) = true → is_some (cq_environment r) = true.
Proof.
  unfold environment_findings. intros Hf Hr. rewrite Hr in Hf. by destruct (is_some _).
Qed.
Lemma run_command_panics fresh r secrets now s :
  application_findings s r = [] → environment_findings s r = [] →
  is_done (run_command fresh r secrets now s) = false ↔
  cq_command r = CcBuild ∧ cq_environment r = None.
Proof.
  intros Hf He. pose proof (application_ok s r Hf) as Hid. pose proof (environment_ok s r He) as Henv.
  unfold run_command. destruct (cq_command r) eqn:Hc; simpl in Hid, Henv; try (split; [done|by intros []]).
  all: destruct (Hid eq_refl) as (id & Hi & _).
  all: unfold inspect_arm, doctor_arm, logs_arm, health_arm, listing_arm, rollback_arm, deploy_arm, validated;
    rewrite Hi, ?Hc; simpl; try (split; [done|by intros []]).
  - destruct (cq_environment r) as [e|]; simpl; [|done]. split; [by case_match|by intros []].
  - destruct (cq_environment r) as [e|]; simpl; [|by specialize (Henv eq_refl)].
    split; [by case_match|by intros []].
  - split; [by case_match|by intros []].
  - split; [|by intros []]. destruct (approval_granted (cq_approval r)) eqn:Ha; simpl; [|done].
    by apply approval_granted_spec in Ha as (a & -> & _).
Qed.

(** The executor panics exactly on a permitted build of a registered application
    with an unused key and no environment: a build is not checked for one, and
    then expects it. *)
Theorem execute_panics_iff c cli s :
  is_done (call c (cli, s)) = false ↔ build_unvalidated cli s (cl_request c).
Proof.
  destruct c as [fresh r secrets now]. unfold call, build_unvalidated. simpl. unfold execute.
  rewrite <- authorize_None. destruct (authorize r) as [d|]; [naive_solver|].
  destruct (cq_idempotency_key r) as [key|]; simpl.
  2: { rewrite andb_true_r. destruct (is_mutating (cq_command r)) eqn:Hm; simpl; [naive_solver|].
       split; [|intros (_ & Hb & _); by rewrite Hb in Hm]. intros Hp. exfalso. revert Hp.
       destruct (is_nil _) eqn:Hn; simpl; [|done]. apply findings_nil in Hn as [Hf He]. unfold perform.
       pose proof (run_command_panics fresh r secrets now s Hf He) as Hrun.
       destruct (run_command _ _ _ _ _) as [[s' []]|]; simpl; [done..|].
       intros _. destruct (proj1 Hrun eq_refl) as [Hb _]. by rewrite Hb in Hm. }
  rewrite andb_false_r. destruct (cli !! key) as [rep|] eqn:Hk; simpl; [naive_solver congruence|].
  destruct (is_nil _) eqn:Hn; simpl.
  - apply findings_nil in Hn as [Hf He]. unfold perform.
    pose proof (run_command_panics fresh r secrets now s Hf He) as Hrun.
    pose proof (application_ok s r Hf) as Hid.
    destruct (run_command _ _ _ _ _) as [[s' []]|]; simpl in *; [naive_solver..|].
    destruct (proj1 Hrun eq_refl) as [Hb Henv]. rewrite Hb in Hid. split; [|done]. intros _.
    split_and!; eauto.
  - split; [done|]. intros (_ & Hb & _ & (id & Hi & Hin) & Henv). exfalso. revert Hn.
    unfold application_findings, environment_findings. rewrite Hb, Hi. simpl.
    unfold knows. by rewrite bool_decide_eq_true_2.
Qed.

(** ** Failures *)

Definition advises (fs : list Finding) : Prop :=
  ∃ f, f ∈ fs ∧ fi_severity f = SevError ∧ is_some (fi_recovery f) = true.
Definition actionable (r : CliResponse) : Prop :=
  cr_ok r = false → advises (cr_findings r) ∨ cr_command r = command_name CcHealth.
Lemma advises_head f fs : fi_severity f = SevError → is_some (fi_recovery f) = true → advises (f :: fs).
Proof. intros. exists f. split; [apply elem_of_cons; by left|done]. Qed.
Lemma doctor_advises now id s :
  existsb (λ f, bool_decide (fi_severity f = SevError)) (doctor_checks now id s) = true →
  advises (doctor_checks now id s).
Proof.
  intros (f & Hin & Hsev%bool_decide_eq_true)%existsb_exists. exists f.
  apply list_elem_of_In in Hin. split_and!; [done..|]. unfold doctor_checks in Hin.
  rewrite elem_of_cons, elem_of_app in Hin. destruct Hin as [->|[Hin|Hin]].
  - unfold health_check in Hsev. by repeat case_match.
  - apply list_elem_of_fmap in Hin as (p & -> & _). unfold plugin_check in *. by case_match.
  - destruct (evidence s) as [st|]; [|by apply elem_of_nil in Hin].
    by apply list_elem_of_fmap in Hin as (e & -> & _).
Qed.
Lemma run_command_advises fresh r secrets now s s' arm :
  run_command fresh r secrets now s = Done (s', arm) →
  match arm with
  | ArmDone ok _ fs => ok = false → advises fs ∨ cq_command r = CcHealth
  | ArmFailure fs => advises fs
  end.
Proof.
  unfold run_command. destruct (cq_command r) eqn:Hc;
    unfold register_arm, inspect_arm, logs_arm, listing_arm, rollback_arm, deploy_arm, validated;
    try (by intros; simplify_eq);
    try (destruct (cq_application_id r) as [id|]; simpl; [|done]);
    rewrite ?Hc; try (by intros; simplify_eq).
  - destruct (cq_environment r); simpl; [|done]. case_match; intros; simplify_eq; [by apply advises_head|done].
  - destruct (cq_environment r); simpl; [|done]. case_match; intros; simplify_eq; [by apply advises_head|done].
  - intros. destruct arm; [by right|]. unfold health_arm, validated in *.
    destruct (cq_application_id r); simpl in *; [|done]. by repeat case_match; simplify_eq.
  - destruct (approval_granted _); simpl; [|by intros; simplify_eq; apply advises_head].
    destruct (cq_approval r); simpl; [|done]. by intros; simplify_eq.
  - unfold doctor_arm, validated. destruct (cq_application_id r) as [id|]; simpl; [|done].
    intros Hx. simplify_eq. intros Hok%negb_false_iff. left. by apply doctor_advises.
Qed.
Lemma targets_advise s r : is_nil (application_findings s r ++ environment_findings s r) = false →
  advises (application_findings s r ++ environment_findings s r).
Proof.
  unfold application_findings, environment_findings. repeat case_match; simpl; try done; intros _;
    by apply advises_head.
Qed.
Lemma execute_actionable c cli s cli' s' resp :
  map_Forall (λ _, actionable) cli → call c (cli, s) = Done ((cli', s'), resp) →
  actionable resp ∧ map_Forall (λ _, actionable) cli'.
Proof.
  intros Hcli. destruct c as [fresh r secrets now]. unfold call, execute. simpl.
  assert (∀ fs, advises fs → actionable (failure r now fs)) as Hfail by (intros fs Hfs _; by left).
  destruct (authorize r) as [d|] eqn:Ha.
  { intros. simplify_eq. split; [|done]. apply Hfail. apply authorize_Some in Ha as []. by apply advises_head. }
  case_match; [intros; simplify_eq; split; [|done]; by apply Hfail, advises_head|].
  destruct (cq_idempotency_key r ≫= _) as [rep|] eqn:Hrep.
  { intros. simplify_eq. split; [|done]. destruct (cq_idempotency_key r) as [key|]; [|done].
    simpl in Hrep. apply Hcli in Hrep. exact Hrep. }
  destruct (is_nil _) eqn:Hnil; simpl;
    [|intros; simplify_eq; split; [by apply Hfail, targets_advise|done]].
  unfold perform. destruct (run_command _ _ _ _ _) as [[s1 arm]|] eqn:Hrun; simpl; [|done].
  apply run_command_advises in Hrun. destruct arm as [ok data fs|fs]; intros; simplify_eq;
    [|split; [by apply Hfail|done]].
  assert (∀ a, actionable (mkCliResponse (command_name (cq_command r)) ok false a (cq_environment r) fs
    data (cq_idempotency_key r) now)) as Hact.
  { intros a Hok. simpl in *. destruct (Hrun Hok) as [?|E]; [by left|right; by rewrite E]. }
  split; [apply Hact|]. destruct (cq_idempotency_key r); [|done]. by apply map_Forall_insert_2.
Qed.

(** Whatever was run before, a failed response names an error together with a
    recovery, except that of the health command, which may fail with a mere
    warning. *)
Theorem failures_are_actionable s0 st c st' resp :
  rtc cli_step (∅, s0) st → call c st = Done (st', resp) → cr_ok resp = false →
  (∃ f, f ∈ cr_findings resp ∧ fi_severity f = SevError ∧ is_some (fi_recovery f) = true) ∨
  cr_command resp = command_name CcHealth.
Proof.
  intros Hrun. assert (map_Forall (λ _, actionable) st.1) as Hinv.
  { remember (∅, s0) as st0 eqn:E. assert (map_Forall (λ _, actionable) st0.1) as Hst0 by by subst.
    clear E. induction Hrun as [|[cli1 s1] [cli2 s2] st3 (c' & resp' & Hc) _ IH]; [done|].
    apply IH. by eapply execute_actionable in Hc as [_ ?]. }
  destruct st as [cli s], st' as [cli' s']. intros Hc. by apply (execute_actionable _ _ _ _ _ _ Hinv) in Hc as [? _].
Qed.
End Effects.

Module SurfaceExamples.
Import RefInstances RefJson.
Definition app : ApplicationId := mkId (uuid 7).
Definition register_call : Call :=
  mkCall app (with_idempotency_key "k1" (CliRequest_new CcInit (CaHuman "ada"))) [] 5.
Definition deploy_call : Call :=
  mkCall app (with_idempotency_key "k2" (in_environment "production"
    (on_application app (CliRequest_new CcDeploy (CaHuman "ada"))))) [] 6.
Definition build_call : Call :=
  mkCall app (with_idempotency_key "k3" (on_application app (CliRequest_new CcBuild (CaHuman "ada")))) [] 7.
Definition start : gmap string CliResponse * PlatformState := (∅, PlatformState_new).
Definition run (c : Call) (st : gmap string CliResponse * PlatformState) :
    (gmap string CliResponse * PlatformState) * CliResponse :=
  done_or (st, failure (cl_request c) 0 []) (call c st).
Definition registered : gmap string CliResponse * PlatformState := (run register_call start).1.
Definition deployed : gmap string CliResponse * PlatformState := (run deploy_call registered).1.
Lemma runs c st : is_done (call c st) = true → call c st = Done (run c st).
Proof. apply is_done_eq. Qed.
Lemma register_runs : call register_call start = Done (run register_call start).
Proof. apply runs. vm_compute. reflexivity. Qed.
Lemma deploy_runs : call deploy_call registered = Done (run deploy_call registered).
Proof. apply runs. vm_compute. reflexivity. Qed.
Example deployment_recorded : deployments deployed.2 !! app = Some ["production:sha256:unspecified"].
Proof. vm_compute. reflexivity. Qed.
Example build_panics : is_done (call build_call registered) = false.
Proof. vm_compute. reflexivity. Qed.

Lemma effect_once_witness :
  (run register_call start).1.2 ≠ start.2 ∧
  ∃ answer, call register_call deployed = Done (deployed, answer) ∧
    answer = set_replayed (run register_call start).2.
Proof.
  assert ((run register_call start).1.2 ≠ start.2) as Hne.
  { intros E. apply (f_equal applications) in E. vm_compute in E. discriminate E. }
  assert (rtc cli_step registered deployed) as Hr.
  { apply rtc_once. exists deploy_call, (run deploy_call registered).2. rewrite deploy_runs.
    unfold deployed. by destruct (run deploy_call registered). }
  split; [exact Hne|].
  destruct (effect_once start register_call (run register_call start).2 (run register_call start).1
              deployed register_call) as (answer & E & Ha); [|exact Hne|exact Hr|reflexivity|].
  - rewrite register_runs. by destruct (run register_call start).
  - exists answer. split; [exact E|]. by apply Ha.
Defined.
Lemma cli_effects_are_authorized_witness :
  (run deploy_call registered).1.2 ≠ registered.2 ∧
  effect app [] 6 (cl_request deploy_call) registered.2 (run deploy_call registered).1.2.
Proof.
  assert ((run deploy_call registered).1.2 ≠ registered.2) as Hne.
  { intros E. apply (f_equal audit), (f_equal length) in E. vm_compute in E. discriminate E. }
  split; [exact Hne|]. pose proof deploy_runs as Hd.
  apply (cli_effects_are_authorized deploy_call registered.1 registered.2
    (run deploy_call registered).1.1 (run deploy_call registered).1.2 (run deploy_call registered).2);
    [|exact Hne]. rewrite <- !surjective_pairing. exact Hd.
Defined.
Definition bad_call : Call := mkCall app (CliRequest_new CcDeploy (CaAgent "s" "bot")) [] 9.
Lemma failures_are_actionable_witness :
  cr_ok (run bad_call registered).2 = false ∧
  ((∃ f, f ∈ cr_findings (run bad_call registered).2 ∧ fi_severity f = SevError ∧
      is_some (fi_recovery f) = true) ∨ cr_command (run bad_call registered).2 = "health").
Proof.
  assert (cr_ok (run bad_call registered).2 = false) as Hok by (vm_compute; reflexivity).
  assert (rtc cli_step start registered) as Hr.
  { apply rtc_once. exists register_call, (run register_call start).2. rewrite register_runs.
    unfold registered. by destruct (run register_call start). }
  assert (call bad_call registered = Done (run bad_call registered)) as Hb
    by (apply runs; vm_compute; reflexivity).
  split; [exact Hok|].
  apply (failures_are_actionable PlatformState_new registered bad_call (run bad_call registered).1 _ Hr);
    [|exact Hok]. rewrite <- surjective_pairing. exact Hb.
Defined.
End SurfaceExamples.
