(* ===== verification/Dashboard.v ===== *)
(** The dashboard (surfaces.rs, second part): what it shows of the platform state,
    and who may write through it. *)

From stdpp Require Import base option list strings pretty gmap.
From Stdlib Require Import ZArith Lia.
From S2P Require Import Prelude External Errors Ids Resource Approval.
From S2P Require Import Deployment Events AuditChain Verifier Json Plugin Surfaces.
Local Open Scope Z_scope.

(* ------------------------------------------------------------------ *)
(** * Sections and rows *)

Inductive DashboardSection :=
| DsApps | DsOverview | DsVibe | DsCodeChanges | DsPreview | DsCapabilities | DsResources
| DsRuntime | DsDeployments | DsLogs | DsSecrets | DsSettings.
#[global] Instance DashboardSection_eq_dec : EqDecision DashboardSection.
Proof. solve_decision. Defined.
Definition section_name (s : DashboardSection) : string :=
  match s with
  | DsApps => "apps" | DsOverview => "overview" | DsVibe => "vibe" | DsCodeChanges => "code_changes"
  | DsPreview => "preview" | DsCapabilities => "capabilities" | DsResources => "resources"
  | DsRuntime => "runtime" | DsDeployments => "deployments" | DsLogs => "logs"
  | DsSecrets => "secrets" | DsSettings => "settings"
  end.
Definition is_read_only (s : DashboardSection) : bool :=
  match s with DsSecrets | DsLogs | DsCodeChanges => true | _ => false end.
Definition requires_approval (s : DashboardSection) : bool :=
  match s with DsDeployments | DsCapabilities | DsResources | DsSettings => true | _ => false end.
(** Every section, in the derived order. *)
Definition DashboardSection_all : list DashboardSection :=
  [DsApps; DsOverview; DsVibe; DsCodeChanges; DsPreview; DsCapabilities; DsResources; DsRuntime;
   DsDeployments; DsLogs; DsSecrets; DsSettings].
Definition section_rank (s : DashboardSection) : nat :=
  match s with
  | DsApps => 0 | DsOverview => 1 | DsVibe => 2 | DsCodeChanges => 3 | DsPreview => 4
  | DsCapabilities => 5 | DsResources => 6 | DsRuntime => 7 | DsDeployments => 8 | DsLogs => 9
  | DsSecrets => 10 | DsSettings => 11
  end%nat.
#[global] Program Instance DashboardSection_countable : Countable DashboardSection := {
  encode s := Pos.of_succ_nat (section_rank s);
  decode p := DashboardSection_all !! pred (Pos.to_nat p);
}.
Next Obligation. by intros []. Qed.

Inductive Attribution :=
| AtAgent (session_id name : string)
| AtPlatform (name : string)
| AtHuman (name : string).
Definition attribution_label (a : Attribution) : string :=
  match a with AtAgent _ _ => "agent" | AtPlatform _ => "platform" | AtHuman _ => "human" end.
Record DashboardEntry := mkEntry {
  de_key : string;
  de_value : string;
  de_attribution : Attribution;
  de_state : option HealthState;
  de_evidence_source : option string;
}.
Record SecretRow := { sr_ref_id : string; sr_version_hint : string; sr_environment : string }.

(** [sections], iterated in the order of the sections. *)
Abbreviation Sections := (gmap DashboardSection (list DashboardEntry)).
Record DashboardView := mkView {
  dv_application_id : ApplicationId;
  dv_environment : string;
  dv_production_healthy : bool;
  dv_sections : Sections;
  dv_secrets : list SecretRow;
  dv_agent_completion_claim : option string;
  dv_at : DateTime;
}.
Definition entries (v : DashboardView) (s : DashboardSection) : list DashboardEntry :=
  default [] (dv_sections v !! s).
Definition is_production_healthy (v : DashboardView) : bool := dv_production_healthy v.
Definition shows_failure (e : DashboardEntry) : bool :=
  bool_decide (attribution_label (de_attribution e) = "platform")
  && bool_decide (de_state e ∈ [Some HFailed; Some HDegraded]).
Definition platform_failures (v : DashboardView) : list DashboardEntry :=
  List.filter shows_failure (DashboardSection_all ≫= entries v).
Definition attach_secret_rows (rows : list SecretRow) (v : DashboardView) : DashboardView :=
  mkView (dv_application_id v) (dv_environment v) (dv_production_healthy v) (dv_sections v) rows
    (dv_agent_completion_claim v) (dv_at v).

(* ------------------------------------------------------------------ *)
(** * Rendering *)

(** [sections.get_mut(&section).expect("section exists").push(entry)]. *)
Definition push_entry (sec : DashboardSection) (e : DashboardEntry)
    (m : Sections) :
    outcome Sections :=
  l ← expect "section exists" (m !! sec); Done (<[sec := l ++ [e]]> m).
(** The rows a loop pushes, in order. *)
Fixpoint push_all (rows : list (DashboardSection * DashboardEntry))
    (m : Sections) :
    outcome Sections :=
  match rows with
  | [] => Done m
  | (sec, e) :: rows => m' ← push_entry sec e m; push_all rows m'
  end.
Definition platform_row (key value name : string) (state : option HealthState) (source : string) :
    DashboardEntry := mkEntry key value (AtPlatform name) state (Some source).

Section Render.
Context `{UuidLib} `{StrDebug}.

Definition health_row (now : DateTime) (snapshot : option HealthSnapshot) : DashboardEntry :=
  mkEntry "health" (match snapshot with Some h => hs_target h | None => "no probe" end)
    (AtPlatform "health-probe") ((λ h, effective_state h now) <$> snapshot)
    ((λ _, "platform:health-probe") <$> snapshot).
Definition event_row (e : PlatformEvent) : DashboardSection * DashboardEntry :=
  let key := "e" +:+ pretty (pe_sequence e) in
  let value := PlatformEvent_to_event_detail e in
  match pe_actor e with
  | ActAgent session_id name =>
      (DsVibe, mkEntry key value (AtAgent (id_fmt session_id) name) None (Some "agent:session-stream"))
  | actor => (DsOverview, platform_row key value (kind_label actor) None "platform:event-log")
  end.
(** The last completion the agent claimed. *)
Definition completion_claim (claim : option string) (e : PlatformEvent) : option string :=
  match pe_actor e, pe_action e with
  | ActAgent _ _, EaVerificationFinished => Some (PlatformEvent_to_event_detail e)
  | _, _ => claim
  end.
Definition failed_deployment_rows (l : LogStore) : list (DashboardSection * DashboardEntry) :=
  map (λ e, (DsDeployments, platform_row ("log" +:+ pretty (le_sequence e)) (le_message e)
         "deployment-controller" (Some HFailed) "platform:deployment-log"))
    (List.filter (λ e, bool_decide (le_level e = LlError)) (for_source LsDeployment l)).
Definition named_rows (sec : DashboardSection) (controller source : string) (names : option (list string)) :
    list (DashboardSection * DashboardEntry) :=
  map (λ n, (sec, platform_row n n controller None source)) (default [] names).
Definition plugin_rows (r : PluginRegistry) : list (DashboardSection * DashboardEntry) :=
  map (λ p, (DsSettings, platform_row (pr_id p) (pr_detail p) "plugin-registry" (Some HFailed)
         "platform:plugin-handshake"))
    (List.filter (λ p, negb (bool_decide (pr_state p = PlActive))) (report r)).
Definition log_rows (l : LogStore) : list (DashboardSection * DashboardEntry) :=
  map (λ e, let source := LogSource_canonical_name (le_source e) in
         (DsLogs, platform_row (pretty (le_sequence e)) ("[" +:+ source +:+ "] " +:+ le_message e)
            source None ("platform:log-" +:+ source))) l.

Definition production_healthy (now : DateTime) (snapshot : option HealthSnapshot) : bool :=
  match snapshot with
  | Some h => negb (snapshot_is_stale h now) && bool_decide (effective_state h now = HHealthy)
  | None => false
  end.
Definition empty_sections : Sections :=
  list_to_map (map (λ s, (s, [])) DashboardSection_all).
Definition dashboard_rows (s : PlatformState) (a : ApplicationId) (now : DateTime) :
    list (DashboardSection * DashboardEntry) :=
  (DsOverview, health_row now (health s !! a))
  :: map event_row (for_application a (events s))
  ++ failed_deployment_rows (logs s)
  ++ named_rows DsCapabilities "capability-controller" "platform:binding" (capabilities s !! a)
  ++ named_rows DsResources "resource-controller" "platform:resource" (resources s !! a)
  ++ named_rows DsDeployments "deployment-controller" "platform:deployment" (deployments s !! a)
  ++ plugin_rows (plugins s) ++ log_rows (logs s).
Definition render_dashboard (s : PlatformState) (a : ApplicationId) (environment : string)
    (now : DateTime) : outcome (result CoreError DashboardView) :=
  if negb (knows s a) then Done (Err (NotFound (id_fmt a)))
  else
    sections ← push_all (dashboard_rows s a now) empty_sections;
    Done (Ok (mkView a environment (production_healthy now (health s !! a)) sections []
      (foldl completion_claim None (for_application a (events s))) now)).
End Render.

(** Who may write. *)
Definition authorize_dashboard_write (sec : DashboardSection) (actor : CliActor)
    (approval : option ExplicitApproval) : result CoreError unit :=
  if is_read_only sec then
    Err (PermissionDenied ("the '" +:+ section_name sec +:+ "' section is read-only"))
  else if is_agent actor then
    Err (PermissionDenied "agent sessions cannot write through the dashboard; use the platform API")
  else if requires_approval sec && negb (approval_granted approval) then
    Err (ApprovalRequired ("writing to '" +:+ section_name sec
           +:+ "' requires a granted, named human approval"))
  else Ok tt.

(* ------------------------------------------------------------------ *)
(** * What the dashboard shows *)

(** The rows of a section, in order. *)
Definition section_rows (sec : DashboardSection) (rows : list (DashboardSection * DashboardEntry)) :
    list DashboardEntry :=
  (List.filter (λ p, bool_decide (p.1 = sec)) rows).*2.
Lemma push_all_spec rows : ∀ m : Sections, (∀ sec, is_Some (m !! sec)) →
  ∃ m', push_all rows m = Done m' ∧
    ∀ sec, m' !! sec = Some (default [] (m !! sec) ++ section_rows sec rows).
Proof.
  induction rows as [|[sec e] rows IH]; intros m Hm; simpl.
  - exists m. split; [done|]. intros sec. destruct (Hm sec) as [l ->]. simpl. by rewrite app_nil_r.
  - unfold push_entry. destruct (Hm sec) as [l Hl]. rewrite Hl. simpl.
    destruct (IH (<[sec := l ++ [e]]> m)) as (m' & -> & Hs).
    { intros sec'. destruct (decide (sec' = sec)) as [->|Hne]; [rewrite lookup_insert_eq; eauto|].
      by rewrite lookup_insert_ne. }
    exists m'. split; [done|]. intros sec'. rewrite Hs. unfold section_rows. simpl.
    case_bool_decide as E.
    + subst. rewrite lookup_insert_eq, Hl. simpl. by rewrite <- app_assoc.
    + by rewrite lookup_insert_ne.
Qed.
Lemma empty_sections_all sec : empty_sections !! sec = Some [].
Proof. by destruct sec. Qed.
Lemma shown_somewhere sec : sec ∈ DashboardSection_all.
Proof. by destruct sec; repeat constructor. Qed.

Section Facts.
Context `{UuidLib} `{StrDebug}.

Lemma render_entries s a environment now : a ∈ applications s →
  ∃ v, render_dashboard s a environment now = Done (Ok v) ∧
    dv_production_healthy v = production_healthy now (health s !! a) ∧
    ∀ sec, entries v sec = section_rows sec (dashboard_rows s a now).
Proof.
  intros Ha. unfold render_dashboard, knows. rewrite bool_decide_eq_true_2 by done. cbn [negb].
  destruct (push_all_spec (dashboard_rows s a now) empty_sections) as (m & -> & Hm).
  { intros sec. rewrite empty_sections_all. eauto. }
  eexists. split; [done|]. split; [done|]. intros sec. unfold entries. simpl.
  by rewrite Hm, empty_sections_all.
Qed.

Definition agent_row (p : DashboardSection * DashboardEntry) : bool :=
  bool_decide (attribution_label (de_attribution p.2) = "agent").
Definition by_agent (e : PlatformEvent) : bool :=
  match pe_actor e with ActAgent _ _ => true | _ => false end.
Lemma event_row_agent e : agent_row (event_row e) = by_agent e ∧
  (event_row e).1 = (if by_agent e then DsVibe else DsOverview) ∧ de_state (event_row e).2 = None.
Proof. unfold event_row, by_agent. by destruct (pe_actor e). Qed.
(** Rows other than those of events are the platform's, outside the agent's section. *)
Lemma other_rows s a now p :
  p ∈ dashboard_rows s a now → (∃ e, e ∈ for_application a (events s) ∧ p = event_row e) ∨
  agent_row p = false ∧ p.1 ≠ DsVibe.
Proof.
  unfold dashboard_rows, failed_deployment_rows, named_rows, plugin_rows, log_rows.
  rewrite elem_of_cons, !elem_of_app.
  intros [->|[Hp|Hp]]; [by right|apply list_elem_of_fmap in Hp as (e & -> & He); eauto|].
  right. destruct_or! Hp; apply list_elem_of_fmap in Hp as (x & -> & _); done.
Qed.
Lemma section_rows_elem sec rows e : e ∈ section_rows sec rows ↔ (sec, e) ∈ rows.
Proof.
  unfold section_rows. rewrite list_elem_of_fmap. split.
  - intros ([sec' e'] & -> & [Hin Hd%bool_decide_eq_true]%elem_of_lfilter). simpl in *. by subst.
  - intros Hin. exists (sec, e). split; [done|]. apply elem_of_lfilter. by rewrite bool_decide_eq_true_2.
Qed.
(** Without its agent events the dashboard has the same rows outside that section. *)
Lemma platform_rows s s' a now sec :
  health s' = health s → capabilities s' = capabilities s → resources s' = resources s →
  deployments s' = deployments s → logs s' = logs s → plugins s' = plugins s →
  List.filter (negb ∘ by_agent) (for_application a (events s')) =
    List.filter (negb ∘ by_agent) (for_application a (events s)) →
  sec ≠ DsVibe → section_rows sec (dashboard_rows s' a now) = section_rows sec (dashboard_rows s a now).
Proof.
  intros Hh Hc Hr Hd Hl Hp He Hsec.
  assert (∀ l, section_rows sec (map event_row l) = section_rows sec (map event_row (List.filter (negb ∘ by_agent) l))) as Hev.
  { clear -Hsec. intros l. induction l as [|e l IH]; [done|]. unfold section_rows in *. simpl.
    destruct (event_row_agent e) as (_ & E1 & _). unfold compose in *.
    destruct (by_agent e) eqn:Ea; simpl; rewrite E1.
    - rewrite bool_decide_eq_false_2 by done. exact IH.
    - case_bool_decide; simpl; [f_equal|]; exact IH. }
  assert (∀ l1 l2, section_rows sec (l1 ++ l2) = section_rows sec l1 ++ section_rows sec l2) as Happ.
  { intros. unfold section_rows. by rewrite List.filter_app, fmap_app. }
  unfold dashboard_rows. rewrite Hh, Hc, Hr, Hd, Hl, Hp.
  assert (∀ x l, section_rows sec (x :: l) = section_rows sec [x] ++ section_rows sec l) as Hcons.
  { intros x l. apply (Happ [x] l). }
  rewrite !(Hcons _ (map event_row _ ++ _)), !(Happ (map event_row _)).
  by rewrite (Hev (for_application a (events s'))), (Hev (for_application a (events s))), He.
Qed.

(** Two states that differ, for application [a], in agent events only. *)
Record same_platform (a : ApplicationId) (s s' : PlatformState) : Prop := {
  sp_health : health s' = health s;
  sp_capabilities : capabilities s' = capabilities s;
  sp_resources : resources s' = resources s;
  sp_deployments : deployments s' = deployments s;
  sp_logs : logs s' = logs s;
  sp_plugins : plugins s' = plugins s;
  sp_events : List.filter (negb ∘ by_agent) (for_application a (events s')) =
    List.filter (negb ∘ by_agent) (for_application a (events s));
}.
Lemma vibe_rows s a now e : e ∈ section_rows DsVibe (dashboard_rows s a now) →
  attribution_label (de_attribution e) = "agent" ∧ de_state e = None.
Proof.
  intros [(x & _ & Hx)|[_ Hne]]%section_rows_elem%other_rows; [|done].
  destruct (event_row_agent x) as (E1 & E2 & E3). rewrite <- Hx in *. simpl in *.
  destruct (by_agent x); [|done]. by apply bool_decide_eq_true in E1.
Qed.
Lemma failures_bind v : platform_failures v = DashboardSection_all ≫= λ sec, List.filter shows_failure (entries v sec).
Proof.
  unfold platform_failures. induction DashboardSection_all as [|sec l IH]; [done|].
  rewrite !bind_cons, List.filter_app. by f_equal.
Qed.
Lemma vibe_no_failure s a now :
  List.filter shows_failure (section_rows DsVibe (dashboard_rows s a now)) = [].
Proof.
  apply elem_of_nil_inv. intros e [He Hf]%elem_of_lfilter. apply vibe_rows in He as [Hl _].
  unfold shows_failure in Hf. rewrite Hl in Hf. done.
Qed.

(** What agents report never changes what the dashboard says of the platform: with
    any other agent events in the log, rendering succeeds with the same
    production health, the same failures and the same rows in every section but
    the agent's own. *)
Theorem agents_never_move_health s s' a environment now :
  a ∈ applications s → a ∈ applications s' → same_platform a s s' →
  ∃ v v', render_dashboard s a environment now = Done (Ok v) ∧
    render_dashboard s' a environment now = Done (Ok v') ∧
    is_production_healthy v' = is_production_healthy v ∧ platform_failures v' = platform_failures v ∧
    ∀ sec, sec ≠ DsVibe → entries v' sec = entries v sec.
Proof.
  intros Ha Ha' [Hh Hc Hr Hd Hl Hp He].
  destruct (render_entries s a environment now Ha) as (v & Hv & Hpv & Hev).
  destruct (render_entries s' a environment now Ha') as (v' & Hv' & Hpv' & Hev').
  assert (∀ sec, sec ≠ DsVibe → entries v' sec = entries v sec) as Hsame.
  { intros sec Hsec. rewrite Hev, Hev'. by apply platform_rows. }
  exists v, v'. split_and!; [done..| | |done].
  - unfold is_production_healthy. by rewrite Hpv, Hpv', Hh.
  - rewrite !failures_bind. apply list_bind_ext; [|done]. intros sec.
    destruct (decide (sec = DsVibe)) as [->|Hne]; [|by rewrite Hsame].
    by rewrite Hev, Hev', !vibe_no_failure.
Qed.

(** The dashboard of a registered application renders; its rows by agents are those
    of the agent's section and carry no health; it calls production healthy
    exactly when the last probe is fresh and healthy; and every deployment error
    in the log shows as a platform failure. *)
Theorem dashboard_shows_evidence s a environment now :
  a ∈ applications s →
  ∃ v, render_dashboard s a environment now = Done (Ok v) ∧
    (∀ sec e, e ∈ entries v sec →
       (attribution_label (de_attribution e) = "agent" ↔ sec = DsVibe) ∧
       (sec = DsVibe → de_state e = None)) ∧
    (is_production_healthy v = true ↔
       ∃ h, health s !! a = Some h ∧ hs_state h = HHealthy ∧ now - hs_observed_at h ≤ hs_ttl h) ∧
    ∀ l, l ∈ logs s → le_source l = LsDeployment → le_level l = LlError →
      ∃ e, e ∈ platform_failures v ∧ de_value e = le_message l.
Proof.
  intros Ha. destruct (render_entries s a environment now Ha) as (v & Hv & Hp & He).
  exists v. split_and!; [done|..].
  - intros sec e Hin. rewrite He in Hin. split.
    + split; [|intros ->; by apply vibe_rows in Hin as [? _]]. intros Hag.
      apply section_rows_elem, other_rows in Hin as [(x & _ & Hx)|[Hn _]].
      * destruct (event_row_agent x) as (E1 & E2 & _). rewrite <- Hx in *. simpl in *.
        unfold agent_row in E1. simpl in E1. rewrite bool_decide_eq_true_2 in E1 by done. by rewrite <- E1 in E2.
      * unfold agent_row in Hn. simpl in Hn. by apply bool_decide_eq_false in Hn.
    + intros ->. by apply vibe_rows in Hin as [_ ?].
  - unfold is_production_healthy. rewrite Hp. unfold production_healthy.
    destruct (health s !! a) as [h|]; [|naive_solver].
    unfold effective_state, snapshot_is_stale, datetime_sub. split.
    + case_bool_decide; simpl; [done|]. intros ?%bool_decide_eq_true. exists h. split_and!; [done..|lia].
    + intros (h' & [= <-] & Hs & Ht). rewrite bool_decide_eq_false_2 by lia. simpl. by rewrite Hs.
  - intros l Hl Hs Hlv.
    set (e := platform_row ("log" +:+ pretty (le_sequence l)) (le_message l) "deployment-controller"
                (Some HFailed) "platform:deployment-log").
    exists e. split; [|done]. apply elem_of_lfilter. split; [|done]. apply list_elem_of_bind.
    exists DsDeployments. split; [|apply shown_somewhere]. rewrite He. apply section_rows_elem.
    unfold dashboard_rows. rewrite elem_of_cons, !elem_of_app. right. right. left.
    unfold failed_deployment_rows. apply list_elem_of_fmap. exists l. split; [done|].
    unfold for_source. rewrite !elem_of_lfilter, !bool_decide_eq_true. done.
Qed.
End Facts.

(** A dashboard write is allowed exactly to a human or platform actor in a writable
    section, with a granted, named approval where the section needs one. *)
Theorem dashboard_write_gate sec actor approval :
  authorize_dashboard_write sec actor approval = Ok tt ↔
  is_read_only sec = false ∧ is_agent actor = false ∧
  (requires_approval sec = true → ∃ a, approval = Some a ∧ approval_ok a).
Proof.
  unfold authorize_dashboard_write. rewrite <- approval_granted_spec.
  destruct (is_read_only sec), (is_agent actor), (requires_approval sec), (approval_granted approval);
    simpl; naive_solver.
Qed.

Module DashboardExamples.
Import RefInstances.
Definition app : ApplicationId := mkId (uuid 7).
(** A registered application whose probe failed, without and with an agent's claim. *)
Definition claim : PlatformEvent :=
  {| pe_sequence := 1; pe_at := 3; pe_actor := ActAgent (mkId (uuid 1)) "bot";
     pe_correlation := with_application app (Correlation_new "t");
     pe_action := EaVerificationFinished; pe_resource := None; pe_before := None; pe_after := None;
     pe_result := ErSucceeded |}.
Definition failing (l : EventLog) : PlatformState :=
  mkState [app] ∅ ∅ ∅ ∅ {[ app := HealthSnapshot_new "web" HFailed 4 60 ]} [] l [] ∅ None.
Example claim_shown :
  (λ v, match v with Done (Ok v) => (is_production_healthy v, dv_agent_completion_claim v) | _ => (true, None) end)
    (render_dashboard (failing [claim]) app "production" 5)
  = (false, Some "e1 agent verification_finished via t Succeeded").
Proof. vm_compute. reflexivity. Qed.
Lemma agents_never_move_health_witness :
  same_platform app (failing []) (failing [claim]) ∧
  ∃ v v', render_dashboard (failing []) app "production" 5 = Done (Ok v) ∧
    render_dashboard (failing [claim]) app "production" 5 = Done (Ok v') ∧
    platform_failures v' = platform_failures v.
Proof.
  assert (same_platform app (failing []) (failing [claim])) as Hs by (split; [reflexivity..|vm_compute; reflexivity]).
  split; [exact Hs|].
  destruct (agents_never_move_health (failing []) (failing [claim]) app "production" 5) as
    (v & v' & E & E' & _ & Hf & _); [by constructor|by constructor|exact Hs|]. by exists v, v'.
Defined.
Lemma dashboard_shows_evidence_witness :
  app ∈ applications (failing [claim]) ∧
  ∃ v, render_dashboard (failing [claim]) app "production" 5 = Done (Ok v) ∧
    ∀ e, e ∈ entries v DsVibe → de_state e = None.
Proof.
  assert (app ∈ applications (failing [claim])) as Ha by constructor.
  split; [exact Ha|].
  destruct (dashboard_shows_evidence (failing [claim]) app "production" 5 Ha) as (v & E & He & _).
  exists v. split; [exact E|]. intros e Hin. by apply (He DsVibe e Hin).
Defined.
End DashboardExamples.
