(* ===== verification/CpErrors.v ===== *)
(** The error type of the control plane (error.rs of labrys-control-plane), its
    persistence guard (redact.rs) and the interface of the database driver. *)

From stdpp Require Import base list strings.
From Stdlib Require Import ZArith Lia.
From S2P Require Import Prelude External Errors Resource.
Local Open Scope Z_scope.

(** The payloads of driver, serde and I/O errors are their messages. *)
Inductive ControlPlaneError :=
| CpDatabase (m : string)
| CpMigration (m : string)
| CpSerialization (m : string)
| CpMapping (m : string)
| CpJobState (m : string)
| CpCore (e : CoreError)
| CpConfig (m : string)
| CpNotFound (m : string)
| CpConflict (m : string)
| CpEnvironmentIsolation (m : string)
| CpSecretLeak (field : string)
| CpExecution (m : string)
| CpProvider (m : string)
| CpRegistry (m : string)
| CpDomain (m : string)
| CpUnavailable (m : string)
| CpIo (m : string)
| CpShutdown (m : string).

Definition ControlPlaneError_fmt (e : ControlPlaneError) : string :=
  match e with
  | CpDatabase m => "database error: " +:+ m
  | CpMigration m => "migration error: " +:+ m
  | CpSerialization m => "serialization error: " +:+ m
  | CpMapping m => "mapping error: " +:+ m
  | CpJobState m => "job state violation: " +:+ m
  | CpCore e => "domain error: " +:+ CoreError_fmt e
  | CpConfig m => "configuration error: " +:+ m
  | CpNotFound m => "not found: " +:+ m
  | CpConflict m => "generation conflict: " +:+ m
  | CpEnvironmentIsolation m => "environment isolation violation: " +:+ m
  | CpSecretLeak field => "secret value rejected before persistence in field '" +:+ field +:+ "'"
  | CpExecution m => "container execution error: " +:+ m
  | CpProvider m => "provider error: " +:+ m
  | CpRegistry m => "registry error: " +:+ m
  | CpDomain m => "domain delivery error: " +:+ m
  | CpUnavailable m => "runtime unavailable: " +:+ m
  | CpIo m => "io error: " +:+ m
  | CpShutdown m => "worker is shutting down: " +:+ m
  end.

(* ------------------------------------------------------------------ *)
(** * The persistence guard *)

Definition redact (text : string) (secrets : list string) : string := redact_reason text secrets.
Definition redact_opt (text : option string) (secrets : list string) : option string :=
  (λ t, redact_reason t secrets) <$> text.
Definition ensure_no_secret (field text : string) (secrets : list string) :
    result ControlPlaneError unit :=
  if existsb (λ s, str_contains s text) (List.filter (λ s, negb (str_is_empty s)) secrets)
  then Err (CpSecretLeak field) else Ok tt.
Definition redact_guard (field text : string) (secrets : list string) :
    result ControlPlaneError string :=
  let redacted := redact text secrets in
  _ ← ensure_no_secret field redacted secrets;
  Ok redacted.

#[global] Arguments redact_guard : simpl never.

(** A text that passes the guard contains no known secret at all; and the guard
    lets every text pass whose secrets are apart from the marker. *)
Lemma redact_guard_clean field text secrets t s :
  redact_guard field text secrets = Ok t → s ∈ secrets → s ≠ "" → str_contains s t = false.
Proof.
  unfold redact_guard, ensure_no_secret. unfold_monad.
  destruct (existsb _ _) eqn:E; [done|]. intros [= <-] Hs Hne.
  rewrite existsb_false in E. apply E. apply elem_of_lfilter. split; [done|]. by destruct s.
Qed.
Lemma redact_guard_passes field text secrets :
  (∀ s, s ∈ secrets → s ≠ "" → apart s redacted_marker) →
  redact_guard field text secrets = Ok (redact text secrets).
Proof.
  intros Hd. unfold redact_guard, ensure_no_secret. unfold_monad.
  destruct (existsb _ _) eqn:E; [|done].
  apply existsb_exists in E as (s & Hs%list_elem_of_In & Hc).
  apply elem_of_lfilter in Hs as [Hs Hne]. unfold redact in Hc.
  rewrite redact_hides in Hc; [done|done|apply Hd; [done|by destruct s]].
Qed.

(* ------------------------------------------------------------------ *)
(** * The database driver *)

(** A [timestamptz] column stores microseconds: the driver reduces an instant to
    that precision when it is bound. *)
Class PgTime := { pg_time : DateTime → DateTime }.
Class PgTimeLaws `{PgTime} : Prop := {
  pg_time_mono t t' : t ≤ t' → pg_time t ≤ pg_time t';
  pg_time_idem t : pg_time (pg_time t) = pg_time t;
}.
Definition i32_max : Z := 2147483647.

(** ** Integer columns *)

(** [as] between integers of one width keeps the bits. *)
Definition u64_as_i64 (z : Z) : Z := if decide (z ≤ i64_max) then z else z - (u64_max + 1).
Definition i64_as_u64 (z : Z) : Z := z mod (u64_max + 1).
Definition u32_as_i32 (z : Z) : Z := if decide (z ≤ i32_max) then z else z - (u32_max + 1).
Definition i32_as_u32 (z : Z) : Z := z mod (u32_max + 1).

Lemma as_i64_u64 z : 0 ≤ z ≤ u64_max → i64_as_u64 (u64_as_i64 z) = z.
Proof.
  intros Hz. unfold i64_as_u64, u64_as_i64. case_decide; [apply Z.mod_small; lia|].
  rewrite <- (Z.mod_add _ 1) by (unfold u64_max; lia).
  replace (_ - _ + _) with z by lia. apply Z.mod_small. lia.
Qed.
Lemma as_i32_u32 z : 0 ≤ z ≤ u32_max → i32_as_u32 (u32_as_i32 z) = z.
Proof.
  intros Hz. unfold i32_as_u32, u32_as_i32. case_decide; [apply Z.mod_small; lia|].
  rewrite <- (Z.mod_add _ 1) by (unfold u32_max; lia).
  replace (_ - _ + _) with z by lia. apply Z.mod_small. lia.
Qed.

(** ** JSON columns *)

(** The derived [Serialize] and [Deserialize] of a stored type. *)
Class Serde `{JsonLib} (T : Type) := {
  serialize : T → result string Json;
  deserialize : Json → result string T;
}.
Class SerdeLaws `{JsonLib} (T : Type) `{!Serde T} : Prop := {
  serde_round_trip (x : T) v : serialize x = Ok v → deserialize v = Ok x;
}.

(** [serde_json::to_value] of a plain structure never fails. *)
Class SerdeTotal `{JsonLib} (T : Type) `{!Serde T} : Prop := {
  serde_total (x : T) : ∃ v, serialize x = Ok v;
}.

Section Mapping.
Context `{JsonLib} {T : Type} `{!Serde T}.

Definition to_value (value : T) : result ControlPlaneError Json :=
  match serialize value with Ok v => Ok v | Err m => Err (CpSerialization m) end.
Definition to_value_opt (value : option T) : result ControlPlaneError (option Json) :=
  match value with
  | Some x => v ← to_value x; Ok (Some v)
  | None => Ok None
  end.
Definition from_value (value : Json) : result ControlPlaneError T :=
  match deserialize value with Ok x => Ok x | Err m => Err (CpSerialization m) end.
Definition json_get_opt (value : option Json) : result ControlPlaneError (option T) :=
  match value with
  | Some v => x ← from_value v; Ok (Some x)
  | None => Ok None
  end.

Lemma to_from_value `{!SerdeLaws T} x v : to_value x = Ok v → from_value v = Ok x.
Proof.
  unfold to_value, from_value. destruct (serialize x) eqn:E; intros; simplify_eq.
  by rewrite (serde_round_trip x).
Qed.
Lemma to_from_value_opt `{!SerdeLaws T} x v : to_value_opt x = Ok v → json_get_opt v = Ok x.
Proof.
  unfold to_value_opt, json_get_opt. unfold_monad. destruct x as [x|]; [|by intros [= <-]].
  destruct (to_value x) eqn:E; intros; simplify_eq. by rewrite (to_from_value x).
Qed.
End Mapping.
#[global] Arguments to_value : simpl never.
#[global] Arguments from_value : simpl never.
#[global] Arguments to_value_opt : simpl never.
#[global] Arguments json_get_opt : simpl never.

Module RefPg.
#[global] Instance ref_pg_time : PgTime := { pg_time t := t / 1000 * 1000 }.
#[global] Instance ref_pg_time_laws : PgTimeLaws.
Proof.
  constructor; simpl.
  - intros t t' Hle. apply Z.mul_le_mono_nonneg_r; [lia|]. apply Z.div_le_mono; lia.
  - intros t. by rewrite Z.div_mul by lia.
Qed.
End RefPg.
