(* ===== verification/Auth.v ===== *)
(** Authentication of the control-plane API (auth.rs): scoped tokens and their
    rotation, the bind policy of the server and the rate limiter in front of it. *)

From stdpp Require Import base option list strings pretty gmap.
From Stdlib Require Import ZArith Lia Ascii.
From S2P Require Import Prelude External Snapshot Surfaces CpErrors.
Local Open Scope Z_scope.

(* ------------------------------------------------------------------ *)
(** * Tokens *)

Definition MIN_TOKEN_LEN : Z := 16.
Definition DEFAULT_RATE_LIMIT_PER_MINUTE : Z := 120.
Definition TOKEN_LINE_HELP : string :=
  "one '<id>:<scope>:<expiry>:<secret>' line per entry (scope agent|human, expiry RFC3339|never, no ':' in id or secret)".

Inductive TokenScope := TsHuman | TsAgent.
#[global] Instance TokenScope_eq_dec : EqDecision TokenScope.
Proof. solve_decision. Defined.
Definition TokenScope_parse (raw : string) : option TokenScope :=
  if decide (trim raw = "human") then Some TsHuman
  else if decide (trim raw = "agent") then Some TsAgent
  else None.
Definition scope_allows (self : TokenScope) (actor : CliActor) : bool :=
  match self, actor with TsHuman, CaHuman _ | TsAgent, CaAgent _ _ => true | _, _ => false end.

Record TokenRecord := mkToken {
  tk_id : string;
  tk_identity : string;
  tk_scope : TokenScope;
  tk_expires_at : option DateTime;
  tk_revoked : bool;
  tk_secret : string;
}.
Definition TokenRecord_new (id identity : string) (scope : TokenScope) (expires_at : option DateTime)
    (secret : string) : result ControlPlaneError TokenRecord :=
  if trim_is_empty id then Err (CpConfig "API token id must not be empty")
  else if decide (Z.of_nat (String.length secret) < MIN_TOKEN_LEN) then
    Err (CpConfig ("API token '" +:+ id +:+ "' must be at least " +:+ pretty MIN_TOKEN_LEN
                   +:+ " characters"))
  else Ok (mkToken id identity scope expires_at false secret).

Inductive AuthDenyReason := AdUnknown | AdExpired | AdRevoked.
Record AuthenticatedToken := { at_id : string; at_identity : string; at_scope : TokenScope }.
Record AuthDenial := { ad_reason : AuthDenyReason; ad_known_id : option string }.

(** The lock around the tokens is held only by code that cannot panic, so it is
    never poisoned; each call is one step on the store. *)
Record TokenStore := mkTokenStore { ts_tokens : list TokenRecord; ts_bootstrap : bool }.

(** [s.split_once(c)]: before and after the first [c]. *)
Fixpoint split_once (c : ascii) (s : string) : option (string * string) :=
  match s with
  | "" => None
  | String a s' =>
      if decide (a = c) then Some ("", s')
      else match split_once c s' with Some (x, y) => Some (String a x, y) | None => None end
  end.

(** [str::parse::<DateTime<Utc>>] of chrono. *)
Class ChronoParse := { parse_datetime : string → option DateTime }.

Section Tokens.
Context `{Crypto} `{ChronoParse}.

Definition digest_secret (secret : string) : string := sha256 secret.
Definition token_digest (self : TokenRecord) : string := digest_secret (tk_secret self).
Definition hex_prefix (bytes : string) (len : nat) : string :=
  str_join "" (map (λ b, hex_fixed 2 (Z.of_N (byte_of b))) (take len (chars bytes))).
Definition token_fingerprint (presented : string) : string :=
  "sha256:" +:+ hex_prefix (digest_secret presented) 8.

Definition parse_expiry (raw : string) : result string (option DateTime) :=
  if decide (trim raw = "never") then Ok None
  else match parse_datetime (trim raw) with
       | Some t => Ok (Some t)
       | None => Err ("expiry must be RFC3339 or 'never'; got '" +:+ trim raw
                      +:+ "' (note: secrets must not contain ':')")
       end.
Definition parse_token_line (line : string) : result string TokenRecord :=
  match split_once ":" line with
  | None => Err ("expected " +:+ TOKEN_LINE_HELP)
  | Some (id, tail) =>
      match split_once ":" tail with
      | None => Err ("expected " +:+ TOKEN_LINE_HELP)
      | Some (scope, rest) =>
          match rsplit_once ":" rest with
          | None => Err ("expected " +:+ TOKEN_LINE_HELP)
          | Some (expiry, secret) =>
              match TokenScope_parse scope with
              | None => Err ("scope must be 'agent' or 'human'; expected " +:+ TOKEN_LINE_HELP)
              | Some scope =>
                  expires_at ← parse_expiry expiry;
                  if str_is_empty secret then
                    Err ("secret must not be empty; expected " +:+ TOKEN_LINE_HELP)
                  else
                    match TokenRecord_new (trim id) (trim id) scope expires_at secret with
                    | Ok r => Ok r
                    | Err e => Err (ControlPlaneError_fmt e)
                    end
              end
          end
      end
  end.

(** The lines of a token file, numbered from 1; blank and comment lines count. *)
Fixpoint parse_lines (index : Z) (lines : list string) : result ControlPlaneError (list TokenRecord) :=
  match lines with
  | [] => Ok []
  | line :: rest =>
      let line := trim line in
      if str_is_empty line || starts_with "#" line then parse_lines (index + 1) rest
      else
        match parse_token_line line with
        | Err e => Err (CpConfig ("token entry " +:+ pretty (index + 1) +:+ ": " +:+ e))
        | Ok r => records ← parse_lines (index + 1) rest; Ok (r :: records)
        end
  end.
(** The first identifier that occurred before. *)
Fixpoint first_duplicate (seen : list string) (records : list TokenRecord) : option string :=
  match records with
  | [] => None
  | r :: rest =>
      if decide (tk_id r ∈ seen) then Some (tk_id r) else first_duplicate (tk_id r :: seen) rest
  end.
Definition TokenStore_from_lines (raw : string) : result ControlPlaneError TokenStore :=
  records ← parse_lines 0 (str_lines raw);
  if is_nil records then
    Err (CpConfig "no API tokens configured; provide LABRYS_API_TOKENS(_FILE) or LABRYS_API_TOKEN")
  else
    match first_duplicate [] records with
    | Some id => Err (CpConfig ("duplicate API token id '" +:+ id +:+ "'"))
    | None => Ok (mkTokenStore records false)
    end.
Definition TokenStore_bootstrap (secret : string) : result ControlPlaneError TokenStore :=
  record ← TokenRecord_new "bootstrap" "bootstrap-operator" TsHuman None secret;
  Ok (mkTokenStore [record] true).
(** [lookup] is the process configuration and [read_file] reads a file, or fails
    with the text of its error. *)
Definition TokenStore_from_lookup (read_file : string → result string string)
    (lookup : string → option string) : result ControlPlaneError TokenStore :=
  match lookup "LABRYS_API_TOKENS_FILE" with
  | Some path =>
      match read_file (trim path) with
      | Err e => Err (CpConfig ("cannot read LABRYS_API_TOKENS_FILE: " +:+ e
                                +:+ "; check the path and permissions, then retry"))
      | Ok raw => TokenStore_from_lines raw
      end
  | None =>
      match lookup "LABRYS_API_TOKENS" with
      | Some raw => TokenStore_from_lines raw
      | None =>
          let secret := default "" (lookup "LABRYS_API_TOKEN") in
          if trim_is_empty secret then Err (CpConfig "API token is required (LABRYS_API_TOKEN)")
          else TokenStore_bootstrap secret
      end
  end.

Definition reload (read_file : string → result string string) (lookup : string → option string) :
    M TokenStore ControlPlaneError nat := λ self,
  match TokenStore_from_lookup read_file lookup with
  | Err e => Done (self, Err e)
  | Ok fresh =>
      Done (mkTokenStore (ts_tokens fresh) (ts_bootstrap self), Ok (length (ts_tokens fresh)))
  end.
Definition set_revoked (r : TokenRecord) : TokenRecord :=
  mkToken (tk_id r) (tk_identity r) (tk_scope r) (tk_expires_at r) true (tk_secret r).
Definition revoke_hits (id : string) (r : TokenRecord) : bool :=
  bool_decide (tk_id r = id) && negb (tk_revoked r).
Definition revoke (id : string) (self : TokenStore) : TokenStore * bool :=
  (mkTokenStore (map (λ r, if revoke_hits id r then set_revoked r else r) (ts_tokens self))
     (ts_bootstrap self),
   existsb (revoke_hits id) (ts_tokens self)).
Definition authenticate (presented : string) (now : DateTime) (self : TokenStore) :
    result AuthDenial AuthenticatedToken :=
  match List.find (λ r, bool_decide (token_digest r = digest_secret presented)) (ts_tokens self) with
  | None => Err {| ad_reason := AdUnknown; ad_known_id := None |}
  | Some r =>
      if tk_revoked r then Err {| ad_reason := AdRevoked; ad_known_id := Some (tk_id r) |}
      else if match tk_expires_at r with Some e => bool_decide (e ≤ now) | None => false end then
        Err {| ad_reason := AdExpired; ad_known_id := Some (tk_id r) |}
      else Ok {| at_id := tk_id r; at_identity := tk_identity r; at_scope := tk_scope r |}
  end.
Definition TokenStore_len (self : TokenStore) : nat := length (ts_tokens self).
Definition TokenStore_is_empty (self : TokenStore) : bool := (TokenStore_len self =? 0)%nat.
Definition bootstrap_warning (self : TokenStore) : option string :=
  if ts_bootstrap self then
    Some "API auth uses the single-token LABRYS_API_TOKEN bootstrap; configure LABRYS_API_TOKENS(_FILE) with scoped tokens and rotate without restart"
  else None.
Definition token_ids (self : TokenStore) : list string := map tk_id (ts_tokens self).
End Tokens.

(* ------------------------------------------------------------------ *)
(** * The bind policy *)

Inductive IpAddr := IpV4 (bits : Z) | IpV6 (bits : Z).
#[global] Instance IpAddr_eq_dec : EqDecision IpAddr.
Proof. solve_decision. Defined.
#[global] Instance IpAddr_countable : Countable IpAddr.
Proof.
  apply (inj_countable' (λ a, match a with IpV4 b => inl b | IpV6 b => inr b end)
           (λ x : Z + Z, match x with inl b => IpV4 b | inr b => IpV6 b end)). by intros [].
Defined.
(** 127.0.0.0/8 and ::1. *)
Definition is_loopback (a : IpAddr) : bool :=
  match a with IpV4 b => bool_decide (b / 2 ^ 24 = 127) | IpV6 b => bool_decide (b = 1) end.
Record TlsConfig := { cert_file : string; key_file : string }.
Inductive BindPolicy := PlainLoopback | BpTls | PlainDisposable.
(** [is_file] looks at the file system and [shown] is the printed address. *)
Definition bind_policy (is_file : string → bool) (ip : IpAddr) (shown : string)
    (tls : option TlsConfig) (allow_plain_http : bool) : result ControlPlaneError BindPolicy :=
  match tls with
  | Some tls =>
      if negb (is_file (cert_file tls)) then
        Err (CpConfig ("TLS cert file '" +:+ cert_file tls
                       +:+ "' is missing; check LABRYS_TLS_CERT_FILE, then retry"))
      else if negb (is_file (key_file tls)) then
        Err (CpConfig ("TLS key file '" +:+ key_file tls
                       +:+ "' is missing; check LABRYS_TLS_KEY_FILE, then retry"))
      else Ok BpTls
  | None =>
      if is_loopback ip then Ok PlainLoopback
      else if allow_plain_http then Ok PlainDisposable
      else Err (CpConfig ("refusing plain HTTP on non-loopback " +:+ shown
             +:+ "; set LABRYS_TLS_CERT_FILE/LABRYS_TLS_KEY_FILE or LABRYS_ALLOW_PLAIN_HTTP=1 for disposable environments"))
  end.

(* ------------------------------------------------------------------ *)
(** * The rate limiter *)

(** Instants of the monotonic clock, in nanoseconds; [duration_since] is zero for
    an instant in the future. *)
Abbreviation Instant := Z (only parsing).
Definition duration_since (now started : Instant) : Z := Z.max 0 (now - started).
Definition WINDOW : Z := 60 * nanos_per_sec.
Definition PRUNE_AT : nat := Z.to_nat 4096.
Record RateLimiter := mkLimiter {
  limit_per_minute : Z;
  window : gmap IpAddr (Instant * Z);
}.
Definition RateLimiter_new (limit : Z) : RateLimiter := mkLimiter (Z.max limit 1) ∅.

Section Limiter.
Context `{BuildProfile}.
(** [elapsed_at] gives the clock when [elapsed] is called on the entry of an
    address, and [now] the reading after the pruning. *)
Definition prune_window (elapsed_at : IpAddr → Instant) (w : gmap IpAddr (Instant * Z)) :
    gmap IpAddr (Instant * Z) :=
  if decide (PRUNE_AT < size w)%nat
  then filter (λ p, duration_since (elapsed_at p.1) p.2.1 < WINDOW) w
  else w.
Definition check (elapsed_at : IpAddr → Instant) (now : Instant) (ip : IpAddr) :
    M RateLimiter Z unit := λ self,
  let w := prune_window elapsed_at (window self) in
  let '(started, count) := default (now, 0) (w !! ip) in
  let '(started, count) := if decide (WINDOW ≤ duration_since now started) then (now, 0)
                           else (started, count) in
  count ← add_unsigned u32_max count 1;
  let self' := mkLimiter (limit_per_minute self) (<[ip := (started, count)]> w) in
  if decide (limit_per_minute self < count) then
    let left := WINDOW - duration_since now started in
    Done (self', Err (if decide (left < 0) then 1 else Z.max (left / nanos_per_sec) 1))
  else Done (self', Ok tt).
End Limiter.

(* ------------------------------------------------------------------ *)
(** * Who is authenticated *)

Section TokenFacts.
Context `{Crypto} `{ChronoParse}.

Definition live (now : DateTime) (r : TokenRecord) : Prop :=
  tk_revoked r = false ∧ match tk_expires_at r with Some e => now < e | None => True end.
Definition identity_of (r : TokenRecord) : AuthenticatedToken :=
  {| at_id := tk_id r; at_identity := tk_identity r; at_scope := tk_scope r |}.
Lemma authenticate_Ok presented now self t :
  authenticate presented now self = Ok t ↔
  ∃ r, List.find (λ r, bool_decide (token_digest r = digest_secret presented)) (ts_tokens self) = Some r ∧
    live now r ∧ t = identity_of r.
Proof.
  unfold authenticate, live. destruct (List.find _ _) as [r|]; [|naive_solver].
  destruct (tk_revoked r) eqn:Hrev; [split; [done|]; intros (? & [= <-] & [? _] & _); congruence|].
  destruct (tk_expires_at r) as [e|] eqn:He; [destruct (bool_decide (e ≤ now)) eqn:Hn|].
  - split; [done|]. intros (? & [= <-] & [_ Hl] & _). rewrite He in Hl.
    apply bool_decide_eq_true in Hn. lia.
  - apply bool_decide_eq_false in Hn. split; [|by intros (? & [= <-] & _ & ->)].
    intros [= <-]. exists r. rewrite He. split_and!; [done..|lia|done].
  - split; [|by intros (? & [= <-] & _ & ->)]. intros [= <-]. exists r. by rewrite He.
Qed.
Lemma find_unique {A} (f : A → bool) (l : list A) r :
  (∀ x y, x ∈ l → y ∈ l → f x = true → f y = true → x = y) → r ∈ l → f r = true → List.find f l = Some r.
Proof.
  intros Hu Hr Hf. destruct (List.find f l) as [r'|] eqn:E.
  - apply find_Some_elem in E as [??]. f_equal. by apply Hu.
  - rewrite find_None_elem in E. by rewrite E in Hf.
Qed.

(** A presented secret is accepted exactly as the identity and scope of the token
    whose digest it has, while that token is neither revoked nor expired; among
    tokens with different digests this is the only one. *)
Theorem authenticate_iff self presented now t :
  NoDup (map token_digest (ts_tokens self)) →
  authenticate presented now self = Ok t ↔
  ∃ r, r ∈ ts_tokens self ∧ token_digest r = digest_secret presented ∧ live now r ∧ t = identity_of r.
Proof.
  intros Hnd. rewrite authenticate_Ok. split.
  - intros (r & [Hin Hd%bool_decide_eq_true]%find_Some_elem & ?). eauto.
  - intros (r & Hin & Hd & ?). exists r. split; [|done]. apply find_unique; [|done|by rewrite bool_decide_eq_true_2].
    intros x y Hx Hy Hfx%bool_decide_eq_true Hfy%bool_decide_eq_true.
    apply list_elem_of_lookup in Hx as [i Hi]. apply list_elem_of_lookup in Hy as [j Hj].
    assert (i = j) as ->; [|congruence].
    eapply NoDup_lookup; [exact Hnd|..]; change (map token_digest) with (fmap (M:=list) token_digest);
      rewrite list_lookup_fmap, ?Hi, ?Hj; simpl; [done|congruence].
Qed.

(** ** Revocation *)

Lemma revoke_marks id self r : r ∈ ts_tokens (revoke id self).1 → tk_id r = id → tk_revoked r = true.
Proof.
  simpl. intros (r' & -> & Hr)%list_elem_of_fmap. unfold revoke_hits.
  destruct (bool_decide (tk_id r' = id)) eqn:E, (tk_revoked r') eqn:Hrev; simpl; try done;
    apply bool_decide_eq_false in E; done.
Qed.
Lemma revoke_keeps id id' self :
  (∀ r, r ∈ ts_tokens self → tk_id r = id → tk_revoked r = true) →
  ∀ r, r ∈ ts_tokens (revoke id' self).1 → tk_id r = id → tk_revoked r = true.
Proof.
  simpl. intros Hall r (r' & -> & Hr)%list_elem_of_fmap. destruct (revoke_hits id' r'); [done|]. by apply Hall.
Qed.
Lemma parse_token_line_wf line r : parse_token_line line = Ok r →
  tk_revoked r = false ∧ MIN_TOKEN_LEN ≤ Z.of_nat (String.length (tk_secret r)) ∧ trim_is_empty (tk_id r) = false.
Proof.
  unfold parse_token_line. destruct (split_once ":" line) as [[id tail]|]; [|done].
  destruct (split_once ":" tail) as [[sc rest]|]; [|done].
  destruct (rsplit_once ":" rest) as [[ex secret]|]; [|done].
  destruct (TokenScope_parse sc) as [scope|]; [|done]. unfold mbind, result_bind.
  destruct (parse_expiry ex) as [expires|]; [|done]. destruct (str_is_empty secret); [done|].
  unfold TokenRecord_new. destruct (trim_is_empty (trim id)) eqn:E; [done|].
  case_decide; [done|]. intros [= <-]. simpl. split_and!; [done|lia|done].
Qed.
Lemma parse_lines_wf index lines records : parse_lines index lines = Ok records →
  Forall (λ r, tk_revoked r = false ∧ MIN_TOKEN_LEN ≤ Z.of_nat (String.length (tk_secret r)) ∧
               trim_is_empty (tk_id r) = false) records.
Proof.
  revert index records. induction lines as [|line lines IH]; intros index records; simpl.
  - by intros [= <-].
  - case_match; [apply IH|]. destruct (parse_token_line _) as [r|] eqn:Hp; [|done]. unfold_monad.
    destruct (parse_lines _ _) as [rs|] eqn:Hl; [|done]. intros [= <-]. constructor; [|by eapply IH].
    by eapply parse_token_line_wf.
Qed.
Lemma first_duplicate_None seen records : first_duplicate seen records = None →
  NoDup (map tk_id records) ∧ ∀ r, r ∈ records → tk_id r ∉ seen.
Proof.
  revert seen. induction records as [|r records IH]; intros seen; simpl; [split; [constructor|by intros ? ?%elem_of_nil]|].
  case_decide as Hs; [done|]. intros [Hnd Hno]%IH. split.
  - constructor; [|done]. intros (r' & E & Hr')%list_elem_of_fmap. apply (Hno r' Hr'). rewrite E. by constructor.
  - intros r'. rewrite elem_of_cons. intros [->|Hr']; [done|]. intros Hx. apply (Hno r' Hr'). by constructor.
Qed.

(** A store as configuration builds it: at least one token, with identifiers of
    their own, long secrets, none revoked. *)
Definition configured (self : TokenStore) : Prop :=
  ts_tokens self ≠ [] ∧ NoDup (map tk_id (ts_tokens self)) ∧
  Forall (λ r, tk_revoked r = false ∧ MIN_TOKEN_LEN ≤ Z.of_nat (String.length (tk_secret r)) ∧
               trim_is_empty (tk_id r) = false) (ts_tokens self).
Lemma from_lines_configured raw self : TokenStore_from_lines raw = Ok self → configured self.
Proof.
  unfold TokenStore_from_lines. unfold_monad. destruct (parse_lines _ _) as [rs|] eqn:Hp; [|done].
  destruct (is_nil rs) eqn:Hn; [done|]. destruct (first_duplicate [] rs) eqn:Hd; [done|]. intros [= <-].
  split_and!; [by destruct rs|by apply first_duplicate_None in Hd as []|by eapply parse_lines_wf].
Qed.
Lemma from_lookup_configured read_file lookup self :
  TokenStore_from_lookup read_file lookup = Ok self → configured self.
Proof.
  unfold TokenStore_from_lookup. destruct (lookup "LABRYS_API_TOKENS_FILE") as [path|].
  { destruct (read_file _); [apply from_lines_configured|done]. }
  destruct (lookup "LABRYS_API_TOKENS"); [apply from_lines_configured|].
  case_match; [done|]. unfold TokenStore_bootstrap, TokenRecord_new. unfold_monad.
  destruct (trim_is_empty "bootstrap") eqn:E; [done|]. case_decide; [done|]. intros [= <-].
  split_and!; [done|repeat constructor; by intros ?%elem_of_nil|]. repeat constructor; simpl; lia.
Qed.

(** C37: From a revocation on, whatever else is revoked and whenever it is asked, no
    secret authenticates as the revoked identifier; a reload that fails changes
    nothing; and a reload that succeeds installs exactly what the configuration
    says, in which no token is revoked any more. *)
Theorem revocation_until_reload id self ids read_file lookup presented now t :
  let revoked := foldl (λ st i, (revoke i st).1) (revoke id self).1 ids in
  (authenticate presented now revoked = Ok t → at_id t ≠ id) ∧
  match TokenStore_from_lookup read_file lookup with
  | Err e => reload read_file lookup revoked = Done (revoked, Err e)
  | Ok fresh => ∃ st, reload read_file lookup revoked = Done (st, Ok (TokenStore_len st)) ∧
      ts_tokens st = ts_tokens fresh ∧ configured st
  end.
Proof.
  intros revoked. split.
  - assert (∀ r, r ∈ ts_tokens revoked → tk_id r = id → tk_revoked r = true) as Hall.
    { unfold revoked. clear revoked. generalize (revoke_marks id self). generalize (revoke id self).1.
      induction ids as [|i ids IH]; intros st Hst; simpl; [by intros; apply Hst|].
      apply IH. intros r. by apply revoke_keeps. }
    intros (r & [Hr _]%find_Some_elem & [Hl _] & ->)%authenticate_Ok E. rewrite Hall in Hl; done.
  - unfold reload. destruct (TokenStore_from_lookup _ _) as [fresh|e] eqn:Hf; [|done].
    eexists (mkTokenStore _ _). split; [reflexivity|]. split; [done|]. by apply from_lookup_configured in Hf.
Qed.
End TokenFacts.

(** ** Token lines *)

Section Lines.
Context `{Crypto} `{ChronoParse}.
Definition colonless (s : string) : Prop := ":"%char ∉ chars s.
Lemma split_once_app c s t : c ∉ chars s → split_once c (s +:+ String c t) = Some (s, t).
Proof.
  induction s as [|a s IH]; simpl; intros Hc.
  - by rewrite decide_True.
  - change (chars (String a s)) with (a :: chars s) in Hc. rewrite not_elem_of_cons in Hc.
    destruct Hc as [Hne Hs]. rewrite decide_False by done. by rewrite IH.
Qed.
Lemma rsplit_once_app c s t : c ∉ chars t → rsplit_once c (s +:+ String c t) = Some (s, t).
Proof.
  intros Hc. assert (rsplit_once c t = None) as Ht.
  { clear -Hc. induction t as [|a t IH]; simpl; [done|]. change (chars (String a t)) with (a :: chars t) in Hc.
    rewrite not_elem_of_cons in Hc. destruct Hc as [Hne Ht]. rewrite IH by done. by rewrite decide_False. }
  induction s as [|a s IH]; simpl; [by rewrite Ht, decide_True|by rewrite IH].
Qed.
Lemma colon_app x : ":" +:+ x = String ":" x.
Proof. done. Qed.
Definition scope_text (s : TokenScope) : string := match s with TsHuman => "human" | TsAgent => "agent" end.

(** A line that writes identifier, scope, expiry and secret, with colons only
    inside the expiry, is read back as that token. *)
Theorem token_line_round_trip id scope expiry expires secret :
  colonless id → trim id = id → trim_is_empty id = false →
  colonless secret → MIN_TOKEN_LEN ≤ Z.of_nat (String.length secret) → parse_expiry expiry = Ok expires →
  parse_token_line (id +:+ ":" +:+ scope_text scope +:+ ":" +:+ expiry +:+ ":" +:+ secret) =
  Ok (mkToken id id scope expires false secret).
Proof.
  intros Hid Htrim Hne Hsec Hlen Hexp. unfold parse_token_line.
  rewrite !colon_app, split_once_app by done. cbv beta iota.
  rewrite split_once_app by (destruct scope; apply (bool_decide_unpack _); vm_compute; exact I). cbv beta iota.
  rewrite rsplit_once_app by done. cbv beta iota.
  assert (TokenScope_parse (scope_text scope) = Some scope) as -> by (by destruct scope).
  cbv beta iota. rewrite Hexp. unfold mbind, result_bind. rewrite Htrim. unfold TokenRecord_new. rewrite Hne.
  rewrite decide_False by lia. destruct secret; [|done]. unfold MIN_TOKEN_LEN in Hlen. simpl in Hlen. lia.
Qed.
End Lines.

(* ------------------------------------------------------------------ *)
(** * How many requests pass *)

Section LimiterFacts.
Context `{BuildProfile}.

Definition admission (ip ip' : IpAddr) (r : result Z unit) (now : Instant) (admitted : list Instant) :
    list Instant :=
  match r with Ok _ => if decide (ip' = ip) then admitted ++ [now] else admitted | Err _ => admitted end.
(** The limiter after a sequence of checks: its clock, the instants at which
    address [ip] was admitted, and the number of checks. *)
Inductive limiter_run (limit : Z) (ip : IpAddr) : RateLimiter → Instant → list Instant → Z → Prop :=
| run_new t : limiter_run limit ip (RateLimiter_new limit) t [] 0
| run_check self t admitted n elapsed_at now ip' self' r :
    limiter_run limit ip self t admitted n → t ≤ now → (∀ a, elapsed_at a ≤ now) →
    check elapsed_at now ip' self = Done (self', r) →
    limiter_run limit ip self' now (admission ip ip' r now admitted) (n + 1).

(** How many instants lie in an interval. *)
Definition count_within (lo hi : Z) (l : list Z) : Z :=
  Z.of_nat (length (List.filter (λ a, bool_decide (lo ≤ a < hi)) l)).
Lemma count_snoc lo hi l a :
  count_within lo hi (l ++ [a]) = count_within lo hi l + (if decide (lo ≤ a < hi) then 1 else 0).
Proof.
  unfold count_within. rewrite List.filter_app, length_app. simpl. destruct (bool_decide _) eqn:E.
  - apply bool_decide_eq_true in E. rewrite decide_True by done. simpl. lia.
  - apply bool_decide_eq_false in E. rewrite decide_False by done. simpl. lia.
Qed.
Lemma count_split lo mid hi l : lo ≤ mid ≤ hi → count_within lo hi l = count_within lo mid l + count_within mid hi l.
Proof.
  intros Hm. induction l as [|a l IH]; [done|]. unfold count_within in *. simpl.
  destruct (bool_decide (lo ≤ a < hi)) eqn:E1, (bool_decide (lo ≤ a < mid)) eqn:E2,
    (bool_decide (mid ≤ a < hi)) eqn:E3; simpl;
    rewrite ?bool_decide_eq_true, ?bool_decide_eq_false in *; lia.
Qed.
Lemma count_nonneg lo hi l : 0 ≤ count_within lo hi l.
Proof. unfold count_within. lia. Qed.
Lemma count_sub lo lo' hi hi' l : lo ≤ lo' → hi' ≤ hi → count_within lo' hi' l ≤ count_within lo hi l.
Proof.
  intros Hl Hh. induction l as [|a l IH]; [done|]. unfold count_within in *. simpl.
  destruct (bool_decide (lo ≤ a < hi)) eqn:E1, (bool_decide (lo' ≤ a < hi')) eqn:E2; simpl;
    rewrite ?bool_decide_eq_true, ?bool_decide_eq_false in *; lia.
Qed.

(** What the admitted instants satisfy, with respect to the start of the last
    window: it has few of them, so has the time before it, and all are over when
    it is. *)
Record window_inv (limit started : Z) (admitted : list Z) : Prop := {
  wi_current : ∀ hi, count_within started hi admitted ≤ limit;
  wi_before : ∀ lo, started - WINDOW < lo → count_within lo started admitted ≤ limit;
  wi_over : ∀ a, a ∈ admitted → a < started + WINDOW;
  wi_bound : ∀ lo, count_within lo (lo + WINDOW) admitted ≤ 2 * limit;
}.
Lemma count_late lo hi l : (∀ a, a ∈ l → a < lo) → count_within lo hi l = 0.
Proof.
  intros Hl. unfold count_within. replace (List.filter _ l) with (@nil Z); [done|]. symmetry.
  apply elem_of_nil_inv. intros a [Ha Hb%bool_decide_eq_true]%elem_of_lfilter. apply Hl in Ha. lia.
Qed.
Lemma WINDOW_pos : 0 < WINDOW.
Proof. done. Qed.
(** Another request in the current window, while there is room. *)
Lemma window_same limit started now admitted :
  1 ≤ limit → window_inv limit started admitted → started ≤ now < started + WINDOW →
  (∀ hi, count_within started hi admitted + 1 ≤ limit) → window_inv limit started (admitted ++ [now]).
Proof.
  intros Hl [Hc Hb Ho Hbound] Hnow Hroom. split.
  - intros hi. rewrite count_snoc. specialize (Hroom hi). specialize (Hc hi). case_decide; lia.
  - intros lo Hlo. rewrite count_snoc, decide_False by lia. specialize (Hb lo Hlo). lia.
  - intros a. rewrite elem_of_app, list_elem_of_singleton. intros [?| ->]; [by apply Ho|lia].
  - intros lo. rewrite count_snoc. case_decide as Hd; [|specialize (Hbound lo); lia].
    destruct (decide (lo ≤ started)) as [Hle|Hgt].
    + rewrite (count_split lo started) by lia. specialize (Hb lo). specialize (Hroom (lo + WINDOW)). lia.
    + pose proof (count_sub started lo (lo + WINDOW) (lo + WINDOW) admitted).
      specialize (Hroom (lo + WINDOW)). lia.
Qed.
(** The first request of a new window. *)
Lemma window_new limit started now admitted :
  1 ≤ limit → window_inv limit started admitted → started + WINDOW ≤ now →
  window_inv limit now (admitted ++ [now]).
Proof.
  intros Hl [Hc Hb Ho Hbound] Hnow. pose proof WINDOW_pos as Hw.
  assert (∀ lo hi, started ≤ lo → count_within lo hi admitted ≤ limit) as Hlate.
  { intros lo hi Hlo. pose proof (count_sub started lo hi hi admitted Hlo ltac:(lia)). specialize (Hc hi). lia. }
  split.
  - intros hi. rewrite count_snoc, count_late; [case_decide; lia|]. intros a Ha%Ho. lia.
  - intros lo Hlo. rewrite count_snoc, decide_False by lia. specialize (Hlate lo now). lia.
  - intros a. rewrite elem_of_app, list_elem_of_singleton. intros [Ha%Ho| ->]; lia.
  - intros lo. rewrite count_snoc. case_decide as Hd; [|specialize (Hbound lo); lia].
    specialize (Hlate lo (lo + WINDOW)). lia.
Qed.
Lemma window_start limit now : 1 ≤ limit → window_inv limit now [now].
Proof.
  intros Hl. change [now] with ([] ++ [now]).
  assert (window_inv limit (now - WINDOW) []) as Hnil.
  { split; intros; unfold count_within; simpl; try lia. by apply elem_of_nil in H0. }
  apply (window_new limit (now - WINDOW)); [done|done|lia].
Qed.

(** The limiter knows the last window of [ip], unless that window is over; it has
    counted every admission in it. *)
Definition limiter_inv (limit : Z) (ip : IpAddr) (self : RateLimiter) (t : Instant)
    (admitted : list Instant) (n : Z) : Prop :=
  limit_per_minute self = limit ∧ 0 ≤ n ∧
  (window self !! ip = None ∧ admitted = [] ∨
   ∃ started count, window_inv limit started admitted ∧ started ≤ t ∧ 0 ≤ count ≤ n ∧
     (window self !! ip = Some (started, count) ∧
        (∀ hi, count_within started hi admitted ≤ count) ∨
      window self !! ip = None ∧ started + WINDOW ≤ t)).

Lemma prune_lookup elapsed_at w a :
  prune_window elapsed_at w !! a = w !! a ∨
  prune_window elapsed_at w !! a = None ∧
    ∃ started count, w !! a = Some (started, count) ∧ WINDOW ≤ duration_since (elapsed_at a) started.
Proof.
  unfold prune_window. case_decide; [|by left]. rewrite map_lookup_filter.
  destruct (w !! a) as [[started count]|] eqn:E; simpl; [|by left].
  destruct (decide (duration_since (elapsed_at a) started < WINDOW)) as [Hd|Hd].
  - left. by rewrite option_guard_True.
  - right. rewrite option_guard_False by done. split; [done|]. exists started, count. split; [done|]. simpl in Hd. lia.
Qed.
Lemma duration_long now started : WINDOW ≤ duration_since now started → started + WINDOW ≤ now.
Proof. unfold duration_since, WINDOW, nanos_per_sec. lia. Qed.
(** After the pruning, with the clock moved on. *)
Lemma prune_inv limit ip self t admitted n elapsed_at now :
  limiter_inv limit ip self t admitted n → t ≤ now → (∀ a, elapsed_at a ≤ now) →
  limiter_inv limit ip (mkLimiter (limit_per_minute self) (prune_window elapsed_at (window self))) now admitted n.
Proof.
  intros (Hl & Hn & Hw) Ht He. split_and!; [done..|]. simpl.
  destruct (prune_lookup elapsed_at (window self) ip) as [->|(-> & st & ct & Hs & Hd)].
  - destruct Hw as [?|(started & count & ? & ? & ? & [[??]|[??]])]; [by left|right..].
    + exists started, count. split_and!; [done|lia|lia|lia|left; by split].
    + exists started, count. split_and!; [done|lia|lia|lia|right; split; [done|lia]].
  - destruct Hw as [[? _]|(started & count & ? & ? & ? & [[??]|[??]])]; [congruence|right|congruence].
    exists started, count. simplify_eq. split_and!; [done|lia|lia|lia|]. right. split; [done|].
    apply duration_long in Hd. specialize (He ip). lia.
Qed.
(** The first request of a window, and another one in it. *)
Lemma check_fresh elapsed_at now ip self :
  let w := prune_window elapsed_at (window self) in
  1 ≤ limit_per_minute self →
  match w !! ip with Some (st, _) => WINDOW ≤ duration_since now st | None => True end →
  check elapsed_at now ip self = Done (mkLimiter (limit_per_minute self) (<[ip := (now, 1)]> w), Ok tt).
Proof.
  intros w Hl Hw. unfold check. fold w. destruct (w !! ip) as [[st ct]|]; simpl.
  - rewrite decide_True by done. rewrite add_unsigned_done by (unfold u32_max; lia). simpl. by rewrite decide_False by lia.
  - rewrite decide_False by (unfold duration_since, WINDOW, nanos_per_sec; lia).
    rewrite add_unsigned_done by (unfold u32_max; lia). simpl. by rewrite decide_False by lia.
Qed.
Lemma check_same elapsed_at now ip self st ct :
  let w := prune_window elapsed_at (window self) in
  w !! ip = Some (st, ct) → duration_since now st < WINDOW → 0 ≤ ct < u32_max →
  ∃ reset, check elapsed_at now ip self = Done (mkLimiter (limit_per_minute self) (<[ip := (st, ct + 1)]> w),
    if decide (limit_per_minute self < ct + 1) then Err reset else Ok tt) ∧ 1 ≤ reset ≤ 60.
Proof.
  intros w Hw Hd Hc. unfold check. fold w. rewrite Hw. simpl. rewrite decide_False by lia.
  rewrite add_unsigned_done by lia. simpl.
  exists (Z.max ((WINDOW - duration_since now st) / nanos_per_sec) 1). split.
  - case_decide; [|done]. by rewrite decide_False by lia.
  - assert (0 ≤ (WINDOW - duration_since now st) / nanos_per_sec ≤ 60) as ?; [|lia].
    assert (0 ≤ duration_since now st) by (unfold duration_since; lia).
    unfold WINDOW, nanos_per_sec in *. split; [apply Z.div_pos; lia|]. apply Z.div_le_upper_bound; lia.
Qed.
Lemma check_other elapsed_at now ip ip' self self' r : ip' ≠ ip →
  check elapsed_at now ip' self = Done (self', r) →
  limit_per_minute self' = limit_per_minute self ∧
  window self' !! ip = prune_window elapsed_at (window self) !! ip.
Proof.
  intros Hne. unfold check. destruct (default _ _) as [st ct].
  destruct (if decide _ then _ else _) as [st' ct']. unfold mbind, outcome_bind.
  destruct (add_unsigned _ _ _); [|done]. case_decide; intros [= <- <-]; simpl; by rewrite lookup_insert_ne.
Qed.
Lemma check_inv limit ip self t admitted n elapsed_at now ip' self' r :
  1 ≤ limit → n < u32_max → limiter_inv limit ip self t admitted n → t ≤ now → (∀ a, elapsed_at a ≤ now) →
  check elapsed_at now ip' self = Done (self', r) →
  limiter_inv limit ip self' now (admission ip ip' r now admitted) (n + 1).
Proof.
  intros Hl1 Hn Hinv Ht He Hc. apply (prune_inv _ _ _ _ _ _ elapsed_at now) in Hinv; [|done..].
  destruct Hinv as (Hl & Hn0 & Hw). simpl in Hl, Hw. destruct (decide (ip' = ip)) as [->|Hne].
  2: { apply (check_other _ _ ip) in Hc as [E1 E2]; [|done]. split_and!; [congruence|lia|].
       assert (admission ip ip' r now admitted = admitted) as -> by (unfold admission; by case_match; rewrite ?decide_False).
       rewrite E2. destruct Hw as [?|(st & ct & ? & ? & [] & ?)]; [by left|].
       right. exists st, ct. split_and!; [done..|lia|done]. }
  assert (match prune_window elapsed_at (window self) !! ip with
          | Some (st, _) => WINDOW ≤ duration_since now st | None => True end →
          window_inv limit now (admitted ++ [now]) → (∀ a, a ∈ admitted → a < now) →
          limiter_inv limit ip self' now (admission ip ip r now admitted) (n + 1)) as Hfresh.
  { intros Hx Hwin Hlate. rewrite (check_fresh elapsed_at now ip self ltac:(lia) Hx) in Hc. injection Hc as <- <-.
    unfold admission. rewrite decide_True by done. split_and!; [done|lia|]. right. exists now, 1.
    split_and!; [done|lia|lia|lia|]. left. split; [apply lookup_insert_eq|]. intros hi.
    rewrite count_snoc, count_late by done. case_decide; lia. }
  destruct Hw as [[Hnone ->]|(st & ct & Hwin & Hst & Hct & [[Hsome Hin]|[Hnone Hover]])].
  - apply Hfresh; [by rewrite Hnone|by apply window_start|by intros ? ?%elem_of_nil].
  - destruct (decide (WINDOW ≤ duration_since now st)) as [Hd|Hd].
    + apply Hfresh; [by rewrite Hsome| |]; apply duration_long in Hd; [by eapply window_new|].
      intros a Ha. apply (wi_over _ _ _ Hwin) in Ha. lia.
    + destruct (check_same elapsed_at now ip self st ct Hsome ltac:(lia) ltac:(lia)) as (reset & Hcs & _).
      rewrite Hcs in Hc. injection Hc as <- <-. split_and!; [done|lia|]. right. exists st, (ct + 1).
      assert (now < st + WINDOW) by (unfold duration_since, WINDOW, nanos_per_sec in *; lia).
      unfold admission. simpl. rewrite lookup_insert_eq. destruct (decide (limit_per_minute self < ct + 1)).
      * split_and!; [done|lia|lia|lia|]. left. split; [done|]. intros hi. specialize (Hin hi). lia.
      * rewrite decide_True by done. split_and!; [|lia|lia|lia|left; split; [done|]; intros hi].
        -- apply window_same; [done|done|lia|]. intros hi. specialize (Hin hi). lia.
        -- rewrite count_snoc. specialize (Hin hi). case_decide; lia.
  - apply Hfresh; [by rewrite Hnone|by eapply window_new|].
    intros a Ha. apply (wi_over _ _ _ Hwin) in Ha. lia.
Qed.
Lemma limiter_run_inv limit ip self t admitted n :
  1 ≤ limit → limiter_run limit ip self t admitted n → n ≤ u32_max → limiter_inv limit ip self t admitted n.
Proof.
  intros Hl Hr. induction Hr as [t|self t admitted n elapsed_at now ip' self' r Hr IH Ht He Hc]; intros Hn.
  - split_and!; [simpl; lia|done|]. by left.
  - eapply check_inv; [done|lia|apply IH; lia|done..].
Qed.

(** C38: However requests of all addresses interleave, at most twice the limit of one
    address passes within any minute (a fixed window lets a burst end one window
    and start the next); a check never fails otherwise, and a refusal tells to
    wait between 1 and 60 seconds. *)
Theorem rate_limit_bound limit ip self t admitted n elapsed_at now :
  1 ≤ limit → limiter_run limit ip self t admitted n → n < u32_max → t ≤ now → (∀ a, elapsed_at a ≤ now) →
  (∀ lo, count_within lo (lo + WINDOW) admitted ≤ 2 * limit) ∧
  ∃ self' r, check elapsed_at now ip self = Done (self', r) ∧
    match r with Ok _ => True | Err reset => 1 ≤ reset ≤ 60 end.
Proof.
  intros Hl Hr Hn Ht He. pose proof (limiter_run_inv _ _ _ _ _ _ Hl Hr ltac:(lia)) as Hinv.
  assert (∀ lo, count_within lo (lo + WINDOW) admitted ≤ 2 * limit) as Hb.
  { destruct Hinv as (_ & _ & [[_ ->]|(st & ct & Hw & _)]); [|apply Hw]. intros lo. unfold count_within. simpl. lia. }
  split; [done|]. apply (prune_inv _ _ _ _ _ _ elapsed_at now) in Hinv as (Hlim & _ & Hw); [|done..].
  simpl in Hlim, Hw. rewrite <- Hlim in Hl.
  destruct Hw as [[Hnone ->]|(st & ct & Hwin & _ & Hct & [[Hsome Hin]|[Hnone _]])].
  - eexists _, (Ok tt). split; [|done]. apply check_fresh; [done|]. by rewrite Hnone.
  - destruct (decide (WINDOW ≤ duration_since now st)) as [Hd|Hd].
    { eexists _, (Ok tt). split; [|done]. apply check_fresh; [done|]. by rewrite Hsome. }
    destruct (check_same elapsed_at now ip self st ct Hsome ltac:(lia) ltac:(lia)) as (reset & -> & Hreset).
    eexists _, _. split; [done|]. by case_decide.
  - eexists _, (Ok tt). split; [|done]. apply check_fresh; [done|]. by rewrite Hnone.
Qed.
End LimiterFacts.

(** The server never serves plain HTTP off the loopback interface unless told to. *)
Lemma bind_policy_plain is_file ip shown tls allow p :
  bind_policy is_file ip shown tls allow = Ok p →
  p = BpTls ∧ (∃ t, tls = Some t ∧ is_file (cert_file t) = true ∧ is_file (key_file t) = true) ∨
  tls = None ∧ (is_loopback ip = true ∨ allow = true).
Proof.
  unfold bind_policy. destruct tls as [t|]; [|destruct (is_loopback ip), allow; naive_solver].
  destruct (is_file (cert_file t)) eqn:E1, (is_file (key_file t)) eqn:E2; simpl; naive_solver.
Qed.

Module AuthExamples.
Import RefInstances.
#[local] Instance ref_parse : ChronoParse := { parse_datetime s := if decide (s = "T1:00") then Some 1 else None }.
Definition two_tokens : TokenStore :=
  mkTokenStore [mkToken "ci" "ci" TsHuman None false "human-secret-0123";
                mkToken "bot" "bot" TsAgent (Some 50) false "agent-secret-0123"] false.
Lemma authenticate_iff_witness :
  NoDup (map token_digest (ts_tokens two_tokens)) ∧
  authenticate "agent-secret-0123" 49 two_tokens =
    Ok {| at_id := "bot"; at_identity := "bot"; at_scope := TsAgent |}.
Proof.
  assert (NoDup (map token_digest (ts_tokens two_tokens))) as Hnd
    by (apply (bool_decide_unpack _); vm_compute; exact I).
  split; [exact Hnd|].
  apply (proj2 (authenticate_iff two_tokens "agent-secret-0123" 49 _ Hnd)).
  eexists. split; [by right; left|]. by repeat split.
Defined.
Example expired_denied :
  authenticate "agent-secret-0123" 50 two_tokens = Err {| ad_reason := AdExpired; ad_known_id := Some "bot" |}.
Proof. reflexivity. Qed.
Lemma token_line_round_trip_witness :
  colonless "ci" ∧
  parse_token_line "ci:agent:T1:00:0123456789abcdef" = Ok (mkToken "ci" "ci" TsAgent (Some 1) false "0123456789abcdef").
Proof.
  assert (colonless "ci") as Hid by (apply (bool_decide_unpack _); vm_compute; exact I).
  assert (colonless "0123456789abcdef") as Hs by (apply (bool_decide_unpack _); vm_compute; exact I).
  split; [exact Hid|].
  apply (token_line_round_trip "ci" TsAgent "T1:00" (Some 1) "0123456789abcdef"); try done.
Defined.
#[local] Instance checked : BuildProfile := { overflow_checks := true }.
Definition home : IpAddr := IpV4 2130706433.
Definition once : RateLimiter := mkLimiter 2 {[ home := (0, 1) ]}.
Lemma rate_limit_bound_witness :
  limiter_run 2 home once 0 [0] 1 ∧ count_within 0 WINDOW [0] ≤ 4.
Proof.
  assert (limiter_run 2 home once 0 [0] 1) as Hr.
  { apply (run_check 2 home (RateLimiter_new 2) 0 [] 0 (λ _, 0) 0 home once (Ok tt));
      [apply run_new|lia|lia|vm_compute; reflexivity]. }
  split; [exact Hr|].
  apply (proj1 (rate_limit_bound 2 home once 0 [0] 1 (λ _, 0) 0 ltac:(lia) Hr ltac:(unfold u32_max; lia)
                  ltac:(lia) ltac:(lia)) 0).
Defined.
End AuthExamples.
