(* ===== verification/Config.v ===== *)
(** Process configuration (config.rs of labrys-control-plane): loading, validation
    and the credentials it registers for redaction. *)

From stdpp Require Import base option list strings pretty.
From Stdlib Require Import ZArith Lia Ascii.
From S2P Require Import Prelude External Snapshot CpErrors Auth.
Local Open Scope Z_scope.

(* ------------------------------------------------------------------ *)
(** * Texts *)

(** [str::parse] of an integer type: an optional sign, then decimal digits, with
    a result in range; an unsigned type takes no minus sign. *)
Definition digit_value (a : ascii) : option Z :=
  if in_range 48 57 a then Some (Z.of_N (byte_of a) - 48) else None.
Fixpoint digits_value (acc : Z) (s : string) : option Z :=
  match s with
  | "" => Some acc
  | String a s' => d ← digit_value a; digits_value (acc * 10 + d) s'
  end.
Definition unsigned_value (s : string) : option Z :=
  if str_is_empty s then None else digits_value 0 s.
Definition parse_int (lo hi : Z) (s : string) : option Z :=
  v ← (match strip_prefix "+" s with
       | Some t => unsigned_value t
       | None =>
           match strip_prefix "-" s with
           | Some t => if decide (lo < 0) then Z.opp <$> unsigned_value t else None
           | None => unsigned_value s
           end
       end);
  if decide (lo ≤ v ≤ hi) then Some v else None.

(** [s.trim_end_matches(c)]. *)
Fixpoint trim_end_matches (c : ascii) (s : string) : string :=
  match s with
  | "" => ""
  | String a s' =>
      match trim_end_matches c s' with
      | "" => if decide (a = c) then "" else String a ""
      | t => String a t
      end
  end.
(** Before and after the first occurrence of [p]. *)
Fixpoint split_first (p s : string) : option (string * string) :=
  match strip_prefix p s with
  | Some rest => Some ("", rest)
  | None => match s with
            | "" => None
            | String a s' =>
                match split_first p s' with Some (x, y) => Some (String a x, y) | None => None end
            end
  end.
(** [s.split(p).nth(1)] for a text [p], and [s.split(c).next()] and [nth(1)] for a
    character. *)
Definition split_second (p s : string) : option string :=
  rest ← snd <$> split_first p s;
  Some (match split_first p rest with Some (x, _) => x | None => rest end).
Definition split_head (c : ascii) (s : string) : string :=
  match split_once c s with Some (x, _) => x | None => s end.
Definition split_second_char (c : ascii) (s : string) : option string :=
  split_head c <$> (snd <$> split_once c s).

(** [Path::join] of a relative name. *)
Definition path_join (dir name : string) : string :=
  if str_is_empty dir || ends_with "/" dir then dir +:+ name else dir +:+ "/" +:+ name.

(* ------------------------------------------------------------------ *)
(** * Configuration *)

Inductive RuntimeMode := RmAuto | RmDocker | RmDisabled.
Definition RuntimeMode_as_str (m : RuntimeMode) : string :=
  match m with RmAuto => "auto" | RmDocker => "docker" | RmDisabled => "disabled" end.
Definition RuntimeMode_default : RuntimeMode := RmAuto.
Definition RuntimeMode_parse (raw : string) : result ControlPlaneError RuntimeMode :=
  let s := to_ascii_lowercase (trim raw) in
  if decide (s = "auto") then Ok RmAuto
  else if decide (s = "docker") then Ok RmDocker
  else if decide (s = "disabled") then Ok RmDisabled
  else Err (CpConfig ("LABRYS_RUNTIME_MODE must be one of auto, docker, disabled (got '"
                      +:+ s +:+ "')")).

Definition DEFAULT_PREVIEW_TTL_SECS : Z := 3600.
Definition MIN_PREVIEW_TTL_SECS : Z := 60.
Definition MAX_PREVIEW_TTL_SECS : Z := 86400.

(** Paths are their texts. *)
Record Config := mkConfig {
  database_url : string;
  worker_id : string;
  lease_seconds : Z;
  poll_interval_ms : Z;
  drain_timeout_ms : Z;
  max_concurrency : Z;
  run_migrations : bool;
  runtime_mode : RuntimeMode;
  docker_bin : string;
  workspace_root : string;
  preview_ttl_secs : Z;
  provider_postgres_url : option string;
  provider_storage_root : string;
  provider_registry_endpoint : option string;
  provider_registry_username : option string;
  provider_registry_password : option string;
  provider_tls_dir : string;
}.

Definition require_postgres_url (url name : string) : result ControlPlaneError unit :=
  if starts_with "postgres://" url || starts_with "postgresql://" url || starts_with "postgres+" url
  then Ok tt
  else Err (CpConfig (name +:+ " must be a postgresql:// connection string")).
Definition url_password (url : string) : option string :=
  after_scheme ← split_second "://" url;
  let authority := split_head "@" after_scheme in
  password ← split_second_char ":" authority;
  if str_is_empty password then None else Some password.

(** A guard that returns a configuration error. *)
Definition refuse_if (b : bool) (m : string) : result ControlPlaneError unit :=
  if b then Err (CpConfig m) else Ok tt.
Definition outside (lo hi v : Z) : bool := bool_decide (v < lo) || bool_decide (hi < v).
Definition http_endpoint (e : string) : bool := starts_with "http://" e || starts_with "https://" e.
Definition Config_validate (self : Config) : result ControlPlaneError unit :=
  let url := trim (database_url self) in
  _ ← refuse_if (str_is_empty url) "database url is required (LABRYS_DATABASE_URL/DATABASE_URL)";
  _ ← require_postgres_url url "LABRYS_DATABASE_URL/DATABASE_URL";
  _ ← refuse_if (trim_is_empty (worker_id self)) "worker id must not be empty";
  _ ← refuse_if (outside 1 3600 (lease_seconds self)) "lease seconds must be between 1 and 3600";
  _ ← refuse_if (outside 10 60000 (poll_interval_ms self)) "poll interval must be between 10 and 60000 ms";
  _ ← refuse_if (outside 100 120000 (drain_timeout_ms self))
        "drain timeout must be between 100 and 120000 ms";
  _ ← refuse_if (outside 1 64 (max_concurrency self)) "max concurrency must be between 1 and 64";
  _ ← refuse_if (str_is_empty (docker_bin self)) "docker binary path must not be empty";
  _ ← refuse_if (str_is_empty (workspace_root self)) "workspace root must not be empty";
  _ ← refuse_if (outside MIN_PREVIEW_TTL_SECS MAX_PREVIEW_TTL_SECS (preview_ttl_secs self))
        ("preview ttl must be between " +:+ pretty MIN_PREVIEW_TTL_SECS +:+ " and "
         +:+ pretty MAX_PREVIEW_TTL_SECS +:+ " seconds");
  _ ← (match provider_postgres_url self with
       | Some url => require_postgres_url url "LABRYS_PROVIDER_POSTGRES_URL"
       | None => Ok tt
       end);
  _ ← refuse_if (str_is_empty (provider_storage_root self)) "provider storage root must not be empty";
  _ ← (match provider_registry_endpoint self with
       | Some e => refuse_if (negb (http_endpoint e))
                     "LABRYS_PROVIDER_REGISTRY_ENDPOINT must be an http(s) URL"
       | None => Ok tt
       end);
  refuse_if (str_is_empty (provider_tls_dir self)) "provider tls dir must not be empty".

Definition provider_secret_values (self : Config) : list string :=
  List.filter (λ s, negb (trim_is_empty s))
    (option_list (provider_postgres_url self ≫= url_password)
     ++ option_list (provider_registry_password self)).

Section Load.
Context `{UuidLib}.
(** The environment, the system's directory for temporary files and the fresh
    identifier of a worker without a name. *)
Context (lookup : string → option string) (temp_dir : string) (fresh : Uuid).

Definition default_worker_id : string := "worker-" +:+ uuid_simple fresh.
Definition default_workspace_root : string := path_join temp_dir "labrys-workspaces".
Definition default_provider_storage_root : string := path_join temp_dir "labrys-provider-storage".
Definition default_provider_tls_dir : string := path_join temp_dir "labrys-provider-tls".

Definition parse_value (key : string) (dflt : Z) (parse : string → option Z) :
    result ControlPlaneError Z :=
  match lookup key with
  | None => Ok dflt
  | Some raw =>
      ok_or (CpConfig (key +:+ " is not a valid integer: " +:+ raw)) (parse (trim raw))
  end.
(** [usize] has 64 bits. *)
Definition parse_i64 (key : string) (dflt : Z) := parse_value key dflt (parse_int (- i64_max - 1) i64_max).
Definition parse_u64 (key : string) (dflt : Z) := parse_value key dflt (parse_int 0 u64_max).
Definition parse_usize (key : string) (dflt : Z) := parse_value key dflt (parse_int 0 u64_max).
(** A path that may be absent but not blank, and an optional text. *)
Definition path_setting (key dflt : string) : result ControlPlaneError string :=
  match lookup key with
  | Some v => if trim_is_empty v then Err (CpConfig (key +:+ " must not be empty")) else Ok (trim v)
  | None => Ok dflt
  end.
Definition text_setting (f : string → string) (key : string) : option string :=
  v ← lookup key; if trim_is_empty v then None else Some (f v).

Definition Config_from_lookup : result ControlPlaneError Config :=
  let url := match lookup "LABRYS_DATABASE_URL" with
    | Some u => u
    | None => default "" (lookup "DATABASE_URL")
    end in
  let worker := default default_worker_id (lookup "LABRYS_WORKER_ID") in
  lease ← parse_i64 "LABRYS_LEASE_SECONDS" 60;
  poll ← parse_u64 "LABRYS_POLL_INTERVAL_MS" 250;
  drain ← parse_u64 "LABRYS_DRAIN_TIMEOUT_MS" 5000;
  concurrency ← parse_usize "LABRYS_MAX_CONCURRENCY" 1;
  let migrations := match lookup "LABRYS_RUN_MIGRATIONS" with
    | Some v => bool_decide (to_ascii_lowercase (trim v) ∈ ["1"; "true"; "yes"])
    | None => true
    end in
  mode ← (match lookup "LABRYS_RUNTIME_MODE" with
          | Some v => RuntimeMode_parse v
          | None => Ok RuntimeMode_default
          end);
  docker ← path_setting "LABRYS_DOCKER_BIN" "docker";
  root ← path_setting "LABRYS_WORKSPACE_ROOT" default_workspace_root;
  ttl ← parse_u64 "LABRYS_PREVIEW_TTL_SECONDS" DEFAULT_PREVIEW_TTL_SECS;
  let postgres := text_setting trim "LABRYS_PROVIDER_POSTGRES_URL" in
  storage ← path_setting "LABRYS_PROVIDER_STORAGE_ROOT" default_provider_storage_root;
  let endpoint := text_setting (λ v, trim_end_matches "/" (trim v)) "LABRYS_PROVIDER_REGISTRY_ENDPOINT" in
  let username := text_setting trim "LABRYS_PROVIDER_REGISTRY_USERNAME" in
  let password := text_setting id "LABRYS_PROVIDER_REGISTRY_PASSWORD" in
  tls ← path_setting "LABRYS_PROVIDER_TLS_DIR" default_provider_tls_dir;
  let config := mkConfig url worker lease poll drain concurrency migrations mode docker root ttl
    postgres storage endpoint username password tls in
  _ ← Config_validate config;
  Ok config.
End Load.

(* ------------------------------------------------------------------ *)
(** * What a loaded configuration guarantees *)

Lemma refuse_if_Ok b m r : refuse_if b m = Ok r → b = false.
Proof. by destruct b. Qed.
Lemma outside_false lo hi v : outside lo hi v = false ↔ lo ≤ v ≤ hi.
Proof. unfold outside. rewrite orb_false_iff, !bool_decide_eq_false. lia. Qed.
Lemma require_postgres_url_Ok url name r : require_postgres_url url name = Ok r →
  starts_with "postgres" url = true.
Proof.
  unfold require_postgres_url.
  assert (∀ p, starts_with ("postgres" +:+ p) url = true → starts_with "postgres" url = true) as Hp.
  { intros p (r' & ->)%starts_with_spec. apply starts_with_spec. exists (p +:+ r'). by rewrite str_app_assoc. }
  destruct (starts_with "postgres://" url) eqn:E1; [intros _; by apply (Hp "://")|].
  destruct (starts_with "postgresql://" url) eqn:E2; [intros _; by apply (Hp "ql://")|].
  destruct (starts_with "postgres+" url) eqn:E3; [intros _; by apply (Hp "+")|done].
Qed.
(** Settings inside their bounds. *)
Record bounded (c : Config) : Prop := {
  bd_url : starts_with "postgres" (trim (database_url c)) = true;
  bd_worker : trim_is_empty (worker_id c) = false;
  bd_lease : 1 ≤ lease_seconds c ≤ 3600;
  bd_poll : 10 ≤ poll_interval_ms c ≤ 60000;
  bd_drain : 100 ≤ drain_timeout_ms c ≤ 120000;
  bd_concurrency : 1 ≤ max_concurrency c ≤ 64;
  bd_ttl : MIN_PREVIEW_TTL_SECS ≤ preview_ttl_secs c ≤ MAX_PREVIEW_TTL_SECS;
  bd_postgres u : provider_postgres_url c = Some u → starts_with "postgres" u = true;
  bd_registry e : provider_registry_endpoint c = Some e → http_endpoint e = true;
}.
Lemma validate_bounded c : Config_validate c = Ok tt → bounded c.
Proof.
  unfold Config_validate. intros Hv.
  apply result_bind_Ok in Hv as (? & H0 & Hv).
  apply result_bind_Ok in Hv as (? & Hurl & Hv).
  apply result_bind_Ok in Hv as (? & Hworker & Hv).
  apply result_bind_Ok in Hv as (? & Hlease & Hv).
  apply result_bind_Ok in Hv as (? & Hpoll & Hv).
  apply result_bind_Ok in Hv as (? & Hdrain & Hv).
  apply result_bind_Ok in Hv as (? & Hconc & Hv).
  apply result_bind_Ok in Hv as (? & H7 & Hv).
  apply result_bind_Ok in Hv as (? & H8 & Hv).
  apply result_bind_Ok in Hv as (? & Httl & Hv).
  apply result_bind_Ok in Hv as (? & Hpg & Hv).
  apply result_bind_Ok in Hv as (? & H11 & Hv).
  apply result_bind_Ok in Hv as (? & Hreg & Hv).
  split.
  - by eapply require_postgres_url_Ok.
  - by eapply refuse_if_Ok.
  - by eapply outside_false, refuse_if_Ok.
  - by eapply outside_false, refuse_if_Ok.
  - by eapply outside_false, refuse_if_Ok.
  - by eapply outside_false, refuse_if_Ok.
  - by eapply outside_false, refuse_if_Ok.
  - intros u Hu. rewrite Hu in Hpg. by eapply require_postgres_url_Ok.
  - intros e He. rewrite He in Hreg. by apply refuse_if_Ok, negb_false_iff in Hreg.
Qed.

(** A configuration that loads, from whatever environment, has every timing and
    count inside its bounds, so no lease is unbounded and no worker polls without
    pause, names a worker, and points at PostgreSQL databases and an HTTP
    registry only. *)
Theorem config_is_bounded `{UuidLib} lookup temp_dir fresh c :
  Config_from_lookup lookup temp_dir fresh = Ok c → bounded c.
Proof.
  unfold Config_from_lookup. intros Hc.
  repeat (apply result_bind_Ok in Hc as (? & ? & Hc)). simplify_eq. apply validate_bounded.
  by match goal with H : Config_validate _ = Ok ?x |- _ => destruct x end.
Qed.

(** ** Registered credentials *)

Lemma split_first_unfold p s : split_first p s =
  match strip_prefix p s with
  | Some rest => Some ("", rest)
  | None => match s with
            | "" => None
            | String a s' =>
                match split_first p s' with Some (x, y) => Some (String a x, y) | None => None end
            end
  end.
Proof. by destruct s. Qed.
Lemma split_first_app p s : split_first p (p +:+ s) = Some ("", s).
Proof. by rewrite split_first_unfold, strip_prefix_app. Qed.
Lemma not_in_cons a b s : a ∉ chars (String b s) → a ≠ b ∧ a ∉ chars s.
Proof. change (chars (String b s)) with (b :: chars s). by rewrite not_elem_of_cons. Qed.
Lemma scheme_second scheme t : ":"%char ∉ chars scheme →
  split_first "://" (scheme +:+ "://" +:+ t) = Some (scheme, t).
Proof.
  induction scheme as [|a scheme IH]; [intros _; apply (split_first_app "://")|].
  intros [Hne Hs]%not_in_cons. rewrite str_app_cons, split_first_unfold.
  destruct (strip_prefix _ _) as [r|] eqn:E; [apply strip_prefix_Some in E; injection E as ->; done|].
  by rewrite IH.
Qed.
(** A text without slashes is not cut. *)
Lemma no_cut s t : "/"%char ∉ chars s → ∃ t',
  match split_first "://" (s +:+ String "@" t) with Some (x, _) => x | None => s +:+ String "@" t end
  = s +:+ String "@" t'.
Proof.
  induction s as [|a s IH]; intros Hs.
  - rewrite str_app_nil_l, split_first_unfold. simpl. destruct (split_first "://" t) as [[x y]|]; eauto.
  - apply not_in_cons in Hs as [Hne Hs]. destruct (IH Hs) as [t' Ht'].
    rewrite str_app_cons, split_first_unfold.
    destruct (strip_prefix _ _) as [r|] eqn:E.
    { apply strip_prefix_Some in E. destruct s as [|b s]; [discriminate E|]. injection E as _ -> _. by apply not_in_cons in Hs as [Hb _]. }
    exists t'. rewrite str_app_cons, <- Ht'. by destruct (split_first "://" (s +:+ String "@" t)) as [[x y]|].
Qed.

Lemma split_once_absent c s : c ∉ chars s → split_once c s = None.
Proof.
  induction s as [|a s IH]; [done|]. intros [Hne Hs]%not_in_cons. simpl.
  rewrite decide_False by done. by rewrite IH.
Qed.
Lemma split_once_present c s : c ∈ chars s → ∃ x y, split_once c s = Some (x, y) ∧ c ∉ chars x.
Proof.
  induction s as [|a s IH]; [by intros ?%elem_of_nil|]. change (chars (String a s)) with (a :: chars s).
  simpl. case_decide as Ha; [intros _; exists "", s; split; [done|by apply not_elem_of_nil]|].
  rewrite elem_of_cons. intros [?|(x & y & -> & Hx)%IH]; [congruence|].
  exists (String a x), y. split; [done|]. change (chars (String a x)) with (a :: chars x).
  rewrite not_elem_of_cons. split; [congruence|done].
Qed.
(** The password of a database URL with user and password is registered for
    redaction up to its first colon: whole when it has none, and only a prefix of
    it otherwise. *)
Theorem url_password_registered scheme user password rest :
  ":"%char ∉ chars scheme → ":"%char ∉ chars user →
  "/"%char ∉ chars (user +:+ ":" +:+ password) → "@"%char ∉ chars (user +:+ ":" +:+ password) →
  split_head ":" password ≠ "" →
  url_password (scheme +:+ "://" +:+ user +:+ ":" +:+ password +:+ "@" +:+ rest)
    = Some (split_head ":" password) ∧
  (":"%char ∉ chars password → split_head ":" password = password) ∧
  (":"%char ∈ chars password → split_head ":" password ≠ password).
Proof.
  intros Hsch Hu Hslash Hat Hne. split; [|split].
  - unfold url_password, split_second. rewrite scheme_second by done. simpl.
    assert (user +:+ ":" +:+ password +:+ "@" +:+ rest = (user +:+ ":" +:+ password) +:+ String "@" rest) as ->
      by (by rewrite !str_app_assoc).
    destruct (no_cut (user +:+ ":" +:+ password) rest Hslash) as [t ->].
    unfold split_head at 1. rewrite split_once_app by done.
    unfold split_second_char. rewrite colon_app, split_once_app by done. simpl.
    by destruct (split_head ":" password).
  - intros Hc. unfold split_head. by rewrite split_once_absent.
  - intros Hc. destruct (split_once_present _ _ Hc) as (x & y & E & Hx). unfold split_head. rewrite E. by intros ->.
Qed.

Module ConfigExamples.
Import RefInstances.
Definition env (key : string) : option string :=
  if decide (key = "DATABASE_URL") then Some "postgres://labrys:pw@db/labrys"
  else if decide (key = "LABRYS_LEASE_SECONDS") then Some " +90 "
  else if decide (key = "LABRYS_PROVIDER_POSTGRES_URL") then Some "postgres://admin:a:b@db/x"
  else None.
Definition loaded : Config :=
  match Config_from_lookup env "/tmp" (uuid 7) with
  | Ok c => c
  | Err _ => mkConfig "" "" 0 0 0 0 false RmAuto "" "" 0 None "" None None None ""
  end.
Example loaded_lease : (lease_seconds loaded, workspace_root loaded) = (90, "/tmp/labrys-workspaces").
Proof. vm_compute. reflexivity. Qed.
(** Only the part before the colon is registered, and a URL without credentials
    registers its port. *)
Example registered_prefix : provider_secret_values loaded = ["a"].
Proof. vm_compute. reflexivity. Qed.
Example registered_port : url_password "postgres://db:5432/x" = Some "5432/x".
Proof. vm_compute. reflexivity. Qed.
Lemma config_is_bounded_witness :
  Config_from_lookup env "/tmp" (uuid 7) = Ok loaded ∧ 1 ≤ lease_seconds loaded ≤ 3600.
Proof.
  assert (Config_from_lookup env "/tmp" (uuid 7) = Ok loaded) as Hc by (vm_compute; reflexivity).
  split; [exact Hc|]. apply (bd_lease _ (config_is_bounded env "/tmp" (uuid 7) loaded Hc)).
Defined.
Lemma url_password_registered_witness :
  split_head ":" "pw" ≠ "" ∧ url_password "postgres://labrys:pw@db" = Some "pw".
Proof.
  assert (split_head ":" "pw" ≠ "") as Hne by (vm_compute; discriminate).
  split; [exact Hne|].
  apply (url_password_registered "postgres" "labrys" "pw" "db");
    [apply (bool_decide_unpack _); vm_compute; exact I..|exact Hne].
Defined.
End ConfigExamples.
