(* ===== verification/DurableJobs.v ===== *)
(** The durable job queue (jobs.rs of labrys-control-plane): the jobs table and
    the statements that enqueue, claim under a lease, complete, fail, pause,
    resume, requeue and recover jobs. *)

From stdpp Require Import base option list strings pretty gmap relations sorting.
From Stdlib Require Import ZArith Lia.
From S2P Require Import Prelude External Errors CpErrors Ids Resource Jobs.
Local Open Scope Z_scope.

(* ------------------------------------------------------------------ *)
(** * Rows *)

Section Rows.
Context `{UuidLib} `{JsonLib} `{!Serde RetryPolicy}.

Record JobRow := mkRow {
  jr_id : string;
  jr_target : string;
  jr_action : string;
  jr_key : string;
  jr_status : string;
  jr_attempts : Z;
  jr_policy : Json;
  jr_next_attempt_at : DateTime;
  jr_last_error : option string;
  lease_owner : option string;
  lease_expires_at : option DateTime;
  jr_enqueued_at : DateTime;
  jr_updated_at : DateTime;
}.

Definition status_name (s : JobStatus) : string :=
  match s with
  | Queued => "queued" | Paused => "paused" | Running => "running" | Succeeded => "succeeded"
  | Dead => "dead"
  end.
Definition status_from_name (name : string) : result ControlPlaneError JobStatus :=
  match List.find (λ s, bool_decide (status_name s = name))
          [Queued; Paused; Running; Succeeded; Dead] with
  | Some s => Ok s
  | None => Err (CpMapping ("unknown job status " +:+ name))
  end.
Definition action_from_name (name : string) : result ControlPlaneError JobAction :=
  match List.find (λ a, bool_decide (JobAction_as_str a = name))
          [JProvision; JUpdate; JRollout; JVerify; JDelete] with
  | Some a => Ok a
  | None => Err (CpMapping ("unknown job action " +:+ name))
  end.
Definition parse_job_id (value : string) : result ControlPlaneError JobId :=
  match JobId_from_str value with
  | Ok id => Ok id
  | Err _ => Err (CpMapping ("invalid job id " +:+ value))
  end.
Definition read_policy (v : Json) : result ControlPlaneError RetryPolicy := from_value v.

Definition job_from_row (row : JobRow) : result ControlPlaneError Job :=
  policy ← read_policy (jr_policy row);
  id ← parse_job_id (jr_id row);
  action ← action_from_name (jr_action row);
  status ← status_from_name (jr_status row);
  Ok (mkJob id (jr_target row) action (jr_key row) status (i32_as_u32 (jr_attempts row)) policy
        (jr_next_attempt_at row) (jr_last_error row) (jr_enqueued_at row) (jr_updated_at row)).

(** The columns an [UPDATE] assigns; the others keep their values. *)
Definition row_update (r : JobRow) (status : string) (attempts : Z) (next : DateTime)
    (last_error owner : option string) (expires : option DateTime) (updated : DateTime) : JobRow :=
  mkRow (jr_id r) (jr_target r) (jr_action r) (jr_key r) status attempts (jr_policy r) next
    last_error owner expires (jr_enqueued_at r) updated.
End Rows.

#[global] Arguments status_from_name : simpl never.
#[global] Arguments action_from_name : simpl never.
#[global] Arguments parse_job_id : simpl never.
#[global] Arguments read_policy : simpl never.
#[global] Arguments job_from_row : simpl never.

Record ClaimedJob `{JsonLib} := {
  cj_job : Job;
  cj_lease_owner : string;
  cj_lease_expires_at : DateTime;
}.

(* ------------------------------------------------------------------ *)
(** * Statements *)

Section Statements.
Context `{UuidLib} `{JsonLib} `{!Serde RetryPolicy} `{Chrono} `{PgTime}.
Implicit Types (t : gmap string JobRow) (id : JobId).

(** [INSERT ... ON CONFLICT (idempotency_key) DO NOTHING RETURNING id], then
    the identifier of the conflicting row.  [fresh] is drawn by [JobId::new]. *)
Definition with_key (key : string) t : option JobRow :=
  List.find (λ r, bool_decide (jr_key r = key)) (btree_values t).
Definition pg_enqueue (fresh : JobId) (target : string) (action : JobAction) (version : Z)
    (policy : RetryPolicy) (at_ : DateTime) :
    M (gmap string JobRow) ControlPlaneError EnqueueOutcome :=
  let key := IdempotencyKey_new target action version in
  value ← lift_r (to_value policy);
  table ← get;
  match with_key key table with
  | Some existing =>
      dup ← lift_r (parse_job_id (jr_id existing));
      mret (Duplicate dup)
  | None =>
      if decide (is_Some (table !! id_fmt fresh)) then
        mthrow (CpDatabase "duplicate key value violates unique constraint jobs_pkey")
      else
        modify (λ t : gmap string JobRow, <[id_fmt fresh :=
          mkRow (id_fmt fresh) target (JobAction_as_str action) key "queued" 0 value
            (pg_time at_) None None None (pg_time at_) (pg_time at_)]> t);;
        mret (Enqueued fresh)
  end.

Definition row_claimable (now : DateTime) (r : JobRow) : bool :=
  bool_decide (jr_status r = "queued") && bool_decide (jr_next_attempt_at r ≤ pg_time now).
Definition row_due_le (a b : JobRow) : bool :=
  bool_decide (jr_next_attempt_at a < jr_next_attempt_at b) ||
  (bool_decide (jr_next_attempt_at a = jr_next_attempt_at b)
   && bool_decide (jr_enqueued_at a ≤ jr_enqueued_at b)).

(** [visible] lists the rows that no other transaction has locked
    ([FOR UPDATE SKIP LOCKED]), in the order the scan meets them; among rows that
    compare equal the database may return any, here the first visible. *)
Definition candidate (visible : list string) (now : DateTime) t : option JobRow :=
  min_by row_due_le (List.filter (row_claimable now) (omap (λ k, t !! k) visible)).

Definition pg_claim_next (visible : list string) (worker_id : string) (now : DateTime)
    (lease : Duration) t : outcome (gmap string JobRow * result ControlPlaneError (option ClaimedJob)) :=
  expires ← datetime_add now lease;
  match candidate visible now t with
  | None => Done (t, Ok None)
  | Some row =>
      if decide (jr_attempts row = i32_max) then
        Done (t, Err (CpDatabase "integer out of range"))
      else
        let row' := row_update row "running" (jr_attempts row + 1) (jr_next_attempt_at row)
                      (jr_last_error row) (Some worker_id) (Some (pg_time expires)) (pg_time now) in
        (* a row that does not map rolls the transaction back *)
        match job_from_row row' with
        | Err e => Done (t, Err e)
        | Ok job =>
            Done (<[jr_id row := row']> t,
              Ok (Some {| cj_job := job; cj_lease_owner := worker_id;
                          cj_lease_expires_at := pg_time expires |}))
        end
  end.

(** The row with that key, running under that worker. *)
Definition held_by (id : JobId) (worker_id : string) t : option JobRow :=
  r ← t !! id_fmt id;
  if decide (jr_status r = "running" ∧ lease_owner r = Some worker_id) then Some r else None.
Definition not_held (id : JobId) (worker_id : string) : ControlPlaneError :=
  CpJobState ("job " +:+ id_fmt id +:+ " is not running under worker " +:+ worker_id).

Definition pg_complete (id : JobId) (worker_id : string) (now : DateTime) :
    M (gmap string JobRow) ControlPlaneError unit :=
  t ← get;
  match held_by id worker_id t with
  | None => mthrow (not_held id worker_id)
  | Some r => put (<[id_fmt id := row_update r "succeeded" (jr_attempts r) (jr_next_attempt_at r)
                                    None None None (pg_time now)]> t)
  end.

Definition pg_fail (id : JobId) (worker_id error : string) (now : DateTime) :
    M (gmap string JobRow) ControlPlaneError JobStatus :=
  t ← get;
  row ← lift_r (ok_or (not_held id worker_id) (held_by id worker_id t));
  policy ← lift_r (read_policy (jr_policy row));
  let attempts := Z.max (jr_attempts row) 1 in
  redacted ← lift_r (redact_guard "job.last_error" error []);
  '(status, next_attempt_at) ←
    (if decide (max_attempts policy ≤ attempts) then mret (Dead, now)
     else delay ← lift_o (delay_for policy attempts);
          next ← lift_o (datetime_add now delay);
          mret (Queued, next));
  put (<[id_fmt id := row_update row (status_name status) (jr_attempts row)
                        (pg_time next_attempt_at) (Some redacted) None None
                        (pg_time next_attempt_at)]> t);;
  mret status.

(** [UPDATE jobs SET status = to [, next_attempt_at = now], updated_at = now
     WHERE id = .. AND status = from]. *)
Definition transition (id : JobId) (from to_ : string) (now : DateTime) (reset_next : bool) :
    M (gmap string JobRow) ControlPlaneError unit :=
  t ← get;
  match t !! id_fmt id with
  | Some r =>
      if decide (jr_status r = from) then
        put (<[id_fmt id := row_update r to_ (jr_attempts r)
                 (if reset_next then pg_time now else jr_next_attempt_at r) (jr_last_error r)
                 (lease_owner r) (lease_expires_at r) (pg_time now)]> t)
      else mthrow (CpJobState ("cannot move job " +:+ id_fmt id +:+ " from " +:+ from +:+ " to " +:+ to_))
  | None => mthrow (CpJobState ("cannot move job " +:+ id_fmt id +:+ " from " +:+ from +:+ " to " +:+ to_))
  end.
Definition pg_pause (id : JobId) (now : DateTime) := transition id "queued" "paused" now false.
Definition pg_resume (id : JobId) (now : DateTime) := transition id "paused" "queued" now true.

Definition pg_requeue (id : JobId) (now : DateTime) : M (gmap string JobRow) ControlPlaneError unit :=
  t ← get;
  match t !! id_fmt id with
  | Some r =>
      if decide (jr_status r = "dead") then
        put (<[id_fmt id := row_update r "queued" 0 (pg_time now) None None None (pg_time now)]> t)
      else mthrow (CpJobState ("only dead jobs can be requeued; job " +:+ id_fmt id +:+ " is not dead"))
  | None => mthrow (CpJobState ("only dead jobs can be requeued; job " +:+ id_fmt id +:+ " is not dead"))
  end.

Definition lease_expired (now : DateTime) (r : JobRow) : bool :=
  bool_decide (jr_status r = "running") &&
  match lease_expires_at r with Some e => bool_decide (e ≤ pg_time now) | None => false end.
Definition recovered_row (now : DateTime) (r : JobRow) : JobRow :=
  row_update r "queued" (jr_attempts r) (jr_next_attempt_at r)
    (Some "lease expired; job recovered for re-claim") None None (pg_time now).
Fixpoint parse_all (l : list string) : result ControlPlaneError (list JobId) :=
  match l with
  | [] => Ok []
  | s :: l' => id ← parse_job_id s; ids ← parse_all l'; Ok (id :: ids)
  end.
(** One statement updates every expired row; the identifiers are parsed after
    it has taken effect. *)
Definition recover_expired_leases (now : DateTime) :
    M (gmap string JobRow) ControlPlaneError (list JobId) :=
  t ← get;
  put ((λ r, if lease_expired now r then recovered_row now r else r) <$> t);;
  lift_r (parse_all (map jr_id (List.filter (lease_expired now) (btree_values t)))).

(** ** Reads *)

Definition pg_get (id : JobId) t : result ControlPlaneError Job :=
  row ← ok_or (CpNotFound (id_fmt id)) (t !! id_fmt id);
  job_from_row row.
Definition newer_le (a b : JobRow) : bool :=
  bool_decide (jr_updated_at b < jr_updated_at a) ||
  (bool_decide (jr_updated_at a = jr_updated_at b) && bool_decide (jr_enqueued_at b ≤ jr_enqueued_at a)).
Definition latest_for_target (target : string) t : result ControlPlaneError (option Job) :=
  match min_by newer_le (List.filter (λ r, bool_decide (jr_target r = target)) (btree_values t)) with
  | Some row => job ← job_from_row row; Ok (Some job)
  | None => Ok None
  end.
(** [SELECT id ... WHERE status = 'dead' ORDER BY updated_at]; rows with one
    [updated_at] in the order of the table. *)
Definition updated_le (a b : JobRow) : Prop := jr_updated_at a ≤ jr_updated_at b.
#[local] Instance updated_le_dec a b : Decision (updated_le a b).
Proof. unfold updated_le. apply _. Defined.
Definition pg_dead_letters t : result ControlPlaneError (list JobId) :=
  parse_all (map jr_id (merge_sort updated_le
    (List.filter (λ r, bool_decide (jr_status r = "dead")) (btree_values t)))).
Definition pg_is_quiet t : bool :=
  negb (existsb (λ r, bool_decide (jr_status r ∈ ["queued"; "paused"; "running"])) (btree_values t)).
End Statements.

(* ------------------------------------------------------------------ *)
(** * The table as a state machine *)

(** One statement of some worker or operator. *)
Inductive PgOp :=
| PgEnqueue (fresh : JobId) (target : string) (action : JobAction) (version : Z)
    (policy : RetryPolicy) (at_ : DateTime)
| PgClaim (visible : list string) (worker : string) (now : DateTime) (lease : Duration)
| PgComplete (id : JobId) (worker : string) (now : DateTime)
| PgFail (id : JobId) (worker error : string) (now : DateTime)
| PgPause (id : JobId) (now : DateTime)
| PgResume (id : JobId) (now : DateTime)
| PgRequeue (id : JobId) (now : DateTime)
| PgRecover (now : DateTime).

(** The worker a statement acts for. *)
Definition op_worker (op : PgOp) : option string :=
  match op with
  | PgClaim _ w _ _ | PgComplete _ w _ | PgFail _ w _ _ => Some w
  | _ => None
  end.
(** The row a statement may add. *)
Definition new_slot `{UuidLib} (op : PgOp) : option string :=
  match op with PgEnqueue fresh _ _ _ _ _ => Some (id_fmt fresh) | _ => None end.

Section Machine.
Context `{UuidLib} `{JsonLib} `{!Serde RetryPolicy} `{Chrono} `{PgTime}.
Implicit Types (t : gmap string JobRow) (id : JobId).

Definition table_of {A} (o : outcome (gmap string JobRow * A)) : outcome (gmap string JobRow) :=
  '(t, _) ← o; Done t.
Definition run_pg_op (op : PgOp) t : outcome (gmap string JobRow) :=
  match op with
  | PgEnqueue fresh target action version policy at_ =>
      table_of (pg_enqueue fresh target action version policy at_ t)
  | PgClaim visible w now lease => table_of (pg_claim_next visible w now lease t)
  | PgComplete id w now => table_of (pg_complete id w now t)
  | PgFail id w error now => table_of (pg_fail id w error now t)
  | PgPause id now => table_of (pg_pause id now t)
  | PgResume id now => table_of (pg_resume id now t)
  | PgRequeue id now => table_of (pg_requeue id now t)
  | PgRecover now => table_of (recover_expired_leases now t)
  end.
Definition pg_step t t' : Prop := ∃ op, run_pg_op op t = Done t'.
Definition pg_reachable t : Prop := rtc pg_step ∅ t.

(** A row decodes to a job stored under its own identifier, counts attempts
    within an [integer] column, and carries a lease exactly while it runs. *)
Record row_wf (k : string) (r : JobRow) : Prop := {
  rw_job : ∃ j, job_from_row r = Ok j ∧ k = id_fmt (job_id j);
  rw_id : jr_id r = k;
  rw_attempts : 0 ≤ jr_attempts r ≤ i32_max;
  rw_started : jr_status r = "running" → 1 ≤ jr_attempts r;
  rw_owner : jr_status r = "running" ↔ is_Some (lease_owner r);
  rw_expires : is_Some (lease_owner r) ↔ is_Some (lease_expires_at r);
}.
Record table_wf t : Prop := {
  tw_rows : ∀ k r, t !! k = Some r → row_wf k r;
  tw_keys : ∀ k1 k2 r1 r2, t !! k1 = Some r1 → t !! k2 = Some r2 → jr_key r1 = jr_key r2 → k1 = k2;
}.

(** The rows a statement may move: a claim takes a queued row that is due, the
    others the row they name, in the status they require and, for a running one,
    under the worker's own lease. *)
Definition may_move (op : PgOp) (k : string) (r : JobRow) : Prop :=
  match op with
  | PgClaim _ _ now _ => row_claimable now r = true
  | PgComplete id w _ | PgFail id w _ _ =>
      k = id_fmt id ∧ jr_status r = "running" ∧ lease_owner r = Some w
  | PgPause id _ => k = id_fmt id ∧ jr_status r = "queued"
  | PgResume id _ => k = id_fmt id ∧ jr_status r = "paused"
  | PgRequeue id _ => k = id_fmt id ∧ jr_status r = "dead"
  | PgEnqueue _ _ _ _ _ _ | PgRecover _ => False
  end.

(** What a statement may do to one row: nothing; add it, queued, under a key no
    row has; move its job along an edge of the job machine, if it may move that
    row; or hand an expired lease back. *)
Inductive row_effect (op : PgOp) t (k : string) : option JobRow → option JobRow → Prop :=
| row_same o : row_effect op t k o o
| row_new r j :
    new_slot op = Some k → job_from_row r = Ok j → k = id_fmt (job_id j) → jr_id r = k →
    job_status j = Queued → jr_attempts r = 0 →
    lease_owner r = None → lease_expires_at r = None →
    (∀ k' r', t !! k' = Some r' → jr_key r' ≠ jr_key r) →
    row_effect op t k None (Some r)
| row_change r j s att next le ow ex u :
    job_from_row r = Ok j → 0 ≤ att ≤ i32_max →
    job_change j (job_update j s att next le u) →
    may_move op k r →
    (if decide (s = Running) then 1 ≤ att ∧ is_Some ow ∧ is_Some ex ∧ ow = op_worker op
     else ow = None ∧ ex = None) →
    row_effect op t k (Some r) (Some (row_update r (status_name s) att next le ow ex u))
| row_recover r j now :
    op = PgRecover now → job_from_row r = Ok j → job_status j = Running →
    lease_expired now r = true →
    row_effect op t k (Some r) (Some (recovered_row now r)).
End Machine.

(* ------------------------------------------------------------------ *)
(** * Facts *)

Section Facts.
Context `{UuidLaws} `{JsonLib} `{!Serde RetryPolicy} `{!SerdeLaws RetryPolicy} `{Chrono} `{PgTime}.
Implicit Types (t : gmap string JobRow) (id : JobId) (r : JobRow) (j : Job).

Lemma status_name_from s : status_from_name (status_name s) = Ok s.
Proof. by destruct s. Qed.
Lemma status_from_name_inv n s : status_from_name n = Ok s → n = status_name s.
Proof.
  unfold status_from_name. case_match eqn:E; [|done]. intros [= <-].
  apply find_Some_elem in E as [_ E]. by apply bool_decide_eq_true in E.
Qed.
Lemma action_from_as_str a : action_from_name (JobAction_as_str a) = Ok a.
Proof. by destruct a. Qed.
Lemma parse_job_id_fmt id : parse_job_id (id_fmt id) = Ok id.
Proof.
  unfold parse_job_id. change (JobId_from_str (id_fmt id)) with (@id_from_str _ KJob (id_fmt id)).
  by rewrite id_round_trip.
Qed.

Lemma i32_as_u32_id z : 0 ≤ z ≤ i32_max → i32_as_u32 z = z.
Proof. intros ?. apply Z.mod_small. unfold i32_max, u32_max in *. lia. Qed.

Lemma job_from_row_inv r j :
  job_from_row r = Ok j →
  jr_status r = status_name (job_status j) ∧ job_attempts j = i32_as_u32 (jr_attempts r) ∧
  read_policy (jr_policy r) = Ok (job_policy j) ∧ job_key j = jr_key r.
Proof.
  unfold job_from_row. intros E. run_op E.
  split; [by apply status_from_name_inv|done].
Qed.
Lemma job_from_row_running r j :
  job_from_row r = Ok j → jr_status r = "running" ↔ job_status j = Running.
Proof. intros [-> _]%job_from_row_inv. by destruct (job_status j). Qed.

(** Assigning columns of a row is assigning fields of its job. *)
Lemma job_from_row_update r j s att next le ow ex u :
  job_from_row r = Ok j → 0 ≤ att ≤ i32_max →
  job_from_row (row_update r (status_name s) att next le ow ex u)
  = Ok (job_update j s att next le u).
Proof.
  intros E Hatt. unfold job_from_row in E. run_op E. unfold job_from_row. unfold_monad.
  repeat match goal with E : _ = Ok _ |- _ => rewrite E; clear E end.
  rewrite status_name_from, i32_as_u32_id by done. done.
Qed.

(** ** Every statement has the effects *)

Lemma insert_effect op t k0 r' k :
  row_effect op t k0 (t !! k0) (Some r') → row_effect op t k (t !! k) (<[k0:=r']> t !! k).
Proof.
  intros He. destruct (decide (k0 = k)) as [->|Hne].
  - by rewrite lookup_insert_eq.
  - rewrite lookup_insert_ne by done. apply row_same.
Qed.

(** A row the table holds, with its job. *)
Lemma row_lookup t k r :
  table_wf t → t !! k = Some r →
  ∃ j, job_from_row r = Ok j ∧ k = id_fmt (job_id j) ∧ jr_id r = k ∧
    jr_status r = status_name (job_status j) ∧ job_attempts j = jr_attempts r ∧
    0 ≤ jr_attempts r ≤ i32_max ∧ (job_status j = Running → 1 ≤ jr_attempts r) ∧
    (job_status j ≠ Running → lease_owner r = None ∧ lease_expires_at r = None).
Proof.
  intros Hwf Hk. destruct (tw_rows _ Hwf _ _ Hk) as [(j & Hj & Hkey) Hid Ha Hs Ho Hx].
  exists j. pose proof (job_from_row_running _ _ Hj) as Hr.
  destruct (job_from_row_inv _ _ Hj) as (Hst & Hatt & _).
  rewrite i32_as_u32_id in Hatt by done. split_and!; try done; try tauto.
  intros Hn. destruct (lease_owner r) as [o|]; [naive_solver|].
  destruct (lease_expires_at r); [|done]. by destruct (proj2 Hx).
Qed.

Lemma with_key_spec key t :
  match with_key key t with
  | Some r => ∃ k, t !! k = Some r ∧ jr_key r = key
  | None => ∀ k r, t !! k = Some r → jr_key r ≠ key
  end.
Proof.
  unfold with_key. case_match eqn:E.
  - apply find_Some_elem in E as [(k & Hk)%elem_of_btree_values Hp%bool_decide_eq_true]. eauto.
  - intros k r Hk. rewrite find_None_elem in E.
    apply (bool_decide_eq_false (jr_key r = key)), E, elem_of_btree_values. eauto.
Qed.

Lemma enqueue_effect fresh target action version policy at_ t t' k :
  let op := PgEnqueue fresh target action version policy at_ in
  table_wf t → run_pg_op op t = Done t' → row_effect op t k (t !! k) (t' !! k).
Proof.
  intros op Hwf Hrun. simpl in Hrun. unfold table_of, pg_enqueue in Hrun.
  pose proof (with_key_spec (IdempotencyKey_new target action version) t) as Hkey.
  unfold_monad_in Hrun.
  destruct (to_value policy) as [v|] eqn:Hpol; simplify_eq/=; [|apply row_same].
  destruct (with_key _ t) as [r|].
  { destruct (parse_job_id (jr_id r)); simplify_eq/=; apply row_same. }
  case_decide as Hin; simplify_eq/=; [apply row_same|].
  apply insert_effect. apply eq_None_not_Some in Hin as ->.
  apply (row_new _ _ _ _ (mkJob fresh target action (IdempotencyKey_new target action version)
    Queued 0 policy (pg_time at_) None (pg_time at_) (pg_time at_))); try done.
  unfold job_from_row, read_policy. unfold_monad.
  rewrite (to_from_value _ _ Hpol), parse_job_id_fmt, action_from_as_str. done.
Qed.

Lemma row_due_total a b : row_due_le a b = false → row_due_le b a = true.
Proof.
  unfold row_due_le. rewrite orb_false_iff, orb_true_iff, andb_false_iff, andb_true_iff.
  rewrite !bool_decide_eq_true, !bool_decide_eq_false. lia.
Qed.
Lemma row_due_trans a b c : row_due_le a b = true → row_due_le b c = true → row_due_le a c = true.
Proof.
  unfold row_due_le. rewrite !orb_true_iff, !andb_true_iff, !bool_decide_eq_true. lia.
Qed.

Lemma candidate_spec visible now t :
  match candidate visible now t with
  | Some r => (∃ k, k ∈ visible ∧ t !! k = Some r) ∧ row_claimable now r = true ∧
      ∀ k' r', k' ∈ visible → t !! k' = Some r' → row_claimable now r' = true →
        row_due_le r r' = true
  | None => ∀ k r, k ∈ visible → t !! k = Some r → row_claimable now r = false
  end.
Proof.
  assert (∀ r, r ∈ List.filter (row_claimable now) (omap (λ k, t !! k) visible) ↔
            row_claimable now r = true ∧ ∃ k, k ∈ visible ∧ t !! k = Some r) as Hin.
  { intros r. rewrite elem_of_lfilter, list_elem_of_omap. naive_solver. }
  unfold candidate. destruct (min_by _ _) as [r|] eqn:E.
  - destruct (min_by_Some _ row_due_total row_due_trans _ _ E) as [[? ?]%Hin Hmin].
    split_and!; [done..|]. intros k' r' Hv Hk' Hc. apply Hmin, Hin. eauto.
  - apply min_by_None in E. intros k r Hv Hk. apply not_true_iff_false. intros Hc.
    assert (r ∈ []) as []%not_elem_of_nil by (rewrite <- E; apply Hin; eauto).
Qed.

Lemma claim_cases visible w now lease t t' res :
  table_wf t → pg_claim_next visible w now lease t = Done (t', res) →
  (t' = t ∧ res = Ok None ∧
     ∀ k r, k ∈ visible → t !! k = Some r → row_claimable now r = false) ∨
  (t' = t ∧ ∃ r, candidate visible now t = Some r ∧ jr_attempts r = i32_max ∧
     res = Err (CpDatabase "integer out of range")) ∨
  (∃ k r j e, let r' := row_update r "running" (jr_attempts r + 1) (jr_next_attempt_at r)
                          (jr_last_error r) (Some w) (Some (pg_time e)) (pg_time now) in
     k ∈ visible ∧ t !! k = Some r ∧ job_from_row r = Ok j ∧ job_status j = Queued ∧
     row_claimable now r = true ∧
     (∀ k' r', k' ∈ visible → t !! k' = Some r' → row_claimable now r' = true →
        row_due_le r r' = true) ∧
     datetime_add now lease = Done e ∧ jr_attempts r < i32_max ∧ t' = <[k := r']> t ∧
     let j' := job_update j Running (jr_attempts r + 1) (jr_next_attempt_at r)
                 (jr_last_error r) (pg_time now) in
     job_from_row r' = Ok j' ∧
     res = Ok (Some {| cj_job := j'; cj_lease_owner := w; cj_lease_expires_at := pg_time e |})).
Proof.
  intros Hwf Hrun. unfold pg_claim_next in Hrun. unfold_monad_in Hrun.
  destruct (datetime_add now lease) as [e|] eqn:He; [|done].
  pose proof (candidate_spec visible now t) as Hc.
  destruct (candidate visible now t) as [r|] eqn:Ec; [|left; naive_solver].
  destruct Hc as ((k & Hv & Hk) & Hcl & Hmin).
  case_decide as Hmax; [right; left; naive_solver|]. right. right.
  destruct (row_lookup _ _ _ Hwf Hk) as (j & Hj & _ & Hid & Hst & _ & Ha & _ & _).
  assert (job_status j = Queued) as Hq.
  { unfold row_claimable in Hcl. apply andb_true_iff in Hcl as [Hcl%bool_decide_eq_true _].
    rewrite Hst in Hcl. by destruct (job_status j). }
  pose proof (job_from_row_update r j Running (jr_attempts r + 1) (jr_next_attempt_at r)
    (jr_last_error r) (Some w) (Some (pg_time e)) (pg_time now) Hj ltac:(lia)) as Hd.
  simpl status_name in Hd. rewrite Hd in Hrun. simplify_eq/=.
  exists (jr_id r), r, j, e. split_and!; try done; lia.
Qed.

Lemma claim_effect visible w now lease t t' k :
  let op := PgClaim visible w now lease in
  table_wf t → run_pg_op op t = Done t' → row_effect op t k (t !! k) (t' !! k).
Proof.
  intros op Hwf Hrun. simpl in Hrun. unfold table_of in Hrun.
  destruct (pg_claim_next visible w now lease t) as [[t1 res]|] eqn:Ec; [|done].
  unfold_monad_in Hrun. injection Hrun as ->.
  apply claim_cases in Ec as [(-> & _ & _)|[(-> & _)|Hc]]; [apply row_same..| |done].
  destruct Hc as (k0 & r & j & e & _ & Hk & Hj & Hq & Hcl & _ & _ & Hlt & -> & _).
  apply insert_effect. rewrite Hk.
  destruct (row_lookup _ _ _ Hwf Hk) as (j' & Hj' & _ & _ & _ & Hatt & Ha & _ & _).
  assert (j' = j) as -> by congruence. change "running" with (status_name Running).
  eapply row_change; [done|lia| |done|].
  - split; [done|]. rewrite Hq. simpl. lia.
  - rewrite decide_True by done. split_and!; try done; lia.
Qed.

Lemma held_by_spec id w t r :
  held_by id w t = Some r ↔
  t !! id_fmt id = Some r ∧ jr_status r = "running" ∧ lease_owner r = Some w.
Proof.
  unfold held_by. unfold mbind, option_bind. destruct (t !! id_fmt id) as [r'|]; [|naive_solver].
  case_decide; naive_solver.
Qed.

(** The effect of moving one job the statement found. *)
Lemma row_move_effect op t k0 r j s att next le u k :
  table_wf t → t !! k0 = Some r → job_from_row r = Ok j → 0 ≤ att ≤ i32_max → s ≠ Running →
  may_move op k0 r →
  job_change j (job_update j s att next le u) →
  row_effect op t k (t !! k)
    (<[k0 := row_update r (status_name s) att next le None None u]> t !! k).
Proof.
  intros Hwf Hk Hj Ha Hs Hw Hc. apply insert_effect. rewrite Hk.
  eapply row_change; [done..|]. by rewrite decide_False.
Qed.

Lemma complete_effect id w now t t' k :
  let op := PgComplete id w now in
  table_wf t → run_pg_op op t = Done t' → row_effect op t k (t !! k) (t' !! k).
Proof.
  intros op Hwf Hrun. simpl in Hrun. unfold table_of, pg_complete in Hrun. unfold_monad_in Hrun.
  destruct (held_by id w t) as [r|] eqn:E; simplify_eq/=; [|apply row_same].
  apply held_by_spec in E as (Hk & Hst & Ho).
  destruct (row_lookup _ _ _ Hwf Hk) as (j & Hj & _ & _ & _ & Hatt & Ha & _ & _).
  assert (job_status j = Running) as Hst' by by apply (job_from_row_running _ _ Hj).
  apply (row_move_effect _ _ _ _ j Succeeded); try done.
  split; [done|]. by rewrite Hst'.
Qed.

Lemma fail_effect id w error now t t' k :
  let op := PgFail id w error now in
  table_wf t → run_pg_op op t = Done t' → row_effect op t k (t !! k) (t' !! k).
Proof.
  intros op Hwf Hrun. simpl in Hrun. unfold table_of, pg_fail in Hrun. unfold_monad_in Hrun.
  destruct (held_by id w t) as [r|] eqn:E; simplify_eq/=; [|apply row_same].
  apply held_by_spec in E as (Hk & Hst & Ho).
  destruct (row_lookup _ _ _ Hwf Hk) as (j & Hj & _ & _ & _ & Hatt & Ha & Hpos & _).
  assert (job_status j = Running) as Hst' by by apply (job_from_row_running _ _ Hj).
  specialize (Hpos Hst').
  destruct (job_from_row_inv _ _ Hj) as (_ & _ & Hpol & _). rewrite Hpol in Hrun.
  simpl in Hrun. rewrite Z.max_l in Hrun by lia.
  case_decide as Hmax; [|run_op Hrun]; simplify_eq/=.
  - apply (row_move_effect _ _ _ _ j Dead); try done. split; [done|]. rewrite Hst'. simpl. lia.
  - apply (row_move_effect _ _ _ _ j Queued); try done. split; [done|]. rewrite Hst'. simpl. lia.
Qed.

Lemma transition_effect op id from to_ now reset t t' k :
  table_wf t → from ≠ Running → to_ ≠ Running →
  (∀ r, jr_status r = status_name from → may_move op (id_fmt id) r) →
  (∀ j next, job_status j = from →
     job_change j (job_update j to_ (job_attempts j) next (job_last_error j) (pg_time now))) →
  table_of (transition id (status_name from) (status_name to_) now reset t) = Done t' →
  row_effect op t k (t !! k) (t' !! k).
Proof.
  intros Hwf Hf Ht Hm Hc Hrun. unfold table_of, transition in Hrun. unfold_monad_in Hrun.
  destruct (t !! id_fmt id) as [r|] eqn:Hk; simplify_eq/=; [|apply row_same].
  case_decide as Hst; simplify_eq/=; [|apply row_same].
  destruct (row_lookup _ _ _ Hwf Hk) as (j & Hj & _ & _ & Hst' & Hatt & Ha & _ & Hlease).
  assert (job_status j = from) as Hfrom
    by (rewrite Hst in Hst'; by destruct (job_status j), from).
  destruct Hlease as [-> ->]; [by rewrite Hfrom|].
  apply (row_move_effect _ _ _ _ j); try done; [by apply Hm|].
  rewrite <- Hatt. replace (jr_last_error r) with (job_last_error j); [by apply Hc|].
  unfold job_from_row in Hj. by run_op Hj.
Qed.

Lemma requeue_effect id now t t' k :
  let op := PgRequeue id now in
  table_wf t → run_pg_op op t = Done t' → row_effect op t k (t !! k) (t' !! k).
Proof.
  intros op Hwf Hrun. simpl in Hrun. unfold table_of, pg_requeue in Hrun. unfold_monad_in Hrun.
  destruct (t !! id_fmt id) as [r|] eqn:Hk; simplify_eq/=; [|apply row_same].
  case_decide as Hst; simplify_eq/=; [|apply row_same].
  destruct (row_lookup _ _ _ Hwf Hk) as (j & Hj & _ & _ & Hst' & _).
  assert (job_status j = Dead) as Hd by (rewrite Hst in Hst'; by destruct (job_status j)).
  apply (row_move_effect _ _ _ _ j Queued); try done.
  split; [done|]. by rewrite Hd.
Qed.

Lemma recover_effect now t t' k :
  let op := PgRecover now in
  table_wf t → run_pg_op op t = Done t' → row_effect op t k (t !! k) (t' !! k).
Proof.
  intros op Hwf Hrun. simpl in Hrun. unfold table_of, recover_expired_leases in Hrun.
  unfold_monad_in Hrun.
  assert (t' = (λ r, if lease_expired now r then recovered_row now r else r) <$> t) as ->
    by congruence.
  rewrite lookup_fmap. destruct (t !! k) as [r|] eqn:Hk; simpl; [|apply row_same].
  destruct (lease_expired now r) eqn:Hx; [|apply row_same].
  destruct (row_lookup _ _ _ Hwf Hk) as (j & Hj & _).
  eapply row_recover; [done..| |done]. apply (job_from_row_running _ _ Hj).
  unfold lease_expired in Hx. by apply andb_true_iff in Hx as [Hx%bool_decide_eq_true _].
Qed.

Lemma pg_op_effect op t t' k :
  table_wf t → run_pg_op op t = Done t' → row_effect op t k (t !! k) (t' !! k).
Proof.
  intros Hwf Hrun. destruct op.
  - by apply enqueue_effect.
  - by apply claim_effect.
  - by apply complete_effect.
  - by apply fail_effect.
  - apply (transition_effect _ id Queued Paused now false); try done.
    intros j next Hj. split; [done|]. by rewrite Hj.
  - apply (transition_effect _ id Paused Queued now true); try done.
    intros j next Hj. split; [done|]. by rewrite Hj.
  - by apply requeue_effect.
  - by apply recover_effect.
Qed.

(** ** The invariant *)

Lemma row_update_wf k r j s att next le ow ex u :
  row_wf k r → job_from_row r = Ok j → 0 ≤ att ≤ i32_max →
  (if decide (s = Running) then 1 ≤ att ∧ is_Some ow ∧ is_Some ex ∧ True
   else ow = None ∧ ex = None) →
  row_wf k (row_update r (status_name s) att next le ow ex u).
Proof.
  intros [(j' & Hj' & Hk) Hid _ _ _ _] Hj Ha Hl. assert (j' = j) as -> by congruence.
  assert (status_name s = "running" ↔ s = Running) as Hs by by destruct s.
  split; simpl; try done.
  - eexists. split; [by apply job_from_row_update|]. done.
  - intros ?%Hs. rewrite decide_True in Hl by done. tauto.
  - rewrite Hs. case_decide; [naive_solver|]. destruct Hl as [-> _].
    by rewrite is_Some_alt.
  - case_decide; [naive_solver|]. by destruct Hl as [-> ->].
Qed.

Lemma effect_row_wf op t k o o' :
  (∀ r, o = Some r → row_wf k r) → row_effect op t k o o' → ∀ r, o' = Some r → row_wf k r.
Proof.
  intros Hwf He r' Hr'.
  destruct He as [o|r j _ Hj Hk Hid Hst Ha Ho Hx _|r j s att next le ow ex u Hj Ha _ _ Hl
                 |r j now _ Hj Hst _]; simplify_eq.
  - by apply Hwf.
  - destruct (job_from_row_inv _ _ Hj) as (Hst' & _). rewrite Hst in Hst'.
    split; rewrite ?Ha, ?Ho, ?Hx, ?Hst'; try done.
    by exists j.
  - eapply row_update_wf; eauto. case_decide; naive_solver.
  - pose proof (Hwf _ eq_refl) as Hw. change (recovered_row now r) with
      (row_update r (status_name Queued) (jr_attempts r) (jr_next_attempt_at r)
        (Some "lease expired; job recovered for re-claim") None None (pg_time now)).
    eapply row_update_wf; [done|done|apply Hw|done].
Qed.

(** The idempotency key of a row never changes, and a new row's is unused. *)
Lemma effect_keys op t k o o' r' :
  row_effect op t k o o' → o' = Some r' →
  (∃ r, o = Some r ∧ jr_key r = jr_key r') ∨
  (new_slot op = Some k ∧ ∀ k0 r0, t !! k0 = Some r0 → jr_key r0 ≠ jr_key r').
Proof. destruct 1; intros; simplify_eq; eauto. Qed.

Lemma pg_step_wf t t' : table_wf t → pg_step t t' → table_wf t'.
Proof.
  intros Hwf [op Hrun]. assert (∀ k, row_effect op t k (t !! k) (t' !! k)) as He
    by (intros k; by apply pg_op_effect).
  split.
  - intros k r Hr. eapply effect_row_wf; [|exact (He k)|exact Hr]. intros r0. apply Hwf.
  - intros k1 k2 r1 r2 H1' H2' Hk.
    destruct (effect_keys _ _ _ _ _ _ (He k1) H1') as [(s1 & Hs1 & E1)|[N1 F1]],
      (effect_keys _ _ _ _ _ _ (He k2) H2') as [(s2 & Hs2 & E2)|[N2 F2]].
    + eapply (tw_keys _ Hwf); [exact Hs1|exact Hs2|congruence].
    + by destruct (F2 _ _ Hs1); congruence.
    + by destruct (F1 _ _ Hs2); congruence.
    + congruence.
Qed.
Lemma pg_reachable_wf t : pg_reachable t → table_wf t.
Proof.
  unfold pg_reachable. intros Hr. assert (table_wf ∅) as Hwf.
  { split; intros *; by rewrite lookup_empty. }
  revert Hwf. induction Hr; eauto using pg_step_wf.
Qed.

(** C36: whatever statements workers and operators issue, every row of the
    jobs table decodes to a job stored under its own identifier whose attempt
    count is the stored one, a row carries a lease owner and an expiry exactly
    while its job is running (and then it has been attempted), and no two jobs,
    in flight or finished, share an idempotency key. *)
Theorem durable_table_sound t :
  pg_reachable t →
  (∀ k r, t !! k = Some r → ∃ j, job_from_row r = Ok j ∧ k = id_fmt (job_id j) ∧
     job_attempts j = jr_attempts r ∧ (job_status j = Running → 1 ≤ job_attempts j) ∧
     (job_status j = Running ↔ is_Some (lease_owner r)) ∧
     (job_status j = Running ↔ is_Some (lease_expires_at r))) ∧
  (∀ k1 k2 r1 r2, t !! k1 = Some r1 → t !! k2 = Some r2 → jr_key r1 = jr_key r2 → k1 = k2).
Proof.
  intros Hwf%pg_reachable_wf. split; [|apply Hwf]. intros k r Hr.
  destruct (row_lookup _ _ _ Hwf Hr) as (j & Hj & Hk & _ & _ & Hatt & _ & Hpos & _).
  pose proof (tw_rows _ Hwf _ _ Hr) as Hw. pose proof (job_from_row_running _ _ Hj) as Hrun.
  exists j. rewrite Hatt. split_and!; try done; rewrite <- Hrun, rw_owner by done; [done|].
  by apply Hw.
Qed.

(** C1: the durable queue implements the job machine of the core queue
    row by row: every statement on a reachable table leaves a row alone, adds a
    queued one under an unused key, moves its job along an edge of the machine
    (a running job only for the worker that holds its lease), or hands an
    expired lease back. *)
Theorem durable_queue_refines_job_machine op t t' k :
  pg_reachable t → run_pg_op op t = Done t' → row_effect op t k (t !! k) (t' !! k).
Proof. intros Hwf%pg_reachable_wf. by apply pg_op_effect. Qed.

(** ** Leases *)

(** A run of statements none of which completes or fails the job [id] for the
    worker [w], and each recovery of which comes before [e]. *)
Definition leaves_lease (id : JobId) (w : string) (e : DateTime) (op : PgOp) : Prop :=
  match op with
  | PgComplete id' w' _ | PgFail id' w' _ _ => ¬ (id' = id ∧ w' = w)
  | PgRecover now => pg_time now < e
  | _ => True
  end.
Inductive lease_run (id : JobId) (w : string) (e : DateTime) :
    gmap string JobRow → gmap string JobRow → Prop :=
| lr_done t : lease_run id w e t t
| lr_step op t t' t'' :
    leaves_lease id w e op → run_pg_op op t = Done t' → lease_run id w e t' t'' →
    lease_run id w e t t''.

Definition leased_row (w : string) (e : DateTime) (r : JobRow) : Prop :=
  jr_status r = "running" ∧ lease_owner r = Some w ∧ lease_expires_at r = Some e.

Lemma leased_row_kept id w e op t t' r :
  table_wf t → t !! id_fmt id = Some r → leased_row w e r → leaves_lease id w e op →
  run_pg_op op t = Done t' → t' !! id_fmt id = Some r.
Proof.
  intros Hwf Hr (Hst & Ho & Hx) Hop Hrun.
  pose proof (pg_op_effect op t t' (id_fmt id) Hwf Hrun) as He. rewrite Hr in He.
  inversion He as [o|r' j Hnew|r' j s att next le ow ex u Hj _ _ Hm _|r' j now -> Hj _ Hexp];
    simplify_eq; [done|..].
  - exfalso. destruct op; simpl in Hm, Hop; destruct_and?; try congruence; try done.
    + unfold row_claimable in Hm. rewrite Hst in Hm. done.
    + apply Hop. split; [by apply (inj id_fmt)|congruence].
    + apply Hop. split; [by apply (inj id_fmt)|congruence].
  - exfalso. unfold lease_expired in Hexp. rewrite Hx in Hexp. simpl in Hop.
    apply andb_true_iff in Hexp as [_ ?%bool_decide_eq_true]. lia.
Qed.
Lemma lease_run_kept id w e t t' r :
  table_wf t → t !! id_fmt id = Some r → leased_row w e r → lease_run id w e t t' →
  table_wf t' ∧ t' !! id_fmt id = Some r.
Proof.
  intros Hwf Hr Hl Hrun. induction Hrun as [|op t t' t'' Hop Hstep _ IH]; [done|].
  apply IH; [by eapply pg_step_wf; [|exists op]|by eapply leased_row_kept].
Qed.
Lemma not_held_refused id w t : held_by id w t = None →
  (∀ now, pg_complete id w now t = Done (t, Err (not_held id w))) ∧
  (∀ error now, pg_fail id w error now t = Done (t, Err (not_held id w))).
Proof.
  intros Hh. split; intros; unfold pg_complete, pg_fail; unfold_monad; by rewrite Hh.
Qed.

(** C2: exactly one worker holds a claimed job: until it completes or fails
    the job itself, or a recovery runs at or after the lease's expiry, no
    statement of anyone (claims by any worker included) touches the row; every
    other worker's completion or failure report is refused without effect, and
    the holder's completion succeeds. *)
Theorem lease_protects_claim visible w now lease t t1 c t2 :
  let id := job_id (cj_job c) in
  pg_reachable t → pg_claim_next visible w now lease t = Done (t1, Ok (Some c)) →
  lease_run id w (cj_lease_expires_at c) t1 t2 →
  t2 !! id_fmt id = t1 !! id_fmt id ∧
  (∀ w', w' ≠ w →
     (∀ now', pg_complete id w' now' t2 = Done (t2, Err (not_held id w'))) ∧
     (∀ error now', pg_fail id w' error now' t2 = Done (t2, Err (not_held id w')))) ∧
  (∀ now', ∃ t3 r, pg_complete id w now' t2 = Done (t3, Ok tt) ∧
     t3 !! id_fmt id = Some r ∧ jr_status r = "succeeded").
Proof.
  intros id Hwf%pg_reachable_wf Hclaim Hrun.
  assert (table_wf t1) as Hwf1.
  { eapply pg_step_wf; [exact Hwf|]. exists (PgClaim visible w now lease).
    simpl. by rewrite Hclaim. }
  destruct (claim_cases _ _ _ _ _ _ _ Hwf Hclaim) as [(_ & Hn & _)|[(_ & _ & _ & _ & Hn)|Hc]];
    [done..|].
  destruct Hc as (k & r & j & e & _ & Hk & Hj & _ & _ & _ & _ & _ & Ht1 & _ & [= Hceq]).
  destruct (row_lookup _ _ _ Hwf Hk) as (j' & Hj' & Hkid & _). assert (j' = j) as -> by congruence.
  assert (k = id_fmt id) as -> by (unfold id; by rewrite Hceq).
  rewrite Hceq in Hrun. simpl in Hrun.
  destruct (lease_run_kept _ _ _ _ _ _ Hwf1 ltac:(rewrite Ht1; apply lookup_insert_eq)
              ltac:(done) Hrun) as [Hwf2 Hrow].
  split; [by rewrite Hrow, Ht1, lookup_insert_eq|]. split.
  - intros w' Hw. apply not_held_refused. destruct (held_by id w' t2) eqn:Hh; [|done].
    apply held_by_spec in Hh as (Hr' & _ & Ho). rewrite Hrow in Hr'. by simplify_eq/=.
  - intros now'. unfold pg_complete. unfold_monad.
    rewrite (proj2 (held_by_spec id w t2 _)) by done.
    eexists _, _. split; [done|]. by rewrite lookup_insert_eq.
Qed.

(** ** Recovery *)

Lemma parse_all_elem l ids s id :
  parse_all l = Ok ids → s ∈ l → parse_job_id s = Ok id → id ∈ ids.
Proof.
  revert ids. induction l as [|x l IH]; intros ids E Hs Hp; [by apply not_elem_of_nil in Hs|].
  simpl in E. unfold_monad_in E. destruct (parse_job_id x) eqn:Ex; [|done].
  destruct (parse_all l); [|done]. simplify_eq/=. rewrite elem_of_cons.
  apply elem_of_cons in Hs as [->|Hs]; [left; congruence|right; by apply IH].
Qed.
Lemma parse_all_ok l : Forall (λ s, ∃ id, s = id_fmt (id : JobId)) l → ∃ ids, parse_all l = Ok ids.
Proof.
  induction 1 as [|s l [id ->] _ [ids IH]]; simpl; [by eexists|].
  unfold_monad. rewrite parse_job_id_fmt, IH. eauto.
Qed.

Lemma recover_ok now t :
  table_wf t →
  ∃ ids, recover_expired_leases now t =
    Done ((λ r, if lease_expired now r then recovered_row now r else r) <$> t, Ok ids) ∧
  ∀ k r j, t !! k = Some r → lease_expired now r = true → job_from_row r = Ok j →
    job_id j ∈ ids.
Proof.
  intros Hwf.
  destruct (parse_all_ok (map jr_id (List.filter (lease_expired now) (btree_values t))))
    as [ids Hids].
  { apply Forall_forall. intros s (r & -> & Hin)%list_elem_of_fmap.
    apply elem_of_lfilter in Hin as [(k & Hk)%elem_of_btree_values _].
    destruct (row_lookup _ _ _ Hwf Hk) as (j & _ & Hkj & -> & _). by exists (job_id j). }
  exists ids. split.
  { unfold recover_expired_leases. unfold_monad. by rewrite Hids. }
  intros k r j Hk Hexp Hj. eapply (parse_all_elem _ _ (jr_id r)); [exact Hids|..].
  - apply list_elem_of_fmap. exists r. split; [done|]. apply elem_of_lfilter.
    rewrite elem_of_btree_values. eauto.
  - unfold job_from_row in Hj. by run_op Hj.
Qed.

(** With one visible row that is due, a claim takes it. *)
Lemma claim_one t k r w now lease e :
  table_wf t → t !! k = Some r → row_claimable now r = true → jr_attempts r < i32_max →
  datetime_add now lease = Done e →
  ∃ t2 c, pg_claim_next [k] w now lease t = Done (t2, Ok (Some c)) ∧
    id_fmt (job_id (cj_job c)) = k ∧ cj_lease_owner c = w ∧
    job_attempts (cj_job c) = jr_attempts r + 1 ∧
    read_policy (jr_policy r) = Ok (job_policy (cj_job c)).
Proof.
  intros Hwf Hk Hcl Hmax He.
  destruct (pg_claim_next [k] w now lease t) as [[t2 res]|] eqn:E.
  2: { unfold pg_claim_next in E. run_op E. }
  destruct (claim_cases _ _ _ _ _ _ _ Hwf E) as [(_ & _ & Hn)|[(_ & r0 & Hc & Hn & _)|Hc]].
  - rewrite (Hn k r) in Hcl; [done|set_solver|done].
  - pose proof (candidate_spec [k] now t) as Hs. rewrite Hc in Hs.
    destruct Hs as ((k' & ->%list_elem_of_singleton & Hk') & _ & _). simplify_eq. lia.
  - destruct Hc as (k' & r' & j & e' & ->%list_elem_of_singleton & Hk' & Hj & _ & _ & _ & _ & _ & -> & _ & ->).
    simplify_eq. destruct (row_lookup _ _ _ Hwf Hk) as (j' & Hj' & Hkid & _).
    assert (j' = j) as -> by congruence. destruct (job_from_row_inv _ _ Hj) as (_ & _ & Hpol & _).
    eexists _, _. split; [done|]. simpl. done.
Qed.

(** C35: a worker that dies never strands a job: once the lease of a running
    job has expired, a recovery returns its identifier and makes it claimable
    again for any worker.  The interrupted attempt stays counted, and no attempt
    budget is consulted: the next claim starts attempt number [attempts + 1]
    whatever the policy allows. *)
Theorem expired_lease_is_recovered t k r now lease e w :
  pg_reachable t → t !! k = Some r → lease_expired now r = true →
  jr_next_attempt_at r ≤ pg_time now → jr_attempts r < i32_max →
  datetime_add now lease = Done e →
  ∃ t1 ids id, recover_expired_leases now t = Done (t1, Ok ids) ∧ id ∈ ids ∧ k = id_fmt id ∧
  ∃ t2 c, pg_claim_next [k] w now lease t1 = Done (t2, Ok (Some c)) ∧
    job_id (cj_job c) = id ∧ cj_lease_owner c = w ∧
    job_attempts (cj_job c) = jr_attempts r + 1 ∧
    read_policy (jr_policy r) = Ok (job_policy (cj_job c)).
Proof.
  intros Hwf%pg_reachable_wf Hr Hexp Hdue Hmax He.
  destruct (row_lookup _ _ _ Hwf Hr) as (j & Hj & Hk & _).
  destruct (recover_ok now t Hwf) as (ids & Hrec & Hids).
  assert (table_wf ((λ r, if lease_expired now r then recovered_row now r else r) <$> t)) as Hwf1.
  { eapply pg_step_wf; [exact Hwf|]. exists (PgRecover now).
    unfold run_pg_op. by rewrite Hrec. }
  eexists _, ids, (job_id j). split; [exact Hrec|]. split; [by eapply Hids|]. split; [done|].
  destruct (claim_one _ k (recovered_row now r) w now lease e Hwf1) as (t2 & c & Hc & Hid & Hrest);
    try done.
  - rewrite lookup_fmap, Hr. simpl. by rewrite Hexp.
  - unfold row_claimable. simpl. by rewrite bool_decide_eq_true_2.
  - exists t2, c. split; [exact Hc|]. split; [|exact Hrest]. apply (inj id_fmt). congruence.
Qed.
End Facts.

(* ------------------------------------------------------------------ *)
(** * A concrete table *)

Section PgRuns.
Context `{UuidLib} `{JsonLib} `{!Serde RetryPolicy} `{Chrono} `{PgTime}.
Fixpoint run_pg_ops (ops : list PgOp) (t : gmap string JobRow) : outcome (gmap string JobRow) :=
  match ops with
  | [] => Done t
  | op :: ops => t' ← run_pg_op op t; run_pg_ops ops t'
  end.
Lemma run_pg_ops_steps ops t t' : run_pg_ops ops t = Done t' → rtc pg_step t t'.
Proof.
  revert t. induction ops as [|op ops IH]; intros t; simpl; [by intros [= ->]|]. unfold_monad.
  destruct (run_pg_op op t) eqn:E; [|done]. intros Hrest. eapply rtc_l; [by exists op|eauto].
Qed.
Lemma run_pg_ops_lease id w e ops t t' :
  Forall (leaves_lease id w e) ops → run_pg_ops ops t = Done t' → lease_run id w e t t'.
Proof.
  intros Hops. revert t. induction Hops as [|op ops Hop _ IH]; intros t; simpl;
    [intros [= ->]; apply lr_done|]. unfold_monad.
  destruct (run_pg_op op t) eqn:E; [|done]. intros Hrest. eapply lr_step; eauto.
Qed.
End PgRuns.

Module DurableExamples.
Import RefInstances RefPg.

(** Values that hold a policy or nothing. *)
#[local] Instance policy_json : JsonLib := { Json := option RetryPolicy; json_null := None }.
#[local] Instance ref_policy_serde : Serde RetryPolicy := {
  serialize p := Ok (Some p);
  deserialize v := match v with Some p => Ok p | None => Err "missing field" end;
}.
#[local] Instance ref_policy_laws : SerdeLaws RetryPolicy.
Proof. constructor. by intros p v [= <-]. Qed.

Definition j1 : JobId := mkId (uuid 1).
Definition j2 : JobId := mkId (uuid 2).
Definition once : RetryPolicy :=
  {| max_attempts := 1; base_delay := nanos_per_sec; factor := 2; max_delay := None |}.
Definition sec (n : Z) : DateTime := n * nanos_per_sec.
(** Two jobs; the first runs under worker [w1] until second 31. *)
Definition setup : list PgOp :=
  [PgEnqueue j1 "res_1" JProvision 1 once (sec 0); PgEnqueue j2 "res_2" JUpdate 1 once (sec 1)].
Definition waiting : gmap string JobRow := done_or ∅ (run_pg_ops setup ∅).
Definition claim1 := pg_claim_next [id_fmt j1; id_fmt j2] "w1" (sec 1) (sec 30) waiting.
Definition running : gmap string JobRow := done_or ∅ (table_of claim1).
Definition claimed : ClaimedJob :=
  match claim1 with
  | Done (_, Ok (Some c)) => c
  | _ => {| cj_job := mkJob j1 "" JVerify "" Dead 0 once 0 None 0 0; cj_lease_owner := "";
            cj_lease_expires_at := 0 |}
  end.
(** Meanwhile: a second worker claims, reports on the wrong job, an operator
    pauses, a recovery runs before the expiry. *)
Definition meanwhile : list PgOp :=
  [PgClaim [id_fmt j1; id_fmt j2] "w2" (sec 2) (sec 30); PgComplete j1 "w2" (sec 3);
   PgPause j1 (sec 4); PgRecover (sec 30)].

Lemma waiting_reachable : pg_reachable waiting.
Proof. apply (run_pg_ops_steps setup), is_done_eq. vm_compute. reflexivity. Qed.
Lemma claim1_eq : claim1 = Done (running, Ok (Some claimed)).
Proof. vm_compute. reflexivity. Qed.
Lemma running_reachable : pg_reachable running.
Proof.
  eapply rtc_r; [exact waiting_reachable|].
  exists (PgClaim [id_fmt j1; id_fmt j2] "w1" (sec 1) (sec 30)).
  unfold run_pg_op. fold claim1. rewrite claim1_eq. reflexivity.
Qed.

Lemma durable_table_sound_witness :
  size running = 2%nat ∧
  ∀ k r, running !! k = Some r → ∃ j, job_from_row r = Ok j ∧ k = id_fmt (job_id j).
Proof.
  split; [vm_compute; reflexivity|]. intros k r Hr.
  destruct (proj1 (durable_table_sound running running_reachable) k r Hr) as (j & Hj & Hk & _).
  exists j. split; assumption.
Defined.
Lemma durable_queue_refines_job_machine_witness :
  let t' := done_or ∅ (run_pg_op (PgRecover (sec 31)) running) in
  run_pg_op (PgRecover (sec 31)) running = Done t' ∧
  row_effect (PgRecover (sec 31)) running (id_fmt j1) (running !! id_fmt j1) (t' !! id_fmt j1).
Proof.
  intros t'. assert (run_pg_op (PgRecover (sec 31)) running = Done t') as E
    by (apply is_done_eq; vm_compute; reflexivity).
  split; [exact E|].
  exact (durable_queue_refines_job_machine _ running t' (id_fmt j1) running_reachable E).
Defined.
Lemma lease_protects_claim_witness :
  let t2 := done_or ∅ (run_pg_ops meanwhile running) in
  ∃ t3 r, pg_complete j1 "w1" (sec 5) t2 = Done (t3, Ok tt) ∧
    t3 !! id_fmt j1 = Some r ∧ jr_status r = "succeeded".
Proof.
  intros t2. assert (job_id (cj_job claimed) = j1) as Hid by (vm_compute; reflexivity).
  assert (lease_run (job_id (cj_job claimed)) "w1" (cj_lease_expires_at claimed) running t2) as Hrun.
  { apply (run_pg_ops_lease _ _ _ meanwhile); [|apply is_done_eq; vm_compute; reflexivity].
    unfold meanwhile. rewrite !Forall_cons. split_and!; [exact I| |exact I| |apply Forall_nil_2].
    - intros [_ E]. discriminate E.
    - vm_compute. reflexivity. }
  pose proof claim1_eq as Hclaim. unfold claim1 in Hclaim.
  destruct (lease_protects_claim [id_fmt j1; id_fmt j2] "w1" (sec 1) (sec 30) waiting running claimed t2
              waiting_reachable Hclaim Hrun) as (_ & _ & Hc).
  rewrite Hid in Hc. exact (Hc (sec 5)).
Defined.
(** The policy allows one attempt; after the crash the second one starts. *)
Lemma expired_lease_is_recovered_witness :
  max_attempts once = 1 ∧
  ∃ t1 ids (id : JobId) t2 c, recover_expired_leases (sec 31) running = Done (t1, Ok ids) ∧
    pg_claim_next [id_fmt id] "w2" (sec 31) (sec 30) t1 = Done (t2, Ok (Some c)) ∧
    job_attempts (cj_job c) = 2.
Proof.
  split; [reflexivity|].
  set (r := default (mkRow "" "" "" "" "" 0 json_null 0 None None None 0 0) (running !! id_fmt j1)).
  destruct (expired_lease_is_recovered running (id_fmt j1) r (sec 31) (sec 30) (sec 61) "w2"
              running_reachable) as (t1 & ids & id & Hrec & _ & Hid & t2 & c & Hc & _ & _ & Ha & _).
  - apply is_some_eq. vm_compute. reflexivity.
  - vm_compute. reflexivity.
  - vm_compute. discriminate.
  - vm_compute. reflexivity.
  - vm_compute. reflexivity.
  - exists t1, ids, id, t2, c. split; [exact Hrec|]. rewrite <- Hid. split; [exact Hc|].
    rewrite Ha. vm_compute. reflexivity.
Defined.
End DurableExamples.
