(* ===== verification/ResourceStore.v ===== *)
(** The durable resource store (repos/resources.rs of labrys-control-plane): the
    resources table, its mapping to core resources, and the observations that
    change a stored resource through its core lifecycle. *)

From stdpp Require Import base option list strings pretty gmap sorting.
From Stdlib Require Import ZArith Lia.
From S2P Require Import Prelude External Errors CpErrors Ids Resource.
Local Open Scope Z_scope.

(* ------------------------------------------------------------------ *)
(** * Rows *)

Definition phase_name (p : ResourcePhase) : string :=
  match p with
  | Requested => "requested" | Provisioning => "provisioning" | Ready => "ready"
  | Degraded => "degraded" | Failed => "failed" | Deleting => "deleting" | Deleted => "deleted"
  end.
Definition phase_from_name (name : string) : result ControlPlaneError ResourcePhase :=
  match List.find (λ p, bool_decide (phase_name p = name))
          [Requested; Provisioning; Ready; Degraded; Failed; Deleting; Deleted] with
  | Some p => Ok p
  | None => Err (CpMapping ("unknown resource phase " +:+ name))
  end.
Lemma phase_from_phase_name p : phase_from_name (phase_name p) = Ok p.
Proof. by destruct p. Qed.
#[global] Arguments phase_from_name : simpl never.

Section Store.
Context `{UuidLib} `{JsonLib} `{!Serde FailureRecord} `{!Serde (list ResourceTransition)}.
Context `{Chrono} `{BuildProfile} `{PgTime}.

Record ResourceRow := mkResourceRow {
  rr_id : string;
  rr_application_id : string;
  rr_environment_id : option string;
  rr_kind : string;
  rr_desired_version : Z;
  rr_phase : string;
  rr_generation : Z;
  rr_failure : option Json;
  rr_transitions : Json;
  rr_updated_at : DateTime;
}.

Definition resource_from_row (row : ResourceRow) : result ControlPlaneError Resource :=
  id ← match ResourceId_from_str (rr_id row) with
       | Ok id => Ok id
       | Err _ => Err (CpMapping ("invalid resource id " +:+ rr_id row))
       end;
  phase ← phase_from_name (rr_phase row);
  failure ← json_get_opt (rr_failure row);
  transitions ← from_value (rr_transitions row);
  Ok (mkResource id (rr_kind row) (i64_as_u64 (rr_desired_version row)) phase
        (i32_as_u32 (rr_generation row)) failure transitions).

(** The references of [resources] to rows of the tables of applications and
    environments. *)
Definition references_ok (application_known environment_known : string → bool)
    (application_id : string) (environment_id : option string) : bool :=
  application_known application_id &&
  match environment_id with Some e => environment_known e | None => true end.

(** [INSERT ... ON CONFLICT (id) DO UPDATE]; an existing row keeps its
    application and environment.  [now] is read from the clock and the last
    two arguments say which identifiers the referenced tables hold. *)
Definition resource_save (resource : Resource) (application_id : ApplicationId)
    (environment_id : option EnvironmentId) (now : DateTime)
    (application_known environment_known : string → bool) :
    M (gmap string ResourceRow) ControlPlaneError unit :=
  failure ← lift_r (to_value_opt (res_failure resource));
  transitions ← lift_r (to_value (res_transitions resource));
  table ← get;
  let id := id_fmt (res_id resource) in
  let row application_id environment_id :=
    mkResourceRow id application_id environment_id (res_kind resource)
      (u64_as_i64 (res_desired_version resource)) (phase_name (res_phase resource))
      (u32_as_i32 (res_generation resource)) failure transitions (pg_time now) in
  match table !! id with
  | Some old =>
      put (<[id := row (rr_application_id old) (rr_environment_id old)]> table)
  | None =>
      let a := id_fmt application_id in
      let e := id_fmt <$> environment_id in
      if references_ok application_known environment_known a e then put (<[id := row a e]> table)
      else mthrow (CpDatabase "insert or update on table resources violates foreign key constraint")
  end.

Definition resource_get (id : ResourceId) : M (gmap string ResourceRow) ControlPlaneError Resource :=
  table ← get;
  row ← lift_r (ok_or (CpNotFound (id_fmt id)) (table !! id_fmt id));
  lift_r (resource_from_row row).

(** [ORDER BY kind, id]. *)
Definition kind_id_le (a b : ResourceRow) : Prop :=
  rr_kind a ≠ rr_kind b ∧ String.le (rr_kind a) (rr_kind b) ∨
  rr_kind a = rr_kind b ∧ String.le (rr_id a) (rr_id b).
#[local] Instance kind_id_le_dec a b : Decision (kind_id_le a b).
Proof. unfold kind_id_le. apply _. Defined.
Fixpoint resources_from_rows (rows : list ResourceRow) : result ControlPlaneError (list Resource) :=
  match rows with
  | [] => Ok []
  | row :: rows' => r ← resource_from_row row; rs ← resources_from_rows rows'; Ok (r :: rs)
  end.
Definition resource_list_for_application (application_id : ApplicationId)
    (table : gmap string ResourceRow) : result ControlPlaneError (list Resource) :=
  resources_from_rows (merge_sort kind_id_le
    (List.filter (λ r, bool_decide (rr_application_id r = id_fmt application_id)) (btree_values table))).
Definition resource_list_for_environment (environment_id : EnvironmentId)
    (table : gmap string ResourceRow) : result ControlPlaneError (list Resource) :=
  resources_from_rows (merge_sort kind_id_le
    (List.filter (λ r, bool_decide (rr_environment_id r = Some (id_fmt environment_id)))
       (btree_values table))).

(** A core method called on a resource held in memory, its error converted by
    [?]. *)
Definition on_resource {A} (r : Resource) (m : M Resource CoreError A) :
    M (gmap string ResourceRow) ControlPlaneError Resource := λ table,
  match m r with
  | Done (r', Ok _) => Done (table, Ok r')
  | Done (_, Err e) => Done (table, Err (CpCore e))
  | Panic msg => Panic msg
  end.
(** The columns an observation assigns. *)
Definition set_observed (phase : string) (generation : option Z) (failure : option (option Json))
    (transitions : Json) (at_ : DateTime) (row : ResourceRow) : ResourceRow :=
  mkResourceRow (rr_id row) (rr_application_id row) (rr_environment_id row) (rr_kind row)
    (rr_desired_version row) phase (default (rr_generation row) generation)
    (default (rr_failure row) failure) transitions at_.

Definition observe_phase (id : ResourceId) (phase : ResourcePhase) (source : ObservationSource)
    (reason : option string) (at_ : DateTime) :
    M (gmap string ResourceRow) ControlPlaneError Resource :=
  resource ← resource_get id;
  resource ← on_resource resource (Resource_observe phase source reason at_);
  transitions ← lift_r (to_value (res_transitions resource));
  table ← get;
  match table !! id_fmt id with
  | None => mthrow (CpNotFound (id_fmt id))
  | Some row =>
      put (<[id_fmt id := set_observed (phase_name phase) None None transitions (pg_time at_) row]> table);;
      resource_get id
  end.

Definition record_failure (id : ResourceId) (reason : string) (secrets : list string)
    (policy : RetryPolicy) (at_ : DateTime) :
    M (gmap string ResourceRow) ControlPlaneError Resource :=
  resource ← resource_get id;
  resource ← on_resource resource (Resource_fail reason secrets policy at_);
  failure ← lift_r (to_value_opt (res_failure resource));
  transitions ← lift_r (to_value (res_transitions resource));
  modify (λ t : gmap string ResourceRow,
    match t !! id_fmt id with
    | Some row =>
        <[id_fmt id := set_observed (phase_name (res_phase resource))
            (Some (u32_as_i32 (res_generation resource))) (Some failure) transitions
            (pg_time at_) row]> t
    | None => t
    end);;
  resource_get id.
End Store.
#[global] Arguments resource_from_row : simpl never.
#[global] Arguments observe_phase : simpl never.
#[global] Arguments record_failure : simpl never.

(* ------------------------------------------------------------------ *)
(** * The store refines the core lifecycle *)

Section StoreFacts.
Context `{UuidLaws} `{JsonLib} `{!Serde FailureRecord} `{!Serde (list ResourceTransition)}.
Context `{!SerdeLaws FailureRecord} `{!SerdeLaws (list ResourceTransition)}.
Context `{Chrono} `{BuildProfile} `{PgTime}.
Implicit Types (t : gmap string ResourceRow) (id : ResourceId) (r : Resource).

(** The table holds this resource under its identifier. *)
Definition holds t id r : Prop :=
  ∃ row, t !! id_fmt id = Some row ∧ resource_from_row row = Ok r.

Lemma resource_get_holds t id r : holds t id r → resource_get id t = Done (t, Ok r).
Proof. intros (row & Hrow & E). unfold resource_get. unfold_monad. by rewrite Hrow, E. Qed.

(** The two statements that change a stored resource, and the core method each
    of them calls. *)
Inductive StoreOp :=
| SoObserve (phase : ResourcePhase) (source : ObservationSource) (reason : option string)
    (at_ : DateTime)
| SoFail (reason : string) (secrets : list string) (policy : RetryPolicy) (at_ : DateTime).
Definition run_store_op (op : StoreOp) id :
    M (gmap string ResourceRow) ControlPlaneError Resource :=
  match op with
  | SoObserve phase source reason at_ => observe_phase id phase source reason at_
  | SoFail reason secrets policy at_ => record_failure id reason secrets policy at_
  end.
Definition core_op (op : StoreOp) : M Resource CoreError unit :=
  match op with
  | SoObserve phase source reason at_ => Resource_observe phase source reason at_;; mret tt
  | SoFail reason secrets policy at_ => Resource_fail reason secrets policy at_
  end.

(** What a successful core call leaves of a resource. *)
Definition same_columns (op : StoreOp) r r' : Prop :=
  res_id r' = res_id r ∧ res_kind r' = res_kind r ∧
  res_desired_version r' = res_desired_version r ∧
  match op with
  | SoObserve phase _ _ _ =>
      res_phase r' = phase ∧ res_generation r' = res_generation r ∧ res_failure r' = res_failure r
  | SoFail _ _ _ _ => 0 ≤ res_generation r → 0 ≤ res_generation r' ≤ u32_max
  end.

Lemma add_unsigned_range mx a b n : 0 ≤ mx → 0 ≤ a + b → add_unsigned mx a b = Done n → 0 ≤ n ≤ mx.
Proof.
  intros Hmx Hab. unfold add_unsigned. case_decide; [intros; simplify_eq; lia|].
  case_match; intros; simplify_eq. pose proof (Z.mod_pos_bound (a + b) (mx + 1)). lia.
Qed.
Lemma core_op_columns op r r' :
  core_op op r = Done (r', Ok tt) → same_columns op r r'.
Proof.
  destruct op; simpl; unfold Resource_fail, Resource_observe; intros E; run_op E.
  all: split_and!; try done.
  all: simpl; intros Hg; eapply add_unsigned_range; [..|eassumption]; [done|]; simpl; lia.
Qed.

Definition ranges r : Prop :=
  0 ≤ res_desired_version r ≤ u64_max ∧ 0 ≤ res_generation r ≤ u32_max.
Lemma from_row_ranges row r : resource_from_row row = Ok r → ranges r.
Proof.
  unfold resource_from_row. intros E. run_op E.
  pose proof (Z.mod_pos_bound (rr_desired_version row) (u64_max + 1) ltac:(done)).
  pose proof (Z.mod_pos_bound (rr_generation row) (u32_max + 1) ltac:(done)).
  unfold ranges, i64_as_u64, i32_as_u32. simpl. lia.
Qed.

(** Writing the columns a successful core call changed stores its result. *)
Lemma set_observed_from_row row r r' ph gen fl tr at_ :
  resource_from_row row = Ok r →
  res_id r' = res_id r → res_kind r' = res_kind r →
  res_desired_version r' = res_desired_version r → res_phase r' = ph →
  from_value tr = Ok (res_transitions r') →
  match gen with
  | Some g => i32_as_u32 g = res_generation r'
  | None => res_generation r' = res_generation r
  end →
  match fl with
  | Some f => json_get_opt f = Ok (res_failure r')
  | None => res_failure r' = res_failure r
  end →
  resource_from_row (set_observed (phase_name ph) gen fl tr at_ row) = Ok r'.
Proof.
  intros E. unfold resource_from_row in E. unfold_monad_in E.
  destruct (ResourceId_from_str (rr_id row)) as [id|] eqn:Eid; [|done].
  destruct (phase_from_name (rr_phase row)); [|done].
  destruct (json_get_opt (rr_failure row)) as [f|] eqn:Ef; [|done].
  destruct (from_value (rr_transitions row)); [|done].
  injection E as <-. simpl. intros Hid Hk Hv Hp Htr Hg Hf. unfold resource_from_row. unfold_monad.
  rewrite Eid, phase_from_phase_name, Htr.
  assert (json_get_opt (default (rr_failure row) fl) = Ok (res_failure r')) as ->
    by (destruct fl; simpl; congruence).
  destruct r'; simpl in *. subst. do 2 f_equal. destruct gen; simpl; congruence.
Qed.

(** The outcome of a statement, from the outcome of the core method on the
    stored resource. *)
Definition store_outcome (op : StoreOp) id t (core : outcome (Resource * result CoreError unit))
    (res : outcome (gmap string ResourceRow * result ControlPlaneError Resource)) : Prop :=
  match core with
  | Panic msg => res = Panic msg
  | Done (_, Err e) => res = Done (t, Err (CpCore e))
  | Done (r', Ok _) =>
      (∃ e, res = Done (t, Err (CpSerialization e)) ∧
         (serialize (res_transitions r') = Err e ∨
          ∃ f, res_failure r' = Some f ∧ serialize f = Err e)) ∨
      ∃ t', res = Done (t', Ok r') ∧ holds t' id r' ∧ ∀ k, k ≠ id_fmt id → t' !! k = t !! k
  end.

Lemma to_value_err {T} `{!Serde T} (x : T) e :
  to_value x = Err e → ∃ m, e = CpSerialization m ∧ serialize x = Err m.
Proof. unfold to_value. case_match; intros; simplify_eq. eauto. Qed.
Lemma to_value_opt_err {T} `{!Serde T} (x : option T) e :
  to_value_opt x = Err e → ∃ m, e = CpSerialization m ∧ ∃ y, x = Some y ∧ serialize y = Err m.
Proof.
  unfold to_value_opt. unfold_monad. destruct x; [|done].
  destruct (to_value t) eqn:E; intros; simplify_eq. apply to_value_err in E as (m & -> & ?). eauto.
Qed.

(** The write that ends both statements. *)
Lemma written id t row r' row' :
  t !! id_fmt id = Some row → resource_from_row row' = Ok r' →
  let t' := <[id_fmt id := row']> t in
  resource_get id t' = Done (t', Ok r') ∧ holds t' id r' ∧
  ∀ k, k ≠ id_fmt id → t' !! k = t !! k.
Proof.
  intros Hrow Hr t'. assert (holds t' id r') as Hh by (exists row'; split; [apply lookup_insert_eq|done]).
  split_and!; [by apply resource_get_holds|done|]. intros k Hk. by apply lookup_insert_ne.
Qed.

Lemma store_op_outcome op id t r :
  holds t id r → store_outcome op id t (core_op op r) (run_store_op op id t).
Proof.
  intros Hh. pose proof Hh as (row & Hrow & Hr).
  pose proof (from_row_ranges _ _ Hr) as [_ Hgen].
  destruct (core_op op r) as [[r' [[]|e]]|msg] eqn:E; simpl.
  - pose proof (core_op_columns _ _ _ E) as (Hid & Hk & Hv & Hcols).
    destruct op as [phase src reason at_|reason secrets policy at_]; simpl in E |- *.
    + unfold_monad_in E. destruct (Resource_observe _ _ _ _ r) as [[r1 [tr|]]|] eqn:Eo;
        simplify_eq/=. unfold observe_phase, on_resource. unfold_monad.
      rewrite (resource_get_holds _ _ _ Hh), Eo.
      destruct (to_value (res_transitions r')) as [v|e] eqn:Hv';
        [|destruct (to_value_err _ _ Hv') as (m & -> & Hm); left; eauto].
      rewrite Hrow. right. destruct Hcols as (Hp & Hg & Hf).
      destruct (written id t row r' (set_observed (phase_name phase) None None v (pg_time at_) row))
        as (-> & Hh' & Hother); [done| |by eauto].
      by eapply set_observed_from_row; [..|exact Hg|exact Hf]; try done; apply to_from_value.
    + unfold record_failure, on_resource. unfold_monad. rewrite (resource_get_holds _ _ _ Hh), E.
      destruct (to_value_opt (res_failure r')) as [f|e] eqn:Hf;
        [|destruct (to_value_opt_err _ _ Hf) as (m & -> & Hm); left; eauto 6].
      destruct (to_value (res_transitions r')) as [v|e] eqn:Hv';
        [|destruct (to_value_err _ _ Hv') as (m & -> & Hm); left; eauto].
      right. rewrite Hrow.
      destruct (written id t row r' (set_observed (phase_name (res_phase r'))
        (Some (u32_as_i32 (res_generation r'))) (Some f) v (pg_time at_) row))
        as (-> & Hh' & Hother); [done| |by eauto].
      eapply set_observed_from_row; try done; [by apply to_from_value| |by apply to_from_value_opt].
      apply as_i32_u32. apply Hcols, Hgen.
  - destruct op; simpl in E |- *; unfold observe_phase, record_failure, on_resource; unfold_monad;
      rewrite (resource_get_holds _ _ _ Hh); [|by rewrite E].
    unfold_monad_in E. by destruct (Resource_observe _ _ _ _ r) as [[? []]|]; simplify_eq/=.
  - destruct op; simpl in E |- *; unfold observe_phase, record_failure, on_resource; unfold_monad;
      rewrite (resource_get_holds _ _ _ Hh); [|by rewrite E].
    unfold_monad_in E. by destruct (Resource_observe _ _ _ _ r) as [[? []]|]; simplify_eq/=.
Qed.

(** The durable resource store implements the core lifecycle: an
    observation or failure report on a stored resource panics, is refused or
    succeeds exactly as the core method on that resource; refused, it changes
    no row; successful, it returns the core method's result, which the table
    then holds, and changes no other row. *)
Theorem resource_store_refines op id t r :
  holds t id r → store_outcome op id t (core_op op r) (run_store_op op id t).
Proof. apply store_op_outcome. Qed.

Lemma holds_inj t id r r' : holds t id r → holds t id r' → r = r'.
Proof. intros (? & ? & ?) (? & ? & ?). congruence. Qed.
Lemma get_cases t id : (∃ r, holds t id r) ∨ ∃ e, resource_get id t = Done (t, Err e).
Proof.
  unfold holds, resource_get. unfold_monad.
  destruct (t !! id_fmt id) as [row|]; [|right; by eexists].
  destruct (resource_from_row row) as [r|] eqn:Er; [left; eauto|right; by eexists].
Qed.
Lemma observe_unreadable id phase src reason at_ t e :
  resource_get id t = Done (t, Err e) → observe_phase id phase src reason at_ t = Done (t, Err e).
Proof. intros Hg. unfold observe_phase. unfold_monad. by rewrite Hg. Qed.

(** Observing a phase leaves a resource that cannot move to it: either it is in
    that phase, or it could not move before. *)
Lemma observed_cannot_repeat `{!SerdeTotal (list ResourceTransition)} `{!SerdeTotal FailureRecord}
    id phase src reason at_ t t1 res1 r1 :
  observe_phase id phase src reason at_ t = Done (t1, res1) → holds t1 id r1 →
  phase_can_transition_to (res_phase r1) phase = false.
Proof.
  intros E Hr1. destruct (get_cases t id) as [[r Hr]|[e He]].
  2: { rewrite (observe_unreadable _ _ _ _ _ _ _ He) in E. simplify_eq.
       by rewrite (resource_get_holds _ _ _ Hr1) in He. }
  pose proof (store_op_outcome (SoObserve phase src reason at_) id t r Hr) as O.
  unfold run_store_op in O. rewrite E in O.
  destruct (core_op (SoObserve phase src reason at_) r) as [[r' [[]|e]]|] eqn:Ec; simpl in O; [..|done].
  - destruct O as [(e & _ & [Hs|(f & _ & Hs)])|(t' & Ht' & Hh & _)].
    + destruct (serde_total (res_transitions r')). congruence.
    + destruct (serde_total f). congruence.
    + simplify_eq. rewrite (holds_inj _ _ _ _ Hr1 Hh).
      destruct (core_op_columns _ _ _ Ec) as (_ & _ & _ & -> & _). by destruct phase.
  - simplify_eq. rewrite (holds_inj _ _ _ _ Hr1 Hr). simpl in Ec. unfold Resource_observe in Ec.
    unfold_monad_in Ec. destruct (phase_can_transition_to (res_phase r) phase) eqn:Hc; [|done].
    simpl in Ec. case_decide; [subst; by destruct (res_phase r)|]. simpl in Ec.
    destruct (last (res_transitions r)); [|done]. simpl in Ec. by rewrite last_snoc in Ec.
Qed.

(** So a second observation of one phase is always refused. *)
Lemma observe_twice `{!SerdeTotal (list ResourceTransition)} `{!SerdeTotal FailureRecord}
    id phase src src' reason reason' at_ at_' t t1 res1 :
  observe_phase id phase src reason at_ t = Done (t1, res1) →
  ∃ e, observe_phase id phase src' reason' at_' t1 = Done (t1, Err e).
Proof.
  intros E. destruct (get_cases t1 id) as [[r1 Hr1]|[e He]].
  2: { exists e. by apply observe_unreadable. }
  pose proof (observed_cannot_repeat _ _ _ _ _ _ _ _ _ E Hr1) as Hc.
  pose proof (store_op_outcome (SoObserve phase src' reason' at_') id t1 r1 Hr1) as O.
  simpl in O. unfold Resource_observe in O. unfold_monad_in O. rewrite Hc in O. simpl in O. eauto.
Qed.

(** Saving a resource and reading it back gives the resource; saving it again
    never moves it to another application or environment. *)
Lemma resource_save_get r a e now ka ke t t' :
  ranges r → resource_save r a e now ka ke t = Done (t', Ok tt) →
  holds t' (res_id r) r ∧ (∀ k, k ≠ id_fmt (res_id r) → t' !! k = t !! k) ∧
  ∀ row row', t !! id_fmt (res_id r) = Some row → t' !! id_fmt (res_id r) = Some row' →
    rr_application_id row' = rr_application_id row ∧ rr_environment_id row' = rr_environment_id row.
Proof.
  intros [Hv Hg] E. unfold resource_save in E. unfold_monad_in E.
  destruct (to_value_opt (res_failure r)) as [f|] eqn:Hf; [|done].
  destruct (to_value (res_transitions r)) as [v|] eqn:Htr; [|done].
  assert (∀ a e, resource_from_row (mkResourceRow (id_fmt (res_id r)) a e (res_kind r)
    (u64_as_i64 (res_desired_version r)) (phase_name (res_phase r))
    (u32_as_i32 (res_generation r)) f v (pg_time now)) = Ok r) as Hdec.
  { intros a' e'. unfold resource_from_row. unfold_monad.
    change (ResourceId_from_str ?x) with (@id_from_str _ KResource x).
    rewrite id_round_trip, phase_from_phase_name, (to_from_value_opt _ _ Hf), (to_from_value _ _ Htr).
    rewrite as_i64_u64, as_i32_u32 by done. by destruct r. }
  destruct (t !! id_fmt (res_id r)) as [old|] eqn:Hold;
    [|destruct (references_ok _ _ _ _)]; simplify_eq/=.
  - split; [eexists; split; [apply lookup_insert_eq|apply Hdec]|]. split.
    + intros k Hk. by apply lookup_insert_ne.
    + intros row row' [= <-]. rewrite lookup_insert_eq. by intros [= <-].
  - split; [eexists; split; [apply lookup_insert_eq|apply Hdec]|]. split; [|done].
    intros k Hk. by apply lookup_insert_ne.
Qed.
End StoreFacts.

(* ------------------------------------------------------------------ *)
(** * Examples *)

Module ResourceStoreExamples.
Import RefInstances RefPg.

Inductive Value := VFailure (f : FailureRecord) | VTransitions (l : list ResourceTransition) | VNull.
#[local] Instance value_json : JsonLib := { Json := Value; json_null := VNull }.
#[local] Instance failure_serde : Serde FailureRecord := {
  serialize a := Ok (VFailure a);
  deserialize v := match v with VFailure a => Ok a | _ => Err "failure" end;
}.
#[local] Instance failure_serde_laws : SerdeLaws FailureRecord.
Proof. constructor. by intros x v [= <-]. Qed.
#[local] Instance transitions_serde : Serde (list ResourceTransition) := {
  serialize a := Ok (VTransitions a);
  deserialize v := match v with VTransitions a => Ok a | _ => Err "transitions" end;
}.
#[local] Instance transitions_serde_laws : SerdeLaws (list ResourceTransition).
Proof. constructor. by intros x v [= <-]. Qed.

Definition bucket : Resource :=
  match Resource_request (mkId (uuid 7)) "bucket" 1 5 with
  | Ok r => r
  | Err _ => mkResource (mkId (uuid 7)) "" 0 Requested 0 None []
  end.
Definition stored : gmap string ResourceRow :=
  (done_or (∅, Ok tt) (resource_save bucket (mkId (uuid 9)) None 5 (λ _, true) (λ _, true) ∅)).1.
Definition observed := observe_phase (mkId (uuid 7)) Provisioning SrcPlatformProbe None 6 stored.
Lemma stored_holds : holds stored (mkId (uuid 7)) bucket.
Proof.
  apply (resource_save_get bucket (mkId (uuid 9)) None 5 (λ _, true) (λ _, true) ∅).
  - split; split; vm_compute; discriminate.
  - apply is_done_pair; vm_compute; reflexivity.
Qed.
Definition to_provisioning : StoreOp := SoObserve Provisioning SrcPlatformProbe None 6.
Definition to_ready : StoreOp := SoObserve Ready SrcPlatformProbe None 6.
Definition provisioning : Resource := (done_or (bucket, Ok tt) (core_op to_provisioning bucket)).1.
Definition refusal : CoreError :=
  match core_op to_ready bucket with Done (_, Err e) => e | _ => NotFound "" end.
(** The requested bucket starts provisioning, and cannot become ready at once. *)
Lemma resource_store_refines_witness :
  (∃ t', run_store_op to_provisioning (mkId (uuid 7)) stored = Done (t', Ok provisioning)) ∧
  run_store_op to_ready (mkId (uuid 7)) stored = Done (stored, Err (CpCore refusal)).
Proof.
  pose proof (resource_store_refines to_provisioning (mkId (uuid 7)) stored bucket stored_holds) as H1.
  pose proof (resource_store_refines to_ready (mkId (uuid 7)) stored bucket stored_holds) as H2.
  assert (core_op to_provisioning bucket = Done (provisioning, Ok tt)) as E1
    by (vm_compute; reflexivity).
  assert (core_op to_ready bucket = Done (bucket, Err refusal)) as E2 by (vm_compute; reflexivity).
  rewrite E1 in H1. rewrite E2 in H2. unfold store_outcome in H1, H2. split; [|exact H2].
  destruct H1 as [[e [He _]]|(t' & Ht' & _)]; [|exists t'; exact Ht'].
  exfalso. assert (match run_store_op to_provisioning (mkId (uuid 7)) stored with
                   | Done (_, Err _) => false | _ => true end = true) as Hok
    by (vm_compute; reflexivity).
  rewrite He in Hok. discriminate Hok.
Defined.
End ResourceStoreExamples.
