(* ===== verification/CpStores.v ===== *)
(** The durable observability stores (observability.rs of labrys-control-plane):
    events, logs, the audit trail, verification evidence and usage, each a table
    with the statements that append to it and read it back. *)

From stdpp Require Import base option list strings pretty gmap sorting.
From Stdlib Require Import ZArith Lia.
From S2P Require Import Prelude External Errors CpErrors Ids Resource Deployment Events AuditChain Verifier.
Local Open Scope Z_scope.

(* ------------------------------------------------------------------ *)
(** * Names *)

Definition named {A} (name : A → string) (all : list A) (what value : string) :
    result ControlPlaneError A :=
  match List.find (λ a, bool_decide (name a = value)) all with
  | Some a => Ok a
  | None => Err (CpMapping ("unknown " +:+ what +:+ " " +:+ value))
  end.
#[global] Arguments named : simpl never.

Definition level_name (l : LogLevel) : string :=
  match l with LlInfo => "info" | LlWarn => "warn" | LlError => "error" end.
Definition log_level_from_name : string → result ControlPlaneError LogLevel :=
  named level_name [LlInfo; LlWarn; LlError] "log level".
Definition log_source_from_name : string → result ControlPlaneError LogSource :=
  named LogSource_canonical_name
    [LsAgent; LsBuild; LsRuntime; LsDeployment; LsCapability; LsResource] "log source".
Definition stage_from_name : string → result ControlPlaneError VerifierStage :=
  named stage_canonical_name all_stages "verifier stage".
Definition event_action_from_name : string → result ControlPlaneError EventAction :=
  named EventAction_canonical_name
    [EaCapabilityRequested; EaCapabilityDecision; EaResourceProvisioned; EaSecretRotated;
     EaSecretReplaced; EaBuildStarted; EaBuildFinished; EaDeploymentRolledOut;
     EaDeploymentRolledBack; EaDomainChanged; EaHealthProbed; EaReconciled;
     EaVerificationFinished; EaApprovalRequested; EaApprovalDecided] "event action".

Section Ids.
Context `{UuidLib}.
(** [value.parse().unwrap_or_else(|_| Id::default())], where [default] draws the
    random identifier [fresh]. *)
Definition parse_session (fresh : AgentSessionId) (value : string) : AgentSessionId :=
  match AgentSessionId_from_str value with Ok id => id | Err _ => fresh end.
Definition parse_application (fresh : ApplicationId) (value : string) : ApplicationId :=
  match ApplicationId_from_str value with Ok id => id | Err _ => fresh end.
Definition parse_environment (fresh : EnvironmentId) (value : string) : EnvironmentId :=
  match EnvironmentId_from_str value with Ok id => id | Err _ => fresh end.
(** The identifiers a read may draw. *)
Record Draws := {
  d_session : AgentSessionId;
  d_application : ApplicationId;
  d_environment : EnvironmentId;
}.
End Ids.

(** A table with a [bigserial] key: the next value of its sequence and its rows
    in key order. *)
Record Serial (R : Type) := mkSerial { next_value : Z; serial_rows : list R }.
#[global] Arguments mkSerial {R}.
#[global] Arguments next_value {R}.
#[global] Arguments serial_rows {R}.
Definition empty_serial {R} : Serial R := mkSerial 1 [].
Definition serial_insert {R} (row : Z → R) : M (Serial R) ControlPlaneError Z :=
  t ← get;
  if decide (i64_max < next_value t) then
    mthrow (CpDatabase "nextval: reached maximum value of sequence")
  else
    put (mkSerial (next_value t + 1) (serial_rows t ++ [row (next_value t)]));;
    mret (next_value t).

Fixpoint collect {A B} (f : A → result ControlPlaneError B) (l : list A) :
    result ControlPlaneError (list B) :=
  match l with
  | [] => Ok []
  | a :: l' => b ← f a; bs ← collect f l'; Ok (b :: bs)
  end.

(* ------------------------------------------------------------------ *)
(** * Events *)

Section EventStore.
Context `{UuidLib} `{JsonLib} `{!Serde EventActor} `{!Serde EventResult} `{PgTime}.

Record EventRow := mkEventRow {
  ew_sequence : Z;
  ew_at : DateTime;
  ew_actor : Json;
  ew_trace_id : string;
  ew_session_id : option string;
  ew_application_id : option string;
  ew_environment_id : option string;
  ew_action : string;
  ew_resource_kind : option string;
  ew_resource_id : option string;
  ew_before : option string;
  ew_after : option string;
  ew_result : Json;
}.

Definition append_event (draft : EventDraft) (secrets : list string) :
    M (Serial EventRow) ControlPlaneError Z :=
  before ← lift_r (redact_guard "event.before" (default "" (ed_before draft)) secrets);
  after ← lift_r (redact_guard "event.after" (default "" (ed_after draft)) secrets);
  let before := (λ _, before) <$> ed_before draft in
  let after := (λ _, after) <$> ed_after draft in
  result ← lift_r match ed_result draft with
                  | ErFailed reason =>
                      r ← redact_guard "event.result" reason secrets; Ok (ErFailed r)
                  | other => Ok other
                  end;
  actor ← lift_r (to_value (ed_actor draft));
  result_value ← lift_r (to_value result);
  let c := ed_correlation draft in
  serial_insert (λ sequence,
    mkEventRow sequence (pg_time (ed_at draft)) actor (trace_id c)
      (id_fmt <$> cor_session_id c) (id_fmt <$> cor_application_id c)
      (id_fmt <$> cor_environment_id c) (EventAction_canonical_name (ed_action draft))
      (er_kind <$> ed_resource draft) (er_id <$> ed_resource draft) before after result_value).

Definition event_from_row (draws : Draws) (row : EventRow) : result ControlPlaneError PlatformEvent :=
  actor ← from_value (ew_actor row);
  result ← from_value (ew_result row);
  action ← event_action_from_name (ew_action row);
  Ok {| pe_sequence := i64_as_u64 (ew_sequence row); pe_at := ew_at row; pe_actor := actor;
        pe_correlation := mkCorrelation (ew_trace_id row)
          (parse_session (d_session draws) <$> ew_session_id row)
          (parse_application (d_application draws) <$> ew_application_id row)
          (parse_environment (d_environment draws) <$> ew_environment_id row);
        pe_action := action;
        pe_resource := match ew_resource_kind row, ew_resource_id row with
                       | Some kind, Some id => Some (EventResource_new kind id)
                       | _, _ => None
                       end;
        pe_before := ew_before row; pe_after := ew_after row; pe_result := result |}.

Definition event_get (draws : Draws) (sequence : Z) : M (Serial EventRow) ControlPlaneError PlatformEvent :=
  t ← get;
  row ← lift_r (ok_or (CpNotFound ("event " +:+ pretty sequence))
                  (List.find (λ r, bool_decide (ew_sequence r = sequence)) (serial_rows t)));
  lift_r (event_from_row draws row).

Definition event_append (draws : Draws) (draft : EventDraft) (secrets : list string) :
    M (Serial EventRow) ControlPlaneError PlatformEvent :=
  sequence ← append_event draft secrets;
  event_get draws sequence.

(** The four queries select on one column, in sequence order. *)
Definition events_where (draws : Draws) (p : EventRow → bool) (t : Serial EventRow) :
    result ControlPlaneError (list PlatformEvent) :=
  collect (event_from_row draws) (List.filter p (serial_rows t)).
Definition events_for_application (draws : Draws) (id : string) :=
  events_where draws (λ r, bool_decide (ew_application_id r = Some id)).
Definition events_for_environment (draws : Draws) (id : string) :=
  events_where draws (λ r, bool_decide (ew_environment_id r = Some id)).
Definition events_for_session (draws : Draws) (id : string) :=
  events_where draws (λ r, bool_decide (ew_session_id r = Some id)).
Definition events_for_trace (draws : Draws) (id : string) :=
  events_where draws (λ r, bool_decide (ew_trace_id r = id)).
End EventStore.
#[global] Arguments append_event : simpl never.
#[global] Arguments event_append : simpl never.

(* ------------------------------------------------------------------ *)
(** * Logs *)

Section Logs.
Context `{UuidLib} `{PgTime}.

Record LogRow := mkLogRow {
  lw_sequence : Z;
  lw_at : DateTime;
  lw_source : string;
  lw_level : string;
  lw_trace_id : string;
  lw_session_id : option string;
  lw_application_id : option string;
  lw_environment_id : option string;
  lw_message : string;
}.

Definition append_log (source : LogSource) (level : LogLevel) (correlation : Correlation)
    (message : string) (secrets : list string) (at_ : DateTime) :
    M (Serial LogRow) ControlPlaneError Z :=
  message ← lift_r (redact_guard "log.message" message secrets);
  serial_insert (λ sequence,
    mkLogRow sequence (pg_time at_) (LogSource_canonical_name source) (level_name level)
      (trace_id correlation) (id_fmt <$> cor_session_id correlation)
      (id_fmt <$> cor_application_id correlation) (id_fmt <$> cor_environment_id correlation)
      message).

Definition log_from_row (draws : Draws) (row : LogRow) : result ControlPlaneError LogEntry :=
  source ← log_source_from_name (lw_source row);
  level ← log_level_from_name (lw_level row);
  Ok {| le_sequence := i64_as_u64 (lw_sequence row); le_at := lw_at row; le_source := source;
        le_level := level;
        le_correlation := mkCorrelation (lw_trace_id row)
          (parse_session (d_session draws) <$> lw_session_id row)
          (parse_application (d_application draws) <$> lw_application_id row)
          (parse_environment (d_environment draws) <$> lw_environment_id row);
        le_message := lw_message row |}.

Definition log_append (draws : Draws) (source : LogSource) (level : LogLevel)
    (correlation : Correlation) (message : string) (secrets : list string) (at_ : DateTime) :
    M (Serial LogRow) ControlPlaneError LogEntry :=
  sequence ← append_log source level correlation message secrets at_;
  t ← get;
  row ← lift_r (ok_or (CpDatabase "no rows returned")
                  (List.find (λ r, bool_decide (lw_sequence r = sequence)) (serial_rows t)));
  lift_r (log_from_row draws row).
Definition logs_for_source (draws : Draws) (source : LogSource) (t : Serial LogRow) :=
  collect (log_from_row draws)
    (List.filter (λ r, bool_decide (lw_source r = LogSource_canonical_name source)) (serial_rows t)).
Definition log_errors (draws : Draws) (t : Serial LogRow) :=
  collect (log_from_row draws)
    (List.filter (λ r, bool_decide (lw_level r = "error")) (serial_rows t)).
End Logs.
#[global] Arguments log_append : simpl never.

(* ------------------------------------------------------------------ *)
(** * The audit trail *)

(** [DateTime::round_subsecs] of chrono. *)
Class SubsecRound := { round_subsecs : Z → DateTime → DateTime }.
(** An instant rounded to six digits is one the database stores exactly. *)
Class SubsecRoundLaws `{SubsecRound} `{PgTime} : Prop := {
  pg_time_round t : pg_time (round_subsecs 6 t) = round_subsecs 6 t;
}.

Section AuditStore.
Context `{ChronoText} `{SubsecRound} `{PgTime}.

(** The columns of [audit_log] are those of a record, with an [i64] sequence. *)
Definition audit_from_row (row : AuditRecord) : AuditRecord :=
  {| ar_sequence := i64_as_u64 (ar_sequence row); ar_at := ar_at row; ar_actor := ar_actor row;
     ar_action := ar_action row; ar_target := ar_target row; ar_detail := ar_detail row;
     ar_prev_hash := ar_prev_hash row; ar_hash := ar_hash row |}.

(** Under the advisory lock appends are serial.  The table is the list of its
    rows in key order; the inserted key follows the greatest one. *)
Definition append_audit (at_ : DateTime) (actor action target detail : string)
    (secrets : list string) : M (list AuditRecord) ControlPlaneError AuditRecord :=
  let at_ := round_subsecs 6 at_ in
  t ← get;
  let last := last t in
  let sequence := match last with Some r => ar_sequence r + 1 | None => 1 end in
  let prev_hash := match last with Some r => ar_hash r | None => GENESIS end in
  detail ← lift_r (redact_guard "audit.detail" detail secrets);
  let record := {| ar_sequence := i64_as_u64 sequence; ar_at := at_; ar_actor := actor;
                   ar_action := action; ar_target := target; ar_detail := detail;
                   ar_prev_hash := prev_hash; ar_hash := "" |} in
  let record := ar_set_hash (compute_hash record) record in
  put (t ++ [{| ar_sequence := sequence; ar_at := pg_time at_; ar_actor := actor;
                ar_action := action; ar_target := target; ar_detail := detail;
                ar_prev_hash := prev_hash; ar_hash := ar_hash record |}]);;
  mret record.
Definition audit_load (t : list AuditRecord) : list AuditRecord :=
  AuditLog_restore (map audit_from_row t).
End AuditStore.
#[global] Arguments append_audit : simpl never.

(* ------------------------------------------------------------------ *)
(** * Verification evidence *)

Section EvidenceTable.
Context `{JsonLib} `{!Serde EventResource} `{PgTime}.

Record EvidenceRow := mkEvidenceRow {
  vw_id : string;
  vw_stage : string;
  vw_check : string;
  vw_passed : bool;
  vw_summary : string;
  vw_resource : option Json;
  vw_recovery : option string;
  vw_at : DateTime;
}.

Definition evidence_from_row (row : EvidenceRow) : result ControlPlaneError VerificationEvidence :=
  stage ← stage_from_name (vw_stage row);
  resource ← json_get_opt (vw_resource row);
  Ok (mkEvidence (vw_id row) stage (vw_check row) (vw_passed row) (vw_summary row) resource
        (vw_recovery row) (vw_at row)).
Definition evidence_get (id : string) : M (gmap string EvidenceRow) ControlPlaneError VerificationEvidence :=
  t ← get;
  row ← lift_r (ok_or (CpNotFound ("evidence " +:+ id)) (t !! id));
  lift_r (evidence_from_row row).
Definition evidence_append (evidence : VerificationEvidence) (secrets : list string) :
    M (gmap string EvidenceRow) ControlPlaneError VerificationEvidence :=
  summary ← lift_r (redact_guard "evidence.summary" (ve_summary evidence) secrets);
  resource ← lift_r (to_value_opt (ve_resource evidence));
  t ← get;
  if decide (is_Some (t !! ve_id evidence)) then
    mthrow (CpDatabase "duplicate key value violates unique constraint evidence_pkey")
  else
    put (<[ve_id evidence :=
      mkEvidenceRow (ve_id evidence) (stage_canonical_name (ve_stage evidence)) (ve_check evidence)
        (ve_passed evidence) summary resource (ve_recovery evidence) (pg_time (ve_at evidence))]> t);;
    evidence_get (ve_id evidence).

(** [ORDER BY at]; rows of one instant in the order of the table. *)
Definition row_at_le (a b : EvidenceRow) : Prop := vw_at a ≤ vw_at b.
#[local] Instance row_at_le_dec a b : Decision (row_at_le a b).
Proof. unfold row_at_le. apply _. Defined.
Definition evidence_all (t : gmap string EvidenceRow) :
    result ControlPlaneError (list VerificationEvidence) :=
  collect evidence_from_row (merge_sort row_at_le (btree_values t)).
Definition evidence_for_stage (stage : VerifierStage) (t : gmap string EvidenceRow) :
    result ControlPlaneError (list VerificationEvidence) :=
  collect evidence_from_row (merge_sort row_at_le
    (List.filter (λ r, bool_decide (vw_stage r = stage_canonical_name stage)) (btree_values t))).

(** The rows of the policy's store, loaded in order, pruned by the core and
    deleted by identifier. *)
Definition evidence_retain (policy : RetentionPolicy) (now : DateTime) :
    M (gmap string EvidenceRow) ControlPlaneError (list string) :=
  t ← get;
  all ← lift_r (evidence_all t);
  let store := foldl (λ s e, EvidenceStore_append e s) (EvidenceStore_new policy) all in
  let removed := (retain now store).2 in
  modify (λ t : gmap string EvidenceRow, foldr delete t removed);;
  mret removed.
End EvidenceTable.

(* ------------------------------------------------------------------ *)
(** * Usage *)

Section Usage.
Context `{UuidLib} `{BuildProfile} `{PgTime}.

Record UsageRow := mkUsageRow {
  uw_application_id : string;
  uw_environment_id : string;
  uw_period_start : DateTime;
  uw_period_end : DateTime;
  uw_cpu : Z;
  uw_memory : Z;
  uw_build : Z;
  uw_requests : Z;
  uw_egress : Z;
}.
Definition usage_record (record : UsageRecord) : M (Serial UsageRow) ControlPlaneError unit :=
  _ ← serial_insert (λ _,
    mkUsageRow (id_fmt (ur_application_id record)) (id_fmt (ur_environment_id record))
      (pg_time (ur_period_start record)) (pg_time (ur_period_end record))
      (u64_as_i64 (ur_cpu_millicore_seconds record)) (u64_as_i64 (ur_memory_mb_seconds record))
      (u64_as_i64 (ur_build_seconds record)) (u64_as_i64 (ur_requests record))
      (u64_as_i64 (ur_egress_bytes record)));
  mret tt.
(** [u64::try_from(value).unwrap_or_default()]. *)
Definition u64_from_i64 (value : Z) : Z := if decide (0 ≤ value) then value else 0.
Definition usage_from_row (draws : Draws) (row : UsageRow) : UsageRecord :=
  {| ur_application_id := parse_application (d_application draws) (uw_application_id row);
     ur_environment_id := parse_environment (d_environment draws) (uw_environment_id row);
     ur_period_start := uw_period_start row; ur_period_end := uw_period_end row;
     ur_cpu_millicore_seconds := u64_from_i64 (uw_cpu row);
     ur_memory_mb_seconds := u64_from_i64 (uw_memory row);
     ur_build_seconds := u64_from_i64 (uw_build row);
     ur_requests := u64_from_i64 (uw_requests row);
     ur_egress_bytes := u64_from_i64 (uw_egress row) |}.
Definition usage_rows (draws : Draws) (application_id : string) (t : Serial UsageRow) :
    list UsageRecord :=
  map (usage_from_row draws)
    (List.filter (λ r, bool_decide (uw_application_id r = application_id)) (serial_rows t)).
Definition usage_totals (draws : Draws) (application_id : string) (t : Serial UsageRow) :
    outcome UsageTotals :=
  totals_loop (mkTotals 0 0 0 0 0) (usage_rows draws application_id t).
End Usage.
#[global] Arguments usage_record : simpl never.

(* ------------------------------------------------------------------ *)
(** * The durable audit trail is the core audit log *)

Lemma redact_guard_ok field text secrets t :
  redact_guard field text secrets = Ok t → t = redact_reason text secrets.
Proof. unfold redact_guard, redact. unfold_monad. destruct (ensure_no_secret _ _ _); by intros [=]. Qed.

Section AuditFacts.
Context `{ChronoText} `{SubsecRoundLaws}.
Implicit Types (t : list AuditRecord).

Definition audit_step t t' : Prop :=
  ∃ at_ actor action target detail secrets r,
    append_audit at_ actor action target detail secrets t = Done (t', r).
Definition audit_reachable t : Prop := rtc audit_step [] t.

(** The keys are the positions. *)
Definition audit_wf t : Prop :=
  (∀ i r, t !! i = Some r → ar_sequence r = Z.of_nat i + 1) ∧
  (Z.of_nat (length t) ≤ i64_max → chain (audit_load t)).

Lemma audit_last_sequence t r : audit_wf t → last t = Some r → ar_sequence r = Z.of_nat (length t).
Proof.
  intros [Hseq _] Hl. rewrite last_lookup in Hl. rewrite (Hseq _ _ Hl).
  assert (t ≠ []) by (by intros ->). destruct t; simpl in *; [done|lia].
Qed.

(** The record appended after the rows [t], and the row stored for it. *)
Definition next_record (at_ : DateTime) (actor action target detail : string) t : AuditRecord :=
  let record := {| ar_sequence := i64_as_u64 (Z.of_nat (length t) + 1); ar_at := at_;
                   ar_actor := actor; ar_action := action; ar_target := target;
                   ar_detail := detail; ar_prev_hash := tip t; ar_hash := "" |} in
  ar_set_hash (compute_hash record) record.
Definition row_of (t : list AuditRecord) (r : AuditRecord) : AuditRecord :=
  {| ar_sequence := Z.of_nat (length t) + 1; ar_at := ar_at r; ar_actor := ar_actor r;
     ar_action := ar_action r; ar_target := ar_target r; ar_detail := ar_detail r;
     ar_prev_hash := ar_prev_hash r; ar_hash := ar_hash r |}.

Lemma append_audit_run at_ actor action target detail secrets t :
  audit_wf t →
  append_audit at_ actor action target detail secrets t =
  match redact_guard "audit.detail" detail secrets with
  | Ok d => let r := next_record (round_subsecs 6 at_) actor action target d t in
            Done (t ++ [row_of t r], Ok r)
  | Err e => Done (t, Err e)
  end.
Proof.
  intros Hwf. unfold append_audit. unfold_monad.
  destruct (redact_guard _ _ _) as [d|e]; [|done]. rewrite pg_time_round.
  unfold next_record, row_of, tip. simpl. destruct (last t) as [r|] eqn:Hl.
  - by rewrite (audit_last_sequence t r).
  - by rewrite (proj1 (last_None t) Hl).
Qed.

Lemma tip_load t : tip (audit_load t) = tip t.
Proof.
  unfold tip, audit_load, AuditLog_restore. change (map audit_from_row t) with (audit_from_row <$> t).
  rewrite fmap_last. by destruct (last t).
Qed.
Lemma load_snoc t at_ actor action target detail :
  let r := next_record at_ actor action target detail t in
  audit_load (t ++ [row_of t r]) = audit_load t ++ [r].
Proof. unfold audit_load, AuditLog_restore. by rewrite map_app. Qed.

(** The appended record is the one the core log appends. *)
Lemma next_record_core at_ actor action target detail secrets t :
  Z.of_nat (length t) < i64_max →
  let r := next_record at_ actor action target (redact_reason detail secrets) t in
  (audit_load (t ++ [row_of t r]), r) =
  AuditLog_append at_ actor action target detail secrets (audit_load t).
Proof.
  intros Hlen r. unfold r. rewrite load_snoc. unfold AuditLog_append, next_record.
  fold (tip (audit_load t)). rewrite tip_load.
  assert (length (audit_load t) = length t) as -> by apply length_map.
  unfold i64_as_u64. rewrite Z.mod_small by (unfold i64_max, u64_max in *; lia). done.
Qed.

Lemma audit_wf_snoc at_ actor action target detail secrets t :
  audit_wf t →
  audit_wf (t ++ [row_of t (next_record at_ actor action target (redact_reason detail secrets) t)]).
Proof.
  intros [Hs Hc]. split.
  - intros i r [Hi|[Hi Hr]]%lookup_app_Some; [by apply Hs|].
    apply list_lookup_singleton_Some in Hr as [Hz <-]. simpl. lia.
  - rewrite length_app. simpl. intros Hlen.
    pose proof (next_record_core at_ actor action target detail secrets t ltac:(lia)) as E.
    apply (f_equal fst) in E. simpl in E. rewrite E. apply append_chain, Hc. lia.
Qed.

Lemma audit_reachable_wf t : audit_reachable t → audit_wf t.
Proof.
  unfold audit_reachable. intros Hr. assert (audit_wf []) as Hwf by (split; [done|constructor]).
  revert Hwf. induction Hr as [|t t1 t2 Hstep _ IH]; intros Hwf; [done|]. apply IH.
  destruct Hstep as (at_ & actor & action & target & detail & secrets & r & E).
  rewrite append_audit_run in E by done.
  destruct (redact_guard _ _ _) as [d|] eqn:Hd; simplify_eq/=; [|done].
  rewrite (redact_guard_ok _ _ _ _ Hd). by apply audit_wf_snoc.
Qed.

(** C11: the durable audit trail is the core audit log: appending to the
    table and reloading it gives the log the core appends to, with the same
    record, at the instant the database can store; the reloaded log always
    verifies, and the stored detail contains no known secret. *)
Theorem durable_audit_is_core_log at_ actor action target detail secrets t t' r :
  audit_reachable t → Z.of_nat (length t) < i64_max →
  append_audit at_ actor action target detail secrets t = Done (t', Ok r) →
  (audit_load t', r) =
    AuditLog_append (round_subsecs 6 at_) actor action target detail secrets (audit_load t) ∧
  AuditLog_verify (audit_load t') = Ok tt ∧
  ∀ s, s ∈ secrets → s ≠ "" → str_contains s (ar_detail r) = false.
Proof.
  intros Hwf%audit_reachable_wf Hlen E. rewrite append_audit_run in E by done.
  destruct (redact_guard _ _ _) as [d|] eqn:Hd; simplify_eq/=.
  pose proof (redact_guard_ok _ _ _ _ Hd) as ->. split_and!.
  - by apply next_record_core.
  - apply verify_iff. apply audit_wf_snoc; [done|]. rewrite length_app. simpl. lia.
  - intros s Hs Hne. by eapply redact_guard_clean.
Qed.
End AuditFacts.

(* ------------------------------------------------------------------ *)
(** * Stored events are the core's events *)

Lemma named_name {A} (name : A → string) all what a :
  Inj (=) (=) name → a ∈ all → named name all what (name a) = Ok a.
Proof.
  intros Hinj Ha. unfold named. destruct (List.find _ all) as [b|] eqn:E.
  - apply find_Some_elem in E as [_ E%bool_decide_eq_true]. by apply Hinj in E as ->.
  - rewrite find_None_elem in E. specialize (E a Ha). by apply bool_decide_eq_false in E.
Qed.
#[global] Instance event_action_name_inj : Inj (=) (=) EventAction_canonical_name.
Proof. intros [] []; done. Qed.
Lemma event_action_from_canonical a :
  event_action_from_name (EventAction_canonical_name a) = Ok a.
Proof. apply named_name; [apply _|]. destruct a; set_solver. Qed.

Section EventFacts.
Context `{UuidLaws} `{JsonLib} `{!Serde EventActor} `{!Serde EventResult}.
Context `{!SerdeLaws EventActor} `{!SerdeLaws EventResult} `{PgTime}.
Implicit Types (t : Serial EventRow).

(** The keys in use are below the next one. *)
Definition serial_wf t : Prop :=
  0 < next_value t ∧ ∀ r, r ∈ serial_rows t → ew_sequence r < next_value t.

(** The event the core makes of a draft, as the [n]-th one stored. *)
Definition stored_event (draft : EventDraft) (secrets : list string) (n : Z) : PlatformEvent :=
  let e := (EventLog_append draft secrets []).2 in
  {| pe_sequence := n; pe_at := pg_time (pe_at e); pe_actor := pe_actor e;
     pe_correlation := pe_correlation e; pe_action := pe_action e; pe_resource := pe_resource e;
     pe_before := pe_before e; pe_after := pe_after e; pe_result := pe_result e |}.

Lemma parse_session_fmt fresh id : parse_session fresh (id_fmt id) = id.
Proof.
  unfold parse_session. change (AgentSessionId_from_str _) with (@id_from_str _ KAgentSession (id_fmt id)).
  by rewrite id_round_trip.
Qed.
Lemma parse_application_fmt fresh id : parse_application fresh (id_fmt id) = id.
Proof.
  unfold parse_application. change (ApplicationId_from_str _) with (@id_from_str _ KApplication (id_fmt id)).
  by rewrite id_round_trip.
Qed.
Lemma parse_environment_fmt fresh id : parse_environment fresh (id_fmt id) = id.
Proof.
  unfold parse_environment. change (EnvironmentId_from_str _) with (@id_from_str _ KEnvironment (id_fmt id)).
  by rewrite id_round_trip.
Qed.

(** The row of a draft whose texts pass the guard decodes to its event. *)
Lemma event_row_decodes draws draft secrets n actor v :
  0 ≤ n ≤ i64_max → to_value (ed_actor draft) = Ok actor →
  to_value (pe_result (stored_event draft secrets n)) = Ok v →
  let c := ed_correlation draft in
  event_from_row draws
    (mkEventRow n (pg_time (ed_at draft)) actor (trace_id c) (id_fmt <$> cor_session_id c)
       (id_fmt <$> cor_application_id c) (id_fmt <$> cor_environment_id c)
       (EventAction_canonical_name (ed_action draft)) (er_kind <$> ed_resource draft)
       (er_id <$> ed_resource draft) ((λ b, redact_reason b secrets) <$> ed_before draft)
       ((λ b, redact_reason b secrets) <$> ed_after draft) v)
  = Ok (stored_event draft secrets n).
Proof.
  intros Hn Ha Hv c. unfold event_from_row. unfold_monad.
  rewrite (to_from_value _ _ Ha), (to_from_value _ _ Hv), event_action_from_canonical.
  unfold stored_event. simpl. f_equal. f_equal.
  - unfold i64_as_u64. apply Z.mod_small. unfold i64_max, u64_max in *. lia.
  - unfold c. destruct (ed_correlation draft) as [tr [s|] [a|] [e|]]; simpl;
      by rewrite ?parse_session_fmt, ?parse_application_fmt, ?parse_environment_fmt.
  - by destruct (ed_resource draft) as [[]|].
Qed.

Lemma guarded_text field (o : option string) secrets d :
  redact_guard field (default "" o) secrets = Ok d →
  (λ _, d) <$> o = (λ b, redact_reason b secrets) <$> o.
Proof. intros ->%redact_guard_ok. by destruct o. Qed.

Lemma append_event_run draft secrets t t' n :
  append_event draft secrets t = Done (t', Ok n) →
  n = next_value t ∧ n ≤ i64_max ∧ ∃ row,
    t' = mkSerial (n + 1) (serial_rows t ++ [row]) ∧ ew_sequence row = n ∧
    (0 ≤ n → ∀ draws, event_from_row draws row = Ok (stored_event draft secrets n)).
Proof.
  unfold append_event. intros E. unfold_monad_in E.
  destruct (redact_guard "event.before" _ _) as [b|] eqn:Hb; [|done].
  destruct (redact_guard "event.after" _ _) as [a|] eqn:Ha; [|done].
  pose proof (guarded_text _ _ _ _ Hb) as Eb. pose proof (guarded_text _ _ _ _ Ha) as Ea.
  assert (∃ actor v, to_value (ed_actor draft) = Ok actor ∧
    to_value (pe_result (stored_event draft secrets n)) = Ok v ∧
    serial_insert (λ sequence, mkEventRow sequence (pg_time (ed_at draft)) actor
      (trace_id (ed_correlation draft)) (id_fmt <$> cor_session_id (ed_correlation draft))
      (id_fmt <$> cor_application_id (ed_correlation draft))
      (id_fmt <$> cor_environment_id (ed_correlation draft))
      (EventAction_canonical_name (ed_action draft)) (er_kind <$> ed_resource draft)
      (er_id <$> ed_resource draft) ((λ _, b) <$> ed_before draft) ((λ _, a) <$> ed_after draft) v) t
    = Done (t', Ok n)) as (actor & v & Hactor & Hv & Eins).
  { simpl in E. destruct (ed_result draft) as [| | |reason|] eqn:Hr.
    4: destruct (redact_guard "event.result" reason secrets) as [rr|] eqn:Hrr; [|done];
       apply redact_guard_ok in Hrr as ->.
    all: destruct (to_value (ed_actor draft)) as [actor|] eqn:Hactor; [|done];
      match type of E with context [to_value ?x] => destruct (to_value x) as [v|] eqn:Hv end; [|done];
      exists actor, v; unfold stored_event; simpl; rewrite Hr; done. }
  clear E. unfold serial_insert in Eins. unfold_monad_in Eins. case_decide as Hmax; simplify_eq/=.
  split; [done|]. split; [lia|]. eexists. split; [done|]. split; [done|]. intros Hn draws.
  rewrite Eb, Ea. apply event_row_decodes; [lia|done..].
Qed.

(** An event accepted by the durable store is the one the core event
    log makes of the draft, under the next sequence number and at the instant
    the database can store: same actor, correlation, action, resource and
    outcome, texts redacted; and reading its number back later returns it. *)
Theorem durable_event_is_core_event draws draft secrets t t' e :
  serial_wf t → event_append draws draft secrets t = Done (t', Ok e) →
  e = stored_event draft secrets (next_value t) ∧ serial_wf t' ∧
  (∀ draws' n, n < next_value t → event_get draws' n t' =
     match event_get draws' n t with Done (_, r) => Done (t', r) | Panic m => Panic m end) ∧
  (∀ draws', event_get draws' (next_value t) t' = Done (t', Ok e)).
Proof.
  intros [Hpos Hlt] E. unfold event_append in E. unfold_monad_in E.
  destruct (append_event draft secrets t) as [[t1 [n|]]|] eqn:Ea; [|done..].
  destruct (append_event_run _ _ _ _ _ Ea) as (-> & Hmax & row & -> & Hseq & Hdec).
  assert (∀ draws' n, event_get draws' n (mkSerial (next_value t + 1) (serial_rows t ++ [row])) =
    Done (mkSerial (next_value t + 1) (serial_rows t ++ [row]),
      match List.find (λ r, bool_decide (ew_sequence r = n)) (serial_rows t ++ [row]) with
      | Some r => event_from_row draws' r
      | None => Err (CpNotFound ("event " +:+ pretty n))
      end)) as Hget.
  { intros draws' n. unfold event_get. unfold_monad. by destruct (List.find _ _). }
  assert (List.find (λ r, bool_decide (ew_sequence r = next_value t)) (serial_rows t ++ [row])
          = Some row) as Hfind.
  { rewrite find_app_None; [simpl; by rewrite bool_decide_eq_true_2|].
    intros r Hr. apply bool_decide_eq_false. specialize (Hlt r Hr). lia. }
  rewrite Hget, Hfind, Hdec in E by lia. simplify_eq/=. split_and!.
  - done.
  - split; simpl; [lia|]. intros r [Hr| ->%list_elem_of_singleton]%elem_of_app; [|lia].
    specialize (Hlt r Hr). lia.
  - intros draws' n Hn. rewrite Hget.
    assert (bool_decide (ew_sequence row = n) = false) as Hne by (apply bool_decide_eq_false; lia).
    rewrite (find_app_singleton_ne (λ r, bool_decide (ew_sequence r = n)) _ _ Hne).
    unfold event_get. unfold_monad.
    by destruct (List.find (λ r : EventRow, bool_decide (ew_sequence r = n)) (serial_rows t)).
  - intros draws'. rewrite Hget, Hfind, Hdec by lia. done.
Qed.
End EventFacts.

(* ------------------------------------------------------------------ *)
(** * Retention on the evidence table *)

Lemma collect_elem {A B} (f : A → result ControlPlaneError B) l bs b :
  collect f l = Ok bs → b ∈ bs ↔ ∃ a, a ∈ l ∧ f a = Ok b.
Proof.
  revert bs. induction l as [|a l IH]; intros bs; simpl.
  { intros [= <-]. split; [by intros ?%not_elem_of_nil|]. by intros (a & []%not_elem_of_nil & _). }
  unfold_monad. destruct (f a) as [b0|] eqn:Ef; [|done].
  destruct (collect f l) as [bs0|]; [|done]. intros [= <-].
  rewrite elem_of_cons, (IH bs0) by done. split.
  - intros [->|(x & Hx & Hf)]; [exists a|exists x]; rewrite elem_of_cons; auto.
  - intros (x & [->|Hx]%elem_of_cons & Hf); [left; congruence|eauto].
Qed.

Section EvidenceFacts.
Context `{JsonLib} `{!Serde EventResource} `{PgTime}.
Implicit Types (t : gmap string EvidenceRow).

Lemma evidence_from_row_id row e : evidence_from_row row = Ok e → ve_id e = vw_id row.
Proof. unfold evidence_from_row. intros E. by run_op E. Qed.

Lemma store_of_list policy l :
  es_evidence (foldl (λ s e, EvidenceStore_append e s) (EvidenceStore_new policy) l) = l ∧
  es_policy (foldl (λ s e, EvidenceStore_append e s) (EvidenceStore_new policy) l) = policy.
Proof.
  assert (∀ s, es_evidence (foldl (λ s e, EvidenceStore_append e s) s l) = es_evidence s ++ l ∧
               es_policy (foldl (λ s e, EvidenceStore_append e s) s l) = es_policy s) as Hgen.
  { induction l as [|e l IH]; intros s; simpl; [by rewrite app_nil_r|].
    destruct (IH (EvidenceStore_append e s)) as [-> ->]. simpl. by rewrite <- app_assoc. }
  apply Hgen.
Qed.

(** Retention on the table deletes exactly the records whose
    identifiers it returns, each of them expired and none a failed blocking
    check; every other row is untouched. *)
Theorem durable_retention_spec policy now t t' removed :
  (∀ k r, t !! k = Some r → vw_id r = k) →
  evidence_retain policy now t = Done (t', Ok removed) →
  (∀ k, t' !! k = if decide (k ∈ removed) then None else t !! k) ∧
  (∀ k, k ∈ removed → ∃ row e, t !! k = Some row ∧ evidence_from_row row = Ok e ∧
     expired policy now e = true ∧ blocking_failure e = false).
Proof.
  intros Hkeyed E. unfold evidence_retain in E. unfold_monad_in E.
  destruct (evidence_all t) as [l|] eqn:Hall; [|done].
  set (st := foldl _ _ l) in E. destruct (store_of_list policy l) as [Hl Hp]. fold st in Hl, Hp.
  pose proof (retain_spec now st) as Hr. destruct (retain now st) as [st' rem] eqn:Hret.
  destruct Hr as (_ & [_ (gone & Hgone & Hperm & Hexp)] & _). rewrite Hl, Hp in *.
  simplify_eq/=. split.
  - intros k. case_decide as Hk; [by apply lookup_foldr_delete|by apply lookup_foldr_delete_not_elem_of].
  - intros k (e & -> & He)%list_elem_of_fmap. destruct (Hexp e He) as [Hx Hb].
    assert (e ∈ l) as Hel by (rewrite Hperm; set_solver).
    apply (collect_elem _ _ _ _ Hall) in Hel as (row & Hrow & Hdec).
    rewrite merge_sort_Permutation in Hrow. apply elem_of_btree_values in Hrow as (k & Hk).
    rewrite (evidence_from_row_id _ _ Hdec), (Hkeyed _ _ Hk). by exists row, e.
Qed.
End EvidenceFacts.

(* ------------------------------------------------------------------ *)
(** * Usage columns *)

Section UsageFacts.
Context `{UuidLaws} `{BuildProfile} `{PgTime}.

(** What a [bigint] column gives back of a [u64]. *)
Definition clip (z : Z) : Z := if decide (z ≤ i64_max) then z else 0.
Lemma clip_spec z : 0 ≤ z ≤ u64_max → u64_from_i64 (u64_as_i64 z) = clip z.
Proof.
  intros Hz. unfold u64_from_i64, u64_as_i64, clip.
  repeat case_decide; unfold i64_max, u64_max in *; lia.
Qed.
Definition clipped (r : UsageRecord) : UsageRecord :=
  {| ur_application_id := ur_application_id r; ur_environment_id := ur_environment_id r;
     ur_period_start := pg_time (ur_period_start r); ur_period_end := pg_time (ur_period_end r);
     ur_cpu_millicore_seconds := clip (ur_cpu_millicore_seconds r);
     ur_memory_mb_seconds := clip (ur_memory_mb_seconds r);
     ur_build_seconds := clip (ur_build_seconds r); ur_requests := clip (ur_requests r);
     ur_egress_bytes := clip (ur_egress_bytes r) |}.

(** A recorded usage row is read back with its application, for
    that application alone, with every counter up to [i64::MAX] intact and every
    larger one replaced by zero. *)
Theorem usage_row_read_back draws r t t' :
  fields_ok is_u64 r → usage_record r t = Done (t', Ok tt) →
  ∀ a, usage_rows draws a t' =
    usage_rows draws a t ++
    (if decide (a = id_fmt (ur_application_id r)) then [clipped r] else []).
Proof.
  intros (H1' & H2' & H3' & H4' & H5') E a. unfold usage_record, serial_insert in E.
  unfold_monad_in E. case_decide; simplify_eq/=. unfold usage_rows. simpl.
  rewrite List.filter_app, map_app. f_equal. simpl. case_decide as Ha.
  - rewrite bool_decide_eq_true_2 by done. simpl. unfold usage_from_row, clipped. simpl.
    rewrite parse_application_fmt, parse_environment_fmt, !clip_spec by done. done.
  - by rewrite bool_decide_eq_false_2.
Qed.
End UsageFacts.

(* ------------------------------------------------------------------ *)
(** * Examples *)

Module StoreExamples.
Import RefInstances RefPg.

(** Half a microsecond rounds up. *)
#[global] Instance ref_round : SubsecRound := { round_subsecs _ t := (t + 500) / 1000 * 1000 }.
#[global] Instance ref_round_laws : SubsecRoundLaws.
Proof. constructor. intros t. simpl. by rewrite Z.div_mul by lia. Qed.

(** Values that hold one stored contract. *)
Inductive Value := VActor (a : EventActor) | VResult (r : EventResult) | VResource (r : EventResource) | VNull.
#[local] Instance value_json : JsonLib := { Json := Value; json_null := VNull }.
#[local] Instance actor_serde : Serde EventActor := {
  serialize a := Ok (VActor a);
  deserialize v := match v with VActor a => Ok a | _ => Err "actor" end;
}.
#[local] Instance actor_serde_laws : SerdeLaws EventActor.
Proof. constructor. by intros x v [= <-]. Qed.
#[local] Instance result_serde : Serde EventResult := {
  serialize a := Ok (VResult a);
  deserialize v := match v with VResult a => Ok a | _ => Err "result" end;
}.
#[local] Instance result_serde_laws : SerdeLaws EventResult.
Proof. constructor. by intros x v [= <-]. Qed.
#[local] Instance event_resource_serde : Serde EventResource := {
  serialize a := Ok (VResource a);
  deserialize v := match v with VResource a => Ok a | _ => Err "resource" end;
}.

Definition trail1 : list AuditRecord :=
  (done_or ([], Err (CpIo "")) (append_audit 1700 "ops" "rotate" "db" "key k1" ["k1"] [])).1.
Definition second := append_audit 2600 "ci" "deploy" "web" "ok" [] trail1.
Definition no_record : AuditRecord :=
  {| ar_sequence := 0; ar_at := 0; ar_actor := ""; ar_action := ""; ar_target := "";
     ar_detail := ""; ar_prev_hash := ""; ar_hash := "" |}.
Lemma durable_audit_is_core_log_witness :
  ∃ t' r, append_audit 2600 "ci" "deploy" "web" "ok" [] trail1 = Done (t', Ok r) ∧
    AuditLog_verify (audit_load t') = Ok tt.
Proof.
  assert (audit_reachable trail1) as Hr.
  { eapply rtc_once. exists 1700, "ops", "rotate", "db", "key k1", ["k1"]. eexists.
    vm_compute. reflexivity. }
  set (t' := (done_or ([], Err (CpIo "")) second).1).
  set (r := match second with Done (_, Ok r) => r | _ => no_record end).
  assert (append_audit 2600 "ci" "deploy" "web" "ok" [] trail1 = Done (t', Ok r)) as E
    by (vm_compute; reflexivity).
  exists t', r. split; [exact E|].
  exact (proj1 (proj2 (durable_audit_is_core_log 2600 "ci" "deploy" "web" "ok" [] trail1 t' r Hr
                         ltac:(vm_compute; reflexivity) E))).
Defined.

Definition draws0 : Draws :=
  {| d_session := mkId (uuid 1); d_application := mkId (uuid 2); d_environment := mkId (uuid 3) |}.
Definition draft0 : EventDraft :=
  between "key k1" "ok" (EventDraft_new 1700 (ActHuman "ann")
    (with_application (mkId (uuid 9)) (Correlation_new "t1")) EaSecretRotated (ErFailed "k1 expired")).
Definition events0 := event_append draws0 draft0 ["k1"] empty_serial.
Lemma durable_event_is_core_event_witness :
  ∃ t' e, event_append draws0 draft0 ["k1"] empty_serial = Done (t', Ok e) ∧
    e = stored_event draft0 ["k1"] 1.
Proof.
  set (t' := (done_or (empty_serial, Err (CpIo "")) events0).1).
  set (e := stored_event draft0 ["k1"] 1).
  assert (event_append draws0 draft0 ["k1"] empty_serial = Done (t', Ok e)) as E
    by (vm_compute; reflexivity).
  assert (serial_wf empty_serial) as Hwf
    by (split; [reflexivity|intros r Hr; destruct (not_elem_of_nil r Hr)]).
  exists t', e. split; [exact E|].
  exact (proj1 (durable_event_is_core_event draws0 draft0 ["k1"] empty_serial t' e Hwf E)).
Defined.

(** An old passed check and a failed build, ten years later. *)
Definition old_check : EvidenceRow :=
  mkEvidenceRow "e1" "health" "probe" true "up" None None 0.
Definition failed_check : EvidenceRow :=
  mkEvidenceRow "e2" "build_test" "cargo test" false "1 failed" None None 0.
Definition checks : gmap string EvidenceRow := <["e1" := old_check]> (<["e2" := failed_check]> ∅).
Definition later : DateTime := 315360000 * nanos_per_sec.
Lemma durable_retention_spec_witness :
  ∃ t', evidence_retain RetentionPolicy_default later checks = Done (t', Ok ["e1"]) ∧
    t' !! "e2" = Some failed_check.
Proof.
  set (t' := (done_or (∅, Err (CpIo "")) (evidence_retain RetentionPolicy_default later checks)).1).
  assert (evidence_retain RetentionPolicy_default later checks = Done (t', Ok ["e1"])) as E
    by (vm_compute; reflexivity).
  assert (∀ k r, checks !! k = Some r → vw_id r = k) as Hk.
  { intros k r. unfold checks. rewrite !lookup_insert_Some, lookup_empty.
    intros [[<- <-]|[_ [[<- <-]|[_ ?]]]]; done. }
  exists t'. split; [exact E|].
  rewrite (proj1 (durable_retention_spec RetentionPolicy_default later checks t' ["e1"] Hk E)).
  vm_compute. reflexivity.
Defined.

(** A counter of 2^63 comes back as zero. *)
Definition heavy : UsageRecord :=
  {| ur_application_id := mkId (uuid 9); ur_environment_id := mkId (uuid 3); ur_period_start := 0;
     ur_period_end := 1000; ur_cpu_millicore_seconds := i64_max + 1; ur_memory_mb_seconds := 5;
     ur_build_seconds := 0; ur_requests := 1; ur_egress_bytes := 0 |}.
Lemma usage_row_read_back_witness :
  ∃ t', usage_record heavy empty_serial = Done (t', Ok tt) ∧
    ur_cpu_millicore_seconds <$> usage_rows draws0 (id_fmt (ur_application_id heavy)) t' = [0].
Proof.
  set (t' := (done_or (empty_serial, Ok tt) (usage_record heavy empty_serial)).1).
  assert (usage_record heavy empty_serial = Done (t', Ok tt)) as E by (vm_compute; reflexivity).
  assert (fields_ok is_u64 heavy) as Hf by (repeat split; vm_compute; discriminate).
  exists t'. split; [exact E|].
  rewrite (usage_row_read_back draws0 heavy empty_serial t' Hf E). vm_compute. reflexivity.
Defined.
End StoreExamples.
