(* ===== verification/Repos.v ===== *)
(** The durable repositories of applications, capabilities and deployments
    (repos/applications.rs, repos/capabilities.rs and repos/deployments.rs of
    labrys-control-plane) over one database: its tables with the constraints the
    statements run into, the transactions that write them and the reads that
    rebuild an aggregate. *)

From stdpp Require Import base option list strings pretty gmap sorting.
From Stdlib Require Import ZArith Lia.
From S2P Require Import Prelude External Errors Ids Resource State Deployment Capability Application.
From S2P Require Import Runtime Events AuditChain CpErrors ResourceStore CpStores.
Local Open Scope Z_scope.

(* ------------------------------------------------------------------ *)
(** * Names *)

Definition status_name (s : ApplicationStatus) : string :=
  match s with AsDraft => "draft" | AsActive => "active" | AsArchived => "archived" end.
Definition status_from_name : string → result ControlPlaneError ApplicationStatus :=
  named status_name [AsDraft; AsActive; AsArchived] "application status".
Definition observed_status_name (s : ObservedStatus) : string :=
  match s with
  | OUnknown => "unknown" | OHealthy => "healthy" | ODegraded => "degraded"
  | OUnhealthy => "unhealthy"
  end.
Definition observed_status_from_name : string → result ControlPlaneError ObservedStatus :=
  named observed_status_name [OUnknown; OHealthy; ODegraded; OUnhealthy] "observed status".
Definition mode_name (m : CapabilityMode) : string :=
  match m with Managed => "managed" | External => "external" | Adopted => "adopted" end.
Definition deployment_phase_name (p : DeploymentPhase) : string :=
  match p with
  | DpPending => "pending" | DpBuilding => "building" | DpDeploying => "deploying"
  | DpHealthy => "healthy" | DpDegraded => "degraded" | DpFailed => "failed"
  | DpSuperseded => "superseded" | DpRolledBack => "rolled_back"
  end.

Lemma status_from_status_name s : status_from_name (status_name s) = Ok s.
Proof. by destruct s. Qed.
Lemma observed_status_from_status_name s :
  observed_status_from_name (observed_status_name s) = Ok s.
Proof. by destruct s. Qed.
#[global] Arguments status_from_name : simpl never.
#[global] Arguments observed_status_from_name : simpl never.

(** A write scope: what [?] returns from is dropped without a commit. *)
Definition transaction {S E A} (m : M S E A) : M S E A := λ s,
  match m s with
  | Done (s', Ok a) => Done (s', Ok a)
  | Done (_, Err e) => Done (s, Err e)
  | Panic msg => Panic msg
  end.

(* ------------------------------------------------------------------ *)
(** * Tables *)

Section Tables.
Context `{JsonLib}.

Record ApplicationRow := mkApplicationRow {
  aw_id : string;
  aw_name : string;
  aw_origin : Json;
  aw_status : string;
  aw_created_at : DateTime;
  aw_updated_at : DateTime;
  aw_created_by : string;
  aw_updated_by : option string;
  aw_audit_event_ids : Json;
  aw_collections : Json;
}.
Record EnvironmentRow := mkEnvironmentRow {
  nw_id : string;
  nw_application_id : string;
  nw_kind : Json;
  nw_name : string;
  nw_refs : Json;
}.
Record DesiredRow := mkDesiredRow { sw_version : Z; sw_profiles : Json; sw_config : Json }.
Record ObservedRow := mkObservedRow {
  ow_desired_version : Z;
  ow_status : string;
  ow_last_observed_at : DateTime;
  ow_detail : option string;
}.
Record CapabilityRow := mkCapabilityRow {
  cw_id : string;
  cw_application_id : string;
  cw_environment_name : string;
  cw_capability : string;
  cw_provider : string;
  cw_mode : string;
  cw_binding : string;
  cw_record : Json;
  cw_updated_at : DateTime;
}.
Record DeploymentRow := mkDeploymentRow {
  dw_id : string;
  dw_application_id : string;
  dw_environment_id : string;
  dw_phase : string;
  dw_record : Json;
  dw_created_at : DateTime;
  dw_updated_at : DateTime;
}.

(** Each table under its primary key. *)
Record AppDb := mkDb {
  t_applications : gmap string ApplicationRow;
  t_environments : gmap string EnvironmentRow;
  t_desired : gmap string DesiredRow;
  t_observed : gmap string ObservedRow;
  t_resources : gmap string ResourceRow;
  t_deployments : gmap string DeploymentRow;
  t_capabilities : gmap string CapabilityRow;
  t_events : Serial EventRow;
  t_audit : list AuditRecord;
}.
Definition empty_db : AppDb := mkDb ∅ ∅ ∅ ∅ ∅ ∅ ∅ empty_serial [].
Definition set_applications t db :=
  mkDb t (t_environments db) (t_desired db) (t_observed db) (t_resources db) (t_deployments db)
    (t_capabilities db) (t_events db) (t_audit db).
Definition set_environments t db :=
  mkDb (t_applications db) t (t_desired db) (t_observed db) (t_resources db) (t_deployments db)
    (t_capabilities db) (t_events db) (t_audit db).
Definition set_desired t db :=
  mkDb (t_applications db) (t_environments db) t (t_observed db) (t_resources db)
    (t_deployments db) (t_capabilities db) (t_events db) (t_audit db).
Definition set_observed_states t db :=
  mkDb (t_applications db) (t_environments db) (t_desired db) t (t_resources db)
    (t_deployments db) (t_capabilities db) (t_events db) (t_audit db).
Definition set_resources t db :=
  mkDb (t_applications db) (t_environments db) (t_desired db) (t_observed db) t
    (t_deployments db) (t_capabilities db) (t_events db) (t_audit db).
Definition set_deployments t db :=
  mkDb (t_applications db) (t_environments db) (t_desired db) (t_observed db) (t_resources db) t
    (t_capabilities db) (t_events db) (t_audit db).
Definition set_capabilities t db :=
  mkDb (t_applications db) (t_environments db) (t_desired db) (t_observed db) (t_resources db)
    (t_deployments db) t (t_events db) (t_audit db).
Definition set_events t db :=
  mkDb (t_applications db) (t_environments db) (t_desired db) (t_observed db) (t_resources db)
    (t_deployments db) (t_capabilities db) t (t_audit db).
Definition set_audit_log t db :=
  mkDb (t_applications db) (t_environments db) (t_desired db) (t_observed db) (t_resources db)
    (t_deployments db) (t_capabilities db) (t_events db) t.

(** ** Constraints *)

Definition violates (table constraint : string) : ControlPlaneError :=
  CpDatabase ("statement on table " +:+ table +:+ " violates constraint " +:+ constraint).
Definition references {R} (table : string) (parent : gmap string R) (id : string) :
    result ControlPlaneError unit :=
  if is_some (parent !! id) then Ok tt else Err (violates table "foreign key").
(** [UNIQUE (application_id, name)], for a row about to be written. *)
Definition name_taken (db : AppDb) (row : EnvironmentRow) : bool :=
  existsb (λ r, bool_decide (nw_id r ≠ nw_id row) &&
             bool_decide (nw_application_id r = nw_application_id row) &&
             bool_decide (nw_name r = nw_name row)) (btree_values (t_environments db)).
(** [CHECK (version >= 1)]. *)
Definition version_check (version : Z) : result ControlPlaneError unit :=
  if decide (1 ≤ version) then Ok tt else Err (violates "desired_states" "version check").
End Tables.

(* ------------------------------------------------------------------ *)
(** * The application store *)

Section Applications.
Context `{UuidLib} `{JsonLib} `{PgTime} `{ChronoText} `{SubsecRound} `{BuildProfile}.
Context `{!Serde Origin} `{!Serde (list string)} `{!Serde LifecycleCollections}.
Context `{!Serde EnvironmentKind} `{!Serde EnvironmentRefs} `{!Serde (gmap string Json)}.
Context `{!Serde Json} `{!Serde EventActor} `{!Serde EventResult}.
Abbreviation Stmt A := (M AppDb ControlPlaneError A).

(** ** Writes *)

(** A conflicting row keeps who created it and when. *)
Definition upsert_application (app : Application) : Stmt unit :=
  origin ← lift_r (to_value (app_origin app));
  ids ← lift_r (to_value (audit_event_ids (app_audit app)));
  collections ← lift_r (to_value (app_collections app));
  let id := id_fmt (app_id app) in
  let row created_at created_by :=
    mkApplicationRow id (app_name app) origin (status_name (app_status app)) created_at
      (pg_time (app_updated_at app)) created_by (updated_by (app_audit app)) ids collections in
  modify (λ db,
    let row := match t_applications db !! id with
      | Some old => row (aw_created_at old) (aw_created_by old)
      | None => row (pg_time (app_created_at app)) (created_by (app_audit app))
      end in
    set_applications (<[id := row]> (t_applications db)) db).

(** A conflicting row keeps its application. *)
Definition upsert_environment (env : Environment) : Stmt unit :=
  kind ← lift_r (to_value (env_kind env));
  refs ← lift_r (to_value (env_refs env));
  db ← get;
  let id := id_fmt (env_id env) in
  let owner := match t_environments db !! id with
    | Some old => nw_application_id old
    | None => id_fmt (env_application_id env)
    end in
  let row := mkEnvironmentRow id owner kind (env_name env) refs in
  if name_taken db row then mthrow (violates "environments" "environments_ownership")
  else
    lift_r (references "environments" (t_applications db) owner);;
    put (set_environments (<[id := row]> (t_environments db)) db).
Fixpoint upsert_environments (envs : list Environment) : Stmt unit :=
  match envs with
  | [] => mret tt
  | env :: rest => upsert_environment env;; upsert_environments rest
  end.

Definition upsert_desired_state (id : ApplicationId) (state : DesiredState) : Stmt unit :=
  profiles ← lift_r (to_value (ds_profiles state));
  config ← lift_r (to_value (ds_config state));
  let version := u64_as_i64 (ds_version state) in
  lift_r (version_check version);;
  db ← get;
  lift_r (references "desired_states" (t_applications db) (id_fmt id));;
  put (set_desired (<[id_fmt id := mkDesiredRow version profiles config]> (t_desired db)) db).

(** The number of rows written. *)
Definition upsert_observed_state_conn (id : ApplicationId) (state : ObservedState) : Stmt Z :=
  db ← get;
  lift_r (references "observed_states" (t_applications db) (id_fmt id));;
  put (set_observed_states
    (<[id_fmt id := mkObservedRow (u64_as_i64 (os_desired_version state))
                      (observed_status_name (os_status state))
                      (pg_time (os_last_observed_at state)) (os_detail state)]> (t_observed db)) db);;
  mret 1.
Definition upsert_observed_state (id : ApplicationId) (state : ObservedState) : Stmt unit :=
  upsert_observed_state_conn id state;; mret tt.

Definition application_save (app : Application) : Stmt unit :=
  transaction
    (upsert_application app;;
     upsert_environments (app_environments app);;
     upsert_desired_state (app_id app) (app_desired_state app);;
     upsert_observed_state (app_id app) (app_observed_state app)).

(** ** Reads *)

(** [now] is the instant [ObservedState::unknown] reads. *)
Definition application_from_row (now : DateTime) (row : ApplicationRow) :
    result ControlPlaneError Application :=
  id ← match ApplicationId_from_str (aw_id row) with
       | Ok id => Ok id
       | Err _ => Err (CpMapping ("invalid application id " +:+ aw_id row))
       end;
  origin ← from_value (aw_origin row);
  status ← status_from_name (aw_status row);
  ids ← from_value (aw_audit_event_ids row);
  collections ← from_value (aw_collections row);
  Ok (mkApplication id (aw_name row) origin status (aw_created_at row) (aw_updated_at row)
        {| created_by := aw_created_by row; updated_by := aw_updated_by row;
           audit_event_ids := ids |} [] DesiredState_initial (ObservedState_unknown 1 now) collections).
Definition environment_from_row (row : EnvironmentRow) : result ControlPlaneError Environment :=
  id ← match EnvironmentId_from_str (nw_id row) with
       | Ok id => Ok id
       | Err _ => Err (CpMapping ("invalid environment id " +:+ nw_id row))
       end;
  application_id ← match ApplicationId_from_str (nw_application_id row) with
       | Ok id => Ok id
       | Err _ => Err (CpMapping ("invalid application id " +:+ nw_application_id row))
       end;
  kind ← from_value (nw_kind row);
  refs ← from_value (nw_refs row);
  Ok {| env_id := id; env_application_id := application_id; env_kind := kind;
        env_name := nw_name row; env_refs := refs |}.
Definition observed_state_from_row (row : ObservedRow) : result ControlPlaneError ObservedState :=
  status ← observed_status_from_name (ow_status row);
  Ok {| os_desired_version := i64_as_u64 (ow_desired_version row); os_status := status;
        os_last_observed_at := ow_last_observed_at row; os_detail := ow_detail row |}.

(** [ORDER BY name]. *)
Definition name_le (a b : EnvironmentRow) : Prop := String.le (nw_name a) (nw_name b).
#[local] Instance name_le_dec a b : Decision (name_le a b).
Proof. unfold name_le. apply _. Defined.
Definition load_environments (db : AppDb) (id : ApplicationId) :
    result ControlPlaneError (list Environment) :=
  collect environment_from_row (merge_sort name_le
    (List.filter (λ r, bool_decide (nw_application_id r = id_fmt id))
       (btree_values (t_environments db)))).
Definition load_desired_state (db : AppDb) (id : ApplicationId) :
    result ControlPlaneError DesiredState :=
  row ← ok_or (CpNotFound ("desired state for " +:+ id_fmt id)) (t_desired db !! id_fmt id);
  profiles ← from_value (sw_profiles row);
  config ← from_value (sw_config row);
  Ok {| ds_version := i64_as_u64 (sw_version row); ds_profiles := profiles; ds_config := config |}.
Definition load_observed_state (db : AppDb) (id : ApplicationId) :
    result ControlPlaneError ObservedState :=
  row ← ok_or (CpNotFound ("observed state for " +:+ id_fmt id)) (t_observed db !! id_fmt id);
  observed_state_from_row row.

(** An application row with its environments and states. *)
Definition load_aggregate (now : DateTime) (db : AppDb) (row : ApplicationRow) :
    result ControlPlaneError Application :=
  app ← application_from_row now row;
  environments ← load_environments db (app_id app);
  desired ← load_desired_state db (app_id app);
  observed ← load_observed_state db (app_id app);
  Ok (app_set_observed observed (app_set_desired desired (app_set_environments environments app))).
Definition application_get (now : DateTime) (id : ApplicationId) (db : AppDb) :
    result ControlPlaneError Application :=
  row ← ok_or (CpNotFound (id_fmt id)) (t_applications db !! id_fmt id);
  load_aggregate now db row.

(** [ORDER BY created_at, id]. *)
Definition created_id_le (a b : ApplicationRow) : Prop :=
  aw_created_at a < aw_created_at b ∨
  aw_created_at a = aw_created_at b ∧ String.le (aw_id a) (aw_id b).
#[local] Instance created_id_le_dec a b : Decision (created_id_le a b).
Proof. unfold created_id_le. apply _. Defined.
Definition application_list (now : DateTime) (db : AppDb) :
    result ControlPlaneError (list Application) :=
  collect (load_aggregate now db) (merge_sort created_id_le (btree_values (t_applications db))).

(** ** Deletion *)

(** [ON DELETE CASCADE]: the rows that refer to the application, and those that
    refer to one of its environments. *)
Definition owned_environment (db : AppDb) (id e : string) : bool :=
  match t_environments db !! e with
  | Some row => bool_decide (nw_application_id row = id)
  | None => false
  end.
Definition cascade (id : string) (db : AppDb) : AppDb :=
  mkDb (delete id (t_applications db))
    (filter (λ p, nw_application_id p.2 ≠ id) (t_environments db))
    (delete id (t_desired db)) (delete id (t_observed db))
    (filter (λ p, rr_application_id p.2 ≠ id ∧
               from_option (owned_environment db id) false (rr_environment_id p.2) = false)
       (t_resources db))
    (filter (λ p, dw_application_id p.2 ≠ id ∧ owned_environment db id (dw_environment_id p.2) = false)
       (t_deployments db))
    (filter (λ p, cw_application_id p.2 ≠ id) (t_capabilities db))
    (t_events db) (t_audit db).
Definition application_delete (id : ApplicationId) : Stmt unit :=
  db ← get;
  match t_applications db !! id_fmt id with
  | None => mthrow (CpNotFound (id_fmt id))
  | Some _ => put (cascade (id_fmt id) db)
  end.

(** ** Guarded updates *)

Definition touch_row (at_ : DateTime) (by_ : option string) (row : ApplicationRow) : ApplicationRow :=
  mkApplicationRow (aw_id row) (aw_name row) (aw_origin row) (aw_status row) (aw_created_at row)
    (pg_time at_) (aw_created_by row) by_ (aw_audit_event_ids row) (aw_collections row).
Definition touch_application (id : ApplicationId) (at_ : DateTime)
    (by_ : option string → option string) : Stmt unit :=
  modify (λ db, set_applications
    (alter (λ row, touch_row at_ (by_ (aw_updated_by row)) row) (id_fmt id) (t_applications db)) db).
Definition current_desired_version (db : AppDb) (id : ApplicationId) : result ControlPlaneError Z :=
  ok_or (CpNotFound (id_fmt id)) (sw_version <$> t_desired db !! id_fmt id).

(** The transaction of an update, once the guarded row is found: what [UPDATE]
    writes, the touched application, the event and the audit record. *)
Definition commit_desired (now : DateTime) (id : ApplicationId) (row : DesiredRow)
    (event : EventDraft) (audit_detail updated_by : string) (secrets : list string) : Stmt unit :=
  lift_r (version_check (sw_version row));;
  modify (λ db, set_desired (<[id_fmt id := row]> (t_desired db)) db);;
  touch_application id now (λ _, Some updated_by);;
  _ ← zoom t_events set_events (append_event event secrets);
  _ ← zoom t_audit set_audit_log
    (append_audit now updated_by "desired_state_update" (id_fmt id) audit_detail secrets);
  mret tt.
(** [now] is read inside the transaction, [now'] by the final read. *)
Definition store_update_desired (now now' : DateTime) (id : ApplicationId) (expected_version : Z)
    (next : DesiredState) (event : EventDraft) (audit_detail updated_by : string)
    (secrets : list string) : Stmt Application :=
  following ← lift_o (add_unsigned u64_max expected_version 1);
  if decide (ds_version next ≠ following) then
    mthrow (CpConflict ("next desired version " +:+ pretty (ds_version next)
              +:+ " is not expected_version+1 " +:+ pretty following))
  else
    profiles ← lift_r (to_value (ds_profiles next));
    config ← lift_r (to_value (ds_config next));
    db ← get;
    let row := mkDesiredRow (u64_as_i64 (ds_version next)) profiles config in
    match t_desired db !! id_fmt id with
    | Some old =>
        if decide (sw_version old = u64_as_i64 expected_version) then
          transaction (commit_desired now id row event audit_detail updated_by secrets);;
          db ← get; lift_r (application_get now' id db)
        else
          current ← lift_r (current_desired_version db id);
          mthrow (CpConflict ("desired-state generation conflict for " +:+ id_fmt id
                    +:+ ": expected " +:+ pretty expected_version +:+ ", stored " +:+ pretty current))
    | None =>
        current ← lift_r (current_desired_version db id);
        mthrow (CpConflict ("desired-state generation conflict for " +:+ id_fmt id
                  +:+ ": expected " +:+ pretty expected_version +:+ ", stored " +:+ pretty current))
    end.

Definition store_observation (id : ApplicationId) (observed : ObservedState) : Stmt unit :=
  transaction
    (affected ← upsert_observed_state_conn id observed;
     if decide (affected = 0) then mthrow (CpNotFound (id_fmt id))
     else touch_application id (os_last_observed_at observed) (λ by_, by_)).

Definition set_environment_refs (application_id : ApplicationId) (environment_id : EnvironmentId)
    (refs : EnvironmentRefs) : Stmt unit :=
  value ← lift_r (to_value refs);
  db ← get;
  let denied := CpEnvironmentIsolation ("environment " +:+ id_fmt environment_id
    +:+ " does not belong to application " +:+ id_fmt application_id) in
  match t_environments db !! id_fmt environment_id with
  | Some row =>
      if decide (nw_application_id row = id_fmt application_id) then
        put (set_environments (<[id_fmt environment_id :=
          mkEnvironmentRow (nw_id row) (nw_application_id row) (nw_kind row) (nw_name row) value]>
          (t_environments db)) db)
      else mthrow denied
  | None => mthrow denied
  end.
End Applications.

(* ------------------------------------------------------------------ *)
(** * Capabilities and deployments *)

Section Snapshots.
Context `{UuidLib} `{JsonLib} `{PgTime} `{!Serde BoundCapability} `{!Serde Deployment}.
Abbreviation Stmt A := (M AppDb ControlPlaneError A).

(** A conflicting row keeps every column but mode, record and time. *)
Definition capability_save (bound : BoundCapability) (now : DateTime) : Stmt unit :=
  record ← lift_r (to_value bound);
  db ← get;
  let id := id_fmt (bc_id bound) in
  match t_capabilities db !! id with
  | Some old =>
      put (set_capabilities (<[id := mkCapabilityRow (cw_id old) (cw_application_id old)
        (cw_environment_name old) (cw_capability old) (cw_provider old) (mode_name (bc_mode bound))
        (cw_binding old) record (pg_time now)]> (t_capabilities db)) db)
  | None =>
      lift_r (references "capabilities" (t_applications db) (id_fmt (bc_application_id bound)));;
      put (set_capabilities (<[id := mkCapabilityRow id (id_fmt (bc_application_id bound))
        (bc_environment_name bound) (bc_capability bound) (bc_provider bound)
        (mode_name (bc_mode bound)) (bc_binding bound) record (pg_time now)]> (t_capabilities db)) db)
  end.
Definition capability_get (id : BindingId) (db : AppDb) : result ControlPlaneError BoundCapability :=
  row ← ok_or (CpNotFound (id_fmt id)) (t_capabilities db !! id_fmt id);
  from_value (cw_record row).
(** [ORDER BY capability]; rows with one capability come in the order [scan] of
    the table. *)
Definition capability_le (a b : CapabilityRow) : Prop := String.le (cw_capability a) (cw_capability b).
#[local] Instance capability_le_dec a b : Decision (capability_le a b).
Proof. unfold capability_le. apply _. Defined.
Definition capability_list_for_application (scan : gmap string CapabilityRow → list CapabilityRow)
    (application_id : ApplicationId) (db : AppDb) : result ControlPlaneError (list BoundCapability) :=
  collect (λ row, from_value (cw_record row)) (merge_sort capability_le
    (List.filter (λ r, bool_decide (cw_application_id r = id_fmt application_id))
       (scan (t_capabilities db)))).

(** A conflicting row keeps its application, environment and creation. *)
Definition deployment_save (deployment : Deployment) (now : DateTime) : Stmt unit :=
  record ← lift_r (to_value deployment);
  db ← get;
  let id := id_fmt (dep_id deployment) in
  let phase := deployment_phase_name (dep_phase deployment) in
  match t_deployments db !! id with
  | Some old =>
      put (set_deployments (<[id := mkDeploymentRow (dw_id old) (dw_application_id old)
        (dw_environment_id old) phase record (dw_created_at old) (pg_time now)]> (t_deployments db)) db)
  | None =>
      lift_r (references "deployments" (t_applications db) (id_fmt (dep_application_id deployment)));;
      lift_r (references "deployments" (t_environments db) (id_fmt (dep_environment_id deployment)));;
      put (set_deployments (<[id := mkDeploymentRow id (id_fmt (dep_application_id deployment))
        (id_fmt (dep_environment_id deployment)) phase record (pg_time now) (pg_time now)]>
        (t_deployments db)) db)
  end.
Definition deployment_get (id : DeploymentId) (db : AppDb) : result ControlPlaneError Deployment :=
  row ← ok_or (CpNotFound (id_fmt id)) (t_deployments db !! id_fmt id);
  from_value (dw_record row).
(** [ORDER BY created_at, id]. *)
Definition deployment_le (a b : DeploymentRow) : Prop :=
  dw_created_at a < dw_created_at b ∨
  dw_created_at a = dw_created_at b ∧ String.le (dw_id a) (dw_id b).
#[local] Instance deployment_le_dec a b : Decision (deployment_le a b).
Proof. unfold deployment_le. apply _. Defined.
Definition deployment_list_for_environment (application_id : ApplicationId)
    (environment_id : EnvironmentId) (db : AppDb) : result ControlPlaneError (list Deployment) :=
  collect (λ row, from_value (dw_record row)) (merge_sort deployment_le
    (List.filter (λ r, bool_decide (dw_application_id r = id_fmt application_id) &&
                   bool_decide (dw_environment_id r = id_fmt environment_id))
       (btree_values (t_deployments db)))).
Definition set_phase (id : DeploymentId) (phase : DeploymentPhase) (now : DateTime) : Stmt Deployment :=
  db ← get;
  deployment ← lift_r (deployment_get id db);
  deployment_save (dep_set_phase phase deployment) now;;
  db ← get;
  lift_r (deployment_get id db).
End Snapshots.

(* ------------------------------------------------------------------ *)
(** * The operations as one machine *)

Definition is_known {R} (t : gmap string R) (id : string) : bool := is_some (t !! id).
Definition u64_range (z : Z) : Prop := 0 ≤ z ≤ u64_max.

Section Machine.
Context `{UuidLib} `{JsonLib} `{PgTime} `{ChronoText} `{SubsecRound} `{BuildProfile}.
Context `{!Serde Origin} `{!Serde (list string)} `{!Serde LifecycleCollections}.
Context `{!Serde EnvironmentKind} `{!Serde EnvironmentRefs} `{!Serde (gmap string Json)}.
Context `{!Serde Json} `{!Serde EventActor} `{!Serde EventResult}.
Context `{!Serde BoundCapability} `{!Serde Deployment}.
Context `{!Serde FailureRecord} `{!Serde (list ResourceTransition)}.

Inductive RepoOp :=
| RoSave (app : Application)
| RoDelete (id : ApplicationId)
| RoUpdate (now now' : DateTime) (id : ApplicationId) (expected : Z) (next : DesiredState)
    (event : EventDraft) (detail by_ : string) (secrets : list string)
| RoObserve (id : ApplicationId) (observed : ObservedState)
| RoRefs (id : ApplicationId) (environment : EnvironmentId) (refs : EnvironmentRefs)
| RoCapability (bound : BoundCapability) (now : DateTime)
| RoDeployment (deployment : Deployment) (now : DateTime)
| RoPhase (id : DeploymentId) (phase : DeploymentPhase) (now : DateTime)
| RoResource (resource : Resource) (id : ApplicationId) (environment : option EnvironmentId)
    (now : DateTime).
Definition run_repo (op : RepoOp) : M AppDb ControlPlaneError unit :=
  match op with
  | RoSave app => application_save app
  | RoDelete id => application_delete id
  | RoUpdate now now' id expected next event detail by_ secrets =>
      store_update_desired now now' id expected next event detail by_ secrets;; mret tt
  | RoObserve id observed => store_observation id observed
  | RoRefs id environment refs => set_environment_refs id environment refs
  | RoCapability bound now => capability_save bound now
  | RoDeployment deployment now => deployment_save deployment now
  | RoPhase id phase now => set_phase id phase now;; mret tt
  | RoResource resource id environment now =>
      db ← get;
      zoom t_resources set_resources
        (resource_save resource id environment now (is_known (t_applications db))
           (is_known (t_environments db)))
  end.
(** The versions an operation carries are 64-bit. *)
Definition op_typed (op : RepoOp) : Prop :=
  match op with
  | RoSave app =>
      u64_range (ds_version (app_desired_state app)) ∧
      u64_range (os_desired_version (app_observed_state app))
  | RoUpdate _ _ _ expected next _ _ _ _ => u64_range expected ∧ u64_range (ds_version next)
  | RoObserve _ observed => u64_range (os_desired_version observed)
  | _ => True
  end.
Definition db_step (db db' : AppDb) : Prop :=
  ∃ op r, op_typed op ∧ run_repo op db = Done (db', r).
Definition db_reachable (db : AppDb) : Prop := rtc db_step empty_db db.
(** The operations that keep the generation check: all but saving or deleting a
    whole aggregate. *)
Definition guarded (op : RepoOp) : Prop :=
  match op with RoSave _ | RoDelete _ => False | _ => True end.
Definition guarded_step (db db' : AppDb) : Prop :=
  ∃ op r, guarded op ∧ op_typed op ∧ run_repo op db = Done (db', r).

(** ** What a stored row satisfies *)

Definition application_ok (k : string) (r : ApplicationRow) : Prop :=
  aw_id r = k ∧ ∀ now, ∃ a, application_from_row now r = Ok a ∧ id_fmt (app_id a) = k.
Definition environment_ok (db : AppDb) (k : string) (r : EnvironmentRow) : Prop :=
  nw_id r = k ∧ is_Some (t_applications db !! nw_application_id r) ∧
  ∃ e, environment_from_row r = Ok e ∧ id_fmt (env_id e) = k.
Definition desired_ok (db : AppDb) (k : string) (r : DesiredRow) : Prop :=
  is_Some (t_applications db !! k) ∧ 1 ≤ sw_version r ≤ i64_max ∧
  (∃ p : gmap string Json, from_value (sw_profiles r) = Ok p) ∧
  ∃ c : Json, from_value (sw_config r) = Ok c.
Definition observed_ok (db : AppDb) (k : string) (r : ObservedRow) : Prop :=
  is_Some (t_applications db !! k) ∧ ∃ o, observed_state_from_row r = Ok o.
Definition resource_ok (db : AppDb) (k : string) (r : ResourceRow) : Prop :=
  is_Some (t_applications db !! rr_application_id r) ∧
  ∀ e, rr_environment_id r = Some e → is_Some (t_environments db !! e).
Definition deployment_ok (db : AppDb) (k : string) (r : DeploymentRow) : Prop :=
  dw_id r = k ∧ is_Some (t_applications db !! dw_application_id r) ∧
  is_Some (t_environments db !! dw_environment_id r) ∧
  ∃ d, from_value (dw_record r) = Ok d ∧ id_fmt (dep_id d) = k ∧
    dw_phase r = deployment_phase_name (dep_phase d).
Definition capability_ok (db : AppDb) (k : string) (r : CapabilityRow) : Prop :=
  cw_id r = k ∧ is_Some (t_applications db !! cw_application_id r) ∧
  ∃ b, from_value (cw_record r) = Ok b ∧ id_fmt (bc_id b) = k ∧ cw_mode r = mode_name (bc_mode b).
Definition names_unique (t : gmap string EnvironmentRow) : Prop :=
  ∀ k1 k2 r1 r2, t !! k1 = Some r1 → t !! k2 = Some r2 →
    nw_application_id r1 = nw_application_id r2 → nw_name r1 = nw_name r2 → k1 = k2.

(** Rows decode, references resolve, names are unique. *)
Record db_ok (db : AppDb) : Prop := {
  ok_applications : map_Forall application_ok (t_applications db);
  ok_environments : map_Forall (environment_ok db) (t_environments db);
  ok_names : names_unique (t_environments db);
  ok_desired : map_Forall (desired_ok db) (t_desired db);
  ok_observed : map_Forall (observed_ok db) (t_observed db);
  ok_resources : map_Forall (resource_ok db) (t_resources db);
  ok_deployments : map_Forall (deployment_ok db) (t_deployments db);
  ok_capabilities : map_Forall (capability_ok db) (t_capabilities db);
}.
(** Every application has both states. *)
Definition complete (db : AppDb) : Prop :=
  ∀ k, is_Some (t_applications db !! k) → is_Some (t_desired db !! k) ∧ is_Some (t_observed db !! k).
End Machine.
#[global] Arguments application_from_row : simpl never.
#[global] Arguments environment_from_row : simpl never.
#[global] Arguments observed_state_from_row : simpl never.

(* ------------------------------------------------------------------ *)
(** * Integrity *)

Section Integrity.
Context `{UuidLaws} `{JsonLib} `{PgTime} `{ChronoText} `{SubsecRound} `{BuildProfile}.
Context `{!Serde Origin} `{!Serde (list string)} `{!Serde LifecycleCollections}.
Context `{!Serde EnvironmentKind} `{!Serde EnvironmentRefs} `{!Serde (gmap string Json)}.
Context `{!Serde Json} `{!Serde EventActor} `{!Serde EventResult}.
Context `{!Serde BoundCapability} `{!Serde Deployment}.
Context `{!Serde FailureRecord} `{!Serde (list ResourceTransition)}.
Context `{!SerdeLaws Origin} `{!SerdeLaws (list string)} `{!SerdeLaws LifecycleCollections}.
Context `{!SerdeLaws EnvironmentKind} `{!SerdeLaws EnvironmentRefs} `{!SerdeLaws (gmap string Json)}.
Context `{!SerdeLaws Json} `{!SerdeLaws BoundCapability} `{!SerdeLaws Deployment}.
Implicit Types (db : AppDb) (k : string) (id : ApplicationId).

Lemma is_Some_insert {R} (m : gmap string R) k v j : is_Some (m !! j) → is_Some (<[k := v]> m !! j).
Proof. destruct (decide (j = k)) as [->|]; intros; simplify_map_eq; eauto. Qed.
Lemma is_Some_alter {R} (f : R → R) (m : gmap string R) k j :
  is_Some (alter f k m !! j) ↔ is_Some (m !! j).
Proof. rewrite lookup_alter. case_decide; subst; by rewrite ?fmap_is_Some. Qed.

(** Writing one table. *)
Lemma ok_set_applications db t :
  db_ok db → map_Forall application_ok t →
  (∀ j, is_Some (t_applications db !! j) → is_Some (t !! j)) → db_ok (set_applications t db).
Proof.
  intros [] Ht Hm. constructor; simpl; try done.
  all: eapply map_Forall_impl; [eassumption|]; unfold environment_ok, desired_ok, observed_ok,
    resource_ok, deployment_ok, capability_ok; simpl; naive_solver.
Qed.
Lemma ok_set_environments db t :
  db_ok db → map_Forall (environment_ok db) t → names_unique t →
  (∀ j, is_Some (t_environments db !! j) → is_Some (t !! j)) → db_ok (set_environments t db).
Proof.
  intros [] Ht Hn Hm. constructor; simpl; try done.
  all: eapply map_Forall_impl; [eassumption|]; unfold resource_ok, deployment_ok; simpl; naive_solver.
Qed.
Lemma ok_insert_desired db k r :
  db_ok db → desired_ok db k r → db_ok (set_desired (<[k := r]> (t_desired db)) db).
Proof. intros [] Hr. constructor; simpl; try done. by apply map_Forall_insert_2. Qed.
Lemma ok_insert_observed db k r :
  db_ok db → observed_ok db k r → db_ok (set_observed_states (<[k := r]> (t_observed db)) db).
Proof. intros [] Hr. constructor; simpl; try done. by apply map_Forall_insert_2. Qed.
Lemma ok_insert_resource db k r :
  db_ok db → resource_ok db k r → db_ok (set_resources (<[k := r]> (t_resources db)) db).
Proof. intros [] Hr. constructor; simpl; try done. by apply map_Forall_insert_2. Qed.
Lemma ok_insert_deployment db k r :
  db_ok db → deployment_ok db k r → db_ok (set_deployments (<[k := r]> (t_deployments db)) db).
Proof. intros [] Hr. constructor; simpl; try done. by apply map_Forall_insert_2. Qed.
Lemma ok_insert_capability db k r :
  db_ok db → capability_ok db k r → db_ok (set_capabilities (<[k := r]> (t_capabilities db)) db).
Proof. intros [] Hr. constructor; simpl; try done. by apply map_Forall_insert_2. Qed.
Lemma ok_set_trails db e l : db_ok db → db_ok (set_audit_log l (set_events e db)).
Proof. by intros []; constructor. Qed.

Lemma ApplicationId_round_trip id : ApplicationId_from_str (id_fmt id) = Ok id.
Proof. change (@id_from_str _ KApplication (id_fmt id) = Ok id). apply id_round_trip. Qed.
Lemma EnvironmentId_round_trip (id : EnvironmentId) : EnvironmentId_from_str (id_fmt id) = Ok id.
Proof. change (@id_from_str _ KEnvironment (id_fmt id) = Ok id). apply id_round_trip. Qed.

Lemma references_Ok {R} table (parent : gmap string R) i :
  references table parent i = Ok tt ↔ is_Some (parent !! i).
Proof. unfold references. destruct (parent !! i); simpl; split; [by eauto|done|done|by intros []]. Qed.
Lemma version_check_Ok v : version_check v = Ok tt ↔ 1 ≤ v.
Proof. unfold version_check. case_decide; naive_solver. Qed.
Lemma as_i64_le z : u64_range z → u64_as_i64 z ≤ i64_max.
Proof. unfold u64_range, u64_as_i64, u64_max, i64_max. case_decide; lia. Qed.
Lemma name_taken_false db row :
  map_Forall (environment_ok db) (t_environments db) → name_taken db row = false →
  ∀ k r, t_environments db !! k = Some r → nw_application_id r = nw_application_id row →
    nw_name r = nw_name row → k = nw_id row.
Proof.
  intros Hok Hn k r Hr Ha Hnm. unfold name_taken in Hn. rewrite existsb_false in Hn.
  destruct (Hok _ _ Hr) as [Hid _]. subst k.
  specialize (Hn r). rewrite elem_of_btree_values in Hn. specialize (Hn (ex_intro _ _ Hr)).
  rewrite (bool_decide_eq_true_2 _ Ha), (bool_decide_eq_true_2 _ Hnm), !andb_true_r in Hn.
  apply bool_decide_eq_false in Hn. by destruct (decide (nw_id r = nw_id row)).
Qed.

(** *** The statements *)

Lemma upsert_application_Ok app db db' :
  upsert_application app db = Done (db', Ok tt) →
  ∃ row, db' = set_applications (<[id_fmt (app_id app) := row]> (t_applications db)) db ∧
    application_ok (id_fmt (app_id app)) row ∧
    aw_name row = app_name app ∧ aw_updated_at row = pg_time (app_updated_at app) ∧
    from_value (aw_origin row) = Ok (app_origin app) ∧
    aw_status row = status_name (app_status app) ∧ aw_updated_by row = updated_by (app_audit app) ∧
    from_value (aw_audit_event_ids row) = Ok (audit_event_ids (app_audit app)) ∧
    from_value (aw_collections row) = Ok (app_collections app) ∧
    match t_applications db !! id_fmt (app_id app) with
    | Some old => aw_created_at row = aw_created_at old ∧ aw_created_by row = aw_created_by old
    | None => aw_created_at row = pg_time (app_created_at app) ∧
              aw_created_by row = created_by (app_audit app)
    end.
Proof.
  unfold upsert_application. intros E. unfold_monad_in E.
  destruct (to_value (app_origin app)) as [o|] eqn:Ho; [|done].
  destruct (to_value (audit_event_ids _)) as [i|] eqn:Hi; [|done].
  destruct (to_value (app_collections app)) as [c|] eqn:Hc; [|done]. simplify_eq/=.
  apply to_from_value in Ho. apply to_from_value in Hi. apply to_from_value in Hc.
  eexists. split; [done|]. unfold application_ok, application_from_row.
  destruct (t_applications db !! _) as [old|]; simpl; split_and!; try done; intros now; unfold_monad;
    rewrite ApplicationId_round_trip, Ho, status_from_status_name, Hi, Hc; eauto.
Qed.
Lemma upsert_environment_Ok env db db' :
  db_ok db → upsert_environment env db = Done (db', Ok tt) →
  ∃ row, db' = set_environments (<[id_fmt (env_id env) := row]> (t_environments db)) db ∧
    environment_ok db (id_fmt (env_id env)) row ∧ db_ok db' ∧ nw_name row = env_name env ∧
    from_value (nw_kind row) = Ok (env_kind env) ∧ from_value (nw_refs row) = Ok (env_refs env) ∧
    nw_application_id row = match t_environments db !! id_fmt (env_id env) with
                            | Some old => nw_application_id old
                            | None => id_fmt (env_application_id env)
                            end.
Proof.
  intros Hok E. unfold upsert_environment in E. unfold_monad_in E.
  destruct (to_value (env_kind env)) as [kd|] eqn:Hk; [|done].
  destruct (to_value (env_refs env)) as [rf|] eqn:Hr; [|done].
  case_match eqn:Hn; [done|]. destruct (references _ _ _) as [[]|] eqn:Href; [|done]. simplify_eq/=.
  apply to_from_value in Hk. apply to_from_value in Hr. apply references_Ok in Href.
  set (row := mkEnvironmentRow _ _ _ _ _) in *.
  assert (environment_ok db (id_fmt (env_id env)) row) as Hrow.
  { split; [done|]. split; [done|]. destruct Href as [ar Ha].
    destruct (ok_applications db Hok _ _ Ha) as [_ Hdec]. destruct (Hdec 0) as (a & _ & Hid).
    unfold environment_from_row. unfold_monad. rewrite EnvironmentId_round_trip.
    rewrite <- Hid, ApplicationId_round_trip, Hk, Hr. eauto. }
  exists row. split; [done|]. split; [done|]. split; [|done].
  apply ok_set_environments; [done|by apply map_Forall_insert_2; [|apply Hok]| |].
  - pose proof (name_taken_false db row (ok_environments db Hok) Hn) as Hfree.
    intros k1 k2 r1 r2 Hk1 Hk2 Ha Hnm. rewrite lookup_insert_Some in Hk1, Hk2.
    destruct Hk1 as [[<- <-]|[Hne1 Hk1]], Hk2 as [[<- <-]|[Hne2 Hk2]]; [done|..].
    + symmetry. by apply (Hfree _ r2).
    + by apply (Hfree _ r1).
    + by eapply (ok_names db Hok).
  - intros j. apply is_Some_insert.
Qed.
Lemma upsert_environments_Ok envs db db' :
  db_ok db → upsert_environments envs db = Done (db', Ok tt) →
  ∃ t, db' = set_environments t db ∧ db_ok db'.
Proof.
  revert db. induction envs as [|env envs IH]; intros db Hok; simpl.
  { intros [= <-]. exists (t_environments db). by destruct db. }
  intros (db1 & [] & E1 & E2)%M_bind_Ok.
  apply upsert_environment_Ok in E1 as (row & -> & _ & Hok1 & _); [|done].
  apply IH in E2 as (t & -> & ?); [|done]. by exists t.
Qed.
Lemma upsert_desired_Ok id state db db' :
  db_ok db → u64_range (ds_version state) →
  upsert_desired_state id state db = Done (db', Ok tt) →
  ∃ row, db' = set_desired (<[id_fmt id := row]> (t_desired db)) db ∧ db_ok db' ∧
    sw_version row = u64_as_i64 (ds_version state) ∧ from_value (sw_profiles row) = Ok (ds_profiles state) ∧
    from_value (sw_config row) = Ok (ds_config state).
Proof.
  intros Hok Hv E. unfold upsert_desired_state in E. unfold_monad_in E.
  destruct (to_value (ds_profiles state)) as [p|] eqn:Hp; [|done].
  destruct (to_value (ds_config state)) as [c|] eqn:Hc; [|done].
  destruct (version_check _) as [[]|] eqn:Hver; [|done].
  destruct (references _ _ _) as [[]|] eqn:Href; [|done]. simplify_eq/=.
  apply to_from_value in Hp. apply to_from_value in Hc. apply references_Ok in Href.
  apply version_check_Ok in Hver. eexists. split; [done|]. split; [|done].
  apply ok_insert_desired; [done|]. split_and!; simpl; eauto using as_i64_le.
Qed.
Lemma upsert_observed_Ok id state db db' n :
  db_ok db → upsert_observed_state_conn id state db = Done (db', Ok n) →
  ∃ row, db' = set_observed_states (<[id_fmt id := row]> (t_observed db)) db ∧ db_ok db' ∧ n = 1 ∧
    row = mkObservedRow (u64_as_i64 (os_desired_version state)) (observed_status_name (os_status state))
            (pg_time (os_last_observed_at state)) (os_detail state).
Proof.
  intros Hok E. unfold upsert_observed_state_conn in E. unfold_monad_in E.
  destruct (references _ _ _) as [[]|] eqn:Href; [|done]. simplify_eq/=. apply references_Ok in Href.
  eexists. split; [done|]. split; [|done]. apply ok_insert_observed; [done|]. split; [done|].
  unfold observed_state_from_row. simpl. unfold_monad. rewrite observed_status_from_status_name. eauto.
Qed.

(** ** Loading *)

Lemma collect_Forall2 {A B} (f : A → result ControlPlaneError B) l :
  (∀ a, a ∈ l → ∃ b, f a = Ok b) → ∃ bs, collect f l = Ok bs ∧ Forall2 (λ a b, f a = Ok b) l bs.
Proof.
  induction l as [|a l IH]; intros Hl; simpl; [by exists []|].
  destruct (Hl a ltac:(left)) as [b Hb]. destruct IH as (bs & Hbs & HF); [intros; apply Hl; by right|].
  exists (b :: bs). split; [|by constructor]. rewrite Hb. simpl. by rewrite Hbs.
Qed.
Lemma NoDup_map_lfilter {A B} (f : A → B) p l : NoDup (map f l) → NoDup (map f (List.filter p l)).
Proof.
  induction l as [|a l IH]; [done|]. simpl. rewrite NoDup_cons. intros [Ha Hl]. destruct (p a); [|by apply IH].
  simpl. apply NoDup_cons. split; [|by apply IH]. intros (x & Hfx & [Hx _]%elem_of_lfilter)%list_elem_of_fmap.
  apply Ha. apply list_elem_of_fmap. eauto.
Qed.
Lemma btree_values_keys {R} (key : R → string) (t : gmap string R) :
  map_Forall (λ k r, key r = k) t → NoDup (map key (btree_values t)).
Proof.
  intros Ht. assert (map key (btree_values t) = (btree_entries t).*1) as ->; [|apply NoDup_btree_keys].
  unfold btree_values. change (map key) with (fmap (M:=list) key). rewrite <- list_fmap_compose.
  apply list_fmap_ext. intros i [k r] Hi%list_elem_of_lookup_2. simpl. by apply Ht, elem_of_btree_entries.
Qed.
#[local] Instance name_le_total : Total name_le.
Proof. intros a b. apply (total String.le). Qed.
#[local] Instance name_le_trans : Transitive name_le.
Proof. intros a b c. unfold name_le. apply transitivity. Qed.
Definition environment_name_le (a b : Environment) : Prop := String.le (env_name a) (env_name b).

Lemma environment_from_row_Ok row e :
  environment_from_row row = Ok e → env_name e = nw_name row ∧
  EnvironmentId_from_str (nw_id row) = Ok (env_id e).
Proof. unfold environment_from_row. intros E. run_op E. done. Qed.
Lemma Forall2_sorted l es :
  Forall2 (λ a e, environment_from_row a = Ok e) l es → StronglySorted name_le l →
  StronglySorted environment_name_le es.
Proof.
  induction 1 as [|a e l es Hae HF IH]; [constructor|]. intros [Hs Hall]%StronglySorted_inv.
  constructor; [by apply IH|]. clear IH Hs. apply environment_from_row_Ok in Hae as [Hn _].
  induction HF as [|a' e' l es Hae' HF IH]; [constructor|]. apply Forall_cons in Hall as [Ha Hall].
  constructor; [|by apply IH]. apply environment_from_row_Ok in Hae' as [Hn' _].
  unfold environment_name_le. rewrite Hn, Hn'. apply Ha.
Qed.

(** The rows of an application's environments, once each. *)
Lemma environment_rows db id :
  db_ok db →
  let rows := List.filter (λ r, bool_decide (nw_application_id r = id_fmt id)) (btree_values (t_environments db)) in
  (∀ row, row ∈ rows ↔ t_environments db !! nw_id row = Some row ∧ nw_application_id row = id_fmt id) ∧
  NoDup (map nw_id rows).
Proof.
  intros Hok rows. split.
  - intros row. unfold rows. rewrite elem_of_lfilter, bool_decide_eq_true, elem_of_btree_values.
    split; [intros [[k Hk] Ha]|intros [Hk Ha]; eauto].
    destruct (ok_environments db Hok _ _ Hk) as [-> _]. done.
  - apply NoDup_map_lfilter. apply btree_values_keys. intros k r Hr. apply (ok_environments db Hok _ _ Hr).
Qed.
(** The environments of an application load, once each and by name. *)
Lemma load_environments_Ok db id :
  db_ok db →
  ∃ envs, load_environments db id = Ok envs ∧ StronglySorted environment_name_le envs ∧
    NoDup (map env_id envs) ∧
    ∀ e, e ∈ envs ↔ ∃ row, t_environments db !! id_fmt (env_id e) = Some row ∧
      nw_application_id row = id_fmt id ∧ environment_from_row row = Ok e.
Proof.
  intros Hok. unfold load_environments. set (rows := List.filter _ _).
  destruct (environment_rows db id Hok) as [Hrows Hnd]. fold rows in Hrows, Hnd.
  destruct (collect_Forall2 environment_from_row (merge_sort name_le rows)) as (envs & Hc & HF).
  { intros row. rewrite merge_sort_Permutation. intros [Hr _]%Hrows.
    by destruct (ok_environments db Hok _ _ Hr) as (_ & _ & e & ? & _); eauto. }
  exists envs. split; [done|]. split; [eapply Forall2_sorted; [done|]; apply StronglySorted_merge_sort; apply _|].
  assert (map (id_fmt ∘ env_id) envs = map nw_id (merge_sort name_le rows)) as Hids.
  { assert (∀ row, row ∈ merge_sort name_le rows → t_environments db !! nw_id row = Some row) as Hin
      by (intros row; rewrite merge_sort_Permutation; by intros [? _]%Hrows).
    clear Hc. induction HF as [|row e l es He _ IH]; [done|]. simpl. f_equal; [|apply IH; intros; apply Hin; by right].
    destruct (ok_environments db Hok _ _ (Hin row ltac:(left))) as (_ & _ & e' & He' & Hid).
    rewrite He in He'. by simplify_eq. }
  split.
  - apply (NoDup_fmap_1 id_fmt). rewrite <- list_fmap_compose. change (NoDup (map (id_fmt ∘ env_id) envs)).
    rewrite Hids. by rewrite (merge_sort_Permutation name_le rows).
  - intros e. rewrite (collect_elem _ _ _ _ Hc). setoid_rewrite merge_sort_Permutation. split.
    + intros (row & [Hr Ha]%Hrows & He). exists row. split; [|done].
      destruct (ok_environments db Hok _ _ Hr) as (_ & _ & e' & He' & Hid).
      rewrite He in He'. simplify_eq. by rewrite Hid.
    + intros (row & Hr & Ha & He). exists row. split; [|done]. apply Hrows. split; [|done].
      by destruct (ok_environments db Hok _ _ Hr) as (-> & _).
Qed.

(** A stored application loads, from its row, its environments and both states. *)
Lemma load_aggregate_Ok db now k row :
  db_ok db → complete db → t_applications db !! k = Some row →
  ∃ a, load_aggregate now db row = Ok a ∧ id_fmt (app_id a) = k.
Proof.
  intros Hok Hc Hr. destruct (ok_applications db Hok _ _ Hr) as [_ Hdec].
  destruct (Hdec now) as (a & Ha & Hid). unfold load_aggregate. rewrite Ha. simpl.
  destruct (load_environments_Ok db (app_id a) Hok) as (envs & He & _). rewrite He. simpl.
  destruct (Hc k) as [[d Hd] [o Ho]]; [eauto|].
  unfold load_desired_state, load_observed_state. rewrite Hid, Hd, Ho. simpl.
  destruct (ok_desired db Hok _ _ Hd) as (_ & _ & [p Hp] & [c Hcfg]).
  destruct (ok_observed db Hok _ _ Ho) as (_ & os & Hos). rewrite Hp. simpl. rewrite Hcfg. simpl.
  rewrite Hos. simpl. eauto.
Qed.
Lemma application_get_known db now id :
  db_ok db → complete db → is_Some (t_applications db !! id_fmt id) →
  ∃ a, application_get now id db = Ok a ∧ app_id a = id.
Proof.
  intros Hok Hc [row Hr]. destruct (load_aggregate_Ok db now _ _ Hok Hc Hr) as (a & Ha & Hid).
  exists a. unfold application_get. rewrite Hr. simpl. by apply (inj id_fmt) in Hid.
Qed.

(** ** Every operation keeps the integrity and is all or nothing *)

Definition settled {A} db db' (r : result ControlPlaneError A) : Prop :=
  db_ok db' ∧ complete db' ∧ match r with Ok _ => True | Err _ => db' = db end.
Lemma transaction_cases {A} (m : M AppDb ControlPlaneError A) db db' r :
  transaction m db = Done (db', r) →
  match r with Ok a => m db = Done (db', Ok a) | Err _ => db' = db end.
Proof. unfold transaction. destruct (m db) as [[? [|]]|]; naive_solver. Qed.

Lemma application_save_settled app db db' r :
  db_ok db → complete db → op_typed (RoSave app) →
  application_save app db = Done (db', r) → settled db db' r.
Proof.
  intros Hok Hc [Hv _] E. apply transaction_cases in E. destruct r as [[]|e]; [|by subst].
  apply M_bind_Ok in E as (db1 & [] & E1 & E). apply M_bind_Ok in E as (db2 & [] & E2 & E).
  apply M_bind_Ok in E as (db3 & [] & E3 & E). apply M_bind_Ok in E as (db4 & n & E4 & E). injection E as <-.
  apply upsert_application_Ok in E1 as (row & -> & Hrow & _).
  apply upsert_environments_Ok in E2 as (t & -> & Hok2).
  2: { apply ok_set_applications; [done|by apply map_Forall_insert_2; [|apply Hok]|]. intros j. apply is_Some_insert. }
  apply upsert_desired_Ok in E3 as (d & -> & Hok3 & _); [|done..].
  apply upsert_observed_Ok in E4 as (o & -> & Hok4 & _); [|done]. split; [done|]. split; [|done].
  intros j. simpl. rewrite !lookup_insert. case_decide; [by eauto|]. apply Hc.
Qed.

Lemma cascade_ok k db : db_ok db → db_ok (cascade k db).
Proof.
  intros [Ha He Hn Hd Ho Hr Hp Hb]. constructor; simpl.
  - by apply map_Forall_delete.
  - intros j r [Hj Hne]%map_lookup_filter_Some. destruct (He _ _ Hj) as (? & ? & ?).
    split_and!; [done| |done]. simpl in *. by rewrite lookup_delete_ne.
  - intros k1 k2 r1 r2 [? _]%map_lookup_filter_Some [? _]%map_lookup_filter_Some. by eapply Hn.
  - intros j r [Hne Hj]%lookup_delete_Some. destruct (Hd _ _ Hj) as (? & ?). split; [|done].
    simpl. by rewrite lookup_delete_ne.
  - intros j r [Hne Hj]%lookup_delete_Some. destruct (Ho _ _ Hj) as (? & ?). split; [|done].
    simpl. by rewrite lookup_delete_ne.
  - intros j r [Hj [Hne Hown]]%map_lookup_filter_Some. destruct (Hr _ _ Hj) as (Happ & Henv). simpl in *.
    split; [simpl; by rewrite lookup_delete_ne|]. intros e He'. destruct (Henv e He') as [er Her].
    rewrite He' in Hown. simpl in Hown. exists er. apply map_lookup_filter_Some. split; [done|].
    unfold owned_environment in Hown. rewrite Her in Hown. by apply bool_decide_eq_false in Hown.
  - intros j r [Hj [Hne Hown]]%map_lookup_filter_Some. destruct (Hp _ _ Hj) as (? & ? & [er Her] & ?). simpl in *.
    split_and!; [done|simpl; by rewrite lookup_delete_ne| |done]. exists er. apply map_lookup_filter_Some.
    split; [done|]. unfold owned_environment in Hown. rewrite Her in Hown. by apply bool_decide_eq_false in Hown.
  - intros j r [Hj Hne]%map_lookup_filter_Some. destruct (Hb _ _ Hj) as (? & ? & ?).
    split_and!; [done| |done]. simpl in *. by rewrite lookup_delete_ne.
Qed.
Lemma application_delete_settled id db db' r :
  db_ok db → complete db → application_delete id db = Done (db', r) → settled db db' r.
Proof.
  intros Hok Hc E. unfold application_delete in E. unfold_monad_in E.
  case_match; simplify_eq; [|by split]. split; [by apply cascade_ok|]. split; [|done].
  intros j. simpl. destruct (decide (j = id_fmt id)) as [->|]; [by rewrite lookup_delete_eq; intros []|].
  rewrite !lookup_delete_ne by done. apply Hc.
Qed.

Lemma touch_ok k f db :
  (∀ row, aw_id (f row) = aw_id row ∧ aw_name (f row) = aw_name row ∧ aw_origin (f row) = aw_origin row ∧
    aw_status (f row) = aw_status row ∧ aw_audit_event_ids (f row) = aw_audit_event_ids row ∧
    aw_collections (f row) = aw_collections row) →
  db_ok db → db_ok (set_applications (alter f k (t_applications db)) db).
Proof.
  intros Hf Hok. apply ok_set_applications; [done| |intros j; by rewrite is_Some_alter].
  intros j row. rewrite lookup_alter. case_decide as Hj; [|apply (ok_applications db Hok)].
  subst k. intros (old & Hold & ->)%fmap_Some. destruct (ok_applications db Hok _ _ Hold) as [Hid Hdec].
  destruct (Hf old) as (E1 & _ & E2 & E3 & E4 & E5). split; [congruence|]. intros now.
  destruct (Hdec now) as (a & Ha & Hida). unfold application_from_row in *. rewrite E1, E2, E3, E4, E5.
  unfold_monad_in Ha. unfold_monad. repeat case_match; simplify_eq/=. eauto.
Qed.
Lemma set_applications_complete db f k :
  complete db → complete (set_applications (alter f k (t_applications db)) db).
Proof. intros Hc j. simpl. rewrite is_Some_alter. apply Hc. Qed.

Lemma store_observation_settled id o db db' r :
  db_ok db → complete db → store_observation id o db = Done (db', r) →
  settled db db' r ∧
  (r = Ok tt → db' = set_applications
     (alter (λ row, touch_row (os_last_observed_at o) (aw_updated_by row) row) (id_fmt id) (t_applications db))
     (set_observed_states (<[id_fmt id := mkObservedRow (u64_as_i64 (os_desired_version o))
        (observed_status_name (os_status o)) (pg_time (os_last_observed_at o)) (os_detail o)]> (t_observed db)) db)).
Proof.
  intros Hok Hc E. apply transaction_cases in E. destruct r as [[]|e]; [|subst; by split].
  apply M_bind_Ok in E as (db1 & n & E1 & E).
  apply upsert_observed_Ok in E1 as (row & -> & Hok1 & -> & ->); [|done].
  rewrite decide_False in E by done. injection E as <-. split; [|done].
  split; [by refine (touch_ok (id_fmt id) _ (set_observed_states _ db) _ Hok1)|]. split; [|done].
  refine (set_applications_complete (set_observed_states _ db) _ _ _).
  intros j Hj. split; [by apply Hc|]. simpl. apply is_Some_insert. by apply Hc.
Qed.

Lemma set_environment_refs_settled id e refs db db' r :
  db_ok db → complete db → set_environment_refs id e refs db = Done (db', r) → settled db db' r.
Proof.
  intros Hok Hc E. unfold set_environment_refs in E. unfold_monad_in E.
  destruct (to_value refs) as [v|] eqn:Hv; [|by simplify_eq/=]. apply to_from_value in Hv.
  destruct (t_environments db !! _) as [row|] eqn:Hrow; [|by simplify_eq/=].
  case_decide as Ha; [|by simplify_eq/=]. simplify_eq/=. split; [|done].
  destruct (ok_environments db Hok _ _ Hrow) as (Hid & Happ & en & Hen & Hide).
  apply ok_set_environments; [done| | |intros j; apply is_Some_insert].
  - apply map_Forall_insert_2; [|apply Hok]. split; [done|]. split; [done|].
    unfold environment_from_row in *. unfold_monad_in Hen. unfold_monad. rewrite Hv.
    repeat case_match; simplify_eq/=. eauto.
  - intros k1 k2 r1 r2 Hk1 Hk2. rewrite lookup_insert_Some in Hk1, Hk2.
    destruct Hk1 as [[<- <-]|[? Hk1]], Hk2 as [[<- <-]|[? Hk2]]; simpl; [done|..];
      eapply (ok_names db Hok); eassumption.
Qed.

Lemma capability_save_settled b now db db' r :
  db_ok db → complete db → capability_save b now db = Done (db', r) → settled db db' r.
Proof.
  intros Hok Hc E. unfold capability_save in E. unfold_monad_in E.
  destruct (to_value b) as [v|] eqn:Hv; [|by simplify_eq/=]. apply to_from_value in Hv.
  destruct (t_capabilities db !! _) as [old|] eqn:Hold; simplify_eq/=.
  - split; [|done]. apply ok_insert_capability; [done|].
    destruct (ok_capabilities db Hok _ _ Hold) as (? & ? & _). split_and!; simpl; eauto.
  - destruct (references _ _ _) as [[]|] eqn:Href; simplify_eq/=; [|done]. apply references_Ok in Href.
    split; [|done]. apply ok_insert_capability; [done|]. split_and!; simpl; eauto.
Qed.
Lemma deployment_save_settled d now db db' r :
  db_ok db → complete db → deployment_save d now db = Done (db', r) →
  settled db db' r ∧
  (∀ u, r = Ok u → deployment_get (dep_id d) db' = Ok d ∧
     ∃ t, db' = set_deployments t db ∧ ∀ k, k ≠ id_fmt (dep_id d) → t !! k = t_deployments db !! k).
Proof.
  intros Hok Hc E. unfold deployment_save in E. unfold_monad_in E.
  destruct (to_value d) as [v|] eqn:Hv; [|by simplify_eq/=]. apply to_from_value in Hv.
  assert (∀ row t, dw_record row = v →
    deployment_get (dep_id d) (set_deployments (<[id_fmt (dep_id d) := row]> t) db) = Ok d) as Hget.
  { intros row t Hrec. unfold deployment_get. simpl. rewrite lookup_insert_eq. simpl. by rewrite Hrec. }
  destruct (t_deployments db !! _) as [old|] eqn:Hold; simplify_eq/=.
  - split; [|by intros _ _; split; [apply Hget|]; eexists; split; [done|]; intros; apply lookup_insert_ne].
    split; [|done]. apply ok_insert_deployment; [done|].
    destruct (ok_deployments db Hok _ _ Hold) as (? & ? & ? & _). split_and!; simpl; eauto.
  - destruct (references _ _ (id_fmt (dep_application_id d))) as [[]|] eqn:Ha; [|by simplify_eq/=].
    destruct (references _ (t_environments db) _) as [[]|] eqn:He; [|by simplify_eq/=]. simplify_eq/=.
    apply references_Ok in Ha. apply references_Ok in He.
    split; [|by intros _ _; split; [apply Hget|]; eexists; split; [done|]; intros; apply lookup_insert_ne].
    split; [|done]. apply ok_insert_deployment; [done|]. split_and!; simpl; eauto.
Qed.
(** A stored deployment is written again whatever its phase. *)
Lemma set_phase_run (id : DeploymentId) phase now db d :
  db_ok db → complete db → deployment_get id db = Ok d → (∃ v, to_value (dep_set_phase phase d) = Ok v) →
  ∃ db', set_phase id phase now db = Done (db', Ok (dep_set_phase phase d)) ∧ settled db db' (Ok tt) ∧
    deployment_get id db' = Ok (dep_set_phase phase d).
Proof.
  intros Hok Hc Hd [v Hv]. unfold set_phase, mbind, M_bind, get, lift_r. rewrite Hd.
  unfold deployment_get in Hd. destruct (t_deployments db !! id_fmt id) as [row|] eqn:Hrow; [|done]. simpl in Hd.
  destruct (ok_deployments db Hok _ _ Hrow) as (_ & _ & _ & d' & Hd' & Hid & _).
  rewrite Hd in Hd'. injection Hd' as <-. apply (inj id_fmt) in Hid.
  destruct (deployment_save (dep_set_phase phase d) now db) as [[db' r]|] eqn:E.
  2: { unfold deployment_save in E. unfold_monad_in E. rewrite Hv in E. simpl in E. by repeat case_match. }
  destruct (deployment_save_settled _ _ _ _ _ Hok Hc E) as [Hs Hget].
  destruct r as [[]|e].
  - destruct (Hget tt eq_refl) as [Hg _]. change (dep_id (dep_set_phase phase d)) with (dep_id d) in Hg.
    rewrite Hid in Hg. exists db'. by rewrite Hg.
  - exfalso. unfold deployment_save in E. unfold_monad_in E. rewrite Hv in E. simpl in E.
    by rewrite Hid, Hrow in E.
Qed.
Lemma set_phase_settled (id : DeploymentId) phase now db db' r :
  db_ok db → complete db → set_phase id phase now db = Done (db', r) → settled db db' r.
Proof.
  intros Hok Hc E. destruct (deployment_get id db) as [d|e] eqn:Hd.
  2: { unfold set_phase, mbind, M_bind, get, lift_r in E. rewrite Hd in E. by simplify_eq. }
  destruct (to_value (dep_set_phase phase d)) as [v|e] eqn:Hv.
  - destruct (set_phase_run id phase now db d Hok Hc Hd) as (db1 & E1 & (Hs & Hs' & _) & _); [eauto|].
    rewrite E1 in E. by simplify_eq.
  - unfold set_phase, mbind, M_bind, get, lift_r in E. rewrite Hd in E. unfold deployment_save in E.
    unfold_monad_in E. rewrite Hv in E. by simplify_eq.
Qed.
Lemma resource_op_settled r a e now db db' res :
  db_ok db → complete db → run_repo (RoResource r a e now) db = Done (db', res) → settled db db' res.
Proof.
  intros Hok Hc E. simpl in E. unfold resource_save in E. unfold_monad_in E.
  assert (db = set_resources (t_resources db) db) as Hid by by destruct db.
  destruct (to_value_opt _) as [f|]; [|by simplify_eq/=; rewrite <- Hid].
  destruct (to_value _) as [t|]; [|by simplify_eq/=; rewrite <- Hid].
  destruct (t_resources db !! _) as [old|] eqn:Hold; [|destruct (references_ok _ _ _ _) eqn:Href]; simplify_eq/=.
  - split; [|done]. apply ok_insert_resource; [done|]. apply (ok_resources db Hok _ _ Hold).
  - split; [|done]. apply ok_insert_resource; [done|]. unfold references_ok, is_known in Href.
    apply andb_true_iff in Href as [Ha He]. split; simpl; [by destruct (t_applications db !! _)|].
    intros e' He'. rewrite He' in He. by destruct (t_environments db !! e').
  - by rewrite <- Hid.
Qed.

(** *** The guarded update *)

Lemma as_i64_pos z : u64_range z → 1 ≤ u64_as_i64 z → u64_as_i64 z = z ∧ z ≤ i64_max.
Proof. unfold u64_range, u64_as_i64, u64_max, i64_max. case_decide; lia. Qed.
Lemma following_version expected v :
  u64_range expected → add_unsigned u64_max expected 1 = Done v → 1 ≤ u64_as_i64 v →
  v = expected + 1 ∧ v ≤ i64_max ∧ u64_as_i64 expected = expected ∧ u64_as_i64 v = v.
Proof.
  unfold u64_range, add_unsigned, u64_as_i64, u64_max, i64_max. intros ?. case_decide.
  - intros [= <-]. repeat case_decide; lia.
  - case_match; [done|]. intros [= <-]. assert (expected = 18446744073709551615) as -> by lia.
    vm_compute. by intros [].
Qed.
Lemma commit_desired_Ok now id row event detail by_ secrets db db' :
  commit_desired now id row event detail by_ secrets db = Done (db', Ok tt) →
  1 ≤ sw_version row ∧ ∃ e n l rec, append_event event secrets (t_events db) = Done (e, Ok n) ∧
    append_audit now by_ "desired_state_update" (id_fmt id) detail secrets (t_audit db) = Done (l, Ok rec) ∧
    db' = set_audit_log l (set_events e (set_applications
      (alter (λ r, touch_row now (Some by_) r) (id_fmt id) (t_applications db))
      (set_desired (<[id_fmt id := row]> (t_desired db)) db))).
Proof.
  unfold commit_desired. intros (d1 & [] & E1 & E)%M_bind_Ok. unfold lift_r in E1. simplify_eq.
  apply M_bind_Ok in E as (d2 & [] & E2 & E). unfold modify in E2. simplify_eq.
  apply M_bind_Ok in E as (d3 & [] & E3 & E). unfold touch_application, modify in E3. simplify_eq.
  apply M_bind_Ok in E as (d4 & n & E4 & E). unfold zoom in E4.
  destruct (append_event _ _ _) as [[e [n'|]]|] eqn:Hev; simplify_eq/=.
  apply M_bind_Ok in E as (d5 & rec & E5 & E). unfold zoom in E5.
  destruct (append_audit _ _ _ _ _ _ _) as [[l [rec'|]]|] eqn:Hau; simplify_eq/=.
  injection E as <-. split; [by apply version_check_Ok|]. eexists e, _, l, _. done.
Qed.

Lemma store_update_cases now now' id expected next event detail by_ secrets db db' r :
  db_ok db → complete db → u64_range expected → u64_range (ds_version next) →
  store_update_desired now now' id expected next event detail by_ secrets db = Done (db', r) →
  (∃ e, r = Err e ∧ db' = db) ∨
  ∃ a row old e n l rec, r = Ok a ∧ application_get now' id db' = Ok a ∧ settled db db' (Ok tt) ∧
    t_desired db !! id_fmt id = Some old ∧ sw_version old = expected ∧
    ds_version next = expected + 1 ∧ ds_version next ≤ i64_max ∧ sw_version row = expected + 1 ∧
    from_value (sw_profiles row) = Ok (ds_profiles next) ∧ from_value (sw_config row) = Ok (ds_config next) ∧
    append_event event secrets (t_events db) = Done (e, Ok n) ∧
    append_audit now by_ "desired_state_update" (id_fmt id) detail secrets (t_audit db) = Done (l, Ok rec) ∧
    db' = set_audit_log l (set_events e (set_applications
      (alter (λ r, touch_row now (Some by_) r) (id_fmt id) (t_applications db))
      (set_desired (<[id_fmt id := row]> (t_desired db)) db))).
Proof.
  intros Hok Hc Hexp Hnext E. unfold store_update_desired in E.
  unfold mbind at 1, M_bind at 1, lift_o at 1 in E.
  destruct (add_unsigned u64_max expected 1) as [f|] eqn:Hf; [|done].
  destruct (decide (ds_version next ≠ f)) as [|Hv]; [left; unfold_monad_in E; simplify_eq; eauto|].
  apply dec_stable in Hv. unfold_monad_in E.
  destruct (to_value (ds_profiles next)) as [p|] eqn:Hp; [|left; simplify_eq; eauto].
  destruct (to_value (ds_config next)) as [c|] eqn:Hcf; [|left; simplify_eq; eauto].
  apply to_from_value in Hp. apply to_from_value in Hcf.
  destruct (t_desired db !! id_fmt id) as [old|] eqn:Hold.
  2: { left. unfold current_desired_version in E. rewrite Hold in E. simpl in E. simplify_eq. eauto. }
  case_decide as Hver.
  2: { left. unfold current_desired_version in E. rewrite Hold in E. simpl in E. simplify_eq. eauto. }
  destruct (transaction _ db) as [[db1 r1]|] eqn:Ht; [|done]. apply transaction_cases in Ht.
  destruct r1 as [[]|e]; [|left; simplify_eq; eauto].
  apply commit_desired_Ok in Ht as (Hpos & e & n & l & rec & Hev & Hau & ->). simpl in Hpos.
  rewrite Hv in Hpos. destruct (following_version expected f Hexp Hf Hpos) as (-> & Hle & He & Hf').
  set (row := mkDesiredRow _ p c) in *.
  set (dbd := set_desired (<[id_fmt id := row]> (t_desired db)) db) in *.
  assert (db_ok dbd) as Hokd.
  { apply ok_insert_desired; [done|]. destruct (ok_desired db Hok _ _ Hold) as (? & _).
    split_and!; simpl; rewrite ?Hv, ?Hf'; eauto; lia. }
  assert (complete dbd) as Hcd.
  { intros j Hj. split; [|by apply Hc]. simpl. apply is_Some_insert. by apply Hc. }
  match type of E with Done (?x, _) = _ => assert (settled db x (Ok tt)) as Hset end.
  { split; [|split; [|done]].
    - apply ok_set_trails. by apply (touch_ok _ _ dbd).
    - exact (set_applications_complete dbd _ _ Hcd). }
  destruct Hset as (Hok' & Hc' & _).
  destruct (application_get_known _ now' id Hok' Hc') as (a & Ha & _).
  { simpl. rewrite is_Some_alter. by apply (ok_desired db Hok _ _ Hold). }
  rewrite Ha in E. simplify_eq. right. exists a, row, old, e, n, l, rec.
  split_and!; try done; simpl; congruence.
Qed.

(** ** Listing *)

Lemma loaded_parts db now id a :
  db_ok db → application_get now id db = Ok a →
  NoDup (map env_name (app_environments a)) ∧ 1 ≤ ds_version (app_desired_state a) ≤ i64_max.
Proof.
  intros Hok E. unfold application_get in E. apply result_bind_Ok in E as (row & _ & E).
  unfold load_aggregate in E. apply result_bind_Ok in E as (a0 & _ & E).
  apply result_bind_Ok in E as (envs & He & E). apply result_bind_Ok in E as (d & Hd & E).
  apply result_bind_Ok in E as (o & _ & E). injection E as <-. simpl. split.
  - destruct (load_environments_Ok db (app_id a0) Hok) as (envs' & He' & _ & Hnd & Hin).
    rewrite He in He'. simplify_eq. change (map env_name) with (fmap (M:=list) env_name).
    apply NoDup_fmap_2_strong; [|by apply NoDup_fmap_1 in Hnd].
    intros x y (rx & Hrx & Hax & Hx)%Hin (ry & Hry & Hay & Hy)%Hin Hxy.
    apply environment_from_row_Ok in Hx as Hnx. apply environment_from_row_Ok in Hy as Hny.
    assert (id_fmt (env_id x) = id_fmt (env_id y)) as Hk
      by (eapply (ok_names db Hok); [done|done|congruence|]; destruct Hnx, Hny; congruence).
    rewrite Hk, Hry in Hrx. simplify_eq. rewrite Hx in Hy. by simplify_eq.
  - unfold load_desired_state in Hd. apply result_bind_Ok in Hd as (r & Hr & Hd).
    unfold ok_or in Hr. destruct (t_desired db !! _) as [r'|] eqn:Hlk; [|done]. injection Hr as ->.
    apply result_bind_Ok in Hd as (p & _ & Hd). apply result_bind_Ok in Hd as (c & _ & Hd).
    injection Hd as <-. simpl. destruct (ok_desired db Hok _ _ Hlk) as (_ & Hv & _).
    unfold i64_as_u64. rewrite Z.mod_small; [done|]. unfold i64_max, u64_max in *. lia.
Qed.
Lemma application_list_Ok db now :
  db_ok db → complete db →
  ∃ apps, application_list now db = Ok apps ∧ NoDup (map app_id apps) ∧
    ∀ a, a ∈ apps ↔ application_get now (app_id a) db = Ok a.
Proof.
  intros Hok Hc. unfold application_list. set (rows := btree_values (t_applications db)).
  assert (∀ row, row ∈ rows → t_applications db !! aw_id row = Some row) as Hrows.
  { intros row (k & Hk)%elem_of_btree_values. by destruct (ok_applications db Hok _ _ Hk) as [-> _]. }
  assert (NoDup (map aw_id rows)) as Hnd.
  { apply btree_values_keys. intros k r Hr. by destruct (ok_applications db Hok _ _ Hr). }
  destruct (collect_Forall2 (load_aggregate now db) (merge_sort created_id_le rows)) as (apps & Hl & HF).
  { intros row. rewrite merge_sort_Permutation. intros Hr%Hrows.
    destruct (load_aggregate_Ok db now _ _ Hok Hc Hr) as (a & ? & _). eauto. }
  exists apps. split; [done|]. split.
  - apply (NoDup_fmap_1 id_fmt). rewrite <- list_fmap_compose.
    assert ((id_fmt ∘ app_id) <$> apps = map aw_id (merge_sort created_id_le rows)) as ->.
    2: by rewrite (merge_sort_Permutation created_id_le rows).
    assert (∀ row, row ∈ merge_sort created_id_le rows → t_applications db !! aw_id row = Some row) as Hin
      by (intros row; rewrite merge_sort_Permutation; apply Hrows).
    clear Hl. induction HF as [|row a l as_ Ha _ IH]; [done|]. simpl.
    f_equal; [|apply IH; intros; apply Hin; by right].
    destruct (load_aggregate_Ok db now _ _ Hok Hc (Hin row ltac:(left))) as (a' & Ha' & Hid).
    rewrite Ha in Ha'. by simplify_eq.
  - intros a. rewrite (collect_elem _ _ _ _ Hl). setoid_rewrite merge_sort_Permutation. split.
    + intros (row & Hr%Hrows & Ha). unfold application_get.
      destruct (load_aggregate_Ok db now _ _ Hok Hc Hr) as (a' & Ha' & Hid).
      rewrite Ha in Ha'. injection Ha' as <-. rewrite Hid, Hr. done.
    + intros E. unfold application_get in E. apply result_bind_Ok in E as (row & Hr & E).
      exists row. split; [|done]. unfold ok_or in Hr. case_match eqn:Hlk; simplify_eq.
      apply elem_of_btree_values. eauto.
Qed.

Lemma run_repo_settled op db db' r :
  db_ok db → complete db → op_typed op → run_repo op db = Done (db', r) → settled db db' r.
Proof.
  intros Hok Hc Ht E. destruct op; simpl in E.
  - by eapply application_save_settled.
  - by eapply application_delete_settled.
  - destruct Ht as [Hexp Hnext]. unfold mbind, M_bind in E.
    destruct (store_update_desired _ _ _ _ _ _ _ _ _ db) as [[db1 r1]|] eqn:Hu; [|done].
    apply store_update_cases in Hu as [(e & -> & ->)|(a & row & old & ev & n & l & rec & -> & _ & Hs & _)]; try done;
      injection E as <- <-; done.
  - by eapply store_observation_settled in E as [? _].
  - by eapply set_environment_refs_settled.
  - by eapply capability_save_settled.
  - by eapply deployment_save_settled in E as [? _].
  - unfold mbind, M_bind in E. destruct (set_phase _ _ _ db) as [[db1 r1]|] eqn:Hp; [|done].
    apply set_phase_settled in Hp as (? & ? & Hr); [|done..].
    destruct r1; injection E as <- <-; [by split|by subst].
  - by eapply resource_op_settled.
Qed.
Lemma empty_db_ok : db_ok empty_db ∧ complete empty_db.
Proof. split; [constructor; simpl; try apply map_Forall_empty; intros k1 k2 r1 r2 Hk; by simplify_map_eq|by intros k []]. Qed.
Lemma reachable_ok db : db_reachable db → db_ok db ∧ complete db.
Proof.
  unfold db_reachable. pose proof empty_db_ok as Hinit. generalize dependent empty_db.
  intros d [Hok Hc] Hr. induction Hr as [|d d1 d2 (op & r & Ht & E) _ IH]; [done|].
  by destruct (run_repo_settled _ _ _ _ Hok Hc Ht E) as (? & ? & _); apply IH.
Qed.

(** C16: Whatever the repositories ran before, an operation that fails has
    changed nothing: no application without its states, no event or audit record
    of an update that did not commit. *)
Theorem failed_operations_change_nothing db op db' e :
  db_reachable db → op_typed op → run_repo op db = Done (db', Err e) → db' = db.
Proof. intros [Hok Hc]%reachable_ok Ht E. by destruct (run_repo_settled _ _ _ _ Hok Hc Ht E) as (_ & _ & ?). Qed.

(** C14: Every application the repositories ever stored loads, exactly those
    are listed and all others are not found; environment names stay unique within
    an application, and every desired version is between one and the greatest
    64-bit value. *)
Theorem stored_applications_load db now :
  db_reachable db →
  (∀ id, match t_applications db !! id_fmt id with
         | Some _ => ∃ a, application_get now id db = Ok a ∧ app_id a = id ∧
                       NoDup (map env_name (app_environments a)) ∧
                       1 ≤ ds_version (app_desired_state a) ≤ i64_max
         | None => application_get now id db = Err (CpNotFound (id_fmt id))
         end) ∧
  ∃ apps, application_list now db = Ok apps ∧ NoDup (map app_id apps) ∧
    ∀ a, a ∈ apps ↔ application_get now (app_id a) db = Ok a.
Proof.
  intros [Hok Hc]%reachable_ok. split.
  - intros id. destruct (t_applications db !! id_fmt id) as [row|] eqn:Hr.
    2: { unfold application_get. by rewrite Hr. }
    destruct (application_get_known db now id Hok Hc) as (a & Ha & Hid); [eauto|].
    exists a. split; [done|]. split; [done|]. by eapply loaded_parts.
  - by apply application_list_Ok.
Qed.

(* ------------------------------------------------------------------ *)
(** ** The stores refine the aggregate *)

Lemma application_get_unfold db now id :
  db_ok db →
  application_get now id db =
    (row ← ok_or (CpNotFound (id_fmt id)) (t_applications db !! id_fmt id);
     app ← application_from_row now row;
     environments ← load_environments db id;
     desired ← load_desired_state db id;
     observed ← load_observed_state db id;
     Ok (app_set_observed observed (app_set_desired desired (app_set_environments environments app)))).
Proof.
  intros Hok. unfold application_get, load_aggregate.
  destruct (t_applications db !! id_fmt id) as [row|] eqn:Hr; simpl; [|done].
  destruct (ok_applications db Hok _ _ Hr) as [_ Hdec]. destruct (Hdec now) as (a & -> & Hid%(inj id_fmt)).
  simpl. by rewrite Hid.
Qed.
Lemma application_get_ext db db' now id :
  db_ok db → db_ok db' → t_environments db' = t_environments db →
  t_applications db' !! id_fmt id = t_applications db !! id_fmt id →
  t_desired db' !! id_fmt id = t_desired db !! id_fmt id →
  t_observed db' !! id_fmt id = t_observed db !! id_fmt id →
  application_get now id db' = application_get now id db.
Proof.
  intros Hok Hok' He Ha Hd Ho. rewrite !application_get_unfold by done.
  unfold load_environments, load_desired_state, load_observed_state. by rewrite He, Ha, Hd, Ho.
Qed.
Lemma touched_from_row now at_ by_ row a :
  application_from_row now row = Ok a →
  application_from_row now (touch_row at_ by_ row) = Ok (app_set_updated_by by_ (app_set_updated_at (pg_time at_) a)).
Proof. unfold application_from_row. intros E. unfold_monad_in E. unfold_monad. repeat case_match; by simplify_eq/=. Qed.

(** An observation as its columns store it. *)
Definition stored_observation (o : ObservedState) : ObservedState :=
  {| os_desired_version := os_desired_version o; os_status := os_status o;
     os_last_observed_at := pg_time (os_last_observed_at o); os_detail := os_detail o |}.

Lemma application_get_parts db now id a :
  db_ok db → application_get now id db = Ok a →
  ∃ row a0 envs d o, t_applications db !! id_fmt id = Some row ∧ application_from_row now row = Ok a0 ∧
    load_environments db id = Ok envs ∧ load_desired_state db id = Ok d ∧
    load_observed_state db id = Ok o ∧ updated_by (app_audit a0) = aw_updated_by row ∧
    a = app_set_observed o (app_set_desired d (app_set_environments envs a0)).
Proof.
  intros Hok E. rewrite application_get_unfold in E by done. apply result_bind_Ok in E as (row & Hrow & E).
  unfold ok_or in Hrow. destruct (t_applications db !! id_fmt id) as [row'|]; [|done]. injection Hrow as ->.
  apply result_bind_Ok in E as (a0 & Ha0 & E). apply result_bind_Ok in E as (envs & He & E).
  apply result_bind_Ok in E as (d & Hd & E). apply result_bind_Ok in E as (o & Ho & E). injection E as <-.
  exists row, a0, envs, d, o. split_and!; try done.
  unfold application_from_row in Ha0. unfold_monad_in Ha0. by repeat case_match; simplify_eq/=.
Qed.
Lemma update_refines db now id before at_ expected next event detail by_ secrets db' a :
  db_ok db → complete db → application_get now id db = Ok before →
  u64_range expected → u64_range (ds_version next) →
  store_update_desired at_ now id expected next event detail by_ secrets db = Done (db', Ok a) →
  ds_version (app_desired_state before) = expected ∧
  a = update_desired_state (pg_time at_) next by_ before ∧ application_get now id db' = Ok a ∧
  ∀ id', id' ≠ id → application_get now id' db' = application_get now id' db.
Proof.
  intros Hok Hc (row & a0 & envs & d & o & Hr & Ha0 & He & Hd & Ho & _ & ->)%application_get_parts Hexp Hnext E; [|done].
  apply store_update_cases in E
    as [(? & ? & _)|(a' & drow & old & ev & n & l & rec & Ea & Hg & (Hok' & _) & Hold & Hov & Hnv & Hnm & Hdv & Hp & Hcf & _ & _ & ->)];
    [done| |done..].
  injection Ea as <-. split; [|split; [|split; [done|]]].
  - unfold load_desired_state in Hd. rewrite Hold in Hd. simpl in Hd.
    destruct (from_value (sw_profiles old)); simpl in Hd; [|done]. destruct (from_value _); simpl in Hd; [|done].
    injection Hd as <-. simpl. destruct (ok_desired db Hok _ _ Hold) as (_ & Hv & _).
    rewrite Hov in *. unfold i64_as_u64. apply Z.mod_small. unfold i64_max, u64_max in *. lia.
  - rewrite application_get_unfold in Hg by done. simpl in Hg. rewrite lookup_alter_eq, Hr in Hg. simpl in Hg.
    rewrite (touched_from_row _ _ _ _ _ Ha0) in Hg. simpl in Hg.
    change (load_environments _ id) with (load_environments db id) in Hg. rewrite He in Hg. simpl in Hg.
    change (load_observed_state _ id) with (load_observed_state db id) in Hg.
    unfold load_desired_state in Hg. simpl in Hg. rewrite lookup_insert_eq in Hg. simpl in Hg.
    rewrite Hp in Hg. simpl in Hg. rewrite Hcf in Hg. simpl in Hg. rewrite Ho in Hg. simpl in Hg.
    injection Hg as <-. destruct next as [nv np nc]. simpl in *.
    rewrite Hdv. subst nv. unfold i64_as_u64. rewrite Z.mod_small; [done|]. unfold u64_range, i64_max, u64_max in *. lia.
  - intros id' Hne. apply application_get_ext; [done|done|done|..]; simpl;
      [apply lookup_alter_ne|apply lookup_insert_ne|done]; intros E%(inj id_fmt); congruence.
Qed.
Lemma observe_refines db now id before o db' :
  db_ok db → complete db → application_get now id db = Ok before →
  u64_range (os_desired_version o) → store_observation id o db = Done (db', Ok tt) →
  application_get now id db' =
    Ok (record_observation (pg_time (os_last_observed_at o)) (stored_observation o) before) ∧
  ∀ id', id' ≠ id → application_get now id' db' = application_get now id' db.
Proof.
  intros Hok Hc (row & a0 & envs & d & o0 & Hr & Ha0 & He & Hd & Ho & Hby & ->)%application_get_parts Hrange E; [|done].
  destruct (store_observation_settled _ _ _ _ _ Hok Hc E) as [(Hok' & _) Hdb].
  specialize (Hdb eq_refl). subst db'. split.
  - rewrite application_get_unfold by done. simpl. rewrite lookup_alter_eq, Hr. simpl.
    rewrite (touched_from_row _ _ _ _ _ Ha0). simpl.
    change (load_environments _ id) with (load_environments db id). rewrite He. simpl.
    change (load_desired_state _ id) with (load_desired_state db id). rewrite Hd. simpl.
    unfold load_observed_state. simpl. rewrite lookup_insert_eq. simpl. unfold observed_state_from_row. simpl.
    rewrite observed_status_from_status_name. simpl. rewrite as_i64_u64 by done.
    rewrite <- Hby. by destruct a0 as [? ? ? ? ? ? []].
  - intros id' Hne. apply application_get_ext; [done|done|done|..]; simpl;
      [apply lookup_alter_ne|done|apply lookup_insert_ne]; intros E'%(inj id_fmt); congruence.
Qed.

(** C13: A committed update does to the stored aggregate what the core
    update does, from exactly the expected generation, and a committed
    observation what the core observation does, at the instants the database can
    store; neither touches any other application. *)
Theorem stores_refine_aggregate db now id before :
  db_reachable db → application_get now id db = Ok before →
  (∀ at_ expected next event detail by_ secrets db' a,
     u64_range expected → u64_range (ds_version next) →
     store_update_desired at_ now id expected next event detail by_ secrets db = Done (db', Ok a) →
     ds_version (app_desired_state before) = expected ∧
     a = update_desired_state (pg_time at_) next by_ before ∧ application_get now id db' = Ok a ∧
     ∀ id', id' ≠ id → application_get now id' db' = application_get now id' db) ∧
  (∀ o db', u64_range (os_desired_version o) → store_observation id o db = Done (db', Ok tt) →
     application_get now id db' =
       Ok (record_observation (pg_time (os_last_observed_at o)) (stored_observation o) before) ∧
     ∀ id', id' ≠ id → application_get now id' db' = application_get now id' db).
Proof.
  intros [Hok Hc]%reachable_ok Hb. split.
  - intros. by eapply update_refines.
  - intros. by eapply observe_refines.
Qed.

(* ------------------------------------------------------------------ *)
(** ** Optimistic concurrency *)

(** The generation of an application has reached this version. *)
Definition at_least (v : Z) id db : Prop :=
  ∃ row, t_desired db !! id_fmt id = Some row ∧ v ≤ sw_version row.
Definition writes_desired (op : RepoOp) : bool :=
  match op with RoSave _ | RoDelete _ | RoUpdate _ _ _ _ _ _ _ _ _ => true | _ => false end.
Lemma other_operations_keep_desired op db db' r :
  writes_desired op = false → run_repo op db = Done (db', r) → t_desired db' = t_desired db.
Proof.
  intros Hw E. destruct op; try done; clear Hw; simpl in E.
  - unfold store_observation, transaction, upsert_observed_state_conn, touch_application in E. unfold_monad_in E.
    repeat case_match; by simplify_eq/=.
  - unfold set_environment_refs in E. unfold_monad_in E. repeat case_match; by simplify_eq/=.
  - unfold capability_save in E. unfold_monad_in E. repeat case_match; by simplify_eq/=.
  - unfold deployment_save in E. unfold_monad_in E. repeat case_match; by simplify_eq/=.
  - unfold set_phase, deployment_save in E. unfold_monad_in E. repeat case_match; by simplify_eq/=.
  - unfold zoom in E. unfold_monad_in E. repeat case_match; by simplify_eq/=.
Qed.
Lemma guarded_monotone v id db db' :
  db_ok db → complete db → guarded_step db db' → at_least v id db → at_least v id db'.
Proof.
  intros Hok Hc (op & r & Hg & Ht & E) (row & Hrow & Hle).
  destruct (writes_desired op) eqn:Hw.
  2: { apply other_operations_keep_desired in E; [|done]. exists row. by rewrite E. }
  destruct op as [| |n n' id' expected next ev det by_ secrets| | | | | |]; try done. destruct Ht as [Hexp Hnext].
  simpl in E. unfold mbind, M_bind in E.
  destruct (store_update_desired _ _ _ _ _ _ _ _ _ db) as [[db1 r1]|] eqn:Hu; [|done].
  apply store_update_cases in Hu
    as [(e & -> & ->)|(a & drow & old & e & k & l & rec & -> & _ & _ & Hold & Hov & _ & _ & Hdv & _ & _ & _ & _ & ->)];
    try done; injection E as <- <-; [by exists row|].
  unfold at_least. simpl. destruct (decide (id' = id)) as [->|Hne].
  - rewrite lookup_insert_eq. exists drow. split; [done|]. simplify_eq. lia.
  - rewrite lookup_insert_ne by (by intros ?%(inj id_fmt)). eauto.
Qed.
Lemma guarded_run v id db db' :
  db_ok db → complete db → rtc guarded_step db db' → at_least v id db → at_least v id db'.
Proof.
  intros Hok Hc Hrun. induction Hrun as [d|d d1 d2 Hstep _ IH]; [done|].
  pose proof Hstep as (op & r & _ & Ht & E). destruct (run_repo_settled _ _ _ _ Hok Hc Ht E) as (? & ? & _).
  intros Hat. apply IH; [done..|]. by apply (guarded_monotone v id d).
Qed.

(** C12: No update is lost: of all writers that read one generation of an
    application at most one commits.  After a commit from an expected version,
    whatever other guarded operations run in between, another update from that
    version conflicts and changes nothing. *)
Theorem no_lost_update db1 db2 db3 id expected now now' next event detail by_ secrets a
    at_ at' next' event' detail' by' secrets' :
  db_reachable db1 → u64_range expected → u64_range (ds_version next) →
  store_update_desired now now' id expected next event detail by_ secrets db1 = Done (db2, Ok a) →
  rtc guarded_step db2 db3 →
  ds_version next' = expected + 1 →
  (∃ v, to_value (ds_profiles next') = Ok v) → (∃ v, to_value (ds_config next') = Ok v) →
  ∃ m, store_update_desired at_ at' id expected next' event' detail' by' secrets' db3 =
    Done (db3, Err (CpConflict m)).
Proof.
  intros Hreach Hexp Hnext E Hrun Hv [p Ep] [c Ec]. pose proof (reachable_ok _ Hreach) as [Hok Hc].
  destruct (store_update_cases _ _ _ _ _ _ _ _ _ _ _ _ Hok Hc Hexp Hnext E)
    as [(? & ? & _)|(a' & row & old & e & n & l & rec & _ & _ & (Hok2 & Hc2 & _) & _ & _ & Hnv & Hnm & Hdv & _ & _ & _ & _ & ->)];
    [done|]. clear E.
  match type of Hrun with rtc _ ?d _ => assert (at_least (expected + 1) id d) as Hat end.
  { exists row. simpl. rewrite lookup_insert_eq. split; [done|lia]. }
  apply (guarded_run _ _ _ _ Hok2 Hc2 Hrun) in Hat.
  destruct Hat as (drow & Hdrow & Hle). unfold store_update_desired.
  assert (add_unsigned u64_max expected 1 = Done (expected + 1)) as Hadd.
  { apply add_unsigned_done. unfold u64_range, i64_max, u64_max in *. lia. }
  unfold_monad. rewrite Hadd. rewrite decide_False by (intros Hne; apply Hne, Hv).
  rewrite Ep, Ec, Hdrow. rewrite decide_False.
  - unfold current_desired_version. rewrite Hdrow. simpl. eauto.
  - assert (u64_as_i64 expected = expected) as ->; [|lia].
    unfold u64_as_i64. apply decide_True. unfold u64_range in *. lia.
Qed.

(** ** Deletion *)

(** The environments of other applications stay. *)
Lemma cascade_environments db id id' :
  db_ok db → id' ≠ id → load_environments (cascade (id_fmt id) db) id' = load_environments db id'.
Proof.
  intros Hok Hne. unfold load_environments. f_equal.
  assert (id_fmt id ≠ id_fmt id') as Hk by (by intros ?%(inj id_fmt)).
  destruct (environment_rows db id' Hok) as [Hr Hnd].
  destruct (environment_rows _ id' (cascade_ok (id_fmt id) db Hok)) as [Hr' Hnd'].
  apply (StronglySorted_unique_strong name_le); [|apply StronglySorted_merge_sort; apply _..|].
  - intros x y. rewrite !merge_sort_Permutation. intros [Hx Hax]%Hr' [Hy Hay]%Hr Hxy Hyx.
    apply map_lookup_filter_Some in Hx as [Hx _].
    assert (nw_id x = nw_id y) as E; [|rewrite E in Hx; by simplify_eq].
    eapply (ok_names db Hok); [done|done|congruence|]. by apply (anti_symm String.le).
  - rewrite !merge_sort_Permutation. apply NoDup_Permutation.
    + by apply NoDup_fmap_1 in Hnd'.
    + by apply NoDup_fmap_1 in Hnd.
    + intros row. rewrite Hr, Hr'. simpl. rewrite map_lookup_filter_Some. simpl. naive_solver congruence.
Qed.

(** Deleting a stored application leaves no row that refers to it or to
    one of its environments in any table, and nothing else is removed; what
    others stored still loads. *)
Theorem deletion_is_complete db id db' now :
  db_reachable db → application_delete id db = Done (db', Ok tt) →
  application_get now id db' = Err (CpNotFound (id_fmt id)) ∧
  (∀ k r, t_environments db' !! k = Some r ↔
     t_environments db !! k = Some r ∧ nw_application_id r ≠ id_fmt id) ∧
  (∀ k r, t_deployments db' !! k = Some r →
     t_deployments db !! k = Some r ∧ dw_application_id r ≠ id_fmt id ∧
     is_Some (t_environments db' !! dw_environment_id r)) ∧
  (∀ k r, t_capabilities db' !! k = Some r ↔
     t_capabilities db !! k = Some r ∧ cw_application_id r ≠ id_fmt id) ∧
  (∀ k r, t_resources db' !! k = Some r →
     t_resources db !! k = Some r ∧ rr_application_id r ≠ id_fmt id ∧
     ∀ e, rr_environment_id r = Some e → is_Some (t_environments db' !! e)) ∧
  ∀ id', id' ≠ id → application_get now id' db' = application_get now id' db.
Proof.
  intros [Hok Hc]%reachable_ok E. unfold application_delete in E. unfold_monad_in E.
  case_match; simplify_eq. pose proof (cascade_ok (id_fmt id) db Hok) as Hok'. split_and!.
  - unfold application_get. simpl. by rewrite lookup_delete_eq.
  - intros k r. simpl. by rewrite map_lookup_filter_Some.
  - intros k r Hr. split_and!; [..|by apply (ok_deployments _ Hok' _ _ Hr)].
    all: apply map_lookup_filter_Some in Hr; simpl in Hr; by destruct Hr as [? []].
  - intros k r. simpl. by rewrite map_lookup_filter_Some.
  - intros k r Hr. split_and!; [..|apply (ok_resources _ Hok' _ _ Hr)].
    all: apply map_lookup_filter_Some in Hr; simpl in Hr; by destruct Hr as [? []].
  - intros id' Hne. assert (id_fmt id ≠ id_fmt id') as Hk by (by intros ?%(inj id_fmt)).
    rewrite !application_get_unfold by done. unfold load_desired_state, load_observed_state. simpl.
    rewrite !lookup_delete_ne by done. by rewrite (cascade_environments db id id' Hok Hne).
Qed.

(** ** Storing and loading *)

Context `{!SerdeTotal Origin} `{!SerdeTotal (list string)} `{!SerdeTotal LifecycleCollections}.
Context `{!SerdeTotal EnvironmentKind} `{!SerdeTotal EnvironmentRefs}.
Context `{!SerdeTotal (gmap string Json)} `{!SerdeTotal Json}.

Lemma to_value_total {T} `{!Serde T} `{!SerdeTotal T} (x : T) : ∃ v, to_value x = Ok v.
Proof. destruct (serde_total x) as [v Hv]. exists v. unfold to_value. by rewrite Hv. Qed.
Lemma upsert_application_total app db : ∃ db', upsert_application app db = Done (db', Ok tt).
Proof.
  unfold upsert_application. unfold_monad. destruct (to_value_total (app_origin app)) as [? ->].
  destruct (to_value_total (audit_event_ids (app_audit app))) as [? ->].
  destruct (to_value_total (app_collections app)) as [? ->]. eauto.
Qed.
Lemma upsert_environment_fresh env db :
  is_Some (t_applications db !! id_fmt (env_application_id env)) →
  t_environments db !! id_fmt (env_id env) = None →
  (∀ k r, t_environments db !! k = Some r → nw_application_id r = id_fmt (env_application_id env) →
     nw_name r ≠ env_name env) →
  ∃ db', upsert_environment env db = Done (db', Ok tt).
Proof.
  intros Happ Hnone Hfree. unfold upsert_environment. unfold_monad.
  destruct (to_value_total (env_kind env)) as [? ->]. destruct (to_value_total (env_refs env)) as [? ->].
  rewrite Hnone. assert (∀ row, nw_application_id row = id_fmt (env_application_id env) →
    nw_name row = env_name env → name_taken db row = false) as Hn.
  { intros row Ha Hnm. unfold name_taken. apply existsb_false. intros r (k & Hk)%elem_of_btree_values.
    rewrite Ha, Hnm. destruct (decide (nw_application_id r = id_fmt (env_application_id env))) as [E|E].
    - rewrite (bool_decide_eq_false_2 (nw_name r = _)) by (by eapply Hfree). by rewrite andb_false_r.
    - rewrite (bool_decide_eq_false_2 (nw_application_id r = _)) by done. by rewrite andb_false_r. }
  rewrite Hn by done. apply references_Ok with (table := "environments") in Happ. rewrite Happ. eauto.
Qed.

(** Environments of an application that has none of their names yet. *)
Lemma upsert_environments_fresh id envs db :
  db_ok db → is_Some (t_applications db !! id_fmt id) →
  (∀ e, e ∈ envs → env_application_id e = id ∧ t_environments db !! id_fmt (env_id e) = None) →
  NoDup (map env_id envs) → NoDup (map env_name envs) →
  (∀ k r e, t_environments db !! k = Some r → nw_application_id r = id_fmt id → e ∈ envs →
     nw_name r ≠ env_name e) →
  ∃ t, upsert_environments envs db = Done (set_environments t db, Ok tt) ∧ db_ok (set_environments t db) ∧
    (∀ k, (∀ e, e ∈ envs → k ≠ id_fmt (env_id e)) → t !! k = t_environments db !! k) ∧
    ∀ e, e ∈ envs → ∃ r, t !! id_fmt (env_id e) = Some r ∧ environment_from_row r = Ok e ∧
      nw_application_id r = id_fmt id.
Proof.
  revert db. induction envs as [|e envs IH]; intros db Hok Happ Hall Hids Hnames Hfree; simpl.
  { exists (t_environments db). destruct db. split_and!; [done..|]. by intros e He%elem_of_nil. }
  apply NoDup_cons in Hids as [Hid Hids]. apply NoDup_cons in Hnames as [Hname Hnames].
  destruct (Hall e ltac:(left)) as [He Hnone].
  destruct (upsert_environment_fresh e db) as [db1 E1]; [by rewrite He|done| |].
  { intros k r Hk Ha. eapply Hfree; [done|by rewrite <- He|left]. }
  pose proof (upsert_environment_Ok _ _ _ Hok E1)
    as (row & -> & (Hrid & _ & e' & He' & Hide') & Hok1 & Hrn & Hrk & Hrr & Hra). rewrite Hnone, He in Hra.
  assert (environment_from_row row = Ok e) as Hrow.
  { unfold environment_from_row in *. unfold_monad. rewrite Hrid, Hra, EnvironmentId_round_trip,
      ApplicationId_round_trip, Hrk, Hrr, Hrn. destruct e; simpl in *. by subst. }
  destruct (IH _ Hok1) as (t & E2 & Hok2 & Hkeep & Hin); [done| |done|done| |].
  - intros x Hx. destruct (Hall x ltac:(by right)) as [Hxa Hxn]. split; [done|]. simpl.
    rewrite lookup_insert_ne; [done|]. intros Hk%(inj id_fmt). apply Hid. apply list_elem_of_fmap. eauto.
  - intros k r x Hk Ha Hx. simpl in Hk. apply lookup_insert_Some in Hk as [[<- <-]|[_ Hk]].
    + rewrite Hrn. intros Hnm. apply Hname. apply list_elem_of_fmap. eauto.
    + eapply Hfree; [done|done|by right].
  - exists t. split; [unfold mbind, M_bind; by rewrite E1|]. split; [done|]. split.
    + intros k Hk. rewrite Hkeep by (intros; apply Hk; by right). simpl. apply lookup_insert_ne.
      intros <-. by eapply Hk; [left|].
    + intros x [->|Hx]%elem_of_cons; [|by apply Hin]. exists row. split; [|done]. rewrite Hkeep; [apply lookup_insert_eq|].
      intros y Hy Hk%(inj id_fmt). apply Hid. apply list_elem_of_fmap. eauto.
Qed.

(** A new aggregate: its environments are its own, under unused identifiers and
    different names, and its versions fit their columns. *)
Record new_aggregate (db : AppDb) (app : Application) : Prop := {
  na_unused : t_applications db !! id_fmt (app_id app) = None;
  na_environments e : e ∈ app_environments app →
    env_application_id e = app_id app ∧ t_environments db !! id_fmt (env_id e) = None;
  na_ids : NoDup (map env_id (app_environments app));
  na_names : NoDup (map env_name (app_environments app));
  na_version : 1 ≤ ds_version (app_desired_state app) ≤ i64_max;
  na_observed : u64_range (os_desired_version (app_observed_state app));
}.
Definition stored_application (environments : list Environment) (app : Application) : Application :=
  mkApplication (app_id app) (app_name app) (app_origin app) (app_status app)
    (pg_time (app_created_at app)) (pg_time (app_updated_at app)) (app_audit app) environments
    (app_desired_state app) (stored_observation (app_observed_state app)) (app_collections app).

Lemma save_states id d o db :
  is_Some (t_applications db !! id_fmt id) → 1 ≤ ds_version d ≤ i64_max →
  ∃ drow, upsert_desired_state id d db = Done (set_desired (<[id_fmt id := drow]> (t_desired db)) db, Ok tt) ∧
    upsert_observed_state id o (set_desired (<[id_fmt id := drow]> (t_desired db)) db) =
      Done (set_observed_states (<[id_fmt id := mkObservedRow (u64_as_i64 (os_desired_version o))
        (observed_status_name (os_status o)) (pg_time (os_last_observed_at o)) (os_detail o)]> (t_observed db))
        (set_desired (<[id_fmt id := drow]> (t_desired db)) db), Ok tt).
Proof.
  intros Happ Hv. unfold upsert_desired_state, upsert_observed_state, upsert_observed_state_conn. unfold_monad.
  destruct (to_value_total (ds_profiles d)) as [p ->]. destruct (to_value_total (ds_config d)) as [c ->].
  assert (version_check (u64_as_i64 (ds_version d)) = Ok tt) as ->.
  { apply version_check_Ok. unfold u64_as_i64. rewrite decide_True; lia. }
  assert (∀ t, references t (t_applications db) (id_fmt id) = Ok tt) as Href by (intros; by apply references_Ok).
  rewrite Href. eexists. split; [done|]. simpl. by rewrite Href.
Qed.

(** What a first save writes. *)
Record first_written (db : AppDb) (app : Application) (row : ApplicationRow)
    (t : gmap string EnvironmentRow) (drow : DesiredRow) (db' : AppDb) : Prop := {
  fw_db : db' = set_observed_states (<[id_fmt (app_id app) :=
      mkObservedRow (u64_as_i64 (os_desired_version (app_observed_state app)))
        (observed_status_name (os_status (app_observed_state app)))
        (pg_time (os_last_observed_at (app_observed_state app))) (os_detail (app_observed_state app))]> (t_observed db))
    (set_desired (<[id_fmt (app_id app) := drow]> (t_desired db)) (set_environments t
      (set_applications (<[id_fmt (app_id app) := row]> (t_applications db)) db)));
  fw_ok : db_ok db';
  fw_row now : application_from_row now row = Ok (mkApplication (app_id app) (app_name app) (app_origin app)
    (app_status app) (pg_time (app_created_at app)) (pg_time (app_updated_at app)) (app_audit app) []
    DesiredState_initial (ObservedState_unknown 1 now) (app_collections app));
  fw_desired : sw_version drow = u64_as_i64 (ds_version (app_desired_state app)) ∧
    from_value (sw_profiles drow) = Ok (ds_profiles (app_desired_state app)) ∧
    from_value (sw_config drow) = Ok (ds_config (app_desired_state app));
  fw_others k : (∀ e, e ∈ app_environments app → k ≠ id_fmt (env_id e)) → t !! k = t_environments db !! k;
  fw_environments e : e ∈ app_environments app → ∃ r, t !! id_fmt (env_id e) = Some r ∧
    environment_from_row r = Ok e ∧ nw_application_id r = id_fmt (app_id app);
}.
Lemma no_environments db k : db_ok db → t_applications db !! k = None →
  ∀ j r, t_environments db !! j = Some r → nw_application_id r ≠ k.
Proof. intros Hok Hnew j r Hj Ha. destruct (ok_environments db Hok _ _ Hj) as (_ & [ar Har] & _). congruence. Qed.
Lemma saved_row app row :
  aw_id row = id_fmt (app_id app) → aw_name row = app_name app → aw_updated_at row = pg_time (app_updated_at app) →
  from_value (aw_origin row) = Ok (app_origin app) → aw_status row = status_name (app_status app) →
  aw_updated_by row = updated_by (app_audit app) →
  from_value (aw_audit_event_ids row) = Ok (audit_event_ids (app_audit app)) →
  from_value (aw_collections row) = Ok (app_collections app) →
  aw_created_at row = pg_time (app_created_at app) → aw_created_by row = created_by (app_audit app) → ∀ now,
  application_from_row now row = Ok (mkApplication (app_id app) (app_name app) (app_origin app)
    (app_status app) (pg_time (app_created_at app)) (pg_time (app_updated_at app)) (app_audit app) []
    DesiredState_initial (ObservedState_unknown 1 now) (app_collections app)).
Proof.
  intros Hid Hn Hu Ho Hs Hby Ha Hc Hcat Hcby now. unfold application_from_row.
  rewrite Hid, ApplicationId_round_trip. simpl. rewrite Ho. simpl. rewrite Hs, status_from_status_name. simpl.
  rewrite Ha. simpl. rewrite Hc. simpl. rewrite Hn, Hu, Hby, Hcat, Hcby. by destruct (app_audit app).
Qed.
Lemma first_save_run db app :
  db_ok db → complete db → new_aggregate db app →
  ∃ db' row t drow, application_save app db = Done (db', Ok tt) ∧ first_written db app row t drow db'.
Proof.
  intros Hok Hc [Hnew Hes Hids Hnames Hv Ho].
  destruct (upsert_application_total app db) as [db1 E1].
  destruct (upsert_application_Ok _ _ _ E1) as (row & -> & Hrow & Hname & Hup & Hor & Hst & Hby & Hau & Hco & Hcr).
  rewrite Hnew in Hcr. destruct Hcr as [Hcat Hcby].
  assert (db_ok (set_applications (<[id_fmt (app_id app) := row]> (t_applications db)) db)) as Hok1.
  { apply ok_set_applications; [done|by apply map_Forall_insert_2; [|apply Hok]|]. intros j. apply is_Some_insert. }
  destruct (upsert_environments_fresh (app_id app) (app_environments app) _ Hok1) as (t & E2 & Hok2 & Hkeep & Hin);
    [simpl; rewrite lookup_insert_eq; eauto|done|done|done| |].
  { intros j r e Hj Ha. by destruct (no_environments _ _ Hok Hnew j r Hj). }
  destruct (save_states (app_id app) (app_desired_state app) (app_observed_state app)
      (set_environments t (set_applications (<[id_fmt (app_id app) := row]> (t_applications db)) db)))
    as (drow & E3 & E4); [simpl; by rewrite lookup_insert_eq|done|].
  assert (u64_range (ds_version (app_desired_state app))) as Hvr by (unfold u64_range, i64_max, u64_max in *; lia).
  destruct (upsert_desired_Ok _ _ _ _ Hok2 Hvr E3) as (drow' & Hd & _ & Hdrow).
  apply (f_equal t_desired) in Hd. simpl in Hd. apply (f_equal (.!! id_fmt (app_id app))) in Hd.
  rewrite !lookup_insert_eq in Hd. injection Hd as <-.
  match type of E4 with _ = Done (?d, _) => assert (application_save app db = Done (d, Ok tt)) as Es end.
  { unfold application_save, transaction, mbind, M_bind. by rewrite E1, E2, E3, E4. }
  eexists _, row, t, drow. split; [exact Es|]. constructor; [done| | |done|done|done].
  - by destruct (application_save_settled _ _ _ _ Hok Hc (conj Hvr Ho) Es).
  - by apply saved_row; [apply Hrow|..].
Qed.
Lemma first_environments db app row t drow db' :
  db_ok db → new_aggregate db app → first_written db app row t drow db' →
  ∃ envs, load_environments db' (app_id app) = Ok envs ∧ envs ≡ₚ app_environments app ∧
    StronglySorted environment_name_le envs.
Proof.
  intros Hok [Hnew _ Hids _ _ _] [Hdb Hok' _ _ Hkeep Hin].
  destruct (load_environments_Ok _ (app_id app) Hok') as (envs & Hle & Hsort & Hnd & Helem).
  exists envs. split; [done|]. split; [|done].
  apply NoDup_Permutation; [by apply NoDup_fmap_1 in Hnd|by apply NoDup_fmap_1 in Hids|].
  assert (t_environments db' = t) as Ht by by subst.
  intros e. rewrite Helem, Ht. split; [|intros He; destruct (Hin e He) as (r & ? & ? & ?); eauto].
  intros (r & Hr & Ha & He).
  destruct (decide (id_fmt (env_id e) ∈ map (id_fmt ∘ env_id) (app_environments app))) as [Hx|Hx].
  - apply list_elem_of_fmap in Hx as (x & Hk & Hx). destruct (Hin x Hx) as (rx & Hrx & Hex & _).
    simpl in Hk. rewrite <- Hk, Hr in Hrx. simplify_eq. rewrite He in Hex. by simplify_eq.
  - exfalso. rewrite Hkeep in Hr; [by destruct (no_environments _ _ Hok Hnew _ _ Hr)|].
    intros x Hxin Hk. apply Hx, list_elem_of_fmap. eauto.
Qed.

(** C15: Saving a new aggregate succeeds and loading it gives it back, with
    its instants as the database stores them and its environments, none lost or
    added, in the order of their names. *)
Theorem first_save_round_trip db app now :
  db_reachable db → new_aggregate db app →
  ∃ db' environments, application_save app db = Done (db', Ok tt) ∧
    environments ≡ₚ app_environments app ∧ StronglySorted environment_name_le environments ∧
    application_get now (app_id app) db' = Ok (stored_application environments app).
Proof.
  intros [Hok Hc]%reachable_ok Hna. destruct (first_save_run db app Hok Hc Hna) as (db' & row & t & drow & Es & Hfw).
  destruct (first_environments _ _ _ _ _ _ Hok Hna Hfw) as (envs & Hle & Hperm & Hsort).
  exists db', envs. split_and!; [done..|]. destruct Hfw as [Hdb Hok' Hrow (Hdv & Hdp & Hdc) _ _].
  rewrite application_get_unfold, Hle by done. unfold load_desired_state, load_observed_state. rewrite Hdb. simpl.
  rewrite !lookup_insert_eq. simpl. rewrite Hrow. simpl. rewrite Hdp. simpl. rewrite Hdc. simpl.
  unfold observed_state_from_row. simpl. rewrite observed_status_from_status_name. simpl.
  destruct Hna as [_ _ _ _ Hv Ho]. rewrite Hdv, !as_i64_u64 by (done || (unfold i64_max, u64_max in *; lia)).
  by destruct app as [? ? ? ? ? ? ? ? [] ?].
Qed.

(** A save installs the desired state of the aggregate it is given, whatever
    generation is stored: the version guards only [store_update_desired]. *)
Lemma save_ignores_generation db app db' :
  db_reachable db → op_typed (RoSave app) → application_save app db = Done (db', Ok tt) →
  sw_version <$> t_desired db' !! id_fmt (app_id app) = Some (u64_as_i64 (ds_version (app_desired_state app))).
Proof.
  intros [Hok Hc]%reachable_ok [Hv _] E. apply transaction_cases in E.
  apply M_bind_Ok in E as (db1 & [] & E1 & E). apply M_bind_Ok in E as (db2 & [] & E2 & E).
  apply M_bind_Ok in E as (db3 & [] & E3 & E). apply M_bind_Ok in E as (db4 & n & E4 & E). injection E as <-.
  apply upsert_application_Ok in E1 as (row & -> & Hrow & _).
  apply upsert_environments_Ok in E2 as (t & -> & Hok2).
  2: { apply ok_set_applications; [done|by apply map_Forall_insert_2; [|apply Hok]|]. intros j. apply is_Some_insert. }
  apply upsert_desired_Ok in E3 as (d & -> & Hok3 & Hdv & _); [|done..].
  apply upsert_observed_Ok in E4 as (o & -> & _); [|done]. simpl. rewrite lookup_insert_eq. simpl. by rewrite Hdv.
Qed.
(** An observation of an application that is not stored fails with the database
    error of its reference, not as not found. *)
Lemma unknown_observation db id o :
  t_applications db !! id_fmt id = None →
  store_observation id o db = Done (db, Err (violates "observed_states" "foreign key")).
Proof.
  intros Hn. unfold store_observation, transaction, upsert_observed_state_conn, references. unfold_monad.
  by rewrite Hn.
Qed.

(** Setting the phase of a stored deployment accepts every phase, also
    one its lifecycle never moves to from where it is, records no transition and
    keeps everything else. *)
Theorem set_phase_ignores_lifecycle db (id : DeploymentId) d phase now :
  db_reachable db → deployment_get id db = Ok d → (∃ v, to_value (dep_set_phase phase d) = Ok v) →
  ∃ db', set_phase id phase now db = Done (db', Ok (dep_set_phase phase d)) ∧
    deployment_get id db' = Ok (dep_set_phase phase d) ∧
    dep_phase (dep_set_phase phase d) = phase ∧
    dep_transitions (dep_set_phase phase d) = dep_transitions d.
Proof.
  intros [Hok Hc]%reachable_ok Hd Hv.
  destruct (set_phase_run id phase now db d Hok Hc Hd Hv) as (db' & E & _ & Hg). by exists db'.
Qed.
End Integrity.

(* ------------------------------------------------------------------ *)
(** * Examples *)

Module RepoExamples.
Import RefInstances RefPg StoreExamples.

(** Values that hold one stored contract. *)
Inductive Value :=
| VNull | VText (s : string) | VOrigin (o : Origin) | VTexts (l : list string)
| VCollections (c : LifecycleCollections) | VKind (k : EnvironmentKind) | VRefs (r : EnvironmentRefs)
| VProfiles (l : list (string * Value)) | VActor (a : EventActor) | VResult (r : EventResult)
| VBound (b : BoundCapability) | VDeployment (d : Deployment) | VFailure (f : FailureRecord)
| VTransitions (l : list ResourceTransition).
#[local] Instance value_json : JsonLib := { Json := Value; json_null := VNull }.
#[local] Instance origin_serde : Serde Origin :=
  { serialize x := Ok (VOrigin x); deserialize v := match v with VOrigin x => Ok x | _ => Err "origin" end }.
#[local] Instance texts_serde : Serde (list string) :=
  { serialize x := Ok (VTexts x); deserialize v := match v with VTexts x => Ok x | _ => Err "texts" end }.
#[local] Instance collections_serde : Serde LifecycleCollections :=
  { serialize x := Ok (VCollections x);
    deserialize v := match v with VCollections x => Ok x | _ => Err "collections" end }.
#[local] Instance kind_serde : Serde EnvironmentKind :=
  { serialize x := Ok (VKind x); deserialize v := match v with VKind x => Ok x | _ => Err "kind" end }.
#[local] Instance refs_serde : Serde EnvironmentRefs :=
  { serialize x := Ok (VRefs x); deserialize v := match v with VRefs x => Ok x | _ => Err "refs" end }.
#[local] Instance profiles_serde : Serde (gmap string Json) :=
  { serialize x := Ok (VProfiles (map_to_list x));
    deserialize v := match v with VProfiles l => Ok (list_to_map l) | _ => Err "profiles" end }.
#[local] Instance json_serde : Serde Json := { serialize x := Ok x; deserialize v := Ok v }.
#[local] Instance actor_serde : Serde EventActor :=
  { serialize x := Ok (VActor x); deserialize v := match v with VActor x => Ok x | _ => Err "actor" end }.
#[local] Instance result_serde : Serde EventResult :=
  { serialize x := Ok (VResult x); deserialize v := match v with VResult x => Ok x | _ => Err "result" end }.
#[local] Instance bound_serde : Serde BoundCapability :=
  { serialize x := Ok (VBound x); deserialize v := match v with VBound x => Ok x | _ => Err "bound" end }.
#[local] Instance deployment_serde : Serde Deployment :=
  { serialize x := Ok (VDeployment x); deserialize v := match v with VDeployment x => Ok x | _ => Err "deployment" end }.
#[local] Instance failure_serde : Serde FailureRecord :=
  { serialize x := Ok (VFailure x); deserialize v := match v with VFailure x => Ok x | _ => Err "failure" end }.
#[local] Instance transitions_serde : Serde (list ResourceTransition) :=
  { serialize x := Ok (VTransitions x); deserialize v := match v with VTransitions x => Ok x | _ => Err "transitions" end }.
#[local] Instance origin_laws : SerdeLaws Origin.
Proof. constructor. by intros x v [= <-]. Qed.
#[local] Instance texts_laws : SerdeLaws (list string).
Proof. constructor. by intros x v [= <-]. Qed.
#[local] Instance collections_laws : SerdeLaws LifecycleCollections.
Proof. constructor. by intros x v [= <-]. Qed.
#[local] Instance kind_laws : SerdeLaws EnvironmentKind.
Proof. constructor. by intros x v [= <-]. Qed.
#[local] Instance refs_laws : SerdeLaws EnvironmentRefs.
Proof. constructor. by intros x v [= <-]. Qed.
#[local] Instance profiles_laws : SerdeLaws (gmap string Json).
Proof. constructor. intros x v [= <-]. simpl. by rewrite list_to_map_to_list. Qed.
#[local] Instance json_laws : SerdeLaws Json.
Proof. constructor. by intros x v [= <-]. Qed.
#[local] Instance bound_laws : SerdeLaws BoundCapability.
Proof. constructor. by intros x v [= <-]. Qed.
#[local] Instance deployment_laws : SerdeLaws Deployment.
Proof. constructor. by intros x v [= <-]. Qed.
#[local] Instance origin_total : SerdeTotal Origin.
Proof. constructor. simpl. eauto. Qed.
#[local] Instance texts_total : SerdeTotal (list string).
Proof. constructor. simpl. eauto. Qed.
#[local] Instance collections_total : SerdeTotal LifecycleCollections.
Proof. constructor. simpl. eauto. Qed.
#[local] Instance kind_total : SerdeTotal EnvironmentKind.
Proof. constructor. simpl. eauto. Qed.
#[local] Instance refs_total : SerdeTotal EnvironmentRefs.
Proof. constructor. simpl. eauto. Qed.
#[local] Instance profiles_total : SerdeTotal (gmap string Json).
Proof. constructor. simpl. eauto. Qed.
#[local] Instance json_total : SerdeTotal Json.
Proof. constructor. simpl. eauto. Qed.
#[local] Instance checked : BuildProfile := { overflow_checks := true }.

Definition shop_id : ApplicationId := mkId (uuid 1).
Definition shop : Application :=
  Application_new shop_id (mkId (uuid 3)) (mkId (uuid 2)) 1500 2500 "shop" (OImportedLocal "/src") "ann".
Lemma shop_is_new : new_aggregate empty_db shop.
Proof.
  constructor; [reflexivity| |..].
  - intros e He. repeat (apply elem_of_cons in He as [->|He]; [by split|]). by apply elem_of_nil in He.
  - apply (bool_decide_unpack _). vm_compute. exact I.
  - apply (bool_decide_unpack _). vm_compute. exact I.
  - vm_compute. split; discriminate.
  - vm_compute. split; discriminate.
Qed.

Definition saved := application_save shop empty_db.
Definition db1 : AppDb := (done_or (empty_db, Err (CpIo "")) saved).1.
Lemma saved_ok : run_repo (RoSave shop) empty_db = Done (db1, Ok tt).
Proof. vm_compute. reflexivity. Qed.
Lemma db1_reachable : db_reachable db1.
Proof.
  eapply rtc_once. exists (RoSave shop), (Ok tt). split; [|exact saved_ok].
  vm_compute. repeat split; discriminate.
Qed.

Lemma first_save_round_trip_witness :
  ∃ db' environments, application_save shop empty_db = Done (db', Ok tt) ∧
    environments ≡ₚ app_environments shop ∧ StronglySorted environment_name_le environments ∧
    application_get 0 shop_id db' = Ok (stored_application environments shop).
Proof. exact (first_save_round_trip empty_db shop 0 (rtc_refl _ _) shop_is_new). Defined.
Example shop_loads :
  match application_get 0 shop_id db1 with
  | Ok a => (app_created_at a, map env_name (app_environments a)) = (1000, ["development"; "production"])
  | Err _ => False
  end.
Proof. vm_compute. reflexivity. Qed.

Lemma stored_applications_load_witness :
  ∃ a, application_get 0 shop_id db1 = Ok a ∧ app_id a = shop_id.
Proof.
  destruct (stored_applications_load db1 0 db1_reachable) as [Hall _]. specialize (Hall shop_id).
  destruct (t_applications db1 !! id_fmt shop_id) as [row|] eqn:E; [|vm_compute in E; discriminate E].
  destruct Hall as (a & Ha & Hid & _). exact (ex_intro _ a (conj Ha Hid)).
Defined.

Definition next : DesiredState := {| ds_version := 2; ds_profiles := ∅; ds_config := VText "blue" |}.
Definition note : EventDraft :=
  EventDraft_new 3000 (ActHuman "ann") (Correlation_new "t1") EaReconciled ErSucceeded.
Definition updated := store_update_desired 5000 0 shop_id 1 next note "blue" "ann" [] db1.
Definition db2 : AppDb := (done_or (empty_db, Err (CpIo "")) updated).1.
Definition shop2 : Application :=
  match updated with Done (_, Ok a) => a | _ => shop end.
Lemma updated_ok : store_update_desired 5000 0 shop_id 1 next note "blue" "ann" [] db1 = Done (db2, Ok shop2).
Proof. vm_compute. reflexivity. Qed.
Lemma one_range : u64_range 1.
Proof. vm_compute. split; discriminate. Qed.
Lemma two_range : u64_range (ds_version next).
Proof. vm_compute. split; discriminate. Qed.

Lemma stores_refine_aggregate_witness :
  ∃ before, application_get 0 shop_id db1 = Ok before ∧ shop2 = update_desired_state 5000 next "ann" before.
Proof.
  destruct (application_get 0 shop_id db1) as [before|e] eqn:E; [|vm_compute in E; discriminate E].
  exists before. split; [reflexivity|].
  exact (proj1 (proj2 (proj1 (stores_refine_aggregate db1 0 shop_id before db1_reachable E)
                         5000 1 next note "blue" "ann" [] db2 shop2 one_range two_range updated_ok))).
Defined.

(** A stale writer, after an observation by another component. *)
Definition seen : ObservedState :=
  {| os_desired_version := 2; os_status := OHealthy; os_last_observed_at := 7500; os_detail := None |}.
Definition db3 : AppDb := (done_or (empty_db, Err (CpIo "")) (store_observation shop_id seen db2)).1.
Lemma no_lost_update_witness :
  ∃ m, store_update_desired 9000 0 shop_id 1 next note "red" "bob" [] db3 = Done (db3, Err (CpConflict m)).
Proof.
  apply (no_lost_update db1 db2 db3 shop_id 1 5000 0 next note "blue" "ann" [] shop2
           9000 0 next note "red" "bob" [] db1_reachable one_range two_range updated_ok).
  - apply rtc_once. exists (RoObserve shop_id seen), (Ok tt). split; [exact I|].
    split; [vm_compute; split; discriminate|vm_compute; reflexivity].
  - reflexivity.
  - eexists. reflexivity.
  - eexists. reflexivity.
Defined.

Definition unknown_app : ApplicationId := mkId (uuid 9).
Lemma failed_operations_change_nothing_witness :
  ∃ e, run_repo (RoObserve unknown_app seen) db1 = Done (db1, Err e).
Proof.
  destruct (run_repo (RoObserve unknown_app seen) db1) as [[db' [u|e]]|m] eqn:E;
    [vm_compute in E; discriminate E| |vm_compute in E; discriminate E].
  exists e. assert (op_typed (RoObserve unknown_app seen)) as Ht by (vm_compute; split; discriminate).
  rewrite (failed_operations_change_nothing db1 _ db' e db1_reachable Ht E). reflexivity.
Defined.

Definition db4 : AppDb := (done_or (empty_db, Err (CpIo "")) (application_delete shop_id db1)).1.
Lemma deletion_is_complete_witness :
  application_delete shop_id db1 = Done (db4, Ok tt) ∧
  application_get 0 shop_id db4 = Err (CpNotFound (id_fmt shop_id)).
Proof.
  assert (application_delete shop_id db1 = Done (db4, Ok tt)) as E by (vm_compute; reflexivity).
  split; [exact E|]. exact (proj1 (deletion_is_complete db1 shop_id db4 0 db1_reachable E)).
Defined.

Definition release : Deployment :=
  {| dep_id := mkId (uuid 5); dep_application_id := shop_id; dep_environment_id := mkId (uuid 2);
     dep_revision := Revision_new "abc" "cfg" None; dep_build := None; dep_image := None;
     dep_runtime := DeploymentExamples.plan_cfg; dep_resources := []; dep_endpoint := None;
     dep_health := HsStarting; dep_phase := DpFailed; dep_logs := []; dep_rollback_target := None;
     dep_transitions := [] |}.
Definition db5 : AppDb := (done_or (empty_db, Err (CpIo "")) (deployment_save release 4000 db1)).1.
Lemma set_phase_ignores_lifecycle_witness :
  ∃ db', set_phase (mkId (uuid 5)) DpHealthy 6000 db5 = Done (db', Ok (dep_set_phase DpHealthy release)).
Proof.
  assert (db_reachable db5) as Hr.
  { eapply rtc_r; [exact db1_reachable|]. exists (RoDeployment release 4000), (Ok tt).
    split; [exact I|]. vm_compute. reflexivity. }
  destruct (set_phase_ignores_lifecycle db5 (mkId (uuid 5)) release DpHealthy 6000 Hr) as (db' & E & _).
  - vm_compute. reflexivity.
  - eexists. reflexivity.
  - exact (ex_intro _ db' E).
Defined.
End RepoExamples.
