(* ===== verification/Delivery.v ===== *)
(** The provider runtime (providers.rs of labrys-control-plane): the adapters it
    drives, the tables it writes, and the operations that execute one provider
    operation, deliver one artifact and converge one hostname. *)

From stdpp Require Import base option list strings pretty gmap.
From Stdlib Require Import ZArith Lia.
From S2P Require Import Prelude External Errors CpErrors Ids Resource Jobs Runtime Approval Deployment.
From S2P Require Import Events AuditChain Verifier Provider DurableJobs ResourceStore CpStores.
Local Open Scope Z_scope.

(* ------------------------------------------------------------------ *)
(** * Executions *)

Inductive ProviderExecution :=
| PxAccepted (detail : string)
| PxReady (detail : string)
| PxDegraded (reason : string)
| PxFailed (reason recovery : string).
Definition failed_redacted (reason : string) (secrets : list string) : ProviderExecution :=
  let '(reason, recovery) := sanitize_failure reason secrets in PxFailed reason recovery.
Definition observation (e : ProviderExecution) : ProviderObservation :=
  match e with
  | PxAccepted detail => PoAccepted detail
  | PxReady detail => PoReady detail
  | PxDegraded reason => PoDegraded reason
  | PxFailed reason recovery => PoFailed reason recovery
  end.
Definition execution_target_phase (e : ProviderExecution) : ResourcePhase :=
  target_phase (observation e).
Definition redact_execution (outcome : ProviderExecution) (secrets : list string) :
    ProviderExecution :=
  match outcome with
  | PxAccepted detail => PxAccepted (redact detail secrets)
  | PxReady detail => PxReady (redact detail secrets)
  | PxDegraded reason => PxDegraded (redact reason secrets)
  | PxFailed reason recovery => PxFailed (redact reason secrets) recovery
  end.

(** The traits of the injected boundaries, over their own state [X]. *)
Record ProviderAdapter (X : Type) := {
  pa_key : string;
  pa_kind : ProviderKind;
  pa_execute : ProviderOperation → M X ControlPlaneError ProviderExecution;
}.
#[global] Arguments pa_key {X}.
#[global] Arguments pa_kind {X}.
#[global] Arguments pa_execute {X}.
Record OciRegistry (X : Type) := {
  or_push : RegistryArtifact → M X ControlPlaneError string;
  or_pull : string → M X ControlPlaneError string;
  or_push_content : RegistryArtifact → string → string → M X ControlPlaneError string;
}.
#[global] Arguments or_push {X}.
#[global] Arguments or_pull {X}.
#[global] Arguments or_push_content {X}.
(** The default of [push_content]. *)
Definition refuse_content {X} (_ : RegistryArtifact) (_ _ : string) : M X ControlPlaneError string :=
  mthrow (CpRegistry "registry adapter does not accept content bytes").
Record DomainDeliveryAdapter (X : Type) := {
  dd_ensure_dns : string → M X ControlPlaneError DnsState;
  dd_issue_certificate : string → M X ControlPlaneError CertificateState;
  dd_attach_traffic : Domain → Deployment → ExplicitApproval →
    M (X * DomainDelivery) ControlPlaneError unit;
  dd_certificate_evidence : string → X → X * option string;
}.
#[global] Arguments dd_ensure_dns {X}.
#[global] Arguments dd_issue_certificate {X}.
#[global] Arguments dd_attach_traffic {X}.
#[global] Arguments dd_certificate_evidence {X}.

(* ------------------------------------------------------------------ *)
(** * Local test doubles *)

Inductive InjectedFailure :=
| IfTimeout | IfProviderMismatch | IfCredentialLeak (secret : string) | IfTransient (reason : string).
Inductive ScriptedStep := SsExecution (e : ProviderExecution) | SsFailure (f : InjectedFailure).
Record LocalTestAdapter := mkTestAdapter {
  ta_steps : list ScriptedStep;
  ta_calls : list ProviderOperation;
}.
Definition with_steps (steps : list ProviderExecution) (self : LocalTestAdapter) :=
  mkTestAdapter (map SsExecution steps) (ta_calls self).
Definition with_failures (failures : list InjectedFailure) (self : LocalTestAdapter) :=
  mkTestAdapter (map SsFailure failures) (ta_calls self).

Section Doubles.
Context `{UuidLib}.

(** [Vec::pop] takes the last step of the script. *)
Definition test_execute (key : string) (operation : ProviderOperation) :
    M LocalTestAdapter ControlPlaneError ProviderExecution :=
  modify (λ a, mkTestAdapter (ta_steps a) (ta_calls a ++ [operation]));;
  a ← get;
  put (mkTestAdapter (removelast (ta_steps a)) (ta_calls a));;
  match last (ta_steps a) with
  | None => mret (PxAccepted (key +:+ " accepted " +:+ id_fmt (po_resource_id operation)))
  | Some (SsExecution outcome) => mret outcome
  | Some (SsFailure IfTimeout) =>
      mret (PxFailed ("provider " +:+ key +:+ " timed out on " +:+ id_fmt (po_resource_id operation))
              PROVIDER_FAILURE_RECOVERY)
  | Some (SsFailure IfProviderMismatch) =>
      mthrow (CpProvider ("provider " +:+ key +:+ " does not supply capability '"
                +:+ po_capability operation +:+ "'"))
  | Some (SsFailure (IfCredentialLeak secret)) =>
      mret (PxFailed ("provider error leaked credential " +:+ secret +:+ " for "
                        +:+ id_fmt (po_resource_id operation)) PROVIDER_FAILURE_RECOVERY)
  | Some (SsFailure (IfTransient reason)) => mret (PxFailed reason PROVIDER_FAILURE_RECOVERY)
  end.
Definition LocalTestAdapter_new (key : string) (kind : ProviderKind) :
    ProviderAdapter LocalTestAdapter :=
  {| pa_key := key; pa_kind := kind; pa_execute := test_execute key |}.
End Doubles.

Record LocalTestRegistry := mkTestRegistry {
  tr_retained : gmap string RegistryArtifact;
  tr_mismatch_digest : option string;
  tr_refused : list string;
}.
Definition LocalTestRegistry_new : LocalTestRegistry := mkTestRegistry ∅ None [].
Definition with_mismatch (digest : string) : LocalTestRegistry := mkTestRegistry ∅ (Some digest) [].
Definition test_push (artifact : RegistryArtifact) : M LocalTestRegistry ControlPlaneError string :=
  self ← get;
  match gate_registry_push artifact with
  | Err err =>
      put (mkTestRegistry (tr_retained self) (tr_mismatch_digest self)
             (tr_refused self ++ [ra_reference artifact]));;
      mthrow (CpRegistry (CoreError_fmt err))
  | Ok _ =>
      let reported := default (ra_digest artifact) (tr_mismatch_digest self) in
      match verify_registry_digest (ra_digest artifact) reported with
      | Err err => mthrow (CpRegistry (CoreError_fmt err))
      | Ok _ =>
          put (mkTestRegistry (<[ra_reference artifact := artifact]> (tr_retained self))
                 (tr_mismatch_digest self) (tr_refused self));;
          mret reported
      end
  end.
Definition test_pull (reference : string) : M LocalTestRegistry ControlPlaneError string :=
  self ← get;
  lift_r (ok_or (CpNotFound ("artifact " +:+ reference +:+ " not retained"))
            (ra_digest <$> tr_retained self !! reference)).
Definition test_registry : OciRegistry LocalTestRegistry :=
  {| or_push := test_push; or_pull := test_pull; or_push_content := refuse_content |}.

Record LocalDomainDelivery := mkTestDomain { td_dns : DnsState; td_tls : CertificateState }.
Definition LocalDomainDelivery_healthy : LocalDomainDelivery := mkTestDomain DnsPropagated CertIssued.
Definition LocalDomainDelivery_with_dns (s : DnsState) : LocalDomainDelivery := mkTestDomain s CertIssued.
Definition LocalDomainDelivery_with_tls (s : CertificateState) : LocalDomainDelivery :=
  mkTestDomain DnsPropagated s.
Section TestDomain.
Context `{UuidLib} `{BuildProfile}.
Definition test_ensure_dns (hostname : string) : M LocalDomainDelivery ControlPlaneError DnsState :=
  self ← get;
  match td_dns self with
  | DnsFailed reason => mthrow (CpDomain ("DNS for '" +:+ hostname +:+ "' failed: " +:+ reason))
  | state => mret state
  end.
Definition test_issue_certificate (hostname : string) :
    M LocalDomainDelivery ControlPlaneError CertificateState :=
  self ← get;
  match td_tls self with
  | CertFailed reason =>
      mthrow (CpDomain ("certificate issuance failed for '" +:+ hostname +:+ "': " +:+ reason
                +:+ ". " +:+ CERTIFICATE_FAILURE_RECOVERY))
  | state => mret state
  end.
Definition test_attach_traffic (domain : Domain) (deployment : Deployment)
    (approval : ExplicitApproval) : M (LocalDomainDelivery * DomainDelivery) ControlPlaneError unit :=
  λ s, match plan_traffic_attachment domain deployment approval s.2 with
       | Done (d, Ok _) => Done ((s.1, d), Ok tt)
       | Done (d, Err e) => Done ((s.1, d), Err (CpDomain (CoreError_fmt e)))
       | Panic msg => Panic msg
       end.
Definition test_domain : DomainDeliveryAdapter LocalDomainDelivery :=
  {| dd_ensure_dns := test_ensure_dns; dd_issue_certificate := test_issue_certificate;
     dd_attach_traffic := test_attach_traffic; dd_certificate_evidence := λ _ x, (x, None) |}.
End TestDomain.

(* ------------------------------------------------------------------ *)
(** * Tables and state *)

Section Tables.
Context `{JsonLib}.

Record OperationRow := mkOperationRow {
  ow_id : string;
  ow_application_id : string;
  ow_environment_id : option string;
  ow_resource_id : string;
  ow_capability : string;
  ow_provider_key : string;
  ow_provider_kind : string;
  ow_action : string;
  ow_idempotency_key : string;
  ow_trace_id : string;
  ow_secret_refs : Json;
  ow_phase : string;
  ow_failure : string;
  ow_usage_units : Z;
  ow_at : DateTime;
}.
Record RegistryDeliveryRecord := mkRegistryRecord {
  rd_id : string;
  rd_application_id : string;
  rd_reference : string;
  rd_recorded_digest : string;
  rd_reported_digest : string;
  rd_revision_sha : string;
  rd_status : string;
  rd_detail : string;
}.
Record DomainDeliveryRecord := mkDomainRecord {
  dr_id : string;
  dr_domain_id : string;
  dr_hostname : string;
  dr_deployment_id : option string;
  dr_dns : string;
  dr_tls : string;
  dr_traffic_attached : bool;
  dr_detail : string;
}.

(** The tables of the database these modules write. *)
Record Db := mkDb {
  db_jobs : gmap string JobRow;
  db_resources : gmap string ResourceRow;
  db_events : Serial EventRow;
  db_logs : Serial LogRow;
  db_audit : list AuditRecord;
  db_usage : Serial UsageRow;
  (** keyed by the unique idempotency key *)
  db_operations : gmap string OperationRow;
  db_registry : gmap string RegistryDeliveryRecord;
  db_domains : gmap string DomainDeliveryRecord;
}.
Definition set_jobs v d := mkDb v (db_resources d) (db_events d) (db_logs d) (db_audit d)
  (db_usage d) (db_operations d) (db_registry d) (db_domains d).
Definition set_resources v d := mkDb (db_jobs d) v (db_events d) (db_logs d) (db_audit d)
  (db_usage d) (db_operations d) (db_registry d) (db_domains d).
Definition set_events v d := mkDb (db_jobs d) (db_resources d) v (db_logs d) (db_audit d)
  (db_usage d) (db_operations d) (db_registry d) (db_domains d).
Definition set_logs v d := mkDb (db_jobs d) (db_resources d) (db_events d) v (db_audit d)
  (db_usage d) (db_operations d) (db_registry d) (db_domains d).
Definition set_audit v d := mkDb (db_jobs d) (db_resources d) (db_events d) (db_logs d) v
  (db_usage d) (db_operations d) (db_registry d) (db_domains d).
Definition set_usage v d := mkDb (db_jobs d) (db_resources d) (db_events d) (db_logs d) (db_audit d)
  v (db_operations d) (db_registry d) (db_domains d).
Definition set_operations v d := mkDb (db_jobs d) (db_resources d) (db_events d) (db_logs d)
  (db_audit d) (db_usage d) v (db_registry d) (db_domains d).
Definition set_registry v d := mkDb (db_jobs d) (db_resources d) (db_events d) (db_logs d)
  (db_audit d) (db_usage d) (db_operations d) v (db_domains d).
Definition set_domains v d := mkDb (db_jobs d) (db_resources d) (db_events d) (db_logs d)
  (db_audit d) (db_usage d) (db_operations d) (db_registry d) v.
End Tables.


Definition provider_kind_name (k : ProviderKind) : string :=
  match k with
  | PkPostgres => "postgres" | PkAuth => "auth" | PkFileStorage => "file-storage"
  | PkObjectStorage => "object-storage" | PkGeneric => "generic"
  end.
Definition dns_name (s : DnsState) : string :=
  match s with DnsPending => "pending" | DnsPropagated => "propagated" | DnsFailed _ => "failed" end.
Definition tls_name (s : CertificateState) : string :=
  match s with
  | CertPending => "pending" | CertIssued => "issued" | CertRenewing => "renewing"
  | CertFailed _ => "failed"
  end.
Definition kind_from_name (name : string) : ProviderKind :=
  if decide (name = "postgres") then PkPostgres
  else if decide (name = "auth") then PkAuth
  else if decide (name = "file-storage") then PkFileStorage
  else if decide (name = "object-storage") then PkObjectStorage else PkGeneric.
Definition provider_action_from_name (name : string) : ProviderAction :=
  if decide (name = "provision") then PaProvision
  else if decide (name = "readiness-check") then PaReadinessCheck
  else if decide (name = "replace") then PaReplace
  else if decide (name = "migrate") then PaMigrate
  else if decide (name = "adopt") then PaAdopt else PaDelete.

Record ProviderOperationRecord := mkOpRecord {
  pr_id : string;
  pr_operation : ProviderOperation;
  pr_phase : ResourcePhase;
  pr_failure : string;
  pr_usage_units : Z;
}.

(* ------------------------------------------------------------------ *)
(** * The provider runtime *)

Definition id_ok {k} (r : result string (Id k)) : option (Id k) :=
  match r with Ok id => Some id | Err _ => None end.

(** The random values one call draws: a record identifier, the identifiers a
    read may fall back to, and a default environment. *)
Record Rand := { r_uuid : Uuid; r_draws : Draws; r_environment : EnvironmentId }.

Section Runtime.
Context `{UuidLib} `{JsonLib} `{!Serde FailureRecord} `{!Serde (list ResourceTransition)}.
Context `{!Serde EventActor} `{!Serde EventResult} `{!Serde (list string)}.
Context `{Chrono} `{ChronoText} `{SubsecRound} `{BuildProfile} `{PgTime}.
Context {X : Type}.
(** [self.secrets]. *)
Context (secrets : list string).

Abbreviation W := (Db * X)%type.
Definition on_db {A} (m : M Db ControlPlaneError A) : M W ControlPlaneError A :=
  zoom fst (λ d w, (d, w.2)) m.
Definition on_ext {E A} (m : M X E A) : M W E A := zoom snd (λ x w, (w.1, x)) m.
Definition resources_table {A} (m : M (gmap string ResourceRow) ControlPlaneError A) :
    M Db ControlPlaneError A := zoom db_resources set_resources m.

Definition operation_phase_from_name (name : string) : result ControlPlaneError ResourcePhase :=
  match phase_from_name name with
  | Ok p => Ok p
  | Err _ => Err (CpMapping ("unknown provider phase " +:+ name))
  end.
Definition operation_from_row (row : OperationRow) : result ControlPlaneError ProviderOperationRecord :=
  secret_refs ← from_value (ow_secret_refs row);
  application_id ← match ApplicationId_from_str (ow_application_id row) with
                   | Ok id => Ok id
                   | Err _ => Err (CpMapping ("invalid application id " +:+ ow_application_id row))
                   end;
  environment_id ← match ow_environment_id row with
                   | None => Ok None
                   | Some e => match EnvironmentId_from_str e with
                               | Ok id => Ok (Some id)
                               | Err _ => Err (CpMapping ("invalid environment id " +:+ e))
                               end
                   end;
  resource_id ← match ResourceId_from_str (ow_resource_id row) with
                | Ok id => Ok id
                | Err _ => Err (CpMapping ("invalid resource id " +:+ ow_resource_id row))
                end;
  phase ← operation_phase_from_name (ow_phase row);
  Ok (mkOpRecord (ow_id row)
        (mkOperation application_id environment_id resource_id (ow_capability row)
           (ow_provider_key row) (kind_from_name (ow_provider_kind row))
           (provider_action_from_name (ow_action row)) (ow_idempotency_key row) (ow_trace_id row)
           secret_refs 1)
        phase (ow_failure row) (ow_usage_units row)).

Definition get_operation (key : string) : M Db ControlPlaneError ProviderOperationRecord :=
  d ← get;
  row ← lift_r (ok_or (CpDatabase "no rows returned") (db_operations d !! key));
  lift_r (operation_from_row row).

(** [INSERT ... ON CONFLICT (idempotency_key) DO NOTHING]. *)
Definition record_operation (op : ProviderOperation) (phase : ResourcePhase) (failure : string)
    (usage_units : Z) (at_ : DateTime) (u : Uuid) : M Db ControlPlaneError ProviderOperationRecord :=
  failure ← lift_r (redact_guard "provider_operations.failure" failure secrets);
  refs ← lift_r (to_value (po_secret_refs op));
  d ← get;
  let id := "pop_" +:+ uuid_simple u in
  match db_operations d !! po_idempotency_key op with
  | Some _ => mret tt
  | None =>
      if existsb (λ r, bool_decide (ow_id r = id)) (btree_values (db_operations d)) then
        mthrow (CpDatabase "duplicate key value violates unique constraint provider_operations_pkey")
      else
        put (set_operations (<[po_idempotency_key op :=
          mkOperationRow id (id_fmt (po_application_id op)) (id_fmt <$> po_environment_id op)
            (id_fmt (po_resource_id op)) (po_capability op) (po_provider_key op)
            (provider_kind_name (po_kind op)) (action_label (po_action op)) (po_idempotency_key op)
            (po_trace_id op) refs (phase_name phase) failure usage_units (pg_time at_)]>
          (db_operations d)) d)
  end;;
  get_operation (po_idempotency_key op).

Definition record_event (op : ProviderOperation) (action : EventAction) (result : EventResult)
    (detail : string) (at_ : DateTime) (draws : Draws) : M Db ControlPlaneError unit :=
  let draft := EventDraft_new at_ (ActPlatform ("provider:" +:+ po_provider_key op))
    (mkCorrelation (po_trace_id op) None
       (id_ok (ApplicationId_from_str (id_fmt (po_application_id op))))
       (e ← po_environment_id op; id_ok (EnvironmentId_from_str (id_fmt e)))) action result in
  let draft := EventDraft_on_resource (EventResource_new "resource" (id_fmt (po_resource_id op))) draft in
  let draft := mkDraft (ed_at draft) (ed_actor draft) (ed_correlation draft) (ed_action draft)
    (ed_resource draft) (ed_before draft) (Some detail) (ed_result draft) in
  _ ← zoom db_events set_events (event_append draws draft secrets);
  _ ← zoom db_audit set_audit (append_audit at_ ("provider:" +:+ po_provider_key op)
        ("provider:" +:+ action_label (po_action op)) (id_fmt (po_resource_id op))
        (po_idempotency_key op) []);
  mret tt.

(** The platform observation an execution stands for; its result is dropped. *)
Definition apply_observation (ad : ProviderAdapter X) (op : ProviderOperation)
    (redacted : ProviderExecution) (at_ : DateTime) : M W ControlPlaneError unit :=
  let id := po_resource_id op in
  let observe phase reason :=
    ignore_result (on_db (resources_table
      (observe_phase id phase SrcProviderCallback (Some reason) at_))) in
  match redacted with
  | PxAccepted _ => observe Provisioning ("accepted by " +:+ pa_key ad)
  | PxReady detail => observe Ready detail
  | PxDegraded reason => observe Degraded reason
  | PxFailed reason _ =>
      policy ← lift_o RetryPolicy_default;
      ignore_result (on_db (resources_table (record_failure id reason secrets policy at_)))
  end.

Definition failure_text (redacted : ProviderExecution) : string :=
  match redacted with
  | PxFailed reason recovery => reason +:+ " | recovery: " +:+ recovery
  | PxDegraded reason => reason
  | _ => ""
  end.

Definition execute_operation (ad : ProviderAdapter X) (op : ProviderOperation)
    (approval : option ExplicitApproval) (at_ : DateTime) (rnd : Rand) :
    M W ControlPlaneError ProviderExecution :=
  match ProviderOperation_require_approval op approval with
  | Err gate =>
      let reason := CoreError_fmt gate in
      _ ← on_db (record_operation op Failed reason 0 at_ (r_uuid rnd));
      on_db (record_event op EaReconciled (ErFailed reason)
        ("provider " +:+ id_fmt (po_resource_id op) +:+ " denied: no provider call occurred")
        at_ (r_draws rnd));;
      mthrow (CpCore gate)
  | Ok _ =>
      result ← try_result (on_ext (pa_execute ad op));
      let outcome := match result with
        | Ok outcome => outcome
        | Err err => failed_redacted (ControlPlaneError_fmt err) secrets
        end in
      let redacted := redact_execution outcome secrets in
      _ ← on_db (record_operation op (execution_target_phase redacted) (failure_text redacted) 1
                   at_ (r_uuid rnd));
      apply_observation ad op redacted at_;;
      let '(action, result) := match redacted with
        | PxFailed reason _ => (EaReconciled, ErFailed reason)
        | _ => (EaResourceProvisioned, ErSucceeded)
        end in
      on_db (record_event op action result
        (ProviderObservation_to_event_detail (observation redacted)) at_ (r_draws rnd));;
      on_db (zoom db_usage set_usage (usage_record
        {| ur_application_id := po_application_id op;
           ur_environment_id := default (r_environment rnd) (po_environment_id op);
           ur_period_start := at_; ur_period_end := at_; ur_cpu_millicore_seconds := 0;
           ur_memory_mb_seconds := 0; ur_build_seconds := 0; ur_requests := 1;
           ur_egress_bytes := 0 |}));;
      mret redacted
  end.

(** ** Registry delivery *)

Definition save_registry (record : RegistryDeliveryRecord) : M Db ControlPlaneError unit :=
  detail ← lift_r (redact_guard "registry_deliveries.detail" (rd_detail record) secrets);
  d ← get;
  if decide (is_Some (db_registry d !! rd_id record)) then
    mthrow (CpDatabase "duplicate key value violates unique constraint registry_deliveries_pkey")
  else
    put (set_registry (<[rd_id record :=
      mkRegistryRecord (rd_id record) (rd_application_id record) (rd_reference record)
        (rd_recorded_digest record) (rd_reported_digest record) (rd_revision_sha record)
        (rd_status record) detail]> (db_registry d)) d).
Definition record_registry_push (application_id : string) (artifact : RegistryArtifact)
    (reported : result ControlPlaneError string) (u : Uuid) :
    M Db ControlPlaneError RegistryDeliveryRecord :=
  let id := "reg_" +:+ uuid_simple u in
  match reported with
  | Ok reported =>
      let record := mkRegistryRecord id application_id (ra_reference artifact) (ra_digest artifact)
        reported (ra_revision_sha artifact) "verified"
        ("digest verified for " +:+ ra_reference artifact) in
      save_registry record;;
      mret record
  | Err err =>
      let detail := redact (ControlPlaneError_fmt err) secrets in
      let status := if str_contains "digest mismatch" detail then "mismatch" else "refused" in
      let record := mkRegistryRecord id application_id (ra_reference artifact) (ra_digest artifact)
        "" (ra_revision_sha artifact) status detail in
      save_registry record;;
      mthrow (CpRegistry (rd_detail record))
  end.
Definition push_artifact (registry : OciRegistry X) (application_id : string)
    (artifact : RegistryArtifact) (u : Uuid) : M W ControlPlaneError RegistryDeliveryRecord :=
  reported ← try_result (on_ext (or_push registry artifact));
  on_db (record_registry_push application_id artifact reported u).
Definition push_content (registry : OciRegistry X) (application_id : string)
    (artifact : RegistryArtifact) (manifest config : string) (u : Uuid) :
    M W ControlPlaneError RegistryDeliveryRecord :=
  reported ← try_result (on_ext (or_push_content registry artifact manifest config));
  on_db (record_registry_push application_id artifact reported u).

(** ** Domain delivery *)

(** The identifier is drawn afresh for every record, so the update branch of the
    statement is an identifier collision. *)
Definition save_domain (record : DomainDeliveryRecord) : M Db ControlPlaneError unit :=
  detail ← lift_r (redact_guard "domain_deliveries.detail" (dr_detail record) secrets);
  d ← get;
  let stored domain_id hostname := mkDomainRecord (dr_id record) domain_id hostname
    (dr_deployment_id record) (dr_dns record) (dr_tls record) (dr_traffic_attached record) detail in
  let row := match db_domains d !! dr_id record with
    | Some old => stored (dr_domain_id old) (dr_hostname old)
    | None => stored (dr_domain_id record) (dr_hostname record)
    end in
  put (set_domains (<[dr_id record := row]> (db_domains d)) d).

Definition set_dns (s : DnsState) (d : DomainDelivery) : DomainDelivery :=
  mkDelivery (dd_domain_id d) (dd_deployment_id d) s (dd_tls d) (traffic_attached d) (dd_detail d).
Definition set_tls (s : CertificateState) (d : DomainDelivery) : DomainDelivery :=
  mkDelivery (dd_domain_id d) (dd_deployment_id d) (dd_dns d) s (traffic_attached d) (dd_detail d).

(** The record of a delivery, with the certificate's evidence. *)
Definition domain_record (domain : Domain) (u : Uuid) (evidence : option string)
    (d : DomainDelivery) : DomainDeliveryRecord :=
  let detail := default "" (dd_detail d) in
  let detail := match evidence with
    | Some evidence =>
        (if str_is_empty detail then "" else detail +:+ "; ") +:+ redact evidence secrets
    | None => detail
    end in
  mkDomainRecord ("dom_" +:+ uuid_simple u) (id_fmt (dd_domain_id d))
    (dom_hostname domain) (id_fmt <$> dd_deployment_id d) (dns_name (dd_dns d))
    (tls_name (dd_tls d)) (traffic_attached d) detail.

(** The caller's [&mut DomainDelivery] is part of the state. *)
Definition adapter_call {A} (m : M X ControlPlaneError A) :
    M (W * DomainDelivery) ControlPlaneError (result ControlPlaneError A) :=
  try_result (zoom fst (λ w s, (w, s.2)) (on_ext m)).
Definition certificate_evidence (ad : DomainDeliveryAdapter X) (hostname : string) :
    M (W * DomainDelivery) ControlPlaneError (option string) := λ s,
  if is_issued (dd_tls s.2) then
    let '(x, evidence) := dd_certificate_evidence ad hostname s.1.2 in
    Done (((s.1.1, x), s.2), Ok evidence)
  else Done (s, Ok None).
Definition on_delivery (f : DomainDelivery → DomainDelivery) :
    M (W * DomainDelivery) ControlPlaneError unit := modify (λ s, (s.1, f s.2)).
Definition converge_domain (ad : DomainDeliveryAdapter X) (domain : Domain)
    (deployment : Deployment) (approval : ExplicitApproval) (u : Uuid) :
    M (W * DomainDelivery) ControlPlaneError DomainDeliveryRecord :=
  dns ← adapter_call (dd_ensure_dns ad (dom_hostname domain));
  on_delivery (set_dns match dns with
                    | Ok state => state
                    | Err err => DnsFailed (redact (ControlPlaneError_fmt err) secrets)
                    end);;
  tls ← adapter_call (dd_issue_certificate ad (dom_hostname domain));
  on_delivery match tls with
           | Ok state => set_tls state
           | Err err =>
               report_certificate_failure (redact (ControlPlaneError_fmt err) secrets) []
           end;;
  attach ← try_result (λ s : W * DomainDelivery,
    match dd_attach_traffic ad domain deployment approval (s.1.2, s.2) with
    | Done ((x, d), r) => Done ((s.1.1, x, d), r)
    | Panic msg => Panic msg
    end);
  evidence ← certificate_evidence ad (dom_hostname domain);
  s ← get;
  let record := domain_record domain u evidence s.2 in
  zoom fst (λ w s, (w, s.2)) (on_db (save_domain record));;
  _ ← lift_r attach;
  mret record.
End Runtime.

#[global] Arguments record_operation : simpl never.
#[global] Arguments record_event : simpl never.
#[global] Arguments save_domain : simpl never.

(* ------------------------------------------------------------------ *)
(** * What the runtime guarantees *)

Section RuntimeFacts.
Context `{UuidLib} `{JsonLib} `{!Serde FailureRecord} `{!Serde (list ResourceTransition)}.
Context `{!Serde EventActor} `{!Serde EventResult} `{!Serde (list string)}.
Context `{Chrono} `{ChronoText} `{SubsecRound} `{BuildProfile} `{PgTime}.
Context {X : Type} (secrets : list string).
Implicit Types (d : Db) (x : X) (op : ProviderOperation).

(** The tables a call leaves alone. *)
Definition same_rest d d' : Prop :=
  db_jobs d' = db_jobs d ∧ db_resources d' = db_resources d ∧ db_logs d' = db_logs d ∧
  db_registry d' = db_registry d ∧ db_domains d' = db_domains d.
Lemma same_rest_refl d : same_rest d d.
Proof. done. Qed.
Lemma same_rest_trans d1 d2 d3 : same_rest d1 d2 → same_rest d2 d3 → same_rest d1 d3.
Proof. unfold same_rest. intuition congruence. Qed.

Lemma record_operation_cases op phase failure units at_ u d d' r :
  record_operation secrets op phase failure units at_ u d = Done (d', r) →
  d' = d ∨ ∃ row, db_operations d !! po_idempotency_key op = None ∧
    ow_phase row = phase_name phase ∧
    d' = set_operations (<[po_idempotency_key op := row]> (db_operations d)) d.
Proof.
  unfold record_operation, get_operation. intros E. unfold_monad_in E.
  destruct (redact_guard _ _ _); [|naive_solver]. destruct (to_value _); [|naive_solver].
  destruct (db_operations d !! po_idempotency_key op) as [row|] eqn:Hrow.
  - rewrite Hrow in E. left. by destruct (operation_from_row row); simplify_eq.
  - destruct (existsb _ _); [naive_solver|]. simpl in E. rewrite lookup_insert_eq in E.
    right. eexists. split; [done|]. split; [|by destruct (operation_from_row _); simplify_eq].
    done.
Qed.

Lemma record_event_cases op action result detail at_ draws d d' r :
  record_event secrets op action result detail at_ draws d = Done (d', r) →
  db_operations d' = db_operations d ∧ db_usage d' = db_usage d ∧ same_rest d d'.
Proof.
  unfold record_event. intros E. unfold_monad_in E.
  destruct (event_append _ _ _ _) as [[ev [e|e]]|]; simplify_eq/=; done.
Qed.

Lemma on_db_run {A} (m : M Db ControlPlaneError A) d x s' (r : result ControlPlaneError A) :
  on_db m (d, x) = Done (s', r) → ∃ d', m d = Done (d', r) ∧ s' = (d', x).
Proof. unfold on_db, zoom. simpl. destruct (m d) as [[d' r']|]; intros; simplify_eq/=; eauto. Qed.

(** The effect of a denied operation: its record and its event, nothing else. *)
Lemma denied_operation_cases (ad : ProviderAdapter X) op approval at_ rnd gate d x s' r :
  ProviderOperation_require_approval op approval = Err gate →
  execute_operation secrets ad op approval at_ rnd (d, x) = Done (s', r) →
  (∃ e, r = Err e) ∧ ∃ d', s' = (d', x) ∧ same_rest d d' ∧ db_usage d' = db_usage d ∧
    (db_operations d' = db_operations d ∨
     ∃ row, db_operations d !! po_idempotency_key op = None ∧
       db_operations d' = <[po_idempotency_key op := row]> (db_operations d)).
Proof.
  intros Hgate E. unfold execute_operation in E. rewrite Hgate in E. unfold_monad_in E.
  destruct (on_db (record_operation _ _ _ _ _ _ _) (d, x)) as [[s1 r1]|] eqn:E1; [|done].
  apply on_db_run in E1 as (d1 & E1 & ->).
  assert (same_rest d d1 ∧ db_usage d1 = db_usage d ∧ (db_operations d1 = db_operations d ∨
     ∃ row, db_operations d !! po_idempotency_key op = None ∧
       db_operations d1 = <[po_idempotency_key op := row]> (db_operations d))) as (Hr1 & Hu1 & Ho1).
  { destruct (record_operation_cases _ _ _ _ _ _ _ _ _ E1) as [->|(row & ? & _ & ->)];
      (split; [done|]); (split; [done|]); [by left|right; eauto]. }
  destruct r1 as [rec|e]; [|simplify_eq; eauto 10].
  destruct (on_db (record_event _ _ _ _ _ _ _) (d1, x)) as [[s2 r2]|] eqn:E2; [|done].
  apply on_db_run in E2 as (d2 & E2 & ->).
  destruct (record_event_cases _ _ _ _ _ _ _ _ _ E2) as (Ho2 & Hu2 & Hr2).
  rewrite <- Ho2 in Ho1. rewrite <- Hu2 in Hu1.
  destruct r2; simplify_eq; (split; [eauto|]); exists d2;
    (split; [done|split; [by eapply same_rest_trans|done]]).
Qed.

(** The actions the platform calls destructive. *)
Definition destructive_actions : list ProviderAction := [PaDelete; PaReplace; PaMigrate; PaAdopt].
(** No approval covers the operation: there is none, or it was denied, or it names no
    approver, or its summary mentions neither the resource nor the capability. *)
Definition uncovered (op : ProviderOperation) (approval : option ExplicitApproval) : Prop :=
  match approval with
  | None => True
  | Some a =>
      approved a = false ∨ trim_is_empty (approver a) = true ∨
      (str_contains (id_fmt (po_resource_id op)) (proposal_summary a) = false ∧
       str_contains (po_capability op) (proposal_summary a) = false)
  end.
Lemma uncovered_denied op approval :
  po_action op ∈ destructive_actions → uncovered op approval →
  ∃ gate, ProviderOperation_require_approval op approval = Err gate.
Proof.
  intros Ha Hu. assert (is_destructive (po_action op) = true) as Hd.
  { set_unfold. by destruct Ha as [->|[->|[->|[->|[]]]]]. }
  unfold ProviderOperation_require_approval. rewrite Hd. simpl. destruct approval as [a|]; [|by eexists].
  unfold approval_missing. destruct Hu as [->|[->|[-> ->]]]; rewrite ?orb_true_r; simpl; [by eexists..|].
  case_match; by eexists.
Qed.

(** C39: a destructive operation (delete, replace, migrate or adopt) without a
    granted approval of a named approver whose summary mentions its resource or its
    capability performs no provider call: the provider's state, the resource, the jobs
    and the usage are untouched, whatever the adapter would do, and the call fails. *)
Theorem denied_operation_is_inert (ad : ProviderAdapter X) op approval at_ rnd d x d' x' r :
  po_action op ∈ destructive_actions → uncovered op approval →
  execute_operation secrets ad op approval at_ rnd (d, x) = Done ((d', x'), r) →
  x' = x ∧ same_rest d d' ∧ db_usage d' = db_usage d ∧ ∃ e, r = Err e.
Proof.
  intros Ha Hu E. destruct (uncovered_denied _ _ Ha Hu) as [gate Hgate].
  destruct (denied_operation_cases _ _ _ _ _ _ _ _ _ _ Hgate E) as (? & d1 & [= -> ->] & ? & ? & _). done.
Qed.

(** The outcomes that say the resource reached a phase. *)
Definition seen_as (red : ProviderExecution) (phase : ResourcePhase) : Prop :=
  match red with
  | PxReady _ => phase = Ready
  | PxDegraded _ => phase = Degraded
  | _ => False
  end.

(** Applying an observation changes only the resource table, by one statement of
    the store. *)
Lemma apply_observation_cases (ad : ProviderAdapter X) op red at_ d x s' r :
  apply_observation secrets ad op red at_ (d, x) = Done (s', r) →
  r = Ok tt ∧ ∃ t', s' = (set_resources t' d, x) ∧
    ∀ phase, seen_as red phase → ∃ reason res,
      observe_phase (po_resource_id op) phase SrcProviderCallback reason at_ (db_resources d)
      = Done (t', res).
Proof.
  intros E. unfold apply_observation, ignore_result, on_db, resources_table, zoom in E.
  destruct red as [detail|detail|reason|reason recovery]; simpl in E.
  - destruct (observe_phase _ _ _ _ _ _) as [[t' res]|]; simplify_eq/=.
    split; [done|]. by eexists.
  - destruct (observe_phase _ _ _ _ _ _) as [[t' res]|] eqn:Eo; simplify_eq/=.
    split; [done|]. eexists. split; [done|]. intros ? ->. eauto.
  - destruct (observe_phase _ _ _ _ _ _) as [[t' res]|] eqn:Eo; simplify_eq/=.
    split; [done|]. eexists. split; [done|]. intros ? ->. eauto.
  - unfold_monad_in E. destruct RetryPolicy_default as [policy|]; [|done].
    destruct (record_failure _ _ _ _ _ _) as [[t' res]|]; simplify_eq/=.
    split; [done|]. by eexists.
Qed.

(** The evidence recorded after the observation touches neither resources, nor
    operations, nor jobs. *)
Lemma evidence_cases op action result detail at_ draws usage (red : ProviderExecution) d x s' r :
  (on_db (record_event secrets op action result detail at_ draws);;
   on_db (zoom db_usage set_usage (usage_record usage));; mret red) (d, x : X) = Done (s', r) →
  ∃ d', s' = (d', x) ∧ db_resources d' = db_resources d ∧
    db_operations d' = db_operations d ∧ db_jobs d' = db_jobs d ∧ ∀ red', r = Ok red' → red' = red.
Proof.
  unfold mbind, M_bind. intros E.
  destruct (on_db (record_event _ _ _ _ _ _ _) (d, x)) as [[s1 r1]|] eqn:E1; [|done].
  apply on_db_run in E1 as (d1 & E1 & ->).
  destruct (record_event_cases _ _ _ _ _ _ _ _ _ E1) as (Ho & _ & Hj & Hr & _).
  destruct r1 as [|e]; [|simplify_eq; by exists d1].
  unfold on_db at 1, zoom in E. simpl in E.
  destruct (usage_record usage (db_usage d1)) as [[u r2]|]; [|done].
  destruct r2; unfold mret, M_ret in E; simplify_eq/=; eexists; (split; [done|]); simpl;
    split_and!; try done; congruence.
Qed.

(** The stages of an approved execution, in order. *)
Lemma execute_operation_cases (ad : ProviderAdapter X) op approval at_ rnd d x d' x' r :
  ProviderOperation_require_approval op approval = Ok tt →
  execute_operation secrets ad op approval at_ rnd (d, x) = Done ((d', x'), r) →
  ∃ res red d1, pa_execute ad op x = Done (x', res) ∧
    red = redact_execution match res with
                           | Ok outcome => outcome
                           | Err err => failed_redacted (ControlPlaneError_fmt err) secrets
                           end secrets ∧
    (d1 = d ∨ ∃ row, db_operations d !! po_idempotency_key op = None ∧
       ow_phase row = phase_name (execution_target_phase red) ∧
       d1 = set_operations (<[po_idempotency_key op := row]> (db_operations d)) d) ∧
    ((d' = d1 ∧ ∃ e, r = Err e) ∨
     ∃ t', db_resources d' = t' ∧ db_operations d' = db_operations d1 ∧
       db_jobs d' = db_jobs d1 ∧
       (∀ phase, seen_as red phase → ∃ reason res',
          observe_phase (po_resource_id op) phase SrcProviderCallback reason at_
            (db_resources d1) = Done (t', res')) ∧
       ∀ red', r = Ok red' → red' = red).
Proof.
  intros Hgate E. unfold execute_operation in E. rewrite Hgate in E.
  unfold try_result, on_ext, zoom in E. unfold mbind, M_bind in E. simpl in E.
  destruct (pa_execute ad op x) as [[x1 res]|] eqn:Ex; [|done].
  set (red := redact_execution _ secrets) in E. exists res, red.
  destruct (on_db (record_operation _ _ _ _ _ _ _) (d, x1)) as [[s1 r1]|] eqn:E1; [|done].
  apply on_db_run in E1 as (d1 & E1 & ->). exists d1.
  pose proof (record_operation_cases _ _ _ _ _ _ _ _ _ E1) as Hop.
  destruct r1 as [rec|e]; [|simplify_eq; eauto 10].
  destruct (apply_observation _ _ _ _ _ (d1, x1)) as [[s2 r2]|] eqn:E2; [|done].
  apply apply_observation_cases in E2 as (-> & t' & -> & Hready).
  assert (∃ action result detail usage, (on_db (record_event secrets op action result detail at_
      (r_draws rnd));; on_db (zoom db_usage set_usage (usage_record usage));; mret red)
      (set_resources t' d1, x1) = Done ((d', x'), r)) as (action & result & detail & usage & Et).
  { unfold mbind, M_bind. by destruct red; eexists _, _, _, _. }
  apply evidence_cases in Et as (d2 & [= -> ->] & Hr & Ho & Hj & Hred).
  split_and!; [done..|]. right. exists t'. by rewrite Hr.
Qed.

(** The stored record of an operation is that of its first attempt:
    whatever later executions under the same idempotency key observe, no row of
    the operations table is ever changed. *)
Theorem operation_record_is_first (ad : ProviderAdapter X) op approval at_ rnd d x d' x' r :
  execute_operation secrets ad op approval at_ rnd (d, x) = Done ((d', x'), r) →
  ∀ key row, db_operations d !! key = Some row → db_operations d' !! key = Some row.
Proof.
  intros E key row Hrow.
  assert (∀ d1, (d1 = d ∨ ∃ row', db_operations d !! po_idempotency_key op = None ∧
      d1 = set_operations (<[po_idempotency_key op := row']> (db_operations d)) d) →
    db_operations d1 !! key = Some row) as Hkeep.
  { intros d1 [->|(row' & Hnone & ->)]; [done|]. simpl. rewrite lookup_insert_ne by congruence. done. }
  destruct (ProviderOperation_require_approval op approval) as [[]|gate] eqn:Hgate.
  - destruct (execute_operation_cases _ _ _ _ _ _ _ _ _ _ Hgate E)
      as (res & red & d1 & _ & _ & Hd1 & Hend).
    assert (db_operations d1 !! key = Some row) as H1'
      by (apply Hkeep; destruct Hd1 as [?|(row' & ? & _ & ?)]; eauto).
    by destruct Hend as [[-> _]|(t' & _ & -> & _)].
  - destruct (denied_operation_cases _ _ _ _ _ _ _ _ _ _ Hgate E)
      as (_ & d1 & [= -> ->] & _ & _ & [->|(row' & Hnone & ->)]); [done|].
    by rewrite lookup_insert_ne by congruence.
Qed.
End RuntimeFacts.

(* ------------------------------------------------------------------ *)
(** * Converging a hostname *)

(** What the runtime relies on in a delivery adapter: it attaches traffic through
    the plan of the core. *)
Class PlannedAttachment `{UuidLib} {X} (ad : DomainDeliveryAdapter X) : Prop := {
  attach_planned domain deployment approval x dd :
    dd_attach_traffic ad domain deployment approval (x, dd) =
    match plan_traffic_attachment domain deployment approval dd with
    | Done (dd', Ok _) => Done ((x, dd'), Ok tt)
    | Done (dd', Err e) => Done ((x, dd'), Err (CpDomain (CoreError_fmt e)))
    | Panic msg => Panic msg
    end;
}.
#[global] Instance test_domain_planned `{UuidLib} : PlannedAttachment test_domain.
Proof. constructor. done. Qed.

Section Converge.
Context `{UuidLib} `{JsonLib} `{PgTime}.
Context {X : Type} (secrets : list string) (ad : DomainDeliveryAdapter X) `{!PlannedAttachment ad}.

Lemma adapter_call_run {A} (m : M X ControlPlaneError A) (d : Db) x dd s r :
  adapter_call m ((d, x), dd) = Done (s, r) →
  ∃ x' res, m x = Done (x', res) ∧ s = ((d, x'), dd) ∧ r = Ok res.
Proof.
  unfold adapter_call, try_result, on_ext, zoom. simpl. destruct (m x) as [[x' res]|]; [|done].
  intros [= <- <-]. eauto.
Qed.

(** The end of a convergence: the record is stored, then the attachment's result
    returned. *)
Lemma converge_tail domain u attach (d : Db) x dd s r :
  (evidence ← certificate_evidence ad (dom_hostname domain);
   s ← get;
   let record := domain_record secrets domain u evidence s.2 in
   zoom fst (λ w s, (w, s.2)) (on_db (save_domain secrets record));;
   _ ← lift_r attach;
   mret record) ((d, x), dd) = Done (s, r) →
  ∃ d' x', s = ((d', x'), dd) ∧
    ∀ rec, r = Ok rec → attach = Ok tt ∧ ∃ evidence, rec = domain_record secrets domain u evidence dd.
Proof.
  intros (s1 & r1 & E1 & E)%bind_run.
  assert (∃ x1 evidence, s1 = ((d, x1), dd) ∧ r1 = Ok evidence) as (x1 & evidence & -> & ->).
  { unfold certificate_evidence in E1. simpl in E1. destruct (is_issued (dd_tls dd)).
    - destruct (dd_certificate_evidence _ _ _) as [x1 ev]. injection E1 as <- <-. eauto.
    - injection E1 as <- <-. eauto. }
  revert E. unfold get, lift_r, mret, M_ret, mbind, M_bind, on_db, zoom. simpl.
  destruct (save_domain _ _ d) as [[d1 [[]|e]]|]; simpl; intros E; [|simplify_eq; by do 2 eexists|done].
  destruct attach as [[]|e]; simplify_eq/=; do 2 eexists; (split; [done|]); intros rec [= <-]; eauto.
Qed.

(** The delivery after both checks of the adapter. *)
Definition checked (dns : result ControlPlaneError DnsState) (tls : result ControlPlaneError CertificateState)
    (dd : DomainDelivery) : DomainDelivery :=
  match tls with
  | Ok state => set_tls state
  | Err err => report_certificate_failure (redact (ControlPlaneError_fmt err) secrets) []
  end (set_dns match dns with
               | Ok state => state
               | Err err => DnsFailed (redact (ControlPlaneError_fmt err) secrets)
               end dd).
(** A convergence asks the adapter twice, then attaches traffic as far as the plan
    of the core allows. *)
Lemma converge_run domain deployment approval u (d : Db) x dd d' x' dd' r :
  converge_domain secrets ad domain deployment approval u ((d, x), dd)
    = Done (((d', x'), dd'), r) →
  ∃ x1 dns x2 tls, dd_ensure_dns ad (dom_hostname domain) x = Done (x1, dns) ∧
    dd_issue_certificate ad (dom_hostname domain) x1 = Done (x2, tls) ∧
    let dd1 := checked dns tls dd in
    (∀ rec, r = Ok rec → ∃ evidence, rec = domain_record secrets domain u evidence dd') ∧
    if decide (may_attach dd1 domain deployment approval)
    then plan_traffic_attachment domain deployment approval dd1 = Done (dd', Ok tt)
    else dd' = dd1 ∧ ∃ e, r = Err e.
Proof.
  intros E. unfold converge_domain in E. unfold mbind, M_bind in E.
  destruct (adapter_call _ ((d, x), dd)) as [[s1 r1]|] eqn:E1; [|done].
  apply adapter_call_run in E1 as (x1 & dns & Hdns & -> & ->).
  unfold on_delivery at 1, modify in E. simpl in E.
  destruct (adapter_call _ _) as [[s2 r2]|] eqn:E2; [|done].
  apply adapter_call_run in E2 as (x2 & tls & Htls & -> & ->).
  unfold on_delivery, modify, try_result in E. simpl in E. fold (checked dns tls dd) in E.
  exists x1, dns, x2, tls. split; [done|]. split; [done|]. cbv zeta.
  generalize dependent (checked dns tls dd). intros dd1 E. rewrite attach_planned in E.
  destruct (traffic_attachment_spec domain deployment approval dd1 "" []) as [Hplan _].
  case_decide as Hmay.
  - destruct Hplan as (dd2 & Hp & _). rewrite Hp in E.
    destruct (converge_tail domain u (Ok tt) d x2 dd2 _ _ E) as (d1 & x3 & [= -> -> ->] & Hrec).
    split; [|done]. intros rec Hr. by apply Hrec.
  - destruct Hplan as [e Hp]. rewrite Hp in E.
    destruct (converge_tail domain u (Err (CpDomain (CoreError_fmt e))) d x2 dd1 _ _ E)
      as (d1 & x3 & [= -> -> ->] & Hrec).
    split; [intros rec Hr; by destruct (Hrec rec Hr)|]. split; [done|].
    destruct r as [rec|er]; [by destruct (Hrec rec eq_refl)|eauto].
Qed.

(** Converging a hostname succeeds only with a granted named approval,
    a routable hostname, propagated DNS, an issued certificate and a promoted
    deployment, and then leaves a healthy delivery to that deployment, which is
    what the stored record says.  When the certificate cannot be issued the call
    fails and traffic is detached, also where it was attached before. *)
Theorem converge_domain_spec domain deployment approval u (d : Db) x dd d' x' dd' r :
  converge_domain secrets ad domain deployment approval u ((d, x), dd)
    = Done (((d', x'), dd'), r) →
  (∀ rec, r = Ok rec → may_attach dd' domain deployment approval ∧
     delivery_is_healthy dd' = true ∧ dd_deployment_id dd' = Some (dep_id deployment) ∧
     dr_dns rec = "propagated" ∧ dr_traffic_attached rec = true ∧
     dr_deployment_id rec = Some (id_fmt (dep_id deployment))) ∧
  (∀ x1 x2 dns err, dd_ensure_dns ad (dom_hostname domain) x = Done (x1, dns) →
     dd_issue_certificate ad (dom_hostname domain) x1 = Done (x2, Err err) →
     traffic_attached dd' = false ∧ ∃ e, r = Err e).
Proof.
  intros (x1 & dns & x2 & tls & Hdns & Htls & Hrec & E)%converge_run.
  destruct (traffic_attachment_spec domain deployment approval (checked dns tls dd) "" []) as [Hplan _].
  case_decide as Hmay.
  - destruct Hplan as (dd2 & Hp & Hhealthy & Hdep & _). rewrite E in Hp. injection Hp as <-.
    assert (dd_dns dd' = dd_dns (checked dns tls dd) ∧ dd_tls dd' = dd_tls (checked dns tls dd) ∧
      traffic_attached dd' = true) as (Hd & Ht & Hatt)
      by (unfold plan_traffic_attachment in E; unfold_monad_in E; run_op E; done).
    split.
    + intros rec Hr. destruct (Hrec rec Hr) as [evidence ->]. unfold domain_record. simpl.
      rewrite Hdep, Hatt. unfold may_attach in *. rewrite Hd, Ht.
      split_and!; try done; try tauto. destruct Hmay as (_ & _ & Hp & _).
      by destruct (dd_dns (checked dns tls dd)).
    + intros ???? Hd' Hx. rewrite Hdns in Hd'. injection Hd' as -> ->. rewrite Hx in Htls.
      injection Htls as <- <-. by destruct Hmay as (_ & _ & _ & Hi & _).
  - destruct E as [-> He]. split; [intros rec ->; by destruct He|].
    intros ???? Hd' Hx. rewrite Hdns in Hd'. injection Hd' as -> ->. rewrite Hx in Htls.
    injection Htls as <- <-. done.
Qed.
End Converge.

(* ------------------------------------------------------------------ *)
(** * Examples *)

(** A stored value is one of the stored contracts. *)
Module RefValues.
Inductive Value :=
| VActor (a : EventActor) | VResult (r : EventResult) | VFailure (f : FailureRecord)
| VTransitions (l : list ResourceTransition) | VPolicy (p : RetryPolicy) | VStrings (l : list string)
| VNull.
#[export] Instance value_json : JsonLib := { Json := Value; json_null := VNull }.
#[export] Instance actor_serde : Serde EventActor := {
  serialize a := Ok (VActor a); deserialize v := match v with VActor a => Ok a | _ => Err "actor" end }.
#[export] Instance result_serde : Serde EventResult := {
  serialize a := Ok (VResult a); deserialize v := match v with VResult a => Ok a | _ => Err "result" end }.
#[export] Instance failure_serde : Serde FailureRecord := {
  serialize a := Ok (VFailure a); deserialize v := match v with VFailure a => Ok a | _ => Err "failure" end }.
#[export] Instance transitions_serde : Serde (list ResourceTransition) := {
  serialize a := Ok (VTransitions a);
  deserialize v := match v with VTransitions a => Ok a | _ => Err "transitions" end }.
#[export] Instance policy_serde : Serde RetryPolicy := {
  serialize a := Ok (VPolicy a); deserialize v := match v with VPolicy a => Ok a | _ => Err "policy" end }.
#[export] Instance strings_serde : Serde (list string) := {
  serialize a := Ok (VStrings a); deserialize v := match v with VStrings a => Ok a | _ => Err "strings" end }.
#[export] Instance failure_laws : SerdeLaws FailureRecord.
Proof. constructor. by intros x v [= <-]. Qed.
#[export] Instance transitions_laws : SerdeLaws (list ResourceTransition).
Proof. constructor. by intros x v [= <-]. Qed.
#[export] Instance policy_laws : SerdeLaws RetryPolicy.
Proof. constructor. by intros x v [= <-]. Qed.
#[export] Instance failure_total : SerdeTotal FailureRecord.
Proof. constructor. by eexists. Qed.
#[export] Instance transitions_total : SerdeTotal (list ResourceTransition).
Proof. constructor. by eexists. Qed.
Definition empty_db : Db :=
  mkDb ∅ ∅ empty_serial empty_serial [] empty_serial ∅ ∅ ∅.
End RefValues.

Module DeliveryExamples.
Import RefInstances RefPg RefValues DeploymentExamples.

Definition bucket_id : ResourceId := mkId (uuid 7).
Definition operation_on (action : ProviderAction) : ProviderOperation :=
  mkOperation app1 None bucket_id "storage" "s3" PkGeneric action "key-1" "t1" [] 1.
Definition rnd0 : Rand :=
  {| r_uuid := uuid 20; r_draws := StoreExamples.draws0; r_environment := env1 |}.
Definition s3 : ProviderAdapter LocalTestAdapter := LocalTestAdapter_new "s3" PkGeneric.
Definition script : LocalTestAdapter :=
  with_steps [PxReady "up"; PxAccepted "queued"] (mkTestAdapter [] []).
Definition no_execution : (Db * LocalTestAdapter) * result ControlPlaneError ProviderExecution :=
  ((empty_db, script), Err (CpIo "")).

Definition denied := execute_operation ["k1"] s3 (operation_on PaDelete) None 5 rnd0 (empty_db, script).
Lemma denied_operation_is_inert_witness :
  ∃ d' r, denied = Done ((d', script), r) ∧ size (db_operations d') = 1%nat ∧ ∃ e, r = Err e.
Proof.
  set (s' := (done_or no_execution denied).1). set (r := (done_or no_execution denied).2).
  assert (denied = Done ((s'.1, s'.2), r)) as E.
  { rewrite <- surjective_pairing. apply is_done_pair; [vm_compute|]; reflexivity. }
  destruct (denied_operation_is_inert ["k1"] s3 (operation_on PaDelete) None 5 rnd0 empty_db script
              s'.1 s'.2 r (list_elem_of_here _ _) I E) as (Hx & _ & _ & He).
  exists s'.1, r. rewrite E, Hx. split; [reflexivity|]. split; [vm_compute; reflexivity|exact He].
Defined.

(** The first attempt is accepted; the second finds the bucket ready. *)
Definition attempt (at_ : DateTime) (s : Db * LocalTestAdapter) :=
  execute_operation ["k1"] s3 (operation_on PaProvision) None at_ rnd0 s.
Definition after_first : Db * LocalTestAdapter := (done_or no_execution (attempt 5 (empty_db, script))).1.
Definition second_attempt := attempt 9 (after_first.1, after_first.2).
Definition first_row : OperationRow :=
  default (mkOperationRow "" "" None "" "" "" "" "" "" "" VNull "" "" 0 0)
    (db_operations after_first.1 !! "key-1").
Lemma operation_record_is_first_witness :
  ∃ d' x', second_attempt = Done ((d', x'), Ok (PxReady "up")) ∧
    db_operations d' !! "key-1" = Some first_row ∧ ow_phase first_row = "provisioning".
Proof.
  set (s' := (done_or no_execution second_attempt).1).
  assert (second_attempt = Done ((s'.1, s'.2), Ok (PxReady "up"))) as E.
  { rewrite <- surjective_pairing. apply is_done_pair; vm_compute; reflexivity. }
  exists s'.1, s'.2. split; [exact E|]. split; [|vm_compute; reflexivity].
  apply (operation_record_is_first ["k1"] s3 (operation_on PaProvision) None 9 rnd0
           after_first.1 after_first.2 s'.1 s'.2 _ E).
  apply is_some_eq. vm_compute. reflexivity.
Defined.

(** The second release converges on its hostname; then its certificate fails. *)
Definition shop : Domain := Domain_new (mkId (uuid 9)) env1 "shop.example" true.
Definition released : Deployment :=
  match Rollout_get after_history.1 dep2 with
  | Some d => d
  | None => mkDeployment dep2 app1 env1 (Revision_new "" "" None) None None plan_cfg [] None
              HsHealthy DpFailed [] None []
  end.
Definition converging tls := converge_domain [] test_domain shop released ann (uuid 30)
  ((empty_db, LocalDomainDelivery_with_tls tls), DomainDelivery_new (dom_id shop)).
Definition no_record : ((Db * LocalDomainDelivery) * DomainDelivery)
    * result ControlPlaneError DomainDeliveryRecord :=
  ((empty_db, LocalDomainDelivery_healthy, DomainDelivery_new (dom_id shop)), Err (CpIo "")).
Definition converged : DomainDeliveryRecord :=
  match (done_or no_record (converging CertIssued)).2 with
  | Ok rec => rec
  | Err _ => mkDomainRecord "" "" "" None "" "" false ""
  end.
Lemma converge_domain_spec_witness :
  (∃ s, converging CertIssued = Done (s, Ok converged) ∧
     dr_deployment_id converged = Some (id_fmt (dep_id released))) ∧
  ∃ s r, converging (CertFailed "acme") = Done (s, r) ∧ traffic_attached s.2 = false.
Proof.
  split.
  - set (s := (done_or no_record (converging CertIssued)).1).
    assert (converging CertIssued = Done (((s.1.1, s.1.2), s.2), Ok converged)) as E.
    { rewrite <- !surjective_pairing. apply is_done_pair; vm_compute; reflexivity. }
    exists s. rewrite <- !surjective_pairing in E. split; [exact E|].
    rewrite (surjective_pairing s), (surjective_pairing s.1) in E.
    destruct (converge_domain_spec [] test_domain shop released ann (uuid 30) _ _ _ _ _ _ _ E) as [H _].
    apply (H converged eq_refl).
  - set (s := (done_or no_record (converging (CertFailed "acme"))).1).
    set (r := (done_or no_record (converging (CertFailed "acme"))).2).
    assert (converging (CertFailed "acme") = Done (((s.1.1, s.1.2), s.2), r)) as E.
    { rewrite <- !surjective_pairing. apply is_done_pair; [vm_compute|]; reflexivity. }
    exists ((s.1.1, s.1.2), s.2), r. split; [exact E|].
    destruct (converge_domain_spec [] test_domain shop released ann (uuid 30) _ _ _ _ _ _ _ E) as [_ H].
    refine (proj1 (H (LocalDomainDelivery_with_tls (CertFailed "acme"))
                     (LocalDomainDelivery_with_tls (CertFailed "acme")) (Ok DnsPropagated)
                     (CpDomain _) _ _)); reflexivity.
Defined.
End DeliveryExamples.
