(* ===== verification/Containers.v ===== *)
(** Bounded container execution (runtime.rs of labrys-control-plane): execution
    identities, the limits applied before anything is scheduled, the argument
    vectors given to the docker client, the executors and the health probe.  The
    client process and the network are an interface. *)

From stdpp Require Import base option list strings pretty.
From Stdlib Require Import ZArith Lia Ascii.
From S2P Require Import Prelude External Errors CpErrors Ids Resource Snapshot Runtime Events Config Delivery.
Local Open Scope Z_scope.

(* ------------------------------------------------------------------ *)
(** * Identities and availability *)

Record ExecutionIdentity := mkIdentity {
  xi_application_id : string;
  xi_environment_id : option string;
  xi_workspace_id : option string;
  xi_session_id : option string;
  xi_trace_id : string;
}.
Definition ExecutionIdentity_new (application_id trace_id : string) :
    result ControlPlaneError ExecutionIdentity :=
  if trim_is_empty application_id then Err (CpExecution "execution requires an application id")
  else if trim_is_empty trace_id then Err (CpExecution "execution requires a trace id")
  else Ok (mkIdentity application_id None None None trace_id).
Definition identity_with_environment (e : string) (i : ExecutionIdentity) : ExecutionIdentity :=
  mkIdentity (xi_application_id i) (Some e) (xi_workspace_id i) (xi_session_id i) (xi_trace_id i).
Definition identity_with_workspace (w : string) (i : ExecutionIdentity) : ExecutionIdentity :=
  mkIdentity (xi_application_id i) (xi_environment_id i) (Some w) (xi_session_id i) (xi_trace_id i).
Definition identity_with_session (s : string) (i : ExecutionIdentity) : ExecutionIdentity :=
  mkIdentity (xi_application_id i) (xi_environment_id i) (xi_workspace_id i) (Some s) (xi_trace_id i).
Definition identity_correlation `{UuidLib} (i : ExecutionIdentity) : Correlation :=
  mkCorrelation (xi_trace_id i) (s ← xi_session_id i; id_ok (AgentSessionId_from_str s))
    (id_ok (ApplicationId_from_str (xi_application_id i)))
    (e ← xi_environment_id i; id_ok (EnvironmentId_from_str e)).

Inductive RuntimeAvailability :=
| RaAvailable (docker_version : string)
| RaUnavailable (reason : string).
Definition is_available (a : RuntimeAvailability) : bool :=
  match a with RaAvailable _ => true | RaUnavailable _ => false end.
Definition availability_require (a : RuntimeAvailability) : result ControlPlaneError string :=
  match a with RaAvailable v => Ok v | RaUnavailable reason => Err (CpUnavailable reason) end.

(* ------------------------------------------------------------------ *)
(** * Limits *)

(** [format!("{:?}", mode).to_lowercase()]. *)
Definition network_name (n : NetworkMode) : string :=
  match n with NetDisabled => "disabled" | NetIsolated => "isolated" | NetBridged => "bridged" end.
Definition bool_text (b : bool) : string := if b then "true" else "false".
Record EffectiveLimits := mkLimits {
  el_cpu_millicpus : Z;
  el_memory_mb : Z;
  el_timeout_secs : Z;
  el_readonly_root : bool;
  el_network : string;
  el_drop_capabilities : list string;
  el_max_processes : Z;
  el_port_exposed : bool;
}.
Definition EffectiveLimits_of (l : SandboxLimits) : EffectiveLimits :=
  mkLimits (cpu_millicpus l) (memory_mb l) (timeout_secs l) (readonly_root l)
    (network_name (network l)) (drop_capabilities l) (max_processes l) (allows_port_exposure l).
Definition EffectiveLimits_from_config (config : RuntimeConfig) : EffectiveLimits :=
  EffectiveLimits_of (cfg_limits config).
Definition limits_summary (self : EffectiveLimits) : string :=
  "cpu=" +:+ pretty (el_cpu_millicpus self) +:+ "m memory=" +:+ pretty (el_memory_mb self)
  +:+ "MiB timeout=" +:+ pretty (el_timeout_secs self) +:+ "s readonly_root="
  +:+ bool_text (el_readonly_root self) +:+ " network=" +:+ el_network self +:+ " pids="
  +:+ pretty (el_max_processes self) +:+ " exposed=" +:+ bool_text (el_port_exposed self).

Definition enforce_limits_before_schedule (config : RuntimeConfig) : result ControlPlaneError unit :=
  match SandboxLimits_validate (cfg_limits config) with
  | Err e => Err (CpCore e)
  | Ok _ =>
      if decide (cfg_port config = 0) then
        Err (CpExecution "execution requires a container port in 1..=65535")
      else Ok tt
  end.
Definition verify_production_artifact (config : RuntimeConfig) : result ControlPlaneError string :=
  match cfg_profile config with
  | Production =>
      ok_or (CpExecution "production execution requires an OCI image reference") (cfg_oci_image config)
  | Development => Err (CpExecution "development process must never be promoted as a production image")
  end.
Definition prospective_phase (health : HealthStatus) : ResourcePhase :=
  match health with
  | HsHealthy => Ready
  | HsStarting => Provisioning
  | HsUnhealthy _ | HsUnknown _ => Degraded
  end.

(* ------------------------------------------------------------------ *)
(** * Argument vectors *)

Definition ascii_alphanumeric (a : ascii) : bool :=
  let n := N_of_ascii a in
  ((48 <=? n) && (n <=? 57) || (65 <=? n) && (n <=? 90) || (97 <=? n) && (n <=? 122))%N.
Definition path_arg (path : string) : result ControlPlaneError string :=
  if trim_is_empty path then Err (CpExecution "execution requires a non-empty path") else Ok path.
(** The characters a shell would interpret. *)
Definition shell_char (a : ascii) : bool :=
  existsb (Ascii.eqb a) [";"; "|"; "&"; "$"; "`"; ascii_of_nat 34; "'"]%char.
Definition validate_tag (tag : string) : result ControlPlaneError unit :=
  if trim_is_empty tag then Err (CpExecution "container image tag must not be empty")
  else if any_whitespace tag || existsb shell_char (chars tag) then
    Err (CpExecution ("container image tag is not a plain reference: " +:+ tag))
  else Ok tt.
Definition name_char (a : ascii) : bool :=
  ascii_alphanumeric a || existsb (Ascii.eqb a) ["_"; "."; "-"]%char.
Definition validate_container_name (name : string) : result ControlPlaneError unit :=
  if trim_is_empty name then Err (CpExecution "container name must not be empty")
  else
    match name with
    | String first _ =>
        if negb (ascii_alphanumeric first) then
          Err (CpExecution ("container name must start with an alphanumeric: " +:+ name))
        else if negb (forallb name_char (chars name)) then
          Err (CpExecution ("container name contains an unsupported character: " +:+ name))
        else Ok tt
    | "" => Err (CpExecution ("container name must start with an alphanumeric: " +:+ name))
    end.
Definition id_char (a : ascii) : bool := name_char a || Ascii.eqb a ":"%char.
Definition validate_container_id (id : string) : result ControlPlaneError unit :=
  if trim_is_empty id then Err (CpExecution "container id must not be empty")
  else if negb (forallb id_char (chars id)) then
    Err (CpExecution "container id contains an unsupported character")
  else Ok tt.

(** ** The CPU limit *)

(** The integer nearest to [n / d], ties to even. *)
Definition round_half_even (n d : Z) : Z :=
  let q := n / d in
  let r := n mod d in
  if decide (2 * r < d) then q
  else if decide (d < 2 * r) then q + 1
  else if Z.even q then q else q + 1.
(** The double nearest to [n / d] as a 53-bit significand over a power of two. *)
Definition f64_div (n d : Z) : Z * Z :=
  let k := 53 - Z.log2 n + Z.log2 d in
  let k := if decide (2 ^ 53 * d ≤ n * 2 ^ k) then k - 1 else k in
  (round_half_even (n * 2 ^ k) d, k).
Definition f64_max (a b : Z * Z) : Z * Z :=
  if decide (a.1 * 2 ^ b.2 < b.1 * 2 ^ a.2) then b else a.
(** [(f64::from(millicpus) / 1000.0).max(0.01)] in hundredths, as [{:.2}] rounds
    its exact value. *)
Definition cpu_hundredths (millicpus : Z) : Z :=
  let '(m, k) := f64_max (f64_div millicpus 1000) (f64_div 1 100) in
  round_half_even (m * 100) (2 ^ k).
Definition cpus_text (millicpus : Z) : string :=
  let h := cpu_hundredths millicpus in
  pretty (h / 100) +:+ "." +:+ pretty (h mod 100 / 10) +:+ pretty (h mod 10).

Definition docker_build_args (dockerfile context tag : string) :
    result ControlPlaneError (list string) :=
  _ ← validate_tag tag;
  f ← path_arg dockerfile;
  c ← path_arg context;
  Ok ["build"; "-f"; f; "-t"; tag; c].
Definition cap_args (caps : list string) : list string :=
  flat_map (λ cap, if str_is_empty (trim cap) then [] else ["--cap-drop"; trim cap]) caps.
Definition network_args (config : RuntimeConfig) : list string :=
  match network (cfg_limits config) with
  | NetDisabled => ["--network"; "none"]
  | NetIsolated | NetBridged => ["--network"; "bridge"; "-p"; "127.0.0.1::" +:+ pretty (cfg_port config)]
  end.
Definition docker_run_args (config : RuntimeConfig) (container_name image : string) :
    result ControlPlaneError (list string) :=
  _ ← enforce_limits_before_schedule config;
  _ ← validate_container_name container_name;
  _ ← validate_tag image;
  let l := cfg_limits config in
  Ok (["run"; "-d"; "--name"; container_name; "--cpus"; cpus_text (cpu_millicpus l);
       "--memory"; pretty (memory_mb l) +:+ "m"; "--pids-limit"; pretty (max_processes l)]
      ++ (if readonly_root l then ["--read-only"] else [])
      ++ cap_args (drop_capabilities l) ++ network_args config ++ [image]).

(* ------------------------------------------------------------------ *)
(** * Executors *)

Record RunningContainer := { rc_id : string; rc_name : string; rc_host_port : option Z }.
Definition RunningContainer_new (id name : string) : result ControlPlaneError RunningContainer :=
  if trim_is_empty id then Err (CpExecution "running container requires a container id")
  else Ok {| rc_id := id; rc_name := name; rc_host_port := None |}.
Definition set_host_port (p : option Z) (c : RunningContainer) : RunningContainer :=
  {| rc_id := rc_id c; rc_name := rc_name c; rc_host_port := p |}.

(** The trait of the injected executor, over its own state [X]. *)
Record ContainerExecutor (X : Type) := {
  ce_check_available : X → X * RuntimeAvailability;
  ce_build : string → string → string → SandboxLimits → ExecutionIdentity → X → outcome (X * BuildResult);
  ce_run : RuntimeConfig → string → string → ExecutionIdentity → M X ControlPlaneError RunningContainer;
  ce_stop : string → M X ControlPlaneError unit;
  ce_remove : string → M X ControlPlaneError unit;
  ce_logs : string → Z → M X ControlPlaneError string;
  ce_health : RuntimeConfig → string → Z → X → X * HealthStatus;
}.
#[global] Arguments ce_check_available {X}.
#[global] Arguments ce_build {X}.
#[global] Arguments ce_run {X}.
#[global] Arguments ce_stop {X}.
#[global] Arguments ce_remove {X}.
#[global] Arguments ce_logs {X}.
#[global] Arguments ce_health {X}.

(** The default of [cleanup]. *)
Definition ce_cleanup {X} (e : ContainerExecutor X) (container_id : string) : M X ControlPlaneError unit :=
  ignore_result (ce_stop e container_id);; ce_remove e container_id.

(** How a client process ends, with its output as lossy text, and what one HTTP
    request to a port gives back. *)
Inductive ProcessOutcome :=
| PrSpawnFailed (m : string)
| PrWaitFailed (m : string)
| PrTimedOut
| PrExited (success : bool) (stdout stderr : string).
Inductive ProbeOutcome :=
| PbNoConnection
| PbWriteFailed
| PbReadTimedOut
| PbLine (line : string).
Record Host (X : Type) := {
  h_process : string → list string → Z → X → X * ProcessOutcome;
  h_http : string → Z → string → X → X * ProbeOutcome;
}.
#[global] Arguments h_process {X}.
#[global] Arguments h_http {X}.

Definition crlf : string := String (ascii_of_nat 13) (String (ascii_of_nat 10) "").
Definition http_request (host path : string) : string :=
  "GET " +:+ path +:+ " HTTP/1.0" +:+ crlf +:+ "Host: " +:+ host +:+ crlf +:+ "Connection: close" +:+ crlf +:+ crlf.
(** [parse::<u16>()]. *)
Definition parse_u16 (s : string) : option Z := parse_int 0 65535 s.
Definition http_status (o : ProbeOutcome) : option Z :=
  match o with
  | PbLine line => w ← split_whitespace line !! 1%nat; parse_u16 w
  | _ => None
  end.

Section Docker.
Context `{BuildProfile} {X : Type} (host_ : Host X).

Definition probe_health (config : RuntimeConfig) (host : string) (port : Z) : X → X * HealthStatus := λ x,
  if decide (port = 0) then (x, HsUnknown "health probe requires a port in 1..=65535")
  else if negb (allows_port_exposure (cfg_limits config)) then
    (x, HsUnknown "health probe blocked: sandbox network is disabled")
  else
    let path := default "/" (cfg_healthcheck_path config) in
    let '(x, o) := h_http host_ host port (http_request host path) x in
    match http_status o with
    | Some status => (x, evaluate_health config (Some status) (Some path))
    | None => (x, evaluate_health config None None)
    end.

Context (docker_bin : string) (secrets : list string).
Definition redact_text (text : string) : string := redact text secrets.
(** Seconds. *)
Definition run_docker (args : list string) (timeout : Z) :
    M X ControlPlaneError (bool * string * string) := λ x,
  let '(x, o) := h_process host_ docker_bin args timeout x in
  Done (x, match o with
    | PrSpawnFailed m | PrWaitFailed m => Err (CpIo m)
    | PrTimedOut => Err (CpExecution ("docker " +:+ default "<unknown>" (head args) +:+ " cancelled after "
                           +:+ pretty timeout +:+ "s timeout"))
    | PrExited ok out err => Ok (ok, out, err)
    end).

Definition inspect_host_port (container_id : string) : X → outcome (X * option Z) := λ x,
  match run_docker ["port"; container_id] 15 x with
  | Done (x, Ok (true, out, _)) =>
      Done (x, parse_u16 (trim match rsplit_once ":" out with Some (_, t) => t | None => out end))
  | Done (x, _) => Done (x, None)
  | Panic m => Panic m
  end.

Definition docker_check_available : X → X * RuntimeAvailability := λ x,
  let '(x, o) := h_process host_ docker_bin ["--version"] 10 x in
  (x, match o with
      | PrExited true out _ =>
          RaAvailable (if str_is_empty (trim out) then "docker (version unknown)" else trim out)
      | PrExited false _ err =>
          RaUnavailable ("docker --version exited unsuccessfully: " +:+ redact_text err)
      | PrSpawnFailed m | PrWaitFailed m => RaUnavailable ("docker binary could not be executed: " +:+ m)
      | PrTimedOut => RaUnavailable "docker --version timed out after 10s"
      end).

Definition refused_build (e : string) : BuildResult :=
  BuildResult_failed ("refused unschedulable build: " +:+ e).
Definition failed_build (tag : string) (limits : SandboxLimits) (identity : ExecutionIdentity)
    (stderr : string) : BuildResult :=
  {| br_status := BsFailed; br_cancelled := false;
     br_limit_enforced := Some (limits_summary (EffectiveLimits_of limits));
     br_recovery := Some "inspect the build log, fix the Dockerfile, then retry";
     br_detail := "build " +:+ tag +:+ " failed for application " +:+ xi_application_id identity
                  +:+ ": " +:+ redact_text stderr |}.
Definition docker_build (dockerfile context tag : string) (limits : SandboxLimits)
    (identity : ExecutionIdentity) : X → outcome (X * BuildResult) := λ x,
  match SandboxLimits_validate limits with
  | Err e => Done (x, refused_build (CoreError_fmt e))
  | Ok _ =>
      match docker_build_args dockerfile context tag with
      | Err e => Done (x, refused_build (ControlPlaneError_fmt e))
      | Ok args =>
          match run_docker args (Z.max (timeout_secs limits) 1) x with
          | Done (x, Ok (true, _, _)) =>
              Done (x, BuildResult_succeeded ("build " +:+ tag +:+ " finished for application "
                         +:+ xi_application_id identity +:+ " (trace " +:+ xi_trace_id identity +:+ ")"))
          | Done (x, Ok (false, _, err)) => Done (x, failed_build tag limits identity err)
          | Done (x, Err (CpExecution reason)) =>
              if str_contains "cancelled after" reason then
                elapsed ← add_unsigned u64_max (timeout_secs limits) 1;
                Done (x, BuildResult_timed_out (timeout_secs limits) elapsed)
              else
                Done (x, BuildResult_failed ("build could not start: "
                           +:+ ControlPlaneError_fmt (CpExecution reason)))
          | Done (x, Err e) => Done (x, BuildResult_failed ("build could not start: " +:+ ControlPlaneError_fmt e))
          | Panic m => Panic m
          end
      end
  end.

Definition published (container : RunningContainer) : M X ControlPlaneError RunningContainer := λ x,
  match inspect_host_port (rc_id container) x with
  | Done (x, port) => Done (x, Ok (set_host_port port container))
  | Panic m => Panic m
  end.
Definition docker_run (config : RuntimeConfig) (image container_name : string)
    (_ : ExecutionIdentity) : M X ControlPlaneError RunningContainer :=
  args ← lift_r (docker_run_args config container_name image);
  '(ok, out, err) ← run_docker args 120;
  if negb ok then mthrow (CpExecution (redact_text ("docker run failed: " +:+ err)))
  else
    container ← lift_r (RunningContainer_new (trim out) container_name);
    published container.

(** [stop] and [remove]: a container that is gone already counts as done. *)
Definition docker_idempotent (what : string) (args : list string) (container_id : string) :
    M X ControlPlaneError unit :=
  lift_r (validate_container_id container_id);;
  output ← run_docker (args ++ [container_id]) 60;
  let '(ok, _, err) := output in
  if ok : bool then mret tt
  else if str_contains "No such container" err then mret tt
  else mthrow (CpExecution (redact_text ("docker " +:+ what +:+ " failed: " +:+ err))).
Definition docker_stop (container_id : string) := docker_idempotent "stop" ["stop"] container_id.
Definition docker_remove (container_id : string) := docker_idempotent "rm" ["rm"; "-f"] container_id.
Definition docker_logs (container_id : string) (tail : Z) : M X ControlPlaneError string :=
  lift_r (validate_container_id container_id);;
  '(ok, out, err) ← run_docker ["logs"; "--tail"; pretty (Z.max tail 1); container_id] 30;
  if negb ok then mthrow (CpExecution (redact_text ("docker logs failed: " +:+ err)))
  else mret (redact_text (out +:+ err)).
Definition DockerExecutor : ContainerExecutor X :=
  {| ce_check_available := docker_check_available; ce_build := docker_build; ce_run := docker_run;
     ce_stop := docker_stop; ce_remove := docker_remove; ce_logs := docker_logs;
     ce_health := probe_health |}.
End Docker.

(** ** Without a runtime *)

Definition missing_docker : string := "docker runtime is not available in this environment".
Definition UnavailableExecutor {X} (reason : string) : ContainerExecutor X :=
  {| ce_check_available := λ x, (x, RaUnavailable reason);
     ce_build := λ _ _ _ limits _ x, Done (x,
       {| br_status := BsFailed; br_cancelled := false;
          br_limit_enforced := Some ("timeout_secs=" +:+ pretty (timeout_secs limits));
          br_recovery := Some "provision a container runtime, then retry; no image was produced";
          br_detail := "build blocked: runtime unavailable (" +:+ reason +:+ ")" |});
     ce_run := λ _ _ _ _, mthrow (CpUnavailable reason);
     ce_stop := λ _, mthrow (CpUnavailable reason);
     ce_remove := λ _, mthrow (CpUnavailable reason);
     ce_logs := λ _ _, mthrow (CpUnavailable reason);
     ce_health := λ _ _ _ x, (x, HsUnknown ("health blocked: runtime unavailable (" +:+ reason +:+ ")")) |}.

(* ------------------------------------------------------------------ *)
(** * The CPU limit *)

Lemma round_half_even_close n d : 0 < d → Z.abs (2 * d * round_half_even n d - 2 * n) ≤ d.
Proof.
  intros Hd. unfold round_half_even. pose proof (Z.div_mod n d ltac:(lia)).
  pose proof (Z.mod_pos_bound n d Hd). repeat case_decide; [nia..|]. destruct (Z.even _); nia.
Qed.
Lemma f64_div_thousand n :
  0 < n ≤ u32_max → let '(m, k) := f64_div n 1000 in
  30 ≤ k ∧ Z.abs (2 * 1000 * m - 2 * (n * 2 ^ k)) ≤ 1000.
Proof.
  intros Hn. unfold f64_div. change (Z.log2 1000) with 9.
  assert (Z.log2 n < 32) by (apply Z.log2_lt_pow2; unfold u32_max in *; lia).
  case_decide; (split; [lia|]); apply round_half_even_close; lia.
Qed.
Lemma one_hundredth : f64_div 1 100 = (5764607523034235, 59).
Proof. vm_compute. reflexivity. Qed.

(** The CPU limit given to the docker client, computed in double precision
    and rounded to hundredths, is within five thousandths of the configured one
    and never below a hundredth. *)
Theorem cpu_limit_close millicpus :
  10 ≤ millicpus ≤ u32_max →
  Z.abs (10 * cpu_hundredths millicpus - millicpus) ≤ 5 ∧ 1 ≤ cpu_hundredths millicpus.
Proof.
  intros Hn. unfold cpu_hundredths. pose proof (f64_div_thousand millicpus ltac:(lia)) as Hd.
  rewrite one_hundredth. destruct (f64_div millicpus 1000) as [m k]. destruct Hd as [Hk Hm].
  assert (2 ^ 30 ≤ 2 ^ k) as HP by (apply Z.pow_le_mono_r; lia).
  unfold f64_max. simpl fst. simpl snd. case_decide as Hlt.
  - assert (millicpus = 10) as ->; [|vm_compute; split; discriminate].
    generalize dependent (2 ^ k). intros P Hm HP Hlt. nia.
  - generalize dependent (2 ^ k). intros P Hm HP Hlt.
    pose proof (round_half_even_close (m * 100) P ltac:(lia)) as Hh.
    generalize dependent (round_half_even (m * 100) P). intros h Hh. nia.
Qed.
Example half_to_even : (cpus_text 125, cpus_text 375, cpus_text 1005, cpus_text 3) = ("0.12", "0.38", "1.00", "0.01").
Proof. vm_compute. reflexivity. Qed.

(* ------------------------------------------------------------------ *)
(** * The sandbox *)

Lemma validate_name_Ok name :
  validate_container_name name = Ok tt →
  Forall (λ a, name_char a = true) (chars name) ∧
  ∃ a s, name = String a s ∧ ascii_alphanumeric a = true.
Proof.
  unfold validate_container_name. case_match; [done|]. destruct name as [|a s]; [done|].
  destruct (ascii_alphanumeric a) eqn:Ha; simpl negb; cbv iota; [|done].
  change (name_char a && _) with (forallb name_char (chars (String a s))).
  destruct (forallb name_char (chars (String a s))) eqn:Hall; [|discriminate]. intros _. split; [|eauto].
  apply Forall_forall. intros c Hc. apply forallb_forall with (x := c) in Hall; [done|]. by apply list_elem_of_In.
Qed.
Lemma validate_tag_Ok tag :
  validate_tag tag = Ok tt → any_whitespace tag = false ∧ Forall (λ a, shell_char a = false) (chars tag).
Proof.
  unfold validate_tag. case_match; [done|]. destruct (any_whitespace tag); simpl; [discriminate|].
  destruct (existsb _ _) eqn:E; [discriminate|]. intros _. split; [done|].
  rewrite existsb_false in E. by apply Forall_forall.
Qed.
Lemma cap_args_published caps : "-p" ∈ cap_args caps → ∃ c, c ∈ caps ∧ trim c = "-p".
Proof.
  unfold cap_args. induction caps as [|c caps IH]; simpl; [by intros ?%elem_of_nil|].
  rewrite elem_of_app. intros [Hc|Hc].
  - case_match; [by apply elem_of_nil in Hc|]. exists c. split; [left|].
    apply elem_of_cons in Hc as [?|[?|?%elem_of_nil]%elem_of_cons]; done.
  - destruct (IH Hc) as (x & ? & ?). exists x. split; [by right|done].
Qed.

(** Whatever is scheduled runs under its limits: the arguments of a
    container give it a plain name, positive CPU, memory and process limits, a
    read-only root where asked for and every named capability dropped; a
    container without network publishes no port, any other publishes exactly its
    own on the loopback interface; and the image, free of white space and shell
    characters, comes last. *)
Theorem run_is_sandboxed config name image args :
  docker_run_args config name image = Ok args →
  let l := cfg_limits config in
  cpu_millicpus l ≠ 0 ∧ memory_mb l ≠ 0 ∧ max_processes l ≠ 0 ∧ cfg_port config ≠ 0 ∧
  Forall (λ a, name_char a = true) (chars name) ∧
  any_whitespace image = false ∧ Forall (λ a, shell_char a = false) (chars image) ∧
  ∃ mid, args = ["run"; "-d"; "--name"; name; "--cpus"; cpus_text (cpu_millicpus l);
                 "--memory"; pretty (memory_mb l) +:+ "m"; "--pids-limit"; pretty (max_processes l)] ++ mid ++
      (if allows_port_exposure l
       then ["--network"; "bridge"; "-p"; "127.0.0.1::" +:+ pretty (cfg_port config)]
       else ["--network"; "none"]) ++ [image] ∧
    (readonly_root l = true → "--read-only" ∈ mid) ∧
    (∀ c, c ∈ drop_capabilities l → trim c ≠ "" → trim c ∈ mid) ∧
    ("-p" ∈ mid → ∃ c, c ∈ drop_capabilities l ∧ trim c = "-p").
Proof.
  intros E l. unfold docker_run_args in E. apply result_bind_Ok in E as ([] & Hl & E).
  apply result_bind_Ok in E as ([] & Hname & E). apply result_bind_Ok in E as ([] & Htag & E).
  injection E as <-. fold l.
  unfold enforce_limits_before_schedule, SandboxLimits_validate in Hl. fold l in Hl.
  repeat (case_decide; simplify_eq/=). apply validate_tag_Ok in Htag as [Hws Hsh].
  apply validate_name_Ok in Hname as [Hname _]. split_and!; try done.
  exists ((if readonly_root l then ["--read-only"] else []) ++ cap_args (drop_capabilities l)). split_and!.
  - unfold network_args, allows_port_exposure. fold l. rewrite <- app_assoc. by destruct (network l).
  - intros ->. left.
  - intros c Hc Hne. apply elem_of_app. right. unfold cap_args. apply list_elem_of_In, in_flat_map.
    exists c. split; [by apply list_elem_of_In|]. destruct (trim c) eqn:Et; [done|]. simpl. auto.
  - intros [Hp|Hp]%elem_of_app; [|by apply cap_args_published].
    destruct (readonly_root l); [|by apply elem_of_nil in Hp]. by apply elem_of_cons in Hp as [Hp|?%elem_of_nil].
Qed.

(** ** Readiness *)

(** A workload counts as healthy only on an HTTP status line of its own
    port: with the network enabled, the configured path answers with a success
    status in production and with a success or redirection in development; an
    accepted connection, a timeout or an unparseable answer never does. *)
Theorem only_an_answer_is_healthy {X} (h : Host X) config host port x x' health :
  probe_health h config host port x = (x', health) → HealthStatus_is_healthy health = true →
  port ≠ 0 ∧ allows_port_exposure (cfg_limits config) = true ∧
  ∃ line status, h_http h host port (http_request host (default "/" (cfg_healthcheck_path config))) x = (x', PbLine line) ∧
    http_status (PbLine line) = Some status ∧ prospective_phase health = Ready ∧
    200 ≤ status < match cfg_profile config with Production => 300 | Development => 400 end.
Proof.
  unfold probe_health. case_decide as Hp; [by intros [= <- <-]|].
  destruct (allows_port_exposure _); simpl negb; cbv iota; [|by intros [= <- <-]].
  destruct (h_http _ _ _ _ _) as [x1 o] eqn:Ho. intros E Hh. split; [done|]. split; [done|].
  destruct (http_status o) as [status|] eqn:Hs.
  2: { injection E as <- <-. unfold evaluate_health in Hh. by destruct (cfg_healthcheck_path config). }
  injection E as <- <-. destruct o as [| | |line]; try done. exists line, status.
  split; [done|]. split; [done|]. unfold evaluate_health in *. destruct (cfg_profile config).
  - case_decide; [done|done].
  - destruct (bool_decide (200 ≤ status < 300)) eqn:Hb; [|done]. apply bool_decide_eq_true in Hb.
    destruct (match cfg_healthcheck_path config with Some _ => _ | None => _ end) eqn:Hpo; simpl in *; done.
Qed.

(** An unavailable runtime never counts as evidence: nothing builds, runs or is
    healthy, and its state stays. *)
Lemma unavailable_is_a_blocker {X} reason (x : X) dockerfile context tag limits identity config image name host port :
  let e := UnavailableExecutor reason in
  is_available (ce_check_available e x).2 = false ∧
  (∃ r, ce_build e dockerfile context tag limits identity x = Done (x, r) ∧
     BuildResult_is_success r = false ∧ is_some (br_recovery r) = true) ∧
  ce_run e config image name identity x = Done (x, Err (CpUnavailable reason)) ∧
  HealthStatus_is_healthy (ce_health e config host port x).2 = false.
Proof. intros e. split_and!; [done| |done|done]. eexists. split; [reflexivity|]. by split. Qed.

Module ContainerExamples.
Definition web : RuntimeConfig :=
  {| cfg_kind := Generic; cfg_tier := Tier0; cfg_profile := Development; cfg_port := 8080;
     cfg_healthcheck_path := None; cfg_dockerfile := Some "Dockerfile"; cfg_run_command := ["docker"];
     cfg_oci_image := None; cfg_limits := docker_default |}.
Example web_args : docker_run_args web "labrys-abc" "labrys-test:latest" =
  Ok ["run"; "-d"; "--name"; "labrys-abc"; "--cpus"; "1.00"; "--memory"; "512m"; "--pids-limit"; "128";
      "--read-only"; "--cap-drop"; "ALL"; "--network"; "bridge"; "-p"; "127.0.0.1::8080"; "labrys-test:latest"].
Proof. vm_compute. reflexivity. Qed.
Example crafted_name : validate_container_name "evil; rm" ≠ Ok tt.
Proof. vm_compute. discriminate. Qed.
(** A leading dash passes for an image and a container identifier. *)
Example dashes : (validate_tag "--privileged", validate_container_id "-f") = (Ok tt, Ok tt).
Proof. vm_compute. reflexivity. Qed.

Lemma cpu_limit_close_witness : Z.abs (10 * cpu_hundredths 125 - 125) ≤ 5 ∧ 1 ≤ cpu_hundredths 125.
Proof. apply (cpu_limit_close 125). unfold u32_max. lia. Defined.
Lemma run_is_sandboxed_witness :
  ∃ args, docker_run_args web "labrys-abc" "labrys-test:latest" = Ok args ∧
    Forall (λ a, name_char a = true) (chars "labrys-abc").
Proof.
  destruct (docker_run_args web "labrys-abc" "labrys-test:latest") as [args|e] eqn:E;
    [|vm_compute in E; discriminate E].
  exists args. split; [reflexivity|].
  destruct (run_is_sandboxed web "labrys-abc" "labrys-test:latest" args E) as (_ & _ & _ & _ & Hn & _). exact Hn.
Defined.

(** A host that answers one status line. *)
Definition answering (line : string) : Host unit :=
  {| h_process := λ _ _ _ x, (x, PrTimedOut); h_http := λ _ _ _ x, (x, PbLine line) |}.
Lemma only_an_answer_is_healthy_witness :
  probe_health (answering "HTTP/1.1 301 Moved") web "127.0.0.1" 49153 tt = (tt, HsHealthy) ∧
  allows_port_exposure (cfg_limits web) = true.
Proof.
  assert (probe_health (answering "HTTP/1.1 301 Moved") web "127.0.0.1" 49153 tt = (tt, HsHealthy)) as E
    by (vm_compute; reflexivity).
  split; [exact E|].
  exact (proj1 (proj2 (only_an_answer_is_healthy _ web "127.0.0.1" 49153 tt tt HsHealthy E eq_refl))).
Defined.
End ContainerExamples.
