(* ===== verification/Previews.v ===== *)
(** Health-gated previews (preview.rs of labrys-control-plane): session worktrees on
    the host, the preview lifecycle over an injected container executor, and the
    tables of executions and previews. *)

From stdpp Require Import base option list strings pretty gmap sorting.
From Stdlib Require Import ZArith Lia Ascii.
From S2P Require Import Prelude External Errors CpErrors Ids Resource Runtime Deployment Events.
From S2P Require Import Verifier Snapshot Auth Config Workspace CpStores Delivery Containers.
Local Open Scope Z_scope.

(* ------------------------------------------------------------------ *)
(** * Worktree directories *)

(** The components of a [Path]: a root, a leading [.], and the names between
    slashes. *)
Fixpoint split_on (c : ascii) (s : string) : list string :=
  match s with
  | "" => [""]
  | String a s' =>
      if Ascii.eqb a c then "" :: split_on c s'
      else match split_on c s' with
           | [] => [String a ""]
           | w :: ws => String a w :: ws
           end
  end.
Definition is_name (w : string) : bool := negb (str_is_empty w) && negb (String.eqb w ".").
Definition path_lead (ws : list string) : list string :=
  match ws with
  | "" :: _ :: _ => ["/"]
  | "."%string :: _ => ["."]
  | _ => []
  end.
Definition path_components (p : string) : list string :=
  let ws := split_on "/" p in path_lead ws ++ List.filter is_name ws.
Fixpoint is_prefix (xs ys : list string) : bool :=
  match xs, ys with
  | [], _ => true
  | x :: xs', y :: ys' => String.eqb x y && is_prefix xs' ys'
  | _, [] => false
  end.
Definition path_starts_with (p base : string) : bool :=
  is_prefix (path_components base) (path_components p).

Definition WorkspaceRoot_new (root : string) : result ControlPlaneError string :=
  if str_is_empty root then Err (CpExecution "workspace root must not be empty") else Ok root.
Definition worktree_dir `{UuidLib} (root : string) (session_id : AgentSessionId) :
    result ControlPlaneError string :=
  let dir := path_join (path_join root "worktrees") (id_fmt session_id) in
  if negb (path_starts_with dir root) then Err (CpExecution "workspace path escapes the approved root")
  else Ok dir.

(* ------------------------------------------------------------------ *)
(** * Tables *)

Section Tables.
Context `{JsonLib}.

Record ExecutionRecord := { xr_id : string; xr_kind : string; xr_status : string; xr_detail : string }.
Record ExecutionRow := mkExecutionRow {
  xw_id : string;
  xw_identity : ExecutionIdentity;
  xw_kind : string;
  xw_image : option string;
  xw_container_id : option string;
  xw_container_name : option string;
  xw_limits : Json;
  xw_status : string;
  xw_detail : string;
  xw_created_at : DateTime;
}.
Record PreviewRecord := mkPreviewRecord {
  pw_id : string;
  pw_workspace_id : string;
  pw_session_id : string;
  pw_application_id : string;
  pw_environment_id : option string;
  pw_status : string;
  pw_url : option string;
  pw_container_id : option string;
  pw_container_name : option string;
  pw_expires_at : option DateTime;
  pw_updated_at : DateTime;
}.
(** The projection [get] returns. *)
Record PreviewRow := { pr_id : string; pr_status : string; pr_url : option string; pr_container_id : option string }.
Definition execution_from_row (row : ExecutionRow) : ExecutionRecord :=
  {| xr_id := xw_id row; xr_kind := xw_kind row; xr_status := xw_status row; xr_detail := xw_detail row |}.
Definition preview_row_from_row (row : PreviewRecord) : PreviewRow :=
  {| pr_id := pw_id row; pr_status := pw_status row; pr_url := pw_url row;
     pr_container_id := pw_container_id row |}.
Definition preview_status_name (preview : WebPreview) : string :=
  match wp_status preview with
  | PsPending => "pending" | PsBuilding => "building" | PsAvailable => "available"
  | PsUnavailable _ => "unavailable" | PsExpired => "expired"
  end.

(** What the manager writes, and the outside world [X] of its executor, clock,
    identifiers and files. *)
Record Pm (X : Type) := mkPm {
  pm_x : X;
  pm_events : Serial EventRow;
  pm_logs : Serial LogRow;
  pm_evidence : gmap string EvidenceRow;
  pm_previews : gmap string PreviewRecord;
  pm_executions : gmap string ExecutionRow;
}.
End Tables.
#[global] Arguments mkPm {_ X}.
#[global] Arguments pm_x {_ X}.
#[global] Arguments pm_events {_ X}.
#[global] Arguments pm_logs {_ X}.
#[global] Arguments pm_evidence {_ X}.
#[global] Arguments pm_previews {_ X}.
#[global] Arguments pm_executions {_ X}.
Record Outside (X : Type) := {
  o_now : X → X * DateTime;
  o_uuid : X → X * Uuid;
  o_draws : X → X * Draws;
  o_exists : string → X → X * bool;
  o_create_dir_all : string → M X ControlPlaneError unit;
  o_remove_dir_all : string → M X ControlPlaneError unit;
}.
#[global] Arguments o_now {X}.
#[global] Arguments o_uuid {X}.
#[global] Arguments o_draws {X}.
#[global] Arguments o_exists {X}.
#[global] Arguments o_create_dir_all {X}.
#[global] Arguments o_remove_dir_all {X}.

(* ------------------------------------------------------------------ *)
(** * The stores *)

Section Manager.
Context `{UuidLib} `{JsonLib} `{!Serde EventActor} `{!Serde EventResult} `{!Serde EventResource}.
Context `{!Serde EffectiveLimits} `{StrDebug} `{ChronoText} `{PgTime}.
Context {X : Type} (outside : Outside X) (secrets : list string).
Abbreviation Op A := (M (Pm X) ControlPlaneError A).

Definition set_x x (s : Pm X) : Pm X :=
  mkPm x (pm_events s) (pm_logs s) (pm_evidence s) (pm_previews s) (pm_executions s).
Definition set_pm_events t (s : Pm X) : Pm X :=
  mkPm (pm_x s) t (pm_logs s) (pm_evidence s) (pm_previews s) (pm_executions s).
Definition set_pm_logs t (s : Pm X) : Pm X :=
  mkPm (pm_x s) (pm_events s) t (pm_evidence s) (pm_previews s) (pm_executions s).
Definition set_pm_evidence t (s : Pm X) : Pm X :=
  mkPm (pm_x s) (pm_events s) (pm_logs s) t (pm_previews s) (pm_executions s).
Definition set_pm_previews t (s : Pm X) : Pm X :=
  mkPm (pm_x s) (pm_events s) (pm_logs s) (pm_evidence s) t (pm_executions s).
Definition set_pm_executions t (s : Pm X) : Pm X :=
  mkPm (pm_x s) (pm_events s) (pm_logs s) (pm_evidence s) (pm_previews s) t.

(** A call to the outside. *)
Definition ask {A} (f : X → X * A) : Op A := λ s,
  let '(x, a) := f (pm_x s) in Done (set_x x s, Ok a).
Definition ask_o {A} (f : X → outcome (X * A)) : Op A := λ s,
  match f (pm_x s) with Done (x, a) => Done (set_x x s, Ok a) | Panic m => Panic m end.
(** A fallible call whose result is inspected, not propagated. *)
Definition attempt {A} (m : M X ControlPlaneError A) : Op (result ControlPlaneError A) := λ s,
  match m (pm_x s) with Done (x, r) => Done (set_x x s, Ok r) | Panic msg => Panic msg end.

(** The created and the updated column hold one reading. *)
Definition execution_record (kind status detail : string) (image container_id container_name : option string)
    (limits : Json) (identity : ExecutionIdentity) : Op ExecutionRecord :=
  if negb (bool_decide (kind ∈ ["build"; "run"])) then
    mthrow (CpExecution ("unknown execution kind " +:+ kind))
  else if negb (bool_decide (status ∈ ["running"; "succeeded"; "failed"; "cancelled"])) then
    mthrow (CpExecution ("unknown execution status " +:+ status))
  else
    detail ← lift_r (redact_guard "execution.detail" detail secrets);
    u ← ask (o_uuid outside);
    now ← ask (o_now outside);
    let id := uuid_hyphenated u in
    s ← get;
    if is_some (pm_executions s !! id) then
      mthrow (CpDatabase "duplicate key value violates unique constraint executions_pkey")
    else
      put (set_pm_executions (<[id := mkExecutionRow id identity kind image container_id container_name
             limits status detail (pg_time now)]> (pm_executions s)) s);;
      mret {| xr_id := id; xr_kind := kind; xr_status := status; xr_detail := detail |}.
(** [ORDER BY created_at]; rows of one instant in the order [scan] of the table. *)
Definition created_le (a b : ExecutionRow) : Prop := xw_created_at a ≤ xw_created_at b.
#[local] Instance created_le_dec a b : Decision (created_le a b).
Proof. unfold created_le. apply _. Defined.
Definition executions_for_trace (scan : gmap string ExecutionRow → list ExecutionRow) (trace_id : string)
    (s : Pm X) : list ExecutionRecord :=
  map execution_from_row (merge_sort created_le
    (List.filter (λ r, bool_decide (xi_trace_id (xw_identity r) = trace_id)) (scan (pm_executions s)))).

Definition preview_upsert (preview : WebPreview) (workspace : SessionWorkspace)
    (identity : ExecutionIdentity) (container_id container_name : option string) : Op unit :=
  match temporary_url preview with
  | Some url => _ ← lift_r (redact_guard "preview.url" url secrets); mret tt
  | None => mret tt
  end;;
  now ← ask (o_now outside);
  s ← get;
  let id := id_fmt (wp_id preview) in
  let row w se a e := mkPreviewRecord id w se a e (preview_status_name preview) (temporary_url preview)
    container_id container_name (pg_time <$> wp_expires_at preview) (pg_time now) in
  put (set_pm_previews (<[id :=
    match pm_previews s !! id with
    | Some old => row (pw_workspace_id old) (pw_session_id old) (pw_application_id old) (pw_environment_id old)
    | None => row (id_fmt (ws_id workspace)) (id_fmt (ws_session_id workspace))
                (xi_application_id identity) (xi_environment_id identity)
    end]> (pm_previews s)) s).
Definition preview_get (id : PreviewId) (s : Pm X) : result ControlPlaneError PreviewRow :=
  row ← ok_or (CpNotFound ("preview " +:+ id_fmt id)) (pm_previews s !! id_fmt id);
  Ok (preview_row_from_row row).

(* ------------------------------------------------------------------ *)
(** * The manager *)

Definition preview_draft (at_ : DateTime) (identity : ExecutionIdentity) (action : EventAction)
    (result : EventResult) (kind id detail : string) : EventDraft :=
  mkDraft at_ (ActPlatform "preview-runtime") (identity_correlation identity) action
    (Some (EventResource_new kind id)) None (Some detail) result.
Definition pm_record_event (identity : ExecutionIdentity) (action : EventAction) (result : EventResult)
    (kind id detail : string) : Op unit :=
  now ← ask (o_now outside);
  draws ← ask (o_draws outside);
  _ ← zoom pm_events set_pm_events
        (event_append draws (preview_draft now identity action result kind id detail) secrets);
  mret tt.
Definition pm_record_log (identity : ExecutionIdentity) (source : LogSource) (level : LogLevel)
    (message : string) : Op unit :=
  now ← ask (o_now outside);
  draws ← ask (o_draws outside);
  _ ← zoom pm_logs set_pm_logs
        (log_append draws source level (identity_correlation identity) message secrets now);
  mret tt.
Definition pm_evidence_append (evidence : VerificationEvidence) : Op unit :=
  ignore_result (zoom pm_evidence set_pm_evidence (evidence_append evidence secrets)).
Definition record_terminal (preview : WebPreview) (identity : ExecutionIdentity) (detail : string) : Op unit :=
  pm_record_log identity LsRuntime LlError (WebPreview_to_event_detail preview);;
  now ← ask (o_now outside);
  pm_evidence_append (VerificationEvidence_new ("preview-" +:+ id_fmt (wp_id preview) +:+ "-terminal")
    VsBuildTest "preview-terminal" false detail secrets now).
Definition build_status_name (s : BuildStatus) : string :=
  match s with BsSucceeded => "succeeded" | BsFailed => "failed" | BsCancelled => "cancelled" end.
Definition record_execution (kind : string) (build : BuildResult)
    (image container_id container_name : option string) (limits : EffectiveLimits)
    (identity : ExecutionIdentity) : Op unit :=
  let limits_value := match serialize limits with Ok v => v | Err _ => json_null end in
  _ ← execution_record kind (build_status_name (br_status build)) (br_detail build) image container_id
        container_name limits_value identity;
  mret tt.

Definition workspace_identity (workspace : SessionWorkspace) : ExecutionIdentity :=
  mkIdentity (id_fmt (ws_application_id workspace)) None (Some (id_fmt (ws_id workspace)))
    (Some (id_fmt (ws_session_id workspace))) ("workspace:" +:+ id_fmt (ws_id workspace)).
Definition unavailable_build_result (config : RuntimeConfig) (reason : string) : BuildResult :=
  {| br_status := BsFailed; br_cancelled := false;
     br_limit_enforced := Some ("timeout_secs=" +:+ pretty (timeout_secs (cfg_limits config)));
     br_recovery := Some "provision a container runtime, then retry; this is an environment blocker";
     br_detail := "preview blocked: runtime unavailable (" +:+ reason +:+ "); no image was produced" |}.

Definition core_r {A} (r : result CoreError A) : result ControlPlaneError A :=
  match r with Ok a => Ok a | Err e => Err (CpCore e) end.
Context (root : string).
Definition materialize_workspace (repo : CanonicalRepository) (session_id : AgentSessionId)
    (environment_name : string) : Op SessionWorkspace :=
  u ← ask (o_uuid outside);
  workspace ← lift_r (core_r (SessionWorkspace_open (mkId u) repo session_id environment_name));
  dir ← lift_r (worktree_dir root session_id);
  there ← ask (o_exists outside dir);
  if there : bool then
    mthrow (CpExecution ("session " +:+ id_fmt session_id +:+ " already owns a worktree at " +:+ dir))
  else
    zoom pm_x set_x (o_create_dir_all outside dir);;
    pm_record_log (workspace_identity workspace) LsRuntime LlInfo
      ("materialized workspace " +:+ id_fmt (ws_id workspace) +:+ " at " +:+ dir);;
    mret workspace.
Definition cleanup_workspace (workspace : SessionWorkspace) : Op unit :=
  dir ← lift_r (worktree_dir root (ws_session_id workspace));
  if negb (path_starts_with dir root) then
    mthrow (CpExecution "workspace cleanup escapes the approved root")
  else
    there ← ask (o_exists outside dir);
    if there : bool then zoom pm_x set_x (o_remove_dir_all outside dir) else mret tt.
Definition expo_share (fresh : PreviewId) (workspace : SessionWorkspace) (project_slug host : string)
    (port : Z) (transport : ExpoTransport) (expires_at : DateTime) : result ControlPlaneError ExpoShare :=
  url ← core_r (discover_server_url host port);
  core_r (ExpoShare_new fresh workspace project_slug url transport expires_at).

(** [let _ = preview.call()]. *)
Definition quietly (m : M WebPreview CoreError unit) (p : WebPreview) : Op WebPreview :=
  lift_o ('(p', _) ← m p; Done p').

Record StartedPreview := mkStarted {
  sp_preview : WebPreview;
  sp_workspace : SessionWorkspace;
  sp_container_id : option string;
  sp_container_name : option string;
  sp_limits : EffectiveLimits;
}.

Context (executor : ContainerExecutor X).
(** [s.replace('_', "-")]. *)
Fixpoint underscores_to_dashes (s : string) : string :=
  match s with
  | "" => ""
  | String a s' => String (if Ascii.eqb a "_"%char then "-"%char else a) (underscores_to_dashes s')
  end.
Definition container_name (workspace : SessionWorkspace) (preview : WebPreview) : string :=
  underscores_to_dashes ("labrys-" +:+ id_fmt (ws_session_id workspace) +:+ "-" +:+ id_fmt (wp_id preview)).
Definition health_result (health : HealthStatus) : EventResult :=
  match health with
  | HsHealthy => ErSucceeded
  | HsStarting => ErAccepted
  | HsUnhealthy reason | HsUnknown reason => ErFailed (redact reason secrets)
  end.

(** The container of a preview whose image was built. *)
Definition run_container (workspace : SessionWorkspace) (config : RuntimeConfig) (image : string)
    (identity : ExecutionIdentity) (limits : EffectiveLimits) (preview : WebPreview) : Op StartedPreview :=
  let name := container_name workspace preview in
  started ← attempt (ce_run executor config image name identity);
  match started with
  | Err err =>
      let reason := ControlPlaneError_fmt err in
      preview ← quietly (preview_record_build (BuildResult_failed ("preview run failed: " +:+ reason))) preview;
      preview_upsert preview workspace identity None (Some name);;
      record_terminal preview identity reason;;
      mret (mkStarted preview workspace None (Some name) limits)
  | Ok container =>
      health ← ask (ce_health executor config "127.0.0.1" (default (cfg_port config) (rc_host_port container)));
      record_execution "run"
        (BuildResult_succeeded ("container " +:+ rc_id container +:+ " started from image " +:+ image))
        (Some image) (Some (rc_id container)) (Some name) limits identity;;
      preview ← quietly (preview_record_health health) preview;
      pm_record_event identity EaHealthProbed (health_result health) "preview" (id_fmt (wp_id preview))
        (WebPreview_to_event_detail preview);;
      now ← ask (o_now outside);
      pm_evidence_append (VerificationEvidence_new ("preview-" +:+ id_fmt (wp_id preview) +:+ "-health")
        VsHealth "preview-health-gate" (HealthStatus_is_healthy health) (WebPreview_to_event_detail preview)
        secrets now);;
      if negb (HealthStatus_is_healthy health) then
        ignore_result (zoom pm_x set_x (ce_cleanup executor (rc_id container)));;
        preview_upsert preview workspace identity None (Some name);;
        mret (mkStarted preview workspace None (Some name) limits)
      else
        preview_upsert preview workspace identity (Some (rc_id container)) (Some name);;
        mret (mkStarted preview workspace (Some (rc_id container)) (Some name) limits)
  end.

(** A preview that ends before it has a container. *)
Definition end_unbuilt (workspace : SessionWorkspace) (identity : ExecutionIdentity)
    (limits : EffectiveLimits) (detail : string) (preview : WebPreview) : Op StartedPreview :=
  preview_upsert preview workspace identity None None;;
  record_terminal preview identity detail;;
  mret (mkStarted preview workspace None None limits).
Definition build_event (build : BuildResult) : EventResult :=
  if BuildResult_is_success build then ErSucceeded else ErFailed (redact (br_detail build) secrets).
Definition start_preview (workspace : SessionWorkspace) (config : RuntimeConfig)
    (dockerfile context image : string) (identity : ExecutionIdentity) (expires_at : option DateTime) :
    Op StartedPreview :=
  lift_r (enforce_limits_before_schedule config);;
  let limits := EffectiveLimits_from_config config in
  u ← ask (o_uuid outside);
  preview ← lift_o (notify_build_started (WebPreview_new (mkId u) workspace PaPrivate expires_at));
  lift_r (core_r preview.2);;
  let preview := preview.1 in
  pm_record_event identity EaBuildStarted ErAccepted "preview" (id_fmt (wp_id preview))
    ("preview " +:+ id_fmt (wp_id preview) +:+ " build started under " +:+ limits_summary limits);;
  availability ← ask (ce_check_available executor);
  match availability with
  | RaUnavailable reason =>
      let blocked := unavailable_build_result config reason in
      preview ← quietly (preview_record_build blocked) preview;
      end_unbuilt workspace identity limits (br_detail blocked) preview
  | RaAvailable _ =>
      build ← ask_o (ce_build executor dockerfile context image (cfg_limits config) identity);
      preview ← quietly (preview_record_build build) preview;
      record_execution "build" build (Some image) None None limits identity;;
      pm_record_event identity EaBuildFinished (build_event build) "preview" (id_fmt (wp_id preview))
        (br_detail build);;
      if negb (BuildResult_is_success build) then
        end_unbuilt workspace identity limits (br_detail build) preview
      else run_container workspace config image identity limits preview
  end.

(** The caller's preview is changed in place. *)
Definition expire_preview (workspace : SessionWorkspace) (preview : WebPreview)
    (container_id container_name : option string) (identity : ExecutionIdentity) :
    Op WebPreview :=
  match container_id with
  | Some id => ignore_result (zoom pm_x set_x (ce_cleanup executor id))
  | None => mret tt
  end;;
  let preview := preview_expire preview in
  preview_upsert preview workspace identity None container_name;;
  pm_record_event identity EaReconciled ErSucceeded "preview" (id_fmt (wp_id preview))
    ("preview " +:+ id_fmt (wp_id preview) +:+ " expired; access revoked");;
  mret preview.
Definition revoke_preview (workspace : SessionWorkspace) (preview : WebPreview)
    (container_id container_name : option string) (identity : ExecutionIdentity) (reason : string) :
    Op WebPreview :=
  match container_id with
  | Some id => ignore_result (zoom pm_x set_x (ce_cleanup executor id))
  | None => mret tt
  end;;
  preview ← quietly (preview_record_build (BuildResult_failed ("preview revoked: " +:+ reason))) preview;
  preview_upsert preview workspace identity None container_name;;
  pm_record_event identity EaReconciled ErSucceeded "preview" (id_fmt (wp_id preview))
    ("preview " +:+ id_fmt (wp_id preview) +:+ " revoked: " +:+ reason);;
  mret preview.
End Manager.
Definition probe_container_health {X} (h : Host X) (config : RuntimeConfig) (host : string) (port : Z) :
    X → X * HealthStatus :=
  probe_health h config host port.
Definition correlation_for (trace_id : string) (session_id : option AgentSessionId) : Correlation :=
  match session_id with
  | Some s => with_session s (Correlation_new trace_id)
  | None => Correlation_new trace_id
  end.

(* ------------------------------------------------------------------ *)
(** * Access follows health *)

Section Facts.
Context `{UuidLib} `{JsonLib} `{!Serde EventActor} `{!Serde EventResult} `{!Serde EventResource}.
Context `{!Serde EffectiveLimits} `{StrDebug} `{ChronoText} `{PgTime}.
Context {X : Type} (outside : Outside X) (secrets : list string) (executor : ContainerExecutor X).
Implicit Types (s : Pm X) (p : WebPreview) (w : SessionWorkspace).

(** Operations that leave the previews table alone. *)
Abbreviation keeping m := (within (keeps (pm_previews (X:=X))) m).
Lemma keeps_ask {A} (f : X → X * A) : keeping (ask f).
Proof. intros s s' r. unfold ask. destruct (f _). by intros [= <- <-]. Qed.
Lemma keeps_zoom {T A} (proj : Pm X → T) (upd : T → Pm X → Pm X) (m : M T ControlPlaneError A) :
  (∀ t s, pm_previews (upd t s) = pm_previews s) → keeping (zoom proj upd m).
Proof. intros Hu. by apply within_zoom_frame. Qed.
#[local] Hint Resolve keeps_ask keeps_zoom : within.
Lemma keeps_event identity action result kind id detail :
  keeping (pm_record_event outside secrets identity action result kind id detail).
Proof. unfold pm_record_event. auto 10 with within typeclass_instances. Qed.
Lemma keeps_evidence evidence : keeping (pm_evidence_append secrets evidence).
Proof. unfold pm_evidence_append. auto with within. Qed.
#[local] Hint Resolve keeps_evidence : within.
Lemma keeps_terminal p identity detail : keeping (record_terminal outside secrets p identity detail).
Proof. unfold record_terminal, pm_record_log. auto 10 with within typeclass_instances. Qed.

Lemma quietly_Ok m p s s' p' :
  quietly (X:=X) m p s = Done (s', Ok p') → s' = s ∧ ∃ r, m p = Done (p', r).
Proof. unfold quietly, lift_o. unfold_monad. destruct (m p) as [[p1 r]|]; [|done]. intros [= <- <-]. eauto. Qed.
Lemma record_build_same build p p' r :
  preview_record_build build p = Done (p', r) →
  wp_id p' = wp_id p ∧ (temporary_url p = None → temporary_url p' = None) ∧
  (wp_status p = PsAvailable → p' = p).
Proof.
  unfold preview_record_build, temporary_url. intros E. unfold_monad_in E.
  case_decide as Hd; [by simplify_eq|]. repeat case_match; simplify_eq/=; repeat case_decide; naive_solver.
Qed.
Lemma record_health_access health p p' r :
  wp_status p = PsBuilding → preview_record_health health p = Done (p', r) →
  wp_id p' = wp_id p ∧
  if HealthStatus_is_healthy health then is_Some (temporary_url p') else temporary_url p' = None.
Proof.
  unfold preview_record_health, temporary_url. intros Hst E. unfold_monad_in E. rewrite Hst in E. simpl in E.
  destruct health; simpl; repeat case_match; simplify_eq/=; rewrite ?decide_True by done;
    repeat case_decide; try done; simpl in *; eauto; congruence.
Qed.

(** The row an upsert writes. *)
Definition stored_as p (container_id name : option string) s : Prop :=
  ∃ row, pm_previews s !! id_fmt (wp_id p) = Some row ∧ pw_status row = preview_status_name p ∧
    pw_url row = temporary_url p ∧ pw_container_id row = container_id ∧ pw_container_name row = name.
Lemma upsert_stores p w identity cid name s s' :
  preview_upsert outside secrets p w identity cid name s = Done (s', Ok tt) → stored_as p cid name s'.
Proof.
  unfold preview_upsert. intros (s1 & [] & _ & E)%M_bind_Ok. apply M_bind_Ok in E as (s2 & now & _ & E).
  apply M_bind_Ok in E as (s3 & s3' & E3 & E). injection E3 as <- <-. injection E as <-. unfold stored_as. simpl.
  rewrite lookup_insert_eq. eexists. split; [done|]. by destruct (pm_previews s2 !! _).
Qed.
Lemma stored_kept {A} (m : M (Pm X) ControlPlaneError A) p cid name s s' r :
  keeping m → m s = Done (s', r) → stored_as p cid name s → stored_as p cid name s'.
Proof. intros Hm E. unfold stored_as. by rewrite (Hm _ _ _ E). Qed.

(** The container of a live preview was started for it and its probe, on the port
    it publishes, answered healthy. *)
Definition probed_healthy (config : RuntimeConfig) (image : string) (identity : ExecutionIdentity)
    (id : string) : Prop :=
  ∃ name x1 x2 c x3, ce_run executor config image name identity x1 = Done (x2, Ok c) ∧ rc_id c = id ∧
    ce_health executor config "127.0.0.1" (default (cfg_port config) (rc_host_port c)) x2 = (x3, HsHealthy).
Definition gated config image identity (sp : StartedPreview) s : Prop :=
  stored_as (sp_preview sp) (sp_container_id sp) (sp_container_name sp) s ∧
  (is_Some (temporary_url (sp_preview sp)) ↔ is_Some (sp_container_id sp)) ∧
  ∀ id, sp_container_id sp = Some id → probed_healthy config image identity id.

Lemma ignored_cleanup id s s' u :
  (ignore_result (zoom pm_x set_x (ce_cleanup executor id)) : M (Pm X) ControlPlaneError unit) s = Done (s', Ok u) →
  ∃ x r, ce_cleanup executor id (pm_x s) = Done (x, r) ∧ pm_previews s' = pm_previews s.
Proof.
  unfold ignore_result, zoom. destruct (ce_cleanup executor id (pm_x s)) as [[x r]|]; [|done]. intros [= <- _]. eauto.
Qed.
Lemma run_container_gated w config image identity limits p s s' sp :
  wp_status p = PsBuilding →
  run_container outside secrets executor w config image identity limits p s = Done (s', Ok sp) →
  gated config image identity sp s'.
Proof.
  intros Hst. unfold run_container. intros (s1 & started & E1 & E)%M_bind_Ok.
  assert (temporary_url p = None) as Hno by (unfold temporary_url; by rewrite Hst).
  unfold attempt in E1. destruct (ce_run _ _ _ _ _ _) as [[x1 r1]|] eqn:Hrun; [|done]. injection E1 as <- <-.
  destruct r1 as [c|e].
  2: { apply M_bind_Ok in E as (s2 & p1 & [-> (r & Hb)]%quietly_Ok & E). apply record_build_same in Hb as (_ & Hb & _).
       apply M_bind_Ok in E as (s3 & [] & E3 & E). apply M_bind_Ok in E as (s4 & [] & E4 & E). injection E as <- <-.
       apply upsert_stores in E3. split; [by eapply stored_kept; [apply keeps_terminal| |]|].
       simpl. rewrite Hb by done. split; [by split; intros []|]. by intros id. }
  apply M_bind_Ok in E as (s2 & health & E2 & E). unfold ask in E2. simpl in E2.
  destruct (ce_health _ _ _ _ _) as [x2 h] eqn:Hh. injection E2 as <- <-.
  apply M_bind_Ok in E as (s3 & [] & _ & E).
  apply M_bind_Ok in E as (s4 & p1 & [-> (r & Hrec)]%quietly_Ok & E).
  apply record_health_access in Hrec as [_ Hacc]; [|done].
  apply M_bind_Ok in E as (s5 & [] & _ & E). apply M_bind_Ok in E as (s6 & now & _ & E).
  apply M_bind_Ok in E as (s7 & [] & _ & E). destruct (HealthStatus_is_healthy h) eqn:Hhealthy; simpl negb in E; cbv iota in E.
  - apply M_bind_Ok in E as (s8 & [] & E8 & E). injection E as <- <-. apply upsert_stores in E8.
    split; [done|]. split; [by split; eauto|]. destruct h; try done. intros id [= <-]. unfold probed_healthy. eauto 10.
  - apply M_bind_Ok in E as (s8 & [] & (x & rc & Hcl & _)%ignored_cleanup & E).
    apply M_bind_Ok in E as (s9 & [] & E9 & E). injection E as <- <-. apply upsert_stores in E9.
    split; [done|]. simpl. rewrite Hacc. split; [by split; intros []|]. by intros id.
Qed.
Lemma upsert_last_call p w identity cid name s s' :
  preview_upsert outside secrets p w identity cid name s = Done (s', Ok tt) →
  pm_x s' = (o_now outside (pm_x s)).1.
Proof.
  unfold preview_upsert. intros (s1 & [] & E1 & E)%M_bind_Ok. apply M_bind_Ok in E as (s2 & now & E2 & E).
  apply M_bind_Ok in E as (s3 & s3' & E3 & E). injection E3 as <- <-. injection E as <-. simpl.
  assert (s1 = s) as ->.
  { destruct (temporary_url p) as [u|]; [|by injection E1]. apply M_bind_Ok in E1 as (s4 & g & E4 & E1).
    injection E1 as <-. unfold lift_r in E4. by injection E4. }
  unfold ask in E2. destruct (o_now outside (pm_x s)). by injection E2 as <- _.
Qed.
(** A container whose probe is not healthy gives no access, and the last thing done
    to the outside, the reading of the clock for the row apart, is its removal. *)
Lemma unhealthy_is_removed w config image identity limits p s s' sp x1 x2 c h :
  wp_status p = PsBuilding →
  ce_run executor config image (container_name w p) identity (pm_x s) = Done (x1, Ok c) →
  ce_health executor config "127.0.0.1" (default (cfg_port config) (rc_host_port c)) x1 = (x2, h) →
  HealthStatus_is_healthy h = false →
  run_container outside secrets executor w config image identity limits p s = Done (s', Ok sp) →
  sp_container_id sp = None ∧ temporary_url (sp_preview sp) = None ∧
  ∃ x x' r, ce_cleanup executor (rc_id c) x = Done (x', r) ∧ pm_x s' = (o_now outside x').1.
Proof.
  intros Hst Hrun Hh Hbad. unfold run_container. intros (s1 & started & E1 & E)%M_bind_Ok.
  unfold attempt in E1. rewrite Hrun in E1. injection E1 as <- <-.
  apply M_bind_Ok in E as (s2 & health & E2 & E). unfold ask in E2. simpl in E2. rewrite Hh in E2.
  injection E2 as <- <-. apply M_bind_Ok in E as (s3 & [] & _ & E).
  apply M_bind_Ok in E as (s4 & p1 & [-> (r & Hrec)]%quietly_Ok & E).
  apply record_health_access in Hrec as [_ Hacc]; [|done]. rewrite Hbad in Hacc, E.
  do 3 apply M_bind_Ok in E as (? & ? & _ & E). simpl negb in E. cbv iota in E.
  apply M_bind_Ok in E as (s8 & [] & E8 & E). apply M_bind_Ok in E as (s9 & [] & E9 & E). injection E as <- <-.
  split; [done|]. split; [done|]. apply upsert_last_call in E9. unfold ignore_result, zoom in E8.
  destruct (ce_cleanup executor (rc_id c) _) as [[x' r']|] eqn:Hc; [|done]. injection E8 as <-.
  rewrite E9. simpl. eauto.
Qed.
Lemma end_unbuilt_gated w config image identity limits detail p s s' sp :
  temporary_url p = None → end_unbuilt outside secrets w identity limits detail p s = Done (s', Ok sp) →
  gated config image identity sp s'.
Proof.
  intros Hno. unfold end_unbuilt. intros (s1 & [] & E1 & E)%M_bind_Ok. apply M_bind_Ok in E as (s2 & [] & E2 & E).
  injection E as <- <-. apply upsert_stores in E1. split; [by eapply stored_kept; [apply keeps_terminal| |]|].
  simpl. rewrite Hno. split; [by split; intros []|]. by intros id.
Qed.

(** C17: A preview is given access only by a healthy probe of the container
    started for it: the stored row is the returned preview's, it carries a URL
    exactly when a container is live for it, and that container was run for this
    request and answered healthy on the port it publishes. *)
Theorem preview_access_is_gated w config dockerfile context image identity expires_at s s' sp :
  start_preview outside secrets executor w config dockerfile context image identity expires_at s = Done (s', Ok sp) →
  stored_as (sp_preview sp) (sp_container_id sp) (sp_container_name sp) s' ∧
  (is_Some (temporary_url (sp_preview sp)) ↔ is_Some (sp_container_id sp)) ∧
  ∀ id, sp_container_id sp = Some id → probed_healthy config image identity id.
Proof.
  unfold start_preview. intros (s1 & [] & _ & E)%M_bind_Ok. apply M_bind_Ok in E as (s2 & u & _ & E).
  apply M_bind_Ok in E as (s3 & pr & E3 & E). apply M_bind_Ok in E as (s4 & [] & _ & E).
  assert (wp_status pr.1 = PsBuilding) as Hst.
  { unfold notify_build_started in E3. unfold_monad_in E3. by injection E3 as _ <-. }
  assert (temporary_url pr.1 = None) as Hno by (unfold temporary_url; by rewrite Hst).
  apply M_bind_Ok in E as (s5 & [] & _ & E). apply M_bind_Ok in E as (s6 & av & _ & E). destruct av as [v|reason].
  - apply M_bind_Ok in E as (s7 & build & _ & E).
    apply M_bind_Ok in E as (s8 & p1 & [-> (r & Hb)]%quietly_Ok & E).
    assert (BuildResult_is_success build = true → wp_status p1 = PsBuilding) as Hst1.
    { intros Hs. unfold preview_record_build in Hb. unfold_monad_in Hb. rewrite Hst, Hs in Hb. simpl in Hb.
      injection Hb as <- _. exact Hst. }
    apply record_build_same in Hb as (_ & Hb & _).
    apply M_bind_Ok in E as (s9 & [] & _ & E). apply M_bind_Ok in E as (s10 & [] & _ & E).
    destruct (BuildResult_is_success build); simpl negb in E; cbv iota in E.
    + eapply run_container_gated; [|exact E]. by apply Hst1.
    + eapply end_unbuilt_gated; [|exact E]. by apply Hb.
  - apply M_bind_Ok in E as (s7 & p1 & [-> (r & Hb)]%quietly_Ok & E).
    apply record_build_same in Hb as (_ & Hb & _). eapply end_unbuilt_gated; [|exact E]. by apply Hb.
Qed.

(** Expiring a preview takes its access away in the table and in memory,
    whatever the executor answers. *)
Theorem expiry_revokes_access w p cid name identity s s' p' :
  expire_preview outside secrets executor w p cid name identity s = Done (s', Ok p') →
  temporary_url p' = None ∧ ∃ row, preview_get (wp_id p) s' = Ok row ∧
    pr_url row = None ∧ pr_container_id row = None ∧ pr_status row = "expired".
Proof.
  unfold expire_preview. intros (s1 & [] & _ & E)%M_bind_Ok. apply M_bind_Ok in E as (s2 & [] & E2 & E).
  apply M_bind_Ok in E as (s3 & [] & E3 & E). injection E as <- <-. split; [done|].
  apply upsert_stores in E2. eapply stored_kept in E2; [|apply keeps_event|exact E3].
  destruct E2 as (row & Hr & Hst & Hurl & Hc & _). unfold preview_get. simpl in Hr. rewrite Hr. simpl. eauto 10.
Qed.

(** Revoking an available preview leaves it available: the build
    failure it records is refused in that state and dropped, so the preview and
    its row keep their URL although the container is gone. *)
Theorem revocation_keeps_live_access w p cid name identity reason s s' p' :
  wp_status p = PsAvailable →
  revoke_preview outside secrets executor w p cid name identity reason s = Done (s', Ok p') →
  p' = p ∧ ∃ row, preview_get (wp_id p) s' = Ok row ∧
    pr_url row = wp_url p ∧ pr_status row = "available" ∧ pr_container_id row = None.
Proof.
  intros Hst. unfold revoke_preview. intros (s1 & [] & _ & E)%M_bind_Ok.
  apply M_bind_Ok in E as (s2 & p1 & [-> (r & Hb)]%quietly_Ok & E).
  apply record_build_same in Hb as (_ & _ & Hb). rewrite Hb in E by done.
  apply M_bind_Ok in E as (s3 & [] & E3 & E). apply M_bind_Ok in E as (s4 & [] & E4 & E). injection E as <- <-.
  split; [done|]. apply upsert_stores in E3. eapply stored_kept in E3; [|apply keeps_event|exact E4].
  destruct E3 as (row & Hr & Hs & Hurl & Hc & _). unfold preview_get. rewrite Hr. simpl. eexists. split; [done|].
  simpl. unfold temporary_url in Hurl. rewrite Hst, decide_True in Hurl by done.
  unfold preview_status_name in Hs. rewrite Hst in Hs. done.
Qed.
End Facts.

(* ------------------------------------------------------------------ *)
(** * Worktrees stay apart *)

Lemma split_on_cons c s : ∃ w ws, split_on c s = w :: ws.
Proof.
  destruct s as [|a s]; simpl; [eauto|]. case_match; [eauto|]. destruct (split_on c s); eauto.
Qed.
Lemma split_on_app c a b : split_on c (a +:+ String c b) = split_on c a ++ split_on c b.
Proof.
  induction a as [|x a IH]; simpl; [by rewrite Ascii.eqb_refl|]. rewrite IH. destruct (Ascii.eqb x c); [done|].
  destruct (split_on_cons c a) as (w & ws & ->). done.
Qed.
Lemma split_on_none c s : c ∉ chars s → split_on c s = [s].
Proof.
  induction s as [|x s IH]; [done|]. change (chars (String x s)) with (x :: chars s).
  rewrite not_elem_of_cons. intros [Hne Hs]. simpl. rewrite IH by done.
  destruct (Ascii.eqb_spec x c); [congruence|done].
Qed.
Lemma strip_suffix_Some p s t : strip_suffix p s = Some t → s = t +:+ p.
Proof.
  revert t. induction s as [|a s IH]; intros t; simpl.
  - destruct (decide _); naive_solver.
  - destruct (decide _); [naive_solver|]. destruct (strip_suffix p s) as [u|]; [|done].
    simpl. intros [= <-]. by rewrite (IH u).
Qed.

(** Joining a name adds it as the last component. *)
Lemma join_components dir name :
  dir ≠ "" → is_name name = true → "/"%char ∉ chars name →
  path_components (path_join dir name) = path_components dir ++ [name].
Proof.
  intros Hdir Hn Hs. unfold path_components, path_join.
  assert (∀ t, List.filter is_name (t ++ [name]) = List.filter is_name t ++ [name]) as Hf
    by (intros; rewrite List.filter_app; simpl; by rewrite Hn).
  destruct (str_is_empty dir) eqn:He; [by destruct dir|]. simpl.
  destruct (ends_with "/" dir) eqn:Hend.
  - unfold ends_with in Hend. destruct (strip_suffix "/" dir) as [t|] eqn:Ht; [|done].
    apply strip_suffix_Some in Ht as ->.
    assert ((t +:+ "/") +:+ name = t +:+ String "/" name) as -> by (by rewrite str_app_assoc).
    rewrite !split_on_app, (split_on_none _ name) by done. rewrite Hf, List.filter_app. simpl. rewrite app_nil_r.
    destruct (split_on_cons "/" t) as (w & ws & ->). rewrite app_assoc. do 2 f_equal.
    destruct w as [|x w]; [by destruct ws|]. simpl. by destruct ws.
  - change ("/" +:+ name) with (String "/" name). rewrite split_on_app, (split_on_none _ name) by done.
    rewrite Hf, app_assoc. do 2 f_equal. destruct (split_on "/" dir) as [|w ws] eqn:Hw; [by destruct (split_on_cons "/" dir) as (?&?&?); congruence|].
    destruct w as [|x w]; [|by destruct ws]. destruct ws; [|done].
    exfalso. destruct dir as [|a dir]; [done|]. simpl in Hw. destruct (Ascii.eqb a "/").
    + injection Hw as Hw. destruct (split_on_cons "/" dir) as (?&?&E). congruence.
    + destruct (split_on "/" dir); discriminate.
Qed.
Lemma is_prefix_app xs ys : is_prefix xs (xs ++ ys) = true.
Proof. induction xs as [|x xs IH]; simpl; [done|]. by rewrite String.eqb_refl. Qed.

Section Worktrees.
Context `{UuidLaws}.
Lemma session_text (id : AgentSessionId) : is_name (id_fmt id) = true ∧ "/"%char ∉ chars (id_fmt id).
Proof.
  rewrite id_fmt_prefix. split; [done|]. change (id_prefix KAgentSession) with "agt_".
  rewrite chars_app, not_elem_of_app. split; [apply (bool_decide_unpack _); vm_compute; exact I|].
  intros Hin. pose proof (uuid_simple_hex (id_uuid id)) as Hhex. rewrite Forall_forall in Hhex.
  apply Hhex in Hin as (d & Hd & E). unfold hex_digit in E. apply (f_equal nat_of_ascii) in E.
  rewrite nat_ascii_embedding in E by (case_decide; lia). change (nat_of_ascii "/") with 47%nat in E.
  case_decide; lia.
Qed.

(** The directory of a session lies under the approved root, one name
    below its [worktrees], so the guard never refuses it, and two sessions never
    share one. *)
Theorem worktrees_stay_apart root (a b : AgentSessionId) :
  WorkspaceRoot_new root = Ok root →
  ∃ dir, worktree_dir root a = Ok dir ∧ path_starts_with dir root = true ∧
    path_components dir = path_components root ++ ["worktrees"; id_fmt a] ∧
    (worktree_dir root b = Ok dir → b = a).
Proof.
  unfold WorkspaceRoot_new. destruct (str_is_empty root) eqn:He; [done|]. intros _.
  assert (root ≠ "") as Hne by (by destruct root).
  assert (∀ x : AgentSessionId, path_components (path_join (path_join root "worktrees") (id_fmt x)) =
    path_components root ++ ["worktrees"; id_fmt x]) as Hc.
  { intros x. destruct (session_text x) as [Hn Hs]. rewrite join_components; [|by unfold path_join; case_match; destruct root|done|done].
    rewrite join_components; [by rewrite <- app_assoc|done|done|apply (bool_decide_unpack _); vm_compute; exact I]. }
  assert (∀ x : AgentSessionId, path_starts_with (path_join (path_join root "worktrees") (id_fmt x)) root = true) as Hp
    by (intros x; unfold path_starts_with; rewrite Hc; apply is_prefix_app).
  unfold worktree_dir. rewrite !Hp. simpl negb. cbv iota. eexists. split; [done|]. split; [done|]. split; [done|].
  intros [= E]. apply (f_equal path_components) in E. rewrite !Hc in E. apply app_inv_head in E.
  apply (inj id_fmt). exact (f_equal (λ l, nth 1 l "") E).
Qed.
End Worktrees.

(* ------------------------------------------------------------------ *)
(** * Examples *)

Module PreviewExamples.
Import RefInstances RefPg StoreExamples ContainerExamples.
#[local] Existing Instances value_json actor_serde result_serde event_resource_serde.
#[local] Instance limits_serde : Serde EffectiveLimits :=
  { serialize _ := Ok VNull; deserialize _ := Err "limits" }.

(** A host with one clock: identifiers left to draw and the running containers. *)
Definition World : Type := list Uuid * list string.
Definition host : Outside World := {|
  o_now x := (x, 1700000);
  o_uuid x := (tail x.1, x.2, default (uuid 99) (head x.1));
  o_draws x := (x, draws0);
  o_exists _ x := (x, false);
  o_create_dir_all _ := mret tt;
  o_remove_dir_all _ := mret tt;
|}.
Definition executor (health : HealthStatus) : ContainerExecutor World := {|
  ce_check_available x := (x, RaAvailable "24.0");
  ce_build _ _ _ _ _ x := Done (x, BuildResult_succeeded "built");
  ce_run _ _ name _ x := Done ((x.1, "c1" :: x.2), Ok {| rc_id := "c1"; rc_name := name; rc_host_port := Some 49153 |});
  ce_stop _ := mret tt;
  ce_remove id x := Done ((x.1, List.filter (λ c, negb (String.eqb c id)) x.2), Ok tt);
  ce_logs _ _ := mret "";
  ce_health _ _ _ x := (x, health);
|}.
Definition before : Pm World := mkPm ([uuid 7; uuid 8; uuid 9], []) empty_serial empty_serial ∅ ∅ ∅.
Definition workspace : SessionWorkspace :=
  mkWorkspace (mkId (uuid 1)) (mkId (uuid 2)) "dev" (mkId (uuid 5)) "worktrees/agt_5" "agent/5" "c0ffee" WtActive None.
Definition identity : ExecutionIdentity := mkIdentity "app_2" None None None "t1".
Definition started (health : HealthStatus) :=
  start_preview host [] (executor health) workspace web "Dockerfile" "." "labrys-test:latest" identity None before.
Definition nothing : StartedPreview :=
  mkStarted (WebPreview_new (mkId (uuid 0)) workspace PaPrivate None) workspace None None
    (EffectiveLimits_from_config web).
Definition outcome_of {A} (d : A) (r : outcome (Pm World * result ControlPlaneError A)) : Pm World * A :=
  match r with Done (s, Ok a) => (s, a) | Done (s, Err _) => (s, d) | Panic _ => (before, d) end.
Definition live := outcome_of nothing (started HsHealthy).
Definition sick := outcome_of nothing (started (HsUnhealthy "503")).
Example sick_is_gone :
  (snd (pm_x sick.1), temporary_url (sp_preview sick.2), sp_container_id sick.2) = ([], None, None).
Proof. vm_compute. reflexivity. Qed.

Lemma preview_access_is_gated_witness :
  start_preview host [] (executor HsHealthy) workspace web "Dockerfile" "." "labrys-test:latest" identity None
    before = Done (live.1, Ok live.2) ∧ sp_container_id live.2 = Some "c1" ∧
  is_Some (temporary_url (sp_preview live.2)).
Proof.
  assert (start_preview host [] (executor HsHealthy) workspace web "Dockerfile" "." "labrys-test:latest" identity None
    before = Done (live.1, Ok live.2)) as E by (vm_compute; reflexivity).
  split; [exact E|]. split; [vm_compute; reflexivity|].
  apply (proj1 (proj2 (preview_access_is_gated host [] (executor HsHealthy) workspace web "Dockerfile" "."
    "labrys-test:latest" identity None before live.1 live.2 E))).
  exists "c1". vm_compute. reflexivity.
Defined.

Definition expired :=
  expire_preview host [] (executor HsHealthy) workspace (sp_preview live.2) (Some "c1") None identity live.1.
Definition after := outcome_of (sp_preview live.2) expired.
Lemma expiry_revokes_access_witness :
  is_Some (temporary_url (sp_preview live.2)) ∧ temporary_url after.2 = None.
Proof.
  split; [apply (bool_decide_unpack _); vm_compute; exact I|].
  assert (expire_preview host [] (executor HsHealthy) workspace (sp_preview live.2) (Some "c1") None identity live.1 =
    Done (after.1, Ok after.2)) as E by (vm_compute; reflexivity).
  exact (proj1 (expiry_revokes_access host [] (executor HsHealthy) workspace (sp_preview live.2) (Some "c1") None
    identity live.1 after.1 after.2 E)).
Defined.

Definition revoked :=
  revoke_preview host [] (executor HsHealthy) workspace (sp_preview live.2) (Some "c1") None identity "leak" live.1.
Definition kept := outcome_of (sp_preview live.2) revoked.
Lemma revocation_keeps_live_access_witness :
  revoke_preview host [] (executor HsHealthy) workspace (sp_preview live.2) (Some "c1") None identity "leak" live.1 =
    Done (kept.1, Ok kept.2) ∧ snd (pm_x kept.1) = [] ∧ kept.2 = sp_preview live.2.
Proof.
  assert (revoke_preview host [] (executor HsHealthy) workspace (sp_preview live.2) (Some "c1") None identity "leak"
    live.1 = Done (kept.1, Ok kept.2)) as E by (vm_compute; reflexivity).
  split; [exact E|]. split; [vm_compute; reflexivity|].
  exact (proj1 (revocation_keeps_live_access host [] (executor HsHealthy) workspace (sp_preview live.2) (Some "c1")
    None identity "leak" live.1 kept.1 kept.2 ltac:(vm_compute; reflexivity) E)).
Defined.

Lemma worktrees_stay_apart_witness :
  WorkspaceRoot_new "/srv/./labrys/" = Ok "/srv/./labrys/" ∧
  ∃ dir, worktree_dir "/srv/./labrys/" (mkId (uuid 5)) = Ok dir ∧ path_starts_with dir "/srv/./labrys/" = true.
Proof.
  split; [reflexivity|].
  destruct (worktrees_stay_apart "/srv/./labrys/" (mkId (uuid 5)) (mkId (uuid 6)) eq_refl) as (dir & E & P & _).
  exists dir. split; [exact E|exact P].
Defined.
End PreviewExamples.
