(* ===== verification/Worker.v ===== *)
(** The reconciliation worker (worker.rs of labrys-control-plane) and the
    dispatchers it drives (dispatch.rs and the end of providers.rs). *)

From stdpp Require Import base option list strings pretty gmap.
From Stdlib Require Import ZArith Lia Ascii.
From S2P Require Import Prelude External Errors CpErrors Ids Resource Jobs Runtime Approval Deployment.
From S2P Require Import Events AuditChain Verifier Provider DurableJobs ResourceStore CpStores Delivery Config.
From S2P Require Import Containers.
Local Open Scope Z_scope.

(* ------------------------------------------------------------------ *)
(** * Data *)

Inductive DispatchOutcome :=
| DoReady (id : ResourceId)
| DoDegraded (id : ResourceId)
| DoInProgress
| DoFailed (reason : string).

Record WorkerStats := mkStats {
  st_recovered : Z;
  st_claimed : Z;
  st_completed : Z;
  st_in_progress : Z;
  st_retried : Z;
  st_dead_lettered : Z;
  st_idle : Z;
}.
Definition WorkerStats_default : WorkerStats := mkStats 0 0 0 0 0 0 0.

Inductive TickOutcome :=
| ToIdle
| ToRecovered (ids : list ResourceId)
| ToCompleted (job : JobId) (ready : bool)
| ToRetried (job : JobId) (attempts : Z)
| ToDeadLettered (job : JobId).

(** [str::to_lowercase], which depends on the Unicode tables. *)
Class StrLower := { to_lowercase : string → string }.

(** What one pass reads from its environment: the clock at each use, random
    values, the rows other transactions leave unlocked, and whether a stop was
    requested. *)
Record Tick := {
  tk_now : DateTime;
  tk_finalize_at : DateTime;
  tk_dispatch_at : DateTime;
  tk_log_at : DateTime;
  tk_rand : Rand;
  tk_resource : ResourceId;
  tk_application : ApplicationId;
  tk_visible : list string;
  tk_stopping : bool;
}.

(** The dispatcher trait, over the database and the state [X] of what it drives. *)
Record JobDispatcher `{JsonLib} (X : Type) := {
  dispatch : Tick → Job → M (Db * X) ControlPlaneError DispatchOutcome;
}.
#[global] Arguments dispatch {_ X}.

(** [value.split(':')]. *)
Fixpoint split_colon (s : string) : list string :=
  match s with
  | ""%string => [""]
  | String.String c s' =>
      if decide (c = ":"%char) then "" :: split_colon s'
      else match split_colon s' with
           | seg :: segs => String.String c seg :: segs
           | [] => [String.String c ""]
           end
  end.

(* ------------------------------------------------------------------ *)
(** * Dispatchers *)

Section Simple.
Context `{JsonLib} {X : Type}.
Definition NoopDispatcher : JobDispatcher X := {| dispatch := λ _ _, mret DoInProgress |}.
(** The script and the number of calls so far. *)
Record ScriptedDispatcher := mkScripted { sd_outcomes : list DispatchOutcome; sd_calls : nat }.
Definition ScriptedDispatcher_new (outcomes : list DispatchOutcome) := mkScripted outcomes 0.
Definition scripted : JobDispatcher ScriptedDispatcher :=
  {| dispatch := λ _ _,
       on_ext (s ← get;
               put (mkScripted (sd_outcomes s) (S (sd_calls s)));;
               mret (default DoInProgress (sd_outcomes s !! sd_calls s))) |}.
End Simple.

Section ProviderDispatcher.
Context `{UuidLib} `{JsonLib} `{!Serde FailureRecord} `{!Serde (list ResourceTransition)}.
Context `{!Serde EventActor} `{!Serde EventResult} `{!Serde (list string)}.
Context `{Chrono} `{ChronoText} `{SubsecRound} `{BuildProfile} `{PgTime} `{StrLower}.
Context {X : Type} (secrets : list string).

(** The values of the adapter map, in the order it iterates. *)
Definition adapter_for (adapters : list (ProviderAdapter X)) (job : Job) :
    option (ProviderAdapter X) :=
  let target := to_lowercase (job_target job) in
  match List.find (λ ad, str_contains (to_lowercase (pa_key ad)) target) adapters with
  | Some ad => Some ad
  | None => List.find (λ ad, match pa_kind ad with PkGeneric => true | _ => false end) adapters
  end.

Definition operation_for (tk : Tick) (ad : ProviderAdapter X) (job : Job) : ProviderOperation :=
  let resource_id := match ResourceId_from_str (job_target job) with
    | Ok id => id
    | Err _ => tk_resource tk
    end in
  let application_id := match head (split_colon (job_target job)) with
    | Some segment => match ApplicationId_from_str segment with
                      | Ok id => id
                      | Err _ => tk_application tk
                      end
    | None => tk_application tk
    end in
  mkOperation application_id None resource_id "database.postgres" (pa_key ad) (pa_kind ad)
    match job_action job with JDelete => PaDelete | JUpdate => PaReplace | _ => PaProvision end
    (job_key job) ("job:" +:+ id_fmt (job_id job)) [] (Z.max (job_attempts job) 1).

Definition provider_dispatch (adapters : list (ProviderAdapter X)) (tk : Tick) (job : Job) :
    M (Db * X) ControlPlaneError DispatchOutcome :=
  match adapter_for adapters job with
  | None =>
      mret (DoFailed ("no provider adapter for '" +:+ job_target job +:+ "'. "
              +:+ PROVIDER_FAILURE_RECOVERY))
  | Some ad =>
      let operation := operation_for tk ad job in
      outcome ← try_result (execute_operation secrets ad operation None (tk_dispatch_at tk) (tk_rand tk));
      mret match outcome with
           | Ok (PxReady _) => DoReady (po_resource_id operation)
           | Ok (PxDegraded _) => DoDegraded (po_resource_id operation)
           | Ok (PxAccepted _) => DoInProgress
           | Ok (PxFailed reason _) => DoFailed reason
           | Err err => DoFailed (ControlPlaneError_fmt err)
           end
  end.
Definition ProviderJobDispatcher (adapters : list (ProviderAdapter X)) : JobDispatcher X :=
  {| dispatch := provider_dispatch adapters |}.
End ProviderDispatcher.

Definition DISPATCHER_ACTOR : string := "dispatch-runtime".
Definition BLOCKER_RECOVERY : string :=
  "provision a container runtime (start Docker, or set LABRYS_DOCKER_BIN to its binary and LABRYS_RUNTIME_MODE to auto/docker), then requeue the job; nothing was executed and no pass was recorded".

Section DaemonDispatchers.
Context `{UuidLib} `{JsonLib} `{!Serde EventActor} `{!Serde EventResult} `{PgTime}.
Context {X : Type} (secrets : list string).

Definition identity_for_job (job : Job) : result ControlPlaneError ExecutionIdentity :=
  let target := trim (job_target job) in
  if str_is_empty target then
    Err (CpExecution "job has an empty target: refusing to execute without an application identity; re-enqueue with a valid target")
  else
    let segments := split_colon target in
    identity ← ExecutionIdentity_new (default target (head segments)) ("job:" +:+ id_fmt (job_id job));
    Ok match tail segments with
       | "deploy"%string :: environment :: _ =>
           if negb (trim_is_empty environment) then identity_with_environment environment identity
           else identity
       | _ => identity
       end.

(** A stage's event and its log line. *)
Definition stage_draft (correlation : Correlation) (job : Job) (result : EventResult)
    (detail : string) (at_ : DateTime) : EventDraft :=
  let draft := EventDraft_on_resource (EventResource_new "job" (id_fmt (job_id job)))
    (EventDraft_new at_ (ActPlatform DISPATCHER_ACTOR) correlation EaReconciled result) in
  mkDraft (ed_at draft) (ed_actor draft) (ed_correlation draft) (ed_action draft)
    (ed_resource draft) (ed_before draft) (Some detail) (ed_result draft).
Definition record_stage (identity : ExecutionIdentity) (job : Job) (result : EventResult)
    (level : LogLevel) (detail : string) (tk : Tick) : M Db ControlPlaneError unit :=
  let correlation := identity_correlation identity in
  let draws := r_draws (tk_rand tk) in
  _ ← zoom db_events set_events
        (event_append draws (stage_draft correlation job result detail (tk_dispatch_at tk)) secrets);
  _ ← zoom db_logs set_logs
        (log_append draws LsRuntime level correlation detail secrets (tk_log_at tk));
  mret tt.

Definition on_target (job : Job) (rest : string) : string :=
  "job " +:+ id_fmt (job_id job) +:+ " on '" +:+ job_target job +:+ "' " +:+ rest.

Definition executable_dispatch (availability : RuntimeAvailability) (provider : JobDispatcher X)
    (tk : Tick) (job : Job) : M (Db * X) ControlPlaneError DispatchOutcome :=
  match identity_for_job job with
  | Err err => mret (DoFailed (ControlPlaneError_fmt err))
  | Ok identity =>
      match availability with
      | RaUnavailable reason =>
          let detail := redact (on_target job ("blocked: runtime unavailable (" +:+ reason
                          +:+ "); recovery: " +:+ BLOCKER_RECOVERY)) secrets in
          ignore_result (on_db (record_stage identity job (ErFailed detail) LlError detail tk));;
          mret (DoFailed detail)
      | RaAvailable _ =>
          outcome ← dispatch provider tk job;
          let '(result, level, summary) := match outcome with
            | DoReady resource =>
                (ErSucceeded, LlInfo, on_target job ("ready (resource " +:+ id_fmt resource +:+ ")"))
            | DoDegraded resource =>
                (ErSucceeded, LlWarn, on_target job ("degraded (resource " +:+ id_fmt resource +:+ ")"))
            | DoInProgress =>
                (ErAccepted, LlInfo, on_target job
                   "accepted but not ready; promotion waits for platform observation")
            | DoFailed reason =>
                (ErFailed reason, LlError, on_target job ("failed: " +:+ reason))
            end in
          let detail := redact (summary +:+ " (application " +:+ xi_application_id identity
                          +:+ ", trace " +:+ xi_trace_id identity +:+ ")") secrets in
          ignore_result (on_db (record_stage identity job result level detail tk));;
          mret outcome
      end
  end.
Definition ExecutableDispatcher (availability : RuntimeAvailability) (provider : JobDispatcher X) :
    JobDispatcher X := {| dispatch := executable_dispatch availability provider |}.

Definition unavailable_dispatch (reason : string) (tk : Tick) (job : Job) :
    M (Db * X) ControlPlaneError DispatchOutcome :=
  let detail := redact (on_target job ("blocked: " +:+ reason +:+ " ; recovery: "
                  +:+ BLOCKER_RECOVERY)) secrets in
  let correlation := match identity_for_job job with
    | Ok identity => identity_correlation identity
    | Err _ => Correlation_new ("job:" +:+ id_fmt (job_id job))
    end in
  let draws := r_draws (tk_rand tk) in
  ignore_result (on_db (zoom db_events set_events
    (event_append draws (stage_draft correlation job (ErFailed detail) detail (tk_dispatch_at tk)) secrets)));;
  ignore_result (on_db (zoom db_logs set_logs
    (log_append draws LsRuntime LlError correlation detail secrets (tk_log_at tk))));;
  mret (DoFailed detail).
Definition UnavailableDispatcher (reason : string) : JobDispatcher X :=
  {| dispatch := unavailable_dispatch reason |}.

End DaemonDispatchers.

(** ** Selection at startup *)

Section Selection.
Context `{UuidLib} `{JsonLib} `{!Serde EventActor} `{!Serde EventResult} `{PgTime}.
Context {X : Type}.
Record SelectedDispatcher := {
  sel_dispatcher : JobDispatcher X;
  sel_availability : RuntimeAvailability;
  sel_blocked : bool;
}.
(** [probe] is what the container runtime answers, and [build] the provider
    dispatcher and the secrets made from the configuration.  The dispatcher of a
    blocked daemon knows no secrets. *)
Definition select_dispatcher (mode : RuntimeMode) (probe : RuntimeAvailability)
    (build : result ControlPlaneError (JobDispatcher X * list string)) : result ControlPlaneError SelectedDispatcher :=
  match mode with
  | RmDisabled =>
      let reason := "container runtime explicitly disabled via LABRYS_RUNTIME_MODE=disabled" in
      Ok {| sel_dispatcher := UnavailableDispatcher [] reason;
            sel_availability := RaUnavailable reason; sel_blocked := true |}
  | _ =>
      match probe with
      | RaAvailable _ =>
          '(provider, secrets) ← build;
          Ok {| sel_dispatcher := ExecutableDispatcher secrets probe provider; sel_availability := probe;
                sel_blocked := false |}
      | RaUnavailable reason =>
          match mode with
          | RmDocker =>
              Err (CpConfig ("LABRYS_RUNTIME_MODE=docker but the container runtime is unreachable: "
                     +:+ reason +:+ "; recovery: " +:+ BLOCKER_RECOVERY))
          | _ => Ok {| sel_dispatcher := UnavailableDispatcher [] reason; sel_availability := probe;
                       sel_blocked := true |}
          end
      end
  end.
End Selection.

(* ------------------------------------------------------------------ *)
(** * The worker *)

Section Worker.
Context `{UuidLib} `{JsonLib} `{!Serde RetryPolicy}.
Context `{!Serde FailureRecord} `{!Serde (list ResourceTransition)}.
Context `{!Serde EventActor} `{!Serde EventResult}.
Context `{Chrono} `{BuildProfile} `{PgTime}.
Context {X : Type}.

Record Worker := mkWorker {
  wk_dispatcher : JobDispatcher X;
  wk_id : string;
  wk_lease : Duration;
  wk_secrets : list string;
}.
(** [Worker::with_secrets], from the configured lease seconds. *)
Definition Worker_with_secrets (dispatcher : JobDispatcher X) (worker_id : string)
    (lease_seconds : Z) (secrets : list string) : outcome Worker :=
  lease ← duration_seconds lease_seconds;
  Done (mkWorker dispatcher worker_id lease secrets).

Context (self : Worker).

Definition jobs_table {A} (m : M (gmap string JobRow) ControlPlaneError A) :
    M (Db * X) ControlPlaneError A := on_db (zoom db_jobs set_jobs m).

Definition worker_draft (now : DateTime) (action : EventAction) (result : EventResult)
    (detail : string) : EventDraft :=
  mkDraft now (ActPlatform (wk_id self)) (Correlation_new ("worker:" +:+ wk_id self)) action
    (Some (EventResource_new "worker" (wk_id self))) None (Some detail) result.
Definition worker_event (now : DateTime) (action : EventAction) (result : EventResult)
    (detail : string) (tk : Tick) : M (Db * X) ControlPlaneError unit :=
  _ ← on_db (zoom db_events set_events
        (event_append (r_draws (tk_rand tk)) (worker_draft now action result detail)
           (wk_secrets self)));
  mret tt.

Definition worker_observe (id : ResourceId) (phase : ResourcePhase) (now : DateTime) :
    M (Db * X) ControlPlaneError unit :=
  _ ← on_db (resources_table
        (observe_phase id phase SrcPlatformProbe (Some ("observed by worker " +:+ wk_id self)) now));
  mret tt.

Definition via (job : Job) (what : string) : string :=
  "job " +:+ id_fmt (job_id job) +:+ " " +:+ what +:+ " via worker " +:+ wk_id self.

Definition finalize (claimed : ClaimedJob) (tk : Tick) : M (Db * X) ControlPlaneError TickOutcome :=
  let now := tk_finalize_at tk in
  let job := cj_job claimed in
  outcome ← dispatch (wk_dispatcher self) tk job;
  match outcome with
  | DoReady id =>
      worker_observe id Ready now;;
      jobs_table (pg_complete (job_id job) (wk_id self) now);;
      worker_event now EaResourceProvisioned ErSucceeded (via job "ready") tk;;
      mret (ToCompleted (job_id job) true)
  | DoDegraded id =>
      worker_observe id Degraded now;;
      jobs_table (pg_complete (job_id job) (wk_id self) now);;
      worker_event now EaResourceProvisioned ErSucceeded (via job "degraded") tk;;
      mret (ToCompleted (job_id job) false)
  | DoInProgress =>
      jobs_table (pg_complete (job_id job) (wk_id self) now);;
      worker_event now EaReconciled ErAccepted (via job "in progress") tk;;
      mret (ToCompleted (job_id job) false)
  | DoFailed reason =>
      let reason := redact reason (wk_secrets self) in
      status ← jobs_table (pg_fail (job_id job) (wk_id self) reason now);
      worker_event now EaReconciled (ErFailed reason)
        (via job ("attempt " +:+ pretty (job_attempts job) +:+ " failed")) tk;;
      mret match status with
           | Dead => ToDeadLettered (job_id job)
           | _ => ToRetried (job_id job) (job_attempts job)
           end
  end.

(** ** One pass *)

Definition stats_part {A} (m : M (Db * X) ControlPlaneError A) :
    M ((Db * X) * WorkerStats) ControlPlaneError A := zoom fst (λ w s, (w, s.2)) m.
Definition bump (f : WorkerStats → outcome WorkerStats) : M ((Db * X) * WorkerStats) ControlPlaneError unit :=
  λ s, match f s.2 with Done st => Done ((s.1, st), Ok tt) | Panic msg => Panic msg end.
Definition add_recovered (n : Z) (s : WorkerStats) : outcome WorkerStats :=
  v ← add_unsigned u64_max (st_recovered s) n;
  Done (mkStats v (st_claimed s) (st_completed s) (st_in_progress s) (st_retried s)
          (st_dead_lettered s) (st_idle s)).
Definition add_idle (s : WorkerStats) : outcome WorkerStats :=
  v ← add_unsigned u64_max (st_idle s) 1;
  Done (mkStats (st_recovered s) (st_claimed s) (st_completed s) (st_in_progress s) (st_retried s)
          (st_dead_lettered s) v).
Definition add_claimed (s : WorkerStats) : outcome WorkerStats :=
  v ← add_unsigned u64_max (st_claimed s) 1;
  Done (mkStats (st_recovered s) v (st_completed s) (st_in_progress s) (st_retried s)
          (st_dead_lettered s) (st_idle s)).
Definition add_outcome (o : TickOutcome) (s : WorkerStats) : outcome WorkerStats :=
  match o with
  | ToCompleted _ true =>
      v ← add_unsigned u64_max (st_completed s) 1;
      Done (mkStats (st_recovered s) (st_claimed s) v (st_in_progress s) (st_retried s)
              (st_dead_lettered s) (st_idle s))
  | ToCompleted _ false =>
      v ← add_unsigned u64_max (st_in_progress s) 1;
      Done (mkStats (st_recovered s) (st_claimed s) (st_completed s) v (st_retried s)
              (st_dead_lettered s) (st_idle s))
  | ToRetried _ _ =>
      v ← add_unsigned u64_max (st_retried s) 1;
      Done (mkStats (st_recovered s) (st_claimed s) (st_completed s) (st_in_progress s) v
              (st_dead_lettered s) (st_idle s))
  | ToDeadLettered _ =>
      v ← add_unsigned u64_max (st_dead_lettered s) 1;
      Done (mkStats (st_recovered s) (st_claimed s) (st_completed s) (st_in_progress s)
              (st_retried s) v (st_idle s))
  | _ => Done s
  end.

Definition claim (tk : Tick) : M (Db * X) ControlPlaneError (option ClaimedJob) :=
  jobs_table (pg_claim_next (tk_visible tk) (wk_id self) (tk_now tk) (wk_lease self)).

Definition tick_once (tk : Tick) : M ((Db * X) * WorkerStats) ControlPlaneError bool :=
  let now := tk_now tk in
  recovered ← stats_part (jobs_table (recover_expired_leases now));
  match recovered with
  | [] => mret tt
  | _ :: _ =>
      bump (add_recovered (Z.of_nat (length recovered)));;
      stats_part (worker_event now EaReconciled ErAccepted
        ("recovered " +:+ pretty (length recovered) +:+ " expired lease(s)") tk)
  end;;
  if tk_stopping tk then mret false
  else
    claimed ← stats_part (claim tk);
    match claimed with
    | None => bump add_idle;; mret false
    | Some claimed =>
        outcome ← try_result (stats_part (finalize claimed tk));
        bump add_claimed;;
        outcome ← lift_r outcome;
        bump (add_outcome outcome);;
        mret true
    end.

(** The passes of [run_bounded], at most one per element. *)
Fixpoint run_passes (ticks : list Tick) : M ((Db * X) * WorkerStats) ControlPlaneError unit :=
  match ticks with
  | [] => mret tt
  | tk :: ticks' =>
      acted ← tick_once tk;
      if (acted : bool) then run_passes ticks' else mret tt
  end.
Definition run_bounded (ticks : list Tick) : M (Db * X) ControlPlaneError WorkerStats := λ w,
  match run_passes ticks (w, WorkerStats_default) with
  | Done ((w', stats), Ok _) => Done (w', Ok stats)
  | Done ((w', _), Err e) => Done (w', Err e)
  | Panic msg => Panic msg
  end.

(** [run]: a pass per element until a stop is requested or a pass fails; the
    idle sleep and the final drain only wait. *)
Fixpoint run (ticks : list (bool * Tick)) : M ((Db * X) * WorkerStats) ControlPlaneError unit :=
  match ticks with
  | [] => mret tt
  | (stop, tk) :: ticks' =>
      if (stop : bool) then mret tt
      else _ ← tick_once tk; run ticks'
  end.
End Worker.

(* ------------------------------------------------------------------ *)
(** * The queue under a worker *)

(** A dispatcher that leaves the jobs alone. *)
Class LeavesJobs `{JsonLib} {X} (D : JobDispatcher X) : Prop := {
  dispatch_jobs tk job : within (keeps (λ w : Db * X, db_jobs w.1)) (dispatch D tk job);
}.

Section LeavesJobs.
Context `{UuidLib} `{JsonLib} `{!Serde FailureRecord} `{!Serde (list ResourceTransition)}.
Context `{!Serde EventActor} `{!Serde EventResult} `{!Serde (list string)}.
Context `{Chrono} `{ChronoText} `{SubsecRound} `{BuildProfile} `{PgTime} `{StrLower}.
Context {X : Type} (secrets : list string).

Lemma on_db_frame {T A} proj upd (m : M T ControlPlaneError A) (R : Db * X → Db * X → Prop) :
  (∀ t d x, R (d, x) (upd t d, x)) → within R (on_db (zoom proj upd m)).
Proof.
  intros Hr. unfold on_db. eapply within_zoom with (Q := λ d d', ∃ t, d' = upd t d).
  - intros d d' r. unfold zoom. destruct (m _) as [[]|]; intros [=]. eauto.
  - intros d' [d x] [t ->]. apply Hr.
Qed.
Lemma on_db_stage (R : Db * X → Db * X → Prop) `{!PreOrder R} identity job result level detail tk :
  (∀ t d x, R (d, x) (set_events t d, x)) → (∀ t d x, R (d, x) (set_logs t d, x)) →
  within R (on_db (record_stage secrets identity job result level detail tk)).
Proof.
  intros He Hl [d x] s' r (d' & E & ->)%on_db_run. unfold record_stage in E. unfold_monad_in E.
  destruct (event_append _ _ _ _) as [[ev [e|e]]|]; simplify_eq/=; [|apply He].
  destruct (log_append _ _ _ _ _ _ _ _) as [[lg [l|l]]|]; simplify_eq/=;
    (etrans; [apply He|apply (Hl _ (set_events ev d))]).
Qed.

#[global] Instance noop_leaves_jobs : LeavesJobs (NoopDispatcher (X:=X)).
Proof. constructor. intros. apply within_ret, _. Qed.
#[global] Instance scripted_leaves_jobs : LeavesJobs scripted.
Proof. constructor. intros. apply (within_zoom_frame _ _ _ _). done. Qed.
#[global] Instance provider_leaves_jobs (adapters : list (ProviderAdapter X)) :
  LeavesJobs (ProviderJobDispatcher secrets adapters).
Proof.
  constructor. intros tk job. simpl. unfold provider_dispatch.
  destruct (adapter_for adapters job) as [ad|]; [|apply within_ret, _].
  apply within_bind; [apply _| |intros; apply within_ret, _]. apply within_try.
  intros [d x] [d' x'] r E. unfold keeps. simpl.
  destruct (ProviderOperation_require_approval (operation_for tk ad job) None) as [[]|gate] eqn:Hg.
  - eapply execute_operation_cases in E; [|exact Hg].
    destruct E as (res & red & d1 & _ & _ & Hd1 & Hend).
    assert (db_jobs d1 = db_jobs d) as Hj by (by destruct Hd1 as [->|(row & _ & _ & ->)]).
    destruct Hend as [[-> _]|(t' & _ & _ & -> & _)]; done.
  - eapply denied_operation_cases in E; [|exact Hg].
    by destruct E as (_ & d1 & [= -> ->] & (-> & _) & _).
Qed.
#[global] Instance executable_leaves_jobs availability (D : JobDispatcher X) `{!LeavesJobs D} :
  LeavesJobs (ExecutableDispatcher secrets availability D).
Proof.
  constructor. intros tk job. simpl. unfold executable_dispatch.
  destruct (identity_for_job job); [|apply within_ret, _].
  destruct availability.
  - apply within_bind; [apply _|apply dispatch_jobs|]. intros o.
    destruct o; (apply within_bind; [apply _| |intros; apply within_ret, _]);
      apply within_ignore, on_db_stage; (apply _ || done).
  - apply within_bind; [apply _| |intros; apply within_ret, _].
    apply within_ignore, on_db_stage; (apply _ || done).
Qed.
#[global] Instance unavailable_leaves_jobs reason :
  LeavesJobs (UnavailableDispatcher (X:=X) secrets reason).
Proof.
  constructor. intros tk job. simpl. unfold unavailable_dispatch.
  do 2 (apply within_bind; [apply _|by apply within_ignore, on_db_frame|intros _]).
  apply within_ret, _.
Qed.
End LeavesJobs.

Section WorkerFacts.
Context `{UuidLaws} `{JsonLib} `{!Serde RetryPolicy} `{!SerdeLaws RetryPolicy}.
Context `{!Serde FailureRecord} `{!Serde (list ResourceTransition)}.
Context `{!Serde EventActor} `{!Serde EventResult}.
Context `{Chrono} `{BuildProfile} `{PgTimeLaws}.
Context {X : Type} (self : Worker (X:=X)) `{!LeavesJobs (wk_dispatcher self)}.

(** The jobs move by statements of the queue only. *)
Definition queue_run {S} (f : S → gmap string JobRow) (s s' : S) : Prop :=
  rtc pg_step (f s) (f s').
#[local] Instance queue_run_preorder {S} (f : S → gmap string JobRow) : PreOrder (queue_run f).
Proof. unfold queue_run. split; [intros ?; apply rtc_refl|intros ??? ??; by etrans]. Qed.
Abbreviation jobs_of := (λ w : Db * X, db_jobs w.1).

Lemma jobs_statement {A} (m : M (gmap string JobRow) ControlPlaneError A) (op : PgOp) :
  (∀ t, run_pg_op op t = table_of (m t)) → within (queue_run jobs_of) (jobs_table m).
Proof.
  intros Hop [d x] s' r (d' & E & ->)%on_db_run. unfold queue_run. simpl.
  unfold zoom in E. destruct (m (db_jobs d)) as [[t1 r1]|] eqn:Em; [|done]. simplify_eq/=.
  apply rtc_once. exists op. rewrite Hop, Em. done.
Qed.
Lemma complete_statement id w now : within (queue_run jobs_of) (jobs_table (pg_complete id w now)).
Proof. by apply (jobs_statement _ (PgComplete id w now)). Qed.
Lemma fail_statement id w e now : within (queue_run jobs_of) (jobs_table (pg_fail id w e now)).
Proof. by apply (jobs_statement _ (PgFail id w e now)). Qed.
Lemma claim_statement tk : within (queue_run jobs_of) (claim self tk).
Proof. by apply (jobs_statement _ (PgClaim (tk_visible tk) (wk_id self) (tk_now tk) (wk_lease self))). Qed.
Lemma recover_statement now : within (queue_run jobs_of) (jobs_table (recover_expired_leases now)).
Proof. by apply (jobs_statement _ (PgRecover now)). Qed.

Lemma kept_queue_run {A} (m : M (Db * X) ControlPlaneError A) :
  within (keeps jobs_of) m → within (queue_run jobs_of) m.
Proof. intros Hm s s' r E. unfold queue_run. rewrite (Hm _ _ _ E). apply rtc_refl. Qed.
Lemma worker_event_queue now action result detail tk :
  within (queue_run jobs_of) (worker_event self now action result detail tk).
Proof.
  apply kept_queue_run, within_bind; [apply _|by apply on_db_frame|].
  intros _. apply within_ret, _.
Qed.
Lemma worker_observe_queue id phase now : within (queue_run jobs_of) (worker_observe self id phase now).
Proof.
  apply kept_queue_run, within_bind; [apply _|by apply on_db_frame|].
  intros _. apply within_ret, _.
Qed.
#[local] Hint Resolve complete_statement fail_statement claim_statement recover_statement
  worker_event_queue worker_observe_queue queue_run_preorder : within.

Lemma finalize_queue c tk : within (queue_run jobs_of) (finalize self c tk).
Proof.
  apply within_bind; [apply _|apply kept_queue_run, dispatch_jobs|].
  intros []; auto 10 with within.
Qed.

Abbreviation stats_jobs := (λ s : (Db * X) * WorkerStats, db_jobs s.1.1).
Lemma stats_part_queue {A} (m : M (Db * X) ControlPlaneError A) :
  within (queue_run jobs_of) m → within (queue_run stats_jobs) (stats_part m).
Proof. intros Hm. eapply within_zoom; [exact Hm|]. by intros [d x] [[d' x'] st]. Qed.
Lemma bump_queue f : within (queue_run stats_jobs) (bump (X:=X) f).
Proof. intros s s' r. unfold bump. destruct (f s.2); intros [= <- _]. apply rtc_refl. Qed.
#[local] Hint Resolve finalize_queue stats_part_queue bump_queue : within.

Lemma tick_once_queue tk : within (queue_run stats_jobs) (tick_once self tk).
Proof.
  apply within_bind; [apply _|auto with within|]. intros recovered.
  apply within_bind; [apply _|destruct recovered; auto 10 with within|]. intros _.
  destruct (tk_stopping tk); [auto with within|].
  apply within_bind; [apply _|auto with within|]. intros [c|]; auto 20 with within.
Qed.
Lemma run_passes_queue ticks : within (queue_run stats_jobs) (run_passes self ticks).
Proof.
  induction ticks as [|tk ticks IH]; simpl; [auto with within|].
  apply within_bind; [apply _|apply tick_once_queue|]. intros []; auto with within.
Qed.
Lemma run_queue ticks : within (queue_run stats_jobs) (run self ticks).
Proof.
  induction ticks as [|[stop tk] ticks IH]; simpl; [auto with within|].
  destruct stop; [auto with within|].
  apply within_bind; [apply _|apply tick_once_queue|]. auto.
Qed.

(** Over any number of passes, bounded or until it is stopped, a worker moves the
    queue by statements of the durable queue only, so every table it reaches is
    reachable and the invariants of the queue's machine hold of it. *)
Lemma worker_stays_in_queue_machine ticks sticks d x stats :
  pg_reachable (db_jobs d) →
  (∀ d' x' r, run_bounded self ticks (d, x) = Done ((d', x'), r) → pg_reachable (db_jobs d')) ∧
  (∀ d' x' stats' r, run self sticks ((d, x), stats) = Done ((d', x', stats'), r) →
     pg_reachable (db_jobs d')).
Proof.
  unfold pg_reachable. intros Hd. split.
  - intros d' x' r E. unfold run_bounded in E.
    destruct (run_passes self ticks _) as [[[w stats'] r']|] eqn:Er; [|done].
    apply run_passes_queue in Er. etrans; [exact Hd|]. destruct r'; by simplify_eq/=.
  - intros d' x' stats' r E%run_queue. by etrans.
Qed.

(** ** Counters *)

Definition finished (s : WorkerStats) : Z :=
  st_completed s + st_in_progress s + st_retried s + st_dead_lettered s.

Lemma finalize_outcome c tk s s' o :
  finalize self c tk s = Done (s', Ok o) →
  match o with ToIdle | ToRecovered _ => False | _ => True end.
Proof.
  unfold finalize. intros E. unfold mbind at 1, M_bind at 1 in E.
  destruct (dispatch _ _ _ _) as [[s1 [[]|]]|]; [..|done|done].
  all: unfold mbind, M_bind, mret, M_ret in E; repeat (case_match; simplify_eq/=); done.
Qed.

Lemma add_outcome_balance o st st' :
  (match o with ToIdle | ToRecovered _ => False | _ => True end) →
  finished st < u64_max → 0 ≤ st_completed st → 0 ≤ st_in_progress st → 0 ≤ st_retried st →
  0 ≤ st_dead_lettered st → add_outcome o st = Done st' →
  finished st' = finished st + 1 ∧ st_claimed st' = st_claimed st ∧ st_idle st' = st_idle st ∧
  0 ≤ st_completed st' ∧ 0 ≤ st_in_progress st' ∧ 0 ≤ st_retried st' ∧ 0 ≤ st_dead_lettered st'.
Proof.
  unfold finished. intros Ho Hf ? ? ? ? E.
  destruct o as [| |job []|job n|job]; try done; simpl in E; rewrite add_unsigned_done in E by lia;
    injection E as <-; simpl; lia.
Qed.

(** A pass keeps the claims equal to the attempts that ended, and counts at most
    one claim. *)
Definition balanced (n : Z) (st : WorkerStats) : Prop :=
  st_claimed st = finished st ∧ 0 ≤ st_completed st ∧ 0 ≤ st_in_progress st ∧
  0 ≤ st_retried st ∧ 0 ≤ st_dead_lettered st ∧ st_claimed st ≤ n ∧ st_idle st = 0.

Lemma stats_part_run {A} (m : M (Db * X) ControlPlaneError A) w st s' r :
  stats_part m (w, st) = Done (s', r) → ∃ w', m w = Done (w', r) ∧ s' = (w', st).
Proof. unfold stats_part, zoom. simpl. destruct (m w) as [[]|]; intros [= <- <-]. eauto. Qed.
Lemma bump_run f w st s' r :
  bump (X:=X) f (w, st) = Done (s', r) → ∃ st', f st = Done st' ∧ s' = (w, st') ∧ r = Ok tt.
Proof. unfold bump. simpl. destruct (f st); intros [= <- <-]. eauto. Qed.

Lemma tick_once_balance tk w st w' st' acted n :
  balanced n st → n < u64_max → tick_once self tk (w, st) = Done ((w', st'), Ok acted) →
  if (acted : bool) then balanced (n + 1) st' else
    st_claimed st' = finished st' ∧ st_claimed st' ≤ n ∧ 0 ≤ st_idle st' ≤ 1.
Proof.
  intros Hb Hn (s1 & r1 & E1 & E)%bind_run. apply stats_part_run in E1 as (w1 & _ & ->).
  destruct r1 as [recovered|]; [|by destruct E as [_ ?]].
  apply bind_run in E as ([w2 st2] & r2 & E2 & E).
  assert (balanced n st2) as Hb2.
  { destruct recovered; [by injection E2 as -> -> _|].
    apply bind_run in E2 as (s2 & ? & (st3 & E2 & -> & ->)%bump_run & (w3 & _ & [= -> ->])%stats_part_run).
    unfold add_recovered, mbind, outcome_bind in E2.
    destruct (add_unsigned _ _ _); [|done]. by injection E2 as <-. }
  destruct r2 as [[]|]; [|by destruct E as [_ ?]]. clear Hb E2. unfold balanced in *.
  destruct (tk_stopping tk); [injection E as <- <- <-; lia|].
  apply bind_run in E as (s3 & r3 & (w3 & _ & ->)%stats_part_run & E).
  destruct r3 as [[c|]|]; [..|by destruct E as [_ ?]].
  2: { apply bind_run in E as (s4 & ? & (st4 & E4 & -> & ->)%bump_run & E).
       unfold add_idle in E4. rewrite add_unsigned_done in E4 by (unfold u64_max; lia).
       injection E4 as <-. injection E as <- <- <-. unfold finished in *. simpl. lia. }
  apply bind_run in E as (s4 & r4 & E4 & E). unfold try_result in E4.
  destruct (stats_part (finalize self c tk) (w3, st2)) as [[s5 o]|] eqn:E5; [|done].
  apply stats_part_run in E5 as (w5 & Ef & ->). injection E4 as <- <-.
  apply bind_run in E as (s6 & ? & (st6 & E6 & -> & ->)%bump_run & E).
  unfold add_claimed in E6. rewrite add_unsigned_done in E6 by lia. injection E6 as <-.
  apply bind_run in E as (s7 & r7 & [= <- <-] & E). destruct o as [o|]; [|by destruct E as [_ ?]].
  apply finalize_outcome in Ef.
  apply bind_run in E as (s8 & ? & (st8 & E8 & -> & ->)%bump_run & E). injection E as <- <- <-.
  apply add_outcome_balance in E8; [|done|unfold finished in *; simpl; lia|simpl; lia..].
  unfold finished in *. simpl in *. lia.
Qed.

Lemma run_passes_balance ticks w st w' st' n :
  balanced n st → n + Z.of_nat (length ticks) ≤ u64_max →
  run_passes self ticks (w, st) = Done ((w', st'), Ok tt) →
  st_claimed st' = finished st' ∧ st_claimed st' ≤ n + Z.of_nat (length ticks) ∧
  0 ≤ st_idle st' ≤ 1.
Proof.
  revert w st n. induction ticks as [|tk ticks IH]; intros w st n Hb Hn E; simpl in *.
  { unfold mret, M_ret in E. simplify_eq. unfold balanced in Hb. lia. }
  unfold mbind, M_bind in E.
  destruct (tick_once self tk (w, st)) as [[[w1 st1] [acted|]]|] eqn:Et; [|done|done].
  apply (tick_once_balance _ _ _ _ _ _ n) in Et; [|done|lia].
  destruct acted; [|unfold mret, M_ret in E; simplify_eq/=; lia].
  apply (IH _ _ (n + 1)) in E; [|done|lia]. lia.
Qed.

(** The statistics of a bounded run balance: every claimed job is counted
    exactly once as completed, in progress, retried or dead-lettered, no more jobs
    are claimed than passes were allowed, and at most one pass was idle. *)
Theorem worker_stats_balance ticks d x d' x' stats :
  Z.of_nat (length ticks) ≤ u64_max →
  run_bounded self ticks (d, x) = Done ((d', x'), Ok stats) →
  st_claimed stats = finished stats ∧ st_claimed stats ≤ Z.of_nat (length ticks) ∧
  0 ≤ st_idle stats ≤ 1.
Proof.
  intros Hn E. unfold run_bounded in E.
  destruct (run_passes self ticks _) as [[[w st] [[]|]]|] eqn:Er; [|done|done]. simplify_eq.
  apply (run_passes_balance _ _ _ _ _ 0) in Er; [done|done|done].
Qed.
(** ** A failed attempt *)

(** The row a claim leaves: running under the worker, with the job's policy and
    attempt count. *)
Lemma claim_row tk d x d1 x1 c :
  table_wf (db_jobs d) → claim self tk (d, x) = Done ((d1, x1), Ok (Some c)) →
  ∃ r, held_by (job_id (cj_job c)) (wk_id self) (db_jobs d1) = Some r ∧
    jr_attempts r = job_attempts (cj_job c) ∧ 1 ≤ job_attempts (cj_job c) ∧
    read_policy (jr_policy r) = Ok (job_policy (cj_job c)).
Proof.
  intros Hwf (d' & E & [= -> ->])%on_db_run. unfold zoom in E.
  destruct (pg_claim_next _ _ _ _ _) as [[t1 res]|] eqn:Ec; [|done]. injection E as <- ->.
  apply claim_cases in Ec as [(_ & [=] & _)|[(_ & ? & _ & _ & [=])|Hc]]; [|done].
  destruct Hc as (k & r & j & e & _ & Hk & Hj & _ & _ & _ & _ & Hlt & -> & _ & [= ->]). simpl.
  destruct (row_lookup _ _ _ Hwf Hk) as (j' & Hj' & Hkid & _ & _ & _ & Ha & _).
  assert (j' = j) as -> by congruence.
  destruct (job_from_row_inv _ _ Hj) as (_ & _ & Hpol & _).
  eexists. rewrite held_by_spec, Hkid, lookup_insert_eq. split_and!; try done. simpl. lia.
Qed.

Lemma fail_run id w error now t t' st r j :
  held_by id w t = Some r → read_policy (jr_policy r) = Ok (job_policy j) →
  jr_attempts r = job_attempts j → 1 ≤ job_attempts j →
  pg_fail id w error now t = Done (t', Ok st) →
  ∃ row, t' !! id_fmt id = Some row ∧ jr_last_error row = Some (redact error []) ∧
    lease_owner row = None ∧ jr_status row = status_name st ∧
    if decide (max_attempts (job_policy j) ≤ job_attempts j) then st = Dead
    else st = Queued ∧ ∃ delay next, delay_for (job_policy j) (job_attempts j) = Done delay ∧
      datetime_add now delay = Done next ∧ jr_next_attempt_at row = pg_time next.
Proof.
  intros Hh Hp Ha Hpos E. unfold pg_fail in E. unfold_monad_in E. rewrite Hh in E. simpl in E.
  rewrite Hp in E. simpl in E. rewrite Ha, Z.max_l in E by lia.
  case_decide; [|run_op E]; simplify_eq/=; eexists; rewrite lookup_insert_eq;
    (split; [done|]); rewrite ?Ha; eauto 10.
Qed.

(** When the dispatcher fails a claimed job, the worker releases its
    lease and stores a reason without any of the worker's secrets (those that
    are apart from the marker); the job is dead exactly when the
    attempts it has used up reach its policy's budget, and otherwise waits for
    the backoff its policy gives to that attempt. *)
Theorem failed_attempt_spec tk d x d1 x1 c d2 x2 reason d3 x3 out :
  let j := cj_job c in
  pg_reachable (db_jobs d) →
  claim self tk (d, x) = Done ((d1, x1), Ok (Some c)) →
  dispatch (wk_dispatcher self) tk j (d1, x1) = Done ((d2, x2), Ok (DoFailed reason)) →
  finalize self c tk (d1, x1) = Done ((d3, x3), Ok out) →
  ∃ row text, db_jobs d3 !! id_fmt (job_id j) = Some row ∧ jr_last_error row = Some text ∧
    lease_owner row = None ∧
    (∀ s, s ∈ wk_secrets self → apart s redacted_marker →
       str_contains s text = false) ∧
    if decide (max_attempts (job_policy j) ≤ job_attempts j)
    then jr_status row = "dead" ∧ out = ToDeadLettered (job_id j)
    else jr_status row = "queued" ∧ out = ToRetried (job_id j) (job_attempts j) ∧
      ∃ delay next, delay_for (job_policy j) (job_attempts j) = Done delay ∧
        datetime_add (tk_finalize_at tk) delay = Done next ∧ jr_next_attempt_at row = pg_time next.
Proof.
  intros j Hwf%pg_reachable_wf Hclaim Hdisp (s2 & r2 & E2 & E)%bind_run.
  destruct (claim_row _ _ _ _ _ _ Hwf Hclaim) as (r & Hh & Ha & Hpos & Hpol). fold j in E2.
  rewrite Hdisp in E2. injection E2 as <- <-.
  apply dispatch_jobs in Hdisp. unfold keeps in Hdisp. simpl in Hdisp.
  apply bind_run in E as (s3 & r3 & (d4 & E3 & ->)%on_db_run & E).
  destruct r3 as [st|]; [|by destruct E]. unfold zoom in E3.
  destruct (pg_fail _ _ _ _ _) as [[t' res]|] eqn:Ef; [|done]. injection E3 as <- ->.
  rewrite Hdisp in Ef. eapply fail_run in Ef as (row & Hrow & He & Ho & Hst & Hend); try done.
  apply bind_run in E as (s5 & r5 & E5 & E). destruct r5; [|by destruct E]. injection E as -> <-.
  assert (db_jobs d3 = t') as ->.
  { apply bind_run in E5 as (s6 & r6 & (d6 & E6 & ->)%on_db_run & E5).
    unfold zoom in E6. destruct (event_append _ _ _ _) as [[ev res]|]; [|done].
    injection E6 as <- <-. destruct res; [|by destruct E5]. by injection E5 as <- _. }
  exists row, (redact (redact reason (wk_secrets self)) []). split_and!; try done.
  - intros s Hs Hap. by apply (redact_hides reason (wk_secrets self)).
  - fold j in Hend. case_decide; [by subst|]. destruct Hend as [-> ?]. eauto.
Qed.
(** ** One pass *)

(** The table after the recovery of a pass, and the row of the job it claims. *)
Definition recovered_jobs (now : DateTime) (t : gmap string JobRow) : gmap string JobRow :=
  (λ r, if lease_expired now r then recovered_row now r else r) <$> t.
Definition leased_row (tk : Tick) (expires : DateTime) (r : JobRow) : JobRow :=
  row_update r "running" (jr_attempts r + 1) (jr_next_attempt_at r) (jr_last_error r)
    (Some (wk_id self)) (Some (pg_time expires)) (pg_time (tk_now tk)).
Definition succeeded_row (tk : Tick) (r : JobRow) : JobRow :=
  row_update r "succeeded" (jr_attempts r) (jr_next_attempt_at r) None None None
    (pg_time (tk_finalize_at tk)).
Definition failed_row (status : JobStatus) (next : DateTime) (reason : string) (r : JobRow) : JobRow :=
  row_update r (status_name status) (jr_attempts r) (pg_time next)
    (Some (redact (redact reason (wk_secrets self)) [])) None None (pg_time next).

(** The outcome that reports a phase of a resource. *)
Definition reports (o : DispatchOutcome) (id : ResourceId) (phase : ResourcePhase) : Prop :=
  match o with
  | DoReady id' => id' = id ∧ phase = Ready
  | DoDegraded id' => id' = id ∧ phase = Degraded
  | _ => False
  end.
(** How an attempt ends: from the answer of the dispatcher and the resources it left,
    the resources and the row of the job after the pass.  A reported phase is first
    observed; a job whose observation is refused, or whose dispatch was an error,
    keeps its lease. *)
Inductive settles (tk : Tick) (job : Job) (row : JobRow) :
    result ControlPlaneError DispatchOutcome → gmap string ResourceRow → gmap string ResourceRow →
    JobRow → Prop :=
| SeLost e rs : settles tk job row (Err e) rs rs row
| SeAccepted rs : settles tk job row (Ok DoInProgress) rs rs (succeeded_row tk row)
| SeObserved o id phase rs rs' resource : reports o id phase →
    observe_phase id phase SrcPlatformProbe (Some ("observed by worker " +:+ wk_id self)) (tk_finalize_at tk) rs
      = Done (rs', Ok resource) →
    settles tk job row (Ok o) rs rs' (succeeded_row tk row)
| SeUnobserved o id phase rs rs' e : reports o id phase →
    observe_phase id phase SrcPlatformProbe (Some ("observed by worker " +:+ wk_id self)) (tk_finalize_at tk) rs
      = Done (rs', Err e) →
    settles tk job row (Ok o) rs rs' row
| SeRetried reason rs delay next : job_attempts job < max_attempts (job_policy job) →
    delay_for (job_policy job) (job_attempts job) = Done delay →
    datetime_add (tk_finalize_at tk) delay = Done next →
    settles tk job row (Ok (DoFailed reason)) rs rs (failed_row Queued next reason row)
| SeDead reason rs : max_attempts (job_policy job) ≤ job_attempts job →
    settles tk job row (Ok (DoFailed reason)) rs rs (failed_row Dead (tk_finalize_at tk) reason row).

Lemma event_keeps now action result detail tk d x s' r :
  worker_event self now action result detail tk (d, x) = Done (s', r) →
  db_jobs s'.1 = db_jobs d ∧ db_resources s'.1 = db_resources d ∧ s'.2 = x.
Proof.
  intros (s1 & r1 & (d1 & E1 & ->)%on_db_run & E)%bind_run. unfold zoom in E1.
  destruct (event_append _ _ _ _) as [[ev res]|]; [|done]. injection E1 as <- <-.
  destruct res; [by injection E as <- _|by destruct E as [-> _]].
Qed.
Lemma jobs_table_run {A} (m : M (gmap string JobRow) ControlPlaneError A) d (x : X) s' (r : result ControlPlaneError A) :
  jobs_table m (d, x) = Done (s', r) → ∃ t, m (db_jobs d) = Done (t, r) ∧ s' = (set_jobs t d, x).
Proof.
  intros (d1 & E & ->)%on_db_run. unfold zoom in E. destruct (m (db_jobs d)) as [[t r1]|]; [|done].
  injection E as <- <-. eauto.
Qed.
Lemma event_tail {B} now action result detail tk (b : B) d (x : X) s' r :
  (worker_event self now action result detail tk;; mret b) (d, x) = Done (s', r) →
  db_jobs s'.1 = db_jobs d ∧ db_resources s'.1 = db_resources d ∧ s'.2 = x.
Proof.
  intros (s1 & r1 & E1%event_keeps & E)%bind_run. destruct r1; [by injection E as <- _|by destruct E as [-> _]].
Qed.

(** The row a worker holds for a job while it attempts it. *)
Record holds_job (job : Job) (row : JobRow) (t : gmap string JobRow) : Prop := {
  hj_held : held_by (job_id job) (wk_id self) t = Some row;
  hj_attempts : jr_attempts row = job_attempts job;
  hj_positive : 1 ≤ job_attempts job;
  hj_policy : read_policy (jr_policy row) = Ok (job_policy job);
}.
Lemma complete_held job row tk t :
  holds_job job row t →
  pg_complete (job_id job) (wk_id self) (tk_finalize_at tk) t
    = Done (<[id_fmt (job_id job) := succeeded_row tk row]> t, Ok tt).
Proof. intros [Hh _ _ _]. unfold pg_complete. unfold_monad. by rewrite Hh. Qed.
Lemma completed_tail {B} tk job row action result detail (b : B) d (x : X) s' r :
  holds_job job row (db_jobs d) →
  (jobs_table (pg_complete (job_id job) (wk_id self) (tk_finalize_at tk));;
   worker_event self (tk_finalize_at tk) action result detail tk;; mret b) (d, x) = Done (s', r) →
  db_jobs s'.1 = <[id_fmt (job_id job) := succeeded_row tk row]> (db_jobs d) ∧
  db_resources s'.1 = db_resources d ∧ s'.2 = x.
Proof.
  intros Hh (s1 & r1 & (t & E1 & ->)%jobs_table_run & E)%bind_run.
  rewrite (complete_held _ row) in E1 by done. injection E1 as <- <-. by apply event_tail in E.
Qed.
Lemma fail_held tk job row reason t t' r :
  holds_job job row t →
  pg_fail (job_id job) (wk_id self) (redact reason (wk_secrets self)) (tk_finalize_at tk) t = Done (t', r) →
  ∃ last, t' = <[id_fmt (job_id job) := last]> t ∧ (∃ status, r = Ok status) ∧
    ∀ rs, settles tk job row (Ok (DoFailed reason)) rs rs last.
Proof.
  intros [Hh Ha Hpos Hp] E. unfold pg_fail in E. unfold_monad_in E. rewrite Hh in E. simpl in E.
  rewrite Hp in E. simpl in E. rewrite Ha, Z.max_l in E by lia.
  case_decide as Hm; simpl in E.
  - injection E as <- <-. eexists. split; [done|]. split; [by eexists|]. intros rs.
    pose proof (SeDead tk job row reason rs Hm) as Hs. unfold failed_row in Hs. by rewrite Ha in Hs.
  - destruct (delay_for _ _) as [delay|] eqn:Ed; [|done]. simpl in E.
    destruct (datetime_add _ delay) as [next|] eqn:En; [|done]. injection E as <- <-.
    eexists. split; [done|]. split; [by eexists|]. intros rs.
    pose proof (SeRetried tk job row reason rs delay next ltac:(lia) Ed En) as Hs.
    unfold failed_row in Hs. by rewrite Ha in Hs.
Qed.
Lemma observed_run id phase now d (x : X) s' r :
  worker_observe self id phase now (d, x) = Done (s', r) →
  ∃ rs res, observe_phase id phase SrcPlatformProbe (Some ("observed by worker " +:+ wk_id self)) now (db_resources d)
      = Done (rs, res) ∧ s' = (set_resources rs d, x) ∧
    match res with Ok _ => r = Ok tt | Err e => r = Err e end.
Proof.
  intros (s1 & r1 & (d1 & E1 & ->)%on_db_run & E)%bind_run. unfold resources_table, zoom in E1.
  destruct (observe_phase _ _ _ _ _ _) as [[rs res]|]; [|done]. injection E1 as <- <-.
  exists rs, res. split; [done|]. destruct res; [by injection E as <- <-|by destruct E as [-> ->]].
Qed.

(** From the claim on, an attempt is one dispatch and one closing of the row. *)
Lemma finalize_settles c tk row d x s' r :
  holds_job (cj_job c) row (db_jobs d) → finalize self c tk (d, x) = Done (s', r) →
  ∃ d2 o last, dispatch (wk_dispatcher self) tk (cj_job c) (d, x) = Done ((d2, s'.2), o) ∧
    settles tk (cj_job c) row o (db_resources d2) (db_resources s'.1) last ∧
    db_jobs s'.1 = <[id_fmt (job_id (cj_job c)) := last]> (db_jobs d).
Proof.
  intros Hh ([d2 x2] & o & Ed & E)%bind_run. pose proof (dispatch_jobs _ _ _ _ _ Ed) as Hj.
  unfold keeps in Hj. simpl in Hj. rewrite <- Hj in Hh |- *.
  assert (<[id_fmt (job_id (cj_job c)) := row]> (db_jobs d2) = db_jobs d2) as Hid.
  { apply insert_id. pose proof (hj_held _ _ _ Hh) as Hr. by apply held_by_spec in Hr as [? _]. }
  assert (∀ id phase o' action result detail (b : TickOutcome), reports o' id phase → o = Ok o' →
    (worker_observe self id phase (tk_finalize_at tk);;
     jobs_table (pg_complete (job_id (cj_job c)) (wk_id self) (tk_finalize_at tk));;
     worker_event self (tk_finalize_at tk) action result detail tk;; mret b) (d2, x2) = Done (s', r) →
    ∃ d3 o3 last, dispatch (wk_dispatcher self) tk (cj_job c) (d, x) = Done ((d3, s'.2), o3) ∧
      settles tk (cj_job c) row o3 (db_resources d3) (db_resources s'.1) last ∧
      db_jobs s'.1 = <[id_fmt (job_id (cj_job c)) := last]> (db_jobs d2)) as Hobs.
  { intros id phase o' action result detail b Hrep -> (s1 & r1 & (rs & res & Eo & -> & Hr)%observed_run & E')%bind_run.
    destruct res as [resource|e]; subst r1.
    - eapply completed_tail in E' as (Hj' & Hr' & Hx); [|exact Hh]. exists d2, (Ok o'), (succeeded_row tk row).
      rewrite Hx, Hr', Hj'. split; [done|]. split; [|done]. by eapply SeObserved.
    - destruct E' as [-> _]. exists d2, (Ok o'), row. simpl. rewrite Hid. split; [done|]. split; [|done].
      by eapply SeUnobserved. }
  destruct o as [[id|id| |reason]|e].
  - by eapply (Hobs id Ready (DoReady id)) in E.
  - by eapply (Hobs id Degraded (DoDegraded id)) in E.
  - eapply completed_tail in E as (Hj' & Hr' & Hx); [|exact Hh]. exists d2, (Ok DoInProgress), (succeeded_row tk row).
    rewrite Hx, Hr', Hj'. split; [done|]. split; [|done]. apply SeAccepted.
  - cbv zeta in E. apply bind_run in E as (s1 & r1 & (t & E1 & ->)%jobs_table_run & E).
    apply (fail_held _ _ row) in E1 as (last & -> & [status ->] & Hl); [|done].
    apply event_tail in E as (Hj' & Hr' & Hx). exists d2, (Ok (DoFailed reason)), last.
    rewrite Hx, Hr', Hj'. by split_and!.
  - destruct E as [-> ->]. exists d2, (Err e), row. rewrite Hid. split_and!; [done|apply SeLost|done].
Qed.
(** The recovery of a pass, with its event when there was something to recover. *)
Lemma recovery_run tk d x st s1 r1 :
  table_wf (db_jobs d) →
  stats_part (jobs_table (recover_expired_leases (tk_now tk))) ((d, x), st) = Done (s1, r1) →
  ∃ recovered, r1 = Ok recovered ∧ ∀ s' (r : result ControlPlaneError unit),
    match recovered with
    | [] => mret tt
    | _ :: _ =>
        bump (add_recovered (Z.of_nat (length recovered)));;
        stats_part (worker_event self (tk_now tk) EaReconciled ErAccepted
          ("recovered " +:+ pretty (length recovered) +:+ " expired lease(s)") tk)
    end s1 = Done (s', r) →
    db_jobs s'.1.1 = recovered_jobs (tk_now tk) (db_jobs d) ∧ db_resources s'.1.1 = db_resources d ∧
    s'.1.2 = x ∧ st_claimed s'.2 = st_claimed st ∧ table_wf (db_jobs s'.1.1).
Proof.
  intros Hwf (w1 & (t & E1 & ->)%jobs_table_run & ->)%stats_part_run.
  assert (table_wf t) as Hwf1.
  { apply (pg_step_wf _ _ Hwf). exists (PgRecover (tk_now tk)). unfold run_pg_op, table_of. by rewrite E1. }
  destruct (recover_ok (tk_now tk) _ Hwf) as (ids & Er & _). rewrite Er in E1. injection E1 as <- <-.
  exists ids. split; [done|]. intros s' r E. destruct ids as [|id ids]; [by injection E as <- _|].
  apply bind_run in E as (s2 & r2 & (st2 & E2 & -> & ->)%bump_run & (w3 & E3 & ->)%stats_part_run).
  assert (st_claimed st2 = st_claimed st) as Hc.
  { unfold add_recovered in E2. unfold_monad_in E2. destruct (add_unsigned _ _ _); [|done]. by injection E2 as <-. }
  apply event_keeps in E3 as (Hj & Hr & Hx). simpl in *. rewrite Hj. done.
Qed.

(** What a claim did: nothing, or one due row is leased. *)
Lemma claim_run tk d x s' r :
  table_wf (db_jobs d) → claim self tk (d, x) = Done (s', r) →
  (s' = (set_jobs (db_jobs d) d, x) ∧
     ((r = Ok None ∧ ∀ k row, k ∈ tk_visible tk → db_jobs d !! k = Some row → row_claimable (tk_now tk) row = false) ∨
      ∃ e, r = Err e)) ∨
  ∃ k row expires c, r = Ok (Some c) ∧ k ∈ tk_visible tk ∧ db_jobs d !! k = Some row ∧
    row_claimable (tk_now tk) row = true ∧
    (∀ k' row', k' ∈ tk_visible tk → db_jobs d !! k' = Some row' → row_claimable (tk_now tk) row' = true →
       row_due_le row row' = true) ∧
    datetime_add (tk_now tk) (wk_lease self) = Done expires ∧
    job_from_row (leased_row tk expires row) = Ok (cj_job c) ∧ k = id_fmt (job_id (cj_job c)) ∧
    s' = (set_jobs (<[k := leased_row tk expires row]> (db_jobs d)) d, x) ∧
    holds_job (cj_job c) (leased_row tk expires row) (<[k := leased_row tk expires row]> (db_jobs d)).
Proof.
  intros Hwf (t & E & ->)%jobs_table_run. pose proof E as Ec. apply claim_cases in E; [|done].
  destruct E as [(-> & -> & Hn)|[(-> & row & _ & _ & ->)|Hc]]; [left; eauto..|right].
  destruct Hc as (k & row & j & e & Hv & Hk & Hj & Hq & Hcl & Hmin & He & Hlt & -> & Hj' & ->).
  destruct (row_lookup _ _ _ Hwf Hk) as (j' & Hjr & Hkid & _ & _ & Hatt & Ha & _).
  assert (j' = j) as -> by congruence. destruct (job_from_row_inv _ _ Hj) as (_ & _ & Hpol & _).
  exists k, row, e. eexists. split; [done|]. split_and!; try done.
  split; simpl; [|congruence..|lia|done]. rewrite held_by_spec, <- Hkid, lookup_insert_eq. done.
Qed.

(** Counting the outcome leaves the tables and the claims alone. *)
Lemma counted_tail (o : result ControlPlaneError TickOutcome) (w : Db * X) st s' (r : result ControlPlaneError bool) :
  (outcome ← lift_r o; bump (add_outcome outcome);; mret true) (w, st) = Done (s', r) →
  s'.1 = w ∧ st_claimed s'.2 = st_claimed st.
Proof.
  intros (s1 & r1 & [= <- <-] & E)%bind_run. destruct o as [o|e]; [|by destruct E as [-> _]].
  apply bind_run in E as (s2 & r2 & (st2 & E2 & -> & ->)%bump_run & E). injection E as <- _. split; [done|]. simpl.
  unfold add_outcome in E2. unfold_monad_in E2. repeat (case_match; simplify_eq/=; try done).
Qed.

(** C8: One pass of a worker on a reachable queue recovers the expired leases and
    then either takes no job (it is stopping, no visible job is due, or a statement
    failed), and leaves everything else alone; or claims the oldest visible due job
    under its own lease, dispatches it exactly once while it holds that lease, and
    closes its row by the answer: a reported phase is observed before the job
    succeeds, and a refused observation or a failed dispatch leaves the job leased; an
    accepted job succeeds; a failed one is queued again after its backoff, or dead when
    its budget is spent, with the redacted reason.  No other row changes, the claim is
    counted once, and the resources change by that one observation only. *)
Theorem pass_settles_one_job tk d x st d' x' st' r :
  pg_reachable (db_jobs d) →
  tick_once self tk ((d, x), st) = Done (((d', x'), st'), r) →
  let t1 := recovered_jobs (tk_now tk) (db_jobs d) in
  (db_jobs d' = t1 ∧ db_resources d' = db_resources d ∧ x' = x ∧ st_claimed st' = st_claimed st ∧
   (tk_stopping tk = true ∨
    (∀ k row, k ∈ tk_visible tk → t1 !! k = Some row → row_claimable (tk_now tk) row = false) ∨
    ∃ e, r = Err e)) ∨
  ∃ k row expires job d1 d2 o last,
    tk_stopping tk = false ∧ k ∈ tk_visible tk ∧ t1 !! k = Some row ∧ row_claimable (tk_now tk) row = true ∧
    (∀ k' row', k' ∈ tk_visible tk → t1 !! k' = Some row' → row_claimable (tk_now tk) row' = true →
       row_due_le row row' = true) ∧
    datetime_add (tk_now tk) (wk_lease self) = Done expires ∧
    job_from_row (leased_row tk expires row) = Ok job ∧
    db_jobs d1 = <[k := leased_row tk expires row]> t1 ∧ db_resources d1 = db_resources d ∧
    dispatch (wk_dispatcher self) tk job (d1, x) = Done ((d2, x'), o) ∧
    settles tk job (leased_row tk expires row) o (db_resources d2) (db_resources d') last ∧
    db_jobs d' = <[k := last]> t1 ∧ add_unsigned u64_max (st_claimed st) 1 = Done (st_claimed st').
Proof.
  intros Hwf%pg_reachable_wf (s1 & r1 & E1 & E)%bind_run t1.
  apply recovery_run in E1 as (recovered & -> & Hrec); [|done].
  apply bind_run in E as ([[dr xr] st2] & r2 & E2 & E). apply Hrec in E2 as (Hj & Hrs & Hx & Hc & Hwf1). clear Hrec.
  simpl in *. subst xr. fold t1 in Hj.
  destruct r2 as [[]|e]; [|left; destruct E as [[= -> -> ->] ->]; by eauto 10].
  destruct (tk_stopping tk); [left; injection E as -> -> -> _; by eauto 10|].
  apply bind_run in E as (s3 & r3 & (w3 & Ec & ->)%stats_part_run & E).
  apply claim_run in Ec; [|done]. rewrite Hj in Ec.
  destruct Ec as [[-> Hn]|(k & row & expires & c & -> & Hv & Hk & Hcl & Hmin & He & Hjob & Hkid & -> & Hh)].
  - left. destruct Hn as [[-> Hn]|[e ->]]; [|destruct E as [[= -> -> ->] ->]; by eauto 10].
    apply bind_run in E as (s4 & r4 & (st4 & E4 & -> & ->)%bump_run & E). injection E as <- <- <- _.
    split_and!; [done..| |by eauto]. unfold add_idle in E4. unfold_monad_in E4.
    destruct (add_unsigned _ _ _); [|done]. by injection E4 as <-.
  - right. apply bind_run in E as (s4 & r4 & E4 & E). unfold try_result in E4.
    destruct (stats_part (finalize self c tk) _) as [[s5 o]|] eqn:E5; [|done]. injection E4 as <- <-.
    apply stats_part_run in E5 as ([d5 x5] & Ef & ->). eapply finalize_settles in Ef; [|exact Hh].
    destruct Ef as (d2 & oc & last & Ed & Hs & Hl). simpl in *.
    apply bind_run in E as (s6 & r6 & (st6 & E6 & -> & ->)%bump_run & E).
    assert (add_unsigned u64_max (st_claimed st) 1 = Done (st_claimed st6)) as H6.
    { unfold add_claimed in E6. unfold_monad_in E6. rewrite <- Hc.
      destruct (add_unsigned u64_max (st_claimed st2) 1); [|done]. by injection E6 as <-. }
    apply counted_tail in E as [[= -> ->] Hst].
    exists k, row, expires, (cj_job c), (set_jobs (<[k := leased_row tk expires row]> t1) dr), d2, oc, last. split_and!; try done.
    + by rewrite Hl, <- Hkid, insert_insert_eq.
    + simpl in Hst. by rewrite Hst.
Qed.
End WorkerFacts.

(* ------------------------------------------------------------------ *)
(** * Readiness is observed twice *)

Section Reobserve.
Context `{UuidLaws} `{JsonLib} `{!Serde RetryPolicy}.
Context `{!Serde FailureRecord} `{!Serde (list ResourceTransition)}.
Context `{!SerdeLaws FailureRecord} `{!SerdeLaws (list ResourceTransition)}.
Context `{!SerdeTotal (list ResourceTransition)} `{!SerdeTotal FailureRecord}.
Context `{!Serde EventActor} `{!Serde EventResult} `{!Serde (list string)}.
Context `{Chrono} `{ChronoText} `{SubsecRound} `{BuildProfile} `{PgTime} `{StrLower}.
Context {X : Type} (secrets : list string).
Implicit Types (adapters : list (ProviderAdapter X)).

(** The table is one an observation of that phase leaves behind. *)
Definition observed_at (id : ResourceId) (phase : ResourcePhase) (d : Db) : Prop :=
  ∃ t0 reason at_ res,
    observe_phase id phase SrcProviderCallback reason at_ t0 = Done (db_resources d, res).

(** The provider runtime has itself observed the phase its dispatcher reports. *)
Lemma provider_reobserves adapters tk job d x d1 x1 o id phase :
  provider_dispatch secrets adapters tk job (d, x) = Done ((d1, x1), Ok o) →
  reports o id phase → observed_at id phase d1.
Proof.
  intros E Hrep. unfold provider_dispatch in E.
  destruct (adapter_for adapters job) as [ad|]; [|injection E as <- <- <-; done].
  apply bind_run in E as ([d2 x2] & r2 & Ex & E). unfold try_result in Ex.
  destruct (execute_operation _ _ _ _ _ _ _) as [[s2 res]|] eqn:Eo; [|done].
  injection Ex as -> <-. injection E as -> -> <-.
  destruct res as [red|]; [|done].
  assert (seen_as red phase ∧ id = po_resource_id (operation_for tk ad job)) as [Hseen ->]
    by (destruct red; simpl in Hrep; naive_solver).
  destruct (ProviderOperation_require_approval (operation_for tk ad job) None) as [[]|gate] eqn:Hg.
  - eapply execute_operation_cases in Eo; [|exact Hg].
    destruct Eo as (res & red' & d3 & _ & _ & _ & [[_ [e He]]|(t' & <- & _ & _ & Hobs & Hred)]); [done|].
    rewrite (Hred _ eq_refl) in Hseen. destruct (Hobs _ Hseen) as (reason & res' & Eo).
    unfold observed_at. eauto.
  - eapply denied_operation_cases in Eo; [|exact Hg]. by destruct Eo as [[? ?] _].
Qed.

(** So has the dispatcher around it, which adds an event and a log line. *)
Lemma executable_reobserves availability adapters tk job d x d1 x1 o id phase :
  executable_dispatch secrets availability (ProviderJobDispatcher secrets adapters) tk job (d, x)
    = Done ((d1, x1), Ok o) →
  reports o id phase → observed_at id phase d1.
Proof.
  intros E Hrep. unfold executable_dispatch in E.
  destruct (identity_for_job job); [|injection E as <- <- <-; done].
  destruct availability.
  2: { apply bind_run in E as (s1 & r1 & _ & E). destruct r1; [|by destruct E].
       by injection E as -> <-. }
  apply bind_run in E as ([d2 x2] & r2 & Ed & E). destruct r2 as [o'|]; [|by destruct E].
  assert (o' = o ∧ db_resources d1 = db_resources d2) as [-> Hr].
  { assert (∃ result level detail, (ignore_result (on_db (record_stage secrets a job result level
        detail tk));; mret o') (d2, x2) = Done ((d1, x1), Ok o)) as (result & level & detail & E')
      by (destruct o'; eauto).
    apply bind_run in E' as (s3 & r3 & E3 & E'). destruct r3; [|by destruct E'].
    injection E' as -> <-. split; [done|].
    eapply (within_ignore (keeps (λ w : Db * X, db_resources w.1))) in E3; [exact E3|].
    apply on_db_stage; (apply _ || done). }
  unfold observed_at. rewrite Hr. exact (provider_reobserves adapters _ _ _ _ _ _ _ _ _ Ed Hrep).
Qed.

(** C40: a worker that drives the provider runtime never completes a job whose
    resource became ready or degraded: the runtime records that observation
    itself, the worker's own observation of the same phase is then an illegal
    transition, so the pass fails and the job is left running as it was claimed.
    The resource and the job table are as the dispatch left them. *)
Theorem observed_job_never_completes availability adapters self c tk d x d1 x1 o id phase :
  wk_dispatcher self
    = ExecutableDispatcher secrets availability (ProviderJobDispatcher secrets adapters) →
  dispatch (wk_dispatcher self) tk (cj_job c) (d, x) = Done ((d1, x1), Ok o) →
  reports o id phase →
  (∃ e, finalize self c tk (d, x) = Done ((d1, x1), Err e)) ∧ db_jobs d1 = db_jobs d.
Proof.
  intros Hself Ed Hrep. split.
  - pose proof Ed as Er. rewrite Hself in Er. simpl in Er.
    eapply executable_reobserves in Er as (t0 & reason & at_ & res & Eo); [|exact Hrep].
    unfold finalize. unfold mbind at 1, M_bind at 1. rewrite Ed.
    assert (∃ e, worker_observe self id phase (tk_finalize_at tk) (d1, x1) = Done ((d1, x1), Err e))
      as [e He].
    { destruct (observe_twice id phase SrcProviderCallback SrcPlatformProbe reason
        (Some ("observed by worker " +:+ wk_id self)) at_ (tk_finalize_at tk) _ _ _ Eo) as [e He].
      exists e. unfold worker_observe, mbind, M_bind, on_db, resources_table, zoom. simpl.
      rewrite He. by destruct d1. }
    exists e. destruct o as [id'|id'| |]; simpl in Hrep; try done; destruct Hrep as [-> ->];
      unfold mbind, M_bind; by rewrite He.
  - rewrite Hself in Ed. by apply dispatch_jobs in Ed.
Qed.
End Reobserve.

(* ------------------------------------------------------------------ *)
(** * Examples *)

Module WorkerExamples.
Import RefInstances RefPg RefValues DeliveryExamples.

(** Lower case on the ASCII letters. *)
Definition ascii_lower (c : ascii) : ascii :=
  let n := N_of_ascii c in if decide (65 ≤ n ≤ 90)%N then ascii_of_N (n + 32) else c.
Fixpoint lower (s : string) : string :=
  match s with ""%string => ""%string | String.String c s' => String.String (ascii_lower c) (lower s') end.
#[local] Instance ref_lower : StrLower := { to_lowercase := lower }.

Definition sec (n : Z) : DateTime := n * nanos_per_sec.
Definition job1 : JobId := mkId (uuid 1).
Definition twice : RetryPolicy :=
  {| max_attempts := 2; base_delay := nanos_per_sec; factor := 2; max_delay := None |}.
Definition tick_at (n : Z) : Tick :=
  {| tk_now := sec n; tk_finalize_at := sec (n + 1); tk_dispatch_at := sec n; tk_log_at := sec n;
     tk_rand := rnd0; tk_resource := mkId (uuid 40); tk_application := mkId (uuid 41);
     tk_visible := [id_fmt job1]; tk_stopping := false |}.
Definition generic : ProviderAdapter LocalTestAdapter := LocalTestAdapter_new "local-test" PkGeneric.
Definition self : Worker (X:=LocalTestAdapter) :=
  mkWorker (ExecutableDispatcher ["k1"] (RaAvailable "27") (ProviderJobDispatcher ["k1"] [generic]))
    "w1" (sec 30) ["k1"].

(** A provisioning bucket and one job for it. *)
Definition enqueue1 : PgOp := PgEnqueue job1 (id_fmt bucket_id) JProvision 1 twice (sec 0).
Definition queued : gmap string JobRow := done_or ∅ (run_pg_op enqueue1 ∅).
Definition bucket : Resource :=
  match Resource_request bucket_id "bucket" 1 (sec 0) with
  | Ok r => r
  | Err _ => mkResource bucket_id "" 0 Requested 0 None []
  end.
Definition requested : gmap string ResourceRow :=
  (done_or (∅, Ok tt) (resource_save bucket (mkId (uuid 41)) None (sec 0) (λ _, true) (λ _, true) ∅)).1.
Definition buckets : gmap string ResourceRow :=
  (done_or (∅, Ok bucket)
     (observe_phase bucket_id Provisioning SrcPlatformProbe None (sec 0) requested)).1.
Definition db0 : Db := set_resources buckets (set_jobs queued empty_db).
Definition world (steps : list ProviderExecution) : Db * LocalTestAdapter :=
  (db0, with_steps steps (mkTestAdapter [] [])).
Lemma queued_reachable : pg_reachable (db_jobs db0).
Proof. apply rtc_once. exists enqueue1. apply is_done_eq. vm_compute. reflexivity. Qed.

Definition bounded := run_bounded self [tick_at 1; tick_at 2] (db0, (world []).2).
Definition idle_run : (Db * LocalTestAdapter) * result ControlPlaneError WorkerStats :=
  (world [], Ok WorkerStats_default).
Definition after_run : Db * LocalTestAdapter := (done_or idle_run bounded).1.
Definition counted : WorkerStats :=
  match (done_or idle_run bounded).2 with Ok st => st | Err _ => WorkerStats_default end.
Lemma bounded_eq : bounded = Done ((after_run.1, after_run.2), Ok counted).
Proof. rewrite <- surjective_pairing. apply is_done_pair; vm_compute; reflexivity. Qed.

(** One pass: the job is accepted and its row succeeds. *)
Definition one_pass := tick_once self (tick_at 1) ((db0, (world []).2), WorkerStats_default).
Definition no_pass : ((Db * LocalTestAdapter) * WorkerStats) * result ControlPlaneError bool :=
  ((world [], WorkerStats_default), Ok false).
Definition after_pass := (done_or no_pass one_pass).1.
Lemma one_pass_eq : one_pass = Done (((after_pass.1.1, after_pass.1.2), after_pass.2), Ok true).
Proof. rewrite <- !surjective_pairing. apply is_done_pair; vm_compute; reflexivity. Qed.
Lemma pass_settles_one_job_witness :
  pg_reachable (db_jobs db0) ∧ one_pass = Done (((after_pass.1.1, after_pass.1.2), after_pass.2), Ok true) ∧
  ∃ row expires job d1 d2 o last,
    dispatch (wk_dispatcher self) (tick_at 1) job (d1, (world []).2) = Done ((d2, after_pass.1.2), o) ∧
    settles self (tick_at 1) job (leased_row self (tick_at 1) expires row) o (db_resources d2)
      (db_resources after_pass.1.1) last ∧
    db_jobs after_pass.1.1 = <[id_fmt job1 := last]> (recovered_jobs (sec 1) (db_jobs db0)).
Proof.
  split; [exact queued_reachable|]. split; [exact one_pass_eq|].
  pose proof one_pass_eq as E. unfold one_pass in E.
  destruct (pass_settles_one_job self (tick_at 1) db0 (world []).2 WorkerStats_default after_pass.1.1
    after_pass.1.2 after_pass.2 (Ok true) queued_reachable E) as [(_ & _ & _ & Hc & _)|(k & row & expires & job & d1 & d2 & o & last & Hp)].
  - exfalso. assert (st_claimed after_pass.2 = 1) as H1 by (vm_compute; reflexivity). rewrite H1 in Hc. discriminate Hc.
  - destruct Hp as (_ & Hv & _ & _ & _ & _ & _ & _ & _ & Hd & Hs & Hj & _).
    apply list_elem_of_singleton in Hv. subst k. exists row, expires, job, d1, d2, o, last. exact (conj Hd (conj Hs Hj)).
Defined.
(** The job was accepted in the first pass; the second was idle. *)
Lemma worker_stats_balance_witness :
  counted = mkStats 0 1 0 1 0 0 1 ∧ st_claimed counted = finished counted.
Proof.
  split; [vm_compute; reflexivity|].
  refine (proj1 (worker_stats_balance self [tick_at 1; tick_at 2] db0 (world []).2 _ _ counted _ bounded_eq)).
  vm_compute. discriminate.
Defined.

(** What a pass does after its claim, step by step. *)
Definition no_claim : (Db * LocalTestAdapter) * result ControlPlaneError (option ClaimedJob) :=
  (world [], Ok None).
Definition after_claim (steps : list ProviderExecution) : Db * LocalTestAdapter :=
  (done_or no_claim (claim self (tick_at 1) (db0, (world steps).2))).1.
Definition claimed (steps : list ProviderExecution) : ClaimedJob :=
  match (done_or no_claim (claim self (tick_at 1) (db0, (world steps).2))).2 with
  | Ok (Some c) => c
  | _ => {| cj_job := mkJob job1 "" JVerify "" Dead 0 twice 0 None 0 0; cj_lease_owner := "";
            cj_lease_expires_at := 0 |}
  end.
Definition dispatched steps :=
  dispatch (wk_dispatcher self) (tick_at 1) (cj_job (claimed steps))
    ((after_claim steps).1, (after_claim steps).2).
Definition no_dispatch : (Db * LocalTestAdapter) * result ControlPlaneError DispatchOutcome :=
  (world [], Ok DoInProgress).
Definition finalized steps :=
  finalize self (claimed steps) (tick_at 1) ((after_claim steps).1, (after_claim steps).2).
Definition no_final : (Db * LocalTestAdapter) * result ControlPlaneError TickOutcome :=
  (world [], Ok ToIdle).

Definition refused : list ProviderExecution := [PxFailed "quota for k1 exceeded" "wait"].
Lemma failed_attempt_spec_witness :
  ∃ d3 x3, finalized refused = Done ((d3, x3), Ok (ToRetried job1 1)) ∧
  ∃ row text, db_jobs d3 !! id_fmt job1 = Some row ∧ jr_last_error row = Some text ∧
    str_contains "k1" text = false.
Proof.
  set (s1 := after_claim refused). set (s2 := (done_or no_dispatch (dispatched refused)).1).
  set (s3 := (done_or no_final (finalized refused)).1).
  assert (claim self (tick_at 1) (db0, (world refused).2)
          = Done ((s1.1, s1.2), Ok (Some (claimed refused)))) as E1.
  { rewrite <- surjective_pairing. apply is_done_pair; vm_compute; reflexivity. }
  assert (dispatched refused = Done ((s2.1, s2.2), Ok (DoFailed "quota for [redacted] exceeded"))) as E2.
  { rewrite <- surjective_pairing. apply is_done_pair; vm_compute; reflexivity. }
  assert (finalized refused = Done ((s3.1, s3.2), Ok (ToRetried job1 1))) as E3.
  { rewrite <- surjective_pairing. apply is_done_pair; vm_compute; reflexivity. }
  exists s3.1, s3.2. split; [exact E3|].
  unfold finalized in E3. unfold dispatched in E2. fold s1 in E2, E3.
  destruct (failed_attempt_spec self (tick_at 1) db0 (world refused).2 s1.1 s1.2 (claimed refused)
              s2.1 s2.2 _ s3.1 s3.2 _ queued_reachable E1 E2 E3)
    as (row & text & Hrow & Htext & _ & Hclean & _).
  exists row, text. split; [|split; [exact Htext|]].
  - replace job1 with (job_id (cj_job (claimed refused))) by (vm_compute; reflexivity). exact Hrow.
  - apply Hclean; [apply (bool_decide_unpack _); vm_compute; exact I|].
    apply (bool_decide_unpack _). vm_compute. exact I.
Defined.

(** The bucket becomes ready, and the pass fails. *)
Definition becomes_ready : list ProviderExecution := [PxReady "up"].
Lemma observed_job_never_completes_witness :
  ∃ d1 x1, dispatched becomes_ready = Done ((d1, x1), Ok (DoReady bucket_id)) ∧
    ∃ e, finalized becomes_ready = Done ((d1, x1), Err e).
Proof.
  set (s1 := after_claim becomes_ready). set (s2 := (done_or no_dispatch (dispatched becomes_ready)).1).
  assert (dispatched becomes_ready = Done ((s2.1, s2.2), Ok (DoReady bucket_id))) as E.
  { rewrite <- surjective_pairing. apply is_done_pair; vm_compute; reflexivity. }
  exists s2.1, s2.2. split; [exact E|]. unfold dispatched in E. unfold finalized. fold s1 in E |- *.
  exact (proj1 (observed_job_never_completes ["k1"] (RaAvailable "27") [generic] self
    (claimed becomes_ready) (tick_at 1) s1.1 s1.2 s2.1 s2.2 (DoReady bucket_id) bucket_id Ready eq_refl E
    (conj eq_refl eq_refl))).
Defined.
End WorkerExamples.
