(* ===== verification/Api.v ===== *)
(** The HTTP API (api.rs of labrys-control-plane): authentication and actor scope
    of a request, replay of recorded responses, the mutating commands that enqueue
    jobs, and the reads.  Sockets, TLS and the extraction of request bodies are the
    web framework's. *)

From stdpp Require Import base option list strings pretty gmap sorting.
From Stdlib Require Import ZArith Lia Ascii.
From S2P Require Import Prelude External Errors CpErrors Ids Resource Jobs Runtime Approval Snapshot Deployment.
From S2P Require Import Capability Application Agent Events AuditChain Verifier Json Plugin Surfaces.
From S2P Require Import Auth Config DurableJobs ResourceStore CpStores Repos Containers.
Local Open Scope Z_scope.

(* ------------------------------------------------------------------ *)
(** * Index assignment *)

(** [value[key] = v] of serde_json: an object gets the binding, null becomes an
    object first, and any other value panics. *)
Class JsonIndex `{JsonOps} := { json_set : string → Json → Json → outcome Json }.
Class JsonIndexLaws `{JsonIndex} : Prop := {
  json_set_object k v l : ∃ j, json_set k v (json_object l) = Done j;
  json_set_null k v : ∃ j, json_set k v json_null = Done j;
  json_get_set k k' v j j' : json_set k v j = Done j' →
    json_get k' j' = if decide (k' = k) then Some v else json_get k' j;
  json_exact_bool b : json_exact (json_bool b);
  json_exact_null : json_exact json_null;
  json_exact_array l : Forall json_exact l → json_exact (json_array l);
}.

(* ------------------------------------------------------------------ *)
(** * Configuration *)

Definition API_VERSION : Z := 1.
Record ApiConfig := mkApiConfig {
  ac_tokens : TokenStore;
  ac_ip : IpAddr;
  ac_shown : string;
  ac_tls : option TlsConfig;
  allow_plain_http : bool;
  rate_limit_per_minute : Z;
}.
Definition ApiConfig_validate (is_file : string → bool) (self : ApiConfig) : result ControlPlaneError unit :=
  if TokenStore_is_empty (ac_tokens self) then Err (CpConfig "API token is required (LABRYS_API_TOKEN)")
  else _ ← bind_policy is_file (ac_ip self) (ac_shown self) (ac_tls self) (allow_plain_http self); Ok tt.
(** [parse_addr] is [SocketAddr::from_str]: the address and its printed form. *)
Definition ApiConfig_from_lookup `{Crypto} `{ChronoParse} (parse_addr : string → option (IpAddr * string))
    (is_file : string → bool) (read_file : string → result string string)
    (lookup : string → option string) : result ControlPlaneError ApiConfig :=
  addr ← match lookup "LABRYS_API_ADDR" with
         | None => Ok (IpV4 (127 * 2 ^ 24 + 1), "127.0.0.1:8080")
         | Some raw => ok_or (CpConfig ("LABRYS_API_ADDR is not a socket address: " +:+ raw)) (parse_addr raw)
         end;
  tls ← match lookup "LABRYS_TLS_CERT_FILE", lookup "LABRYS_TLS_KEY_FILE" with
        | None, None => Ok None
        | Some cert, Some key => Ok (Some {| cert_file := trim cert; key_file := trim key |})
        | _, _ => Err (CpConfig "TLS needs both LABRYS_TLS_CERT_FILE and LABRYS_TLS_KEY_FILE; set both or neither, then retry")
        end;
  let plain := match lookup "LABRYS_ALLOW_PLAIN_HTTP" with
    | Some v => bool_decide (v = "1") || eq_ignore_ascii_case v "true"
    | None => false
    end in
  limit ← match lookup "LABRYS_API_RATE_LIMIT_PER_MINUTE" with
          | None => Ok DEFAULT_RATE_LIMIT_PER_MINUTE
          | Some raw =>
              ok_or (CpConfig ("LABRYS_API_RATE_LIMIT_PER_MINUTE must be a positive integer, got '" +:+ raw +:+ "'"))
                (parse_int 0 u32_max raw)
          end;
  tokens ← TokenStore_from_lookup read_file lookup;
  let config := mkApiConfig tokens addr.1 addr.2 tls plain limit in
  _ ← ApiConfig_validate is_file config;
  Ok config.
Definition auth_summary (self : ApiConfig) : string :=
  match bootstrap_warning (ac_tokens self) with
  | Some warning => "api auth: WARNING — " +:+ warning
  | None => "api auth: " +:+ pretty (Z.of_nat (TokenStore_len (ac_tokens self))) +:+ " scoped token(s) ("
            +:+ String.concat ", " (token_ids (ac_tokens self)) +:+ ")"
  end.

(* ------------------------------------------------------------------ *)
(** * Requests, state and failures *)

(** The text of the first value of a header, when it has one. *)
Definition Headers : Type := string → option string.
Definition header_text (name : string) (headers : Headers) : option string :=
  s ← headers name; if trim_is_empty s then None else Some s.

Record ActorContext := mkContext {
  cx_actor : CliActor;
  cx_trace_id : string;
  cx_idempotency_key : option string;
}.
Definition event_actor `{UuidLib} (self : ActorContext) : EventActor :=
  match cx_actor self with
  | CaHuman name => ActHuman name
  | CaPlatform name => ActPlatform name
  | CaAgent session name =>
      match AgentSessionId_from_str session with
      | Ok session_id => ActAgent session_id name
      | Err _ => ActPlatform ("agent:" +:+ name)
      end
  end.
Definition context_correlation (self : ActorContext) : Correlation := Correlation_new (cx_trace_id self).

(** What one request reads from the clock and draws at random. *)
Record Reading := {
  rd_trace : Uuid;
  rd_auth : DateTime;
  rd_denied : DateTime;
  rd_now : DateTime;
  rd_created : DateTime;
  rd_observed : DateTime;
  rd_loaded : DateTime;
  rd_stored : DateTime;
  rd_application : ApplicationId;
  rd_development : EnvironmentId;
  rd_production : EnvironmentId;
  rd_job : JobId;
  rd_draws : Draws;
}.

Section State.
Context `{JsonLib}.
Record ReplayRow := mkReplay {
  rp_key : string;
  rp_command : string;
  rp_response : Json;
  rp_created_at : DateTime;
}.
(** The tables behind the pool, and the shared plugin registry, tokens and rate
    limiter. *)
Record ApiState := mkApi {
  as_db : AppDb;
  as_jobs : gmap string JobRow;
  as_logs : Serial LogRow;
  as_evidence : gmap string EvidenceRow;
  as_replays : gmap string ReplayRow;
  as_plugins : PluginRegistry;
  as_tokens : TokenStore;
  as_limiter : RateLimiter;
}.
Definition set_db t (s : ApiState) : ApiState :=
  mkApi t (as_jobs s) (as_logs s) (as_evidence s) (as_replays s) (as_plugins s) (as_tokens s) (as_limiter s).
Definition set_api_jobs t (s : ApiState) : ApiState :=
  mkApi (as_db s) t (as_logs s) (as_evidence s) (as_replays s) (as_plugins s) (as_tokens s) (as_limiter s).
Definition set_replays t (s : ApiState) : ApiState :=
  mkApi (as_db s) (as_jobs s) (as_logs s) (as_evidence s) t (as_plugins s) (as_tokens s) (as_limiter s).
Definition set_plugins t (s : ApiState) : ApiState :=
  mkApi (as_db s) (as_jobs s) (as_logs s) (as_evidence s) (as_replays s) t (as_tokens s) (as_limiter s).
Definition set_limiter t (s : ApiState) : ApiState :=
  mkApi (as_db s) (as_jobs s) (as_logs s) (as_evidence s) (as_replays s) (as_plugins s) (as_tokens s) t.
End State.

Record ApiError := mkApiError {
  ae_status : Z;
  ae_code : string;
  ae_message : string;
  ae_recovery : string;
  ae_trace_id : string;
}.
Definition unauthorized (trace_id : string) : ApiError :=
  mkApiError 401 "api.unauthorized" "missing or invalid API token"
    "set LABRYS_API_TOKEN (server) and pass --token <token> or Authorization: Bearer <token>" trace_id.
Definition forbidden (trace_id message recovery : string) : ApiError :=
  mkApiError 403 "api.forbidden" message recovery trace_id.
Definition rate_limited (trace_id : string) (retry_after_secs : Z) : ApiError :=
  mkApiError 429 "api.rate_limited" "request rate exceeded for this client"
    ("back off and retry after " +:+ pretty retry_after_secs
     +:+ "s; operators raise LABRYS_API_RATE_LIMIT_PER_MINUTE for bulk callers") trace_id.
Definition not_found (trace_id message recovery : string) : ApiError :=
  mkApiError 404 "api.not_found" message recovery trace_id.
Definition unprocessable (trace_id message recovery : string) : ApiError :=
  mkApiError 422 "api.unprocessable" message recovery trace_id.
Definition internal (ctx : ActorContext) (err : ControlPlaneError) : ApiError :=
  mkApiError 500 "api.internal" (redact (ControlPlaneError_fmt err) [])
    "retry the request; if it persists, inspect control-plane logs with the trace id" (cx_trace_id ctx).

(** [splitn(3, ':')]. *)
Definition parse_actor (raw : string) : option CliActor :=
  match split_once ":" raw with
  | None => None
  | Some (kind, rest) =>
      match split_once ":" rest with
      | None =>
          if bool_decide (kind = "human") && negb (trim_is_empty rest) then Some (CaHuman rest)
          else if bool_decide (kind = "platform") && negb (trim_is_empty rest) then Some (CaPlatform rest)
          else None
      | Some (session, name) =>
          if bool_decide (kind = "agent") && negb (trim_is_empty session) && negb (trim_is_empty name)
          then Some (CaAgent session name) else None
      end
  end.

Definition dq : string := String (ascii_of_nat 34) "".

Record ImportBody := { ib_name : option string; ib_path : option string }.
Record ApprovalBody := { ab_approver : string }.
Record MutationBody := mkBody {
  mb_environment : option string;
  mb_approval : option ApprovalBody;
  mb_capability : option string;
  mb_target : option string;
  mb_prompt : option string;
  mb_session_id : option string;
  mb_revision_sha : option string;
}.
Record PageQuery := {
  pq_limit : option Z;
  pq_offset : option Z;
  pq_source : option string;
  pq_environment : option string;
}.
Record NegotiateBody := { nb_protocol_version : Z; nb_backend : option string }.
Record HandshakeBody := { hb_manifest : PluginManifest }.
Definition clamp_page (query : PageQuery) : Z * Z :=
  (Z.min (Z.max (default 50 (pq_limit query)) 1) 500, Z.max (default 0 (pq_offset query)) 0).

(* ------------------------------------------------------------------ *)
(** * Gate, envelopes and replays *)

Section Handlers.
Context `{UuidLib} `{JsonIndex} `{PgTime} `{ChronoText} `{SubsecRound} `{BuildProfile} `{Chrono}.
Context `{Crypto} `{StrDebug}.
Context `{!Serde Origin} `{!Serde (list string)} `{!Serde LifecycleCollections}.
Context `{!Serde EnvironmentKind} `{!Serde EnvironmentRefs} `{!Serde (gmap string Json)}.
Context `{!Serde Json} `{!Serde EventActor} `{!Serde EventResult} `{!Serde EventResource}.
Context `{!Serde BoundCapability} `{!Serde Deployment} `{!Serde RetryPolicy}.
Context `{!Serde FailureRecord} `{!Serde (list ResourceTransition)}.
(** Rows of one capability come in the order [scan] of their table. *)
Context (secrets : list string) (scan : gmap string CapabilityRow → list CapabilityRow).
Abbreviation Handler A := (M ApiState ApiError A).
Abbreviation Call A := (M ApiState ControlPlaneError A).

Definition trace_of (rd : Reading) (headers : Headers) : string :=
  default ("trace-" +:+ uuid_simple (rd_trace rd)) (header_text "x-trace-id" headers).
Definition idempotency_of (headers : Headers) : option string := header_text "idempotency-key" headers.

Definition audit_auth_denial (rd : Reading) (target detail : string) : Handler unit :=
  ignore_result (zoom as_db set_db (zoom t_audit set_audit_log
    (append_audit (rd_denied rd) "platform:api-gate" "auth.rejected" target detail secrets))).
Definition deny_reason_name (r : AuthDenyReason) : string :=
  match r with AdExpired => "expired" | AdRevoked => "revoked" | AdUnknown => "unknown" end.
Definition scope_name (s : TokenScope) : string :=
  match s with TsHuman => "human" | TsAgent => "agent" end.
Definition bearer_of (headers : Headers) : string :=
  default "" (v ← headers "authorization"; strip_prefix "Bearer " v).
Definition authorized (rd : Reading) (headers : Headers) (trace_id target : string) : Handler ActorContext :=
  let bearer := bearer_of headers in
  s ← get;
  match authenticate bearer (rd_auth rd) (as_tokens s) with
  | Err denial =>
      let reference := match ad_known_id denial with
        | Some id => "token '" +:+ id +:+ "'"
        | None => "unknown token (" +:+ token_fingerprint bearer +:+ ")"
        end in
      audit_auth_denial rd target
        ("auth rejected: " +:+ deny_reason_name (ad_reason denial) +:+ " bearer for " +:+ reference);;
      mthrow (unauthorized trace_id)
  | Ok authenticated =>
      match parse_actor (default "" (headers "x-labryst-actor")) with
      | None =>
          mthrow (mkApiError 400 "api.actor_required" "missing or malformed actor identity"
                    "pass x-labryst-actor: human:<name> or agent:<session>:<name>" trace_id)
      | Some actor =>
          if negb (scope_allows (at_scope authenticated) actor) then
            audit_auth_denial rd target
              ("auth rejected: " +:+ scope_name (at_scope authenticated) +:+ "-scoped token '"
               +:+ at_id authenticated +:+ "' cannot claim a " +:+ actor_label actor +:+ " actor");;
            mthrow (forbidden trace_id
              ("token '" +:+ at_id authenticated +:+ "' is not scoped for a " +:+ actor_label actor +:+ " actor")
              "use a token whose scope matches the actor, or have a human operator approve and run human-only lifecycle mutations")
          else mret (mkContext actor trace_id (idempotency_of headers))
      end
  end.

Definition versions_value : Json :=
  json_object [("api", json_u64 API_VERSION); ("agent", json_u64 AGENT_PROTOCOL_VERSION);
               ("plugin", json_u64 PLUGIN_PROTOCOL_VERSION)].
Definition ApiError_body (self : ApiError) : Json :=
  json_object [("ok", json_bool false); ("replayed", json_bool false);
    ("correlation", json_object [("trace_id", json_str (ae_trace_id self))]);
    ("code", json_str (ae_code self)); ("message", json_str (ae_message self));
    ("recovery", json_str (ae_recovery self)); ("versions", versions_value)].
(** The debug names are ASCII, where Unicode and ASCII lower case agree. *)
Definition job_value (job : Job) : Json :=
  json_object [("id", json_str (id_fmt (job_id job))); ("target", json_str (job_target job));
    ("action", json_str (JobAction_as_str (job_action job)));
    ("status", json_str (to_ascii_lowercase (JobStatus_debug (job_status job))));
    ("attempts", json_u64 (job_attempts job)); ("idempotency_key", json_str (job_key job))].
Definition envelope (command : string) (ctx : ActorContext) (replayed : bool) (resource data : option Json)
    (job : option Job) (recovery : option string) : Json :=
  json_object [("ok", json_bool true); ("replayed", json_bool replayed); ("command", json_str command);
    ("correlation", json_object [("trace_id", json_str (cx_trace_id ctx))]);
    ("resource", json_option resource); ("data", json_option data);
    ("job", json_option (job_value <$> job)); ("recovery", json_option (json_str <$> recovery));
    ("versions", versions_value)].
Definition kind_id (kind id : string) : Json := json_object [("kind", json_str kind); ("id", json_str id)].

Definition check_replay (key : option string) : Call (option Json) :=
  match key with
  | None => mret None
  | Some key =>
      s ← get;
      match as_replays s !! key with
      | None => mret None
      | Some row => response ← lift_o (json_set "replayed" (json_bool true) (rp_response row)); mret (Some response)
      end
  end.
Definition store_replay (rd : Reading) (key command : string) (response : Json) : Call unit :=
  detail ← lift_r (redact_guard "idempotency_records.response" (json_print response) secrets);
  let response := default json_null (json_parse detail) in
  s ← get;
  match as_replays s !! key with
  | Some _ => mret tt
  | None => put (set_replays (<[key := mkReplay key command response (pg_time (rd_stored rd))]> (as_replays s)) s)
  end.
Definition api_enqueue (rd : Reading) (target : string) (action : JobAction) (at_ : DateTime) : Call (Job * bool) :=
  policy ← lift_o RetryPolicy_default;
  outcome ← zoom as_jobs set_api_jobs (pg_enqueue (rd_job rd) target action 1 policy at_);
  s ← get;
  match outcome with
  | Enqueued id => job ← lift_r (pg_get id (as_jobs s)); mret (job, false)
  | Duplicate id => job ← lift_r (pg_get id (as_jobs s)); mret (job, true)
  end.
Definition api_draft (ctx : ActorContext) (action : EventAction) (result : EventResult)
    (kind id detail : string) (at_ : DateTime) : EventDraft :=
  mkDraft at_ (event_actor ctx) (context_correlation ctx) action (Some (EventResource_new kind id)) None
    (Some detail) result.
Definition api_record_event (rd : Reading) (ctx : ActorContext) (action : EventAction) (result : EventResult)
    (kind id detail : string) (at_ : DateTime) : Call unit :=
  _ ← zoom as_db set_db (zoom t_events set_events
        (event_append (rd_draws rd) (api_draft ctx action result kind id detail at_) secrets));
  mret tt.

Definition forbid_agent (ctx : ActorContext) (command : string) : option ApiError :=
  if is_agent (cx_actor ctx) then
    Some (forbidden (cx_trace_id ctx) ("an agent session may not run '" +:+ command +:+ "'")
            "a human operator must run this command; agents may request approval first")
  else None.
Definition require_human (ctx : ActorContext) (command : string) : option ApiError :=
  if negb (is_human (cx_actor ctx)) then
    Some (forbidden (cx_trace_id ctx) ("'" +:+ command +:+ "' is a human-only operation")
            "a named human must issue this command with --approve-by <name>")
  else None.
Definition require_idempotency (ctx : ActorContext) (command : string) : result ApiError string :=
  ok_or (mkApiError 400 "api.idempotency_required"
           ("'" +:+ command +:+ "' changes platform state and needs an idempotency key")
           "re-send with an Idempotency-Key header so a retry is safe" (cx_trace_id ctx))
    (cx_idempotency_key ctx).
Definition unregistered (ctx : ActorContext) (raw : string) : ApiError :=
  not_found (cx_trace_id ctx) ("application '" +:+ raw +:+ "' is not registered")
    "run `labrys import` to register this project, then `labrys inspect`".
Definition load_app (rd : Reading) (ctx : ActorContext) (raw : string) : Handler Application :=
  match ApplicationId_from_str raw with
  | Err _ => mthrow (unregistered ctx raw)
  | Ok id =>
      s ← get;
      match application_get (rd_loaded rd) id (as_db s) with
      | Err _ => mthrow (unregistered ctx raw)
      | Ok app => mret app
      end
  end.
Definition environment_id_of (app : Application) (name : string) : option EnvironmentId :=
  env_id <$> List.find (λ e, bool_decide (env_name e = name)) (app_environments app).

(* ------------------------------------------------------------------ *)
(** * Mutating commands *)

Definition refuse (e : option ApiError) : Handler unit :=
  match e with Some err => mthrow err | None => mret tt end.
(** The recorded response, or else the command. *)
Definition unless_replayed (ctx : ActorContext) (key : string) (command : Handler Json) : Handler Json :=
  replayed ← map_err (internal ctx) (check_replay (Some key));
  match replayed with Some response => mret response | None => command end.
(** How an accepted command other than an import ends: the job, the event, the
    response and its record. *)
Definition accept (rd : Reading) (ctx : ActorContext) (key command target : string) (action : JobAction)
    (event : EventAction) (kind id detail : string) (resource data : Json) (recovery : string) : Handler Json :=
  job ← map_err (internal ctx) (api_enqueue rd target action (rd_now rd));
  map_err (internal ctx) (api_record_event rd ctx event ErAccepted kind id detail (rd_now rd));;
  let response := envelope command ctx false (Some resource) (Some data) (Some job.1) (Some recovery) in
  map_err (internal ctx) (store_replay rd key command response);;
  mret response.

Definition import_command (rd : Reading) (body : ImportBody) (ctx : ActorContext) (key : string) : Handler Json :=
  let name := default "imported-app" (ib_name body) in
  let path := default "." (ib_path body) in
  let app := Application_new (rd_application rd) (rd_development rd) (rd_production rd)
    (rd_created rd) (rd_observed rd) name (OImportedLocal path) (actor_label (cx_actor ctx)) in
  map_err (internal ctx) (zoom as_db set_db (application_save app));;
  job ← map_err (internal ctx) (api_enqueue rd (id_fmt (app_id app)) JProvision (rd_now rd));
  map_err (internal ctx) (api_record_event rd ctx EaResourceProvisioned ErAccepted "application"
    (id_fmt (app_id app)) ("imported from " +:+ path) (rd_now rd));;
  s ← get;
  app ← map_err (internal ctx) (lift_r (application_get (rd_loaded rd) (app_id app) (as_db s)));
  let response := envelope "import" ctx false (Some (kind_id "application" (id_fmt (app_id app))))
    (Some (json_object [("application_id", json_str (id_fmt (app_id app))); ("name", json_str name);
      ("path", json_str path);
      ("environments", json_array (map (λ e, json_str (env_name e)) (app_environments app)))]))
    (Some job.1) (Some "run `labrys inspect --application <id>` to see findings") in
  map_err (internal ctx) (store_replay rd key "import" response);;
  mret response.
Definition import (rd : Reading) (headers : Headers) (body : ImportBody) : Handler Json :=
  ctx ← authorized rd headers (trace_of rd headers) "POST /v1/import";
  refuse (forbid_agent ctx "import");;
  key ← lift_r (require_idempotency ctx "import");
  unless_replayed ctx key (import_command rd body ctx key).

Definition capability_command (rd : Reading) (raw : string) (body : MutationBody)
    (ctx : ActorContext) (key : string) : Handler Json :=
  app ← load_app rd ctx raw;
  let capability := default "" (mb_capability body) in
  if trim_is_empty capability then
    mthrow (unprocessable (cx_trace_id ctx) "capability operations require a capability key"
      ("send {" +:+ dq +:+ "capability" +:+ dq +:+ ": " +:+ dq +:+ "database.postgres" +:+ dq
       +:+ "} (secret values stay references only)"))
  else
    accept rd ctx key "capability" (id_fmt (app_id app) +:+ ":capability:" +:+ capability) JProvision
      EaResourceProvisioned "capability" capability
      "capability operation accepted; readiness waits for the platform probe"
      (kind_id "capability" capability)
      (json_object [("application_id", json_str (id_fmt (app_id app))); ("capability", json_str capability)])
      "capability stays provisioning until the platform observes readiness".
Definition capability (rd : Reading) (headers : Headers) (raw : string) (body : MutationBody) : Handler Json :=
  ctx ← authorized rd headers (trace_of rd headers) "POST /v1/applications/{app}/capabilities";
  key ← lift_r (require_idempotency ctx "capability");
  unless_replayed ctx key (capability_command rd raw body ctx key).

Definition simple_detail (command : string) (body : MutationBody) : string :=
  if decide (command = "agent") then
    "agent work requested (prompt " +:+ pretty (Z.of_nat (String.length (default "" (mb_prompt body))))
    +:+ " chars); converging"
  else if decide (command = "preview") then
    "preview requested" +:+ default "" ((λ s, " for session " +:+ s) <$> mb_session_id body) +:+ "; converging"
  else command +:+ " accepted; converging".
Definition simple_command (rd : Reading) (raw : string) (body : MutationBody)
    (command : string) (action : JobAction) (target_suffix : string)
    (ctx : ActorContext) (key : string) : Handler Json :=
  app ← load_app rd ctx raw;
  accept rd ctx key command (id_fmt (app_id app) +:+ ":" +:+ target_suffix) action
    EaReconciled "application" (id_fmt (app_id app)) (simple_detail command body)
    (kind_id "application" (id_fmt (app_id app)))
    (json_object [("application_id", json_str (id_fmt (app_id app)))])
    "work continues after this response; poll the job for status".
Definition mutate_simple (rd : Reading) (headers : Headers) (raw : string) (body : MutationBody)
    (command : string) (action : JobAction) (target_suffix : string) : Handler Json :=
  ctx ← authorized rd headers (trace_of rd headers) command;
  key ← lift_r (require_idempotency ctx command);
  unless_replayed ctx key (simple_command rd raw body command action target_suffix ctx key).
Definition run_dev rd headers raw body := mutate_simple rd headers raw body "run" JProvision "dev".
Definition agent rd headers raw body := mutate_simple rd headers raw body "agent" JVerify "agent".
Definition preview rd headers raw body := mutate_simple rd headers raw body "preview" JProvision "preview".

Definition build_command (rd : Reading) (raw : string) (ctx : ActorContext) (key : string) : Handler Json :=
  app ← load_app rd ctx raw;
  accept rd ctx key "build" (id_fmt (app_id app) +:+ ":build") JProvision
    EaReconciled "application" (id_fmt (app_id app)) "build accepted; promotion waits for health"
    (kind_id "application" (id_fmt (app_id app)))
    (json_object [("application_id", json_str (id_fmt (app_id app)))])
    "promotion waits for the platform health gate".
Definition build (rd : Reading) (headers : Headers) (raw : string) (_ : MutationBody) : Handler Json :=
  ctx ← authorized rd headers (trace_of rd headers) "POST /v1/applications/{app}/build";
  refuse (forbid_agent ctx "build");;
  key ← lift_r (require_idempotency ctx "build");
  unless_replayed ctx key (build_command rd raw ctx key).

Definition deploy_command (rd : Reading) (raw : string) (body : MutationBody)
    (ctx : ActorContext) (key : string) : Handler Json :=
  app ← load_app rd ctx raw;
  let environment := default "production" (mb_environment body) in
  if negb (is_some (environment_id_of app environment)) then
    mthrow (not_found (cx_trace_id ctx) ("environment '" +:+ environment +:+ "' is unknown for this application")
      "list environments with `labrys inspect --application <id>`")
  else
    let approval_note := default (actor_label (cx_actor ctx)) (ab_approver <$> mb_approval body) in
    accept rd ctx key "deploy" (id_fmt (app_id app) +:+ ":deploy:" +:+ environment) JRollout
      EaReconciled "application" (id_fmt (app_id app))
      ("deploy to " +:+ environment +:+ " accepted by " +:+ approval_note +:+ "; promotion waits for health")
      (kind_id "environment" environment)
      (json_object [("application_id", json_str (id_fmt (app_id app))); ("environment", json_str environment);
                    ("revision_sha", json_option (json_str <$> mb_revision_sha body))])
      "deployment is accepted but not healthy until the platform observes health".
Definition deploy (rd : Reading) (headers : Headers) (raw : string) (body : MutationBody) : Handler Json :=
  ctx ← authorized rd headers (trace_of rd headers) "POST /v1/applications/{app}/deploy";
  refuse (if is_some (forbid_agent ctx "deploy") then
    Some (forbidden (cx_trace_id ctx)
      "an agent session may not call the production deploy endpoint without approval"
      "request human approval first: a named human must approve and run `labrys deploy --environment production --approve-by <name>`")
    else None);;
  refuse (require_human ctx "deploy");;
  key ← lift_r (require_idempotency ctx "deploy");
  unless_replayed ctx key (deploy_command rd raw body ctx key).

(** The checks of a rollback's target. *)
Definition rollback_target (ctx : ActorContext) (body : MutationBody) (db : AppDb) : result ApiError DeploymentId :=
  raw ← ok_or (unprocessable (cx_trace_id ctx) "rollback requires an explicit target deployment"
                 "list candidates with `labrys deployments --application <id>` and pass --target <id>")
          (mb_target body);
  target_id ← map_err_r (λ _, unprocessable (cx_trace_id ctx) "rollback target is not a valid deployment id"
                 "list candidates with `labrys deployments --application <id>`") (DeploymentId_from_str raw);
  target ← map_err_r (λ _, not_found (cx_trace_id ctx)
                 ("rollback target " +:+ id_fmt target_id +:+ " does not exist")
                 "list candidates with `labrys deployments --application <id>`") (deployment_get target_id db);
  if negb (is_some (dep_image target)) then
    Err (unprocessable (cx_trace_id ctx) ("rollback target " +:+ id_fmt target_id +:+ " has no built image")
           "choose a deployment with a verified OCI artifact")
  else if negb (bool_decide (dep_phase target ∈ [DpHealthy; DpSuperseded; DpRolledBack])) then
    Err (unprocessable (cx_trace_id ctx) ("rollback target " +:+ id_fmt target_id +:+ " is "
             +:+ DeploymentPhase_debug (dep_phase target) +:+ ", not a safe target")
           "choose a healthy, superseded, or previously rolled-back deployment")
  else Ok target_id.
Definition named_approval (body : MutationBody) : option ApprovalBody :=
  a ← mb_approval body; if trim_is_empty (ab_approver a) then None else Some a.
Definition rollback_command (rd : Reading) (raw : string) (body : MutationBody) (approval : ApprovalBody)
    (ctx : ActorContext) (key : string) : Handler Json :=
  app ← load_app rd ctx raw;
  s ← get;
  target_id ← lift_r (rollback_target ctx body (as_db s));
  let approval_record := ExplicitApproval_granted (ab_approver approval) ("rollback to " +:+ id_fmt target_id) in
  accept rd ctx key "rollback" (id_fmt (app_id app) +:+ ":rollback:" +:+ id_fmt target_id) JRollout
    EaReconciled "deployment" (id_fmt target_id)
    ("rollback to " +:+ id_fmt target_id +:+ " approved by " +:+ approver approval_record +:+ "; "
     +:+ DATABASE_DATA_WARNING)
    (kind_id "deployment" (id_fmt target_id))
    (json_object [("application_id", json_str (id_fmt (app_id app))); ("target", json_str (id_fmt target_id));
      ("approved_by", json_str (approver approval_record)); ("database_data_restored", json_bool false);
      ("warning", json_str DATABASE_DATA_WARNING)])
    "traffic moves when the controller converges; database data is never restored by rollback".
Definition rollback (rd : Reading) (headers : Headers) (raw : string) (body : MutationBody) : Handler Json :=
  ctx ← authorized rd headers (trace_of rd headers) "POST /v1/applications/{app}/rollback";
  refuse (if is_some (forbid_agent ctx "rollback") then
    Some (forbidden (cx_trace_id ctx)
      "an agent session may not invoke rollback without named human approval"
      "rollback requires a granted, named human approval: a human must run `labrys rollback --approve-by <name> --target <deployment>`")
    else None);;
  refuse (require_human ctx "rollback");;
  approval ← lift_r (ok_or (mkApiError 400 "api.approval_required"
      "rollback requires a granted, named human approval"
      ("re-send with {" +:+ dq +:+ "approval" +:+ dq +:+ ": {" +:+ dq +:+ "approver" +:+ dq +:+ ": " +:+ dq
       +:+ "<name>" +:+ dq +:+ "}} and --target <deployment>") (cx_trace_id ctx))
    (named_approval body));
  key ← lift_r (require_idempotency ctx "rollback");
  unless_replayed ctx key (rollback_command rd raw body approval ctx key).

(* ------------------------------------------------------------------ *)
(** * Reads *)

(** A read of the state that may fail. *)
Definition reading {A} (f : ApiState → result ApiError A) : Handler A := s ← get; lift_r (f s).
Definition answer (command : string) (ctx : ActorContext) (id : string) (data : Json) : Json :=
  envelope command ctx false (Some (kind_id "application" id)) (Some data) None None.
Definition paged (total : nat) (limit offset : Z) (items : list Json) : Json :=
  json_object [("total", json_u64 (Z.of_nat total)); ("limit", json_u64 limit); ("offset", json_u64 offset);
               ("items", json_array items)].
(** [skip(offset).take(limit)]. *)
Definition page_of {A} (limit offset : Z) (l : list A) : list A :=
  take (Z.to_nat limit) (drop (Z.to_nat offset) l).

Definition inspect (rd : Reading) (headers : Headers) (raw : string) : Handler Json :=
  ctx ← authorized rd headers (trace_of rd headers) "GET /v1/applications/{app}/inspect";
  app ← load_app rd ctx raw;
  reading (λ s,
    capabilities ← map_err_r (internal ctx) (capability_list_for_application scan (app_id app) (as_db s));
    resources ← map_err_r (internal ctx) (resource_list_for_application (app_id app) (t_resources (as_db s)));
    Ok (answer "inspect" ctx (id_fmt (app_id app)) (json_object
      [("application_id", json_str (id_fmt (app_id app)));
       ("environments", json_array (map (λ e, json_str (env_name e)) (app_environments app)));
       ("capabilities", json_array (map (λ c, json_str (id_fmt (bc_id c))) capabilities));
       ("resources", json_array (map (λ r, json_str (id_fmt (res_id r))) resources))]))).

Definition wanted_environments (page : PageQuery) (app : Application) : list Environment :=
  match pq_environment page with
  | Some name => List.filter (λ e, bool_decide (env_name e = name)) (app_environments app)
  | None => app_environments app
  end.
Definition deployment_item (env : Environment) (d : Deployment) : Json :=
  json_object [("id", json_str (id_fmt (dep_id d))); ("environment", json_str (env_name env));
    ("phase", json_str (to_ascii_lowercase (DeploymentPhase_debug (dep_phase d))));
    ("revision_sha", json_str (source_sha (dep_revision d)));
    ("digest", json_option ((λ i, json_str (img_digest i)) <$> dep_image d));
    ("rollback_target", json_option ((λ t, json_str (id_fmt t)) <$> dep_rollback_target d))].
Fixpoint deployment_items (app : Application) (envs : list Environment) (db : AppDb) :
    result ControlPlaneError (list Json) :=
  match envs with
  | [] => Ok []
  | env :: rest =>
      list ← deployment_list_for_environment (app_id app) (env_id env) db;
      items ← deployment_items app rest db;
      Ok (map (deployment_item env) list ++ items)
  end.
Definition deployments (rd : Reading) (headers : Headers) (raw : string) (page : PageQuery) : Handler Json :=
  ctx ← authorized rd headers (trace_of rd headers) "GET /v1/applications/{app}/deployments";
  app ← load_app rd ctx raw;
  let '(limit, offset) := clamp_page page in
  reading (λ s,
    all ← map_err_r (internal ctx) (deployment_items app (wanted_environments page app) (as_db s));
    Ok (answer "deployments" ctx (id_fmt (app_id app))
          (paged (length all) limit offset (page_of limit offset all)))).

Definition log_sources : list LogSource := [LsAgent; LsBuild; LsRuntime; LsDeployment; LsCapability; LsResource].
Definition wanted_sources (page : PageQuery) : list LogSource :=
  match pq_source page with
  | Some name => option_list (List.find (λ s, bool_decide (LogSource_canonical_name s = name)) log_sources)
  | None => log_sources
  end.
Fixpoint log_entries (rd : Reading) (sources : list LogSource) (t : Serial LogRow) :
    result ControlPlaneError (list LogEntry) :=
  match sources with
  | [] => Ok []
  | source :: rest => l ← logs_for_source (rd_draws rd) source t; ls ← log_entries rd rest t; Ok (l ++ ls)
  end.
Definition sequence_le (a b : LogEntry) : Prop := le_sequence a ≤ le_sequence b.
#[local] Instance sequence_le_dec a b : Decision (sequence_le a b).
Proof. unfold sequence_le. apply _. Defined.
Definition log_item (e : LogEntry) : Json :=
  json_object [("sequence", json_u64 (le_sequence e)); ("source", json_str (LogSource_canonical_name (le_source e)));
    ("level", json_str (level_name (le_level e))); ("message", json_str (le_message e));
    ("trace", json_str (trace_id (le_correlation e)))].
Definition logs (rd : Reading) (headers : Headers) (raw : string) (page : PageQuery) : Handler Json :=
  ctx ← authorized rd headers (trace_of rd headers) "GET /v1/applications/{app}/logs";
  load_app rd ctx raw;;
  let '(limit, offset) := clamp_page page in
  let wanted := wanted_sources page in
  if is_some (pq_source page) && (length wanted =? 0)%nat then
    mthrow (unprocessable (cx_trace_id ctx) ("unknown log source '" +:+ default "" (pq_source page) +:+ "'")
              "use one of agent, build, runtime, deployment, capability, resource")
  else reading (λ s,
    entries ← map_err_r (internal ctx) (log_entries rd wanted (as_logs s));
    let entries := merge_sort sequence_le entries in
    Ok (answer "logs" ctx raw
          (paged (length entries) limit offset (map log_item (page_of limit offset entries))))).

(** [max_by_key] keeps the last of equal maxima; [None] is below every [Some]. *)
Definition option_ltb (a b : option Z) : bool :=
  match a, b with
  | Some x, Some y => x <? y
  | None, Some _ => true
  | _, None => false
  end.
Definition last_moved (d : Deployment) : option DateTime := dt_at <$> last (dep_transitions d).
Definition current_deployment (l : list Deployment) : option Deployment :=
  foldl (λ best d, match best with
                   | Some b => if option_ltb (last_moved d) (last_moved b) then Some b else Some d
                   | None => Some d
                   end) None l.
Definition deploy_target (app : Application) (env : Environment) : string :=
  id_fmt (app_id app) +:+ ":deploy:" +:+ env_name env.
Definition phase_state (p : DeploymentPhase) : string :=
  match p with
  | DpHealthy => "healthy"
  | DpBuilding | DpDeploying | DpPending => "in_progress"
  | DpDegraded => "degraded"
  | DpFailed => "failed"
  | DpSuperseded | DpRolledBack => "superseded"
  end.
Definition overall_after (overall entry : string) : string :=
  if decide (entry = "failed") then "failed" else if decide (overall = "failed") then "failed"
  else if decide (entry = "degraded") then "degraded" else if decide (overall = "degraded") then "degraded"
  else if decide (entry = "in_progress") then "in_progress"
  else if decide (overall = "in_progress") then "in_progress"
  else if decide (entry = "healthy") then "healthy" else overall.
(** One environment: its entry, and the overall state after it. *)
Definition health_entry (app : Application) (env : Environment) (overall : string) (s : ApiState) :
    result ControlPlaneError (Json * string) :=
  list ← deployment_list_for_environment (app_id app) (env_id env) (as_db s);
  match current_deployment list with
  | None =>
      job ← latest_for_target (deploy_target app env) (as_jobs s);
      Ok (json_object [("environment", json_str (env_name env));
            ("state", json_str (if is_some job then "in_progress" else "unknown"));
            ("job", json_option (job_value <$> job));
            ("detail", json_str "no platform health observation recorded")],
          if is_some job && bool_decide (overall = "unknown") then "in_progress" else overall)
  | Some d =>
      let state := phase_state (dep_phase d) in
      job ← (if decide (state = "in_progress") then latest_for_target (deploy_target app env) (as_jobs s)
             else Ok None);
      Ok (json_object [("environment", json_str (env_name env)); ("state", json_str state);
            ("deployment", json_str (id_fmt (dep_id d)));
            ("digest", json_option ((λ i, json_str (img_digest i)) <$> dep_image d));
            ("job", json_option (job_value <$> job))],
          overall_after overall state)
  end.
Fixpoint health_entries (app : Application) (envs : list Environment) (overall : string) (s : ApiState) :
    result ControlPlaneError (list Json * string) :=
  match envs with
  | [] => Ok ([], overall)
  | env :: rest =>
      '(entry, overall) ← health_entry app env overall s;
      '(entries, overall) ← health_entries app rest overall s;
      Ok (entry :: entries, overall)
  end.
Definition api_health (rd : Reading) (headers : Headers) (raw : string) (page : PageQuery) : Handler Json :=
  ctx ← authorized rd headers (trace_of rd headers) "GET /v1/applications/{app}/health";
  app ← load_app rd ctx raw;
  reading (λ s,
    '(entries, overall) ← map_err_r (internal ctx)
       (health_entries app (wanted_environments page app) "unknown" s);
    Ok (envelope "health" ctx false (Some (kind_id "application" (id_fmt (app_id app))))
          (Some (json_object [("state", json_str overall); ("environments", json_array entries)])) None
          (if decide (overall = "unknown") then Some "run `labrys doctor` to see which probe is missing" else None))).

(** What the doctor reports, with whether it is an error. *)
Definition finding (code severity message : string) (recovery : option string) : Json :=
  json_object ([("code", json_str code); ("severity", json_str severity); ("message", json_str message)]
    ++ match recovery with Some r => [("recovery", json_str r)] | None => [] end).
Fixpoint doctor_environments (app : Application) (envs : list Environment) (db : AppDb) :
    result ControlPlaneError (list (Json * bool)) :=
  match envs with
  | [] => Ok []
  | env :: rest =>
      list ← deployment_list_for_environment (app_id app) (env_id env) db;
      findings ← doctor_environments app rest db;
      Ok ((if existsb (λ d, bool_decide (dep_phase d = DpHealthy)) list then
             finding "doctor.health" "info"
               ("environment '" +:+ env_name env +:+ "' has a healthy deployment") None
           else
             finding "doctor.no_health_evidence" "warning"
               ("no platform health observation recorded for '" +:+ env_name env +:+ "'")
               (Some "run a health probe or wait for the controller"), false) :: findings)
  end.
Definition doctor_jobs (dead : list JobId) : list (Json * bool) :=
  if (length dead =? 0)%nat then []
  else [(finding "doctor.dead_letters" "error" (pretty (Z.of_nat (length dead)) +:+ " job(s) exhausted retries")
           (Some "inspect the job error, fix the cause, then requeue the job"), true)].
Definition doctor_evidence (evidence : list VerificationEvidence) : list (Json * bool) :=
  map (λ e, (finding "doctor.failed_evidence" "error" (VerificationEvidence_to_event_detail e)
               (Some (default "inspect the failing check and re-run verification" (ve_recovery e))), true))
    (List.filter (λ e, negb (ve_passed e)) evidence).
Definition doctor_plugin (r : PluginReport) : Json * bool :=
  if decide (pr_state r = PlActive) then
    (finding "doctor.plugin" "info" (pr_name r +:+ " (" +:+ family_name (pr_family r) +:+ ") active") None, false)
  else
    (finding "doctor.plugin_unavailable" "error"
       (pr_name r +:+ " (" +:+ family_name (pr_family r) +:+ ") is " +:+ PluginState_debug (pr_state r))
       (Some (pr_detail r)), true).
Definition doctor_findings (app : Application) (s : ApiState) : result ControlPlaneError (list (Json * bool)) :=
  environments ← doctor_environments app (app_environments app) (as_db s);
  dead ← pg_dead_letters (as_jobs s);
  evidence ← evidence_all (as_evidence s);
  Ok (environments ++ doctor_jobs dead ++ doctor_evidence evidence
      ++ map doctor_plugin (report (as_plugins s))).
Definition doctor (rd : Reading) (headers : Headers) (raw : string) : Handler Json :=
  ctx ← authorized rd headers (trace_of rd headers) "GET /v1/applications/{app}/doctor";
  app ← load_app rd ctx raw;
  reading (λ s,
    findings ← map_err_r (internal ctx) (doctor_findings app s);
    Ok (answer "doctor" ctx (id_fmt (app_id app))
          (json_object [("ok", json_bool (negb (existsb snd findings))); ("checks", json_array findings.*1)]))).

Definition capability_item (c : BoundCapability) : Json :=
  json_object [("id", json_str (id_fmt (bc_id c))); ("capability", json_str (bc_capability c));
    ("provider", json_str (bc_provider c));
    ("mode", json_str (to_ascii_lowercase (CapabilityMode_debug (bc_mode c))))].
Definition capabilities (rd : Reading) (headers : Headers) (raw : string) : Handler Json :=
  ctx ← authorized rd headers (trace_of rd headers) "GET /v1/applications/{app}/capabilities";
  app ← load_app rd ctx raw;
  reading (λ s,
    list ← map_err_r (internal ctx) (capability_list_for_application scan (app_id app) (as_db s));
    Ok (answer "capabilities" ctx (id_fmt (app_id app))
          (json_object [("items", json_array (map capability_item list))]))).
Definition resource_item (r : Resource) : Json :=
  json_object [("id", json_str (id_fmt (res_id r))); ("kind", json_str (res_kind r));
    ("phase", json_str (to_ascii_lowercase (ResourcePhase_debug (res_phase r))))].
Definition resources (rd : Reading) (headers : Headers) (raw : string) : Handler Json :=
  ctx ← authorized rd headers (trace_of rd headers) "GET /v1/applications/{app}/resources";
  app ← load_app rd ctx raw;
  reading (λ s,
    list ← map_err_r (internal ctx) (resource_list_for_application (app_id app) (t_resources (as_db s)));
    Ok (answer "resources" ctx (id_fmt (app_id app))
          (json_object [("items", json_array (map resource_item list))]))).

Definition unknown_job (ctx : ActorContext) (raw : string) : ApiError :=
  not_found (cx_trace_id ctx) ("job " +:+ raw +:+ " does not exist") "enqueue work with a mutating command first".
Definition api_job_status (rd : Reading) (headers : Headers) (raw : string) : Handler Json :=
  ctx ← authorized rd headers (trace_of rd headers) "GET /v1/jobs/{job}";
  job ← reading (λ s,
    id ← map_err_r (λ _, unknown_job ctx raw) (JobId_from_str raw);
    map_err_r (λ _, unknown_job ctx raw) (pg_get id (as_jobs s)));
  let response := envelope "job" ctx false (Some (kind_id "job" (id_fmt (job_id job)))) None (Some job)
    (if decide (job_status job = Dead) then Some "inspect last_error, fix the cause, then requeue" else None) in
  lift_o (json_set "data" (json_option (json_str <$> job_last_error job)) response).

(* ------------------------------------------------------------------ *)
(** * Agents and plugins *)

Definition negotiate_agent (rd : Reading) (headers : Headers) (body : NegotiateBody) : Handler Json :=
  ctx ← authorized rd headers (trace_of rd headers) "POST /v1/agents/negotiate";
  match ensure_protocol_version (nb_protocol_version body) with
  | Err err =>
      mthrow (mkApiError 409 "api.version_mismatch" ("agent protocol mismatch: " +:+ CoreError_fmt err)
        "upgrade the agent backend to the negotiated protocol version before activation" (cx_trace_id ctx))
  | Ok _ =>
      mret (envelope "negotiate" ctx false None
        (Some (json_object [("family", json_str "agent"); ("negotiated_version", json_u64 AGENT_PROTOCOL_VERSION);
                            ("backend", json_option (json_str <$> nb_backend body))])) None None)
  end.
Definition handshake_plugin (rd : Reading) (headers : Headers) (body : HandshakeBody) : Handler Json :=
  ctx ← authorized rd headers (trace_of rd headers) "POST /v1/plugins/handshake";
  family ← map_err (λ err, mkApiError 409 "api.plugin_refused" (CoreError_fmt err)
      "upgrade the plugin to the negotiated protocol version and implement its family contract" (cx_trace_id ctx))
    (zoom as_plugins set_plugins (register (hb_manifest body)));
  mret (envelope "handshake" ctx false None
    (Some (json_object [("family", json_str (family_name family)); ("plugin_id", json_str (pm_id (hb_manifest body)));
                        ("negotiated_version", json_u64 PLUGIN_PROTOCOL_VERSION)])) None None).
Definition plugin_item (r : PluginReport) : Json :=
  json_object [("name", json_str (pr_name r)); ("family", json_str (family_name (pr_family r)));
    ("state", json_str (to_ascii_lowercase (PluginState_debug (pr_state r))))].
Definition list_plugins (rd : Reading) (headers : Headers) : Handler Json :=
  ctx ← authorized rd headers (trace_of rd headers) "GET /v1/plugins";
  reading (λ s, Ok (envelope "plugins" ctx false None
    (Some (json_object [("items", json_array (map plugin_item (report (as_plugins s))))])) None None)).

(* ------------------------------------------------------------------ *)
(** * The router *)

Inductive Route :=
| RtVersion
| RtImport (body : ImportBody)
| RtInspect (app : string)
| RtRun (app : string) (body : MutationBody)
| RtAgent (app : string) (body : MutationBody)
| RtPreview (app : string) (body : MutationBody)
| RtCapabilities (app : string)
| RtCapability (app : string) (body : MutationBody)
| RtResources (app : string)
| RtBuild (app : string) (body : MutationBody)
| RtDeploy (app : string) (body : MutationBody)
| RtDeployments (app : string) (page : PageQuery)
| RtLogs (app : string) (page : PageQuery)
| RtHealth (app : string) (page : PageQuery)
| RtRollback (app : string) (body : MutationBody)
| RtDoctor (app : string)
| RtJob (job : string)
| RtNegotiate (body : NegotiateBody)
| RtHandshake (body : HandshakeBody)
| RtPlugins.
Definition version : Json := json_object [("ok", json_bool true); ("versions", versions_value)].
Definition handle (rd : Reading) (headers : Headers) (route : Route) : Handler Json :=
  match route with
  | RtVersion => mret version
  | RtImport body => import rd headers body
  | RtInspect app => inspect rd headers app
  | RtRun app body => run_dev rd headers app body
  | RtAgent app body => agent rd headers app body
  | RtPreview app body => preview rd headers app body
  | RtCapabilities app => capabilities rd headers app
  | RtCapability app body => capability rd headers app body
  | RtResources app => resources rd headers app
  | RtBuild app body => build rd headers app body
  | RtDeploy app body => deploy rd headers app body
  | RtDeployments app page => deployments rd headers app page
  | RtLogs app page => logs rd headers app page
  | RtHealth app page => api_health rd headers app page
  | RtRollback app body => rollback rd headers app body
  | RtDoctor app => doctor rd headers app
  | RtJob job => api_job_status rd headers job
  | RtNegotiate body => negotiate_agent rd headers body
  | RtHandshake body => handshake_plugin rd headers body
  | RtPlugins => list_plugins rd headers
  end.
(** The limiter wraps every route; [peer] is the address of the connection and
    [elapsed_at], [instant] are its readings of the monotonic clock. *)
Definition rate_limit (elapsed_at : IpAddr → Z) (instant : Z) (peer : option IpAddr) (rd : Reading)
    (headers : Headers) (next : Handler Json) : Handler Json :=
  match peer with
  | Some ip => map_err (rate_limited (trace_of rd headers)) (zoom as_limiter set_limiter (check elapsed_at instant ip))
  | None => mret tt
  end;;
  next.
Definition serve (elapsed_at : IpAddr → Z) (instant : Z) (peer : option IpAddr) (rd : Reading)
    (headers : Headers) (route : Route) (s : ApiState) : outcome (ApiState * (Z * Json)) :=
  '(s', r) ← rate_limit elapsed_at instant peer rd headers (handle rd headers route) s;
  Done (s', match r with Ok body => (200, body) | Err e => (ae_status e, ApiError_body e) end).
End Handlers.
