(* ===== verification/ApiFacts.v ===== *)
(** What the HTTP API guarantees: the gate in front of every handler, who may give
    which command, what a request leaves alone, one effect per idempotency key,
    one job per step, and what a healthy report rests on. *)

From stdpp Require Import base option list strings pretty gmap sorting.
From Stdlib Require Import ZArith Lia Ascii.
From S2P Require Import Prelude External Errors CpErrors Ids Resource Jobs Runtime Approval Snapshot Deployment.
From S2P Require Import Capability Application Agent Events AuditChain Verifier Json Plugin Surfaces.
From S2P Require Import Auth Config DurableJobs ResourceStore CpStores Repos Containers.
From S2P Require Import Api.
Local Open Scope Z_scope.

(* ------------------------------------------------------------------ *)
(** * The gate *)

Section Gate.
Context `{UuidLib} `{JsonIndex} `{PgTime} `{ChronoText} `{SubsecRound} `{BuildProfile} `{Chrono}.
Context `{Crypto} `{StrDebug}.
Context `{!Serde Origin} `{!Serde (list string)} `{!Serde LifecycleCollections}.
Context `{!Serde EnvironmentKind} `{!Serde EnvironmentRefs} `{!Serde (gmap string Json)}.
Context `{!Serde Json} `{!Serde EventActor} `{!Serde EventResult} `{!Serde EventResource}.
Context `{!Serde BoundCapability} `{!Serde Deployment} `{!Serde RetryPolicy}.
Context `{!Serde FailureRecord} `{!Serde (list ResourceTransition)}.
Context (secrets : list string) (scan : gmap string CapabilityRow → list CapabilityRow).
Implicit Types (s : ApiState) (ctx : ActorContext).

(** At most one record of a rejected request was added to the audit trail. *)
Definition audited s s' : Prop :=
  s' = s ∨ ∃ r, s' = set_db (set_audit_log (t_audit (as_db s) ++ [r]) (as_db s)) s ∧ ar_action r = "auth.rejected".

Lemma same_db s : set_db (set_audit_log (t_audit (as_db s)) (as_db s)) s = s.
Proof. by destruct s as [[]]. Qed.
Lemma denial_is_audited rd target detail s :
  ∃ s', audit_auth_denial secrets rd target detail s = Done (s', Ok tt) ∧ audited s s'.
Proof.
  unfold audit_auth_denial, ignore_result, zoom, append_audit. unfold_monad.
  destruct (redact_guard "audit.detail" detail secrets) as [d|e]; simpl; eexists; (split; [done|]).
  - right. eexists. by split.
  - left. apply same_db.
Qed.

(** Every authorised handler starts with the gate: how it ends. *)
Inductive gate_end (rd : Reading) (headers : Headers) (trace_id : string) s : ApiState → result ApiError ActorContext → Prop :=
| GeDenied d s' : authenticate (bearer_of headers) (rd_auth rd) (as_tokens s) = Err d → audited s s' →
    gate_end rd headers trace_id s s' (Err (unauthorized trace_id))
| GeNameless tok e : authenticate (bearer_of headers) (rd_auth rd) (as_tokens s) = Ok tok →
    parse_actor (default "" (headers "x-labryst-actor")) = None → ae_status e = 400 →
    gate_end rd headers trace_id s s (Err e)
| GeMismatch tok actor e s' : authenticate (bearer_of headers) (rd_auth rd) (as_tokens s) = Ok tok →
    parse_actor (default "" (headers "x-labryst-actor")) = Some actor → scope_allows (at_scope tok) actor = false →
    ae_status e = 403 → audited s s' → gate_end rd headers trace_id s s' (Err e)
| GePassed tok actor : authenticate (bearer_of headers) (rd_auth rd) (as_tokens s) = Ok tok →
    parse_actor (default "" (headers "x-labryst-actor")) = Some actor → scope_allows (at_scope tok) actor = true →
    gate_end rd headers trace_id s s (Ok (mkContext actor trace_id (idempotency_of headers))).
Lemma authorized_ends rd headers trace_id target s :
  ∃ s' r, authorized secrets rd headers trace_id target s = Done (s', r) ∧ gate_end rd headers trace_id s s' r.
Proof.
  unfold authorized. unfold_monad.
  destruct (authenticate _ _ _) as [tok|d] eqn:Ha.
  - destruct (parse_actor _) as [actor|] eqn:Hp.
    + destruct (scope_allows (at_scope tok) actor) eqn:Hsc; simpl.
      * eexists _, _. split; [done|]. by eapply GePassed.
      * match goal with |- context [audit_auth_denial secrets rd target ?d s] =>
          destruct (denial_is_audited rd target d s) as (s' & -> & Haud) end.
        eexists _, _. split; [done|]. by eapply GeMismatch.
    + eexists _, _. split; [done|]. by eapply GeNameless.
  - match goal with |- context [audit_auth_denial secrets rd target ?d s] =>
      destruct (denial_is_audited rd target d s) as (s' & -> & Haud) end.
    eexists _, _. split; [done|]. by eapply GeDenied.
Qed.

(** The endpoint a route names to the gate, and what follows the gate. *)
Definition route_target (route : Route) : string :=
  match route with
  | RtVersion => "GET /v1/version"
  | RtImport _ => "POST /v1/import"
  | RtInspect _ => "GET /v1/applications/{app}/inspect"
  | RtRun _ _ => "run" | RtAgent _ _ => "agent" | RtPreview _ _ => "preview"
  | RtCapabilities _ => "GET /v1/applications/{app}/capabilities"
  | RtCapability _ _ => "POST /v1/applications/{app}/capabilities"
  | RtResources _ => "GET /v1/applications/{app}/resources"
  | RtBuild _ _ => "POST /v1/applications/{app}/build"
  | RtDeploy _ _ => "POST /v1/applications/{app}/deploy"
  | RtDeployments _ _ => "GET /v1/applications/{app}/deployments"
  | RtLogs _ _ => "GET /v1/applications/{app}/logs"
  | RtHealth _ _ => "GET /v1/applications/{app}/health"
  | RtRollback _ _ => "POST /v1/applications/{app}/rollback"
  | RtDoctor _ => "GET /v1/applications/{app}/doctor"
  | RtJob _ => "GET /v1/jobs/{job}"
  | RtNegotiate _ => "POST /v1/agents/negotiate"
  | RtHandshake _ => "POST /v1/plugins/handshake"
  | RtPlugins => "GET /v1/plugins"
  end.
Lemma handle_gated rd headers route :
  route ≠ RtVersion → ∃ rest, handle secrets scan rd headers route =
    (authorized secrets rd headers (trace_of rd headers) (route_target route) ≫= rest).
Proof. intros Hv. destruct route; try done; eexists; reflexivity. Qed.


(** The commands that change the platform, who may give them, and what they do
    once the request is no replay. *)
Definition mutates (route : Route) : bool :=
  match route with
  | RtImport _ | RtRun _ _ | RtAgent _ _ | RtPreview _ _ | RtCapability _ _ | RtBuild _ _ | RtDeploy _ _
  | RtRollback _ _ => true
  | _ => false
  end.
Definition may_run (route : Route) ctx : bool :=
  match route with
  | RtImport _ | RtBuild _ _ => negb (is_agent (cx_actor ctx))
  | RtDeploy _ _ => is_human (cx_actor ctx)
  | RtRollback _ body => is_human (cx_actor ctx) && is_some (named_approval body)
  | _ => true
  end.
Definition human_only (route : Route) : bool :=
  match route with RtImport _ | RtBuild _ _ | RtDeploy _ _ | RtRollback _ _ => true | _ => false end.

Definition command (rd : Reading) (route : Route) ctx (key : string) : M ApiState ApiError Json :=
  match route with
  | RtImport body => import_command secrets rd body ctx key
  | RtRun raw body => simple_command secrets rd raw body "run" JProvision "dev" ctx key
  | RtAgent raw body => simple_command secrets rd raw body "agent" JVerify "agent" ctx key
  | RtPreview raw body => simple_command secrets rd raw body "preview" JProvision "preview" ctx key
  | RtCapability raw body => capability_command secrets rd raw body ctx key
  | RtBuild raw _ => build_command secrets rd raw ctx key
  | RtDeploy raw body => deploy_command secrets rd raw body ctx key
  | RtRollback raw body =>
      match named_approval body with
      | Some approval => rollback_command secrets rd raw body approval ctx key
      | None => mret json_null
      end
  | _ => mret json_null
  end.

(** After the gate a mutation is refused by the policy, lacks a key, or runs its
    command unless the key has been used. *)
Inductive mutation_end (rd : Reading) (headers : Headers) (route : Route) s : ActorContext → Prop :=
| MeRefused ctx e : may_run route ctx = false → handle secrets scan rd headers route s = Done (s, Err e) →
    ae_status e ∈ [403; 400] → mutation_end rd headers route s ctx
| MeKeyless ctx e : may_run route ctx = true → cx_idempotency_key ctx = None →
    handle secrets scan rd headers route s = Done (s, Err e) → ae_status e = 400 → mutation_end rd headers route s ctx
| MeRun ctx key : may_run route ctx = true → cx_idempotency_key ctx = Some key →
    handle secrets scan rd headers route s = unless_replayed ctx key (command rd route ctx key) s →
    mutation_end rd headers route s ctx.
Ltac use_approval :=
  repeat match goal with H : named_approval _ = _ |- _ => rewrite H end; done.
Ltac run_handler E :=
  unfold handle, import, capability, run_dev, agent, preview, mutate_simple, build, deploy, rollback, command,
    mbind, M_bind; simpl in *; rewrite E; simpl; use_approval.
Lemma mutation_ends rd headers route s s1 ctx :
  mutates route = true →
  authorized secrets rd headers (trace_of rd headers) (route_target route) s = Done (s1, Ok ctx) →
  s1 = s ∧ mutation_end rd headers route s ctx.
Proof.
  intros Hm E.
  assert (s1 = s) as ->.
  { destruct (authorized_ends rd headers (trace_of rd headers) (route_target route) s) as (s' & r & E' & Hg).
    rewrite E in E'. injection E' as <- <-. by inversion Hg. }
  split; [done|]. destruct ctx as [actor trace key]. simpl in E.
  destruct route as [|body| |raw body|raw body|raw body| |raw body| |raw body|raw body| | | |raw body| | | | |]; try done;
    destruct actor, key; try (destruct (named_approval body) eqn:Hap);
    first [eapply MeRun; [simpl; use_approval|done|run_handler E]
          | eapply MeKeyless; [simpl; use_approval|done|run_handler E|reflexivity]
          | eapply MeRefused; [simpl; use_approval|run_handler E|apply (bool_decide_unpack _); vm_compute; exact I]].
Qed.

Lemma mutates_gated route : mutates route = true → route ≠ RtVersion.
Proof. by destruct route. Qed.
Lemma human_only_mutates route : human_only route = true → mutates route = true.
Proof. by destruct route. Qed.

(** C19: No agent token imports, builds, deploys or rolls back, whatever actor
    the request claims: it is refused, and nothing changes but at most one audit
    record. *)
Theorem agents_never_ship rd headers route s tok :
  human_only route = true → authenticate (bearer_of headers) (rd_auth rd) (as_tokens s) = Ok tok →
  at_scope tok = TsAgent →
  ∃ s' e, handle secrets scan rd headers route s = Done (s', Err e) ∧ ae_status e ∈ [403; 400] ∧ audited s s'.
Proof.
  intros Hr Ha Hs. pose proof (human_only_mutates _ Hr) as Hm.
  destruct (authorized_ends rd headers (trace_of rd headers) (route_target route) s) as (s1 & r & E & Hg).
  destruct r as [ctx|e].
  - destruct (mutation_ends _ _ _ _ _ _ Hm E) as [-> Hend]. inversion Hg as [| | |tok' actor Ha' _ Hsc]; subst.
    rewrite Ha in Ha'. injection Ha' as <-. rewrite Hs in Hsc. destruct actor; try done.
    inversion Hend as [? e Hrun E' Hst|? e Hrun|? key Hrun]; subst; [|by destruct route..].
    exists s, e. split_and!; [done..|by left].
  - destruct (handle_gated rd headers route (mutates_gated _ Hm)) as [rest ->]. unfold mbind, M_bind. rewrite E.
    exists s1, e. split; [done|]. inversion Hg as [|? ? ? ? He|? ? ? ? ? ? ? He ?|]; subst; [congruence| |];
      rewrite He; (split; [apply (bool_decide_unpack _); vm_compute; exact I|]); [by left|done].
Qed.

(* ------------------------------------------------------------------ *)
(** * What a request leaves alone *)

(** The tables of what is delivered, and, unless it imports, of what is declared. *)
Record db_frame (imports : bool) (d d' : AppDb) : Prop := {
  df_resources : t_resources d' = t_resources d;
  df_deployments : t_deployments d' = t_deployments d;
  df_capabilities : t_capabilities d' = t_capabilities d;
  df_declared : imports = false →
    t_applications d' = t_applications d ∧ t_environments d' = t_environments d ∧
    t_desired d' = t_desired d ∧ t_observed d' = t_observed d;
}.
Record frame (imports : bool) s s' : Prop := {
  fr_db : db_frame imports (as_db s) (as_db s');
  fr_logs : as_logs s' = as_logs s;
  fr_evidence : as_evidence s' = as_evidence s;
  fr_tokens : as_tokens s' = as_tokens s;
  fr_jobs : rtc pg_step (as_jobs s) (as_jobs s');
  fr_replays : as_replays s ⊆ as_replays s';
}.
#[local] Instance db_frame_preorder imports : PreOrder (db_frame imports).
Proof.
  split; [by split|]. intros d1 d2 d3 [] []. split; try congruence. naive_solver congruence.
Qed.
#[local] Instance frame_preorder imports : PreOrder (frame imports).
Proof.
  split; [intros s; by split|]. intros s1 s2 s3 [] []. split; try congruence; by etrans.
Qed.

Lemma frame_db imports {E A} (m : M AppDb E A) :
  within (db_frame imports) m → within (frame imports) (zoom as_db set_db m).
Proof.
  intros Hm. eapply within_zoom; [exact Hm|]. intros t s Ht. by split.
Qed.
Lemma frame_audit imports {E A} (m : M (list AuditRecord) E A) :
  within (db_frame imports) (zoom t_audit set_audit_log m).
Proof. apply within_zoom_frame. intros t d. by split. Qed.
Lemma frame_events imports {E A} (m : M (Serial EventRow) E A) :
  within (db_frame imports) (zoom t_events set_events m).
Proof. apply within_zoom_frame. intros t d. by split. Qed.
Lemma frame_plugins imports {E A} (m : M PluginRegistry E A) :
  within (frame imports) (zoom as_plugins set_plugins m).
Proof. apply within_zoom_frame. intros t s. by split. Qed.
Lemma frame_enqueue imports fresh target action version policy at_ :
  within (frame imports) (zoom as_jobs set_api_jobs (pg_enqueue fresh target action version policy at_)).
Proof.
  eapply (within_zoom _ _ _ _ pg_step).
  - intros t t' r E. exists (PgEnqueue fresh target action version policy at_). simpl. by rewrite E.
  - intros t s Ht. split; try done. by apply rtc_once.
Qed.
Lemma within_transaction {S E A} (R : S → S → Prop) `{!PreOrder R} (m : M S E A) :
  within R m → within R (transaction m).
Proof.
  intros Hm s s' r. unfold transaction. destruct (m s) as [[s1 [a|e]]|] eqn:Em; intros [= <- <-]; [eauto|done].
Qed.
Lemma frame_save app : within (db_frame true) (application_save app).
Proof.
  assert (∀ envs, within (db_frame true) (upsert_environments envs)) as He.
  { intros envs. induction envs as [|e envs IH]; [by intros ? ? ? [= <- _]|]. simpl. apply within_bind; [apply _| |done].
    intros d1 d2 r2. unfold upsert_environment. unfold_monad. repeat case_match; intros; simplify_eq/=; done. }
  apply within_transaction, within_bind; [apply _..| |intros _].
  { intros d1 d2 r2. unfold upsert_application. unfold_monad. repeat case_match; intros; simplify_eq/=; done. }
  apply within_bind; [apply _|apply He|intros _]. apply within_bind; [apply _| |intros _].
  - intros d1 d2 r2. unfold upsert_desired_state. unfold_monad. repeat case_match; intros; simplify_eq/=; done.
  - intros d1 d2 r2. unfold upsert_observed_state, upsert_observed_state_conn. unfold_monad.
    repeat case_match; intros; simplify_eq/=; done.
Qed.
Lemma frame_store imports rd key command response :
  within (frame imports) (store_replay secrets rd key command response).
Proof.
  intros s s' r. unfold store_replay. unfold_monad. repeat case_match; intros; simplify_eq/=; try done.
  split; try done. simpl. by apply insert_subseteq.
Qed.
#[local] Hint Resolve frame_db frame_audit frame_events frame_plugins frame_enqueue frame_store frame_save : within.

Lemma frame_replay imports key : within (frame imports) (check_replay key).
Proof. unfold check_replay. framed. Qed.
Lemma frame_api_enqueue imports rd target action at_ : within (frame imports) (api_enqueue rd target action at_).
Proof. unfold api_enqueue. framed. Qed.
Lemma frame_event imports rd ctx action result kind id detail at_ :
  within (frame imports) (api_record_event secrets rd ctx action result kind id detail at_).
Proof. unfold api_record_event. framed. Qed.
Lemma frame_load imports rd ctx raw : within (frame imports) (load_app rd ctx raw).
Proof. unfold load_app. framed. Qed.
#[local] Hint Resolve frame_replay frame_api_enqueue frame_event frame_load : within.
Lemma frame_accept imports rd ctx key command target action event kind id detail resource data recovery :
  within (frame imports) (accept secrets rd ctx key command target action event kind id detail resource data recovery).
Proof. unfold accept. framed. Qed.
Lemma frame_authorized imports rd headers trace_id target :
  within (frame imports) (authorized secrets rd headers trace_id target).
Proof. unfold authorized, audit_auth_denial. framed. Qed.
#[local] Hint Resolve frame_accept frame_authorized : within.
Lemma frame_unless imports ctx key command :
  within (frame imports) command → within (frame imports) (unless_replayed ctx key command).
Proof. intros Hc. unfold unless_replayed. framed. Qed.
#[local] Hint Resolve frame_unless : within.
Definition imports (route : Route) : bool := match route with RtImport _ => true | _ => false end.
Lemma frame_handle rd headers route : within (frame (imports route)) (handle secrets scan rd headers route).
Proof.
  destruct route; simpl; unfold import, import_command, inspect, run_dev, agent, preview, mutate_simple,
    simple_command, capabilities, capability, capability_command, resources, build, build_command, deploy,
    deploy_command, deployments, logs, api_health, rollback, rollback_command, doctor, api_job_status,
    negotiate_agent, handshake_plugin, list_plugins, refuse, reading;
    repeat (intros; first [apply frame_unless|framed_step]).
Qed.

(** One request served, or one statement of a worker on the queue. *)
Inductive system_step s : ApiState → Prop :=
| SsRequest elapsed_at instant peer rd headers route s' response :
    serve secrets scan elapsed_at instant peer rd headers route s = Done (s', response) → system_step s s'
| SsQueue t : pg_step (as_jobs s) t → system_step s (set_api_jobs t s).

Lemma frame_served elapsed_at instant peer rd headers route s s' response :
  serve secrets scan elapsed_at instant peer rd headers route s = Done (s', response) → frame (imports route) s s'.
Proof.
  unfold serve. unfold_monad. destruct (rate_limit _ _ _ _ _ _ s) as [[s1 r]|] eqn:E; [|done]. intros [= <- _].
  revert E. apply within_bind; [apply _| |intros _; apply frame_handle]. destruct peer; [|framed].
  apply within_map_err, within_zoom_frame. intros t s0. by split.
Qed.
Definition delivered (d : AppDb) := (t_resources d, t_deployments d, t_capabilities d).

Lemma later_keeps s s' :
  rtc system_step s s' →
  delivered (as_db s') = delivered (as_db s) ∧ as_logs s' = as_logs s ∧ as_evidence s' = as_evidence s ∧
  as_tokens s' = as_tokens s ∧ rtc pg_step (as_jobs s) (as_jobs s') ∧ as_replays s ⊆ as_replays s'.
Proof.
  assert (∀ s1 s2, system_step s1 s2 → delivered (as_db s2) = delivered (as_db s1) ∧ as_logs s2 = as_logs s1 ∧
    as_evidence s2 = as_evidence s1 ∧ as_tokens s2 = as_tokens s1 ∧ rtc pg_step (as_jobs s1) (as_jobs s2) ∧
    as_replays s1 ⊆ as_replays s2) as Hstep.
  { intros s1 s2 [elapsed_at instant peer rd headers route s3 response E|t Ht].
    - apply frame_served in E as [[Hr Hd Hc _] ? ? ? ? ?]. unfold delivered. rewrite Hr, Hd, Hc. done.
    - split_and!; try done. by apply rtc_once. }
  induction 1 as [s|s1 s2 s3 E _ IH]; [done|]. apply Hstep in E.
  destruct E as (? & ? & ? & ? & ? & ?), IH as (? & ? & ? & ? & ? & ?). split_and!; try congruence; by etrans.
Qed.
(** C20: Whatever requests are served and whatever the workers do to the
    queue, the API delivers nothing itself: no resource, deployment, capability,
    log or piece of evidence changes and no token does, the queue moves by its own
    statements only, and a recorded response is never lost or replaced. *)
Theorem requests_never_deliver s s' :
  rtc system_step s s' →
  delivered (as_db s') = delivered (as_db s) ∧ as_logs s' = as_logs s ∧ as_evidence s' = as_evidence s ∧
  as_tokens s' = as_tokens s ∧ rtc pg_step (as_jobs s) (as_jobs s') ∧ as_replays s ⊆ as_replays s'.
Proof. apply later_keeps. Qed.

(* ------------------------------------------------------------------ *)
(** * One effect per key *)

Section Replays.
Context `{!JsonLaws} `{!JsonIndexLaws}.

Lemma keep_replays_zoom_db {E A} (m : M AppDb E A) : within (keeps as_replays) (zoom as_db set_db m).
Proof. by apply within_zoom_frame. Qed.
Lemma keep_replays_enqueue rd target action at_ : within (keeps as_replays) (api_enqueue rd target action at_).
Proof. unfold api_enqueue. framed. by apply within_zoom_frame. Qed.
Lemma keep_replays_event rd ctx action result kind id detail at_ :
  within (keeps as_replays) (api_record_event secrets rd ctx action result kind id detail at_).
Proof. unfold api_record_event. framed. by apply within_zoom_frame. Qed.
Lemma keep_replays_load rd ctx raw : within (keeps as_replays) (load_app rd ctx raw).
Proof. unfold load_app. framed. Qed.

(** What was stored under a key that had no record. *)
Definition recorded (key : string) (response : Json) s : Prop :=
  ∃ row detail, as_replays s !! key = Some row ∧ 
    redact_guard "idempotency_records.response" (json_print response) secrets = Ok detail ∧
    rp_response row = default json_null (json_parse detail).
Lemma store_records rd key command response s s' :
  as_replays s !! key = None → store_replay secrets rd key command response s = Done (s', Ok tt) →
  recorded key response s'.
Proof.
  intros Hn E. unfold store_replay in E. apply M_bind_Ok in E as (s1 & detail & E1 & E).
  unfold lift_r in E1. injection E1 as <- E1. apply M_bind_Ok in E as (s2 & s2' & E2 & E). injection E2 as <- <-.
  rewrite Hn in E. injection E as <-. eexists _, detail. simpl. rewrite lookup_insert_eq. done.
Qed.
Lemma accept_records rd ctx key command target action event kind id detail resource data recovery s s' response :
  as_replays s !! key = None →
  accept secrets rd ctx key command target action event kind id detail resource data recovery s = Done (s', Ok response) →
  recorded key response s' ∧
  ∃ job, response = envelope command ctx false (Some resource) (Some data) (Some job) (Some recovery) ∧
    ∃ s1 dup, api_enqueue rd target action (rd_now rd) s = Done (s1, Ok (job, dup)) ∧ as_jobs s' = as_jobs s1.
Proof.
  intros Hn E. unfold accept in E. apply M_bind_Ok in E as (s1 & [job dup] & E1%map_err_Ok & E).
  apply M_bind_Ok in E as (s2 & [] & E2%map_err_Ok & E). apply M_bind_Ok in E as (s3 & [] & E3%map_err_Ok & E).
  injection E as <- <-. pose proof (keep_replays_enqueue _ _ _ _ _ _ _ E1) as K1.
  pose proof (keep_replays_event _ _ _ _ _ _ _ _ _ _ _ E2) as K2. unfold keeps in K1, K2.
  split; [eapply store_records; [|exact E3]; by rewrite K2, K1|]. eexists. split; [done|]. exists s1, dup. split; [done|].
  assert (within (keeps as_jobs) (api_record_event secrets rd ctx event ErAccepted kind id detail (rd_now rd))) as J2
    by (unfold api_record_event; framed; by apply within_zoom_frame).
  assert (within (keeps as_jobs) (store_replay secrets rd key command
    (envelope command ctx false (Some resource) (Some data) (Some job) (Some recovery)))) as J3.
  { intros t t' r. unfold store_replay. unfold_monad. repeat case_match; intros; by simplify_eq/=. }
  rewrite (J3 _ _ _ E3). apply (J2 _ _ _ E2).
Qed.

Lemma job_attempts_range r j : job_from_row r = Ok j → 0 ≤ job_attempts j ≤ u64_max.
Proof.
  unfold job_from_row. intros E. repeat (apply result_bind_Ok in E as (? & _ & E)). injection E as <-. simpl.
  unfold i32_as_u32, u64_max, u32_max. pose proof (Z.mod_pos_bound (jr_attempts r) (4294967295 + 1) ltac:(lia)). lia.
Qed.
Lemma enqueued_job rd target action at_ s s' job dup :
  api_enqueue rd target action at_ s = Done (s', Ok (job, dup)) → ∃ id, pg_get id (as_jobs s') = Ok job.
Proof.
  unfold api_enqueue. intros (s1 & policy & _ & E)%M_bind_Ok. apply M_bind_Ok in E as (s2 & o & _ & E).
  apply M_bind_Ok in E as (s3 & s3' & E3 & E). injection E3 as <- <-.
  destruct o as [id|id]; apply M_bind_Ok in E as (s4 & j & E4 & E); injection E as <- <- <-;
    unfold lift_r in E4; injection E4 as <- E4; by exists id.
Qed.
Lemma json_exact_option {A} (f : A → Json) o : (∀ a, json_exact (f a)) → json_exact (json_option (f <$> o)).
Proof. intros Hf. destruct o; simpl; [apply Hf|apply json_exact_null]. Qed.
Ltac exact_object := apply json_exact_object; [apply (bool_decide_unpack _); vm_compute; exact I|].
Create HintDb exact.
#[local] Hint Resolve json_exact_str json_exact_option : exact.
#[local] Hint Extern 1 (json_exact (json_bool _)) => apply json_exact_bool : exact.
Lemma kind_id_exact kind id : json_exact (kind_id kind id).
Proof. unfold kind_id. exact_object. repeat constructor; simpl; auto with exact. Qed.
#[local] Hint Resolve kind_id_exact : exact.
Lemma envelope_exact command ctx replayed resource data job recovery id t :
  pg_get id t = Ok job → json_exact resource → json_exact data →
  json_exact (envelope command ctx replayed (Some resource) (Some data) (Some job) (Some recovery)).
Proof.
  intros Hj Hr Hd. unfold envelope. exact_object. simpl.
  repeat (apply Forall_cons; split; [simpl|]); auto with exact; try (exact_object; repeat constructor; simpl; auto with exact).
  - unfold pg_get in Hj. apply result_bind_Ok in Hj as (row & _ & Hj). apply json_exact_u64. by eapply job_attempts_range.
  - by apply json_exact_u64.
  - by apply json_exact_u64.
  - by apply json_exact_u64.
Qed.

Definition is_object (j : Json) : Prop := ∃ l, j = json_object l.
(** A performed command records its response. *)
Lemma import_records rd body ctx key s s' response :
  as_replays s !! key = None → import_command secrets rd body ctx key s = Done (s', Ok response) →
  recorded key response s' ∧ json_exact response ∧ is_object response.
Proof.
  intros Hn E. unfold import_command in E. apply M_bind_Ok in E as (s1 & [] & E1%map_err_Ok & E).
  apply M_bind_Ok in E as (s2 & [job dup] & E2%map_err_Ok & E). apply M_bind_Ok in E as (s3 & [] & E3%map_err_Ok & E).
  apply M_bind_Ok in E as (s4 & s4' & E4 & E). injection E4 as <- <-.
  apply M_bind_Ok in E as (s5 & app & E5%map_err_Ok & E). injection E5 as <- _.
  apply M_bind_Ok in E as (s6 & [] & E6%map_err_Ok & E). injection E as <- <-.
  apply keep_replays_zoom_db in E1. pose proof (keep_replays_enqueue _ _ _ _ _ _ _ E2) as K2.
  apply keep_replays_event in E3. unfold keeps in *. split; [eapply store_records; [|exact E6]; congruence|]. split; [|by eexists].
  destruct (enqueued_job _ _ _ _ _ _ _ _ E2) as [id Hid]. eapply envelope_exact; [exact Hid|auto with exact|].
  exact_object. repeat (apply Forall_cons; split; [simpl; auto with exact|]); [|constructor].
  apply json_exact_array, Forall_forall. intros j (e & -> & _)%list_elem_of_fmap. auto with exact.
Qed.
Lemma loaded_then {A} rd ctx raw (f : Application → M ApiState ApiError A) s s' a :
  (load_app rd ctx raw ≫= f) s = Done (s', Ok a) →
  ∃ id app, ApplicationId_from_str raw = Ok id ∧ application_get (rd_loaded rd) id (as_db s) = Ok app ∧
    f app s = Done (s', Ok a).
Proof.
  unfold load_app, mbind, M_bind. destruct (ApplicationId_from_str raw) as [id|]; [|done]. simpl.
  destruct (application_get _ _ _) as [app|] eqn:Ea; [|done]. simpl. eauto.
Qed.
Lemma accept_exact rd ctx key command target action event kind id detail resource data recovery s s' response :
  as_replays s !! key = None → json_exact resource → json_exact data →
  accept secrets rd ctx key command target action event kind id detail resource data recovery s = Done (s', Ok response) →
  recorded key response s' ∧ json_exact response ∧ is_object response.
Proof.
  intros Hn Hr Hd (Hrec & job & -> & s1 & dup & E & _)%accept_records; [|done]. split; [done|].
  destruct (enqueued_job _ _ _ _ _ _ _ _ E) as [jid Hj]. split; [by eapply envelope_exact|by eexists].
Qed.
Ltac exact_strings := exact_object; repeat (apply Forall_cons; split; [simpl; auto with exact|]); constructor.
Lemma command_records rd route ctx key s s' response :
  mutates route = true → may_run route ctx = true → as_replays s !! key = None →
  command rd route ctx key s = Done (s', Ok response) → recorded key response s' ∧ json_exact response ∧ is_object response.
Proof.
  intros Hm Hr Hn. destruct route as [|body| |raw body|raw body|raw body| |raw body| |raw body|raw body| | | |raw body| | | | |];
    try done; simpl; [by apply import_records| | | | | | |simpl in Hr; destruct (named_approval body) as [approval|]; [|by rewrite andb_false_r in Hr]];
    intros (id & app & _ & _ & E)%loaded_then; revert E.
  1-3,5: apply accept_exact; [done|auto with exact|exact_strings].
  - cbv zeta. destruct (trim_is_empty _); [done|]. apply accept_exact; [done|auto with exact|exact_strings].
  - cbv zeta. destruct (negb _); [done|]. apply accept_exact; [done|auto with exact|exact_strings].
  - intros (s1 & s1' & E1 & E)%M_bind_Ok. injection E1 as <- <-.
    apply M_bind_Ok in E as (s2 & target & E2 & E). injection E2 as <- _. revert E.
    apply accept_exact; [done|auto with exact|exact_strings].
Qed.

Lemma unless_fresh ctx key c s : as_replays s !! key = None → unless_replayed ctx key c s = c s.
Proof. intros Hn. unfold unless_replayed, check_replay, map_err. unfold_monad. by rewrite Hn. Qed.
Lemma unless_used ctx key c s row replay :
  as_replays s !! key = Some row → json_set "replayed" (json_bool true) (rp_response row) = Done replay →
  unless_replayed ctx key c s = Done (s, Ok replay).
Proof. intros Hr Hset. unfold unless_replayed, check_replay, map_err. unfold_monad. rewrite Hr. simpl. by rewrite Hset. Qed.

Lemma mutation_Ok rd headers route s s' r :
  mutates route = true → handle secrets scan rd headers route s = Done (s', Ok r) →
  ∃ ctx key, may_run route ctx = true ∧ idempotency_of headers = Some key ∧
    (s' = s ∧ is_Some (as_replays s !! key) ∨
     as_replays s !! key = None ∧ command rd route ctx key s = Done (s', Ok r)).
Proof.
  intros Hm E.
  destruct (authorized_ends rd headers (trace_of rd headers) (route_target route) s) as (s0 & r0 & Ea & Hg).
  destruct r0 as [ctx|e].
  - destruct (mutation_ends _ _ _ _ _ _ Hm Ea) as [-> Hend].
    assert (cx_idempotency_key ctx = idempotency_of headers) as Hctx by (by inversion Hg).
    inversion Hend as [? ? ? E'|? ? ? ? E'|? key Hr Hkey E']; subst; rewrite E' in E; [done..|].
    exists ctx, key. rewrite <- Hctx. split; [done|]. split; [done|].
    destruct (as_replays s !! key) as [row|] eqn:Hrow; [left|right; by rewrite unless_fresh in E].
    split; [|done]. unfold unless_replayed, check_replay, map_err in E. unfold_monad_in E. rewrite Hrow in E. simpl in E.
    destruct (json_set _ _ _); [|done]. by injection E.
  - destruct (handle_gated rd headers route (mutates_gated _ Hm)) as [rest Eh]. rewrite Eh in E.
    unfold mbind, M_bind in E. by rewrite Ea in E.
Qed.

(** C21: A key has one effect.  Once a command was accepted under a fresh key,
    whatever is served and worked off afterwards, every permitted command with that
    key changes nothing and gets the recorded response, marked as replayed - also
    when it is another command or names another application. *)
Theorem response_is_replayed rd headers route s s1 response key s2 rd' headers' route' ctx' :
  mutates route = true → idempotency_of headers = Some key → as_replays s !! key = None →
  handle secrets scan rd headers route s = Done (s1, Ok response) →
  redact (json_print response) secrets = json_print response →
  rtc system_step s1 s2 →
  mutates route' = true →
  authorized secrets rd' headers' (trace_of rd' headers') (route_target route') s2 = Done (s2, Ok ctx') →
  may_run route' ctx' = true → cx_idempotency_key ctx' = Some key →
  ∃ replay, handle secrets scan rd' headers' route' s2 = Done (s2, Ok replay) ∧
    json_get "replayed" replay = Some (json_bool true) ∧
    ∀ k, k ≠ "replayed" → json_get k replay = json_get k response.
Proof.
  intros Hm Hk Hn E Hred Hlater Hm' Ha' Hr' Hk'.
  assert (recorded key response s1 ∧ json_exact response ∧ is_object response) as ((row & detail & Hrow & Hdet & Hresp) & Hex & Hobj).
  { destruct (mutation_Ok _ _ _ _ _ _ Hm E) as (ctx & key' & Hr & Hkey & Hcase).
    assert (key' = key) as -> by congruence. destruct Hcase as [[_ [row Hrow]]|[_ C]]; [congruence|].
    exact (command_records _ _ _ _ _ _ _ Hm Hr Hn C). }
  assert (rp_response row = response) as Hrp.
  { unfold redact_guard in Hdet. apply result_bind_Ok in Hdet as ([] & _ & Hdet). injection Hdet as <-.
    rewrite Hresp, Hred, json_parse_print by done. done. }
  assert (as_replays s2 !! key = Some row) as Hrow2.
  { destruct (later_keeps _ _ Hlater) as (_ & _ & _ & _ & _ & Hsub). by eapply lookup_weaken. }
  destruct (mutation_ends _ _ _ _ _ _ Hm' Ha') as [_ Hend].
  inversion Hend as [? ? Hf|? ? ? Hf|? key' _ Hkey E']; subst; [congruence..|].
  rewrite Hk' in Hkey. injection Hkey as <-. rewrite E'. clear E'.
  assert (∃ replay, json_set "replayed" (json_bool true) (rp_response row) = Done replay) as [replay Hset].
  { destruct Hobj as (l & ->). apply json_set_object. }
  exists replay. split; [by eapply unless_used|].
  split; [by rewrite (json_get_set _ _ _ _ _ Hset), decide_True|].
  intros k Hne. by rewrite (json_get_set _ _ _ _ _ Hset), decide_False.
Qed.
End Replays.

(* ------------------------------------------------------------------ *)
(** * A step is enqueued once *)

Section Steps.
Context `{!UuidLaws} `{!SerdeLaws RetryPolicy}.

Definition has_key (key : string) (t : gmap string JobRow) : Prop := ∃ k r, t !! k = Some r ∧ jr_key r = key.
Lemma has_key_step key t t' : table_wf t → pg_step t t' → has_key key t → has_key key t'.
Proof.
  intros Hwf [op Hop] (k & r & Hr & Hk). pose proof (pg_op_effect _ _ _ k Hwf Hop) as He. rewrite Hr in He.
  inversion He; subst; eexists k, _; by split.
Qed.
Lemma has_key_run key t t' : table_wf t → rtc pg_step t t' → has_key key t → table_wf t' ∧ has_key key t'.
Proof.
  intros Hwf Hrun. revert Hwf. induction Hrun as [|t1 t2 t3 Hs _ IH]; [done|]. intros Hwf Hk.
  apply IH; [by eapply pg_step_wf|by eapply has_key_step].
Qed.
Lemma enqueue_leaves_key fresh target action version policy at_ t t' o :
  pg_enqueue fresh target action version policy at_ t = Done (t', Ok o) →
  has_key (IdempotencyKey_new target action version) t' ∧
  (has_key (IdempotencyKey_new target action version) t → t' = t).
Proof.
  unfold pg_enqueue. intros E. unfold_monad_in E.
  destruct (to_value policy) as [v|]; [|done]. simpl in E.
  pose proof (with_key_spec (IdempotencyKey_new target action version) t) as Hkey.
  destruct (with_key _ t) as [r|].
  - destruct (parse_job_id _); [|done]. injection E as <- _. destruct Hkey as (k & Hr & Hk). split; [by exists k, r|done].
  - case_decide; [done|]. injection E as <- _. split; [|intros (k & r & Hr & Hk); by apply Hkey in Hr].
    eexists _, _. rewrite lookup_insert_eq. done.
Qed.
Lemma api_enqueue_key rd target action at_ s s' a :
  api_enqueue rd target action at_ s = Done (s', Ok a) →
  has_key (IdempotencyKey_new target action 1) (as_jobs s') ∧
  (has_key (IdempotencyKey_new target action 1) (as_jobs s) → as_jobs s' = as_jobs s).
Proof.
  unfold api_enqueue. intros (s1 & policy & E1 & E)%M_bind_Ok. apply M_bind_Ok in E as (s2 & o & E2 & E).
  assert (s1 = s) as -> by (unfold lift_o in E1; destruct RetryPolicy_default; by simplify_eq).
  assert (s' = s2) as ->.
  { apply M_bind_Ok in E as (s3 & s3' & E3 & E). injection E3 as <- <-.
    destruct o; apply M_bind_Ok in E as (s4 & j & E4 & E); injection E as <- _; by injection E4. }
  unfold zoom in E2. destruct (pg_enqueue _ _ _ _ _ _ _) as [[t r]|] eqn:Ep; [|done]. injection E2 as <- ->.
  by apply enqueue_leaves_key in Ep.
Qed.
Lemma deploy_enqueues rd raw body ctx key s s' r :
  as_replays s !! key = None → deploy_command secrets rd raw body ctx key s = Done (s', Ok r) →
  ∃ id app, ApplicationId_from_str raw = Ok id ∧ application_get (rd_loaded rd) id (as_db s) = Ok app ∧
    ∃ s1 a, api_enqueue rd (id_fmt (app_id app) +:+ ":deploy:" +:+ default "production" (mb_environment body))
      JRollout (rd_now rd) s = Done (s1, Ok a) ∧ as_jobs s' = as_jobs s1.
Proof.
  intros Hn (id & app & Hid & Hg & E)%loaded_then. exists id, app. split; [done|]. split; [done|]. revert E. cbv zeta.
  destruct (negb _); [done|]. intros (_ & job & _ & s1 & dup & E & J)%accept_records; [|done]. eauto.
Qed.
(** Every application row is stored under its own identifier. *)
Definition keyed (d : AppDb) : Prop := ∀ k row, t_applications d !! k = Some row → aw_id row = k.
Lemma loaded_id now id d app : keyed d → application_get now id d = Ok app → app_id app = id.
Proof.
  intros Hk E. unfold application_get in E. apply result_bind_Ok in E as (row & Hrow & E).
  destruct (t_applications d !! id_fmt id) as [row'|] eqn:Hl; [|done]. injection Hrow as <-.
  unfold load_aggregate in E. apply result_bind_Ok in E as (app0 & E0 & E).
  do 3 apply result_bind_Ok in E as (? & _ & E). injection E as <-. simpl.
  unfold application_from_row in E0. rewrite (Hk _ _ Hl) in E0.
  pose proof (id_round_trip KApplication id) as Hid.
  change (id_from_str (id_fmt id)) with (ApplicationId_from_str (id_fmt id)) in Hid. rewrite Hid in E0. simpl in E0.
  do 4 apply result_bind_Ok in E0 as (? & _ & E0). by injection E0 as <-.
Qed.

(** C22: An environment is deployed through the API once.  After an accepted
    deploy, whatever requests are served and however the queue works the job off,
    another accepted deploy of the same environment, with its own key, adds no
    job: the queue holds every finished step for ever, and the API never raises the
    version of a step. *)
Theorem second_deploy_never_runs rd headers raw body s s1 r1 key s2 rd' headers' body' s3 r2 :
  pg_reachable (as_jobs s) → keyed (as_db s) → keyed (as_db s2) →
  idempotency_of headers = Some key → as_replays s !! key = None →
  handle secrets scan rd headers (RtDeploy raw body) s = Done (s1, Ok r1) →
  rtc system_step s1 s2 →
  default "production" (mb_environment body') = default "production" (mb_environment body) →
  handle secrets scan rd' headers' (RtDeploy raw body') s2 = Done (s3, Ok r2) →
  as_jobs s3 = as_jobs s2.
Proof.
  intros Hreach Hk1 Hk2 Hkey Hn E1 Hlater Henv E2. pose proof (fr_jobs _ _ _ (frame_handle _ _ _ _ _ _ E1)) as Hq1.
  apply mutation_Ok in E1 as (ctx & key1 & Hr1 & Hkey1 & [[_ [row Hrow]]|[_ C1]]); [| |done]; [congruence|].
  apply mutation_Ok in E2 as (ctx2 & key2 & Hr2 & Hkey2 & [[-> _]|[Hn2 C2]]); [done| |done].
  rewrite Hkey in Hkey1. injection Hkey1 as <-.
  apply deploy_enqueues in C1 as (id1 & app1 & Hid1 & Hg1 & s1' & a1 & Q1 & J1); [|done].
  apply deploy_enqueues in C2 as (id2 & app2 & Hid2 & Hg2 & s3' & a2 & Q2 & J3); [|done].
  rewrite Hid1 in Hid2. injection Hid2 as <-. rewrite (loaded_id _ _ _ _ Hk1 Hg1) in Q1.
  rewrite (loaded_id _ _ _ _ Hk2 Hg2), Henv in Q2.
  apply api_enqueue_key in Q1 as [Q1 _]. pose proof (later_keeps _ _ Hlater) as (_ & _ & _ & _ & Hjobs & _).
  assert (table_wf (as_jobs s1)) as Hwf.
    by (apply pg_reachable_wf; by eapply rtc_trans).
  rewrite J1 in *. destruct (has_key_run _ _ _ Hwf Hjobs Q1) as [_ Q]. rewrite J3. by apply api_enqueue_key in Q2 as [_ ->].
Qed.
End Steps.

(* ------------------------------------------------------------------ *)
(** * Health *)

Definition state_rank (state : string) : Z :=
  if decide (state = "failed") then 4 else if decide (state = "degraded") then 3
  else if decide (state = "in_progress") then 2 else if decide (state = "healthy") then 1 else 0.
Lemma overall_after_rank overall entry :
  state_rank (overall_after overall entry) = Z.max (state_rank overall) (state_rank entry).
Proof. unfold overall_after, state_rank. repeat (case_decide; simplify_eq; try lia). Qed.
(** The current deployment of an environment. *)
Definition current_of (app : Application) s (env : Environment) (d : Deployment) : Prop :=
  ∃ l, deployment_list_for_environment (app_id app) (env_id env) (as_db s) = Ok l ∧ current_deployment l = Some d.
Lemma health_entry_rank app env overall s entry overall' :
  health_entry app env overall s = Ok (entry, overall') →
  (∃ d, current_of app s env d ∧
     state_rank overall' = Z.max (state_rank overall) (state_rank (phase_state (dep_phase d)))) ∨
  ((∀ d, ¬ current_of app s env d) ∧ (overall' = overall ∨ overall = "unknown" ∧ overall' = "in_progress")).
Proof.
  unfold health_entry. intros (l & Hl & E)%result_bind_Ok. destruct (current_deployment l) as [d|] eqn:Hd.
  - left. exists d. split; [by exists l|]. apply result_bind_Ok in E as (job & _ & E). injection E as _ <-.
    apply overall_after_rank.
  - right. split; [intros d (l' & Hl' & Hd'); congruence|]. apply result_bind_Ok in E as (job & _ & E).
    injection E as _ <-. destruct (is_some job); simpl; [|by left]. case_bool_decide; [by right|by left].
Qed.
Lemma current_unique app s env d d' : current_of app s env d → current_of app s env d' → d = d'.
Proof. intros (l & Hl & Hd) (l' & Hl' & Hd'). congruence. Qed.
Lemma state_rank_nonneg state : 0 ≤ state_rank state.
Proof. unfold state_rank. repeat case_decide; lia. Qed.
Lemma rank_healthy state : state_rank state = 1 → state = "healthy".
Proof. unfold state_rank. repeat case_decide; done. Qed.
Definition app_of rd raw s app : Prop :=
  ∃ id, ApplicationId_from_str raw = Ok id ∧ application_get (rd_loaded rd) id (as_db s) = Ok app.
Lemma health_entries_rank app envs s : ∀ overall entries overall',
  health_entries app envs overall s = Ok (entries, overall') →
  state_rank overall ≤ state_rank overall' ∧
  (∀ env d, env ∈ envs → current_of app s env d → state_rank (phase_state (dep_phase d)) ≤ state_rank overall') ∧
  (state_rank overall' = 1 → state_rank overall = 1 ∨
     ∃ env d, env ∈ envs ∧ current_of app s env d ∧ phase_state (dep_phase d) = "healthy").
Proof.
  induction envs as [|env envs IH]; intros overall entries overall' E.
  - injection E as _ <-. split; [done|]. split; [by intros ? ? ?%elem_of_nil|by left].
  - simpl in E. apply result_bind_Ok in E as ([entry o1] & E1 & E). apply result_bind_Ok in E as ([es o2] & E2 & E).
    injection E as _ <-. destruct (IH _ _ _ E2) as (Hle & Hall & Hone).
    apply health_entry_rank in E1 as [(d & Hd & Ho1)|(Hnone & [->|[-> ->]])].
    + split; [lia|]. split.
      * intros env' d' [->|Hin]%elem_of_cons Hd'; [|by eapply Hall]. rewrite (current_unique _ _ _ _ _ Hd' Hd). lia.
      * intros Hst. destruct (Hone Hst) as [Ho|(env' & d' & Hin & Hrest)]; [|right; exists env', d'; by split; [right|]].
        destruct (decide (state_rank overall = 1)) as [Heq|Hne]; [by left|right]. exists env, d. split; [left|].
        split; [done|]. apply rank_healthy. pose proof (state_rank_nonneg (phase_state (dep_phase d))).
        pose proof (state_rank_nonneg overall). lia.
    + split; [done|]. split.
      * intros env' d' [->|Hin]%elem_of_cons Hd'; [by destruct (Hnone d')|by eapply Hall].
      * intros Hst. destruct (Hone Hst) as [Ho|(env' & d' & Hin & Hrest)]; [by left|right; exists env', d'; by split; [right|]].
    + change (state_rank "in_progress") with 2 in Hle. change (state_rank "unknown") with 0. split; [lia|]. split; [|lia].
      intros env' d' [->|Hin]%elem_of_cons Hd'; [by destruct (Hnone d')|by eapply Hall].
Qed.

(** C23: An application is reported healthy only on the strength of a
    deployment: the current one of some environment asked for is healthy, and the
    current one of none is failed, degraded or in progress. *)
Theorem healthy_needs_a_healthy_deployment rd headers raw page s s' response :
  handle secrets scan rd headers (RtHealth raw page) s = Done (s', Ok response) →
  ∃ app state entries, app_of rd raw s app ∧
    health_entries app (wanted_environments page app) "unknown" s = Ok (entries, state) ∧ s' = s ∧
    (∃ ctx recovery, response = envelope "health" ctx false (Some (kind_id "application" (id_fmt (app_id app))))
       (Some (json_object [("state", json_str state); ("environments", json_array entries)])) None recovery) ∧
    (state = "healthy" →
     (∃ env d, env ∈ wanted_environments page app ∧ current_of app s env d ∧ dep_phase d = DpHealthy) ∧
     ∀ env d, env ∈ wanted_environments page app → current_of app s env d →
       dep_phase d ∈ [DpHealthy; DpSuperseded; DpRolledBack]).
Proof.
  intros E. unfold handle, api_health in E. apply M_bind_Ok in E as (s1 & ctx & E1 & E).
  assert (s1 = s) as ->.
  { destruct (authorized_ends rd headers (trace_of rd headers) "GET /v1/applications/{app}/health" s)
      as (s0 & r & E' & Hg). rewrite E1 in E'. injection E' as <- <-. by inversion Hg. }
  apply loaded_then in E as (id & app & Hid & Hg & E). apply M_bind_Ok in E as (s2 & s2' & E2 & E). injection E2 as <- <-.
  unfold lift_r in E. injection E as <- E. apply result_bind_Ok in E as ([entries state] & Hh & E).
  unfold map_err_r in Hh. destruct (health_entries _ _ _ _) as [[es st]|] eqn:He; [|done]. injection Hh as <- <-.
  exists app, st, es. split; [by exists id|]. split; [done|]. split; [done|].
  split; [by injection E as <-; eexists _, _|]. clear E. intros ->.
  destruct (health_entries_rank _ _ _ _ _ _ He) as (_ & Hall & Hone). split.
  - destruct (Hone eq_refl) as [|(env & d & Hin & Hc & Hst)]; [done|]. exists env, d. split_and!; [done..|].
    by destruct (dep_phase d).
  - intros env d Hin Hc. specialize (Hall env d Hin Hc). change (state_rank "healthy") with 1 in Hall.
    apply (bool_decide_unpack _). destruct (dep_phase d); try (vm_compute; exact I); by vm_compute in Hall.
Qed.
(** Work on an environment without a deployment is hidden behind a healthy
    environment that sorts before it, and shown when it sorts first. *)
Lemma progress_depends_on_order app env s entry overall' :
  (∀ d, ¬ current_of app s env d) → health_entry app env "healthy" s = Ok (entry, overall') → overall' = "healthy".
Proof. intros Hn [(d & Hd & _)|(_ & [->|[? _]])]%health_entry_rank; [by destruct (Hn d)|done|done]. Qed.

(* ------------------------------------------------------------------ *)
(** * Targets and pages *)

(** A rollback checks that its target exists, has an image and was once safe; that
    it belongs to the application is not among the checks. *)
Lemma rollback_target_spec ctx body d target :
  rollback_target ctx body d = Ok target ↔
  (raw ← mb_target body; match DeploymentId_from_str raw with Ok t => Some t | Err _ => None end) = Some target ∧
  ∃ dep, deployment_get target d = Ok dep ∧ is_Some (dep_image dep) ∧
    dep_phase dep ∈ [DpHealthy; DpSuperseded; DpRolledBack].
Proof.
  unfold rollback_target. unfold_monad. destruct (mb_target body) as [raw|]; simpl; [|naive_solver].
  destruct (DeploymentId_from_str raw) as [t|]; simpl; [|naive_solver].
  destruct (deployment_get t d) as [dep|] eqn:Hd; simpl; [|naive_solver congruence].
  destruct (dep_image dep) as [i|] eqn:Hi; simpl; [|split; [done|]; intros [[= <-] (dep' & E & [? Hi'] & _)]; congruence].
  case_bool_decide as Hp; simpl; split; try done.
  - intros [= <-]. eauto 10.
  - by intros [[= <-] _].
  - intros [[= <-] (dep' & E & _ & Hp')]. congruence.
Qed.
(** The pages of one limit, put together, are the whole list. *)
Lemma page_bound {A} limit offset (l : list A) : Z.of_nat (length (page_of limit offset l)) ≤ Z.max limit 0.
Proof. unfold page_of. rewrite length_take. lia. Qed.
Lemma pages_cover {A} limit offset (l : list A) : 0 ≤ limit → 0 ≤ offset →
  page_of limit offset l ++ drop (Z.to_nat (offset + limit)) l = drop (Z.to_nat offset) l.
Proof.
  intros Hl Ho. unfold page_of. rewrite Z2Nat.inj_add by done. rewrite <- drop_drop. apply take_drop.
Qed.
End Gate.

(* ------------------------------------------------------------------ *)
(** * Examples *)

Module ApiExamples.
Import RefInstances RefPg StoreExamples RefJson.
#[local] Existing Instances tree_json tree_ops tree_laws.
#[local] Instance checked : BuildProfile := { overflow_checks := true }.

Definition set_assoc (k : string) (v : tree) (l : list (string * tree)) : list (string * tree) :=
  (k, v) :: List.filter (λ p, negb (String.eqb p.1 k)) l.
Lemma assoc_set k k' v l : assoc k' (set_assoc k v l) = if decide (k' = k) then Some v else assoc k' l.
Proof.
  unfold set_assoc. simpl. case_decide as Hk; [done|]. induction l as [|[k0 v0] l IH]; simpl; [done|].
  destruct (String.eqb_spec k0 k) as [->|Hne]; simpl; [by rewrite IH, decide_False|].
  case_decide; [done|exact IH].
Qed.
#[local] Instance tree_index : JsonIndex := {
  json_set k v j :=
    match j with
    | GenNode 2 l => Done (GenNode 2 (flatten (set_assoc k v (entries l))))
    | GenNode 0 [] => Done (GenNode 2 (flatten [(k, v)]))
    | _ => Panic "cannot access key in JSON value"
    end;
}.
#[local] Instance tree_index_laws : JsonIndexLaws.
Proof.
  constructor; simpl; try done; try by eexists.
  intros k k' v j j' E. destruct j as [a|[|[|[|n]]] l]; try done; [destruct l; [|done]|]; injection E as <-.
  - change (assoc k' (entries (flatten [(k, v)])) = if decide (k' = k) then Some v else None).
    rewrite entries_flatten. simpl. by case_decide.
  - change (assoc k' (entries (flatten (set_assoc k v (entries l)))) =
      if decide (k' = k) then Some v else assoc k' (entries l)).
    rewrite entries_flatten. apply assoc_set.
Qed.

(** A type of which one value is written. *)
Definition only {T} `{EqDecision T} (tag : string) (x : T) : Serde T :=
  {| serialize y := if decide (y = x) then Ok (GenLeaf (inl tag)) else Err "not written";
     deserialize v := if decide (v = GenLeaf (inl tag)) then Ok x else Err "not read" |}.
#[local] Instance collections_eq : EqDecision LifecycleCollections.
Proof. solve_decision. Defined.
#[local] Instance refs_eq : EqDecision EnvironmentRefs.
Proof. solve_decision. Defined.
#[local] Instance result_eq : EqDecision EventResult.
Proof. solve_decision. Defined.
#[local] Instance collections_serde : Serde LifecycleCollections := only "collections" LifecycleCollections_default.
#[local] Instance refs_serde : Serde EnvironmentRefs := only "refs" EnvironmentRefs_default.
#[local] Instance result_serde : Serde EventResult := only "accepted" ErAccepted.
#[local] Instance resource_serde : Serde EventResource :=
  {| serialize r := Ok (GenNode 4 [GenLeaf (inl (er_kind r)); GenLeaf (inl (er_id r))]);
     deserialize v := match v with GenNode 4 [GenLeaf (inl k); GenLeaf (inl i)] => Ok (EventResource_new k i) | _ => Err "resource" end |}.
#[local] Instance origin_serde : Serde Origin :=
  {| serialize o := match o with OImportedLocal p => Ok (GenLeaf (inl p)) | _ => Err "origin" end;
     deserialize v := match v with GenLeaf (inl p) => Ok (OImportedLocal p) | _ => Err "origin" end |}.
#[local] Instance texts_serde : Serde (list string) := only "none" [].
#[local] Instance kind_serde : Serde EnvironmentKind :=
  {| serialize k := match k with EkDevelopment => Ok (GenLeaf (inr (inr false))) | EkProduction => Ok (GenLeaf (inr (inr true)))
                    | EkPreview n => Ok (GenLeaf (inl n)) end;
     deserialize v := match v with GenLeaf (inr (inr false)) => Ok EkDevelopment | GenLeaf (inr (inr true)) => Ok EkProduction
                      | GenLeaf (inl n) => Ok (EkPreview n) | _ => Err "kind" end |}.
#[local] Instance profiles_serde : Serde (gmap string Json) :=
  {| serialize m := Ok (GenNode 2 (flatten (map_to_list m)));
     deserialize v := match v with GenNode 2 l => Ok (list_to_map (entries l)) | _ => Err "profiles" end |}.
#[local] Instance json_serde : Serde Json := {| serialize x := Ok x; deserialize v := Ok v |}.
#[local] Instance actor_serde : Serde EventActor :=
  {| serialize a := match a with ActHuman n => Ok (GenLeaf (inl n)) | _ => Err "actor" end;
     deserialize v := match v with GenLeaf (inl n) => Ok (ActHuman n) | _ => Err "actor" end |}.
#[local] Instance policy_serde : Serde RetryPolicy :=
  {| serialize p := Ok (GenNode 5 ([GenLeaf (inr (inl (max_attempts p))); GenLeaf (inr (inl (base_delay p)));
                                   GenLeaf (inr (inl (factor p)))] ++
                                  match max_delay p with Some d => [GenLeaf (inr (inl d))] | None => [] end));
     deserialize v := match v with
       | GenNode 5 [GenLeaf (inr (inl m)); GenLeaf (inr (inl b)); GenLeaf (inr (inl f))] =>
           Ok {| max_attempts := m; base_delay := b; factor := f; max_delay := None |}
       | GenNode 5 [GenLeaf (inr (inl m)); GenLeaf (inr (inl b)); GenLeaf (inr (inl f)); GenLeaf (inr (inl d))] =>
           Ok {| max_attempts := m; base_delay := b; factor := f; max_delay := Some d |}
       | _ => Err "policy"
       end |}.
#[local] Instance policy_laws : SerdeLaws RetryPolicy.
Proof. constructor. intros [m b f [d|]] v [= <-]; done. Qed.
#[local] Instance bound_serde : Serde BoundCapability :=
  {| serialize _ := Err "not written"; deserialize _ := Err "not read" |}.
Definition release : Deployment :=
  {| dep_id := mkId (uuid 5); dep_application_id := mkId (uuid 1); dep_environment_id := mkId (uuid 3);
     dep_revision := Revision_new "abc" "cfg" None; dep_build := None; dep_image := None;
     dep_runtime := DeploymentExamples.plan_cfg; dep_resources := []; dep_endpoint := None;
     dep_health := HsHealthy; dep_phase := DpHealthy; dep_logs := []; dep_rollback_target := None;
     dep_transitions := [] |}.
#[local] Instance deployment_serde : Serde Deployment :=
  {| serialize _ := Err "not written";
     deserialize v := if decide (v = GenLeaf (inl "release")) then Ok release else Err "not read" |}.
#[local] Instance failure_serde : Serde FailureRecord :=
  {| serialize _ := Err "not written"; deserialize _ := Err "not read" |}.
#[local] Instance transitions_serde : Serde (list ResourceTransition) :=
  {| serialize _ := Err "not written"; deserialize _ := Err "not read" |}.

Definition scan0 : gmap string CapabilityRow → list CapabilityRow := btree_values.
Definition tokens : TokenStore :=
  mkTokenStore [mkToken "ops" "ops" TsHuman None false "human-secret-0123";
                mkToken "bot" "bot" TsAgent (Some 50) false "agent-secret-0123"] false.
Definition blank : ApiState := mkApi empty_db ∅ empty_serial ∅ ∅ ∅ tokens (RateLimiter_new 120).
Definition sent (secret actor key : string) : Headers := λ name,
  if decide (name = "authorization") then Some ("Bearer " +:+ secret)
  else if decide (name = "x-labryst-actor") then Some actor
  else if decide (name = "idempotency-key") then Some key
  else if decide (name = "x-trace-id") then Some "t1" else None.
Definition by_ann (key : string) : Headers := sent "human-secret-0123" "human:ann" key.
Definition read (trace : Uuid) (job : JobId) (at_ : DateTime) : Reading :=
  {| rd_trace := trace; rd_auth := at_; rd_denied := at_; rd_now := at_; rd_created := at_; rd_observed := at_;
     rd_loaded := at_; rd_stored := at_; rd_application := mkId (uuid 1); rd_development := mkId (uuid 2);
     rd_production := mkId (uuid 3); rd_job := job; rd_draws := draws0 |}.
Definition rd1 : Reading := read (uuid 91) (mkId (uuid 11)) 10000.
Definition rd2 : Reading := read (uuid 92) (mkId (uuid 12)) 20000.
Definition rd3 : Reading := read (uuid 93) (mkId (uuid 13)) 30000.
Definition no_body : MutationBody := mkBody None None None None None None None.
Definition shop : Route := RtImport {| ib_name := Some "shop"; ib_path := None |}.
Definition shop_id : string := id_fmt (mkId (uuid 1) : ApplicationId).
Definition ended (o : outcome (ApiState * result ApiError Json)) : ApiState * Json :=
  match o with Done (s, Ok j) => (s, j) | Done (s, Err _) => (s, json_null) | Panic _ => (blank, json_null) end.
Definition imported := ended (handle [] scan0 rd1 (by_ann "k1") shop blank).
Definition deployed := ended (handle [] scan0 rd2 (by_ann "k2") (RtDeploy shop_id no_body) imported.1).
Definition again := ended (handle [] scan0 rd3 (by_ann "k3") (RtDeploy shop_id no_body) deployed.1).
Example one_job : (size (as_jobs imported.1), size (as_jobs deployed.1), size (as_jobs again.1)) = (1, 2, 2)%nat.
Proof. vm_compute. reflexivity. Qed.


Definition bot : AuthenticatedToken := {| at_id := "bot"; at_identity := "bot"; at_scope := TsAgent |}.
Definition early : Reading := read (uuid 94) (mkId (uuid 14)) 49.
Lemma agents_never_ship_witness :
  authenticate "agent-secret-0123" 49 tokens = Ok bot ∧
  ∃ s' e, handle [] scan0 early (sent "agent-secret-0123" "human:ann" "k1") shop blank = Done (s', Err e).
Proof.
  split; [vm_compute; reflexivity|].
  destruct (agents_never_ship [] scan0 early (sent "agent-secret-0123" "human:ann" "k1") shop blank bot)
    as (s' & e & E & _); [reflexivity|vm_compute; reflexivity|reflexivity|].
  exists s', e. exact E.
Defined.

Lemma deployed_step : system_step [] scan0 imported.1 deployed.1.
Proof.
  eapply (SsRequest _ _ _ (λ _, 0) 0 None rd2 (by_ann "k2") (RtDeploy shop_id no_body) _ (200, deployed.2)).
  vm_compute. reflexivity.
Qed.
Lemma requests_never_deliver_witness :
  as_tokens deployed.1 = as_tokens imported.1 ∧ rtc pg_step (as_jobs imported.1) (as_jobs deployed.1).
Proof.
  destruct (requests_never_deliver [] scan0 imported.1 deployed.1 (rtc_once _ _ deployed_step))
    as (_ & _ & _ & Ht & Hj & _).
  split; [exact Ht|exact Hj].
Defined.

(** The key of a deploy used for a build. *)
Definition ann : ActorContext := mkContext (CaHuman "ann") "t1" (Some "k2").
Lemma response_is_replayed_witness :
  ∃ replay, handle [] scan0 rd3 (by_ann "k2") (RtBuild shop_id no_body) deployed.1 = Done (deployed.1, Ok replay) ∧
    json_get "replayed" replay = Some (json_bool true) ∧ json_get "command" replay = Some (json_str "deploy").
Proof.
  assert (handle [] scan0 rd2 (by_ann "k2") (RtDeploy shop_id no_body) imported.1 = Done (deployed.1, Ok deployed.2)) as E
    by (vm_compute; reflexivity).
  assert (authorized [] rd3 (by_ann "k2") (trace_of rd3 (by_ann "k2")) (route_target (RtBuild shop_id no_body))
    deployed.1 = Done (deployed.1, Ok ann)) as Ha by (vm_compute; reflexivity).
  assert (as_replays imported.1 !! "k2" = None) as Hn by (vm_compute; reflexivity).
  assert (redact (json_print deployed.2) [] = json_print deployed.2) as Hr by (vm_compute; reflexivity).
  assert (json_get "command" deployed.2 = Some (json_str "deploy")) as Hc by (vm_compute; reflexivity).
  destruct (response_is_replayed [] scan0 rd2 (by_ann "k2") (RtDeploy shop_id no_body) imported.1 deployed.1 deployed.2
    "k2" deployed.1 rd3 (by_ann "k2") (RtBuild shop_id no_body) ann eq_refl eq_refl Hn E Hr (rtc_refl _ _) eq_refl Ha
    eq_refl eq_refl) as (replay & Eh & Hrep & Hrest).
  exists replay. split; [exact Eh|]. split; [exact Hrep|]. rewrite Hrest; [exact Hc|discriminate].
Defined.

Lemma keyed_check (d : AppDb) : bool_decide (map_Forall (λ k row, aw_id row = k) (t_applications d)) = true → keyed d.
Proof. intros Hb k row. apply bool_decide_eq_true in Hb. apply Hb. Qed.
Lemma imported_jobs : pg_reachable (as_jobs imported.1).
Proof.
  assert (system_step [] scan0 blank imported.1) as Hs.
  { eapply (SsRequest _ _ _ (λ _, 0) 0 None rd1 (by_ann "k1") shop _ (200, imported.2)). vm_compute. reflexivity. }
  by destruct (later_keeps [] scan0 _ _ (rtc_once _ _ Hs)) as (_ & _ & _ & _ & Hj & _).
Qed.
Lemma second_deploy_never_runs_witness :
  handle [] scan0 rd3 (by_ann "k3") (RtDeploy shop_id no_body) deployed.1 = Done (again.1, Ok again.2) ∧
  as_jobs again.1 = as_jobs deployed.1.
Proof.
  assert (handle [] scan0 rd2 (by_ann "k2") (RtDeploy shop_id no_body) imported.1 = Done (deployed.1, Ok deployed.2)) as E
    by (vm_compute; reflexivity).
  assert (handle [] scan0 rd3 (by_ann "k3") (RtDeploy shop_id no_body) deployed.1 = Done (again.1, Ok again.2)) as E'
    by (vm_compute; reflexivity).
  assert (as_replays imported.1 !! "k2" = None) as Hn by (vm_compute; reflexivity).
  assert (keyed (as_db imported.1)) as Hk1 by (apply keyed_check; vm_compute; reflexivity).
  assert (keyed (as_db deployed.1)) as Hk2 by (apply keyed_check; vm_compute; reflexivity).
  split; [exact E'|].
  exact (second_deploy_never_runs [] scan0 rd2 (by_ann "k2") shop_id no_body imported.1 deployed.1 deployed.2 "k2"
    deployed.1 rd3 (by_ann "k3") no_body again.1 again.2 imported_jobs Hk1 Hk2 eq_refl Hn E (rtc_refl _ _) eq_refl E').
Defined.

Definition all_pages : PageQuery := {| pq_limit := None; pq_offset := None; pq_source := None; pq_environment := None |}.
Definition released : ApiState :=
  set_db (set_deployments {[ id_fmt (dep_id release) := mkDeploymentRow (id_fmt (dep_id release)) shop_id
    (id_fmt (dep_environment_id release)) "healthy" (GenLeaf (inl "release")) 0 0 ]} (as_db deployed.1)) deployed.1.
Definition shown := ended (handle [] scan0 rd3 (by_ann "k4") (RtHealth shop_id all_pages) released).
Lemma healthy_needs_a_healthy_deployment_witness :
  handle [] scan0 rd3 (by_ann "k4") (RtHealth shop_id all_pages) released = Done (released, Ok shown.2) ∧
  (d ← json_get "data" shown.2; json_get "state" d) = Some (json_str "healthy") ∧
  ∃ app state entries, health_entries app (wanted_environments all_pages app) "unknown" released = Ok (entries, state).
Proof.
  assert (handle [] scan0 rd3 (by_ann "k4") (RtHealth shop_id all_pages) released = Done (released, Ok shown.2)) as E
    by (vm_compute; reflexivity).
  split; [exact E|]. split; [vm_compute; reflexivity|].
  destruct (healthy_needs_a_healthy_deployment [] scan0 rd3 (by_ann "k4") shop_id all_pages released released shown.2 E)
    as (app & state & entries & _ & Hh & _).
  exists app, state, entries. exact Hh.
Defined.
End ApiExamples.
