(* ===== verification/PgProvider.v ===== *)
(** Managed PostgreSQL provisioning (postgres_provider.rs of labrys-control-plane):
    the names, the SQL statements and the provider adapter that runs them over an
    administrator's connection.  The server is an interface; what its catalog
    documents about the statements is the class [PgCatalog]. *)

From stdpp Require Import base option list strings pretty gmap fin_sets.
From Stdlib Require Import ZArith Lia Ascii.
From S2P Require Import Prelude External CpErrors Ids Resource Auth Snapshot Config Provider Delivery.
Local Open Scope Z_scope.

#[global] Instance ProviderKind_eq_dec : EqDecision ProviderKind.
Proof. solve_decision. Defined.

(* ------------------------------------------------------------------ *)
(** * Texts *)

Definition double_quote : string := String (ascii_of_nat 34) "".
Definition quoted (name : string) : string :=
  double_quote +:+ str_replace double_quote (double_quote +:+ double_quote) name +:+ double_quote.

Definition is_ascii_lowercase (a : ascii) : bool := in_range 97 122 a.
Definition is_ascii_digit (a : ascii) : bool := in_range 48 57 a.
Definition identifier_char (a : ascii) : bool :=
  is_ascii_lowercase a || is_ascii_digit a || Ascii.eqb a "_".
Definition validate_identifier (name : string) : result ControlPlaneError unit :=
  let wrong_start := Err (CpExecution
    ("postgres identifier must start with a lowercase letter or underscore: " +:+ name)) in
  match name with
  | "" => wrong_start
  | String first _ =>
      if negb (is_ascii_lowercase first || Ascii.eqb first "_") then wrong_start
      else if bool_decide (48 < String.length name)%nat || negb (forallb identifier_char (chars name)) then
        Err (CpExecution ("postgres identifier must be <48 chars of [a-z0-9_]: " +:+ name))
      else Ok tt
  end.

(** [text.split(c).next_back()]. *)
Definition split_back (c : ascii) (s : string) : string :=
  match rsplit_once c s with Some (_, t) => t | None => s end.
Definition admin_host_port (url : string) : string * Z :=
  let after_scheme := default "" (split_second "://" url) in
  let authority_host := split_back "@" after_scheme in
  let host_port := split_head "/" authority_host in
  (split_head ":" host_port,
   default 5432 (p ← split_second_char ":" host_port; parse_int 0 65535 p)).
Definition admin_password_of (url : string) : option string :=
  after_scheme ← split_second "://" url;
  let authority := split_head "@" after_scheme in
  password ← split_second_char ":" authority;
  if str_is_empty password then None else Some password.

(* ------------------------------------------------------------------ *)
(** * State *)

Record ProvisionedCredential := mkCredential {
  pc_username : string;
  pc_password : string;
  pc_database : string;
  pc_host : string;
  pc_port : Z;
}.
(** The fixed fields of [PostgresProvisioner]. *)
Record PgAdmin := mkPgAdmin {
  admin_password : option string;
  admin_host : string;
  admin_port : Z;
}.
(** The pool, with the server behind it, and the credential cache. *)
Record Pg (X : Type) := mkPg {
  pg_server : X;
  pg_credentials : gmap string ProvisionedCredential;
}.
#[global] Arguments mkPg {X}.
#[global] Arguments pg_server {X}.
#[global] Arguments pg_credentials {X}.

(** What happens outside: a query with one bound value, of which only the presence
    of a row is used, a statement with its bound values, and a random identifier. *)
Record PgOutside (X : Type) := {
  pq_fetch : string → string → X → X * result string bool;
  pq_run : string → list string → X → X * result string unit;
  pq_uuid : X → X * Uuid;
}.
#[global] Arguments pq_fetch {X}.
#[global] Arguments pq_run {X}.
#[global] Arguments pq_uuid {X}.

Definition PostgresProvisioner_new {X} (connect_lazy : string → result string X) (admin_url : string) :
    result ControlPlaneError (PgAdmin * Pg X) :=
  if negb (starts_with "postgres://" admin_url || starts_with "postgresql://" admin_url) then
    Err (CpConfig "managed postgres provisioner requires a postgresql:// admin URL")
  else
    let '(host, port) := admin_host_port admin_url in
    match connect_lazy admin_url with
    | Err m => Err (CpConfig ("managed postgres URL is unusable: " +:+ m))
    | Ok x => Ok (mkPgAdmin (admin_password_of admin_url) host port, mkPg x ∅)
    end.

(* ------------------------------------------------------------------ *)
(** * Statements *)

Definition role_query : string := "SELECT 1 AS one FROM pg_roles WHERE rolname = $1".
Definition database_query : string := "SELECT 1 AS one FROM pg_database WHERE datname = $1".
Definition terminate_query : string :=
  "SELECT pg_terminate_backend(pid) FROM pg_stat_activity WHERE datname = $1 AND pid <> pg_backend_pid()".
Definition password_literal (password : string) : string :=
  "'" +:+ str_replace "'" "''" password +:+ "'".
Definition create_role (role password : string) : string :=
  "CREATE ROLE " +:+ quoted role
  +:+ " WITH LOGIN NOSUPERUSER NOCREATEDB NOCREATEROLE NOREPLICATION PASSWORD "
  +:+ password_literal password.
Definition create_database (database role : string) : string :=
  "CREATE DATABASE " +:+ quoted database +:+ " OWNER " +:+ quoted role.
Definition grant_connect (database role : string) : string :=
  "GRANT CONNECT ON DATABASE " +:+ quoted database +:+ " TO " +:+ quoted role.
Definition drop_database (database : string) : string := "DROP DATABASE " +:+ quoted database.
Definition drop_role (role : string) : string := "DROP ROLE " +:+ quoted role.

(* ------------------------------------------------------------------ *)
(** * The adapter *)

Section Provisioner.
Context `{UuidLib} `{HashIter} {X : Type} (out : PgOutside X) (self : PgAdmin).
Abbreviation Op A := (M (Pg X) ControlPlaneError A).

Definition pg_credential_secrets (s : Pg X) : list string :=
  match admin_password self with
  | Some password => if str_is_empty password then [] else [password]
  | None => []
  end ++ map pc_password (hash_values (pg_credentials s)).
Definition credential_for (s : Pg X) (resource : ResourceId) : option ProvisionedCredential :=
  pg_credentials s !! id_fmt resource.
Definition pg_scrub (s : Pg X) (text : string) : string := redact text (pg_credential_secrets s).

Definition pg_names (operation : ProviderOperation) : result ControlPlaneError (string * string) :=
  let stem := take_chars 16 (str_replace "-" "" (id_fmt (po_resource_id operation))) in
  let role := "labrys_r_" +:+ stem in
  let database := "labrys_db_" +:+ stem in
  _ ← validate_identifier role;
  _ ← validate_identifier database;
  Ok (role, database).

(** A query or statement on the pool, its error scrubbed with the credentials
    cached by then. *)
Definition pg_exists (query name what : string) : Op bool := λ s,
  let '(x, r) := pq_fetch out query name (pg_server s) in
  let s := mkPg x (pg_credentials s) in
  Done (s, match r with
           | Ok found => Ok found
           | Err m => Err (CpProvider (pg_scrub s (what +:+ " lookup failed: " +:+ m)))
           end).
Definition role_exists (role : string) : Op bool := pg_exists role_query role "role".
Definition database_exists (database : string) : Op bool :=
  pg_exists database_query database "database".
Definition pg_run (statement : string) (binds : list string) (failed : string) : Op unit := λ s,
  let '(x, r) := pq_run out statement binds (pg_server s) in
  let s := mkPg x (pg_credentials s) in
  Done (s, match r with
           | Ok _ => Ok tt
           | Err m => Err (CpProvider (pg_scrub s (failed +:+ ": " +:+ m)))
           end).
Definition pg_draw : Op Uuid := λ s,
  let '(x, u) := pq_uuid out (pg_server s) in Done (mkPg x (pg_credentials s), Ok u).
Definition pg_cache (f : gmap string ProvisionedCredential → gmap string ProvisionedCredential) :
    Op unit := modify (λ s, mkPg (pg_server s) (f (pg_credentials s))).

Definition at_host : string := admin_host self +:+ ":" +:+ pretty (admin_port self).

Definition pg_provision (operation : ProviderOperation) : Op ProviderExecution :=
  '(role, database) ← lift_r (pg_names operation);
  has_role ← role_exists role;
  present ← (if (has_role : bool) then database_exists database else mret false);
  if (present : bool) then
    mret (PxReady ("managed postgres role " +:+ quoted role +:+ " with database " +:+ quoted database
      +:+ " on " +:+ at_host +:+ " already present (least-privilege: LOGIN only)"))
  else
    u ← pg_draw;
    let password := uuid_simple u in
    pg_run (create_role role password) [] ("role creation failed for " +:+ quoted role);;
    pg_run (create_database database role) [] ("database creation failed for " +:+ quoted database);;
    pg_run (grant_connect database role) [] ("connect grant failed for " +:+ quoted role);;
    pg_cache <[id_fmt (po_resource_id operation) :=
                 mkCredential role password database (admin_host self) (admin_port self)]>;;
    mret (PxReady ("managed postgres role " +:+ quoted role +:+ " with database " +:+ quoted database
      +:+ " on " +:+ at_host
      +:+ " (least-privilege: LOGIN only; credential held in process memory under resource "
      +:+ id_fmt (po_resource_id operation) +:+ ")")).

Definition pg_readiness (operation : ProviderOperation) : Op ProviderExecution :=
  '(role, database) ← lift_r (pg_names operation);
  has_role ← role_exists role;
  has_db ← database_exists database;
  if (has_role : bool) && (has_db : bool) then
    s ← get;
    let housekeeping := if decide (is_Some (credential_for s (po_resource_id operation)))
      then "credential cached in process memory"
      else "credential cache empty after restart; re-provision to mint a fresh key" in
    mret (PxReady ("managed postgres role " +:+ quoted role +:+ " with database " +:+ quoted database
      +:+ " present on " +:+ at_host +:+ " (" +:+ housekeeping +:+ ")"))
  else
    mret (PxFailed ("managed postgres role " +:+ quoted role +:+ " present: " +:+ bool_debug has_role
            +:+ ", database " +:+ quoted database +:+ " present: " +:+ bool_debug has_db)
      "re-run provision; if the failure persists, inspect redacted provider diagnostics").

Definition pg_adopt (operation : ProviderOperation) : Op ProviderExecution :=
  '(role, database) ← lift_r (pg_names operation);
  has_db ← database_exists database;
  if (has_db : bool) then
    has_role ← role_exists role;
    if (has_role : bool) then
      mret (PxReady ("adopted managed postgres database " +:+ quoted database +:+ " with role "
        +:+ quoted role +:+ " on " +:+ at_host))
    else
      mret (PxFailed ("database " +:+ quoted database +:+ " exists but managed role " +:+ quoted role
              +:+ " is missing; adoption refuses to take over an unmanaged role layout")
        "provision a fresh managed database or align the role layout first")
  else
    mret (PxFailed ("adoption found no database " +:+ quoted database +:+ " on " +:+ at_host)
      "provision a fresh managed database instead").

Definition pg_delete (operation : ProviderOperation) : Op ProviderExecution :=
  '(role, database) ← lift_r (pg_names operation);
  has_db ← database_exists database;
  (if (has_db : bool) then
     pg_run terminate_query [database] ("backend termination failed for " +:+ quoted database);;
     pg_run (drop_database database) [] ("database drop failed for " +:+ quoted database)
   else mret tt);;
  has_role ← role_exists role;
  (if (has_role : bool) then
     pg_run (drop_role role) [] ("role drop failed for " +:+ quoted role)
   else mret tt);;
  pg_cache (delete (id_fmt (po_resource_id operation)));;
  mret (PxReady ("managed postgres database " +:+ quoted database +:+ " and role " +:+ quoted role
    +:+ " deleted on " +:+ at_host)).

Definition pg_unsupported (action : ProviderAction) : ProviderExecution :=
  PxFailed ("managed postgres provisioner does not support " +:+ ProviderAction_debug action
    +:+ "; provision, readiness-check, adopt, and delete are the executable actions")
    "use provision for new databases, adopt for existing ones, delete with approval for teardown".

(** The texts of an outcome pass through [f]. *)
Definition scrub_execution (f : string → string) (outcome : ProviderExecution) : ProviderExecution :=
  match outcome with
  | PxAccepted detail => PxAccepted (f detail)
  | PxReady detail => PxReady (f detail)
  | PxDegraded reason => PxDegraded (f reason)
  | PxFailed reason recovery => PxFailed (f reason) (f recovery)
  end.
Definition pg_act (operation : ProviderOperation) : Op ProviderExecution :=
  match po_action operation with
  | PaProvision => pg_provision operation
  | PaReadinessCheck => pg_readiness operation
  | PaAdopt => pg_adopt operation
  | PaDelete => pg_delete operation
  | other => mret (pg_unsupported other)
  end.
Definition pg_execute (operation : ProviderOperation) : Op ProviderExecution :=
  if decide (po_kind operation = PkPostgres) then
    outcome ← pg_act operation;
    s ← get;
    mret (scrub_execution (pg_scrub s) outcome)
  else mthrow (CpProvider ("postgres.managed does not supply capability '"
                 +:+ po_capability operation +:+ "'")).
Definition PostgresProvisioner : ProviderAdapter (Pg X) :=
  {| pa_key := "postgres.managed"; pa_kind := PkPostgres; pa_execute := pg_execute |}.
End Provisioner.
#[global] Arguments pg_execute : simpl never.

(* ------------------------------------------------------------------ *)
(** * What PostgreSQL documents about the statements *)

(** The roles and the databases with their owners, as the catalog shows them.  A
    statement that reports an error has changed nothing, or was committed before
    its answer was lost; one that reports success found its precondition met. *)
Class PgCatalog {X} (out : PgOutside X) := {
  pg_roles : X → gset string;
  pg_databases : X → gmap string string;
}.
Section Effects.
Context {X} (out : PgOutside X) `{!PgCatalog out}.
Definition same_catalog (x x' : X) : Prop :=
  pg_roles x' = pg_roles x ∧ pg_databases x' = pg_databases x.
Definition took_effect (pre : Prop) (roles : gset string) (databases : gmap string string)
    (x x' : X) (r : result string unit) : Prop :=
  (same_catalog x x' ∧ ∃ m, r = Err m) ∨
  (pre ∧ pg_roles x' = roles ∧ pg_databases x' = databases).
End Effects.
#[global] Arguments same_catalog {X} out {_}.
#[global] Arguments took_effect {X} out {_}.

Abbreviation plain n := (validate_identifier n = Ok tt).
Class PgCatalogLaws {X} (out : PgOutside X) `{!PgCatalog out} : Prop := {
  fetch_role n x x' r : pq_fetch out role_query n x = (x', r) →
    same_catalog out x x' ∧ ∀ b, r = Ok b → b = bool_decide (n ∈ pg_roles x);
  fetch_database d x x' r : pq_fetch out database_query d x = (x', r) →
    same_catalog out x x' ∧ ∀ b, r = Ok b → b = bool_decide (is_Some (pg_databases x !! d));
  run_create_role n p x x' r : plain n → pq_run out (create_role n p) [] x = (x', r) →
    took_effect out (n ∉ pg_roles x) ({[n]} ∪ pg_roles x) (pg_databases x) x x' r;
  run_create_database d n x x' r :
    plain d → plain n → pq_run out (create_database d n) [] x = (x', r) →
    took_effect out (pg_databases x !! d = None ∧ n ∈ pg_roles x)
      (pg_roles x) (<[d := n]> (pg_databases x)) x x' r;
  run_grant_connect d n x x' r :
    plain d → plain n → pq_run out (grant_connect d n) [] x = (x', r) → same_catalog out x x';
  run_terminate d x x' r : pq_run out terminate_query [d] x = (x', r) → same_catalog out x x';
  run_drop_database d x x' r : plain d → pq_run out (drop_database d) [] x = (x', r) →
    took_effect out (is_Some (pg_databases x !! d)) (pg_roles x) (delete d (pg_databases x)) x x' r;
  run_drop_role n x x' r : plain n → pq_run out (drop_role n) [] x = (x', r) →
    took_effect out (n ∈ pg_roles x ∧ ∀ d o, pg_databases x !! d = Some o → o ≠ n)
      (pg_roles x ∖ {[n]}) (pg_databases x) x x' r;
  draw_uuid x x' u : pq_uuid out x = (x', u) → same_catalog out x x';
}.

(* ------------------------------------------------------------------ *)
(** * Names *)

Lemma hex_chars_plain s : forallb is_hex (chars s) = true →
  forallb identifier_char (chars s) = true ∧ Forall (λ a, cont a = false) (chars s) ∧
  "-"%char ∉ chars s ∧ "_"%char ∉ chars s.
Proof.
  intros Hs%Is_true_true%forallb_True.
  assert (∀ a, is_hex a → identifier_char a ∧ cont a = false ∧ a ≠ "-"%char ∧ a ≠ "_"%char) as Hc.
  { intros a. unfold is_hex, identifier_char, is_ascii_lowercase, is_ascii_digit, cont, in_range.
    rewrite !orb_True, !andb_True. intros Ha.
    assert (48 ≤ byte_of a ≤ 57 ∨ 97 ≤ byte_of a ≤ 102)%N as Hb.
    { destruct Ha as [[?%Is_true_true%N.leb_le ?%Is_true_true%N.leb_le]|
                      [?%Is_true_true%N.leb_le ?%Is_true_true%N.leb_le]]; lia. }
    split; [|split; [|split; intros ->;
      [change (byte_of "-") with 45%N in Hb|change (byte_of "_") with 95%N in Hb]; lia]].
    - left. destruct Hb; [right|left]; split; apply Is_true_true, N.leb_le; lia.
    - apply andb_false_iff. left. apply N.leb_gt. lia. }
  split; [|split; [|split]].
  - apply Is_true_true, forallb_True. eapply Forall_impl; [exact Hs|]. intros a Ha. by apply Hc.
  - eapply Forall_impl; [exact Hs|]. intros a Ha. by apply Hc.
  - intros Hin. rewrite Forall_forall in Hs. by destruct (Hc _ (Hs _ Hin)) as (_ & _ & ? & _).
  - intros Hin. rewrite Forall_forall in Hs. by destruct (Hc _ (Hs _ Hin)) as (_ & _ & _ & ?).
Qed.

Lemma plain_intro n :
  match n with String a _ => is_ascii_lowercase a = true | "" => False end →
  (String.length n ≤ 48)%nat → forallb identifier_char (chars n) = true → plain n.
Proof.
  unfold validate_identifier. destruct n as [|a n]; [done|]. intros -> Hl ->.
  by rewrite bool_decide_eq_false_2 by lia.
Qed.

Section Names.
Context `{UuidLaws}.

Lemma str_replace_absent c rep s : c ∉ chars s → str_replace (String c "") rep s = s.
Proof.
  intros Hc. apply replace_from_absent, not_true_is_false. intros (a & b & ->)%str_contains_spec.
  apply Hc. rewrite !chars_app. apply elem_of_app. right. apply elem_of_app. left. by apply list_elem_of_here.
Qed.
(** The first twelve digits of a resource's identifier. *)
Definition managed_stem (id : ResourceId) : string := "res_" +:+ take_chars 12 (uuid_simple (id_uuid id)).
Lemma pg_names_spec op :
  pg_names op = Ok ("labrys_r_" +:+ managed_stem (po_resource_id op),
                    "labrys_db_" +:+ managed_stem (po_resource_id op)) ∧
  plain ("labrys_r_" +:+ managed_stem (po_resource_id op)) ∧
  plain ("labrys_db_" +:+ managed_stem (po_resource_id op)).
Proof.
  set (u := id_uuid (po_resource_id op)).
  destruct (hex_chars_plain _ (uuid_simple_is_hex u)) as (Hid & Hcont & Hdash & _).
  assert (take_chars 16 (str_replace "-" "" (id_fmt (po_resource_id op)))
          = managed_stem (po_resource_id op)) as E.
  { rewrite id_fmt_prefix, str_replace_absent; [done|]. rewrite chars_app, not_elem_of_app.
    split; [by apply (bool_decide_unpack _); vm_compute|done]. }
  assert (String.length (managed_stem (po_resource_id op)) = 16%nat) as Hl.
  { unfold managed_stem. rewrite str_length_app, <- (chars_length (take_chars _ _)), chars_take by done.
    fold u. rewrite length_take, chars_length, uuid_simple_length. done. }
  assert (forallb identifier_char (chars (managed_stem (po_resource_id op))) = true) as Hc.
  { unfold managed_stem. rewrite chars_app, forallb_app, chars_take by done. fold u. simpl.
    apply Is_true_true, forallb_True, Forall_take, forallb_True. by rewrite Hid. }
  assert (plain ("labrys_r_" +:+ managed_stem (po_resource_id op))) as H1
    by (apply plain_intro; [done|by rewrite str_length_app, Hl; simpl; lia|by rewrite chars_app, forallb_app, Hc]).
  assert (plain ("labrys_db_" +:+ managed_stem (po_resource_id op))) as H2
    by (apply plain_intro; [done|by rewrite str_length_app, Hl; simpl; lia|by rewrite chars_app, forallb_app, Hc]).
  unfold pg_names. cbv zeta. by rewrite E, H1, H2.
Qed.
End Names.

(* ------------------------------------------------------------------ *)
(** * What one operation does to the server *)

Section Facts.
Context `{UuidLaws} `{HashIterLaws} {X : Type} (out : PgOutside X) `{!PgCatalog out, !PgCatalogLaws out}.
Context (self : PgAdmin).
Implicit Types (s : Pg X) (op : ProviderOperation).

Definition has_role s (role : string) : Prop := role ∈ pg_roles (pg_server s).
Definition has_database s (database : string) : Prop := is_Some (pg_databases (pg_server s) !! database).
#[global] Instance has_role_dec s role : Decision (has_role s role).
Proof. unfold has_role. apply _. Defined.
#[global] Instance has_database_dec s database : Decision (has_database s database).
Proof. unfold has_database. apply _. Defined.
Definition unchanged s s' : Prop :=
  same_catalog out (pg_server s) (pg_server s') ∧ pg_credentials s' = pg_credentials s.
#[local] Instance unchanged_preorder : PreOrder unchanged.
Proof. unfold unchanged, same_catalog. split; [by intros ?|intros ?????; naive_solver congruence]. Qed.

(** Only this role, this database and this credential may differ. *)
Definition touches_only (role database key : string) s s' : Prop :=
  (∀ n, n ≠ role → has_role s' n ↔ has_role s n) ∧
  (∀ d, d ≠ database → pg_databases (pg_server s') !! d = pg_databases (pg_server s) !! d) ∧
  (∀ k, k ≠ key → pg_credentials s' !! k = pg_credentials s !! k).
#[local] Instance touches_only_preorder role database key : PreOrder (touches_only role database key).
Proof.
  split; [by intros s|]. intros s1 s2 s3 (R1 & D1 & C1) (R2 & D2 & C2). split_and!.
  - intros n Hn. by rewrite R2, R1.
  - intros d Hd. by rewrite D2, D1.
  - intros k Hk. by rewrite C2, C1.
Qed.
Lemma unchanged_touches role database key s s' : unchanged s s' → touches_only role database key s s'.
Proof.
  intros ((Hr & Hd) & Hc). unfold touches_only, has_role. by rewrite Hr, Hd, Hc.
Qed.

Lemma role_exists_run n s s' r :
  role_exists out self n s = Done (s', r) →
  unchanged s s' ∧ ∀ b, r = Ok b → b = bool_decide (has_role s n).
Proof.
  unfold role_exists, pg_exists. destruct (pq_fetch out role_query n (pg_server s)) as [x res] eqn:E.
  intros [= <- <-]. apply fetch_role in E as [Hs Hb]. split; [done|]. destruct res; naive_solver.
Qed.
Lemma database_exists_run d s s' r :
  database_exists out self d s = Done (s', r) →
  unchanged s s' ∧ ∀ b, r = Ok b → b = bool_decide (has_database s d).
Proof.
  unfold database_exists, pg_exists. destruct (pq_fetch out database_query d (pg_server s)) as [x res] eqn:E.
  intros [= <- <-]. apply fetch_database in E as [Hs Hb]. split; [done|]. destruct res; naive_solver.
Qed.
Lemma pg_draw_run s s' r : pg_draw out s = Done (s', r) → unchanged s s'.
Proof.
  unfold pg_draw. destruct (pq_uuid out (pg_server s)) as [x u] eqn:E. intros [= <- _].
  apply draw_uuid in E. done.
Qed.
(** The answer of a statement is the server's. *)
Lemma pg_run_run statement binds failed s s' r :
  pg_run out self statement binds failed s = Done (s', r) →
  ∃ r', pq_run out statement binds (pg_server s) = (pg_server s', r') ∧
    pg_credentials s' = pg_credentials s ∧ (r = Ok tt ↔ r' = Ok tt).
Proof.
  unfold pg_run. destruct (pq_run out statement binds (pg_server s)) as [x r'] eqn:E.
  intros [= <- <-]. exists r'. simpl. destruct r' as [[]|]; naive_solver.
Qed.

Section OneOperation.
Context (op : ProviderOperation) (role database : string).
Context (Hn : pg_names op = Ok (role, database)) (Hr : plain role) (Hd : plain database).
Abbreviation cache_key := (id_fmt (po_resource_id op)).
Local Abbreviation R := (touches_only role database cache_key).

Lemma within_unchanged {A} (m : M (Pg X) ControlPlaneError A) :
  (∀ s s' r, m s = Done (s', r) → unchanged s s') → within R m.
Proof. intros Hm s s' r E. eapply unchanged_touches, Hm, E. Qed.
Lemma effect_touches pre roles dbs s s' r :
  took_effect out pre roles dbs (pg_server s) (pg_server s') r →
  pg_credentials s' = pg_credentials s →
  (∀ n, n ≠ role → n ∈ roles ↔ has_role s n) →
  (∀ d, d ≠ database → dbs !! d = pg_databases (pg_server s) !! d) → R s s'.
Proof.
  intros [[Hs _]|(_ & Er & Ed)] Hc Hroles Hdbs; [by apply unchanged_touches|].
  unfold touches_only, has_role. rewrite Er, Ed, Hc. done.
Qed.
Lemma within_role_exists : within R (role_exists out self role).
Proof. apply within_unchanged. intros s s' r E. by apply role_exists_run in E as [? _]. Qed.
Lemma within_database_exists : within R (database_exists out self database).
Proof. apply within_unchanged. intros s s' r E. by apply database_exists_run in E as [? _]. Qed.
Lemma within_draw : within R (pg_draw out).
Proof. apply within_unchanged. apply pg_draw_run. Qed.
Lemma within_cache f : (∀ m k, k ≠ cache_key → f m !! k = m !! k) → within R (pg_cache f : M (Pg X) _ _).
Proof. intros Hf s s' r [= <- _]. split_and!; [done..|]. intros k Hk. by apply Hf. Qed.
Lemma within_cache_insert c : within R (pg_cache <[cache_key := c]> : M (Pg X) _ _).
Proof. apply within_cache. intros m k Hk. by apply lookup_insert_ne. Qed.
Lemma within_cache_delete : within R (pg_cache (delete cache_key) : M (Pg X) _ _).
Proof. apply within_cache. intros m k Hk. by apply lookup_delete_ne. Qed.
Lemma within_create_role p f : within R (pg_run out self (create_role role p) [] f).
Proof.
  intros s s' r (r' & E & Hc & _)%pg_run_run.
  eapply effect_touches; [exact (run_create_role _ _ _ _ _ Hr E)|done| |done].
  intros n Hne. unfold has_role. rewrite elem_of_union, elem_of_singleton. tauto.
Qed.
Lemma within_create_database f : within R (pg_run out self (create_database database role) [] f).
Proof.
  intros s s' r (r' & E & Hc & _)%pg_run_run.
  eapply effect_touches; [exact (run_create_database _ _ _ _ _ Hd Hr E)|done|done|].
  intros d Hne. by rewrite lookup_insert_ne.
Qed.
Lemma within_grant f : within R (pg_run out self (grant_connect database role) [] f).
Proof.
  intros s s' r (r' & E & Hc & _)%pg_run_run.
  apply unchanged_touches. split; [exact (run_grant_connect _ _ _ _ _ Hd Hr E)|done].
Qed.
Lemma within_terminate f : within R (pg_run out self terminate_query [database] f).
Proof.
  intros s s' r (r' & E & Hc & _)%pg_run_run. apply unchanged_touches.
  split; [by eapply run_terminate|done].
Qed.
Lemma within_drop_database f : within R (pg_run out self (drop_database database) [] f).
Proof.
  intros s s' r (r' & E & Hc & _)%pg_run_run.
  eapply effect_touches; [exact (run_drop_database _ _ _ _ Hd E)|done|done|].
  intros d Hne. by rewrite lookup_delete_ne.
Qed.
Lemma within_drop_role f : within R (pg_run out self (drop_role role) [] f).
Proof.
  intros s s' r (r' & E & Hc & _)%pg_run_run.
  eapply effect_touches; [exact (run_drop_role _ _ _ _ Hr E)|done| |done].
  intros n Hne. unfold has_role. rewrite elem_of_difference, elem_of_singleton. tauto.
Qed.
#[local] Hint Resolve within_role_exists within_database_exists within_draw within_create_role
  within_create_database within_grant within_terminate within_drop_database within_drop_role
  within_cache_insert within_cache_delete : within.

(** Whatever the server answers, an operation touches the names of its own
    resource only. *)
Lemma pg_execute_touches : within R (pg_execute out self op).
Proof.
  unfold pg_execute, pg_act, pg_provision, pg_readiness, pg_adopt, pg_delete. rewrite Hn, !lift_ok_bind. framed.
Qed.

(** ** Answers that succeed *)

Lemma present_after s s' : unchanged s s' →
  (has_role s' role ↔ has_role s role) ∧ (has_database s' database ↔ has_database s database).
Proof. intros ((Er & Ed) & _). unfold has_role, has_database. by rewrite Er, Ed. Qed.
Lemma create_role_ok p f s s' :
  pg_run out self (create_role role p) [] f s = Done (s', Ok tt) →
  ¬ has_role s role ∧ has_role s' role ∧ pg_databases (pg_server s') = pg_databases (pg_server s) ∧
  pg_credentials s' = pg_credentials s.
Proof.
  intros (r' & E & Hc & [Hok _])%pg_run_run.
  rewrite Hok in E by done. destruct (run_create_role _ _ _ _ _ Hr E) as [[_ [? ?]]|(Habs & Hr' & Hd')]; [done|].
  unfold has_role. rewrite Hr'. set_solver.
Qed.
Lemma create_database_ok f s s' :
  pg_run out self (create_database database role) [] f s = Done (s', Ok tt) →
  pg_roles (pg_server s') = pg_roles (pg_server s) ∧
  pg_databases (pg_server s') !! database = Some role ∧ pg_credentials s' = pg_credentials s.
Proof.
  intros (r' & E & Hc & [Hok _])%pg_run_run.
  rewrite Hok in E by done.
  destruct (run_create_database _ _ _ _ _ Hd Hr E) as [[_ [? ?]]|(_ & Hr' & Hd')]; [done|].
  rewrite Hr', Hd', lookup_insert_eq. done.
Qed.
Lemma drop_database_ok f s s' :
  pg_run out self (drop_database database) [] f s = Done (s', Ok tt) →
  pg_roles (pg_server s') = pg_roles (pg_server s) ∧ ¬ has_database s' database ∧
  pg_credentials s' = pg_credentials s.
Proof.
  intros (r' & E & Hc & [Hok _])%pg_run_run.
  rewrite Hok in E by done.
  destruct (run_drop_database _ _ _ _ Hd E) as [[_ [? ?]]|(_ & Hr' & Hd')]; [done|].
  unfold has_database. rewrite Hd', lookup_delete_eq. split; [done|]. split; [by intros []|done].
Qed.
Lemma drop_role_ok f s s' :
  pg_run out self (drop_role role) [] f s = Done (s', Ok tt) →
  pg_databases (pg_server s') = pg_databases (pg_server s) ∧ ¬ has_role s' role ∧
  pg_credentials s' = pg_credentials s.
Proof.
  intros (r' & E & Hc & [Hok _])%pg_run_run.
  rewrite Hok in E by done.
  destruct (run_drop_role _ _ _ _ Hr E) as [[_ [? ?]]|(_ & Hr' & Hd')]; [done|].
  unfold has_role. rewrite Hr'. split; [done|]. split; [set_solver|done].
Qed.

Lemma pg_provision_ok s s' o :
  pg_provision out self op s = Done (s', Ok o) →
  (∃ detail, o = PxReady detail) ∧ has_role s' role ∧ has_database s' database ∧
  ((has_role s role ∧ has_database s database ∧ unchanged s s') ∨
   (¬ has_role s role ∧ pg_databases (pg_server s') !! database = Some role ∧
    ∃ u, pg_credentials s' = <[cache_key := mkCredential role (uuid_simple u) database
                                        (admin_host self) (admin_port self)]> (pg_credentials s))).
Proof.
  unfold pg_provision. rewrite Hn, lift_ok_bind.
  intros E. ok_step E s1 b E1. apply role_exists_run in E1 as [U1 Hb]. specialize (Hb _ eq_refl).
  ok_step E s2 present E2.
  assert (unchanged s1 s2 ∧ (present = true → has_role s role ∧ has_database s1 database)) as [U2 Hp].
  { destruct b; [|by injection E2 as <- <-]. apply database_exists_run in E2 as [U2 Hp].
    split; [done|]. intros ->. specialize (Hp _ eq_refl). symmetry in Hb, Hp.
    by apply bool_decide_eq_true in Hb, Hp. }
  destruct present.
  { injection E as <- <-. destruct (Hp eq_refl) as [Hrole Hdb].
    assert (unchanged s s2) as U by (by etrans). destruct (present_after _ _ U1), (present_after _ _ U).
    split; [eauto|]. split; [tauto|]. split; [tauto|]. left. tauto. }
  ok_step E s3 u E3. apply pg_draw_run in E3.
  assert (unchanged s s3) as U by (by etrans; [|etrans]). destruct (present_after _ _ U).
  ok_step E s4 t4 E4. destruct t4. apply create_role_ok in E4 as (Ha & Hb4 & _ & Hc4).
  ok_step E s5 t5 E5. destruct t5. apply create_database_ok in E5 as (Hr5 & Hd5 & Hc5).
  ok_step E s6 t6 E6. apply pg_run_run in E6 as (r6 & E6 & Hc6 & _).
  apply (run_grant_connect _ _ _ _ _ Hd Hr) in E6 as [Hr6 Hd6].
  injection E as <- <-. unfold has_role, has_database. simpl. rewrite Hd6, Hd5, Hr6, Hr5.
  split; [eauto|]. split; [done|]. split; [eauto|]. right. split; [unfold has_role in *; tauto|].
  split; [done|]. exists u. by rewrite Hc6, Hc5, Hc4, (proj2 U).
Qed.
Lemma both_present s s1 s2 (b1 b2 : bool) :
  b1 = bool_decide (has_role s role) → b2 = bool_decide (has_database s1 database) → unchanged s s1 →
  b1 && b2 = bool_decide (has_role s role ∧ has_database s database).
Proof.
  intros -> -> Hu. destruct (present_after _ _ Hu). repeat case_bool_decide; simpl; tauto.
Qed.
Lemma pg_readiness_ok s s' o :
  pg_readiness out self op s = Done (s', Ok o) →
  unchanged s s' ∧
  if decide (has_role s role ∧ has_database s database)
  then ∃ detail, o = PxReady detail else ∃ reason recovery, o = PxFailed reason recovery.
Proof.
  unfold pg_readiness. rewrite Hn, lift_ok_bind. intros E.
  ok_step E s1 b1 E1. apply role_exists_run in E1 as [U1 B1]. specialize (B1 _ eq_refl).
  ok_step E s2 b2 E2. apply database_exists_run in E2 as [U2 B2]. specialize (B2 _ eq_refl).
  rewrite (both_present s s1 s2 b1 b2 B1 B2 U1) in E.
  assert (unchanged s s2) as U by (by etrans).
  destruct (decide (has_role s role ∧ has_database s database)) as [Hp|Hp].
  - rewrite bool_decide_eq_true_2 in E by done. injection E as <- <-. split; [done|by eexists].
  - rewrite bool_decide_eq_false_2 in E by done. injection E as <- <-. split; [done|by do 2 eexists].
Qed.
Lemma pg_adopt_ok s s' o :
  pg_adopt out self op s = Done (s', Ok o) →
  unchanged s s' ∧
  if decide (has_role s role ∧ has_database s database)
  then ∃ detail, o = PxReady detail else ∃ reason recovery, o = PxFailed reason recovery.
Proof.
  unfold pg_adopt. rewrite Hn, lift_ok_bind. intros E.
  ok_step E s1 b1 E1. apply database_exists_run in E1 as [U1 B1]. specialize (B1 _ eq_refl).
  destruct (present_after _ _ U1). destruct b1; symmetry in B1.
  - ok_step E s2 b2 E2. apply role_exists_run in E2 as [U2 B2]. specialize (B2 _ eq_refl).
    apply bool_decide_eq_true in B1.
    destruct b2; symmetry in B2; injection E as <- <-; (split; [by etrans|]);
      [apply bool_decide_eq_true in B2; rewrite decide_True by tauto; eauto|
       apply bool_decide_eq_false in B2; rewrite decide_False by tauto; eauto].
  - apply bool_decide_eq_false in B1. injection E as <- <-. rewrite decide_False by tauto. eauto.
Qed.
Lemma pg_delete_ok s s' o :
  pg_delete out self op s = Done (s', Ok o) →
  (∃ detail, o = PxReady detail) ∧ ¬ has_role s' role ∧ ¬ has_database s' database ∧
  pg_credentials s' = delete cache_key (pg_credentials s).
Proof.
  unfold pg_delete. rewrite Hn, lift_ok_bind. intros E.
  ok_step E s1 b1 E1. apply database_exists_run in E1 as [U1 B1]. specialize (B1 _ eq_refl).
  destruct (present_after _ _ U1) as [R1 D1].
  ok_step E s2 t2 E2. destruct t2.
  assert (¬ has_database s2 database ∧ pg_credentials s2 = pg_credentials s) as [D2 C2].
  { destruct b1; symmetry in B1.
    - ok_step E2 s3 t3 E3. destruct t3. apply pg_run_run in E3 as (r3 & E3 & C3 & _).
      apply drop_database_ok in E2 as (_ & ? & C2). split; [done|]. by rewrite C2, C3, (proj2 U1).
    - injection E2 as <-. apply bool_decide_eq_false in B1. split; [tauto|apply U1]. }
  ok_step E s4 b4 E4. apply role_exists_run in E4 as [U4 B4]. specialize (B4 _ eq_refl).
  destruct (present_after _ _ U4) as [R4 D4].
  ok_step E s5 t5 E5. destruct t5.
  assert (¬ has_role s5 role ∧ ¬ has_database s5 database ∧ pg_credentials s5 = pg_credentials s) as (R5 & D5 & C5).
  { destruct b4; symmetry in B4.
    - apply drop_role_ok in E5 as (E5 & ? & C5). split; [done|]. unfold has_database in *.
      rewrite E5, C5, (proj2 U4). tauto.
    - injection E5 as <-. apply bool_decide_eq_false in B4. rewrite (proj2 U4). tauto. }
  injection E as <- <-. split; [eauto|]. split; [done|]. split; [done|]. simpl. by rewrite C5.
Qed.

(** ** Calls that change nothing *)

Local Lemma quiet_role_exists n : within unchanged (role_exists out self n).
Proof. intros s s' r E. by apply role_exists_run in E as [? _]. Qed.
Local Lemma quiet_database_exists d : within unchanged (database_exists out self d).
Proof. intros s s' r E. by apply database_exists_run in E as [? _]. Qed.
#[local] Hint Resolve quiet_role_exists quiet_database_exists : within.
Lemma pg_readiness_quiet : within unchanged (pg_readiness out self op).
Proof. unfold pg_readiness. framed. Qed.
Lemma pg_adopt_quiet : within unchanged (pg_adopt out self op).
Proof. unfold pg_adopt. framed. Qed.

(** While the role exists a provision finds both names present, or fails to
    create the role. *)
Lemma pg_provision_frozen s s' r :
  has_role s role → pg_provision out self op s = Done (s', r) →
  unchanged s s' ∧ (¬ has_database s database → ∃ e, r = Err e).
Proof.
  intros Hrole. unfold pg_provision. rewrite Hn, lift_ok_bind.
  intros (s1 & r1 & E1 & E)%bind_run. apply role_exists_run in E1 as [U1 B1].
  destruct r1 as [b1|e]; [|destruct E as [-> ->]; eauto]. specialize (B1 _ eq_refl).
  rewrite bool_decide_eq_true_2 in B1 by done. subst b1.
  apply bind_run in E as (s2 & r2 & E2 & E). apply database_exists_run in E2 as [U2 B2].
  assert (unchanged s s2) as U by (by etrans). destruct (present_after _ _ U1) as [R1 D1].
  destruct r2 as [b2|e]; [|destruct E as [-> ->]; eauto]. specialize (B2 _ eq_refl).
  destruct b2; symmetry in B2.
  { apply bool_decide_eq_true in B2. injection E as <- <-. split; [done|]. tauto. }
  apply bind_run in E as (s3 & r3 & E3 & E). apply pg_draw_run in E3.
  assert (unchanged s s3) as U3 by (by etrans). destruct (present_after _ _ U3) as [R3 D3].
  destruct r3 as [u|e]; [|destruct E as [-> ->]; eauto].
  apply bind_run in E as (s4 & r4 & E4 & E). apply pg_run_run in E4 as (r' & E4 & C4 & Hok).
  destruct (run_create_role _ _ _ _ _ Hr E4) as [[S4 [m ->]]|[Habs _]];
    [|by destruct Habs; apply R3].
  destruct r4 as [[]|e]; [by apply proj1 in Hok; specialize (Hok eq_refl)|]. destruct E as [-> ->].
  split; [|eauto]. etrans; [exact U3|done].
Qed.

(** The outcome of an action, scrubbed. *)
Lemma pg_execute_run s s' r :
  pg_execute out self op s = Done (s', r) →
  (po_kind op ≠ PkPostgres ∧ s' = s ∧ ∃ e, r = Err e) ∨
  (po_kind op = PkPostgres ∧ ∃ r1, pg_act out self op s = Done (s', r1) ∧
     r = match r1 with Ok o => Ok (scrub_execution (pg_scrub self s') o) | Err e => Err e end).
Proof.
  unfold pg_execute. destruct (decide _) as [Hk|Hk]; [|intros [= <- <-]; eauto 6].
  intros (s1 & r1 & E & E')%bind_run. right. split; [done|].
  destruct r1 as [o|e]; [injection E' as <- <-|destruct E' as [-> ->]]; eauto.
Qed.
Lemma present_role_frozen s s' r :
  has_role s role → po_action op ≠ PaDelete → pg_execute out self op s = Done (s', r) →
  unchanged s s' ∧ (po_action op = PaProvision → ¬ has_database s database → ∃ e, r = Err e).
Proof.
  intros Hrole Hact [(_ & -> & He)|(_ & r1 & E & ->)]%pg_execute_run; [done|].
  unfold pg_act in E. destruct (po_action op); try done.
  - apply pg_provision_frozen in E as [U Hf]; [|done]. split; [done|]. intros _ Hdb.
    destruct (Hf Hdb) as [e ->]. eauto.
  - split; [by eapply pg_readiness_quiet|done].
  - injection E as <- <-. done.
  - injection E as <- <-. done.
  - split; [by eapply pg_adopt_quiet|done].
Qed.
End OneOperation.

(** ** Every call returns *)

Local Lemma returns_role_exists n : returns (role_exists out self n).
Proof. intros s. unfold role_exists, pg_exists. destruct (pq_fetch _ _ _ _). eauto. Qed.
Local Lemma returns_database_exists d : returns (database_exists out self d).
Proof. intros s. unfold database_exists, pg_exists. destruct (pq_fetch _ _ _ _). eauto. Qed.
Local Lemma returns_pg_run st b f : returns (pg_run out self st b f).
Proof. intros s. unfold pg_run. destruct (pq_run _ _ _ _). eauto. Qed.
Local Lemma returns_draw : returns (pg_draw out).
Proof. intros s. unfold pg_draw. destruct (pq_uuid _ _). eauto. Qed.
Local Lemma returns_cache f : returns (pg_cache f : M (Pg X) _ _).
Proof. apply returns_modify. Qed.
#[local] Hint Resolve returns_role_exists returns_database_exists returns_pg_run returns_draw
  returns_cache : returns.
Lemma pg_execute_returns op : returns (pg_execute out self op).
Proof. unfold pg_execute, pg_act, pg_provision, pg_readiness, pg_adopt, pg_delete. returning. Qed.

(* ------------------------------------------------------------------ *)
(** * The guarantees of the adapter *)

Definition ready (o : ProviderExecution) : Prop := ∃ detail, o = PxReady detail.
Lemma ready_scrub f o : ready (scrub_execution f o) ↔ ready o.
Proof. destruct o; split; intros [d E]; try discriminate E; by eexists. Qed.

(** C24: Every operation returns, whatever the server answers, and touches no
    role, database or cached credential but those of its own resource.  When it
    succeeds its outcome is what the catalog shows: a provisioned resource has its
    role and its database; a readiness check or an adoption changes nothing and is
    ready exactly when both exist; after a deletion neither exists and the
    credential is gone; another action is refused without effect. *)
Theorem postgres_outcome_is_catalog_backed op s :
  ∃ s' r role database, pg_execute out self op s = Done (s', r) ∧
    pg_names op = Ok (role, database) ∧
    touches_only role database (id_fmt (po_resource_id op)) s s' ∧
    ∀ o, r = Ok o →
      match po_action op with
      | PaProvision => ready o ∧ has_role s' role ∧ has_database s' database
      | PaReadinessCheck | PaAdopt =>
          unchanged s s' ∧ (ready o ↔ has_role s role ∧ has_database s database)
      | PaDelete =>
          ready o ∧ ¬ has_role s' role ∧ ¬ has_database s' database ∧
          credential_for s' (po_resource_id op) = None
      | _ => s' = s ∧ ¬ ready o
      end.
Proof.
  destruct (pg_execute_returns op s) as (s' & r & E). destruct (pg_names_spec op) as (Hn & Hr & Hd).
  revert Hn Hr Hd. generalize ("labrys_r_" +:+ managed_stem (po_resource_id op)) as role.
  generalize ("labrys_db_" +:+ managed_stem (po_resource_id op)) as database. intros database role Hn Hr Hd.
  exists s', r, role, database. split; [done|]. split; [done|]. split.
  { by apply (pg_execute_touches op role database Hn Hr Hd _ _ r). }
  intros o ->. apply pg_execute_run in E as [(_ & _ & e & ?)|(_ & r1 & E & Ho)]; [done|].
  destruct r1 as [o1|]; [|done]. injection Ho as ->.
  unfold pg_act in E. destruct (po_action op); rewrite ready_scrub.
  - destruct (pg_provision_ok op role database Hn Hr Hd _ _ _ E) as (A1 & A2 & A3 & _). done.
  - destruct (pg_readiness_ok op role database Hn _ _ _ E) as (A1 & A2). split; [done|].
    destruct (decide _) as [Hp|Hp]; [by split|]. destruct A2 as (a & b & ->). split; [by intros []|done].
  - injection E as <- <-. split; [done|]. by intros [].
  - injection E as <- <-. split; [done|]. by intros [].
  - destruct (pg_adopt_ok op role database Hn _ _ _ E) as (A1 & A2). split; [done|].
    destruct (decide _) as [Hp|Hp]; [by split|]. destruct A2 as (a & b & ->). split; [by intros []|done].
  - destruct (pg_delete_ok op role database Hn Hr Hd _ _ _ E) as (A1 & A2 & A3 & C). split_and!; try done.
    unfold credential_for. by rewrite C, lookup_delete_eq.
Qed.

(** An operation on a resource that is not its deletion. *)
Definition attempt (id : ResourceId) s s' : Prop :=
  ∃ op r, po_resource_id op = id ∧ po_action op ≠ PaDelete ∧ pg_execute out self op s = Done (s', r).
Lemma attempts_frozen id s s' :
  has_role s ("labrys_r_" +:+ managed_stem id) → rtc (attempt id) s s' → unchanged s s'.
Proof.
  intros Hrole Hs. revert Hrole. induction Hs as [|s s1 s' (op & r & <- & Hact & E) _ IH]; [done|].
  intros Hrole. destruct (pg_names_spec op) as (Hn & Hr & Hd).
  destruct (present_role_frozen op _ _ Hn Hr _ _ _ Hrole Hact E) as [U _].
  etrans; [exact U|]. apply IH. by apply (present_after _ "" _ _ U).
Qed.

(** C25: Once its role exists, a resource whose credential is not in the cache
    (its database could not be created, or the process restarted) stays as it is
    however often it is provisioned, checked or adopted: no credential is ever
    cached again, and without the database every further provision fails.  The
    guidance of the readiness check, to provision again, never helps. *)
Theorem provisioning_again_never_helps op role database s s1 s2 r :
  pg_names op = Ok (role, database) → has_role s role →
  credential_for s (po_resource_id op) = None →
  rtc (attempt (po_resource_id op)) s s1 → po_action op = PaProvision →
  pg_execute out self op s1 = Done (s2, r) →
  unchanged s s2 ∧ credential_for s2 (po_resource_id op) = None ∧
  (¬ has_database s database → ∃ e, r = Err e).
Proof.
  intros Hn Hrole Hc Hs Hact E. destruct (pg_names_spec op) as (Hn' & Hr & Hd).
  rewrite Hn in Hn'. injection Hn' as -> ->. pose proof (attempts_frozen _ _ _ Hrole Hs) as U1.
  destruct (present_after ("labrys_r_" +:+ managed_stem (po_resource_id op))
    ("labrys_db_" +:+ managed_stem (po_resource_id op)) _ _ U1) as [R1 D1].
  destruct (present_role_frozen op _ _ Hn Hr s1 s2 r) as [U2 He]; [tauto|congruence|done|].
  assert (unchanged s s2) as U by (by etrans). split; [done|].
  split; [by unfold credential_for in *; rewrite (proj2 U)|]. intros Hdb. apply He; [done|tauto].
Qed.

(** ** Credentials *)

(** Every cached password was drawn by the adapter. *)
Definition minted s : Prop :=
  ∀ k c, pg_credentials s !! k = Some c → ∃ u, pc_password c = uuid_simple u.
Definition keeps_minted s s' : Prop := minted s → minted s'.
#[local] Instance keeps_minted_preorder : PreOrder keeps_minted.
Proof. unfold keeps_minted. split; [by intros ?|intros ?????; auto]. Qed.
Local Lemma minted_same {A} (m : M (Pg X) ControlPlaneError A) :
  (∀ s s' r, m s = Done (s', r) → pg_credentials s' = pg_credentials s) → within keeps_minted m.
Proof. intros Hm s s' r E Hs k c. rewrite (Hm _ _ _ E). apply Hs. Qed.
Local Lemma minted_role_exists n : within keeps_minted (role_exists out self n).
Proof. apply minted_same. intros s s' r E. by apply role_exists_run in E as [[_ ?] _]. Qed.
Local Lemma minted_database_exists d : within keeps_minted (database_exists out self d).
Proof. apply minted_same. intros s s' r E. by apply database_exists_run in E as [[_ ?] _]. Qed.
Local Lemma minted_draw : within keeps_minted (pg_draw out).
Proof. apply minted_same. intros s s' r E. by apply pg_draw_run in E as [_ ?]. Qed.
Local Lemma minted_run st b f : within keeps_minted (pg_run out self st b f).
Proof. apply minted_same. intros s s' r E. by apply pg_run_run in E as (? & _ & ? & _). Qed.
Local Lemma minted_insert k n u d h p :
  within keeps_minted (pg_cache <[k := mkCredential n (uuid_simple u) d h p]> : M (Pg X) _ _).
Proof.
  intros s s' r [= <- _] Hs k' c. simpl. destruct (decide (k' = k)) as [->|Hne].
  - rewrite lookup_insert_eq. intros [= <-]. by exists u.
  - rewrite lookup_insert_ne by done. apply Hs.
Qed.
Local Lemma minted_delete k : within keeps_minted (pg_cache (delete k) : M (Pg X) _ _).
Proof. intros s s' r [= <- _] Hs k' c. simpl. intros [_ Hc]%lookup_delete_Some. by apply (Hs k'). Qed.
#[local] Hint Resolve minted_role_exists minted_database_exists minted_draw minted_run minted_insert
  minted_delete : within.
Lemma pg_execute_minted op : within keeps_minted (pg_execute out self op).
Proof. unfold pg_execute, pg_act, pg_provision, pg_readiness, pg_adopt, pg_delete. framed. Qed.

Lemma drawn_text_apart t :
  forallb is_hex (chars t) = true → (10 < String.length t)%nat → apart t redacted_marker.
Proof.
  intros Hhex%Is_true_true%forallb_True Hl. rewrite Forall_forall in Hhex. unfold apart. simpl.
  split; [by intros Hin%Hhex|]. split; [by intros Hin%Hhex|].
  apply not_true_is_false. intros Hc%(str_contains_length _ redacted_marker). simpl in Hc. lia.
Qed.
Definition outcome_texts (o : ProviderExecution) : list string :=
  match o with
  | PxAccepted t | PxReady t | PxDegraded t => [t]
  | PxFailed reason recovery => [reason; recovery]
  end.

(** After any operations of the adapter, the outcome of the next one
    shows no password it has cached, and not the administrator's either (if that
    one is apart from the redaction marker). *)
Theorem postgres_outcome_hides_passwords x s op s' o t :
  rtc (λ s1 s2, ∃ op r, pg_execute out self op s1 = Done (s2, r)) (mkPg x ∅) s →
  pg_execute out self op s = Done (s', Ok o) → t ∈ outcome_texts o →
  (∀ k c, pg_credentials s' !! k = Some c → str_contains (pc_password c) t = false) ∧
  (∀ p, admin_password self = Some p → apart p redacted_marker → str_contains p t = false).
Proof.
  intros Hs E Ht.
  assert (minted s) as Hm.
  { clear E. assert (minted (mkPg x ∅)) as H0' by (intros k c; simpl; by rewrite lookup_empty).
    revert H0'. induction Hs as [|a b c (op' & r & E) _ IH]; [done|].
    intros Ha. apply IH. by eapply pg_execute_minted. }
  pose proof (pg_execute_minted op _ _ _ E Hm) as Hm'.
  apply pg_execute_run in E as [(_ & _ & e & ?)|(_ & r1 & _ & Ho)]; [done|].
  destruct r1 as [o1|]; [|done]. injection Ho as ->.
  assert (∃ t0, t = pg_scrub self s' t0) as [t0 ->]
    by (destruct o1; simpl in Ht; set_unfold; naive_solver).
  unfold pg_scrub, redact. split.
  - intros k c Hk. destruct (Hm' _ _ Hk) as [u Hu]. apply redact_hides.
    + unfold pg_credential_secrets. apply elem_of_app. right. apply list_elem_of_fmap.
      exists c. split; [done|]. apply elem_of_hash_values. eauto.
    + rewrite Hu. apply drawn_text_apart; [apply uuid_simple_is_hex|rewrite uuid_simple_length; lia].
  - intros p Hp Hap. apply redact_hides; [|done]. unfold pg_credential_secrets. rewrite Hp.
    destruct p; [by destruct Hap as (_ & _ & ?)|]. apply elem_of_app. left. apply list_elem_of_here.
Qed.

(** Two resources whose identifiers agree in their first twelve digits share their
    role and their database. *)
Lemma pg_names_alias op op' :
  pg_names op = pg_names op' ↔ take_chars 12 (uuid_simple (id_uuid (po_resource_id op)))
                             = take_chars 12 (uuid_simple (id_uuid (po_resource_id op'))).
Proof.
  rewrite (proj1 (pg_names_spec op)), (proj1 (pg_names_spec op')). unfold managed_stem.
  split; [|by intros ->]. intros E. injection E. done.
Qed.
End Facts.

(* ------------------------------------------------------------------ *)
(** * A reference server *)

Module RefServer.
Import RefInstances.
(** Roles, databases with their owners, how many more databases fit, and the next
    identifier. *)
Record Server := mkServer {
  sv_roles : gset string;
  sv_databases : gmap string string;
  sv_room : nat;
  sv_next : N;
}.
Definition read_quoted (s : string) : option (string * string) :=
  t ← strip_prefix double_quote s; split_once (ascii_of_nat 34) t.
Definition sv_create_role (n : string) (x : Server) : Server * result string unit :=
  if decide (n ∈ sv_roles x) then (x, Err ("role " +:+ n +:+ " already exists"))
  else (mkServer ({[n]} ∪ sv_roles x) (sv_databases x) (sv_room x) (sv_next x), Ok tt).
Definition sv_create_database (d n : string) (x : Server) : Server * result string unit :=
  if decide (sv_databases x !! d = None ∧ n ∈ sv_roles x) then
    match sv_room x with
    | O => (x, Err "no space left on device")
    | S k => (mkServer (sv_roles x) (<[d := n]> (sv_databases x)) k (sv_next x), Ok tt)
    end
  else (x, Err "database already exists").
Definition sv_drop_database (d : string) (x : Server) : Server * result string unit :=
  if decide (is_Some (sv_databases x !! d)) then
    (mkServer (sv_roles x) (delete d (sv_databases x)) (S (sv_room x)) (sv_next x), Ok tt)
  else (x, Err "database does not exist").
Definition sv_drop_role (n : string) (x : Server) : Server * result string unit :=
  if decide (n ∈ sv_roles x ∧ map_Forall (λ _ o, o ≠ n) (sv_databases x)) then
    (mkServer (sv_roles x ∖ {[n]}) (sv_databases x) (sv_room x) (sv_next x), Ok tt)
  else (x, Err "role cannot be dropped").
Definition sv_run (statement : string) (binds : list string) (x : Server) : Server * result string unit :=
  match strip_prefix "CREATE ROLE " statement ≫= read_quoted with
  | Some (n, _) => sv_create_role n x
  | None =>
  match strip_prefix "CREATE DATABASE " statement ≫= read_quoted with
  | Some (d, rest) =>
      match strip_prefix " OWNER " rest ≫= read_quoted with
      | Some (n, _) => sv_create_database d n x
      | None => (x, Err "syntax error")
      end
  | None =>
  match strip_prefix "DROP DATABASE " statement ≫= read_quoted with
  | Some (d, _) => sv_drop_database d x
  | None =>
  match strip_prefix "DROP ROLE " statement ≫= read_quoted with
  | Some (n, _) => sv_drop_role n x
  | None => (x, Ok tt)
  end end end end.
Definition sv_uuid (x : Server) : Server * Uuid :=
  (mkServer (sv_roles x) (sv_databases x) (sv_room x) (sv_next x + 1),
   default (uuid 0) (uuid_of_bits (sv_next x))).
Definition server : PgOutside Server := {|
  pq_fetch query n x :=
    (x, Ok (if decide (query = role_query) then bool_decide (n ∈ sv_roles x)
            else bool_decide (is_Some (sv_databases x !! n))));
  pq_run := sv_run;
  pq_uuid := sv_uuid;
|}.
#[export] Instance server_catalog : PgCatalog server :=
  { pg_roles := sv_roles; pg_databases := sv_databases }.

Lemma plain_unquoted n : plain n → ascii_of_nat 34 ∉ chars n.
Proof.
  unfold validate_identifier. destruct n as [|a n]; [done|].
  destruct (negb _); [done|]. destruct (forallb identifier_char (chars (String a n))) eqn:Hc;
    [|by rewrite orb_true_r]. intros _ Hin.
  apply Is_true_true in Hc. apply forallb_True in Hc. rewrite Forall_forall in Hc. by apply Hc in Hin.
Qed.
Lemma read_quoted_app n rest : plain n → read_quoted (quoted n +:+ rest) = Some (n, rest).
Proof.
  intros Hq%plain_unquoted. unfold read_quoted, quoted. unfold double_quote at 2 3.
  rewrite (str_replace_absent (ascii_of_nat 34)) by done.
  rewrite str_app_assoc, strip_prefix_app. unfold mbind, option_bind.
  rewrite str_app_assoc. unfold double_quote. rewrite str_app_cons, str_app_nil_l. by apply split_once_app.
Qed.
Ltac server_case := case_decide; intros [= <- <-]; [right|left; split; [done|by eexists]]; done.
#[export] Instance server_laws : PgCatalogLaws server.
Proof.
  constructor; unfold took_effect.
  - intros n x x' r [= <- <-]. split; [done|]. intros b [= <-]. done.
  - intros d x x' r [= <- <-]. split; [done|]. intros b [= <-]. done.
  - intros n p x x' r Hn. simpl. unfold sv_run, create_role. rewrite strip_prefix_app.
    simpl. rewrite read_quoted_app by done. unfold sv_create_role.
    case_decide; intros [= <- <-]; [left|right]; [|done]. split; [done|by eexists].
  - intros d n x x' r Hd Hn. simpl. unfold sv_run, create_database.
    change (strip_prefix "CREATE ROLE " ("CREATE DATABASE " +:+ quoted d +:+ " OWNER " +:+ quoted n)) with (@None string).
    simpl (None ≫= _). cbv iota. rewrite strip_prefix_app. simpl (Some _ ≫= _).
    rewrite read_quoted_app by done. rewrite strip_prefix_app. simpl (Some _ ≫= _).
    rewrite <- (str_app_nil_r (quoted n)), read_quoted_app by done. unfold sv_create_database.
    case_decide as Hdec; [|intros [= <- <-]; left; split; [done|by eexists]].
    destruct (sv_room x); intros [= <- <-]; [left; split; [done|by eexists]|right; done].
  - intros d n x x' r _ _. simpl. unfold sv_run, grant_connect. simpl. by intros [= <- <-].
  - intros d x x' r. simpl. by intros [= <- <-].
  - intros d x x' r Hd. simpl. unfold sv_run, drop_database.
    change (strip_prefix "CREATE ROLE " ("DROP DATABASE " +:+ quoted d)) with (@None string).
    change (strip_prefix "CREATE DATABASE " ("DROP DATABASE " +:+ quoted d)) with (@None string).
    simpl (None ≫= _). cbv iota. rewrite strip_prefix_app. simpl (Some _ ≫= _).
    rewrite <- (str_app_nil_r (quoted d)), read_quoted_app by done. unfold sv_drop_database. server_case.
  - intros n x x' r Hn. simpl. unfold sv_run, drop_role.
    change (strip_prefix "CREATE ROLE " ("DROP ROLE " +:+ quoted n)) with (@None string).
    change (strip_prefix "CREATE DATABASE " ("DROP ROLE " +:+ quoted n)) with (@None string).
    change (strip_prefix "DROP DATABASE " ("DROP ROLE " +:+ quoted n)) with (@None string).
    simpl (None ≫= _). cbv iota. rewrite strip_prefix_app. simpl (Some _ ≫= _).
    rewrite <- (str_app_nil_r (quoted n)), read_quoted_app by done. unfold sv_drop_role. server_case.
  - intros x x' u [= <- _]. done.
Qed.

Definition admin : PgAdmin := mkPgAdmin (Some "s3cret") "db" 5432.
Definition orders : ResourceId := mkId (uuid 11).
Definition asking (action : ProviderAction) : ProviderOperation :=
  mkOperation (mkId (uuid 1)) None orders "database" "postgres.managed" PkPostgres action "k" "t" [] 1.
Definition fresh (room : nat) : Pg Server := mkPg (mkServer ∅ ∅ room 700) ∅.
Definition nothing : Pg Server * result ControlPlaneError ProviderExecution := (fresh 0, Err (CpIo "")).
Definition provisioned : Pg Server := (done_or nothing (pg_execute server admin (asking PaProvision) (fresh 1))).1.
(** The role was created and the database was not. *)
Definition half : Pg Server := (done_or nothing (pg_execute server admin (asking PaProvision) (fresh 0))).1.

Lemma postgres_outcome_is_catalog_backed_witness :
  PgCatalogLaws server ∧
  ∃ s' r role database, pg_execute server admin (asking PaDelete) provisioned = Done (s', r) ∧
    pg_names (asking PaDelete) = Ok (role, database) ∧
    (∀ o, r = Ok o → ¬ has_role server s' role) ∧ has_role server provisioned role.
Proof.
  split; [apply server_laws|].
  destruct (postgres_outcome_is_catalog_backed server admin (asking PaDelete) provisioned)
    as (s' & r & role & database & E & Hn & _ & Ho).
  exists s', r, role, database. split; [exact E|]. split; [exact Hn|]. split.
  - intros o Hr. exact (proj1 (proj2 (Ho o Hr))).
  - replace role with ("labrys_r_res_000000000000") by (vm_compute in Hn; congruence).
    apply (bool_decide_unpack _). vm_compute. exact I.
Defined.
Lemma provisioning_again_never_helps_witness :
  let s2 := (done_or nothing (pg_execute server admin (asking PaProvision) half)).1 in
  credential_for s2 orders = None ∧
  (¬ has_database server half "labrys_db_res_000000000000" →
   ∃ e, (done_or nothing (pg_execute server admin (asking PaProvision) half)).2 = Err e).
Proof.
  intros s2.
  destruct (provisioning_again_never_helps server admin (asking PaProvision) "labrys_r_res_000000000000"
    "labrys_db_res_000000000000" half half s2
    ((done_or nothing (pg_execute server admin (asking PaProvision) half)).2)) as (_ & Hc & He).
  - vm_compute. reflexivity.
  - apply (bool_decide_unpack _). vm_compute. exact I.
  - vm_compute. reflexivity.
  - apply rtc_refl.
  - reflexivity.
  - subst s2. rewrite <- surjective_pairing. apply is_done_eq. vm_compute. reflexivity.
  - exact (conj Hc He).
Defined.
Definition shown : ProviderExecution :=
  match (done_or nothing (pg_execute server admin (asking PaReadinessCheck) provisioned)).2 with
  | Ok o => o | Err _ => PxReady ""
  end.
Lemma postgres_outcome_hides_passwords_witness :
  ∃ t, t ∈ outcome_texts shown ∧ str_contains "s3cret" t = false.
Proof.
  set (s' := (done_or nothing (pg_execute server admin (asking PaReadinessCheck) provisioned)).1).
  assert (pg_execute server admin (asking PaReadinessCheck) provisioned = Done (s', Ok shown)) as E.
  { apply is_done_pair; vm_compute; reflexivity. }
  assert (rtc (λ s1 s2, ∃ op r, pg_execute server admin op s1 = Done (s2, r))
            (mkPg (mkServer ∅ ∅ 1 700) ∅) provisioned) as Hs.
  { apply rtc_once. exists (asking PaProvision),
      ((done_or nothing (pg_execute server admin (asking PaProvision) (fresh 1))).2).
    unfold provisioned. rewrite <- surjective_pairing. apply is_done_eq. vm_compute. reflexivity. }
  assert (apart "s3cret" redacted_marker) as Hap by (apply (bool_decide_unpack _); vm_compute; exact I).
  assert (∃ t, t ∈ outcome_texts shown) as [t Ht].
  { exists (match shown with PxReady t => t | _ => "" end). vm_compute. apply list_elem_of_here. }
  exists t. split; [exact Ht|].
  exact (proj2 (postgres_outcome_hides_passwords server admin (mkServer ∅ ∅ 1 700) provisioned
           (asking PaReadinessCheck) s' shown t Hs E Ht) "s3cret" eq_refl Hap).
Defined.
End RefServer.
