(* ===== verification/StorageProvider.v ===== *)
(** Filesystem-backed storage (storage_provider.rs of labrys-control-plane): buckets
    as directories under an approved root, scoped keys held in process memory, and
    the object and file storage adapters over them.  The filesystem, the clock and
    the random identifiers are an interface; the class [BucketFs] states what the
    standard library documents about directories. *)

From stdpp Require Import base option list strings pretty gmap.
From Stdlib Require Import ZArith Lia Ascii.
From S2P Require Import Prelude External CpErrors Ids Resource Snapshot Auth Config Provider Delivery Previews.
From S2P Require Import PgProvider.
Local Open Scope Z_scope.

(* ------------------------------------------------------------------ *)
(** * Buckets and keys *)

Record ScopedKey := mkScopedKey {
  sk_key_id : string;
  sk_secret : string;
  sk_scope : string;
  sk_bucket : string;
  sk_expires_at : DateTime;
}.
Definition DEFAULT_KEY_TTL_SECS : Z := 86400.

(** The fixed fields of [FsBucketBackend]. *)
Record FsBucketBackend := mkBackend { fb_root : string; fb_key_ttl : Duration }.
Definition FsBucketBackend_with_ttl (root : string) (key_ttl : Duration) :
    result ControlPlaneError FsBucketBackend :=
  if str_is_empty root then Err (CpExecution "storage backend requires a non-empty root")
  else Ok (mkBackend root key_ttl).
Definition FsBucketBackend_new `{Chrono} (root : string) :
    outcome (result ControlPlaneError FsBucketBackend) :=
  ttl ← duration_seconds DEFAULT_KEY_TTL_SECS;
  Done (FsBucketBackend_with_ttl root ttl).

(** A component that is not a plain name: the root, [.] or [..]. *)
Definition special_component (c : string) : bool := bool_decide (c ∈ ["/"; "."; ".."]).
Definition bucket_under_root (root bucket : string) : bool :=
  if existsb special_component (path_components bucket) then false
  else path_starts_with (path_join root bucket) root.
Definition bucket_path (self : FsBucketBackend) (bucket : string) : result ControlPlaneError string :=
  if bucket_under_root (fb_root self) bucket then Ok (path_join (fb_root self) bucket)
  else Err (CpExecution "bucket path escapes the approved storage root").

Definition bucket_char (a : ascii) : bool :=
  is_ascii_lowercase a || is_ascii_digit a || Ascii.eqb a "-".
Definition bucket_name_for `{UuidLib} (prefix : string) (resource : ResourceId) :
    result ControlPlaneError string :=
  let stem := take_chars 16 (str_replace "_" "" (str_replace "-" "" (id_fmt resource))) in
  let bucket := prefix +:+ "-" +:+ stem in
  if bool_decide (48 < String.length bucket)%nat || negb (forallb bucket_char (chars bucket)) then
    Err (CpExecution ("bucket name out of scope: " +:+ bucket))
  else Ok bucket.
Definition bucket_name `{UuidLib} (prefix : string) (operation : ProviderOperation) :
    result ControlPlaneError string := bucket_name_for prefix (po_resource_id operation).

Definition kind_for_prefix (prefix : string) : ProviderKind :=
  if decide (prefix = "obj") then PkObjectStorage else PkFileStorage.

(* ------------------------------------------------------------------ *)
(** * The backend *)

(** What happens outside. *)
Record BucketOutside (X : Type) := {
  bo_exists : string → X → X * bool;
  bo_create_dir_all : string → X → X * result string unit;
  bo_set_permissions : string → Z → X → X * result string unit;
  bo_remove_dir_all : string → X → X * result string unit;
  bo_now : X → X * DateTime;
  bo_uuid : X → X * Uuid;
}.
#[global] Arguments bo_exists {X}.
#[global] Arguments bo_create_dir_all {X}.
#[global] Arguments bo_set_permissions {X}.
#[global] Arguments bo_remove_dir_all {X}.
#[global] Arguments bo_now {X}.
#[global] Arguments bo_uuid {X}.
(** The world and the key registry of the process. *)
Record Buckets (X : Type) := mkBuckets { bk_x : X; bk_keys : gmap string ScopedKey }.
#[global] Arguments mkBuckets {X}.
#[global] Arguments bk_x {X}.
#[global] Arguments bk_keys {X}.

Section Backend.
Context `{UuidLib} `{HashIter} `{Chrono} `{ChronoText} {X : Type} (out : BucketOutside X).
Context (self : FsBucketBackend).
Abbreviation Op A := (M (Buckets X) ControlPlaneError A).

Definition fs_credential_secrets (s : Buckets X) : list string := map sk_secret (hash_values (bk_keys s)).
Definition key_for (s : Buckets X) (bucket : string) : option ScopedKey := bk_keys s !! bucket.
Definition fs_scrub (s : Buckets X) (text : string) : string := redact text (fs_credential_secrets s).

Definition bk_ask {A} (f : X → X * A) : Op A := λ s,
  let '(x, a) := f (bk_x s) in Done (mkBuckets x (bk_keys s), Ok a).
(** [?] on an I/O result. *)
Definition bk_io (f : X → X * result string unit) : Op unit :=
  r ← bk_ask f; lift_r (map_err_r CpIo r).
Definition bk_registry (f : gmap string ScopedKey → gmap string ScopedKey) : Op unit :=
  modify (λ s, mkBuckets (bk_x s) (f (bk_keys s))).
(** Whether a cached key has not expired. *)
Definition is_live (key : option ScopedKey) : Op bool :=
  match key with
  | Some k => now ← bk_ask (bo_now out); mret (now <? sk_expires_at k)
  | None => mret false
  end.

Definition fs_provision (prefix scope : string) (operation : ProviderOperation) : Op ProviderExecution :=
  bucket ← lift_r (bucket_name prefix operation);
  path ← lift_r (bucket_path self bucket);
  s ← get;
  let key := key_for s bucket in
  live ← is_live key;
  present ← bk_ask (bo_exists out path);
  match (present : bool) && (live : bool), key with
  | true, Some key =>
      mret (PxReady ("bucket " +:+ bucket +:+ " present under the approved root with live scoped key "
        +:+ sk_key_id key +:+ " (scope " +:+ scope +:+ ", expires " +:+ to_rfc3339 (sk_expires_at key)
        +:+ ")"))
  | true, None => lift_o (Panic "live key")
  | false, _ =>
      bk_io (bo_create_dir_all out path);;
      bk_io (bo_set_permissions out path 448);;
      now ← bk_ask (bo_now out);
      u1 ← bk_ask (bo_uuid out);
      u2 ← bk_ask (bo_uuid out);
      u3 ← bk_ask (bo_uuid out);
      expires_at ← lift_o (datetime_add now (fb_key_ttl self));
      let minted := mkScopedKey ("key_" +:+ uuid_simple u1) (uuid_simple u2 +:+ uuid_simple u3) scope
                      bucket expires_at in
      bk_registry <[bucket := minted]>;;
      mret (PxReady ("bucket " +:+ bucket +:+ " provisioned under the approved root with scoped key "
        +:+ sk_key_id minted +:+ " (scope " +:+ scope +:+ ", expires "
        +:+ to_rfc3339 (sk_expires_at minted) +:+ "); secret held in process memory only"))
  end.

Definition fs_readiness (prefix : string) (operation : ProviderOperation) : Op ProviderExecution :=
  bucket ← lift_r (bucket_name prefix operation);
  path ← lift_r (bucket_path self bucket);
  present ← bk_ask (bo_exists out path);
  if negb (present : bool) then
    mret (PxFailed ("bucket " +:+ bucket +:+ " is missing under the approved root")
      "re-run provision to recreate the bucket")
  else
    s ← get;
    live ← is_live (key_for s bucket);
    match key_for s bucket, (live : bool) with
    | Some key, true =>
        mret (PxReady ("bucket " +:+ bucket +:+ " present with live scoped key " +:+ sk_key_id key
          +:+ " (expires " +:+ to_rfc3339 (sk_expires_at key) +:+ ")"))
    | _, _ =>
        mret (PxFailed ("bucket " +:+ bucket
                +:+ " present but no live key is cached (restart empties the process registry)")
          "re-run provision to mint a fresh scoped key")
    end.

Definition fs_delete (prefix : string) (operation : ProviderOperation) : Op ProviderExecution :=
  bucket ← lift_r (bucket_name prefix operation);
  path ← lift_r (bucket_path self bucket);
  bk_registry (delete bucket);;
  present ← bk_ask (bo_exists out path);
  (if (present : bool) then bk_io (bo_remove_dir_all out path) else mret tt);;
  mret (PxReady ("bucket " +:+ bucket +:+ " deleted and its scoped key revoked")).

Definition fs_unsupported (action : ProviderAction) : ProviderExecution :=
  PxFailed ("filesystem storage backend does not support " +:+ ProviderAction_debug action
    +:+ "; provision, readiness-check, adopt, and delete are the executable actions")
    "use provision for new buckets and delete with approval for teardown".
Definition fs_act (prefix scope : string) (operation : ProviderOperation) : Op ProviderExecution :=
  match po_action operation with
  | PaProvision => fs_provision prefix scope operation
  | PaReadinessCheck | PaAdopt => fs_readiness prefix operation
  | PaDelete => fs_delete prefix operation
  | other => mret (fs_unsupported other)
  end.
Definition execute_scoped (prefix scope : string) (operation : ProviderOperation) : Op ProviderExecution :=
  if decide (po_kind operation = kind_for_prefix prefix) then
    outcome ← fs_act prefix scope operation;
    s ← get;
    mret (scrub_execution (fs_scrub s) outcome)
  else mthrow (CpProvider (prefix +:+ " backend does not supply capability '"
                 +:+ po_capability operation +:+ "'")).

Definition object_execute : ProviderOperation → Op ProviderExecution :=
  execute_scoped "obj" "storage.object:read-write".
Definition ObjectStorageProvisioner : ProviderAdapter (Buckets X) :=
  {| pa_key := "objectstore.fs"; pa_kind := PkObjectStorage; pa_execute := object_execute |}.
Definition file_execute : ProviderOperation → Op ProviderExecution :=
  execute_scoped "file" "storage.file:read-write".
Definition FileStorageProvisioner : ProviderAdapter (Buckets X) :=
  {| pa_key := "filestore.fs"; pa_kind := PkFileStorage; pa_execute := file_execute |}.
End Backend.
#[global] Arguments execute_scoped : simpl never.

(* ------------------------------------------------------------------ *)
(** * What the standard library documents about directories *)

Class BucketFs {X} (out : BucketOutside X) := { bo_there : X → string → Prop }.
Definition same_files {X} (out : BucketOutside X) `{!BucketFs out} (x x' : X) : Prop :=
  ∀ q, bo_there x' q ↔ bo_there x q.
(** Creating a directory creates missing parents too, and removing one removes
    what lies below it. *)
Class BucketFsLaws {X} (out : BucketOutside X) `{!BucketFs out} : Prop := {
  exists_law p x x' b : bo_exists out p x = (x', b) → same_files out x x' ∧ (b = true ↔ bo_there x p);
  create_law p x x' r : bo_create_dir_all out p x = (x', r) →
    (∀ q, bo_there x q → bo_there x' q) ∧
    (∀ q, path_starts_with p q = false → bo_there x' q → bo_there x q) ∧
    (r = Ok tt → bo_there x' p);
  permissions_law p mode x x' r : bo_set_permissions out p mode x = (x', r) → same_files out x x';
  remove_law p x x' r : bo_remove_dir_all out p x = (x', r) →
    (∀ q, bo_there x' q → bo_there x q) ∧
    (∀ q, path_starts_with q p = false → bo_there x q → bo_there x' q) ∧
    (r = Ok tt → ¬ bo_there x' p);
  now_law x x' t : bo_now out x = (x', t) → same_files out x x';
  uuid_law x x' u : bo_uuid out x = (x', u) → same_files out x x';
}.

(* ------------------------------------------------------------------ *)
(** * Names *)

Section Names.
Context `{UuidLaws}.
Lemma str_replace_drop c a b :
  c ∉ chars a → c ∉ chars b → str_replace (String c "") "" (a +:+ String c b) = a +:+ b.
Proof.
  intros Ha Hb. unfold str_replace. induction a as [|x a IH].
  - rewrite str_app_nil_l. simpl. unfold starts_with. simpl. rewrite Ascii.eqb_refl.
    apply (str_replace_absent c "" b Hb).
  - change (chars (String x a)) with (x :: chars a) in Ha. apply not_elem_of_cons in Ha as [Hx Ha].
    rewrite !str_app_cons. simpl. rewrite starts_with_cons.
    destruct (Ascii.eqb_spec c x); [congruence|]. simpl. by rewrite IH.
Qed.

(** The first thirteen digits of a resource's identifier. *)
Definition bucket_stem (id : ResourceId) : string := "res" +:+ take_chars 13 (uuid_simple (id_uuid id)).
Lemma bucket_char_hex a : is_hex a = true → bucket_char a = true.
Proof.
  unfold is_hex, bucket_char, is_ascii_lowercase, is_ascii_digit, in_range.
  rewrite !orb_true_iff, !andb_true_iff, !N.leb_le. lia.
Qed.
Lemma bucket_name_spec prefix id :
  prefix ∈ ["obj"; "file"] →
  let bucket := prefix +:+ "-" +:+ bucket_stem id in
  bucket_name_for prefix id = Ok bucket ∧ forallb bucket_char (chars bucket) = true.
Proof.
  intros Hp bucket. set (u := id_uuid id).
  destruct (hex_chars_plain _ (uuid_simple_is_hex u)) as (_ & Hcont & Hdash & Hunder).
  assert (take_chars 16 (str_replace "_" "" (str_replace "-" "" (id_fmt id))) = bucket_stem id) as E.
  { rewrite id_fmt_prefix, (str_replace_absent "-").
    - change (id_prefix KResource +:+ uuid_simple (id_uuid id)) with ("res" +:+ String "_" (uuid_simple u)).
      rewrite str_replace_drop; [done|apply (bool_decide_unpack _); vm_compute; exact I|done].
    - rewrite chars_app, not_elem_of_app. split; [apply (bool_decide_unpack _); vm_compute; exact I|done]. }
  assert (String.length (bucket_stem id) = 16%nat) as Hl.
  { unfold bucket_stem. rewrite str_length_app, <- (chars_length (take_chars _ _)), chars_take by done.
    fold u. by rewrite length_take, chars_length, uuid_simple_length. }
  assert (forallb bucket_char (chars (bucket_stem id)) = true) as Hc.
  { unfold bucket_stem. rewrite chars_app, forallb_app, chars_take by done. fold u. simpl.
    apply Is_true_true, forallb_True, Forall_take. apply Forall_forall. intros a Ha.
    pose proof (uuid_simple_is_hex u) as Hh. apply Is_true_true, forallb_True in Hh.
    rewrite Forall_forall in Hh. apply Is_true_true, bucket_char_hex, Is_true_true. by apply Hh. }
  assert (forallb bucket_char (chars bucket) = true) as Hb.
  { unfold bucket. rewrite !chars_app, !forallb_app, Hc. set_unfold in Hp. by destruct Hp as [->| [->|[]]]. }
  split; [|done]. unfold bucket_name_for. rewrite E. fold bucket. cbv zeta. rewrite Hb.
  rewrite bool_decide_eq_false_2; [done|]. unfold bucket. rewrite !str_length_app, Hl.
  set_unfold in Hp. destruct Hp as [->| [->|[]]]; simpl; lia.
Qed.

Lemma lead_plain w : w ≠ "." → path_lead [w] = [].
Proof.
  destruct w as [|a w]; [done|]. intros Hne. destruct a as [[] [] [] [] [] [] [] []]; try done. by destruct w.
Qed.
(** A bucket is one name below the root, so the guard never refuses it. *)
Lemma bucket_path_spec self bucket :
  fb_root self ≠ "" → bucket ≠ "" → forallb bucket_char (chars bucket) = true →
  bucket_path self bucket = Ok (path_join (fb_root self) bucket) ∧
  path_components (path_join (fb_root self) bucket) = path_components (fb_root self) ++ [bucket].
Proof.
  intros Hroot Hne Hc%Is_true_true%forallb_True. rewrite Forall_forall in Hc.
  assert ("/"%char ∉ chars bucket) as Hs by (by intros Hin%Hc).
  assert ("."%char ∉ chars bucket) as Hd by (by intros Hin%Hc).
  assert (∀ t, "."%char ∈ chars t → bucket ≠ t) as Hdot by (intros t Ht ->; done).
  assert (is_name bucket = true) as Hn.
  { unfold is_name. rewrite (proj2 (String.eqb_neq _ _)) by (apply Hdot, list_elem_of_here). by destruct bucket. }
  assert (path_components (path_join (fb_root self) bucket) = path_components (fb_root self) ++ [bucket]) as Hp
    by (by apply join_components).
  split; [|done]. unfold bucket_path, bucket_under_root.
  assert (path_components bucket = [bucket]) as Eb.
  { unfold path_components. rewrite split_on_none by done. simpl List.filter. rewrite Hn, lead_plain; [done|].
    apply Hdot, list_elem_of_here. }
  rewrite Eb. simpl. unfold path_starts_with. rewrite Hp, is_prefix_app, orb_false_r.
  unfold special_component. rewrite bool_decide_eq_false_2; [done|].
  set_unfold. intros [->|[->|[->|[]]]]; [by destruct Hs; apply list_elem_of_here|apply Hd, list_elem_of_here..].
Qed.
End Names.

(* ------------------------------------------------------------------ *)
(** * What one operation does *)

Section Facts.
Context `{UuidLaws} `{HashIterLaws} `{ChronoLaws} `{ChronoText} {X : Type} (out : BucketOutside X).
Context `{!BucketFs out, !BucketFsLaws out} (self : FsBucketBackend).
Implicit Types (s : Buckets X) (op : ProviderOperation).

Definition there s (path : string) : Prop := bo_there (bk_x s) path.
(** A key that has not expired at some reading of the clock. *)
Definition reading (t : DateTime) : Prop := ∃ x x', bo_now out x = (x', t).
Definition has_live_key s (bucket : string) : Prop :=
  ∃ k t, key_for s bucket = Some k ∧ reading t ∧ t < sk_expires_at k.
Definition untouched s s' : Prop := same_files out (bk_x s) (bk_x s') ∧ bk_keys s' = bk_keys s.
#[local] Instance untouched_preorder : PreOrder untouched.
Proof.
  unfold untouched, same_files. split; [by intros ?|]. intros a b c [Hab Kab] [Hbc Kbc].
  split; [intros q; by rewrite Hbc, Hab|congruence].
Qed.
(** Only this bucket's key, and the directories above or below its path, may differ. *)
Definition spares (bucket path : string) s s' : Prop :=
  (∀ b, b ≠ bucket → bk_keys s' !! b = bk_keys s !! b) ∧
  (∀ q, path_starts_with path q = false → path_starts_with q path = false → there s' q ↔ there s q).
#[local] Instance spares_preorder bucket path : PreOrder (spares bucket path).
Proof.
  split; [by intros ?|]. intros a b c [Ka Fa] [Kb Fb].
  split; [intros k Hk; by rewrite Kb, Ka|intros q H1' H2'; by rewrite Fb, Fa].
Qed.
Lemma untouched_spares bucket path s s' : untouched s s' → spares bucket path s s'.
Proof. intros [Hf Hk]. split; [by rewrite Hk|]. intros q _ _. apply Hf. Qed.

Lemma bk_ask_run {A} (f : X → X * A) s s' r :
  bk_ask f s = Done (s', r) → ∃ a, f (bk_x s) = (bk_x s', a) ∧ r = Ok a ∧ bk_keys s' = bk_keys s.
Proof. unfold bk_ask. destruct (f (bk_x s)) as [x a]. intros [= <- <-]. by exists a. Qed.
Lemma bk_io_run f s s' r :
  bk_io f s = Done (s', r) →
  ∃ r', f (bk_x s) = (bk_x s', r') ∧ bk_keys s' = bk_keys s ∧ (r = Ok tt → r' = Ok tt).
Proof.
  intros (s1 & r1 & (a & E & -> & Hk)%bk_ask_run & E')%bind_run. injection E' as <- <-.
  exists a. split; [done|]. split; [done|]. by destruct a as [[]|].
Qed.
Lemma ask_now_untouched s s' r : bk_ask (bo_now out) s = Done (s', r) → untouched s s'.
Proof. intros (t & E & _ & Hk)%bk_ask_run. split; [by eapply now_law|done]. Qed.
Lemma ask_uuid_untouched s s' r : bk_ask (bo_uuid out) s = Done (s', r) → untouched s s'.
Proof. intros (t & E & _ & Hk)%bk_ask_run. split; [by eapply uuid_law|done]. Qed.
Lemma ask_exists_run path s s' r :
  bk_ask (bo_exists out path) s = Done (s', r) →
  untouched s s' ∧ ∃ b, r = Ok b ∧ (b = true ↔ there s path).
Proof.
  intros (b & E & -> & Hk)%bk_ask_run. apply exists_law in E as [Hs Hb].
  split; [done|]. by exists b.
Qed.
Lemma is_live_run key s s' r :
  is_live out key s = Done (s', r) → untouched s s' ∧
  ∃ b, r = Ok b ∧ (b = true → ∃ k t, key = Some k ∧ reading t ∧ t < sk_expires_at k).
Proof.
  unfold is_live. destruct key as [k|]; [|intros [= <- <-]; split; [done|by exists false]].
  intros (s1 & r1 & E & E')%bind_run. pose proof (ask_now_untouched _ _ _ E) as U.
  apply bk_ask_run in E as (t & E & -> & _). injection E' as <- <-. split; [done|].
  eexists. split; [done|]. intros Hlt%Z.ltb_lt. exists k, t. split; [done|]. split; [|done]. by do 2 eexists.
Qed.

Section OneBucket.
Context (prefix bucket path : string) (op : ProviderOperation).
Context (Hb : bucket_name prefix op = Ok bucket) (Hp : bucket_path self bucket = Ok path).
Local Abbreviation R := (spares bucket path).

Lemma spares_ask {A} (f : X → X * A) :
  (∀ s s' r, bk_ask f s = Done (s', r) → untouched s s') → within R (bk_ask f).
Proof. intros Hf s s' r E. by eapply untouched_spares, Hf. Qed.
Lemma spares_now : within R (bk_ask (bo_now out)).
Proof. apply spares_ask, ask_now_untouched. Qed.
Lemma spares_uuid : within R (bk_ask (bo_uuid out)).
Proof. apply spares_ask, ask_uuid_untouched. Qed.
Lemma spares_exists : within R (bk_ask (bo_exists out path)).
Proof. apply spares_ask. intros s s' r E. by apply ask_exists_run in E as [? _]. Qed.
Lemma spares_live key : within R (is_live out key).
Proof. intros s s' r E. apply is_live_run in E as [U _]. by apply untouched_spares. Qed.
Lemma spares_create : within R (bk_io (bo_create_dir_all out path)).
Proof.
  intros s s' r (r' & E & Hk & _)%bk_io_run. apply create_law in E as (Hadd & Hnew & _).
  split; [by rewrite Hk|]. intros q Hq _. split; [by apply Hnew|apply Hadd].
Qed.
Lemma spares_permissions mode : within R (bk_io (bo_set_permissions out path mode)).
Proof.
  intros s s' r (r' & E & Hk & _)%bk_io_run. apply permissions_law in E. by apply untouched_spares.
Qed.
Lemma spares_remove : within R (bk_io (bo_remove_dir_all out path)).
Proof.
  intros s s' r (r' & E & Hk & _)%bk_io_run. apply remove_law in E as (Hsub & Hkeep & _).
  split; [by rewrite Hk|]. intros q _ Hq. split; [apply Hsub|by apply Hkeep].
Qed.
Lemma spares_insert k : within R (bk_registry <[bucket := k]> : M (Buckets X) _ _).
Proof. intros s s' r [= <- _]. split; [|done]. intros b Hne. by apply lookup_insert_ne. Qed.
Lemma spares_revoke : within R (bk_registry (delete bucket) : M (Buckets X) _ _).
Proof. intros s s' r [= <- _]. split; [|done]. intros b Hne. by apply lookup_delete_ne. Qed.
#[local] Hint Resolve spares_now spares_uuid spares_exists spares_live spares_create
  spares_permissions spares_remove spares_insert spares_revoke : within.
Lemma execute_scoped_spares scope : within R (execute_scoped out self prefix scope op).
Proof.
  unfold execute_scoped, fs_act, fs_provision, fs_readiness, fs_delete.
  rewrite !Hb, !lift_ok_bind, !Hp, !lift_ok_bind. framed.
Qed.

Lemma fs_readiness_ok s s' o :
  fs_readiness out self prefix op s = Done (s', Ok o) →
  untouched s s' ∧ (ready o → there s path ∧ has_live_key s' bucket).
Proof.
  unfold fs_readiness. rewrite Hb, lift_ok_bind, Hp, lift_ok_bind. intros E.
  ok_step E s1 present E1. apply ask_exists_run in E1 as [U1 (b & [= ->] & Hthere)].
  destruct b; [|injection E as <- <-; split; [done|by intros []]]. simpl negb in E. cbv iota in E.
  ok_step E s2 t2 E2. injection E2 as <- <-.
  ok_step E s3 live E3. apply is_live_run in E3 as [U3 (b & [= ->] & Hlive)].
  assert (untouched s s3) as U by (by etrans).
  destruct (key_for s1 bucket) as [k|] eqn:Hk; [destruct b|]; injection E as <- <-; (split; [done|]);
    [|by intros []..].
  intros _. split; [by apply Hthere|]. destruct (Hlive eq_refl) as (k' & t & [= <-] & Hr & Hlt).
  exists k, t. split; [|done]. unfold key_for in *. by rewrite (proj2 U3).
Qed.
Lemma fs_provision_ok scope s s' o :
  0 < fb_key_ttl self → fs_provision out self prefix scope op s = Done (s', Ok o) →
  ready o ∧ there s' path ∧ has_live_key s' bucket.
Proof.
  intros Httl. unfold fs_provision. rewrite Hb, lift_ok_bind, Hp, lift_ok_bind. intros E.
  ok_step E s1 t1 E1. injection E1 as <- <-.
  ok_step E s2 live E2. apply is_live_run in E2 as [U2 (b & [= ->] & Hlive)].
  ok_step E s3 present E3. apply ask_exists_run in E3 as [U3 (b' & [= ->] & Hthere)].
  destruct (b' && b) eqn:Hboth.
  { apply andb_true_iff in Hboth as [-> ->]. destruct (Hlive eq_refl) as (k & t & Hk & Hr & Hlt).
    rewrite Hk in E. injection E as <- <-. split; [by eexists|]. split.
    - apply U3. by apply Hthere.
    - exists k, t. split; [|done]. unfold key_for in *. by rewrite (proj2 U3), (proj2 U2). }
  ok_step E s4 t4 E4. destruct t4. apply bk_io_run in E4 as (r4 & E4 & K4 & Hok4).
  apply create_law in E4 as (_ & _ & T4). specialize (T4 (Hok4 eq_refl)).
  ok_step E s5 t5 E5. apply bk_io_run in E5 as (r5 & E5 & K5 & _). apply permissions_law in E5.
  ok_step E s6 now E6. pose proof (ask_now_untouched _ _ _ E6) as U6.
  apply bk_ask_run in E6 as (t & Et & [= ->] & _).
  ok_step E s7 u1 E7. apply ask_uuid_untouched in E7.
  ok_step E s8 u2 E8. apply ask_uuid_untouched in E8.
  ok_step E s9 u3 E9. apply ask_uuid_untouched in E9.
  ok_step E sa e Ea. unfold lift_o in Ea. destruct (datetime_add t (fb_key_ttl self)) as [e'|] eqn:Ee; [|done].
  injection Ea as <- <-. apply datetime_add_exact in Ee as ->.
  injection E as <- <-. split; [by eexists|]. split.
  - unfold there. simpl. apply E9, E8, E7, U6, E5. done.
  - do 2 eexists. unfold key_for. simpl. rewrite lookup_insert_eq. split; [done|].
    split; [by do 2 eexists|simpl; lia].
Qed.
(** The key is revoked before the directory is removed. *)
Lemma fs_delete_run s s' r :
  fs_delete out self prefix op s = Done (s', r) →
  key_for s' bucket = None ∧ ∀ o, r = Ok o → ready o ∧ ¬ there s' path.
Proof.
  unfold fs_delete. rewrite Hb, lift_ok_bind, Hp, lift_ok_bind.
  intros (s1 & r1 & [= <- <-] & (s2 & r2 & E2 & E)%bind_run)%bind_run.
  apply ask_exists_run in E2 as [U2 (b & -> & Hthere)]. unfold there in Hthere. simpl in Hthere.
  assert (bk_keys s2 !! bucket = None) as K2 by (rewrite (proj2 U2); apply lookup_delete_eq).
  apply bind_run in E as (s3 & r3 & E3 & E). unfold key_for.
  assert (bk_keys s3 !! bucket = None ∧ (r3 = Ok tt → ¬ there s3 path)) as [K3 T3].
  { destruct b.
    - apply bk_io_run in E3 as (r' & E3 & K3 & Hok). apply remove_law in E3 as (_ & _ & Hgone).
      rewrite K3. auto.
    - injection E3 as <- <-. split; [done|]. intros _ Hin. apply U2 in Hin. by apply Hthere in Hin. }
  destruct r3 as [[]|e']; [injection E as <- <-|by destruct E as [-> ->]].
  split; [done|]. intros o [= <-]. split; [by eexists|]. by apply T3.
Qed.
Lemma execute_scoped_run scope s s' r :
  execute_scoped out self prefix scope op s = Done (s', r) →
  (po_kind op ≠ kind_for_prefix prefix ∧ s' = s ∧ ∃ e, r = Err e) ∨
  (po_kind op = kind_for_prefix prefix ∧ ∃ r1, fs_act out self prefix scope op s = Done (s', r1) ∧
     r = match r1 with Ok o => Ok (scrub_execution (fs_scrub s') o) | Err e => Err e end).
Proof.
  unfold execute_scoped. destruct (decide _) as [Hk|Hk]; [|intros [= <- <-]; eauto 6].
  intros (s1 & r1 & E & E')%bind_run. right. split; [done|].
  destruct r1 as [o|e]; [injection E' as <- <-|destruct E' as [-> ->]]; eauto.
Qed.
End OneBucket.

(** ** Every call returns, unless an expiry leaves the calendar *)

Local Lemma returns_ask {A} (f : X → X * A) : returns (bk_ask f).
Proof. intros s. unfold bk_ask. destruct (f _). eauto. Qed.
Local Lemma returns_io f : returns (bk_io (X := X) f).
Proof. apply returns_bind; [apply returns_ask|intros; apply returns_lift_r]. Qed.
Local Lemma returns_registry f : returns (bk_registry f : M (Buckets X) _ _).
Proof. apply returns_modify. Qed.
Local Lemma returns_live key : returns (is_live out key).
Proof.
  destruct key; simpl; [|apply returns_ret]. apply returns_bind; [apply returns_ask|intros; apply returns_ret].
Qed.
#[local] Hint Resolve returns_ask returns_io returns_registry returns_live : returns.
Lemma execute_scoped_returns prefix scope op :
  (∀ t, reading t → ∃ e, datetime_add t (fb_key_ttl self) = Done e) →
  returns (execute_scoped out self prefix scope op).
Proof.
  intros Hadd.
  assert (∀ t s s', bk_ask (bo_now out) s = Done (s', Ok t) →
    returns (lift_o (datetime_add t (fb_key_ttl self)) : M (Buckets X) ControlPlaneError _)) as Hl.
  { intros t s s' (a & E & [= ->] & _)%bk_ask_run s0. unfold lift_o.
    destruct (Hadd a) as [e ->]; [by do 2 eexists|eauto]. }
  unfold execute_scoped, fs_act, fs_readiness, fs_delete.
  assert (returns (fs_provision out self prefix scope op)); [|returning].
  unfold fs_provision. apply returns_bind; [apply returns_lift_r|intros bucket _ _ _].
  apply returns_bind; [apply returns_lift_r|intros path _ _ _].
  apply returns_bind; [apply returns_get|intros s _ _ _].
  cbv zeta. destruct (key_for s bucket) as [k|]; [returning|]. unfold is_live. rewrite ret_bind.
  apply returns_bind; [apply returns_ask|intros present _ _ _]. rewrite andb_false_r. returning.
Qed.

(* ------------------------------------------------------------------ *)
(** * The guarantees of the backend *)

(** C26: An object or file storage operation returns (the key's expiry being a
    date), works on one directory directly below the approved root, which its guard
    accepts, and leaves the keys and directories of all other buckets alone.  When it
    succeeds, a provisioned bucket exists and has a live key, a readiness check or an
    adoption changes nothing and is ready only for such a bucket, and a deleted
    bucket is gone; a deletion revokes the key even when it fails. *)
Theorem storage_outcome_is_backed prefix scope op s :
  prefix ∈ ["obj"; "file"] → fb_root self ≠ "" → 0 < fb_key_ttl self →
  (∀ t, reading t → ∃ e, datetime_add t (fb_key_ttl self) = Done e) →
  ∃ s' r bucket path, execute_scoped out self prefix scope op s = Done (s', r) ∧
    bucket_name prefix op = Ok bucket ∧ bucket_path self bucket = Ok path ∧
    path_components path = path_components (fb_root self) ++ [bucket] ∧
    spares bucket path s s' ∧
    (po_kind op = kind_for_prefix prefix → po_action op = PaDelete → key_for s' bucket = None) ∧
    ∀ o, r = Ok o →
      match po_action op with
      | PaProvision => ready o ∧ there s' path ∧ has_live_key s' bucket
      | PaReadinessCheck | PaAdopt =>
          untouched s s' ∧ (ready o → there s path ∧ has_live_key s' bucket)
      | PaDelete => ready o ∧ ¬ there s' path
      | _ => s' = s ∧ ¬ ready o
      end.
Proof.
  intros Hprefix Hroot Httl Hadd.
  destruct (execute_scoped_returns prefix scope op Hadd s) as (s' & r & E).
  destruct (bucket_name_spec prefix (po_resource_id op) Hprefix) as [Hb Hc].
  set (bucket := prefix +:+ _) in Hb, Hc. clearbody bucket.
  assert (bucket ≠ "") as Hne.
  { intros ->. unfold bucket_name_for in Hb. cbv zeta in Hb. destruct (_ || _); [done|].
    injection Hb as Hb. destruct prefix; discriminate Hb. }
  destruct (bucket_path_spec self bucket Hroot Hne Hc) as [Hp Hcomp].
  revert Hp Hcomp. generalize (path_join (fb_root self) bucket). intros path Hp Hcomp.
  exists s', r, bucket, path. split; [done|]. split; [exact Hb|]. split; [done|]. split; [done|].
  split; [by apply (execute_scoped_spares prefix bucket path op Hb Hp scope s s' r)|].
  apply execute_scoped_run in E as [(Hk & -> & e & ->)|(_ & r1 & E & ->)]; [by split|].
  unfold fs_act in E. split.
  { intros _ Hact. rewrite Hact in E. exact (proj1 (fs_delete_run prefix bucket path op Hb Hp _ _ _ E)). }
  intros o Ho. destruct r1 as [o1|]; [|done]. injection Ho as <-.
  destruct (po_action op); rewrite ready_scrub.
  - exact (fs_provision_ok prefix bucket path op Hb Hp scope _ _ _ Httl E).
  - exact (fs_readiness_ok prefix bucket path op Hb Hp _ _ _ E).
  - injection E as <- <-. split; [done|]. by intros [].
  - injection E as <- <-. split; [done|]. by intros [].
  - exact (fs_readiness_ok prefix bucket path op Hb Hp _ _ _ E).
  - destruct (fs_delete_run prefix bucket path op Hb Hp _ _ _ E) as [_ Hd]. by apply Hd.
Qed.

(** ** Secrets *)

(** Every cached secret was drawn by the backend. *)
Definition drawn s : Prop :=
  ∀ b k, bk_keys s !! b = Some k → ∃ u v, sk_secret k = uuid_simple u +:+ uuid_simple v.
Definition keeps_drawn s s' : Prop := drawn s → drawn s'.
#[local] Instance keeps_drawn_preorder : PreOrder keeps_drawn.
Proof. unfold keeps_drawn. split; [by intros ?|intros ?????; auto]. Qed.
Local Lemma drawn_ask {A} (f : X → X * A) : within keeps_drawn (bk_ask f).
Proof. intros s s' r (a & _ & _ & Hk)%bk_ask_run Hs b k. rewrite Hk. apply Hs. Qed.
Local Lemma drawn_io f : within keeps_drawn (bk_io f).
Proof. intros s s' r (a & _ & Hk & _)%bk_io_run Hs b k. rewrite Hk. apply Hs. Qed.
Local Lemma drawn_live key : within keeps_drawn (is_live out key).
Proof. intros s s' r [[_ Hk] _]%is_live_run Hs b k. rewrite Hk. apply Hs. Qed.
Local Lemma drawn_insert b i u v sc t :
  within keeps_drawn (bk_registry <[b := mkScopedKey i (uuid_simple u +:+ uuid_simple v) sc b t]>
                        : M (Buckets X) _ _).
Proof.
  intros s s' r [= <- _] Hs b' k. simpl. destruct (decide (b' = b)) as [->|Hne].
  - rewrite lookup_insert_eq. intros [= <-]. by exists u, v.
  - rewrite lookup_insert_ne by done. apply Hs.
Qed.
Local Lemma drawn_revoke b : within keeps_drawn (bk_registry (delete b) : M (Buckets X) _ _).
Proof. intros s s' r [= <- _] Hs b' k. simpl. intros [_ Hc]%lookup_delete_Some. by apply (Hs b'). Qed.
#[local] Hint Resolve drawn_ask drawn_io drawn_live drawn_insert drawn_revoke : within.
Lemma execute_scoped_drawn prefix scope op : within keeps_drawn (execute_scoped out self prefix scope op).
Proof. unfold execute_scoped, fs_act, fs_provision, fs_readiness, fs_delete. framed. Qed.

(** After any operations on an initially empty registry, the outcome of the next
    one shows no secret the backend holds. *)
Theorem storage_outcome_hides_secrets x s prefix scope op s' o t b k :
  rtc (λ s1 s2, ∃ prefix scope op r, execute_scoped out self prefix scope op s1 = Done (s2, r))
    (mkBuckets x ∅) s →
  execute_scoped out self prefix scope op s = Done (s', Ok o) → t ∈ outcome_texts o →
  bk_keys s' !! b = Some k → str_contains (sk_secret k) t = false.
Proof.
  intros Hs E Ht Hk.
  assert (drawn s) as Hm.
  { clear E. assert (drawn (mkBuckets x ∅)) as Hd0 by (intros b' c; simpl; by rewrite lookup_empty).
    revert Hd0. induction Hs as [|a1 b1 c1 (p' & sc' & op' & r & E) _ IH]; [done|].
    intros Ha. apply IH. by eapply execute_scoped_drawn. }
  pose proof (execute_scoped_drawn prefix scope op _ _ _ E Hm) as Hm'.
  apply execute_scoped_run in E as [(_ & _ & e & He)|(_ & r1 & _ & Ho)]; [done|].
  destruct r1 as [o1|]; [|done]. injection Ho as ->.
  assert (∃ t0, t = fs_scrub s' t0) as [t0 ->]
    by (destruct o1; simpl in Ht; set_unfold; naive_solver).
  destruct (Hm' _ _ Hk) as (u & v & Hu). apply redact_hides.
  - unfold fs_credential_secrets. apply list_elem_of_fmap. exists k. split; [done|].
    apply elem_of_hash_values. eauto.
  - rewrite Hu. apply drawn_text_apart.
    + by rewrite chars_app, forallb_app, !uuid_simple_is_hex.
    + rewrite str_length_app, !uuid_simple_length. lia.
Qed.
End Facts.

(* ------------------------------------------------------------------ *)
(** * A reference filesystem *)

Module RefBuckets.
Import RefInstances.
Record Disk := mkDisk { dk_dirs : gset string; dk_now : DateTime; dk_next : N }.
Definition disk : BucketOutside Disk := {|
  bo_exists p x := (x, bool_decide (p ∈ dk_dirs x));
  bo_create_dir_all p x := (mkDisk ({[p]} ∪ dk_dirs x) (dk_now x) (dk_next x), Ok tt);
  bo_set_permissions _ _ x := (x, Ok tt);
  bo_remove_dir_all p x :=
    (mkDisk (filter (λ q, path_starts_with q p = false) (dk_dirs x)) (dk_now x) (dk_next x), Ok tt);
  bo_now x := (mkDisk (dk_dirs x) (dk_now x + 1) (dk_next x), dk_now x mod 1000);
  bo_uuid x := (mkDisk (dk_dirs x) (dk_now x) (dk_next x + 1), default (uuid 0) (uuid_of_bits (dk_next x)));
|}.
#[export] Instance disk_fs : BucketFs disk := { bo_there x p := p ∈ dk_dirs x }.
Lemma path_starts_refl p : path_starts_with p p = true.
Proof. unfold path_starts_with. rewrite <- (app_nil_r (path_components p)) at 2. apply is_prefix_app. Qed.
#[export] Instance disk_laws : BucketFsLaws disk.
Proof.
  constructor.
  - intros p x x' b [= <- <-]. split; [done|]. apply bool_decide_eq_true.
  - intros p x x' r [= <- <-]. simpl. split; [set_solver|]. split; [|set_solver].
    intros q Hq [->%elem_of_singleton|Hin]%elem_of_union; [by rewrite path_starts_refl in Hq|done].
  - by intros p mode x x' r [= <- <-].
  - intros p x x' r [= <- <-]. simpl. split; [intros q Hq; by apply elem_of_filter in Hq as [_ Hq]|].
    split; [intros q Hq Hin; by apply elem_of_filter|].
    intros _ Hin. apply elem_of_filter in Hin as [Hin _]. by rewrite path_starts_refl in Hin.
  - by intros x x' t [= <- _].
  - by intros x x' u [= <- _].
Qed.
Definition backend : FsBucketBackend := mkBackend "/srv/buckets" (86400 * nanos_per_sec).
Definition photos (action : ProviderAction) : ProviderOperation :=
  mkOperation (mkId (uuid 1)) None (mkId (uuid 12)) "storage.object" "objectstore.fs" PkObjectStorage
    action "k" "t" [] 1.
Definition blank : Buckets Disk := mkBuckets (mkDisk ∅ 5 700) ∅.

Lemma storage_outcome_is_backed_witness :
  BucketFsLaws disk ∧
  ∃ s' r bucket path, execute_scoped disk backend "obj" "storage.object:read-write" (photos PaProvision) blank
      = Done (s', r) ∧ bucket_name "obj" (photos PaProvision) = Ok bucket ∧
    path_components path = path_components "/srv/buckets" ++ [bucket] ∧
    ∀ o, r = Ok o → there disk s' path ∧ has_live_key disk s' bucket.
Proof.
  split; [apply disk_laws|].
  destruct (storage_outcome_is_backed disk backend "obj" "storage.object:read-write" (photos PaProvision) blank)
    as (s' & r & bucket & path & E & Hb & _ & Hc & _ & _ & Ho).
  - apply list_elem_of_here.
  - discriminate.
  - reflexivity.
  - intros t (x & x' & [= _ <-]). eexists. unfold datetime_add, ref_chrono.
    rewrite decide_True; [reflexivity|]. pose proof (Z.mod_pos_bound (dk_now x) 1000).
    unfold backend, fb_key_ttl, nanos_per_sec. lia.
  - exists s', r, bucket, path. split; [exact E|]. split; [exact Hb|]. split; [exact Hc|].
    intros o Hr. exact (proj2 (Ho o Hr)).
Defined.
End RefBuckets.
