(* ===== verification/OciClient.v ===== *)
(** Delivery to an OCI registry (oci_client.rs of labrys-control-plane): references,
    digests and the three exchanges of a push over the Distribution API.  The
    registry is reached through one interface, a request and its answer. *)

From stdpp Require Import base option list strings pretty gmap.
From Stdlib Require Import ZArith Lia Ascii.
From S2P Require Import Prelude External Errors CpErrors Ids Resource Snapshot Auth Config Runtime Events.
From S2P Require Import Deployment Provider CpStores Delivery PgProvider.
Local Open Scope Z_scope.

(* ------------------------------------------------------------------ *)
(** * HTTP exchanges *)

Record HttpRequest := mkRequest {
  rq_method : string;
  rq_url : string;
  rq_headers : list (string * string);
  rq_basic_auth : option (string * option string);
  rq_body : string;
}.
(** The status with its text, the headers that are text, and the body as text. *)
Record HttpResponse := mkResponse {
  rs_status : Z;
  rs_status_text : string;
  rs_header : string → option string;
  rs_text : string;
}.
Definition is_success (r : HttpResponse) : bool := (200 <=? rs_status r) && (rs_status r <=? 299).
(** One exchange, or the message of a transport error. *)
Definition Http (X : Type) : Type := HttpRequest → X → X * result string HttpResponse.

(* ------------------------------------------------------------------ *)
(** * Digests, manifests and references *)

Definition OCI_MANIFEST_MEDIA_TYPE : string := "application/vnd.oci.image.manifest.v1+json".
Definition OCI_CONFIG_MEDIA_TYPE : string := "application/vnd.oci.image.config.v1+json".
Definition sha256_hex `{Crypto} (bytes : string) : string :=
  str_join "" (map (λ b, hex_fixed 2 (Z.of_N (byte_of b))) (chars (sha256 bytes))).
Definition json_text (s : string) : string := double_quote +:+ s +:+ double_quote.
Definition oci_manifest (config_digest : string) (config_size : Z) : string :=
  "{" +:+ json_text "schemaVersion" +:+ ":2," +:+ json_text "mediaType" +:+ ":"
  +:+ json_text OCI_MANIFEST_MEDIA_TYPE +:+ "," +:+ json_text "config" +:+ ":{"
  +:+ json_text "mediaType" +:+ ":" +:+ json_text OCI_CONFIG_MEDIA_TYPE +:+ ","
  +:+ json_text "digest" +:+ ":" +:+ json_text config_digest +:+ "," +:+ json_text "size" +:+ ":"
  +:+ pretty config_size +:+ "}," +:+ json_text "layers" +:+ ":[]}".

Definition reference_parts (reference default_tag : string) : result ControlPlaneError (string * string) :=
  let reference := trim reference in
  if str_is_empty reference then Err (CpRegistry "registry reference must not be empty")
  else if any_whitespace reference then
    Err (CpRegistry ("registry reference is not a plain reference: " +:+ reference))
  else
    match rsplit_once ":" reference with
    | Some (name, tag) =>
        if negb (str_contains "/" tag) && negb (str_is_empty name) && negb (str_is_empty tag)
        then Ok (name, tag) else Ok (reference, default_tag)
    | None => Ok (reference, default_tag)
    end.

(* ------------------------------------------------------------------ *)
(** * The client *)

Record OciRegistryClient := mkOci {
  oc_endpoint : string;
  oc_username : option string;
  oc_password : option string;
}.
Definition is_http_url (s : string) : bool := starts_with "http://" s || starts_with "https://" s.
(** [build] is the construction of the HTTP client, which may fail. *)
Definition OciRegistryClient_new (build : result string unit) (endpoint : string)
    (username password : option string) : result ControlPlaneError OciRegistryClient :=
  let endpoint := trim_end_matches "/" endpoint in
  if negb (is_http_url endpoint) then Err (CpConfig "OCI registry endpoint must be an http(s) URL")
  else
    match build with
    | Err m => Err (CpRegistry ("registry client failed: " +:+ m))
    | Ok _ => Ok (mkOci endpoint username password)
    end.

Section Client.
Context `{Crypto} {X : Type} (send : Http X) (self : OciRegistryClient).
Abbreviation Op A := (M X ControlPlaneError A).

Definition oc_credential_secrets : list string :=
  match oc_password self with
  | Some password => if str_is_empty password then [] else [password]
  | None => []
  end.
Definition oc_scrub (text : string) : string := redact text oc_credential_secrets.
Definition oc_authed : option (string * option string) :=
  match oc_username self, oc_password self with
  | Some user, Some pass => Some (user, Some pass)
  | Some user, None => Some (user, None)
  | _, _ => None
  end.
Definition oc_send (request : HttpRequest) (failed : string) : Op HttpResponse := λ x,
  let '(x, r) := send request x in
  Done (x, match r with
           | Ok response => Ok response
           | Err m => Err (CpRegistry (oc_scrub (failed +:+ " failed: " +:+ m)))
           end).
Definition check_status (response : HttpResponse) (action : string) : Op HttpResponse :=
  if is_success response then mret response
  else mthrow (CpRegistry (oc_scrub ("registry " +:+ action +:+ " failed with " +:+ rs_status_text response
                 +:+ ": " +:+ take_chars 300 (rs_text response)))).
Definition oc_join (location : string) : string :=
  if is_http_url location then location else oc_endpoint self +:+ location.
Definition uploads_url (name : string) : string :=
  oc_endpoint self +:+ "/v2/" +:+ name +:+ "/blobs/uploads/".
Definition manifest_url (name tag : string) : string :=
  oc_endpoint self +:+ "/v2/" +:+ name +:+ "/manifests/" +:+ tag.
Definition content_digest (response : HttpResponse) : string :=
  default "" (rs_header response "docker-content-digest").

Definition push_bytes (artifact : RegistryArtifact) (manifest config : string) : Op string :=
  _ ← lift_r (map_err_r (λ e, CpRegistry (CoreError_fmt e)) (gate_registry_push artifact));
  if str_is_empty manifest then mthrow (CpRegistry "registry push requires manifest bytes")
  else
    let default_tag := take_chars 12 (ra_revision_sha artifact) in
    let default_tag := if str_is_empty default_tag then "latest" else default_tag in
    '(name, tag) ← lift_r (reference_parts (ra_reference artifact) default_tag);
    let config_digest := "sha256:" +:+ sha256_hex config in
    response ← oc_send (mkRequest "POST" (uploads_url name) [] oc_authed "") "blob upload initiation";
    response ← check_status response "blob upload initiation";
    location ← lift_r (ok_or (CpRegistry "registry omitted the upload Location header")
                         (rs_header response "location"));
    let separator := if str_contains "?" (oc_join location) then "&" else "?" in
    let url := oc_join location +:+ separator +:+ "digest=" +:+ config_digest in
    response ← oc_send (mkRequest "PUT" url [("content-type", "application/octet-stream")] oc_authed config)
                 "blob upload";
    check_status response "blob upload";;
    response ← oc_send (mkRequest "PUT" (manifest_url name tag)
                          [("content-type", OCI_MANIFEST_MEDIA_TYPE)] oc_authed manifest) "manifest push";
    response ← check_status response "manifest push";
    let reported := content_digest response in
    if str_is_empty reported then
      mthrow (CpRegistry "registry omitted the Docker-Content-Digest header")
    else
      let computed := "sha256:" +:+ sha256_hex manifest in
      let verified expected := lift_r (map_err_r (λ e, CpRegistry (oc_scrub (CoreError_fmt e)))
                                         (verify_registry_digest expected reported)) in
      verified computed;;
      verified (ra_digest artifact);;
      mret reported.

Definition fetch_digest (reference tag : string) : Op string :=
  '(name, _) ← lift_r (reference_parts reference tag);
  response ← oc_send (mkRequest "GET" (manifest_url name tag) [("accept", OCI_MANIFEST_MEDIA_TYPE)]
                        oc_authed "") "manifest fetch";
  response ← check_status response "manifest fetch";
  if str_is_empty (content_digest response) then
    mthrow (CpRegistry "registry omitted the Docker-Content-Digest header")
  else mret (content_digest response).

(** The [OciRegistry] of the client. *)
Definition oc_push (artifact : RegistryArtifact) : Op string :=
  mthrow (CpRegistry "registry push requires content bytes; use push_content with manifest and config bytes").
Definition oc_pull (reference : string) : Op string :=
  '(name, tag) ← lift_r (reference_parts reference "latest");
  fetch_digest name tag.
Definition oci_registry : OciRegistry X :=
  {| or_push := oc_push; or_pull := oc_pull; or_push_content := push_bytes |}.
End Client.

(* ------------------------------------------------------------------ *)
(** * References *)

Lemma str_contains_char c s : c ∉ chars s → str_contains (String c "") s = false.
Proof.
  intros Hc. apply not_true_is_false. intros E. by apply Hc, (str_contains_elem _ _ _ E), list_elem_of_here.
Qed.
(** [name:tag] is read as its two parts, whatever the default. *)
Lemma reference_parts_tagged name tag dflt :
  name ≠ "" → tag ≠ "" → ":"%char ∉ chars tag → "/"%char ∉ chars tag →
  any_whitespace (name +:+ ":" +:+ tag) = false →
  reference_parts (name +:+ ":" +:+ tag) dflt = Ok (name, tag).
Proof.
  intros Hn Ht Hcolon Hslash Hws. unfold reference_parts. cbv zeta. rewrite trim_plain by done.
  rewrite Hws. destruct (str_is_empty (name +:+ ":" +:+ tag)) eqn:He; [by destruct name|].
  change (":" +:+ tag) with (String ":" tag). rewrite rsplit_once_app by done.
  rewrite str_contains_char by done. by destruct name, tag.
Qed.
(** A name in which a slash follows the last colon, if any, is not split again. *)
Definition untagged (name : string) : bool :=
  match rsplit_once ":" name with Some (_, t) => str_contains "/" t | None => true end.
Lemma reference_parts_bare name dflt :
  name ≠ "" → any_whitespace name = false → untagged name = true →
  reference_parts name dflt = Ok (name, dflt).
Proof.
  intros Hn Hws Hu. unfold reference_parts, untagged in *. cbv zeta. rewrite trim_plain, Hws by done.
  destruct (str_is_empty name) eqn:He; [by destruct name|].
  destruct (rsplit_once ":" name) as [[a b]|]; [by rewrite Hu|done].
Qed.

(* ------------------------------------------------------------------ *)
(** * Pushes *)

Section Facts.
Context `{Crypto} {X : Type} (send : Http X) (self : OciRegistryClient).

Lemma oc_send_run request failed x x' r :
  oc_send send self request failed x = Done (x', r) →
  ∃ r', send request x = (x', r') ∧ (∀ response, r = Ok response → r' = Ok response).
Proof.
  unfold oc_send. destruct (send request x) as [x1 r'] eqn:E. intros [= <- <-]. exists r'.
  split; [done|]. destruct r'; naive_solver.
Qed.
Lemma check_status_ok response action (x x' : X) response' :
  check_status self response action x = Done (x', Ok response') →
  x' = x ∧ response' = response ∧ is_success response = true.
Proof. unfold check_status. destruct (is_success response); [|done]. by intros [= <- <-]. Qed.

(** The tag a push without one gets. *)
Definition default_tag (artifact : RegistryArtifact) : string :=
  let t := take_chars 12 (ra_revision_sha artifact) in if str_is_empty t then "latest" else t.
Definition content_address (manifest : string) : string := "sha256:" +:+ sha256_hex manifest.

Lemma push_bytes_ok artifact manifest config x x' d :
  push_bytes send self artifact manifest config x = Done (x', Ok d) →
  gate_registry_push artifact = Ok tt ∧ manifest ≠ "" ∧
  d = content_address manifest ∧ d = ra_digest artifact ∧
  ∃ name tag x1 response, reference_parts (ra_reference artifact) (default_tag artifact) = Ok (name, tag) ∧
    send (mkRequest "PUT" (manifest_url self name tag) [("content-type", OCI_MANIFEST_MEDIA_TYPE)]
            (oc_authed self) manifest) x1 = (x', Ok response) ∧
    is_success response = true ∧ content_digest response = d.
Proof.
  unfold push_bytes. intros E. ok_step E s1 t1 E1.
  destruct (gate_registry_push artifact) as [[]|] eqn:Hg; [|done]. injection E1 as <- <-.
  destruct (str_is_empty manifest) eqn:Hm; [done|]. cbv zeta in E. fold (default_tag artifact) in E.
  ok_step E s2 nt E2. injection E2 as <- Hparts. destruct nt as [name tag].
  ok_step E s3 a3 E3. ok_step E s4 a4 E4. ok_step E s5 a5 E5. ok_step E s6 a6 E6. ok_step E s7 a7 E7.
  ok_step E s8 a8 E8. apply oc_send_run in E8 as (r8 & E8 & Hr8). specialize (Hr8 _ eq_refl). subst r8.
  ok_step E s9 a9 E9. apply check_status_ok in E9 as (-> & -> & Hok).
  destruct (str_is_empty (content_digest a8)) eqn:Hd; [done|].
  unfold verify_registry_digest in E. fold (content_address manifest) in E.
  destruct (decide (content_address manifest = content_digest a8)) as [Hc|]; [|done].
  destruct (decide (ra_digest artifact = content_digest a8)) as [Ha|]; [|done].
  injection E as <- <-. split; [done|]. split; [by intros ->|]. split; [done|]. split; [done|].
  by exists name, tag, s7, a8.
Qed.

(** C27: A push through the client succeeds only for a verified production build,
    with the digest the registry reported for exactly these manifest bytes, which is
    both their own SHA-256 and the digest recorded for the artifact, and the delivery
    is recorded as verified under it; an unverified artifact or an empty manifest is
    refused before anything is sent. *)
Theorem delivery_is_digest_verified secrets `{UuidLib} `{JsonLib} application artifact manifest config u d x s' r :
  push_content secrets (oci_registry send self) application artifact manifest config u (d, x) = Done (s', r) →
  (∀ rec, r = Ok rec →
     verified_production_build artifact = true ∧ rd_status rec = "verified" ∧
     rd_reported_digest rec = "sha256:" +:+ sha256_hex manifest ∧
     rd_recorded_digest rec = rd_reported_digest rec ∧ rd_recorded_digest rec = ra_digest artifact ∧
     ∃ name tag x1 response, reference_parts (ra_reference artifact) (default_tag artifact) = Ok (name, tag) ∧
       send (mkRequest "PUT" (manifest_url self name tag) [("content-type", OCI_MANIFEST_MEDIA_TYPE)]
               (oc_authed self) manifest) x1 = (s'.2, Ok response) ∧
       content_digest response = rd_reported_digest rec) ∧
  (verified_production_build artifact = false ∨ manifest = "" → s'.2 = x ∧ ∃ e, r = Err e).
Proof.
  unfold push_content. intros (s1 & r1 & E1 & E)%bind_run. unfold try_result, on_ext, zoom in E1. simpl in E1.
  destruct (push_bytes send self artifact manifest config x) as [[x1 reported]|] eqn:Ep; [|done].
  injection E1 as <- <-. apply on_db_run in E as (d' & E & ->). unfold record_registry_push in E.
  split.
  - intros rec ->. destruct reported as [rep|err];
      [|by apply M_bind_Ok in E as (? & ? & _ & E)].
    apply push_bytes_ok in Ep as (Hg & _ & Hc & Ha & name & tag & x0 & response & Hparts & Hs & _ & Hd).
    ok_step E s2 t2 E2. injection E as <- <-. simpl. split.
    { unfold gate_registry_push in Hg. by destruct (verified_production_build artifact). }
    split; [done|]. split; [done|]. split; [congruence|]. split; [done|]. by exists name, tag, x0, response.
  - intros Hno. simpl.
    assert (x1 = x ∧ ∃ e, reported = Err e) as [-> [e ->]].
    { unfold push_bytes, gate_registry_push in Ep. destruct Hno as [Hv| ->].
      - rewrite Hv in Ep. injection Ep as <- <-. eauto.
      - destruct (negb (verified_production_build artifact)); [injection Ep as <- <-; eauto|].
        destruct (negb (is_digest_addressable artifact)); injection Ep as <- <-; eauto. }
    split; [done|]. apply bind_run in E as (s2 & r2 & _ & E).
    destruct r2; [injection E as <- <-|destruct E as [-> ->]]; eauto.
Qed.

(** ** Pulls *)

(** What the Distribution API documents about a manifest that was put under a tag:
    a request for the tag answers with the digest of that manifest. *)
Class OciTags : Prop := {
  tag_answers name tag headers auth manifest x x' response :
    send (mkRequest "PUT" (manifest_url self name tag) headers auth manifest) x = (x', Ok response) →
    is_success response = true →
    ∀ headers' , ∃ x'' response',
      send (mkRequest "GET" (manifest_url self name tag) headers' auth "") x' = (x'', Ok response') ∧
      is_success response' = true ∧ content_digest response' = content_digest response;
}.

(** An artifact pushed under a tagged reference is what a pull of that
    reference reports: the digest of the pushed manifest. *)
Theorem pull_reports_the_pushed_digest `{!OciTags} name tag artifact manifest config x x' d :
  name ≠ "" → tag ≠ "" → ":"%char ∉ chars tag → "/"%char ∉ chars tag → untagged name = true →
  any_whitespace (name +:+ ":" +:+ tag) = false → ra_reference artifact = name +:+ ":" +:+ tag →
  or_push_content (oci_registry send self) artifact manifest config x = Done (x', Ok d) →
  ∃ x'', or_pull (oci_registry send self) (ra_reference artifact) x' = Done (x'', Ok d) ∧
    d = "sha256:" +:+ sha256_hex manifest.
Proof.
  intros Hn Ht Hcolon Hslash Hu Hws Href (_ & Hm & Hc & _ & n & t & x0 & response & Hparts & Hs & Hok & Hd)%push_bytes_ok.
  rewrite Href, reference_parts_tagged in Hparts by done. injection Hparts as <- <-.
  destruct (tag_answers _ _ _ _ _ _ _ _ Hs Hok [("accept", OCI_MANIFEST_MEDIA_TYPE)])
    as (x'' & response' & Hget & Hok' & Hd').
  exists x''. split; [|done]. rewrite Href. simpl. unfold oc_pull.
  rewrite reference_parts_tagged, lift_ok_bind by done. unfold fetch_digest.
  assert (any_whitespace name = false) as Hwn.
  { destruct (any_whitespace name) eqn:E; [|done]. apply (any_whitespace_app _ (":" +:+ tag)) in E. congruence. }
  rewrite reference_parts_bare, lift_ok_bind by done. unfold check_status, oc_send. unfold_monad.
  rewrite Hget. simpl. rewrite Hok'. simpl. rewrite Hd', Hd. by rewrite Hc.
Qed.
(** An untagged artifact is pushed under its revision and pulled as [latest]. *)
Lemma untagged_reference_diverges reference sha digest :
  reference ≠ "" → any_whitespace reference = false → untagged reference = true →
  let artifact := RegistryArtifact_new reference digest sha true in
  reference_parts reference (default_tag artifact) = Ok (reference, default_tag artifact) ∧
  reference_parts reference "latest" = Ok (reference, "latest").
Proof. intros Hn Hw Hu artifact. split; by apply reference_parts_bare. Qed.
End Facts.

(* ------------------------------------------------------------------ *)
(** * A reference registry *)

Module RefRegistry.
Import RefInstances RefValues.
#[local] Existing Instance value_json.
(** The digests put under each URL. *)
Abbreviation Registry := (gmap string string).
Definition answer (status : Z) (digest : string) : HttpResponse :=
  mkResponse status (pretty status)
    (λ h, if decide (h = "docker-content-digest") then Some digest
          else if decide (h = "location") then Some "/v2/uploads/1?state=a" else None) "".
Definition registry : Http Registry := λ request x,
  if decide (rq_method request = "PUT") then
    let digest := "sha256:" +:+ sha256_hex (rq_body request) in
    (<[rq_url request := digest]> x, Ok (answer 201 digest))
  else if decide (rq_method request = "GET") then
    (x, Ok (match x !! rq_url request with Some digest => answer 200 digest | None => answer 404 "" end))
  else (x, Ok (answer 202 "")).
Definition local : OciRegistryClient := mkOci "http://r" (Some "ci") (Some "pa55").
#[export] Instance registry_tags : OciTags registry local.
Proof.
  constructor. intros name tag headers auth manifest x x' response E _ headers'.
  set (url := manifest_url local name tag) in *. set (digest := "sha256:" +:+ sha256_hex manifest).
  assert (x' = <[url := digest]> x ∧ response = answer 201 digest) as [-> ->]
    by (injection E; intros <- <-; done).
  exists (<[url := digest]> x). eexists. split.
  - unfold registry. cbn [rq_method rq_url rq_body]. rewrite decide_False by done. rewrite !decide_True by done.
    rewrite lookup_insert_eq. reflexivity.
  - done.
Qed.

Definition manifest : string := "{m}".
Definition shop : RegistryArtifact :=
  RegistryArtifact_new "shop/web:1.2" ("sha256:" +:+ sha256_hex manifest) "abcdef0123456789" true.
Definition pushed : outcome (Registry * result ControlPlaneError string) :=
  or_push_content (oci_registry registry local) shop manifest "{}" ∅.
Definition nothing : Registry * result ControlPlaneError string := (∅, Err (CpIo "")).
Definition row : outcome ((Db * Registry) * result ControlPlaneError RegistryDeliveryRecord) :=
  push_content [] (oci_registry registry local) "app_1" shop manifest "{}" (uuid 30) (RefValues.empty_db, ∅).
Definition no_row : (Db * Registry) * result ControlPlaneError RegistryDeliveryRecord :=
  ((RefValues.empty_db, ∅), Err (CpIo "")).

Lemma delivery_is_digest_verified_witness :
  ∃ s' rec, push_content [] (oci_registry registry local) "app_1" shop manifest "{}" (uuid 30)
      (RefValues.empty_db, ∅) = Done (s', Ok rec) ∧
    rd_status rec = "verified" ∧ rd_reported_digest rec = "sha256:" +:+ sha256_hex manifest.
Proof.
  set (rec := match (done_or no_row row).2 with
              | Ok rec => rec | Err _ => mkRegistryRecord "" "" "" "" "" "" "" "" end).
  assert (push_content [] (oci_registry registry local) "app_1" shop manifest "{}" (uuid 30)
            (RefValues.empty_db, ∅) = Done ((done_or no_row row).1, Ok rec)) as E.
  { apply (is_done_pair no_row); vm_compute; reflexivity. }
  exists (done_or no_row row).1, rec. split; [exact E|].
  destruct (delivery_is_digest_verified registry local [] "app_1" shop manifest "{}" (uuid 30)
              RefValues.empty_db ∅ _ _ E) as [Hok _].
  destruct (Hok rec eq_refl) as (_ & Hst & Hd & _). exact (conj Hst Hd).
Defined.
Lemma pull_reports_the_pushed_digest_witness :
  ∃ x' x'' d, or_push_content (oci_registry registry local) shop manifest "{}" ∅ = Done (x', Ok d) ∧
    or_pull (oci_registry registry local) "shop/web:1.2" x' = Done (x'', Ok d).
Proof.
  set (d := match (done_or nothing pushed).2 with Ok d => d | Err _ => "" end).
  assert (or_push_content (oci_registry registry local) shop manifest "{}" ∅
          = Done ((done_or nothing pushed).1, Ok d)) as E.
  { apply (is_done_pair nothing); vm_compute; reflexivity. }
  destruct (pull_reports_the_pushed_digest registry local "shop/web" "1.2" shop manifest "{}" ∅ _ _
    ltac:(discriminate) ltac:(discriminate)
    ltac:(apply (bool_decide_unpack _); vm_compute; exact I)
    ltac:(apply (bool_decide_unpack _); vm_compute; exact I)
    eq_refl eq_refl eq_refl E) as (x'' & Hpull & _).
  exists (done_or nothing pushed).1, x'', d. split; [exact E|exact Hpull].
Defined.
End RefRegistry.
