(* ===== verification/TlsDns.v ===== *)
(** DNS verification and TLS issuance (tls_dns.rs of labrys-control-plane): the
    resolver check, the openssl issuer and the delivery adapter made of them.  The
    resolver, the files and the child processes are an interface. *)

From stdpp Require Import base option list strings pretty gmap.
From Stdlib Require Import ZArith Lia Ascii.
From S2P Require Import Prelude External Errors CpErrors Ids Resource Snapshot Auth Config Runtime Approval.
From S2P Require Import Deployment Provider Delivery Containers OciClient.
Local Open Scope Z_scope.

(** What happens outside.  A lookup is answered with whether there is an address,
    or fails or runs into its timeout. *)
Record DomainOutside (X : Type) := {
  dx_lookup : string → Z → Z → X → X * option bool;
  dx_create_dir_all : string → X → X * result string unit;
  dx_exists : string → X → X * bool;
  dx_set_permissions : string → Z → X → X * result string unit;
  dx_process : string → list string → Z → X → X * ProcessOutcome;
}.
#[global] Arguments dx_lookup {X}.
#[global] Arguments dx_create_dir_all {X}.
#[global] Arguments dx_exists {X}.
#[global] Arguments dx_set_permissions {X}.
#[global] Arguments dx_process {X}.

Record OpensslTlsIssuer := mkIssuer { ti_openssl_bin : string; ti_dir : string }.
Definition OpensslTlsIssuer_new (openssl_bin dir : string) : result ControlPlaneError OpensslTlsIssuer :=
  if str_is_empty dir then Err (CpExecution "TLS issuer requires a non-empty directory")
  else Ok (mkIssuer openssl_bin dir).
Definition OpensslTlsIssuer_from_path (dir : string) : result ControlPlaneError OpensslTlsIssuer :=
  OpensslTlsIssuer_new "openssl" dir.

Section Adapter.
Context `{Crypto} {X : Type} (out : DomainOutside X) (self : OpensslTlsIssuer).
Abbreviation Op A := (M X ControlPlaneError A).

Definition dx_ask {A} (f : X → X * A) : Op A := λ x, let '(x, a) := f x in Done (x, Ok a).
(** [?] on an I/O result. *)
Definition dx_io (f : X → X * result string unit) : Op unit :=
  r ← dx_ask f; lift_r (map_err_r CpIo r).

Definition unusable_hostname (hostname : string) : bool :=
  str_is_empty hostname || any_whitespace hostname.
Definition resolver_ensure (hostname : string) : Op DnsState :=
  let hostname := trim hostname in
  if unusable_hostname hostname then mret (DnsFailed "hostname is empty or contains whitespace")
  else
    answer ← dx_ask (dx_lookup out hostname 443 10);
    mret (match answer with Some true => DnsPropagated | Some false | None => DnsPending end).

Definition tls_file_stem (hostname : string) : string := "tls_" +:+ take_chars 16 (sha256_hex hostname).
Definition cert_path (hostname : string) : string :=
  path_join (ti_dir self) (tls_file_stem hostname +:+ ".crt").
Definition key_path (hostname : string) : string :=
  path_join (ti_dir self) (tls_file_stem hostname +:+ ".key").

(** Whether the process succeeded, with its two outputs. *)
Definition run_openssl (args : list string) (timeout_secs : Z) : Op (bool * string * string) :=
  o ← dx_ask (dx_process out (ti_openssl_bin self) args timeout_secs);
  match o with
  | PrSpawnFailed m =>
      mthrow (CpExecution ("TLS issuer could not execute openssl (" +:+ ti_openssl_bin self +:+ "): "
        +:+ m +:+ ". " +:+ CERTIFICATE_FAILURE_RECOVERY))
  | PrTimedOut =>
      mthrow (CpExecution ("openssl " +:+ default "<unknown>" (head args) +:+ " timed out after "
        +:+ pretty timeout_secs +:+ "s; " +:+ CERTIFICATE_FAILURE_RECOVERY))
  | PrWaitFailed m => mthrow (CpIo m)
  | PrExited ok stdout stderr => mret (ok, stdout, stderr)
  end.

Definition issue_args (hostname : string) : list string :=
  ["req"; "-x509"; "-newkey"; "rsa:2048"; "-nodes"; "-keyout"; key_path hostname; "-out";
   cert_path hostname; "-days"; "90"; "-subj"; "/CN=" +:+ hostname].
Definition issue (hostname : string) : Op CertificateState :=
  let hostname := trim hostname in
  if unusable_hostname hostname then mret (CertFailed "hostname is empty or contains whitespace")
  else
    dx_io (dx_create_dir_all out (ti_dir self));;
    has_cert ← dx_ask (dx_exists out (cert_path hostname));
    present ← (if (has_cert : bool) then dx_ask (dx_exists out (key_path hostname)) else mret false);
    if (present : bool) then mret CertIssued
    else
      '(ok, _, stderr) ← run_openssl (issue_args hostname) 60;
      if negb (ok : bool) then
        mret (CertFailed ("openssl issuance failed for '" +:+ hostname +:+ "': " +:+ take_chars 200 stderr
          +:+ ". " +:+ CERTIFICATE_FAILURE_RECOVERY))
      else
        dx_io (dx_set_permissions out (key_path hostname) 384);;
        dx_io (dx_set_permissions out (cert_path hostname) 420);;
        mret CertIssued.

(** The trimmed output of a successful process. *)
Definition openssl_output (args : list string) : X → X * option string := λ x,
  match run_openssl args 15 x with
  | Done (x, Ok (true, stdout, _)) => (x, Some (trim stdout))
  | Done (x, _) => (x, None)
  | Panic _ => (x, None)
  end.
Definition evidence (hostname : string) : X → X * option string := λ x,
  let '(x, present) := dx_exists out (cert_path hostname) x in
  if negb present then (x, None)
  else
    let '(x, fingerprint) :=
      openssl_output ["x509"; "-noout"; "-fingerprint"; "-sha256"; "-in"; cert_path hostname] x in
    match fingerprint with
    | None => (x, None)
    | Some fingerprint =>
        let '(x, enddate) := openssl_output ["x509"; "-noout"; "-enddate"; "-in"; cert_path hostname] x in
        (x, Some ("certificate for '" +:+ hostname +:+ "': " +:+ fingerprint +:+ " "
                    +:+ default "" enddate +:+ " (self-signed, 90d)"))
    end.

(** The [DomainDeliveryAdapter] of [RealDomainDelivery]. *)
Context `{UuidLib}.
Definition real_ensure_dns (hostname : string) : Op DnsState := resolver_ensure hostname.
Definition real_issue_certificate (hostname : string) : Op CertificateState :=
  map_err (λ err, CpDomain (redact ("certificate issuance failed for '" +:+ hostname +:+ "': "
                              +:+ ControlPlaneError_fmt err) [])) (issue hostname).
Definition real_attach_traffic (domain : Domain) (deployment : Deployment) (approval : ExplicitApproval) :
    M (X * DomainDelivery) ControlPlaneError unit :=
  zoom snd (λ d s, (s.1, d))
    (map_err (λ err, CpDomain (CoreError_fmt err)) (plan_traffic_attachment domain deployment approval)).
Definition RealDomainDelivery : DomainDeliveryAdapter X :=
  {| dd_ensure_dns := real_ensure_dns; dd_issue_certificate := real_issue_certificate;
     dd_attach_traffic := real_attach_traffic; dd_certificate_evidence := evidence |}.
End Adapter.

(* ------------------------------------------------------------------ *)
(** * The adapter behind the provider runtime *)

(** It attaches traffic through the plan of the core, so everything proved of the
    runtime over such an adapter holds for it. *)
#[global] Instance real_domain_planned `{Crypto} `{UuidLib} {X} (out : DomainOutside X) self :
  PlannedAttachment (RealDomainDelivery out self).
Proof.
  constructor. intros domain deployment approval x dd. simpl. unfold real_attach_traffic, zoom, map_err. simpl.
  destruct (plan_traffic_attachment domain deployment approval dd) as [[dd' [[]|e]]|]; done.
Qed.

Section Facts.
Context `{Crypto} `{UuidLib} `{JsonLib} {X : Type} (out : DomainOutside X) (self : OpensslTlsIssuer).
Context (secrets : list string).

(** The resolver gave an address for the hostname, once asked. *)
Definition resolved (hostname : string) : Prop :=
  ∃ x x', dx_lookup out (trim hostname) 443 10 x = (x', Some true).
(** A certificate and its key were found, or openssl made them and the key file
    was closed to others. *)
Definition certified (hostname : string) : Prop :=
  let hostname := trim hostname in
  (∃ x1 x2 x3 x4, dx_exists out (cert_path self hostname) x1 = (x2, true) ∧
     dx_exists out (key_path self hostname) x3 = (x4, true)) ∨
  (∃ x1 x2 x3 stdout stderr,
     dx_process out (ti_openssl_bin self) (issue_args self hostname) 60 x1 = (x2, PrExited true stdout stderr) ∧
     dx_set_permissions out (key_path self hostname) 384 x2 = (x3, Ok tt)).

Lemma dx_ask_run {A} (f : X → X * A) x x' r :
  dx_ask f x = Done (x', r) → ∃ a, f x = (x', a) ∧ r = Ok a.
Proof. unfold dx_ask. destruct (f x) as [x1 a]. intros [= <- <-]. eauto. Qed.
Lemma dx_io_ok f (x x' : X) : dx_io f x = Done (x', Ok tt) → f x = (x', Ok tt).
Proof.
  intros E. ok_step E x1 r E1. apply dx_ask_run in E1 as (a & -> & [= ->]). injection E as <- E.
  by destruct a as [[]|].
Qed.
Lemma resolver_propagated hostname x x' :
  resolver_ensure out hostname x = Done (x', Ok DnsPropagated) → resolved hostname.
Proof.
  unfold resolver_ensure. cbv zeta. destruct (unusable_hostname (trim hostname)); [done|]. intros E.
  ok_step E x1 a E1. apply dx_ask_run in E1 as (b & E1 & [= ->]). injection E as <- E.
  destruct b as [[]|]; [|done..]. by exists x, x1.
Qed.
Lemma resolver_failure hostname x :
  ∃ x' state, resolver_ensure out hostname x = Done (x', Ok state).
Proof.
  unfold resolver_ensure. cbv zeta. destruct (unusable_hostname _); [by do 2 eexists|].
  unfold dx_ask. unfold_monad. destruct (dx_lookup _ _ _ _ _) as [x1 a]. by do 2 eexists.
Qed.
Lemma run_openssl_ok args t x x' ok stdout stderr :
  run_openssl out self args t x = Done (x', Ok (ok, stdout, stderr)) →
  dx_process out (ti_openssl_bin self) args t x = (x', PrExited ok stdout stderr).
Proof.
  intros E. ok_step E x1 o E1. apply dx_ask_run in E1 as (b & E1 & [= ->]).
  destruct b; try done. by injection E as <- <- <- <-.
Qed.
Lemma issue_certified hostname x x' state :
  issue out self hostname x = Done (x', Ok state) → is_issued state = true → certified hostname.
Proof.
  unfold issue. cbv zeta. destruct (unusable_hostname (trim hostname)); [by intros [= <- <-]|]. intros E Hi.
  ok_step E x1 t1 E1. ok_step E x2 b2 E2. apply dx_ask_run in E2 as (a2 & E2 & [= ->]).
  ok_step E x3 b3 E3. destruct b3.
  { destruct a2; [|done]. apply dx_ask_run in E3 as (a3 & E3 & [= <-]). left. by exists x1, x2, x2, x3. }
  ok_step E x4 o E4. destruct o as [[ok stdout] stderr]. apply run_openssl_ok in E4.
  destruct ok; [|by injection E as <- <-]. simpl in E.
  ok_step E x5 t5 E5. destruct t5. apply dx_io_ok in E5. right. by exists x3, x4, x5, stdout, stderr.
Qed.

(** C28: A hostname converges through the real adapter only when the resolver
    gave an address for it, and its certificate and key were present or had just
    been made by openssl with the key file closed to others; and then the delivery
    is healthy and routes to the promoted deployment. *)
Theorem routed_hostname_was_verified domain deployment approval u (d : Db) x dd s' rec :
  converge_domain secrets (RealDomainDelivery out self) domain deployment approval u ((d, x), dd)
    = Done (s', Ok rec) →
  resolved (dom_hostname domain) ∧ certified (dom_hostname domain) ∧
  delivery_is_healthy s'.2 = true ∧ dr_traffic_attached rec = true ∧ is_promoted deployment = true.
Proof.
  destruct s' as [[d' x'] dd'].
  intros (x1 & dns & x2 & tls & Hdns & Htls & Hrec & E)%(converge_run secrets (RealDomainDelivery out self)).
  case_decide as Hmay; [|by destruct E as [_ [e ?]]].
  destruct (traffic_attachment_spec domain deployment approval (checked secrets dns tls dd) "" []) as [Hplan _].
  rewrite decide_True in Hplan by done. destruct Hplan as (dd2 & Hp & Hh & _). rewrite E in Hp. injection Hp as <-.
  destruct (Hrec rec eq_refl) as [ev ->]. destruct Hmay as (_ & _ & Hd & Hi & Hpr).
  split; [|split; [|split; [done|split; [|done]]]].
  - destruct (resolver_failure (dom_hostname domain) x) as (x0 & state & Er). simpl in Hdns.
    unfold real_ensure_dns in Hdns. rewrite Er in Hdns. injection Hdns as -> <-.
    assert (state = DnsPropagated) as -> by (by destruct tls, state).
    by apply resolver_propagated in Er.
  - destruct tls as [state|err]; [|done]. apply map_err_Ok in Htls. by apply issue_certified in Htls.
  - unfold delivery_is_healthy in Hh. rewrite !andb_true_iff in Hh. simpl. tauto.
Qed.

(** C29: When openssl refuses the certificate, a convergence through the real
    adapter fails but leaves traffic attached as it was: the adapter reports the
    refusal as a state and not as an error, so the failure that detaches traffic is
    not reported. *)
Theorem refused_certificate_keeps_traffic domain deployment approval u (d : Db) x dd s' r x1 x2 dns reason :
  dd_ensure_dns (RealDomainDelivery out self) (dom_hostname domain) x = Done (x1, dns) →
  dd_issue_certificate (RealDomainDelivery out self) (dom_hostname domain) x1 = Done (x2, Ok (CertFailed reason)) →
  converge_domain secrets (RealDomainDelivery out self) domain deployment approval u ((d, x), dd)
    = Done (s', r) →
  (∃ e, r = Err e) ∧ dd_tls s'.2 = CertFailed reason ∧ traffic_attached s'.2 = traffic_attached dd ∧
  dd_deployment_id s'.2 = dd_deployment_id dd.
Proof.
  intros Hdns Htls. destruct s' as [[d' x'] dd'].
  intros (y1 & dns' & y2 & tls & Hdns' & Htls' & _ & E)%(converge_run secrets (RealDomainDelivery out self)).
  rewrite Hdns in Hdns'. injection Hdns' as <- <-. rewrite Htls in Htls'. injection Htls' as <- <-.
  case_decide as Hmay; [by destruct Hmay as (_ & _ & _ & Hi & _)|]. by destruct E as [-> He].
Qed.
(** [issue] reports a failed openssl run as such a state. *)
Lemma refused_issue hostname x0 x1 x2 x3 stdout stderr :
  unusable_hostname (trim hostname) = false →
  dx_create_dir_all out (ti_dir self) x0 = (x1, Ok tt) →
  dx_exists out (cert_path self (trim hostname)) x1 = (x2, false) →
  dx_process out (ti_openssl_bin self) (issue_args self (trim hostname)) 60 x2 = (x3, PrExited false stdout stderr) →
  ∃ reason, real_issue_certificate out self hostname x0 = Done (x3, Ok (CertFailed reason)).
Proof.
  intros Hu Hdir Hc Hp. unfold real_issue_certificate, map_err, issue, run_openssl. cbv zeta. rewrite Hu.
  unfold dx_io, dx_ask. unfold_monad. rewrite Hdir. simpl. rewrite Hc. simpl. rewrite Hp. simpl. by eexists.
Qed.
(** Files that exist are a certificate, whatever their age and mode. *)
Lemma existing_files_are_issued hostname x0 x1 x2 x3 :
  unusable_hostname (trim hostname) = false →
  dx_create_dir_all out (ti_dir self) x0 = (x1, Ok tt) →
  dx_exists out (cert_path self (trim hostname)) x1 = (x2, true) →
  dx_exists out (key_path self (trim hostname)) x2 = (x3, true) →
  issue out self hostname x0 = Done (x3, Ok CertIssued).
Proof.
  intros Hu Hdir Hc Hk. unfold issue. cbv zeta. rewrite Hu. unfold dx_io, dx_ask. unfold_monad.
  rewrite Hdir. simpl. rewrite Hc. simpl. by rewrite Hk.
Qed.
End Facts.

(* ------------------------------------------------------------------ *)
(** * Examples *)

Module DomainExamples.
Import RefInstances RefValues DeploymentExamples DeliveryExamples.
#[local] Existing Instance value_json.
(** A host without certificate files; the state is whether openssl works. *)
Definition host : DomainOutside bool := {|
  dx_lookup name _ _ x := (x, Some (bool_decide (name = "shop.example")));
  dx_create_dir_all _ x := (x, Ok tt);
  dx_exists _ x := (x, false);
  dx_set_permissions _ _ x := (x, Ok tt);
  dx_process _ _ _ x := (x, PrExited x "" "unable to write key");
|}.
Definition issuer : OpensslTlsIssuer := mkIssuer "openssl" "/tls".
Definition no_convergence : ((Db * bool) * DomainDelivery) * result ControlPlaneError DomainDeliveryRecord :=
  ((empty_db, false, DomainDelivery_new (dom_id shop)), Err (CpIo "")).
Definition first_round := converge_domain [] (RealDomainDelivery host issuer) shop released ann (uuid 30)
  ((empty_db, true), DomainDelivery_new (dom_id shop)).
Definition attached : DomainDelivery := (done_or no_convergence first_round).1.2.
Definition second_round := converge_domain [] (RealDomainDelivery host issuer) shop released ann (uuid 31)
  ((empty_db, false), attached).

Lemma routed_hostname_was_verified_witness :
  ∃ s' rec, converge_domain [] (RealDomainDelivery host issuer) shop released ann (uuid 30)
      ((empty_db, true), DomainDelivery_new (dom_id shop)) = Done (s', Ok rec) ∧
    resolved host (dom_hostname shop) ∧ dr_traffic_attached rec = true.
Proof.
  set (rec := match (done_or no_convergence first_round).2 with
              | Ok rec => rec | Err _ => mkDomainRecord "" "" "" None "" "" false "" end).
  assert (converge_domain [] (RealDomainDelivery host issuer) shop released ann (uuid 30)
      ((empty_db, true), DomainDelivery_new (dom_id shop))
      = Done ((done_or no_convergence first_round).1, Ok rec)) as E.
  { apply (is_done_pair no_convergence); vm_compute; reflexivity. }
  exists (done_or no_convergence first_round).1, rec. split; [exact E|].
  destruct (routed_hostname_was_verified host issuer [] shop released ann (uuid 30) empty_db true
    (DomainDelivery_new (dom_id shop)) _ _ E) as (Hr & _ & _ & Ha & _).
  exact (conj Hr Ha).
Defined.
Lemma refused_certificate_keeps_traffic_witness :
  traffic_attached attached = true ∧
  ∃ s' r, converge_domain [] (RealDomainDelivery host issuer) shop released ann (uuid 31)
      ((empty_db, false), attached) = Done (s', r) ∧
    (∃ e, r = Err e) ∧ traffic_attached s'.2 = traffic_attached attached.
Proof.
  split; [vm_compute; reflexivity|].
  set (s' := (done_or no_convergence second_round).1). set (r := (done_or no_convergence second_round).2).
  assert (converge_domain [] (RealDomainDelivery host issuer) shop released ann (uuid 31)
      ((empty_db, false), attached) = Done (s', r)) as E.
  { unfold s', r. rewrite <- surjective_pairing. apply is_done_eq. vm_compute. reflexivity. }
  exists s', r. split; [exact E|].
  destruct (refused_certificate_keeps_traffic host issuer [] shop released ann (uuid 31) empty_db false attached
    s' r false false (Ok DnsPropagated)
    ("openssl issuance failed for 'shop.example': unable to write key. " +:+ CERTIFICATE_FAILURE_RECOVERY)
    eq_refl eq_refl E) as (He & _ & Ht & _).
  exact (conj He Ht).
Defined.
End DomainExamples.
