(* ===== verification/Client.v ===== *)
(** The command line client (client.rs and bin/labrys.rs of labrys-control-plane):
    the typed client over HTTP, the commands and their requests, the exit codes.
    The transport, the random identifiers and the files are an interface, and so are
    the URL, header and router crates that take a request to a handler; the argument
    parser produces a [CliArgs]. *)

From stdpp Require Import base option list strings pretty gmap.
From Stdlib Require Import ZArith Lia Ascii.
From S2P Require Import Prelude External Ids Json CpStores Auth Config Surfaces Plugin Api.
Local Open Scope Z_scope.

(* ------------------------------------------------------------------ *)
(** * The client *)

Inductive ExitCode := ExOk | ExCommandFailed | ExUsage.
Definition exit_number (c : ExitCode) : Z :=
  match c with ExOk => 0 | ExCommandFailed => 1 | ExUsage => 2 end.

Record ControlPlaneClient := mkClient {
  cl_base_url : string;
  cl_token : string;
  cl_actor : string;
  cl_trace_id : string;
}.
Record ClientRequest `{JsonLib} := mkClientRequest {
  cr_method : string;
  cr_url : string;
  cr_query : list (string * string);
  cr_headers : list (string * string);
  cr_body : option Json;
}.
(** What happens outside: an exchange that fails, or whose body may not be JSON; a
    random identifier; a file. *)
Record ClientOutside `{JsonLib} (X : Type) := {
  co_send : ClientRequest → X → X * result string (result string Json);
  co_uuid : X → X * Uuid;
  co_read : string → X → X * result string string;
}.
#[global] Arguments co_send {_ X}.
#[global] Arguments co_uuid {_ X}.
#[global] Arguments co_read {_ X}.
(** The HTTP crates: which texts are header values, the certificates in a PEM text,
    whether one is accepted and whether a client can be built. *)
Class HttpLib := {
  header_safe : string → bool;
  pem_certs : string → result string (list string);
  cert_from_der : string → result string unit;
  build_client : list string → result string unit;
}.
(** [Value::as_bool]. *)
Class JsonBool `{JsonOps} := { json_as_bool : Json → option bool }.
Class JsonBoolLaws `{JsonBool} : Prop := { json_as_bool_bool b : json_as_bool (json_bool b) = Some b }.

Definition with_trace `{HttpLib} (base_url token actor trace_id : string) :
    result string ControlPlaneClient :=
  let base_url := trim_end_matches "/" base_url in
  if str_is_empty base_url then Err "API base URL is required (--api-url or LABRYS_API_URL)"
  else if str_is_empty token then Err "API token is required (--token or LABRYS_API_TOKEN)"
  else
    match build_client [] with
    | Err e => Err ("cannot build HTTP client: " +:+ e)
    | Ok _ => Ok (mkClient base_url token actor trace_id)
    end.
Definition api_version : Z := API_VERSION.
Definition with_root_cert `{HttpLib} (ca_pem : string) (self : ControlPlaneClient) :
    result string ControlPlaneClient :=
  certs ← map_err_r (λ e, "TLS CA is not valid PEM: " +:+ e) (pem_certs ca_pem);
  _ ← foldl (λ acc der, _ ← acc; map_err_r (λ e, "TLS CA certificate rejected: " +:+ e) (cert_from_der der))
        (Ok tt) certs;
  if is_nil certs then Err "TLS CA holds no certificates"
  else
    match build_client certs with
    | Err e => Err ("cannot build HTTP client: " +:+ e)
    | Ok _ => Ok self
    end.

Section Client.
Context `{UuidLib} `{HttpLib} `{JsonOps} {X : Type} (out : ClientOutside X) (self : ControlPlaneClient).
Abbreviation Op A := (M X string A).

Definition safe_header (name value what : string) : outcome (string * string) :=
  if header_safe value then Done (name, value) else Panic (what +:+ " is header-safe").
Definition client_headers (idempotency_key : option string) : outcome (list (string * string)) :=
  authorization ← safe_header "authorization" ("Bearer " +:+ cl_token self) "token";
  actor ← safe_header "x-labryst-actor" (cl_actor self) "actor";
  trace ← safe_header "x-trace-id" (cl_trace_id self) "trace";
  match idempotency_key with
  | Some key =>
      key ← safe_header "idempotency-key" key "key";
      Done [authorization; actor; trace; key]
  | None => Done [authorization; actor; trace]
  end.

(** Sends the request and reads the answer as JSON. *)
Definition exchange (request : ClientRequest) (failed not_json : string → string) : Op Json := λ x,
  let '(x, r) := co_send out request x in
  Done (x, match r with
           | Err e => Err (failed e)
           | Ok (Err e) => Err (not_json e)
           | Ok (Ok value) => Ok value
           end).
Definition request_failed (path e : string) : string := "request to " +:+ path +:+ " failed: " +:+ e.
Definition response_not_json (path e : string) : string :=
  "response from " +:+ path +:+ " is not JSON: " +:+ e.
Definition client_get (path : string) (query : list (string * string)) : Op Json :=
  headers ← lift_o (client_headers None);
  exchange (mkClientRequest _ "GET" (cl_base_url self +:+ path) query headers None)
    (request_failed path) (response_not_json path).
Definition client_post (path : string) (idempotency_key : option string) (body : Json) : Op Json :=
  headers ← lift_o (client_headers idempotency_key);
  exchange (mkClientRequest _ "POST" (cl_base_url self +:+ path) [] headers (Some body))
    (request_failed path) (response_not_json path).

Definition opt_str (o : option string) : Json := json_option (json_str <$> o).
Definition app_path (application command : string) : string :=
  "/v1/applications/" +:+ application +:+ "/" +:+ command.

Definition client_version : Op Json :=
  exchange (mkClientRequest _ "GET" (cl_base_url self +:+ "/v1/version") [] [] None)
    (λ e, "version request failed: " +:+ e) (λ e, "version response is not JSON: " +:+ e).
Definition client_import (name path : option string) (idempotency_key : string) : Op Json :=
  client_post "/v1/import" (Some idempotency_key)
    (json_object [("name", opt_str name); ("path", opt_str path)]).
Definition client_inspect (application : string) : Op Json := client_get (app_path application "inspect") [].
Definition mutate_payload (body : gmap string string) (approval : option string) : Json :=
  let payload := json_str <$> body in
  json_object (btree_entries match approval with
    | Some approver => <["approval" := json_object [("approver", json_str approver)]]> payload
    | None => payload
    end).
Definition mutate (application command idempotency_key : string) (body : gmap string string)
    (approval : option string) : Op Json :=
  client_post (app_path application command) (Some idempotency_key) (mutate_payload body approval).
Definition client_run (application idempotency_key : string) (args : gmap string string) : Op Json :=
  mutate application "run" idempotency_key args None.
Definition client_agent (application idempotency_key : string) (args : gmap string string) : Op Json :=
  mutate application "agent" idempotency_key args None.
Definition client_preview (application idempotency_key : string) (args : gmap string string) : Op Json :=
  mutate application "preview" idempotency_key args None.
Definition client_capability (application capability idempotency_key : string) : Op Json :=
  mutate application "capabilities" idempotency_key {["capability" := capability]} None.
Definition client_capabilities (application : string) : Op Json :=
  client_get (app_path application "capabilities") [].
Definition client_resources (application : string) : Op Json :=
  client_get (app_path application "resources") [].
Definition client_build (application idempotency_key : string) (args : gmap string string) : Op Json :=
  mutate application "build" idempotency_key args None.
Definition client_deploy (application environment idempotency_key : string) (approval : option string) : Op Json :=
  mutate application "deploy" idempotency_key {["environment" := environment]} approval.
Definition with_optional (name : string) (value : option string) : list (string * string) :=
  match value with Some v => [(name, v)] | None => [] end.
Definition client_deployments (application : string) (environment : option string) (limit : Z) : Op Json :=
  client_get (app_path application "deployments")
    (("limit", pretty limit) :: with_optional "environment" environment).
Definition client_logs (application : string) (source : option string) (limit : Z) : Op Json :=
  client_get (app_path application "logs") (("limit", pretty limit) :: with_optional "source" source).
Definition client_health (application : string) (environment : option string) : Op Json :=
  client_get (app_path application "health") (with_optional "environment" environment).
Definition client_rollback (application target approver idempotency_key : string) : Op Json :=
  mutate application "rollback" idempotency_key {["target" := target]} (Some approver).
Definition client_doctor (application : string) : Op Json := client_get (app_path application "doctor") [].
Definition client_job (job : string) : Op Json := client_get ("/v1/jobs/" +:+ job) [].
Definition client_negotiate_agent (protocol_version : Z) (backend : option string) : Op Json :=
  client_post "/v1/agents/negotiate" None
    (json_object [("protocol_version", json_u64 protocol_version); ("backend", opt_str backend)]).
Definition client_handshake_plugin (manifest : Json) : Op Json :=
  client_post "/v1/plugins/handshake" None (json_object [("manifest", manifest)]).
Definition client_plugins : Op Json := client_get "/v1/plugins" [].
End Client.

Section Envelopes.
Context `{JsonBool}.
Definition exit_for (envelope : Json) : ExitCode :=
  match (v ← json_get "ok" envelope; json_as_bool v) with Some true => ExOk | _ => ExCommandFailed end.
Definition recovery_of (envelope : Json) : option string :=
  match (v ← json_get "recovery" envelope; json_as_str v) with
  | Some text => Some text
  | None => data ← json_get "data" envelope; v ← json_get "recovery" data; json_as_str v
  end.
End Envelopes.

(* ------------------------------------------------------------------ *)
(** * The command line *)

Inductive CliCommand :=
| CcVersion
| CcImport (name : option string) (path : string) (idempotency_key : option string)
| CcInspect (application : string)
| CcRun (application : string) (idempotency_key : option string)
| CcAgent (application : string) (prompt idempotency_key : option string)
| CcPreview (application : string) (session_id idempotency_key : option string)
| CcCapability (application capability : string) (idempotency_key : option string)
| CcCapabilities (application : string)
| CcResources (application : string)
| CcBuild (application : string) (idempotency_key : option string)
| CcDeploy (application environment : string) (approve_by idempotency_key : option string)
| CcDeployments (application : string) (environment : option string) (limit : Z)
| CcLogs (application : string) (source : option string) (limit : Z)
| CcHealth (application : string) (environment : option string)
| CcRollback (application target : string) (approve_by idempotency_key : option string)
| CcDoctor (application : string)
| CcJob (job : string)
| CcNegotiate (protocol_version : Z) (backend : option string)
| CcPlugins.
Record CliArgs := mkCli {
  ca_api_url : string;
  ca_token : string;
  ca_actor : string;
  ca_trace_id : option string;
  ca_tls_ca : option string;
  ca_command : CliCommand;
}.
Inductive Output `{JsonLib} := OutJson (envelope : Json) | OutError (line : string).

Section Cli.
Context `{UuidLib} `{HttpLib} `{JsonBool} {X : Type} (out : ClientOutside X).

Definition co_draw : M X string Uuid := λ x, let '(x, u) := co_uuid out x in Done (x, Ok u).
Definition key_or_generated (explicit : option string) (command : string) : M X string string :=
  match explicit with
  | Some key => mret key
  | None => u ← co_draw; mret (command +:+ "-" +:+ uuid_simple u)
  end.
Definition single (name : string) (value : option string) : gmap string string :=
  match value with Some v => {[name := v]} | None => ∅ end.

Definition cli_run (command : CliCommand) (client : ControlPlaneClient) : M X string Json :=
  match command with
  | CcVersion => client_version out client
  | CcImport name path key =>
      key ← key_or_generated key "import"; client_import out client name (Some path) key
  | CcInspect application => client_inspect out client application
  | CcRun application key => key ← key_or_generated key "run"; client_run out client application key ∅
  | CcAgent application prompt key =>
      key ← key_or_generated key "agent"; client_agent out client application key (single "prompt" prompt)
  | CcPreview application session_id key =>
      key ← key_or_generated key "preview";
      client_preview out client application key (single "session_id" session_id)
  | CcCapability application capability key =>
      key ← key_or_generated key "capability"; client_capability out client application capability key
  | CcCapabilities application => client_capabilities out client application
  | CcResources application => client_resources out client application
  | CcBuild application key => key ← key_or_generated key "build"; client_build out client application key ∅
  | CcDeploy application environment approve_by key =>
      key ← key_or_generated key "deploy"; client_deploy out client application environment key approve_by
  | CcDeployments application environment limit => client_deployments out client application environment limit
  | CcLogs application source limit => client_logs out client application source limit
  | CcHealth application environment => client_health out client application environment
  | CcRollback application target approve_by key =>
      match approve_by with
      | None => mthrow "rollback requires --approve-by <name>: a granted, named human approval (no rollback was enqueued)"
      | Some approver =>
          key ← key_or_generated key "rollback"; client_rollback out client application target approver key
      end
  | CcDoctor application => client_doctor out client application
  | CcJob job => client_job out client job
  | CcNegotiate protocol_version backend => client_negotiate_agent out client protocol_version backend
  | CcPlugins => client_plugins out client
  end.

(** The client of the arguments, with a drawn trace where none is given and the
    extra certificate where one is named. *)
Definition cli_client (cli : CliArgs) : M X string ControlPlaneClient :=
  trace ← match ca_trace_id cli with
          | Some trace => mret trace
          | None => u ← co_draw; mret ("trace-" +:+ uuid_simple u)
          end;
  client ← lift_r (with_trace (ca_api_url cli) (ca_token cli) (ca_actor cli) trace);
  match ca_tls_ca cli with
  | None => mret client
  | Some path =>
      r ← (λ x, let '(x, r) := co_read out path x in Done (x, Ok r));
      pem ← lift_r (map_err_r (λ e, "cannot read --tls-ca '" +:+ path +:+ "': " +:+ e) r);
      lift_r (with_root_cert pem client)
  end.

(** The exit code and what is printed. *)
Definition emit (envelope : Json) : ExitCode * list Output :=
  let code := exit_for envelope in
  (code, OutJson envelope ::
    match code, recovery_of envelope with
    | ExOk, _ | _, None => []
    | _, Some recovery => [OutError ("recovery: " +:+ recovery)]
    end).
Definition fail_usage (message : string) : ExitCode * list Output := (ExUsage, [OutError ("error: " +:+ message)]).
Definition cli_main (cli : CliArgs) : X → outcome (X * (ExitCode * list Output)) := λ x,
  match (client ← cli_client cli; cli_run (ca_command cli) client) x with
  | Done (x, Ok envelope) => Done (x, emit envelope)
  | Done (x, Err message) => Done (x, fail_usage message)
  | Panic message => Panic message
  end.
End Cli.

(* ------------------------------------------------------------------ *)
(** * Commands and the routes of the API *)

(** The router of the API: method, pattern and handler. *)
Definition routes : list (string * string * string) :=
  [("GET", "/v1/version", "version");
   ("POST", "/v1/import", "import");
   ("GET", "/v1/applications/{app}/inspect", "inspect");
   ("POST", "/v1/applications/{app}/run", "run_dev");
   ("POST", "/v1/applications/{app}/agent", "agent");
   ("POST", "/v1/applications/{app}/preview", "preview");
   ("GET", "/v1/applications/{app}/capabilities", "capabilities");
   ("POST", "/v1/applications/{app}/capabilities", "capability");
   ("GET", "/v1/applications/{app}/resources", "resources");
   ("POST", "/v1/applications/{app}/build", "build");
   ("POST", "/v1/applications/{app}/deploy", "deploy");
   ("GET", "/v1/applications/{app}/deployments", "deployments");
   ("GET", "/v1/applications/{app}/logs", "logs");
   ("GET", "/v1/applications/{app}/health", "health");
   ("POST", "/v1/applications/{app}/rollback", "rollback");
   ("GET", "/v1/applications/{app}/doctor", "doctor");
   ("GET", "/v1/jobs/{job}", "job_status");
   ("POST", "/v1/agents/negotiate", "negotiate_agent");
   ("POST", "/v1/plugins/handshake", "handshake_plugin");
   ("GET", "/v1/plugins", "list_plugins")].

(** ** From a request to a handler *)

(** The segments of a path, of which the first is empty; a pattern's segment in
    braces takes one segment that is not empty. *)
Fixpoint segments (path : string) : list string :=
  match path with
  | "" => [""]
  | String a rest =>
      if Ascii.eqb a "/" then "" :: segments rest
      else match segments rest with
           | seg :: segs => String a seg :: segs
           | [] => [String a ""]
           end
  end.
Definition is_param (seg : string) : bool := starts_with "{" seg.
Fixpoint match_segments (pattern path : list string) : option (list string) :=
  match pattern, path with
  | [], [] => Some []
  | p :: pattern', s :: path' =>
      if is_param p then
        if str_is_empty s then None
        else match match_segments pattern' path' with Some args => Some (s :: args) | None => None end
      else if String.eqb p s then match_segments pattern' path' else None
  | _, _ => None
  end.
(** A segment that a URL keeps as it is: unreserved characters, and no dot segment. *)
Definition unreserved (a : ascii) : bool :=
  in_range 48 57 a || in_range 65 90 a || in_range 97 122 a ||
  existsb (Ascii.eqb a) ["-"; "."; "_"; "~"]%char.
Definition plain_segment (s : string) : bool :=
  negb (str_is_empty s) && forallb unreserved (chars s) && negb (String.eqb s ".") && negb (String.eqb s "..").
(** A path of such segments, after the empty one before its first slash. *)
Definition plain_path (path : string) : bool :=
  match segments path with "" :: ((_ :: _) as segs) => forallb plain_segment segs | _ => false end.
(** A header value that travels as it is: visible ASCII, and blanks only inside. *)
Definition visible (a : ascii) : bool := in_range 33 126 a.
Definition plain_value (s : string) : bool :=
  match head (chars s), last (chars s) with
  | Some a, Some b => visible a && visible b && forallb (in_range 32 126) (chars s)
  | _, _ => false
  end.
(** The parts between the client and a handler: the URL and header crates with the
    HTTP server, which say what arrives, and the router, which finds the handler and its
    path parameters. *)
Class HttpServer := {
  url_origin : string → bool;
  received_path : string → option string;
  received_headers : list (string * string) → Headers;
  axum_route : list (string * string * string) → string → string → option (string * list string);
}.
(** What they document: a plain path after an origin arrives as it is, and so do plain
    header values of different names; a path is routed to the one pattern that matches it. *)
Class HttpServerLaws `{HttpServer} : Prop := {
  received_plain_path origin path : url_origin origin = true → plain_path path = true →
    received_path (origin +:+ path) = Some path;
  received_plain_headers hs name : NoDup hs.*1 → Forall (λ h, plain_value h.2 = true) hs →
    received_headers hs name = assoc name hs;
  routed_uniquely rs method pattern handler path args :
    plain_path path = true → (method, pattern, handler) ∈ rs →
    match_segments (segments pattern) (segments path) = Some args →
    (∀ p h a, (method, p, h) ∈ rs → match_segments (segments p) (segments path) = Some a → p = pattern ∧ h = handler) →
    axum_route rs method path = Some (handler, args);
}.




Section Facts.
Context `{UuidLib} `{HttpLib} `{JsonBool} {X : Type} (out : ClientOutside X).
Implicit Types (client : ControlPlaneClient) (request : ClientRequest).






(** The exit code tells what the API said: an envelope of an accepted
    command exits with 0 and is printed alone; an error body, that of a refused
    token too, exits with 1 and its recovery is printed; without an envelope the
    process exits with 2. *)
Theorem exit_code_reports_the_api `{!JsonLaws, !JsonBoolLaws} cli x x' r :
  (client ← cli_client out cli; cli_run out (ca_command cli) client) x = Done (x', r) →
  ∃ code printed, cli_main out cli x = Done (x', (code, printed)) ∧
    match r with
    | Err message => code = ExUsage ∧ printed = [OutError ("error: " +:+ message)]
    | Ok body =>
        (∀ e, body = ApiError_body e →
           code = ExCommandFailed ∧ printed = [OutJson body; OutError ("recovery: " +:+ ae_recovery e)]) ∧
        (∀ command ctx replayed resource data job recovery,
           body = envelope command ctx replayed resource data job recovery →
           code = ExOk ∧ printed = [OutJson body])
    end.
Proof.
  intros E. unfold cli_main. rewrite E. destruct r as [body|message]; [|by do 2 eexists].
  eexists _, _. split; [by rewrite <- (surjective_pairing (emit body))|]. unfold emit, exit_for, recovery_of.
  split.
  - intros e ->. unfold ApiError_body. rewrite !json_get_object by (apply (bool_decide_unpack _); vm_compute; exact I).
    simpl. by rewrite json_as_bool_bool, json_as_str_str.
  - intros * ->. unfold envelope. rewrite !json_get_object by (apply (bool_decide_unpack _); vm_compute; exact I).
    simpl. by rewrite json_as_bool_bool.
Qed.
(** ** What the server makes of it *)

Context `{!UuidLaws} `{!HttpServer} `{!HttpServerLaws}.


End Facts.

(* ------------------------------------------------------------------ *)
(** * Examples *)

Module ClientExamples.
Import RefInstances RefJson.
#[export] Instance plain_http : HttpLib := {
  header_safe s := forallb (λ a, in_range 32 126 a) (chars s);
  pem_certs s := if str_is_empty s then Err "empty" else Ok [s];
  cert_from_der _ := Ok tt;
  build_client _ := Ok tt;
}.
#[export] Instance tree_bool : JsonBool := {
  json_as_bool v := match v with GenLeaf (inr (inr b)) => Some b | _ => None end }.
#[export] Instance tree_bool_laws : JsonBoolLaws.
Proof. by constructor. Qed.
(** A server that keeps the requests and refuses every token. *)
Definition refusing : ClientOutside (list ClientRequest) := {|
  co_send request x := (x ++ [request], Ok (Ok (ApiError_body (unauthorized "trace-1"))));
  co_uuid x := (x, uuid 77);
  co_read _ x := (x, Err "no such file");
|}.
Definition ann_client : ControlPlaneClient := mkClient "http://cp" "tok" "human:ann" "trace-1".
Definition deploy_web : CliCommand := CcDeploy "app_1" "production" (Some "ann") None.
Definition deploy_cli : CliArgs := mkCli "http://cp/" "tok" "human:ann" (Some "trace-1") None deploy_web.
Definition nothing : list ClientRequest * result string Json := ([], Err "").

(** A server that takes the path up to a query, the headers that are ASCII text, and
    the first route that matches. *)
Definition host_char (a : ascii) : bool := unreserved a || Ascii.eqb a ":".
Fixpoint after_host (s : string) : string :=
  match s with String a s' => if host_char a then after_host s' else s | "" => "" end.
Fixpoint until_query (s : string) : string :=
  match s with
  | String a s' => if Ascii.eqb a "?" || Ascii.eqb a "#" then "" else String a (until_query s')
  | "" => ""
  end.
Fixpoint first_route (rs : list (string * string * string)) (method path : string) : option (string * list string) :=
  match rs with
  | [] => None
  | (m, p, h) :: rs' =>
      if String.eqb m method then
        match match_segments (segments p) (segments path) with
        | Some args => Some (h, args)
        | None => first_route rs' method path
        end
      else first_route rs' method path
  end.
#[export] Instance plain_server : HttpServer := {
  url_origin s := match strip_prefix "http://" s with
                  | Some host => negb (str_is_empty host) && forallb host_char (chars host)
                  | None => false
                  end;
  received_path s := until_query ∘ after_host <$> strip_prefix "http://" s;
  received_headers hs name := v ← assoc name hs; if forallb (in_range 32 126) (chars v) then Some v else None;
  axum_route := first_route;
}.
Lemma after_host_app host path :
  forallb host_char (chars host) = true → after_host (host +:+ String "/" path) = String "/" path.
Proof.
  induction host as [|a host IH]; [done|]. change (chars (String a host)) with (a :: chars host).
  rewrite str_app_cons. simpl. intros [-> Hh]%andb_true_iff. auto.
Qed.
Lemma plain_until s : forallb (λ seg, forallb unreserved (chars seg)) (segments s) = true → until_query s = s.
Proof.
  induction s as [|a s IH]; [done|]. simpl. destruct (Ascii.eqb_spec a "/") as [->|Hn].
  - simpl. intros Hs. by rewrite IH.
  - destruct (segments s) as [|seg segs]; simpl.
    + rewrite !andb_true_r. intros Ha. rewrite (IH eq_refl). by destruct a as [[] [] [] [] [] [] [] []].
    + change (chars (String a seg)) with (a :: chars seg). simpl. rewrite !andb_true_iff. intros [[Ha Hseg] Hs].
      rewrite IH by (simpl; by rewrite Hseg, Hs). by destruct a as [[] [] [] [] [] [] [] []].
Qed.
Lemma plain_path_until path :
  plain_path path = true → ∃ rest, path = String "/" rest ∧ until_query path = path.
Proof.
  destruct path as [|a rest]; [done|]. intros Hp.
  assert (forallb (λ seg, forallb unreserved (chars seg)) (segments (String a rest)) = true ∧ a = "/"%char) as [Hs ->].
  { unfold plain_path in Hp. cbn [segments] in *. destruct (Ascii.eqb_spec a "/") as [->|_].
    - split; [|done]. destruct (segments rest); [done|]. simpl in Hp |- *. revert Hp. rewrite !andb_true_iff.
      unfold plain_segment. rewrite !andb_true_iff. intros [[[[_ ?] _] _] Hl]. split; [done|].
      apply forallb_forall. intros seg Hin. rewrite forallb_forall in Hl. specialize (Hl seg Hin).
      unfold plain_segment in Hl. by rewrite !andb_true_iff in Hl; destruct Hl as [[[_ ?] _] _].
    - by destruct (segments rest). }
  exists rest. split; [done|]. by apply plain_until.
Qed.
#[export] Instance plain_server_laws : HttpServerLaws.
Proof.
  constructor.
  - intros origin path Ho Hp. cbn [url_origin received_path plain_server] in *. destruct (strip_prefix "http://" origin) as [host|] eqn:Eh; [|done].
    apply strip_prefix_Some in Eh as ->. apply andb_true_iff in Ho as [_ Hh].
    destruct (plain_path_until path Hp) as (rest & -> & Hu).
    rewrite str_app_assoc, strip_prefix_app. cbn [fmap option_fmap option_map compose]. by rewrite after_host_app, Hu.
  - intros hs name _ Hf. simpl. destruct (assoc name hs) as [v|] eqn:Ea; [|done]. simpl.
    assert (plain_value v = true) as Hv.
    { apply assoc_in in Ea. rewrite Forall_forall in Hf. exact (Hf _ Ea). }
    unfold plain_value in Hv. destruct (head (chars v)), (last (chars v)); try done. by apply andb_true_iff in Hv as [_ ->].
  - intros rs method pattern handler path args _ Hin Hm Hu. simpl.
    induction rs as [|[[m p] h] rs IH]; [by apply elem_of_nil in Hin|]. simpl.
    destruct (String.eqb_spec m method) as [->|Hn].
    + destruct (match_segments (segments p) (segments path)) as [a|] eqn:Ea.
      * destruct (Hu p h a (list_elem_of_here _ _) Ea) as [-> ->]. congruence.
      * apply elem_of_cons in Hin as [[= -> ->]|Hin]; [congruence|]. apply IH; [done|].
        intros p' h' a' Hin'. apply (Hu p' h' a'). by apply list_elem_of_further.
    + apply elem_of_cons in Hin as [[= -> -> ->]|Hin]; [done|]. apply IH; [done|].
      intros p' h' a' Hin'. apply (Hu p' h' a'). by apply list_elem_of_further.
Qed.
Definition at_ten : Reading :=
  {| rd_trace := uuid 91; rd_auth := 10; rd_denied := 10; rd_now := 10; rd_created := 10; rd_observed := 10;
     rd_loaded := 10; rd_stored := 10; rd_application := mkId (uuid 1); rd_development := mkId (uuid 2);
     rd_production := mkId (uuid 3); rd_job := mkId (uuid 4);
     rd_draws := {| d_session := mkId (uuid 5); d_application := mkId (uuid 6); d_environment := mkId (uuid 7) |} |}.

(** An identifier is not encoded, so one with a slash and a question mark sends an
    inspection to another handler, of another application. *)
Definition sent_requests (o : outcome (list ClientRequest * result string Json)) : list ClientRequest :=
  (done_or nothing o).1.
Definition routed_by (request : ClientRequest) : option (string * list string) :=
  path ← received_path (cr_url request); axum_route routes (cr_method request) path.
Example unencoded_argument_is_rerouted :
  map routed_by (sent_requests (cli_run refusing (CcInspect "x/doctor?") ann_client []))
    = [Some ("doctor", ["x"])].
Proof. vm_compute. reflexivity. Qed.
(** A blank trace is not the one the API reads. *)
Example blank_trace_is_replaced :
  map (λ request, trace_of at_ten (received_headers (cr_headers request)))
    (sent_requests (cli_run refusing (CcInspect "app_1") (mkClient "http://cp" "tok" "human:ann" " ") []))
    = ["trace-" +:+ uuid_simple (uuid 91)].
Proof. vm_compute. reflexivity. Qed.
Lemma exit_code_reports_the_api_witness :
  ∃ x' printed, cli_main refusing deploy_cli [] = Done (x', (ExCommandFailed, printed)).
Proof.
  assert ((client ← cli_client refusing deploy_cli; cli_run refusing (ca_command deploy_cli) client) []
    = Done ((done_or nothing ((client ← cli_client refusing deploy_cli; cli_run refusing (ca_command deploy_cli) client) [])).1,
            Ok (ApiError_body (unauthorized "trace-1")))) as E.
  { apply is_done_pair; vm_compute; reflexivity. }
  destruct (exit_code_reports_the_api refusing deploy_cli [] _ _ E) as (code & printed & Hm & He & _).
  destruct (He _ eq_refl) as [-> _]. do 2 eexists. exact Hm.
Defined.
(** A token with a line break makes the client panic. *)
Example unsafe_token_panics :
  ∃ msg, cli_main refusing (mkCli "http://cp" (String (ascii_of_nat 10) "tok") "human:ann" (Some "t") None
    (CcInspect "app_1")) [] = Panic msg.
Proof. eexists. vm_compute. reflexivity. Qed.
End ClientExamples.
