(* ===== verification/Assembly.v ===== *)
(** The assembled control plane (dispatch.rs and the dispatcher construction of
    providers.rs of labrys-control-plane): the adapters built from a configuration,
    the dispatcher over all of them, and what a worker that runs it reaches. *)

From stdpp Require Import base option list strings pretty gmap.
From Stdlib Require Import ZArith Lia Ascii.
From S2P Require Import Prelude External Errors CpErrors Ids Resource Jobs Runtime Approval Snapshot Deployment.
From S2P Require Import Capability Application Agent Events AuditChain Verifier Provider Workspace Json Auth Config.
From S2P Require Import DurableJobs ResourceStore CpStores Delivery Containers Previews Worker.
From S2P Require Import PgProvider StorageProvider OciClient TlsDns.
Local Open Scope Z_scope.

(* ------------------------------------------------------------------ *)
(** * What the dispatcher drives *)

(** The postgres adapter is a trait object: the provisioner or the test double. *)
Inductive PostgresAdapter (P : Type) :=
| PaManaged (admin : PgAdmin) (pool : Pg P)
| PaDouble (double : LocalTestAdapter).
#[global] Arguments PaManaged {P}.
#[global] Arguments PaDouble {P}.
(** The state of all adapters; the object and file storage share one backend. *)
Record Adapters (P B : Type) := mkAdapters {
  ax_postgres : PostgresAdapter P;
  ax_buckets : Buckets B;
  ax_auth : LocalTestAdapter;
  ax_generic : LocalTestAdapter;
}.
#[global] Arguments mkAdapters {P B}.
#[global] Arguments ax_postgres {P B}.
#[global] Arguments ax_buckets {P B}.
#[global] Arguments ax_auth {P B}.
#[global] Arguments ax_generic {P B}.
Definition new_double : LocalTestAdapter := mkTestAdapter [] [].

Section Build.
Context `{UuidLib} `{JsonLib} `{!Serde FailureRecord} `{!Serde (list ResourceTransition)}.
Context `{!Serde EventActor} `{!Serde EventResult} `{!Serde (list string)}.
Context `{Chrono} `{ChronoText} `{SubsecRound} `{BuildProfile} `{PgTime} `{StrLower} `{HashIter}.
Context {P B : Type} (server : PgOutside P) (files : BucketOutside B).
(** The lazily opened pool, the HTTP client of the registry, and the file system
    the backend starts with. *)
Context (connect_lazy : string → result string P) (http_client : result string unit) (disk : B).
Abbreviation X := (Adapters P B).

(** An adapter over its own part of the state. *)
Definition on_part {T} (proj : X → T) (upd : T → X → X) (ad : ProviderAdapter T) : ProviderAdapter X :=
  {| pa_key := pa_key ad; pa_kind := pa_kind ad; pa_execute := λ op, zoom proj upd (pa_execute ad op) |}.
Definition set_postgres (p : PostgresAdapter P) (x : X) : X :=
  mkAdapters p (ax_buckets x) (ax_auth x) (ax_generic x).
Definition set_buckets (b : Buckets B) (x : X) : X :=
  mkAdapters (ax_postgres x) b (ax_auth x) (ax_generic x).
Definition set_auth (a : LocalTestAdapter) (x : X) : X :=
  mkAdapters (ax_postgres x) (ax_buckets x) a (ax_generic x).
Definition set_generic (a : LocalTestAdapter) (x : X) : X :=
  mkAdapters (ax_postgres x) (ax_buckets x) (ax_auth x) a.

Definition postgres_test : ProviderAdapter LocalTestAdapter := LocalTestAdapter_new "postgres.local-test" PkPostgres.
Definition auth_test : ProviderAdapter LocalTestAdapter := LocalTestAdapter_new "auth.local-test" PkAuth.
Definition generic_test : ProviderAdapter LocalTestAdapter := LocalTestAdapter_new "generic.local-test" PkGeneric.
(** A call through the trait object. *)
Definition postgres_execute (op : ProviderOperation) :
    M (PostgresAdapter P) ControlPlaneError ProviderExecution := λ p,
  match p with
  | PaManaged admin pool =>
      '(pool, r) ← pg_execute server admin op pool; Done (PaManaged admin pool, r)
  | PaDouble double =>
      '(double, r) ← pa_execute postgres_test op double; Done (PaDouble double, r)
  end.
Definition postgres_adapter (p : PostgresAdapter P) : ProviderAdapter (PostgresAdapter P) :=
  {| pa_key := match p with PaManaged _ _ => "postgres.managed" | PaDouble _ => pa_key postgres_test end;
     pa_kind := PkPostgres; pa_execute := postgres_execute |}.

(** The adapters of the job dispatcher, by key. *)
Definition with_adapter (ad : ProviderAdapter X) (adapters : gmap string (ProviderAdapter X)) :
    gmap string (ProviderAdapter X) := <[pa_key ad := ad]> adapters.

(** The dispatcher's own parts, with the initial state of its adapters. *)
Record Executable := mkExecutable {
  ex_adapters : gmap string (ProviderAdapter X);
  ex_provider_secrets : list string;
  ex_docker_bin : string;
  ex_workspace : string;
  ex_registry : option OciRegistryClient;
  ex_issuer : OpensslTlsIssuer;
  ex_availability : RuntimeAvailability;
  ex_preview_ttl_secs : Z;
  ex_secrets : list string;
}.
Definition build (config : Config) : outcome (result ControlPlaneError (Executable * X)) :=
  let secrets := provider_secret_values config in
  match
    (match provider_postgres_url config with
     | Some url =>
         '(admin, pool) ← PostgresProvisioner_new connect_lazy url;
         Ok (PaManaged admin pool, secrets ++ pg_credential_secrets admin pool)
     | None => Ok (PaDouble new_double, secrets)
     end)
  with
  | Err e => Done (Err e)
  | Ok (postgres, secrets) =>
      storage_backend ← FsBucketBackend_new (provider_storage_root config);
      Done (
        backend ← storage_backend;
        let adapters :=
          with_adapter (on_part ax_generic set_generic generic_test)
          (with_adapter (on_part ax_buckets set_buckets (FileStorageProvisioner files backend))
          (with_adapter (on_part ax_buckets set_buckets (ObjectStorageProvisioner files backend))
          (with_adapter (on_part ax_auth set_auth auth_test)
          (with_adapter (on_part ax_postgres set_postgres (postgres_adapter postgres)) ∅)))) in
        registry ← (match provider_registry_endpoint config with
                    | Some endpoint =>
                        client ← OciRegistryClient_new http_client endpoint
                                   (provider_registry_username config) (provider_registry_password config);
                        Ok (Some client)
                    | None => Ok None
                    end);
        let all := match registry with
          | Some client => secrets ++ oc_credential_secrets client
          | None => secrets
          end in
        domain ← OpensslTlsIssuer_new "openssl" (provider_tls_dir config);
        root ← WorkspaceRoot_new (workspace_root config);
        Ok (mkExecutable adapters secrets (docker_bin config) root registry domain
              (RaUnavailable "runtime has not been probed yet") (preview_ttl_secs config) all,
            mkAdapters postgres (mkBuckets disk ∅) new_double new_double))
  end.
Definition with_availability (a : RuntimeAvailability) (self : Executable) : Executable :=
  mkExecutable (ex_adapters self) (ex_provider_secrets self) (ex_docker_bin self) (ex_workspace self)
    (ex_registry self) (ex_issuer self) a (ex_preview_ttl_secs self) (ex_secrets self).
(** The job dispatcher visits the values of its adapter map. *)
Definition provider_of (self : Executable) : JobDispatcher X :=
  ProviderJobDispatcher (ex_provider_secrets self) (hash_values (ex_adapters self)).
Definition dispatcher_of (self : Executable) : JobDispatcher X :=
  ExecutableDispatcher (ex_secrets self) (ex_availability self) (provider_of self).
(** Selection at startup, from the probed runtime. *)
Definition start (config : Config) (probe : RuntimeAvailability) :
    outcome (result ControlPlaneError (SelectedDispatcher (X:=X))) :=
  match runtime_mode config, probe with
  | RmDisabled, _ | _, RaUnavailable _ =>
      Done (select_dispatcher (runtime_mode config) probe (Err (CpConfig "not built")))
  | _, RaAvailable _ =>
      built ← build config;
      Done (select_dispatcher (runtime_mode config) probe
              ('(e, _) ← built; Ok (provider_of e, ex_secrets e)))
  end.
End Build.

(* ------------------------------------------------------------------ *)
(** * Which adapter a job reaches *)

(** [str::to_lowercase] on ASCII text is [to_ascii_lowercase]. *)
Definition is_ascii (a : ascii) : bool := (N_of_ascii a <? 128)%N.
Definition ascii_text (s : string) : bool := forallb is_ascii (chars s).
Class StrLowerLaws `{StrLower} : Prop := {
  to_lowercase_ascii s : ascii_text s = true → to_lowercase s = to_ascii_lowercase s;
}.
(** The keys of the adapters built from a configuration, but for the generic double. *)
Definition adapter_keys (c : Config) : list string :=
  [match provider_postgres_url c with Some _ => "postgres.managed" | None => "postgres.local-test" end;
   "auth.local-test"; "objectstore.fs"; "filestore.fs"].
(** The target contains none of them, in whatever case. *)
Definition unaddressed `{StrLower} (c : Config) (target : string) : bool :=
  forallb (λ key, negb (str_contains key (to_lowercase target))) (adapter_keys c).
Definition unaddressed_queue `{StrLower} `{JsonLib} (c : Config) (t : gmap string JobRow) : Prop :=
  map_Forall (λ _ r, unaddressed c (jr_target r) = true) t.

(** ** The targets the platform makes *)

Lemma ascii_app s t : ascii_text (s +:+ t) = ascii_text s && ascii_text t.
Proof. unfold ascii_text. by rewrite chars_app, forallb_app. Qed.
Lemma lower_app s t : to_ascii_lowercase (s +:+ t) = to_ascii_lowercase s +:+ to_ascii_lowercase t.
Proof. induction s as [|a s IH]; [done|]. rewrite !str_app_cons. exact (f_equal (String _) IH). Qed.
Lemma lower_keeps_stop a : lower_char a = "."%char → a = "."%char.
Proof. destruct a as [[] [] [] [] [] [] [] []]; vm_compute; congruence. Qed.
Lemma map_chars_elem f s b : b ∈ chars (Snapshot.map_chars f s) → ∃ a, a ∈ chars s ∧ b = f a.
Proof.
  induction s as [|a s IH]; [set_solver|].
  change (chars (Snapshot.map_chars f (String a s))) with (f a :: chars (Snapshot.map_chars f s)).
  change (chars (String a s)) with (a :: chars s). set_solver.
Qed.
(** An identifier is ASCII without a full stop, which every key has. *)
Lemma id_chars `{UuidLaws} {k} (i : Id k) :
  forallb (λ a, is_ascii a && bool_decide (a ≠ "."%char)) (chars (id_fmt i)) = true.
Proof.
  rewrite id_fmt_prefix, chars_app, forallb_app. apply andb_true_iff. split; [by destruct k|].
  pose proof (uuid_simple_is_hex (id_uuid i)) as Hx. revert Hx.
  induction (chars (uuid_simple (id_uuid i))) as [|a l IH]; [done|]. simpl.
  rewrite !andb_true_iff. intros [Ha Hl]. split; [|by apply IH]. clear IH Hl.
  destruct a as [[] [] [] [] [] [] [] []]; vm_compute in Ha; try discriminate Ha; by vm_compute.
Qed.
Lemma id_no_stop `{UuidLaws} {k} (i : Id k) : ascii_text (id_fmt i) = true ∧ "."%char ∉ chars (id_fmt i).
Proof.
  pose proof (id_chars i) as Hp%Is_true_true%forallb_True. rewrite Forall_forall in Hp. split.
  - apply Is_true_true, forallb_True, Forall_forall. intros a Ha.
    specialize (Hp a Ha). apply Is_true_true, andb_true_iff in Hp as [Hp _]. by apply Is_true_true.
  - intros Hs. specialize (Hp _ Hs). apply Is_true_true, andb_true_iff in Hp as [_ Hne%bool_decide_eq_true]. done.
Qed.
Lemma key_shape c key : key ∈ adapter_keys c → "."%char ∈ chars key ∧ ":"%char ∉ chars key ∧ key ≠ "".
Proof.
  unfold adapter_keys. intros Hk. apply (bool_decide_unpack _).
  destruct (provider_postgres_url c); set_unfold in Hk;
    repeat (destruct Hk as [->|Hk]; [vm_compute; exact I|]); done.
Qed.
Lemma no_stop_no_key c key s : key ∈ adapter_keys c → "."%char ∉ chars s → str_contains key (to_ascii_lowercase s) = false.
Proof.
  intros (Hdot & _ & _)%key_shape Hs. destruct (str_contains _ _) eqn:E; [|done].
  eapply str_contains_elem in E; [|exact Hdot]. unfold to_ascii_lowercase in E.
  apply map_chars_elem in E as (a & Hin & Ea). symmetry in Ea. apply lower_keeps_stop in Ea. by subst.
Qed.
(** A pattern without a colon occurs on one side of it. *)
Lemma starts_before_colon p a b :
  ":"%char ∉ chars p → starts_with p (a +:+ String ":" b) = true → starts_with p a = true.
Proof.
  revert a. induction p as [|d p IH]; intros a Hp; [by destruct a|].
  change (chars (String d p)) with (d :: chars p) in Hp. apply not_elem_of_cons in Hp as [Hd Hp].
  destruct a as [|x a].
  - rewrite str_app_nil_l, starts_with_cons. intros [->%Ascii.eqb_eq _]%andb_true_iff. done.
  - rewrite str_app_cons, !starts_with_cons. intros [-> H]%andb_true_iff. by rewrite (IH a).
Qed.
Lemma contains_beside_colon p a b :
  ":"%char ∉ chars p → p ≠ "" → str_contains p (a +:+ String ":" b) = true →
  str_contains p a = true ∨ str_contains p b = true.
Proof.
  intros Hp Hn. induction a as [|x a IH].
  - rewrite str_app_nil_l. simpl. intros [Hs|Hs]%orb_true_iff; [|by right].
    apply (starts_before_colon p "" b) in Hs; [|done]. by destruct p.
  - rewrite str_app_cons. simpl. intros [Hs|Hs]%orb_true_iff.
    + rewrite <- str_app_cons in Hs. apply starts_before_colon in Hs; [|done]. left. by rewrite Hs.
    + destruct (IH Hs) as [Hl|Hr]; [left; by rewrite Hl, orb_true_r|by right].
Qed.

Section Targets.
Context `{UuidLaws} `{StrLowerLaws}.
Lemma unaddressed_iff c target :
  unaddressed c target = true ↔ ∀ key, key ∈ adapter_keys c → str_contains key (to_lowercase target) = false.
Proof.
  unfold unaddressed. rewrite <- Is_true_true, forallb_True, Forall_forall.
  split; intros Ha key Hk; specialize (Ha key Hk); [by apply Is_true_true, negb_true_iff in Ha|].
  by apply Is_true_true, negb_true_iff.
Qed.
(** The identifier of a resource is no adapter's. *)
Lemma id_is_unaddressed c {k} (i : Id k) : unaddressed c (id_fmt i) = true.
Proof.
  apply unaddressed_iff. intros key Hk. destruct (id_no_stop i) as [Ha Hs].
  rewrite to_lowercase_ascii by done. by eapply no_stop_no_key.
Qed.
(** A target of the API, the identifier of an application with the words of the
    command, names an adapter only if one of those words does. *)
Lemma api_target_is_unaddressed c (i : ApplicationId) command name :
  ascii_text command = true → ascii_text name = true →
  unaddressed c command = true → unaddressed c name = true →
  unaddressed c (id_fmt i +:+ ":" +:+ command +:+ ":" +:+ name) = true.
Proof.
  intros Hac Han Hc Hn. apply unaddressed_iff. intros key Hk.
  destruct (id_no_stop i) as [Ha Hs]. pose proof (key_shape _ _ Hk) as (_ & Hcol & Hne).
  rewrite unaddressed_iff in Hc, Hn. specialize (Hc _ Hk). specialize (Hn _ Hk).
  rewrite to_lowercase_ascii in Hc, Hn by done.
  rewrite to_lowercase_ascii by (rewrite !ascii_app; by rewrite Ha, Hac, Han).
  rewrite !lower_app. change (to_ascii_lowercase ":") with ":".
  apply not_true_is_false. intros E.
  apply contains_beside_colon in E as [E|E]; [|..|done|done].
  - by rewrite (no_stop_no_key c) in E.
  - apply contains_beside_colon in E as [E|E]; [congruence..|done|done].
Qed.
(** The capabilities a provider supplies, for instance, are no adapters. *)
Lemma capability_target_is_unaddressed c (i : ApplicationId) capability :
  capability ∈ ["database.postgres"; "database"; "auth"; "auth.session"; "storage.file"; "storage"; "storage.object"] →
  unaddressed c (id_fmt i +:+ ":capability:" +:+ capability) = true.
Proof.
  intros Hc. apply (api_target_is_unaddressed c i "capability" capability); [done| | |].
  - set_unfold. by repeat (destruct Hc as [->|Hc]; [vm_compute; reflexivity|]).
  - apply unaddressed_iff. intros key Hk. rewrite to_lowercase_ascii by done. eapply no_stop_no_key; [done|].
    apply (bool_decide_unpack _). vm_compute. exact I.
  - apply unaddressed_iff. intros key Hk.
    rewrite to_lowercase_ascii by (set_unfold; by repeat (destruct Hc as [->|Hc]; [vm_compute; reflexivity|])).
    unfold adapter_keys in Hk. destruct (provider_postgres_url c); set_unfold;
      repeat (destruct Hc as [->|Hc]; [by repeat (destruct Hk as [->|Hk]; [vm_compute; reflexivity|])|]); done.
Qed.
End Targets.

Section Facts.
Context `{UuidLaws} `{JsonLib} `{!Serde FailureRecord} `{!Serde (list ResourceTransition)}.
Context `{!Serde EventActor} `{!Serde EventResult} `{!Serde (list string)}.
Context `{Chrono} `{ChronoText} `{SubsecRound} `{BuildProfile} `{PgTime} `{StrLowerLaws} `{HashIterLaws}.
Context {P B : Type} (server : PgOutside P) (files : BucketOutside B).
Context (connect_lazy : string → result string P) (http_client : result string unit) (disk : B).
Abbreviation X := (Adapters P B).
Abbreviation built c := (build server files connect_lazy http_client disk c).
Implicit Types (x : X) (d : Db) (e : Executable (P:=P) (B:=B)).

Definition the_generic : ProviderAdapter X := on_part ax_generic set_generic generic_test.
(** A dispatcher's adapters are the generic one and some with a listed key. *)
Record stocked c e : Prop := {
  sk_keys k ad : ex_adapters e !! k = Some ad →
    ad = the_generic ∨ (to_lowercase (pa_key ad) ∈ adapter_keys c ∧ pa_kind ad ≠ PkGeneric);
  sk_generic : ∃ k, ex_adapters e !! k = Some the_generic;
}.
Lemma build_stocked c e x : built c = Done (Ok (e, x)) → stocked c e ∧ ta_steps (ax_generic x) = [].
Proof.
  unfold build. destruct (match provider_postgres_url c with Some _ => _ | None => _ end) as [[postgres secrets]|] eqn:Ep; [|done].
  destruct (FsBucketBackend_new _) as [storage|]; [|done]. simpl. intros [= Hb].
  apply result_bind_Ok in Hb as (backend & _ & Hb). apply result_bind_Ok in Hb as (registry & _ & Hb).
  apply result_bind_Ok in Hb as (issuer & _ & Hb). apply result_bind_Ok in Hb as (root & _ & Hb).
  injection Hb as <- <-. split; [|done]. split; simpl; unfold with_adapter.
  - assert (pa_key (postgres_adapter server postgres) =
      match provider_postgres_url c with Some _ => "postgres.managed" | None => "postgres.local-test" end) as Hpk.
    { destruct (provider_postgres_url c); [|by injection Ep as <- _].
      apply result_bind_Ok in Ep as ([admin pool] & _ & Ep). by injection Ep as <- _. }
    intros k ad. rewrite !lookup_insert_Some, lookup_empty.
    intros [[_ <-]|[_ [[_ <-]|[_ [[_ <-]|[_ [[_ <-]|[_ [[_ <-]|[_ ?]]]]]]]]]]; [by left|right; split; [|done]..|done];
      cbn [pa_key on_part]; rewrite ?Hpk; unfold adapter_keys; destruct (provider_postgres_url c);
      rewrite to_lowercase_ascii by (vm_compute; reflexivity); apply (bool_decide_unpack _); vm_compute; exact I.
  - eexists. by rewrite lookup_insert_eq.
Qed.
Lemma find_only {A} (f : A → bool) l a : a ∈ l → f a = true → (∀ b, b ∈ l → f b = true → b = a) → List.find f l = Some a.
Proof.
  intros Hin Ha Hone. destruct (List.find f l) as [b|] eqn:E.
  - apply List.find_some in E as [Hb Hfb]. apply list_elem_of_In in Hb. by rewrite (Hone b).
  - apply list_elem_of_In in Hin. by rewrite (List.find_none _ _ E a Hin) in Ha.
Qed.
Lemma unaddressed_runs_generic c e job :
  stocked c e → unaddressed c (job_target job) = true →
  adapter_for (hash_values (ex_adapters e)) job = Some the_generic.
Proof.
  intros [Hk [k Hg]] Hp. unfold adapter_for.
  destruct (List.find _ (hash_values _)) as [ad|] eqn:E.
  - apply List.find_some in E as [[k' Had]%list_elem_of_In%elem_of_hash_values Hc].
    apply Hk in Had as [->|[Hin _]]; [done|]. by rewrite (proj1 (unaddressed_iff c _) Hp _ Hin) in Hc.
  - apply find_only; [apply elem_of_hash_values; eauto|done|].
    intros b [k' Hb]%elem_of_hash_values Hf. apply Hk in Hb as [->|[_ Hb]]; [done|]. by destruct (pa_kind b).
Qed.

(** ** Dispatching such a job *)

(** The adapters that reach another system, and the double of another kind. *)
Definition others x := (ax_postgres x, ax_buckets x, ax_auth x).
(** The generic double has no script, and [x0] is as it was otherwise. *)
Definition idle x0 x : Prop := others x = others x0 ∧ ta_steps (ax_generic x) = [].
Definition unfinished (o : DispatchOutcome) : Prop := o = DoInProgress ∨ ∃ reason, o = DoFailed reason.

Lemma generic_accepts op x x' res :
  ta_steps (ax_generic x) = [] → pa_execute the_generic op x = Done (x', res) →
  idle x x' ∧ ∃ detail, res = Ok (PxAccepted detail).
Proof.
  intros Hs. simpl. unfold zoom, test_execute. unfold_monad. simpl. rewrite Hs. simpl.
  intros [= <- <-]. split; [done|by eexists].
Qed.
Lemma unaddressed_provider_dispatch c e tk job d x s' r :
  stocked c e → unaddressed c (job_target job) = true → ta_steps (ax_generic x) = [] →
  dispatch (provider_of e) tk job (d, x) = Done (s', r) →
  idle x s'.2 ∧ ∀ o, r = Ok o → unfinished o.
Proof.
  intros He Hp Hs. simpl. unfold provider_dispatch. rewrite (unaddressed_runs_generic c e) by done.
  intros (s1 & r1 & E1 & E)%bind_run. unfold try_result in E1.
  destruct (execute_operation _ _ _ _ _ _ (d, x)) as [[[d1 x1] o1]|] eqn:Eo; [|done].
  injection E1 as <- <-. injection E as <- <-. simpl.
  destruct (ProviderOperation_require_approval (operation_for tk the_generic job) None) as [[]|gate] eqn:Hg.
  - eapply execute_operation_cases in Eo; [|exact Hg]. destruct Eo as (res & red & d2 & Ex & -> & _ & Hend).
    apply generic_accepts in Ex as [Hi [detail ->]]; [|done]. split; [done|]. intros o [= <-].
    destruct o1 as [o1|err]; [|right; eauto].
    destruct Hend as [[_ [e1 ?]]|(_ & _ & _ & _ & _ & Hr)]; [done|]. by rewrite (Hr o1 eq_refl); left.
  - eapply denied_operation_cases in Eo; [|exact Hg]. destruct Eo as ([e1 ->] & d2 & [= -> ->] & _).
    split; [done|]. intros o [= <-]. right; eauto.
Qed.
Lemma ignored_stage secrets identity job outcome level detail tk d x s' (r : result ControlPlaneError unit) :
  ignore_result (on_db (record_stage secrets identity job outcome level detail tk)) (d, x) = Done (s', r) → s'.2 = x.
Proof.
  unfold ignore_result. destruct (on_db _ _) as [[s1 r1]|] eqn:E; [|done]. intros [= <- _].
  by apply on_db_run in E as (d' & _ & ->).
Qed.
Lemma unaddressed_dispatch c e tk job d x s' r :
  stocked c e → unaddressed c (job_target job) = true → ta_steps (ax_generic x) = [] →
  dispatch (dispatcher_of e) tk job (d, x) = Done (s', r) →
  idle x s'.2 ∧ ∀ o, r = Ok o → unfinished o.
Proof.
  intros He Hp Hs. simpl. unfold executable_dispatch.
  destruct (identity_for_job job) as [identity|err]; [|intros [= <- <-]; split; [done|intros o [= <-]; right; eauto]].
  destruct (ex_availability e) as [version|reason].
  - intros ([d1 x1] & r1 & E1 & E)%bind_run. apply (unaddressed_provider_dispatch c) in E1 as [Hi Ho]; [|done..].
    destruct r1 as [o|err]; [|by destruct E as [-> ->]]. specialize (Ho o eq_refl).
    destruct Ho as [->|[why ->]];
      apply bind_run in E as (s2 & r2 & E2%ignored_stage & E); simpl in *;
      (destruct r2; [injection E as <- <-|destruct E as [-> ->]]); rewrite E2; (split; [done|]);
      intros o [= <-]; [by left|right; eauto].
  - intros (s2 & r2 & E2%ignored_stage & E)%bind_run. simpl in *.
    destruct r2; [injection E as <- <-|destruct E as [-> ->]]; rewrite E2; (split; [done|]);
      intros o [= <-]; right; eauto.
Qed.

(** ** A worker over such jobs *)

Context `{!Serde RetryPolicy}.
Context (cfg : Config) (e : Executable (P:=P) (B:=B)) (He : stocked cfg e) (self : Worker (X:=X)) (Hself : wk_dispatcher self = dispatcher_of e).
Context (x0 : X).
Definition calm (w : Db * X) : Prop := unaddressed_queue cfg (db_jobs w.1) ∧ idle x0 w.2.
Definition preserves {S} (I : S → Prop) (s s' : S) : Prop := I s → I s'.
#[local] Instance preserves_preorder {S} (I : S → Prop) : PreOrder (preserves I).
Proof. split; [by intros ? ?|intros ??? Ha Hb ?; by apply Hb, Ha]. Qed.

Lemma unaddressed_insert t k r : unaddressed_queue cfg t → unaddressed cfg (jr_target r) = true → unaddressed_queue cfg (<[k := r]> t).
Proof. intros Ht Hr. by apply map_Forall_insert_2. Qed.
Lemma complete_unaddressed id w now : within (preserves (unaddressed_queue cfg)) (pg_complete id w now).
Proof.
  intros t t' r. unfold pg_complete. unfold_monad. destruct (held_by id w t) as [row|] eqn:Eh; intros [= <- _]; [|done].
  intros Ht. apply held_by_spec in Eh as (Hk & _). by apply unaddressed_insert, (Ht _ _ Hk).
Qed.
Lemma fail_unaddressed id w error now : within (preserves (unaddressed_queue cfg)) (pg_fail id w error now).
Proof.
  intros t t' r E Ht. unfold pg_fail in E. unfold_monad_in E.
  destruct (held_by id w t) as [row|] eqn:Eh; simplify_eq/=; [|done]. apply held_by_spec in Eh as (Hk & _).
  repeat (case_match; simplify_eq/=; try done); by apply unaddressed_insert, (Ht _ _ Hk).
Qed.
Lemma recover_unaddressed now : within (preserves (unaddressed_queue cfg)) (recover_expired_leases now).
Proof.
  intros t t' r [= <- _] Ht. apply map_Forall_fmap. intros k row Hk. simpl. case_match; by apply (Ht _ _ Hk).
Qed.
Lemma claim_unaddressed visible w now lease t t' r :
  pg_claim_next visible w now lease t = Done (t', r) → unaddressed_queue cfg t →
  unaddressed_queue cfg t' ∧ ∀ c, r = Ok (Some c) → unaddressed cfg (job_target (cj_job c)) = true.
Proof.
  unfold pg_claim_next. unfold_monad. destruct (datetime_add now lease) as [expires|]; [|done].
  pose proof (candidate_spec visible now t) as Hc. intros E Ht.
  destruct (candidate visible now t) as [row|]; [|by simplify_eq]. destruct Hc as ((k & _ & Hk) & _).
  case_decide; [by simplify_eq|]. destruct (job_from_row _) as [job|] eqn:Ej; [|by simplify_eq].
  injection E as <- <-. split; [by apply unaddressed_insert, (Ht _ _ Hk)|]. intros c [= <-]. simpl.
  unfold job_from_row in Ej. run_op Ej. by apply (Ht _ _ Hk).
Qed.

Lemma jobs_calm {A} (m : M (gmap string JobRow) ControlPlaneError A) :
  within (preserves (unaddressed_queue cfg)) m → within (preserves calm) (jobs_table m).
Proof.
  intros Hm [d x] s' r (d' & E & ->)%on_db_run [Hq Hi]. unfold zoom in E.
  destruct (m (db_jobs d)) as [[t1 r1]|] eqn:Em; [|done]. injection E as <- <-. split; [|done]. by apply (Hm _ _ _ Em).
Qed.
Lemma event_calm now action outcome detail tk : within (preserves calm) (worker_event self now action outcome detail tk).
Proof.
  apply within_bind; [apply _|apply on_db_frame; by intros t d x [Hq Hi]|]. intros _. apply within_ret, _.
Qed.
#[local] Hint Resolve complete_unaddressed fail_unaddressed recover_unaddressed jobs_calm event_calm : within.

Lemma calm_run {A} (m : M (Db * X) ControlPlaneError A) w w' r :
  within (preserves calm) m → m w = Done (w', r) → calm w → calm w'.
Proof. intros Hm E. by apply (Hm _ _ _ E). Qed.
Lemma finalize_calm c tk w w' r :
  unaddressed cfg (job_target (cj_job c)) = true → calm w → finalize self c tk w = Done (w', r) →
  calm w' ∧ ∀ o id, r = Ok o → o ≠ ToCompleted id true.
Proof.
  destruct w as [d x]. intros Hp [Hq [Ho Hs]] ([d1 x1] & r1 & E1 & E)%bind_run. rewrite Hself in E1.
  assert (db_jobs d1 = db_jobs d) as Hj.
  { exact (dispatch_jobs (D := dispatcher_of e) tk (cj_job c) _ _ _ E1). }
  apply (unaddressed_dispatch cfg) in E1 as [[Hi Hs1] Hr]; [|done..].
  assert (calm (d1, x1)) as Hw by (split; simpl; [by rewrite Hj|split; simpl in *; congruence]).
  destruct r1 as [o|err]; [|destruct E as [-> ->]; by split].
  destruct (Hr o eq_refl) as [->|[reason ->]].
  - split; [eapply calm_run; [|exact E|exact Hw]; framed|].
    intros o id ->. apply M_bind_Ok in E as (s2 & u & _ & E). apply M_bind_Ok in E as (s3 & u3 & _ & E).
    by injection E as _ <-.
  - split; [eapply calm_run; [|exact E|exact Hw]; framed|].
    intros o id ->. apply M_bind_Ok in E as (s2 & status & _ & E). apply M_bind_Ok in E as (s3 & u3 & _ & E).
    injection E as _ <-. by destruct status.
Qed.

Definition settled (s : (Db * X) * WorkerStats) : Prop := calm s.1 ∧ st_completed s.2 = 0.
Lemma stats_part_settled {A} (m : M (Db * X) ControlPlaneError A) :
  within (preserves calm) m → within (preserves settled) (stats_part m).
Proof. intros Hm [w st] s' r (w' & E & ->)%stats_part_run [Hw Hst]. split; [by apply (Hm _ _ _ E)|done]. Qed.
Lemma bump_settled f : (∀ st st', f st = Done st' → st_completed st' = st_completed st) →
  within (preserves settled) (bump (X:=X) f).
Proof.
  intros Hf [w st] s' r (st' & E & -> & _)%bump_run [Hw Hst]. split; [done|]. simpl in *. by rewrite (Hf _ _ E).
Qed.
Ltac counted := intros ? ?; unfold add_recovered, add_idle, add_claimed, add_outcome; unfold_monad;
  repeat (case_match; simplify_eq/=; try done); by intros [= <-].
Lemma recovered_settled n : within (preserves settled) (bump (X:=X) (add_recovered n)).
Proof. apply bump_settled. counted. Qed.
Lemma idle_settled : within (preserves settled) (bump (X:=X) add_idle).
Proof. apply bump_settled. counted. Qed.
Lemma claimed_settled : within (preserves settled) (bump (X:=X) add_claimed).
Proof. apply bump_settled. counted. Qed.
Lemma outcome_settled o : (∀ id, o ≠ ToCompleted id true) → within (preserves settled) (bump (X:=X) (add_outcome o)).
Proof. intros Ho. apply bump_settled. destruct o as [| |? []| |]; [..|]; try (by destruct (Ho job)); counted. Qed.
#[local] Hint Resolve stats_part_settled recovered_settled idle_settled claimed_settled : within.

Lemma tick_settled tk : within (preserves settled) (tick_once self tk).
Proof.
  unfold tick_once. apply within_bind; [apply _|auto with within|]. intros recovered.
  apply within_bind; [apply _|destruct recovered; framed|]. intros _. destruct (tk_stopping tk); [framed|].
  intros [w st] s' r (s1 & r1 & (w1 & E1 & ->)%stats_part_run & E)%bind_run [Hw Hst].
  destruct w as [d x]. apply on_db_run in E1 as (d1 & E1 & ->). unfold zoom in E1.
  destruct (pg_claim_next _ _ _ _ _) as [[t1 r2]|] eqn:Ec; [|done]. injection E1 as <- <-.
  destruct Hw as [Hq Hi]. apply claim_unaddressed in Ec as [Ht1 Hc]; [|done].
  assert (settled ((set_jobs t1 d, x), st)) as Hs1 by done.
  destruct r2 as [[c|]|err]; [|revert E Hs1; apply (within_bind _ _ _ idle_settled); framed|by destruct E as [-> _]].
  apply bind_run in E as (s2 & r2 & E2 & E). unfold try_result in E2.
  destruct (stats_part (finalize self c tk) _) as [[s3 o]|] eqn:Ef; [|done]. injection E2 as <- <-.
  apply stats_part_run in Ef as (w3 & Ef & ->). apply finalize_calm in Ef as [Hw3 Ho]; [|by apply Hc|done].
  assert (settled (w3, st)) as Hs3 by done. revert E Hs3.
  apply (within_bind _ _ _ claimed_settled). intros _. destruct o as [o|err]; [|by intros ? ? ? [= <- _]].
  rewrite lift_ok_bind. apply within_bind; [apply _|apply outcome_settled; naive_solver|framed].
Qed.
Lemma run_settled ticks : within (preserves settled) (run self ticks).
Proof.
  induction ticks as [|[stop tk] ticks IH]; simpl; [apply within_ret, _|].
  destruct stop; [apply within_ret, _|]. apply within_bind; [apply _|apply tick_settled|by intros _].
Qed.
End Facts.

Section Assembled.
Context `{UuidLaws} `{JsonLib} `{!Serde FailureRecord} `{!Serde (list ResourceTransition)}.
Context `{!Serde EventActor} `{!Serde EventResult} `{!Serde (list string)} `{!Serde RetryPolicy}.
Context `{Chrono} `{ChronoText} `{SubsecRound} `{BuildProfile} `{PgTime} `{StrLowerLaws} `{HashIterLaws}.
Context {P B : Type} (server : PgOutside P) (files : BucketOutside B).
Context (connect_lazy : string → result string P) (http_client : result string unit) (disk : B).

(** C31: A worker of the assembled control plane executes nothing for jobs whose
    targets contain none of the keys of its own adapters ("postgres.managed" or
    "postgres.local-test", "auth.local-test", "objectstore.fs", "filestore.fs"):
    however many passes it makes, the PostgreSQL server, the buckets and their keys
    stay untouched and no job is completed as ready.  An adapter is chosen by its key
    inside the target, so each such job goes to the generic test double.  The targets
    of resources are such, and so are the API's targets for capabilities like
    "database.postgres"; a caller who names an adapter's key as the capability does
    reach it, which this does not cover. *)
Theorem unaddressed_jobs_execute_nothing c e x availability self ticks d d' x' stats r :
  build server files connect_lazy http_client disk c = Done (Ok (e, x)) →
  wk_dispatcher self = dispatcher_of (with_availability availability e) →
  unaddressed_queue c (db_jobs d) →
  run self ticks ((d, x), WorkerStats_default) = Done (((d', x'), stats), r) →
  ax_postgres x' = ax_postgres x ∧ ax_buckets x' = ax_buckets x ∧ ax_auth x' = ax_auth x ∧
  st_completed stats = 0 ∧ unaddressed_queue c (db_jobs d').
Proof.
  intros Hb Hself Hq E. apply build_stocked in Hb as [[Hk Hg] Hs].
  assert (stocked c (with_availability availability e)) as He by done.
  destruct (run_settled c _ He self Hself x ticks _ _ _ E) as [[Hq' [Ho _]] Hc]; [done|].
  injection Ho as Hp Hbk Ha. done.
Qed.

(** ** From a loaded configuration *)

Lemma trimmed_end c s : trim_end_matches c (trim_end_matches c s) = trim_end_matches c s.
Proof.
  induction s as [|a s IH]; [done|]. simpl. destruct (trim_end_matches c s) as [|b t] eqn:E.
  - case_decide as Ha; [done|]. simpl. by rewrite decide_False.
  - change (trim_end_matches c (String a (String b t)))
      with (match trim_end_matches c (String b t) with
            | "" => if decide (a = c) then "" else String a ""
            | t' => String a t' end). by rewrite IH.
Qed.
(** What building relies on. *)
Record usable (c : Config) : Prop := {
  us_postgres u : provider_postgres_url c = Some u →
    starts_with "postgres://" u || starts_with "postgresql://" u || starts_with "postgres+" u = true;
  us_storage : str_is_empty (provider_storage_root c) = false;
  us_registry endpoint : provider_registry_endpoint c = Some endpoint → is_http_url (trim_end_matches "/" endpoint) = true;
  us_tls : str_is_empty (provider_tls_dir c) = false;
  us_root : str_is_empty (workspace_root c) = false;
}.
Lemma valid_usable c u : Config_validate c = Ok u →
  (∀ endpoint, provider_registry_endpoint c = Some endpoint → trim_end_matches "/" endpoint = endpoint) → usable c.
Proof.
  unfold Config_validate. intros Hv Ht.
  do 8 (apply result_bind_Ok in Hv as (? & _ & Hv)). apply result_bind_Ok in Hv as (? & Hroot & Hv).
  apply result_bind_Ok in Hv as (? & _ & Hv). apply result_bind_Ok in Hv as (? & Hpg & Hv).
  apply result_bind_Ok in Hv as (? & Hst & Hv). apply result_bind_Ok in Hv as (? & Hreg & Htls).
  split; [|by eapply refuse_if_Ok| |by eapply refuse_if_Ok..].
  - intros url Hu. rewrite Hu in Hpg. unfold require_postgres_url in Hpg. by destruct (_ || _ || _).
  - intros endpoint He. rewrite He in Hreg. apply refuse_if_Ok, negb_false_iff in Hreg. by rewrite (Ht _ He).
Qed.
Lemma loaded_usable lookup temp_dir fresh c : Config_from_lookup lookup temp_dir fresh = Ok c → usable c.
Proof.
  unfold Config_from_lookup. intros Hc. repeat (apply result_bind_Ok in Hc as (? & ? & Hc)). simplify_eq.
  eapply valid_usable; [eassumption|]. simpl. unfold text_setting. intros endpoint.
  intros Hv. destruct (lookup "LABRYS_PROVIDER_REGISTRY_ENDPOINT") as [v|]; simpl in Hv; [|by discriminate Hv].
  destruct (trim_is_empty v); simplify_eq. apply trimmed_end.
Qed.

Lemma password_registered admin (pool : Pg P) p :
  admin_password admin = Some p → p ≠ "" → p ∈ pg_credential_secrets admin pool.
Proof. unfold pg_credential_secrets. intros -> Hp. destruct (str_is_empty p) eqn:E; [by destruct p|]. set_solver. Qed.
Lemma postgres_side c :
  usable c → (∀ u, ∃ p, connect_lazy u = Ok p) →
  (∀ u, provider_postgres_url c = Some u → starts_with "postgres+" u = false) →
  ∃ postgres secrets, (match provider_postgres_url c with
     | Some url =>
         '(admin, pool) ← PostgresProvisioner_new connect_lazy url;
         Ok (PaManaged admin pool, provider_secret_values c ++ pg_credential_secrets admin pool)
     | None => Ok (PaDouble new_double, provider_secret_values c)
     end) = (Ok (postgres, secrets) : result ControlPlaneError (PostgresAdapter P * list string)) ∧
    provider_secret_values c ⊆ secrets ∧
    ∀ u p, provider_postgres_url c = Some u → admin_password_of u = Some p → p ≠ "" → p ∈ secrets.
Proof.
  intros Hc Hpool Hscheme. destruct (provider_postgres_url c) as [u|] eqn:Eu; [|eexists _, _; by split].
  pose proof (us_postgres _ Hc u Eu) as Hu. rewrite (Hscheme u eq_refl), orb_false_r in Hu.
  unfold PostgresProvisioner_new. rewrite Hu. simpl negb. cbv iota. destruct (admin_host_port u) as [host port].
  destruct (Hpool u) as [pool ->]. eexists _, _. split; [reflexivity|]. split; [set_solver|].
  intros u' p [= <-] Ha Hp. apply elem_of_app. right. by apply password_registered.
Qed.
Lemma registry_side c :
  usable c → http_client = Ok tt →
  ∃ registry, (match provider_registry_endpoint c with
     | Some endpoint =>
         client ← OciRegistryClient_new http_client endpoint
                    (provider_registry_username c) (provider_registry_password c);
         Ok (Some client)
     | None => Ok None
     end) = (Ok registry : result ControlPlaneError (option OciRegistryClient)) ∧
    ∀ p, is_Some (provider_registry_endpoint c) → provider_registry_password c = Some p → p ≠ "" →
      ∃ client, registry = Some client ∧ p ∈ oc_credential_secrets client.
Proof.
  intros Hc ->. destruct (provider_registry_endpoint c) as [endpoint|] eqn:Ee;
    [|eexists; split; [done|]; by intros p [? ?]].
  unfold OciRegistryClient_new. rewrite (us_registry _ Hc _ Ee). simpl negb. cbv iota. eexists. split; [reflexivity|].
  intros p _ Hp Hne. eexists. split; [done|]. unfold oc_credential_secrets. simpl. rewrite Hp.
  destruct (str_is_empty p) eqn:E; [by destruct p|]. set_solver.
Qed.

(** C32: A configuration that loads also builds, once its HTTP client and its
    pool can be made: the checks at load cover every check of the adapters, except
    that the URL of the managed PostgreSQL may have a scheme the provisioner refuses.
    Whatever password the configuration or an adapter of it registers is redacted by
    the dispatcher, and no runtime is assumed before the probe. *)
Theorem loaded_config_builds `{!ChronoLaws} lookup temp_dir fresh c :
  Config_from_lookup lookup temp_dir fresh = Ok c → http_client = Ok tt → (∀ u, ∃ p, connect_lazy u = Ok p) →
  (∀ u, provider_postgres_url c = Some u → starts_with "postgres+" u = false) →
  ∃ e x, build server files connect_lazy http_client disk c = Done (Ok (e, x)) ∧
    provider_secret_values c ⊆ ex_secrets e ∧
    (∀ u p, provider_postgres_url c = Some u → admin_password_of u = Some p → p ≠ "" → p ∈ ex_secrets e) ∧
    (∀ p, is_Some (provider_registry_endpoint c) → provider_registry_password c = Some p → p ≠ "" → p ∈ ex_secrets e) ∧
    is_available (ex_availability e) = false.
Proof.
  intros Hload%loaded_usable Hhttp Hpool Hscheme. unfold build.
  destruct (postgres_side c) as (postgres & secrets & -> & Hs & Hp); [done..|].
  unfold FsBucketBackend_new, FsBucketBackend_with_ttl, OpensslTlsIssuer_new, WorkspaceRoot_new.
  rewrite duration_seconds_in by (vm_compute; split; discriminate).
  rewrite (us_storage _ Hload), (us_tls _ Hload), (us_root _ Hload). simpl.
  destruct (registry_side c) as (registry & -> & Hr); [done..|]. simpl. eexists _, _. split; [reflexivity|]. simpl.
  split_and!; [destruct registry; set_solver|..|done].
  - intros u p Hu Ha Hn. pose proof (Hp u p Hu Ha Hn). destruct registry; set_solver.
  - intros p He Hpw Hn. destruct (Hr p He Hpw Hn) as (client & -> & ?). set_solver.
Qed.
End Assembled.

(* ------------------------------------------------------------------ *)
(** * Examples *)

Module AssemblyExamples.
Import RefInstances RefPg RefValues DeliveryExamples WorkerExamples ConfigExamples RefServer RefBuckets.
#[local] Instance ascii_case : StrLower := { to_lowercase := to_ascii_lowercase }.
#[local] Instance ascii_case_laws : StrLowerLaws.
Proof. constructor. done. Qed.

Definition settings (url key : string) : option string :=
  if decide (key = "LABRYS_PROVIDER_POSTGRES_URL") then Some url else env key.
Definition managed : string → option string := settings "postgres://admin:s3cret-pw@db/x".
Definition config : Config :=
  match Config_from_lookup managed "/tmp" (uuid 7) with Ok c => c | Err _ => loaded end.
(** A server with room for databases and an empty disk. *)
Definition pool (url : string) : result string Server := Ok (mkServer ∅ ∅ 3 900).
Definition made := build server disk pool (Ok tt) (mkDisk ∅ 5 700) config.
Definition nothing_made : Executable (P:=Server) (B:=Disk) * Adapters Server Disk :=
  (mkExecutable ∅ [] "" "" None (mkIssuer "" "") (RaUnavailable "") 0 [],
   mkAdapters (PaDouble new_double) blank new_double new_double).
Definition parts : Executable * Adapters Server Disk :=
  match made with Done (Ok p) => p | _ => nothing_made end.
Lemma made_eq : made = Done (Ok (parts.1, parts.2)).
Proof.
  rewrite <- surjective_pairing. assert (match made with Done (Ok _) => true | _ => false end = true) as Hm by (vm_compute; reflexivity).
  unfold parts. by destruct made as [[p|]|].
Qed.
Definition live : Worker (X:=Adapters Server Disk) :=
  mkWorker (dispatcher_of (with_availability (RaAvailable "27") parts.1)) "w1" (sec 30) [].
(** The job the API makes for a PostgreSQL capability. *)
Definition capability_target : string := id_fmt (mkId (uuid 41) : ApplicationId) +:+ ":capability:database.postgres".
Definition db1 : Db :=
  set_jobs (done_or ∅ (run_pg_op (PgEnqueue job1 capability_target JProvision 1 twice (sec 0)) ∅)) db0.
Definition passes := run live [(false, tick_at 1); (false, tick_at 2)] ((db1, parts.2), WorkerStats_default).
Definition no_passes : ((Db * Adapters Server Disk) * WorkerStats) * result ControlPlaneError unit :=
  (((db1, parts.2), WorkerStats_default), Ok tt).
Definition later := (done_or no_passes passes).1.
Lemma passes_eq : passes = Done (((later.1.1, later.1.2), later.2), Ok tt).
Proof. rewrite <- !surjective_pairing. apply is_done_pair; vm_compute; reflexivity. Qed.

(** The provisioning job of a PostgreSQL capability was claimed and closed as in progress. *)
Lemma unaddressed_jobs_execute_nothing_witness :
  later.2 = mkStats 0 1 0 1 0 0 1 ∧ ax_buckets later.1.2 = ax_buckets parts.2 ∧ unaddressed_queue config (db_jobs later.1.1).
Proof.
  split; [vm_compute; reflexivity|].
  assert (unaddressed_queue config (db_jobs db1)) as Hq by (apply (bool_decide_unpack _); vm_compute; exact I).
  destruct (unaddressed_jobs_execute_nothing server disk pool (Ok tt) (mkDisk ∅ 5 700) config parts.1 parts.2
    (RaAvailable "27") live _ db1 _ _ _ _ made_eq eq_refl Hq passes_eq) as (_ & Hb & _ & _ & Hq').
  exact (conj Hb Hq').
Defined.
Lemma loaded_config_builds_witness :
  ∃ e x, made = Done (Ok (e, x)) ∧ provider_secret_values config ⊆ ex_secrets e ∧ is_available (ex_availability e) = false.
Proof.
  destruct (loaded_config_builds server disk pool (Ok tt) (mkDisk ∅ 5 700) managed "/tmp" (uuid 7) config)
    as (e & x & E & Hs & _ & _ & Ha).
  - vm_compute. reflexivity.
  - reflexivity.
  - intros u. eexists. reflexivity.
  - intros u [= <-]. vm_compute. reflexivity.
  - exists e, x. exact (conj E (conj Hs Ha)).
Defined.

(** A URL the configuration accepts and the provisioner refuses. *)
Example accepted_but_not_built :
  match Config_from_lookup (settings "postgres+ssl://admin:pw@db/x") "/tmp" (uuid 7) with
  | Ok c => match build server disk pool (Ok tt) (mkDisk ∅ 5 700) c with Done (Err _) => true | _ => false end
  | Err _ => false
  end = true.
Proof. vm_compute. reflexivity. Qed.

(** A target that names the adapter is no resource identifier: an attempt makes the
    role and the database of an identifier drawn for it, and reports a resource as
    ready that the tables do not have. *)
Definition named : Job := mkJob job1 "app:capability:postgres.managed" JProvision "k" Running 1 twice 0 None 0 0.
Definition named_run := dispatch (provider_of parts.1) (tick_at 1) named (db1, parts.2).
Example database_of_nobody :
  match named_run with
  | Done ((d, x), Ok (DoReady id)) =>
      match ax_postgres x with
      | PaManaged _ s => bool_decide (size (sv_databases (pg_server s)) = 1%nat ∧ db_resources d !! id_fmt id = None)
      | PaDouble _ => false
      end
  | _ => false
  end = true.
Proof. vm_compute. reflexivity. Qed.
End AssemblyExamples.
